(* ===== verification/_CoqProject ===== *)
-Q . S2P
Prelude.v
Memory.v
Types.v
Value.v
Bitmap.v
Column.v
Record.v
TablePage.v
LockManager.v
TransactionManager.v
StringUtil.v
Disk.v
Lru.v
LogRecord.v
LogManager.v
BufferPool.v
Storage.v
Visibility.v
Table.v
TableScan.v
Recovery.v
Restart.v
Like.v
Expressions.v
Executor.v
Pipeline.v
OrderBy.v
Join.v
OidManager.v
Schema.v
Query.v
SystemCatalog.v
SimpleCatalog.v
Select.v
Plan.v
Texts.v
NodeTags.v
Bound.v
Binder.v
Planner.v
Meaning.v
Optimizer.v
Dml.v
Typing.v
Statements.v
Frames.v
Resolve.v
Engine.v
Session.v
SimpleFrontEnd.v
Autocommit.v
Boot.v
Runs.v
