(* ===== verification/Prelude.v ===== *)
(** A verification of HuaDB, a teaching database in C++ ([src/src]): a relational
    engine with a page store, a write-ahead log, locks, multi-version records, a query
    planner and executors, over a vendored SQL parser. The library models the program
    from the bytes of a page up to the text a connection sends, and the whole model
    can be run: [Runs.v] creates a database, executes statements, crashes and recovers.

    * How the code is modelled

    An operation is a function of the program's state. [res A] is a result or an
    exception; [Prelude.exn] has a constructor for the class [DbException] of
    [common/exceptions.h], one for the exceptions of the standard library, one for a
    failed [assert] and [Undefined] for undefined behaviour of C++, which is never a
    result. [M S A] is an operation on the state [S]: it ends in a [res A] and a state,
    also when it throws. [zoom] runs an operation of a component on its part of a larger
    state. A [w]-bit integer is a [Z], with [u16], [u32], [u64], [i32] where it wraps. A
    character array is a list of bytes, and every [memcpy] is checked against its bounds.
    [std::map], [unordered_map] and sets are stdpp's [gmap] and [gset]; where the order
    of a hash table can be seen it is a parameter ([MapOrder], [OidOrder], [NameOrder]),
    as are fresh memory ([Allocator]), [std::sort] ([StdSort]), the regular expressions
    outside the fragment of [Like.v] ([Ecma]), the text of doubles and vectors ([Fmt])
    and the SQL parser ([Parse] in [FrontEnd]). Each class states documented behaviour
    only and has an instance. Objects that are shared and changed are kept in a store:
    pages in a heap of [BufferPool.v], inodes in [Disk.v], loaded tables in the
    [System] of [Query.v], expressions with an alias in [Planner.v]. The program does its
    work under one thread per statement; concurrency is the interleaving of statements
    and of operations of different transactions, as reachable sequences of steps.

    A loop whose end is not structural has fuel, and running out of it is the exception
    [Undefined]. The theorems prove the end: they give an amount of fuel that is enough
    (the number of pages and slots of a table for a scan, of records for an executor, of
    log records for a rollback), or show that no amount is (Recovery.rollback_before_first_flush_never_ends).
    The runs of [Runs.v] have fuel 40, more than their tables, catalogs and logs have records.

    * The parts, from the bottom

    - [Memory], [Types], [Value], [Bitmap], [Column], [Schema], [Record]: integers and
      constants ([common/types.h], [constants.h]), values ([common/value.cpp],
      [type_util.cpp]), null bitmaps, schemas ([catalog/column_list.cpp]), records and their encoding
      ([table/record.cpp]). Round trips of records and of schemas.
    - [Disk], [StringUtil]: files and the log file over inodes ([storage/disk.cpp]).
    - [TablePage]: the slotted page on its 256 bytes ([table/table_page.cpp]), which
      refines an abstract page; redo rebuilds what insert did, byte for byte.
    - [LogRecord], [LogManager], [Recovery]: log records and their encoding, appending,
      flushing, checkpoints, rollback and the three phases of recovery
      ([log/log_manager.cpp], [log/log_records]). The log is a gapless sequence with
      consistent chains; a commit is durable; rollback undoes exactly its transaction,
      once something was flushed or when the log does not begin at LSN 0 ([log_begun]).
    - [Restart]: recovery from end to end on the disk a crash leaves. Analyze restores
      the tables of the log manager from the log; Recover redoes on every page what it
      has missed and then rolls back the transactions that did not end. The log has a
      checkpoint and row records after it: NEW_PAGE records cannot be redone twice, and
      the first of a table not at all. At most [BUFFER_SIZE] pages are behind, since a
      page that is evicted during redo is forgotten. More fuel than records is enough.
    - [Lru], [BufferPool], [Storage]: the page cache over the interface [Wal] of the log
      ([storage/buffer_pool.cpp]), assembled with the log manager in [Storage]. The pool
      refines a map of pages; a dirty page of a user table is written after its log; the
      pages of system tables are written without a flush of the log.
    - [LockManager], [TransactionManager], [Visibility]: locks ([transaction/]), command
      counters and snapshots, and the rule by which a version is visible
      ([TableScan::CanGet]). Granted locks are compatible; isolation levels keep what they
      say, repeatable reads for versions that one transaction at a time marks deleted.
    - [Table], [TableScan]: the page chain of a table ([table/table.cpp],
      [table_scan.cpp]). A scan ends and returns the visible versions in order.
    - [Like], [Expressions]: expressions of a plan and their evaluation
      ([operators/expressions]).
    - [Executor], [Pipeline], [OrderBy], [Join], [Query], [Select], [Dml], [Plan]: the
      executors ([executors/]) behind one interface, [Next] until it returns null;
      [delivers] is the specification each one meets. [Plan] has the operators and the
      executor factory, and proves that running a query plan gives what the plan denotes;
      [Statements] the same for INSERT, DELETE and UPDATE.
    - [OidManager], [SystemCatalog], [SimpleCatalog]: object ids and the two catalogs
      ([catalog/]), the tables of tables kept in the database itself, or in text files,
      as the macro [SIMPLE_CATALOG] chooses. The tables in text files survive a restart.
    - [NodeTags], [Bound], [Binder], [Resolve]: from a parse tree to a bound statement
      ([binder/]). [Binder.PGNode] has the nodes of the vendored parser that the
      code reads. [Resolve] proves where a name leads, from the query to the plan.
    - [Planner], [Meaning], [Texts]: from a bound query to a plan ([planner/planner.cpp]).
      [Meaning] gives bound queries a meaning with columns by name, and proves that the plan of a
      SELECT without aggregates and DISTINCT answers it.
    - [Typing]: the values a query returns have the types its plan declares, and where not.
    - [Optimizer]: predicate splitting, push-down and join order
      ([optimizer/optimizer.cpp]). Splitting keeps the answers; pushing down does not.
    - [Frames], [Engine], [Session], [Autocommit]: the engine ([database/]) over the
      interface [FrontEnd] of the parser and the catalog, whose law [FrontEndSpec] is that they leave
      transactions alone. [Session] has the invariant of connections and transactions
      for every text and every error; [Autocommit] follows a statement from its text to the disk.
    - [Boot], [SimpleFrontEnd], [Runs]: the two catalogs as instances of [FrontEnd],
      the constructor and destructor of the engine with the system catalog. [Runs] has
      examples of runs of the whole program: crashes and what is lost or comes back after
      them, and answers that are wrong.

    * What is not modelled

    The SQL parser ([third_party/libpg_query], a parameter), formatting and terminal
    libraries; [common/result_writer.h] and [bin/], which write to terminals and sockets:
    the model returns what is written, without what was written before an exception,
    and the lines the code prints to standard output for debugging are left out. The
    working directory of [Disk] (its paths are those in the data directory) and failing
    system calls. Of GREEDY join order only what precedes its first undefined comparison
    ([optimizer.cpp], line 267), which every plan with a join reaches: what follows has no
    meaning. Destructors run by an exception that leaves the program. [transaction/lock.h] is dead
    code. Threads inside a statement and data races do not arise: the locks of [LogManager]
    and the atomic counters are plain fields. No theorem covers the answers of aggregates and DISTINCT
    beyond the executors' stubs, which return no records in the source. *)
From Stdlib Require Export ZArith Lia.
From stdpp Require Export base tactics list gmap strings pretty numbers fin_maps.
From coqutil Require Byte Word.LittleEndianList.
Export coqutil.Byte LittleEndianList.

#[global] Open Scope Z_scope.
#[global] Set Default Goal Selector "!".

#[global] Arguments le_split : simpl never.
#[global] Arguments le_combine : simpl never.
#[global] Arguments Z.pow : simpl never.

(** ** Exceptions, undefined behaviour and the two monads *)

(** What a C++ operation can end with when it does not return normally.
    [DbException] is [huadb::DbException] with its message, [StdException] an
    exception of the standard library, [Undefined] an access the language
    leaves undefined (out of bounds, null, signed overflow, ...). *)
Inductive exn :=
| DbException (message : string)
| StdException (message : string)
| AssertFailed (message : string)
| Undefined (message : string).

#[export] Instance exn_eq_dec : EqDecision exn.
Proof. solve_decision. Defined.

Inductive res (A : Type) :=
| Ok (a : A)
| Err (e : exn).
Arguments Ok {A} a.
Arguments Err {A} e.

#[export] Instance res_ret : MRet res := λ A a, Ok a.
#[export] Instance res_bind : MBind res := λ A B f x,
  match x with Ok a => f a | Err e => Err e end.
#[export] Instance res_fmap : FMap res := λ A B f x,
  match x with Ok a => Ok (f a) | Err e => Err e end.

Definition is_ok {A} (x : res A) : bool :=
  match x with Ok _ => true | Err _ => false end.

(** Stateful code. An exception keeps the state reached when it was thrown:
    C++ does not undo the assignments made before a [throw]. *)
Definition M (S A : Type) : Type := S → res A * S.

#[export] Instance M_ret {S} : MRet (M S) := λ A a s, (Ok a, s).
#[export] Instance M_bind {S} : MBind (M S) := λ A B f x s,
  match x s with
  | (Ok a, s') => f a s'
  | (Err e, s') => (Err e, s')
  end.

Definition throw {S A} (e : exn) : M S A := λ s, (Err e, s).
Definition get {S} : M S S := λ s, (Ok s, s).
Definition gets {S A} (f : S → A) : M S A := λ s, (Ok (f s), s).
Definition modify {S} (f : S → S) : M S unit := λ s, (Ok (), f s).
Definition lift {S A} (x : res A) : M S A := λ s, (x, s).
(** Run an operation of a component on the part of the state it owns. *)
Definition zoom {S T A} (getter : S → T) (setter : T → S → S) (m : M T A) : M S A :=
  λ s, let '(r, t) := m (getter s) in (r, setter t s).

Lemma bind_Ok {A B} (x : res A) (f : A → res B) (b : B) :
  x ≫= f = Ok b ↔ ∃ a, x = Ok a ∧ f a = Ok b.
Proof. destruct x; simpl; naive_solver. Qed.

Lemma M_bind_Ok {S A B} (x : M S A) (f : A → M S B) (s s'' : S) (b : B) :
  (x ≫= f) s = (Ok b, s'') ↔ ∃ a s', x s = (Ok a, s') ∧ f a s' = (Ok b, s'').
Proof.
  unfold mbind, M_bind. destruct (x s) as [[a|e] s'] eqn:Hx; [naive_solver|].
  split; [done|]. intros (a & t & [=] & _).
Qed.

Lemma M_bind_step {S A B} (x : M S A) (f : A → M S B) (s s' : S) (a : A) :
  x s = (Ok a, s') → (x ≫= f) s = f a s'.
Proof. unfold mbind, M_bind. by intros ->. Qed.

Lemma M_bind_err {S A B} (x : M S A) (f : A → M S B) (s s' : S) (e : exn) :
  x s = (Err e, s') → (x ≫= f) s = (Err e, s').
Proof. unfold mbind, M_bind. by intros ->. Qed.

(** Take apart a successful run of a sequence of operations. *)
Ltac inv_bind :=
  repeat match goal with
  | H : _ ≫= _ = Ok _ |- _ =>
      let a := fresh "a" in let Ha := fresh "Hb" in
      apply bind_Ok in H as (a & Ha & H)
  | H : (_ ≫= _) _ = (Ok _, _) |- _ =>
      let a := fresh "a" in let s := fresh "s" in let Ha := fresh "Hb" in
      apply M_bind_Ok in H as (a & s & Ha & H)
  | H : Ok _ = Ok _ |- _ => injection H as H; subst
  | H : mret _ = Ok _ |- _ => injection H as H; subst
  end; simplify_eq/=.

(** Reduce the binds of the two monads and nothing else. *)
Ltac rs := cbn [mbind res_bind mret res_ret fmap res_fmap M_ret].

(** ** Machine integers

    Unsigned arithmetic of C++ wraps; signed overflow is undefined. *)
Definition u8 (z : Z) : Z := z mod 2 ^ 8.
Definition u16 (z : Z) : Z := z mod 2 ^ 16.
Definition u32 (z : Z) : Z := z mod 2 ^ 32.
Definition u64 (z : Z) : Z := z mod 2 ^ 64.
(** The value of the 32-bit pattern [z] read as a two's complement [int32_t]. *)
Definition i32 (z : Z) : Z :=
  let w := z mod 2 ^ 32 in if w <? 2 ^ 31 then w else w - 2 ^ 32.
Definition in_i32 (z : Z) : bool := (- 2 ^ 31 <=? z) && (z <? 2 ^ 31).

Lemma u16_small z : 0 <= z < 2 ^ 16 → u16 z = z.
Proof. apply Z.mod_small. Qed.
Lemma u32_small z : 0 <= z < 2 ^ 32 → u32 z = z.
Proof. apply Z.mod_small. Qed.
Lemma u64_small z : 0 <= z < 2 ^ 64 → u64 z = z.
Proof. apply Z.mod_small. Qed.
Lemma u16_range z : 0 <= u16 z < 2 ^ 16.
Proof. by apply Z.mod_pos_bound. Qed.
Lemma u32_range z : 0 <= u32 z < 2 ^ 32.
Proof. by apply Z.mod_pos_bound. Qed.
Lemma u64_range z : 0 <= u64 z < 2 ^ 64.
Proof. by apply Z.mod_pos_bound. Qed.
Lemma i32_u32 z : - 2 ^ 31 <= z < 2 ^ 31 → i32 (u32 z) = z.
Proof.
  intros Hz. unfold i32, u32. rewrite Z.mod_mod by lia.
  destruct (decide (0 <= z)).
  - rewrite Z.mod_small by lia. destruct (Z.ltb_spec z (2 ^ 31)); lia.
  - replace (z mod 2 ^ 32) with (z + 2 ^ 32).
    + destruct (Z.ltb_spec (z + 2 ^ 32) (2 ^ 31)); lia.
    + apply Z.mod_unique with (q := -1); lia.
Qed.

(** The string ["\n"]. *)
Definition newline : string := String.String (Ascii.ascii_of_nat 10) "".

(** ** Steps of a stateful computation *)

Lemma lift_step {S A B} (x : res A) (a : A) (f : A → M S B) (s : S) :
  x = Ok a → (lift x ≫= f) s = f a s.
Proof. by intros ->. Qed.
Lemma get_step {S B} (f : S → M S B) (s : S) : (get ≫= f) s = f s s.
Proof. done. Qed.
Lemma gets_step {S A B} (g : S → A) (f : A → M S B) (s : S) : (gets g ≫= f) s = f (g s) s.
Proof. done. Qed.
Lemma modify_step {S B} (g : S → S) (f : unit → M S B) (s : S) :
  (modify g ≫= f) s = f () (g s).
Proof. done. Qed.

Lemma bind_assoc_run {S A B C} (x : M S A) (f : A → M S B) (g : B → M S C) (s : S) :
  ((x ≫= f) ≫= g) s = (x ≫= (λ a, f a ≫= g)) s.
Proof. unfold mbind, M_bind. by destruct (x s) as [[a|e] s']. Qed.

(** Computations in the order of a list. *)
Fixpoint seqR {A} (l : list (res A)) : res (list A) :=
  match l with [] => Ok [] | x :: l => a ← x; rest ← seqR l; Ok (a :: rest) end.
Fixpoint seqM {S A} (l : list (M S A)) : M S (list A) :=
  match l with [] => mret [] | x :: l => a ← x; rest ← seqM l; mret (a :: rest) end.

Lemma seqR_map_Ok {A B} (f : A → res B) (l : list A) (l' : list B) :
  seqR (map f l) = Ok l' ↔ Forall2 (λ a b, f a = Ok b) l l'.
Proof.
  revert l'. induction l as [|a l IH]; intros l'; simpl.
  - split; [intros [= <-]; constructor|by inversion 1].
  - rewrite bind_Ok. split.
    + intros (b & Hb & H). apply bind_Ok in H as (r & Hr & [= <-]). constructor; [done|by apply IH].
    + inversion 1 as [|? b ? r Hb Hr]; subst. exists b. split; [done|]. apply bind_Ok. exists r. split; [by apply IH|done].
Qed.

(** ** Lists *)

Lemma list_filter_all {A} (P : A → Prop) `{∀ x, Decision (P x)} (l : list A) :
  Forall P l → filter P l = l.
Proof. induction 1; [done|]. rewrite filter_cons_True by done. by f_equal. Qed.

Lemma list_filter_ext {A} (P Q : A → Prop) `{∀ x, Decision (P x)} `{∀ x, Decision (Q x)} (l : list A) :
  (∀ x, P x ↔ Q x) → filter P l = filter Q l.
Proof.
  intros HPQ. induction l as [|x l IH]; [done|]. destruct (decide (P x)).
  - rewrite !filter_cons_True by naive_solver. by f_equal.
  - rewrite !filter_cons_False by naive_solver. done.
Qed.

Lemma foldl_reverse {A B} (f : B → A → A) (l : list B) (a : A) :
  foldl (λ a b, f b a) a (reverse l) = foldr f a l.
Proof. induction l as [|b l IH]; [done|]. by rewrite reverse_cons, foldl_app, IH. Qed.
