(* ===== verification/Memory.v ===== *)
(** Character arrays: the raw memory the program reads and writes with
    [memcpy]. An array is its list of bytes; an access outside the array is
    undefined behaviour and ends in [Undefined]. Integers are stored in
    little-endian order, as on the x86-64 machines the program is built for. *)
From S2P Require Import Prelude.

Abbreviation bytes := (list Init.Byte.byte).

Definition mem_len (d : bytes) : Z := Z.of_nat (length d).

(** [memcpy(dst, data + off, n)] *)
Definition mem_read (off n : Z) (d : bytes) : res bytes :=
  if (0 <=? off) && (0 <=? n) && (off + n <=? mem_len d)
  then Ok (take (Z.to_nat n) (drop (Z.to_nat off) d))
  else Err (Undefined "read outside the array").

(** The array after [memcpy(data + off, src, len)]. *)
Definition splice (k : nat) (bs d : bytes) : bytes :=
  take k d ++ bs ++ drop (k + length bs) d.

Definition mem_write (off : Z) (bs d : bytes) : res bytes :=
  if (0 <=? off) && (off + mem_len bs <=? mem_len d)
  then Ok (splice (Z.to_nat off) bs d)
  else Err (Undefined "write outside the array").

(** [memcpy] of an unsigned integer of [n] bytes. *)
Definition get_uint (off n : Z) (d : bytes) : res Z :=
  bs ← mem_read off n d; Ok (le_combine bs).
Definition put_uint (off n z : Z) (d : bytes) : res bytes :=
  mem_write off (le_split (Z.to_nat n) z) d.

Lemma mem_len_app b1 b2 : mem_len (b1 ++ b2) = mem_len b1 + mem_len b2.
Proof. unfold mem_len. rewrite length_app. lia. Qed.

Lemma mem_len_nonneg b : 0 <= mem_len b.
Proof. unfold mem_len. lia. Qed.
#[export] Hint Resolve mem_len_nonneg : core.

Lemma lookup_splice k bs d i :
  (k + length bs ≤ length d)%nat →
  splice k bs d !! i =
    if decide (k ≤ i < k + length bs)%nat then bs !! (i - k)%nat else d !! i.
Proof.
  intros Hk. unfold splice. case_decide as Hi.
  - rewrite lookup_app_r; rewrite length_take_le by lia; [|lia].
    by rewrite lookup_app_l by lia.
  - destruct (decide (i < k)%nat).
    + rewrite lookup_app_l by (rewrite length_take_le; lia).
      by rewrite lookup_take_lt.
    + rewrite lookup_app_r; rewrite length_take_le by lia; [|lia].
      rewrite lookup_app_r by lia. rewrite lookup_drop. f_equal. lia.
Qed.

Lemma length_splice k bs d :
  (k + length bs ≤ length d)%nat → length (splice k bs d) = length d.
Proof.
  intros. unfold splice.
  rewrite !length_app, length_take_le, length_drop by lia. lia.
Qed.

Lemma lookup_slice k n (d : bytes) i :
  take n (drop k d) !! i = if decide (i < n)%nat then d !! (k + i)%nat else None.
Proof.
  case_decide.
  - by rewrite lookup_take_lt, lookup_drop.
  - by rewrite lookup_take_ge by lia.
Qed.

Lemma mem_read_Ok off n d bs :
  mem_read off n d = Ok bs ↔
  0 <= off ∧ 0 <= n ∧ off + n <= mem_len d ∧
  bs = take (Z.to_nat n) (drop (Z.to_nat off) d).
Proof.
  unfold mem_read.
  destruct (Z.leb_spec 0 off), (Z.leb_spec 0 n),
    (Z.leb_spec (off + n) (mem_len d)); simpl; naive_solver lia.
Qed.

Lemma mem_read_in off n d :
  0 <= off → 0 <= n → off + n <= mem_len d →
  mem_read off n d = Ok (take (Z.to_nat n) (drop (Z.to_nat off) d)).
Proof. intros. by apply mem_read_Ok. Qed.

Lemma mem_write_Ok off bs d d' :
  mem_write off bs d = Ok d' ↔
  0 <= off ∧ off + mem_len bs <= mem_len d ∧ d' = splice (Z.to_nat off) bs d.
Proof.
  unfold mem_write.
  destruct (Z.leb_spec 0 off), (Z.leb_spec (off + mem_len bs) (mem_len d));
    simpl; naive_solver lia.
Qed.

Lemma mem_write_in off bs d :
  0 <= off → off + mem_len bs <= mem_len d →
  mem_write off bs d = Ok (splice (Z.to_nat off) bs d).
Proof. intros. by apply mem_write_Ok. Qed.

Lemma mem_read_length off n d bs : mem_read off n d = Ok bs → mem_len bs = n.
Proof.
  intros (?&?&?&->)%mem_read_Ok. unfold mem_len in *.
  rewrite length_take, length_drop. lia.
Qed.

Lemma mem_write_length off bs d d' : mem_write off bs d = Ok d' → mem_len d' = mem_len d.
Proof.
  intros (?&?&->)%mem_write_Ok. unfold mem_len in *.
  rewrite length_splice by lia. done.
Qed.

Lemma mem_read_write_same off bs d d' n :
  mem_write off bs d = Ok d' → n = mem_len bs → mem_read off n d' = Ok bs.
Proof.
  intros Hw ->. pose proof (mem_write_length _ _ _ _ Hw).
  apply mem_write_Ok in Hw as (?&?&->). apply mem_read_Ok.
  unfold mem_len in *. rewrite length_splice by lia. repeat split; [lia..|].
  apply list_eq; intros i. rewrite lookup_slice, lookup_splice by lia.
  repeat case_decide; [|lia|by apply lookup_ge_None; lia].
  f_equal; lia.
Qed.

Lemma mem_read_write_other off bs d d' o n :
  mem_write off bs d = Ok d' →
  o + n <= off ∨ off + mem_len bs <= o →
  mem_read o n d' = mem_read o n d.
Proof.
  intros Hw Hd. pose proof (mem_write_length _ _ _ _ Hw) as Hl.
  apply mem_write_Ok in Hw as (?&?&->).
  unfold mem_read. rewrite Hl.
  destruct (Z.leb_spec 0 o), (Z.leb_spec 0 n), (Z.leb_spec (o + n) (mem_len d));
    simpl; try done.
  f_equal. unfold mem_len in *.
  apply list_eq; intros i. rewrite !lookup_slice, lookup_splice by lia.
  repeat case_decide; try done; lia.
Qed.

(** Consecutive copies are one copy, in both directions. *)
Lemma mem_write_app off b1 b2 d :
  mem_write off (b1 ++ b2) d =
  (d1 ← mem_write off b1 d; mem_write (off + mem_len b1) b2 d1).
Proof.
  unfold mem_write at 1. unfold mem_len. rewrite length_app.
  destruct (Z.leb_spec 0 off); simpl;
    [|by unfold mem_write; destruct (Z.leb_spec 0 off); [lia|]].
  destruct (Z.leb_spec (off + Z.of_nat (length b1 + length b2)) (Z.of_nat (length d))).
  - rewrite mem_write_in by (unfold mem_len; lia). simpl.
    rewrite mem_write_in by (unfold mem_len; rewrite ?length_splice; lia).
    f_equal. apply list_eq; intros i.
    rewrite !lookup_splice; rewrite ?length_splice, ?length_app; try lia.
    repeat case_decide; try lia.
    + rewrite lookup_app_r by lia. f_equal. lia.
    + by rewrite lookup_app_l by lia.
    + done.
  - unfold mem_write. destruct (Z.leb_spec 0 off); [|lia]. simpl.
    destruct (Z.leb_spec (off + mem_len b1) (mem_len d)) as [Hb|]; [|done]. simpl.
    unfold mem_len in *. rewrite length_splice by lia.
    destruct (Z.leb_spec 0 (off + Z.of_nat (length b1))); [|done]. simpl.
    destruct (Z.leb_spec (off + Z.of_nat (length b1) + Z.of_nat (length b2))
      (Z.of_nat (length d))); [lia|done].
Qed.

Lemma mem_read_app off n m d bs :
  0 <= n → 0 <= m → mem_read off (n + m) d = Ok bs →
  mem_read off n d = Ok (take (Z.to_nat n) bs) ∧
  mem_read (off + n) m d = Ok (drop (Z.to_nat n) bs).
Proof.
  intros ? ? (?&?&?&->)%mem_read_Ok. rewrite !mem_read_Ok. repeat split; try lia.
  - rewrite take_take. f_equal. lia.
  - rewrite skipn_firstn_comm, drop_drop. f_equal; [lia|]. f_equal. lia.
Qed.

(** Writing back what was read changes nothing. *)
Lemma mem_write_read off n d bs :
  mem_read off n d = Ok bs → mem_write off bs d = Ok d.
Proof.
  intros Hr. pose proof (mem_read_length _ _ _ _ Hr) as Hl.
  apply mem_read_Ok in Hr as (?&?&?&->).
  rewrite mem_write_in by lia. f_equal.
  unfold mem_len in *. apply list_eq; intros i.
  rewrite lookup_splice by lia. case_decide; [|done].
  rewrite lookup_slice. case_decide; [f_equal; lia|].
  rewrite length_take, length_drop in *. lia.
Qed.

Lemma mem_write_write off b1 b2 d d1 :
  mem_len b1 = mem_len b2 → mem_write off b1 d = Ok d1 →
  mem_write off b2 d1 = mem_write off b2 d.
Proof.
  intros Hl Hw. pose proof (mem_write_length _ _ _ _ Hw) as Hd.
  apply mem_write_Ok in Hw as (?&?&->).
  rewrite !mem_write_in by lia. f_equal. unfold mem_len in *.
  apply list_eq; intros i. rewrite !lookup_splice; rewrite ?length_splice; try lia.
  repeat case_decide; done || lia.
Qed.

(** Copies to disjoint ranges commute. *)
Lemma mem_write_comm o1 b1 o2 b2 d d1 d2 :
  o1 + mem_len b1 <= o2 ∨ o2 + mem_len b2 <= o1 →
  mem_write o1 b1 d = Ok d1 → mem_write o2 b2 d1 = Ok d2 →
  ∃ d1', mem_write o2 b2 d = Ok d1' ∧ mem_write o1 b1 d1' = Ok d2.
Proof.
  intros Hd H1 H2. pose proof (mem_write_length _ _ _ _ H1) as Hl.
  apply mem_write_Ok in H1 as (?&?&->). apply mem_write_Ok in H2 as (?&?&->).
  eexists; split; [apply mem_write_in; lia|]. unfold mem_len in *.
  apply mem_write_Ok. unfold mem_len. rewrite !length_splice by lia.
  repeat split; [lia..|]. apply list_eq; intros i.
  rewrite !lookup_splice; rewrite ?length_splice; try lia.
  repeat case_decide; done || lia.
Qed.

(** *** Integer fields *)

Lemma get_uint_range off n d z :
  get_uint off n d = Ok z → 0 <= z < 2 ^ (8 * n).
Proof.
  unfold get_uint. intros (bs & Hr & [= <-])%bind_Ok.
  apply mem_read_length in Hr. subst n. apply le_combine_bound.
Qed.

Lemma get_put_uint_same off n z d d' :
  0 <= n → put_uint off n z d = Ok d' → get_uint off n d' = Ok (z mod 2 ^ (8 * n)).
Proof.
  intros Hn Hw. unfold get_uint, put_uint in *.
  rewrite (mem_read_write_same _ _ _ _ n Hw)
    by (unfold mem_len; rewrite length_le_split; lia).
  simpl. rewrite le_combine_split. do 3 f_equal. lia.
Qed.

Lemma mem_len_le_split n z : 0 <= n → mem_len (le_split (Z.to_nat n) z) = n.
Proof. intros. unfold mem_len. rewrite length_le_split. lia. Qed.

Lemma mem_read_put_uint_other off n z d d' o m :
  0 <= n → put_uint off n z d = Ok d' → o + m <= off ∨ off + n <= o →
  mem_read o m d' = mem_read o m d.
Proof.
  intros ? Hw ?. unfold put_uint in Hw.
  eapply mem_read_write_other; [done|]. rewrite mem_len_le_split; lia.
Qed.

Lemma get_put_uint_other off n z d d' o m :
  0 <= n → put_uint off n z d = Ok d' → o + m <= off ∨ off + n <= o →
  get_uint o m d' = get_uint o m d.
Proof.
  intros ? Hw ?. unfold get_uint. by erewrite mem_read_put_uint_other.
Qed.

Lemma get_write_other off bs d d' o m :
  mem_write off bs d = Ok d' → o + m <= off ∨ off + mem_len bs <= o →
  get_uint o m d' = get_uint o m d.
Proof. intros. unfold get_uint. by erewrite mem_read_write_other. Qed.

Lemma put_uint_length off n z d d' : put_uint off n z d = Ok d' → mem_len d' = mem_len d.
Proof. apply mem_write_length. Qed.

Lemma put_uint_in off n z d :
  0 <= off → 0 <= n → off + n <= mem_len d → ∃ d', put_uint off n z d = Ok d'.
Proof.
  intros. eexists. apply mem_write_in; [lia|]. rewrite mem_len_le_split; lia.
Qed.

Lemma get_uint_in off n d :
  0 <= off → 0 <= n → off + n <= mem_len d → ∃ z, get_uint off n d = Ok z.
Proof. intros. unfold get_uint. rewrite mem_read_in by lia. eauto. Qed.

(** Storing the integer that is already there changes nothing. *)
Lemma put_get_uint off n d z :
  0 <= n → get_uint off n d = Ok z → put_uint off n z d = Ok d.
Proof.
  unfold get_uint. intros Hn (bs & Hr & [= <-])%bind_Ok. unfold put_uint.
  pose proof (mem_read_length _ _ _ _ Hr) as Hl.
  rewrite split_le_combine' by (unfold mem_len in Hl; lia).
  by eapply mem_write_read.
Qed.

Lemma put_put_uint off n z1 z2 d d1 :
  put_uint off n z1 d = Ok d1 → put_uint off n z2 d1 = put_uint off n z2 d.
Proof.
  unfold put_uint. intros. eapply mem_write_write; [|done].
  unfold mem_len. by rewrite !length_le_split.
Qed.

Create HintDb mem discriminated.
#[export] Hint Rewrite @mem_len_le_split using lia : mem.
