(* ===== verification/Types.v ===== *)
(** The integer types, identifiers and constants of [src/src/common/types.h]
    and [src/src/common/constants.h]. Every [_t] type is a [Z]; the values it
    ranges over are stated where they matter and wrap-around is written with
    [u16], [u32] and [u64]. *)
From S2P Require Import Prelude.

(** Sizes in bytes, for [sizeof]. *)
Definition sizeof_lsn_t : Z := 8.
Definition sizeof_xid_t : Z := 4.
Definition sizeof_cid_t : Z := 4.
Definition sizeof_oid_t : Z := 4.
Definition sizeof_pageid_t : Z := 4.
Definition sizeof_slotid_t : Z := 2.
Definition sizeof_db_size_t : Z := 2.
Definition sizeof_enum_t : Z := 1.
Definition sizeof_bool : Z := 1.
Definition sizeof_Slot : Z := 4.
Definition sizeof_TablePageid : Z := 8.
Definition sizeof_size_t : Z := 8.

Record Rid := mkRid { page_id_ : Z; slot_id_ : Z }.
#[export] Instance Rid_eq_dec : EqDecision Rid.
Proof. solve_decision. Defined.

(** [struct TablePageid] and its [operator==]; it is the key of the hash maps
    of the buffer pool and of the dirty page table. *)
Record TablePageid := mkTPid { table_oid_ : Z; tp_page_id_ : Z }.
#[export] Instance TablePageid_eq_dec : EqDecision TablePageid.
Proof. solve_decision. Defined.
#[export] Program Instance TablePageid_countable : Countable TablePageid :=
  inj_countable' (λ k, (table_oid_ k, tp_page_id_ k)) (λ p, mkTPid p.1 p.2) _.
Next Obligation. by intros []. Qed.

Definition TablePageid_hash (k : TablePageid) : Z :=
  Z.lor (Z.shiftl (u64 (table_oid_ k)) 32) (tp_page_id_ k).

Record Slot := mkSlot { offset_ : Z; slot_size_ : Z }.

Definition LOG_SEGMENT_SIZE : Z := Z.shiftl 1 20.
Definition DB_PAGE_SIZE : Z := Z.shiftl 1 8.
Definition MAX_RECORD_SIZE : Z := 230.
Definition MAX_LOG_SIZE : Z :=
  sizeof_enum_t + sizeof_xid_t + sizeof_lsn_t + sizeof_oid_t + sizeof_oid_t +
  sizeof_pageid_t + sizeof_slotid_t + sizeof_db_size_t + sizeof_db_size_t +
  MAX_RECORD_SIZE + sizeof_lsn_t.
Definition BUFFER_SIZE : Z := 5.

Definition LOG_NAME : string := "log".
Definition INIT_NAME : string := "init".
Definition CONTROL_NAME : string := "control".
Definition NEXT_LSN_NAME : string := "next_lsn".
Definition MASTER_RECORD_NAME : string := "master_record".

Definition FIRST_LSN : Z := 0.
Definition NULL_LSN : Z := u64 (-1).
Definition NULL_XID : Z := u32 (-1).
Definition NULL_CID : Z := u32 (-1).
Definition FIRST_XID : Z := 1.
Definition FIRST_CID : Z := 1.
Definition DDL_XID : Z := 0.
Definition DDL_CID : Z := 0.
Definition NULL_PAGE_ID : Z := 0xFFFFFFFF.

Definition INVALID_OID : Z := u32 (-1).
Definition PRESERVED_OID : Z := 10000.
Definition SYSTEM_DATABASE_OID : Z := 1.
Definition TEMP_DATABASE_OID : Z := 2.
Definition TABLE_META_OID : Z := 501.
Definition DATABASE_META_OID : Z := 502.
Definition STATISTIC_META_OID : Z := 503.
Definition SYSTEM_DATABASE_NAME : string := "system".
Definition TABLE_META_NAME : string := "huadb_table".
Definition DATABASE_META_NAME : string := "huadb_database".
Definition STATISTIC_META_NAME : string := "huadb_statistic".
Definition DEFAULT_DATABASE_NAME : string := "huadb".
Definition INVALID_CARDINALITY : Z := u32 (-1).
Definition INVALID_DISTINCT : Z := u32 (-1).

(** The hash of [TablePageid] packs both 32-bit halves: distinct keys have
    distinct hashes. *)
Lemma TablePageid_hash_inj k1 k2 :
  0 <= table_oid_ k1 < 2 ^ 32 → 0 <= tp_page_id_ k1 < 2 ^ 32 →
  0 <= table_oid_ k2 < 2 ^ 32 → 0 <= tp_page_id_ k2 < 2 ^ 32 →
  TablePageid_hash k1 = TablePageid_hash k2 → k1 = k2.
Proof.
  assert (∀ k, 0 <= table_oid_ k < 2 ^ 32 → 0 <= tp_page_id_ k < 2 ^ 32 →
    TablePageid_hash k = table_oid_ k * 2 ^ 32 + tp_page_id_ k) as Hh.
  { intros k Ht Hp. unfold TablePageid_hash. rewrite u64_small by lia.
    assert (Z.land (Z.shiftl (table_oid_ k) 32) (tp_page_id_ k) = 0) as Hand.
    { rewrite <- (Z.mod_small (tp_page_id_ k) (2 ^ 32)), <- Z.land_ones by lia.
      rewrite (Z.land_comm (tp_page_id_ k)), Z.land_assoc, Z.land_ones by lia.
      by rewrite Z.shiftl_mul_pow2, Z.mod_mul, Z.land_0_l by lia. }
    rewrite <- Z.lxor_lor, <- Z.add_nocarry_lxor by done.
    by rewrite Z.shiftl_mul_pow2 by lia. }
  intros ???? Heq. rewrite !Hh in Heq by lia.
  destruct k1, k2; simpl in *. f_equal; lia.
Qed.
