(* ===== verification/Value.v ===== *)
(** [src/src/common/type_util.cpp] and [src/src/common/value.cpp]: the column
    types and the dynamically typed values of a record. *)
From Stdlib Require Import SpecFloat.
From S2P Require Import Prelude Memory Types.

(** ** [TypeUtil] *)

(** [enum class Type] *)
Inductive Type_ := BOOL | INT | UINT | DOUBLE | CHAR | VARCHAR | NULL_TYPE | LIST.
#[export] Instance Type__eq_dec : EqDecision Type_.
Proof. solve_decision. Defined.

Definition Type2String (type : Type_) : res string :=
  match type with
  | BOOL => Ok "bool"
  | INT => Ok "int"
  | UINT => Ok "uint"
  | DOUBLE => Ok "double"
  | CHAR => Ok "char"
  | VARCHAR => Ok "varchar"
  | NULL_TYPE => Ok "null"
  | LIST => Err (DbException "Unknown type in Type2String")
  end.

Definition String2Type (str : string) : res Type_ :=
  if String.eqb str "bool" then Ok BOOL
  else if String.eqb str "int" then Ok INT
  else if String.eqb str "uint" then Ok UINT
  else if String.eqb str "double" then Ok DOUBLE
  else if String.eqb str "char" then Ok CHAR
  else if String.eqb str "varchar" then Ok VARCHAR
  else if String.eqb str "null" then Ok NULL_TYPE
  else Err (DbException "Unknown type in String2Type").

Definition TypeSize (type : Type_) : res Z :=
  match type with
  | NULL_TYPE => Ok 0
  | BOOL => Ok 1
  | INT | UINT => Ok 4
  | DOUBLE => Ok 8
  | CHAR | VARCHAR => Err (DbException "Size must be specified for CHAR and VARCHAR types")
  | LIST => Err (DbException "Unknown type in TypeSize")
  end.

Definition IsNumeric (type : Type_) : bool :=
  match type with INT | UINT | DOUBLE => true | _ => false end.

Definition IsString (type : Type_) : bool :=
  match type with CHAR | VARCHAR => true | _ => false end.

Definition TypeCompatible (type1 type2 : Type_) : bool :=
  if IsNumeric type1 && IsNumeric type2 then true
  else if IsString type1 && IsString type2 then true
  else bool_decide (type1 = type2).

(** ** [double]

    A [double] is kept as its 64-bit IEEE 754 pattern, which is what [memcpy]
    moves; arithmetic and comparison decode it into the standard library's
    [spec_float] (binary64: precision 53, [emax] 1024) and encode the result.
    The NaN an operation produces is the quiet NaN with a zero payload. *)
Definition f64_decode (bits : Z) : spec_float :=
  let sign := Z.testbit bits 63 in
  let ex := Z.land (Z.shiftr bits 52) 0x7FF in
  let mant := Z.land bits (2 ^ 52 - 1) in
  if ex =? 0x7FF then (if mant =? 0 then S754_infinity sign else S754_nan)
  else match (if ex =? 0 then mant else mant + 2 ^ 52) with
       | Zpos m => S754_finite sign m (if ex =? 0 then -1074 else ex - 1075)
       | _ => S754_zero sign
       end.

Definition f64_encode (f : spec_float) : Z :=
  let s (b : bool) := if b then 2 ^ 63 else 0 in
  match f with
  | S754_zero b => s b
  | S754_infinity b => s b + 0x7FF * 2 ^ 52
  | S754_nan => 0x7FF8 * 2 ^ 48
  | S754_finite b m e =>
      if Zpos m <? 2 ^ 52 then s b + Zpos m
      else s b + (e + 1075) * 2 ^ 52 + (Zpos m - 2 ^ 52)
  end.

Definition f64_op (op : Z → Z → spec_float → spec_float → spec_float) (x y : Z) : Z :=
  f64_encode (op 53 1024 (f64_decode x) (f64_decode y)).
Definition f64_add := f64_op SFadd.
Definition f64_sub := f64_op SFsub.
Definition f64_mul := f64_op SFmul.
Definition f64_div := f64_op SFdiv.
Definition f64_eq (x y : Z) : bool := SFeqb (f64_decode x) (f64_decode y).
Definition f64_lt (x y : Z) : bool := SFltb (f64_decode x) (f64_decode y).
Definition f64_le (x y : Z) : bool := SFleb (f64_decode x) (f64_decode y).
(** The conversion [int32_t] to [double], which is exact. *)
Definition f64_of_int (z : Z) : Z := f64_encode (binary_normalize 53 1024 z 0 false).

Example f64_arith : f64_add (f64_of_int 3) (f64_of_int (-1)) = f64_of_int 2 ∧
  f64_of_int 1 = 0x3FF0000000000000.
Proof. by vm_compute. Qed.

(** ** [Value] *)

(** The union [val_] with its active member; [UNone] is a union no
    constructor initialised. *)
Inductive Union :=
| UNone
| UBool (bool_ : bool)
| UInt (int_ : Z)
| UUint (uint_ : Z)
| UDouble (double_ : Z).

(** The fields of the class. [size_] is a [db_size_t] (16 bits). *)
Inductive Value := mkValue {
  type_ : Type_;
  is_null_ : bool;
  val_ : Union;
  str_ : string;
  values_ : list Value;
  size_ : Z
}.

Definition str_len (s : string) : Z := Z.of_nat (String.length s).

(** The constructors, named after their argument types. [Value(vector<Value>)]
    leaves [size_] uninitialised; no operation reads the size of a list. *)
Definition Value_null : Value := mkValue NULL_TYPE true UNone "" [] 0.
Definition Value_typed (type : Type_) (size : Z) : Value := mkValue type true UNone "" [] size.
Definition Value_bool (val : bool) : Value := mkValue BOOL false (UBool val) "" [] 1.
Definition Value_int (val : Z) : Value := mkValue INT false (UInt val) "" [] 4.
Definition Value_uint (val : Z) : Value := mkValue UINT false (UUint val) "" [] 4.
Definition Value_double (val : Z) : Value := mkValue DOUBLE false (UDouble val) "" [] 8.
Definition Value_string (val : string) (type : Type_) : Value :=
  mkValue type false UNone val [] (u16 (str_len val)).
Definition Value_list (values : list Value) : Value := mkValue LIST false UNone "" values 0.

Definition IsNull (v : Value) : bool :=
  is_null_ v || bool_decide (type_ v = NULL_TYPE).

(** Reading a member of the union. *)
Definition inactive {A} : res A := Err (Undefined "read of an inactive union member").
Definition get_bool (v : Value) : res bool :=
  match val_ v with UBool b => Ok b | _ => inactive end.
Definition get_int (v : Value) : res Z :=
  match val_ v with UInt z => Ok z | _ => inactive end.
Definition get_uint_ (v : Value) : res Z :=
  match val_ v with UUint z => Ok z | _ => inactive end.
Definition get_double (v : Value) : res Z :=
  match val_ v with UDouble z => Ok z | _ => inactive end.

(** [std::ostringstream << double] is the formatting function [fmt_double]. *)
Definition Value_ToString (fmt_double : Z → string) (v : Value) : res string :=
  if is_null_ v then Ok "NULL"
  else match type_ v with
  | BOOL => b ← get_bool v; Ok (if b : bool then "true" else "false")
  | INT => z ← get_int v; Ok (pretty z)
  | UINT => z ← get_uint_ v; Ok (pretty z)
  | DOUBLE => z ← get_double v; Ok (fmt_double z)
  | CHAR | VARCHAR => Ok (str_ v)
  | _ => Err (DbException "Unknown value type in ToString")
  end.

Definition string_bytes (s : string) : bytes := String.list_byte_of_string s.
Definition bytes_string (b : bytes) : string := String.string_of_list_byte b.

(** The object representation of the active member. *)
Definition union_bytes (u : Union) : bytes :=
  match u with
  | UNone => []
  | UBool b => le_split 1 (if b then 1 else 0)
  | UInt z => le_split 4 (u32 z)
  | UUint z => le_split 4 z
  | UDouble z => le_split 8 z
  end.

(** [SerializeTo(data + off)] on the array [data]: the array afterwards and
    the number of bytes the method says it wrote. *)
Definition Value_SerializeTo (v : Value) (data : bytes) (off : Z) : res (bytes * Z) :=
  match type_ v with
  | BOOL | INT | UINT | DOUBLE =>
      src ← mem_read 0 (size_ v) (union_bytes (val_ v));
      data ← mem_write off src data;
      Ok (data, size_ v)
  | VARCHAR | CHAR =>
      let str_size := u16 (str_len (str_ v)) in
      data ← put_uint off 2 str_size data;
      src ← mem_read 0 (size_ v) (string_bytes (str_ v) ++ [Byte.x00]);
      data ← mem_write (off + 2) src data;
      Ok (data, u16 (str_size + 2))
  | _ => Err (DbException "Unknown value type in SerializeTo")
  end.

(** The union after [memcpy(&val_.member, data, size)]: the size is the one of
    the member, anything else would leave bytes of it indeterminate. *)
Definition read_member (type : Type_) (bs : bytes) : res Union :=
  match type, length bs with
  | BOOL, 1%nat => Ok (UBool (negb (le_combine bs =? 0)))
  | INT, 4%nat => Ok (UInt (i32 (le_combine bs)))
  | UINT, 4%nat => Ok (UUint (le_combine bs))
  | DOUBLE, 8%nat => Ok (UDouble (le_combine bs))
  | _, _ => Err (Undefined "size of a value does not match its type")
  end.

Definition Value_DeserializeFrom (v : Value) (data : bytes) (off : Z) : res (Value * Z) :=
  match type_ v with
  | BOOL | INT | UINT | DOUBLE =>
      bs ← mem_read off (size_ v) data;
      u ← read_member (type_ v) bs;
      Ok (mkValue (type_ v) false u (str_ v) (values_ v) (size_ v), size_ v)
  | VARCHAR | CHAR =>
      size ← get_uint off 2 data;
      bs ← mem_read (off + 2) size data;
      Ok (mkValue (type_ v) false (val_ v) (bytes_string bs) (values_ v) size, u16 (size + 2))
  | _ => Err (DbException "Unknown value type in DeserializeFrom")
  end.

(** The instances of [template <typename T> T GetValue() const]. *)
Definition GetValue_bool (v : Value) : res bool :=
  if decide (type_ v = BOOL) then get_bool v
  else Err (DbException "Type mismatch (expected bool)").
Definition GetValue_int (v : Value) : res Z :=
  if decide (type_ v = INT) then get_int v
  else Err (DbException "Type mismatch (expected int)").
Definition GetValue_uint (v : Value) : res Z :=
  if decide (type_ v = UINT) then get_uint_ v
  else Err (DbException "Type mismatch (expected uint32_t)").
Definition GetValue_double (v : Value) : res Z :=
  if decide (type_ v = DOUBLE) then get_double v
  else Err (DbException "Type mismatch (expected double)").
Definition GetValue_string (v : Value) : res string :=
  if IsString (type_ v) then Ok (str_ v)
  else Err (DbException "Type mismatch (expected char/varchar)").

Definition Less (v other : Value) : res bool :=
  if decide (type_ v = type_ other) then
    match type_ v with
    | INT => x ← get_int v; y ← get_int other; Ok (x <? y)
    | DOUBLE => x ← get_double v; y ← get_double other; Ok (f64_lt x y)
    | CHAR | VARCHAR => Ok (Strings.String.ltb (str_ v) (str_ other))
    | _ => Err (DbException "Type unsupported for Less operation")
    end
  else Err (DbException "Type mismatch (in Less)").

Definition Equal (v other : Value) : res bool :=
  if decide (type_ v = type_ other) then
    match type_ v with
    | BOOL => x ← get_bool v; y ← get_bool other; Ok (Bool.eqb x y)
    | INT => x ← get_int v; y ← get_int other; Ok (x =? y)
    | DOUBLE => x ← get_double v; y ← get_double other; Ok (f64_eq x y)
    | CHAR | VARCHAR => Ok (String.eqb (str_ v) (str_ other))
    | _ => Err (DbException "Type unsupported for Equal operation")
    end
  else Err (DbException "Type mismatch (in Equal)").

Definition Greater (v other : Value) : res bool :=
  if decide (type_ v = type_ other) then
    match type_ v with
    | INT => x ← get_int v; y ← get_int other; Ok (y <? x)
    | DOUBLE => x ← get_double v; y ← get_double other; Ok (f64_lt y x)
    | CHAR | VARCHAR => Ok (Strings.String.ltb (str_ other) (str_ v))
    | _ => Err (DbException "Type unsupported for Greater operation")
    end
  else Err (DbException "Type mismatch (in Greater)").

(** The result of a signed 32-bit operation, undefined when it overflows. *)
Definition signed (z : Z) : res Z :=
  if in_i32 z then Ok z else Err (Undefined "signed integer overflow").

Lemma signed_ok z : 0 <= z < 2 ^ 31 → signed z = Ok z ∧ u32 z = z.
Proof.
  intros Hz. split; [|by apply u32_small; lia]. unfold signed, in_i32.
  destruct (Z.leb_spec (- 2 ^ 31) z); [|lia]. by destruct (Z.ltb_spec z (2 ^ 31)); [|lia].
Qed.

Definition Add (v other : Value) : res Value :=
  if decide (type_ v = type_ other) then
    match type_ v with
    | INT => x ← get_int v; y ← get_int other; z ← signed (x + y); Ok (Value_int z)
    | DOUBLE => x ← get_double v; y ← get_double other; Ok (Value_double (f64_add x y))
    | _ => Err (DbException "Type unsupported for Add operation")
    end
  else Err (DbException "Type mismatch (in Add)").

Definition Max (v other : Value) : res Value :=
  if decide (type_ v = type_ other) then
    match type_ v with
    | INT => x ← get_int v; y ← get_int other; Ok (Value_int (Z.max x y))
    | DOUBLE =>
        x ← get_double v; y ← get_double other;
        Ok (Value_double (if f64_lt x y then y else x))
    | _ => Err (DbException "Type unsupported for Max operation")
    end
  else Err (DbException "Type mismatch (in Max)").

Definition Min (v other : Value) : res Value :=
  if decide (type_ v = type_ other) then
    match type_ v with
    | INT => x ← get_int v; y ← get_int other; Ok (Value_int (Z.min x y))
    | DOUBLE =>
        x ← get_double v; y ← get_double other;
        Ok (Value_double (if f64_lt y x then y else x))
    | _ => Err (DbException "Type unsupported for Min operation")
    end
  else Err (DbException "Type mismatch (in Min)").

Definition Not (v : Value) : res Value :=
  match type_ v with
  | BOOL => b ← get_bool v; Ok (Value_bool (negb b))
  | _ => Err (DbException "Type unsupported for Not operation")
  end.

Definition CastAsBool (v : Value) : res Value :=
  match type_ v with
  | BOOL => b ← get_bool v; Ok (Value_bool b)
  | CHAR | VARCHAR =>
      if String.eqb (str_ v) "t" then Ok (Value_bool true)
      else if String.eqb (str_ v) "f" then Ok (Value_bool false)
      else Err (DbException ("Unknown str in CastAsBool: " +:+ str_ v))
  | _ => Err (DbException "Type unsupported for CastAsBool operation")
  end.

(** ** The encoding of values *)

(** A value as the constructors and [DeserializeFrom] build it: the active
    member is the one of its type, and sizes are those of the type. *)
Definition value_wf (v : Value) : Prop :=
  is_null_ v = false ∧ values_ v = [] ∧
  match type_ v, val_ v with
  | BOOL, UBool _ => size_ v = 1 ∧ str_ v = ""
  | INT, UInt z => - 2 ^ 31 <= z < 2 ^ 31 ∧ size_ v = 4 ∧ str_ v = ""
  | UINT, UUint z => 0 <= z < 2 ^ 32 ∧ size_ v = 4 ∧ str_ v = ""
  | DOUBLE, UDouble z => 0 <= z < 2 ^ 64 ∧ size_ v = 8 ∧ str_ v = ""
  | (CHAR | VARCHAR), UNone => size_ v = str_len (str_ v) ∧ str_len (str_ v) < 2 ^ 16 - 2
  | _, _ => False
  end.

(** The bytes a value is stored as. *)
Definition value_bytes (v : Value) : bytes :=
  if IsString (type_ v)
  then le_split 2 (str_len (str_ v)) ++ string_bytes (str_ v)
  else union_bytes (val_ v).

Lemma length_string_bytes s : length (string_bytes s) = String.length s.
Proof. unfold string_bytes. induction s; simpl; auto. Qed.

Lemma mem_len_string_bytes s : mem_len (string_bytes s) = str_len s.
Proof. unfold mem_len, str_len. by rewrite length_string_bytes. Qed.

Lemma bytes_string_bytes s : bytes_string (string_bytes s) = s.
Proof. apply String.string_of_list_byte_of_string. Qed.

Lemma str_len_nonneg s : 0 <= str_len s.
Proof. unfold str_len. lia. Qed.
#[export] Hint Resolve str_len_nonneg : core.

Lemma mem_read_prefix (b1 b2 : bytes) n :
  n = mem_len b1 → mem_read 0 n (b1 ++ b2) = Ok b1.
Proof.
  intros ->. apply mem_read_Ok. unfold mem_len. rewrite length_app.
  repeat split; try lia. by rewrite drop_0, Nat2Z.id, take_app_length.
Qed.

Lemma mem_read_all (b : bytes) n : n = mem_len b → mem_read 0 n b = Ok b.
Proof. intros ->. rewrite <- (app_nil_r b) at 2. by apply mem_read_prefix. Qed.

Lemma value_wf_cases v :
  value_wf v →
  (∃ b, v = Value_bool b) ∨
  (∃ z, v = Value_int z ∧ - 2 ^ 31 <= z < 2 ^ 31) ∨
  (∃ z, v = Value_uint z ∧ 0 <= z < 2 ^ 32) ∨
  (∃ z, v = Value_double z ∧ 0 <= z < 2 ^ 64) ∨
  (∃ s t, v = Value_string s t ∧ IsString t = true ∧ str_len s < 2 ^ 16 - 2).
Proof.
  destruct v as [ty nu u s l sz]. intros (Hn & Hl & Hw); simpl in *. subst.
  destruct ty, u; simpl in Hw; try done; destruct_and? Hw; simplify_eq.
  - left. by eexists.
  - right; left. by eexists.
  - do 2 right; left. by eexists.
  - do 3 right; left. by eexists.
  - do 4 right. exists s, CHAR. split; [|done]. unfold Value_string.
    pose proof (str_len_nonneg s). by rewrite u16_small by lia.
  - do 4 right. exists s, VARCHAR. split; [|done]. unfold Value_string.
    pose proof (str_len_nonneg s). by rewrite u16_small by lia.
Qed.

Lemma value_wf_string s t :
  IsString t = true → str_len s < 2 ^ 16 - 2 → value_wf (Value_string s t).
Proof.
  intros Ht Hs. pose proof (str_len_nonneg s). unfold Value_string.
  rewrite u16_small by lia. by destruct t.
Qed.

Lemma value_wf_not_null v : value_wf v → IsNull v = false.
Proof.
  intros Hv. apply value_wf_cases in Hv.
  destruct Hv as [[b ->]|[[z [-> ?]]|[[z [-> ?]]|[[z [-> ?]]|(s&t&->&?&?)]]]]; try done.
  by destruct t.
Qed.

Lemma value_bytes_string s t :
  IsString t = true →
  value_bytes (Value_string s t) = le_split 2 (str_len s) ++ string_bytes s.
Proof. intros Ht. unfold value_bytes. cbn [type_ str_ Value_string]. by rewrite Ht. Qed.

Lemma value_bytes_len v :
  value_wf v →
  mem_len (value_bytes v) = size_ v + (if IsString (type_ v) then 2 else 0).
Proof.
  intros Hv. apply value_wf_cases in Hv.
  destruct Hv as [[b ->]|[[z [-> ?]]|[[z [-> ?]]|[[z [-> ?]]|(s&t&->&Ht&Hs)]]]]; try done.
  pose proof (str_len_nonneg s). rewrite value_bytes_string by done.
  rewrite mem_len_app, mem_len_string_bytes. cbn [type_ size_ Value_string].
  rewrite Ht, u16_small by lia. change (mem_len (le_split 2 _)) with 2. lia.
Qed.

(** What [SerializeTo] writes and returns. *)
Lemma Value_SerializeTo_spec v data off :
  value_wf v →
  Value_SerializeTo v data off =
    (data' ← mem_write off (value_bytes v) data; Ok (data', mem_len (value_bytes v))).
Proof.
  intros Hv. apply value_wf_cases in Hv.
  destruct Hv as [[b ->]|[[z [-> ?]]|[[z [-> ?]]|[[z [-> ?]]|(s&t&->&Ht&Hs)]]]];
    try done.
  assert (Value_SerializeTo (Value_string s t) data off =
    (data ← put_uint off 2 (str_len s) data;
     data ← mem_write (off + 2) (string_bytes s) data;
     Ok (data, str_len s + 2))) as ->.
  { pose proof (str_len_nonneg s). unfold Value_SerializeTo; simpl.
    rewrite !u16_small by (rewrite ?u16_small; lia).
    rewrite mem_read_prefix by (by rewrite mem_len_string_bytes).
    by destruct t. }
  rewrite value_bytes_len by (by apply value_wf_string).
  rewrite value_bytes_string, mem_write_app by done. unfold put_uint.
  change (Z.to_nat 2) with 2%nat.
  change (mem_len (le_split 2 (str_len s))) with 2.
  cbn [type_ size_ Value_string]. rewrite Ht, u16_small by (pose proof (str_len_nonneg s); lia).
  destruct (mem_write off _ data) as [d1|e]; done.
Qed.

(** Reading back the bytes of a value gives the value, with the value object
    the record decoder prepares (same type, and the size of fixed-size types). *)
Lemma Value_DeserializeFrom_spec v data off sz :
  value_wf v → (IsString (type_ v) = false → sz = size_ v) →
  mem_read off (mem_len (value_bytes v)) data = Ok (value_bytes v) →
  Value_DeserializeFrom (Value_typed (type_ v) sz) data off
    = Ok (v, mem_len (value_bytes v)).
Proof.
  intros Hv Hsz Hr. apply value_wf_cases in Hv.
  destruct Hv as [[b ->]|[[z [-> ?]]|[[z [-> ?]]|[[z [-> ?]]|(s&t&->&Ht&Hs)]]]].
  - rewrite (Hsz eq_refl). unfold Value_DeserializeFrom; simpl.
    change (mem_len _) with 1 in Hr |- *. rewrite Hr. simpl. by destruct b.
  - rewrite (Hsz eq_refl). unfold Value_DeserializeFrom; simpl.
    change (mem_len _) with 4 in Hr |- *. rewrite Hr. simpl.
    change (length (value_bytes (Value_int z))) with 4%nat. simpl.
    unfold value_bytes; simpl. rewrite le_combine_split.
    change (2 ^ (Z.of_nat 4 * 8)) with (2 ^ 32). unfold u32.
    rewrite Z.mod_mod by lia. change (z mod 2 ^ 32) with (u32 z).
    by rewrite i32_u32.
  - rewrite (Hsz eq_refl). unfold Value_DeserializeFrom; simpl.
    change (mem_len _) with 4 in Hr |- *. rewrite Hr. simpl.
    change (length (value_bytes (Value_uint z))) with 4%nat. simpl.
    unfold value_bytes; simpl. rewrite le_combine_split.
    by rewrite Z.mod_small by (change (2 ^ (Z.of_nat 4 * 8)) with (2 ^ 32); lia).
  - rewrite (Hsz eq_refl). unfold Value_DeserializeFrom; simpl.
    change (mem_len _) with 8 in Hr |- *. rewrite Hr. simpl.
    change (length (value_bytes (Value_double z))) with 8%nat. simpl.
    unfold value_bytes; simpl. rewrite le_combine_split.
    by rewrite Z.mod_small by (change (2 ^ (Z.of_nat 8 * 8)) with (2 ^ 64); lia).
  - pose proof (str_len_nonneg s) as Hp. rewrite value_bytes_string in * by done.
    assert (mem_len (le_split 2 (str_len s) ++ string_bytes s) = 2 + str_len s) as Hl.
    { by rewrite mem_len_app, mem_len_string_bytes. }
    rewrite Hl in *.
    apply mem_read_app in Hr as [H2 Hr]; [|lia..].
    rewrite take_app_length' in H2 by done. rewrite drop_app_length' in Hr by done.
    unfold Value_DeserializeFrom, get_uint; simpl.
    rewrite H2. simpl. rewrite le_combine_split.
    change (2 ^ (Z.of_nat 2 * 8)) with (2 ^ 16). rewrite (Z.mod_small (str_len s)) by lia.
    rewrite Hr. simpl. rewrite bytes_string_bytes.
    rewrite u16_small by lia. unfold Value_string. rewrite u16_small by lia.
    rewrite (Z.add_comm (str_len s)). by destruct t.
Qed.
