(* ===== verification/Bitmap.v ===== *)
(** [src/src/common/bitmap.cpp]: the null bitmap of a record. *)
From S2P Require Import Prelude Memory Types.

Record Bitmap := mkBitmap { bm_size_ : Z; bits_ : bytes }.

(** [Bitmap() = default] *)
Definition Bitmap_default : Bitmap := mkBitmap 0 [].

(** [std::vector<uint8_t>::resize(n, 0)] *)
Definition vector_resize (n : Z) (bs : bytes) : bytes :=
  take (Z.to_nat n) bs ++ replicate (Z.to_nat n - length bs) Byte.x00.

Definition Resize (b : Bitmap) (size : Z) : Bitmap :=
  mkBitmap size (vector_resize ((size + 7) / 8) (bits_ b)).

(** [explicit Bitmap(db_size_t size)] *)
Definition mk_Bitmap (size : Z) : Bitmap := Resize (mkBitmap size []) size.

(** [bits_[i]] of a vector known to be long enough. *)
Definition bit_byte (b : Bitmap) (i : Z) : Z :=
  byte.unsigned (default Byte.x00 (bits_ b !! Z.to_nat i)).

Definition bit_mask (index : Z) : Z := Z.shiftl 1 (index mod 8).

Definition Set_ (b : Bitmap) (index : Z) : res Bitmap :=
  if mem_len (bits_ b) * 8 <=? index
  then Err (DbException "Index out of range in bitmap Set")
  else Ok (mkBitmap (bm_size_ b)
    (<[Z.to_nat (index / 8) := byte.of_Z (Z.lor (bit_byte b (index / 8)) (bit_mask index))]> (bits_ b))).

Definition Clear (b : Bitmap) (index : Z) : res Bitmap :=
  if mem_len (bits_ b) * 8 <=? index
  then Err (DbException "Index out of range in bitmap Clear")
  else Ok (mkBitmap (bm_size_ b)
    (<[Z.to_nat (index / 8) :=
       byte.of_Z (Z.land (bit_byte b (index / 8)) (Z.lnot (bit_mask index)))]> (bits_ b))).

Definition Test (b : Bitmap) (index : Z) : res bool :=
  if mem_len (bits_ b) * 8 <=? index
  then Err (DbException "Index out of range in bitmap Test")
  else Ok (negb (Z.land (bit_byte b (index / 8)) (bit_mask index) =? 0)).

Definition Bitmap_GetSize (b : Bitmap) : Z := bm_size_ b.
Definition GetBytes (b : Bitmap) : Z := u16 (mem_len (bits_ b)).

Definition Bitmap_SerializeTo (b : Bitmap) (data : bytes) (off : Z) : res (bytes * Z) :=
  src ← mem_read 0 (GetBytes b) (bits_ b);
  data ← mem_write off src data;
  Ok (data, GetBytes b).

(** The loop [for (i = 0; i < GetBytes(); i++) memcpy(&bits_[i], data + offset, 1)],
    [n] iterations left, at byte [i]. *)
Fixpoint Bitmap_read_loop (n : nat) (i : nat) (bits data : bytes) (off : Z) : res bytes :=
  match n with
  | O => Ok bits
  | S n =>
      c ← mem_read (off + Z.of_nat i) 1 data;
      Bitmap_read_loop n (S i) (<[i := default Byte.x00 (head c)]> bits) data off
  end.

Definition Bitmap_DeserializeFrom (b : Bitmap) (data : bytes) (off : Z) : res (Bitmap * Z) :=
  bits ← Bitmap_read_loop (Z.to_nat (GetBytes b)) 0 (bits_ b) data off;
  Ok (mkBitmap (bm_size_ b) bits, GetBytes b).

(** ** Lemmas *)

(** The bit [index] of the map, as a specification. *)
Definition bit (b : Bitmap) (index : Z) : bool :=
  Z.testbit (bit_byte b (index / 8)) (index mod 8).

Definition in_range (b : Bitmap) (index : Z) : Prop := 0 <= index < mem_len (bits_ b) * 8.

Lemma land_mask_testbit x k : 0 <= k → negb (Z.land x (Z.shiftl 1 k) =? 0) = Z.testbit x k.
Proof.
  intros Hk. rewrite Z.shiftl_1_l. destruct (Z.testbit x k) eqn:Hb.
  - apply negb_true_iff, Z.eqb_neq. intros H0.
    apply (f_equal (λ z, Z.testbit z k)) in H0.
    rewrite Z.land_spec, Z.pow2_bits_true, Hb, Z.bits_0 in H0 by lia. done.
  - apply negb_false_iff, Z.eqb_eq. apply Z.bits_inj'; intros n Hn.
    rewrite Z.land_spec, Z.bits_0, Z.pow2_bits_eqb by lia.
    destruct (Z.eqb_spec k n) as [<-|]; [by rewrite Hb|by rewrite andb_false_r].
Qed.

Lemma Test_bit b index : in_range b index → Test b index = Ok (bit b index).
Proof.
  intros [??]. unfold Test. destruct (Z.leb_spec (mem_len (bits_ b) * 8) index); [lia|].
  unfold bit, bit_mask. rewrite land_mask_testbit; [done|].
  apply Z.mod_pos_bound. lia.
Qed.

Lemma byte_unsigned_testbit x k :
  0 <= k < 8 → Z.testbit (byte.unsigned (byte.of_Z x)) k = Z.testbit x k.
Proof.
  intros Hk. rewrite byte.unsigned_of_Z. unfold byte.wrap.
  rewrite Z.mod_pow2_bits_low; [done|lia].
Qed.

Lemma in_range_byte b index : in_range b index → (Z.to_nat (index / 8) < length (bits_ b))%nat.
Proof.
  unfold in_range, mem_len. intros [??].
  assert (index / 8 < Z.of_nat (length (bits_ b))) by (apply Z.div_lt_upper_bound; lia).
  assert (0 <= index / 8) by (apply Z.div_pos; lia). lia.
Qed.

Lemma insert_bit_byte b i j x sz :
  0 <= i → 0 <= j → (Z.to_nat i < length (bits_ b))%nat →
  bit_byte (mkBitmap sz (<[Z.to_nat i := x]> (bits_ b))) j =
    if decide (i = j) then byte.unsigned x else bit_byte b j.
Proof.
  intros ?? Hi. unfold bit_byte; simpl. case_decide as Hij.
  - subst. by rewrite list_lookup_insert_eq.
  - rewrite list_lookup_insert_ne by lia. done.
Qed.

Lemma index_split index j : index = j ↔ index / 8 = j / 8 ∧ index mod 8 = j mod 8.
Proof.
  split; [by intros ->|]. intros [H1 H2].
  rewrite (Z.div_mod index 8), (Z.div_mod j 8) by lia. lia.
Qed.

(** [Set] and [Clear] change the one bit they name. *)
Lemma Set_bit b index :
  in_range b index →
  ∃ b', Set_ b index = Ok b' ∧ bm_size_ b' = bm_size_ b ∧
    mem_len (bits_ b') = mem_len (bits_ b) ∧
    ∀ j, 0 <= j → bit b' j = (bool_decide (j = index) || bit b j)%bool.
Proof.
  intros Hr. pose proof (in_range_byte _ _ Hr). destruct Hr. unfold Set_.
  destruct (Z.leb_spec (mem_len (bits_ b) * 8) index); [lia|].
  eexists; split; [done|]. split; [done|].
  split; [unfold mem_len; simpl; by rewrite length_insert|]. intros j Hj.
  pose proof (Z.mod_pos_bound j 8 ltac:(lia)). pose proof (Z.mod_pos_bound index 8 ltac:(lia)).
  unfold bit at 1. rewrite insert_bit_byte; [|apply Z.div_pos; lia..|done].
  case_decide as Hd.
  - rewrite byte_unsigned_testbit, Z.lor_spec by lia. unfold bit_mask, bit.
    rewrite Z.shiftl_1_l, Z.pow2_bits_eqb, <- Hd by lia.
    case_bool_decide as Hji; simpl.
    + subst. by rewrite Z.eqb_refl, orb_true_r.
    + destruct (Z.eqb_spec (index mod 8) (j mod 8)) as [He|]; [|by rewrite orb_false_r].
      destruct Hji. by apply index_split.
  - rewrite bool_decide_false; [done|]. intros ->. done.
Qed.

Lemma Clear_bit b index :
  in_range b index →
  ∃ b', Clear b index = Ok b' ∧ bm_size_ b' = bm_size_ b ∧
    mem_len (bits_ b') = mem_len (bits_ b) ∧
    ∀ j, 0 <= j → bit b' j = (negb (bool_decide (j = index)) && bit b j)%bool.
Proof.
  intros Hr. pose proof (in_range_byte _ _ Hr). destruct Hr. unfold Clear.
  destruct (Z.leb_spec (mem_len (bits_ b) * 8) index); [lia|].
  eexists; split; [done|]. split; [done|].
  split; [unfold mem_len; simpl; by rewrite length_insert|]. intros j Hj.
  pose proof (Z.mod_pos_bound j 8 ltac:(lia)). pose proof (Z.mod_pos_bound index 8 ltac:(lia)).
  unfold bit at 1. rewrite insert_bit_byte; [|apply Z.div_pos; lia..|done].
  case_decide as Hd.
  - rewrite byte_unsigned_testbit, Z.land_spec, Z.lnot_spec by lia. unfold bit_mask, bit.
    rewrite Z.shiftl_1_l, Z.pow2_bits_eqb, <- Hd by lia.
    case_bool_decide as Hji; simpl.
    + subst. by rewrite Z.eqb_refl, andb_false_r.
    + destruct (Z.eqb_spec (index mod 8) (j mod 8)) as [He|]; [|by rewrite andb_true_r].
      destruct Hji. by apply index_split.
  - rewrite bool_decide_false; [done|]. intros ->. done.
Qed.

Lemma length_vector_resize n bs : 0 <= n → mem_len (vector_resize n bs) = n.
Proof.
  intros. unfold vector_resize, mem_len.
  rewrite length_app, length_take, length_replicate. lia.
Qed.

Lemma mem_len_Resize b size : 0 <= size → mem_len (bits_ (Resize b size)) = (size + 7) / 8.
Proof. intros. apply length_vector_resize, Z.div_pos; lia. Qed.

Lemma mk_Bitmap_bits size : 0 <= size → bits_ (mk_Bitmap size) = replicate (Z.to_nat ((size + 7) / 8)) Byte.x00.
Proof.
  intros. unfold mk_Bitmap, Resize, vector_resize; simpl.
  rewrite take_nil, app_nil_l. f_equal. lia.
Qed.

Lemma mk_Bitmap_bit size j : 0 <= size → bit (mk_Bitmap size) j = false.
Proof.
  intros. unfold bit, bit_byte. rewrite mk_Bitmap_bits by done.
  destruct (replicate _ _ !! _) as [x|] eqn:Hx; simpl.
  - apply lookup_replicate in Hx as [-> _]. apply Z.bits_0.
  - apply Z.bits_0.
Qed.

Lemma in_range_size b index size :
  mem_len (bits_ b) = (size + 7) / 8 → 0 <= index < size → in_range b index.
Proof.
  intros Hb [??]. unfold in_range. rewrite Hb.
  pose proof (Z.div_mod (size + 7) 8 ltac:(lia)).
  pose proof (Z.mod_pos_bound (size + 7) 8 ltac:(lia)). lia.
Qed.

Lemma Bitmap_SerializeTo_spec b data off :
  mem_len (bits_ b) < 2 ^ 16 →
  Bitmap_SerializeTo b data off =
    (data' ← mem_write off (bits_ b) data; Ok (data', mem_len (bits_ b))).
Proof.
  intros. unfold Bitmap_SerializeTo, GetBytes.
  pose proof (mem_len_nonneg (bits_ b)). rewrite u16_small by lia.
  rewrite (proj2 (mem_read_Ok 0 (mem_len (bits_ b)) (bits_ b) (bits_ b))); [done|].
  rewrite drop_0, take_ge by (unfold mem_len; lia). repeat split; lia.
Qed.

Lemma Bitmap_read_loop_spec n : ∀ i bits data off src,
  (i + n = length bits)%nat → length src = n →
  mem_read (off + Z.of_nat i) (Z.of_nat n) data = Ok src →
  Bitmap_read_loop n i bits data off = Ok (take i bits ++ src).
Proof.
  induction n as [|n IH]; intros i bits data off src Hn Hs Hr; simpl.
  - destruct src; [|done]. by rewrite app_nil_r, take_ge by lia.
  - destruct src as [|c src]; [done|]. injection Hs as Hs.
    replace (Z.of_nat (S n)) with (1 + Z.of_nat n) in Hr by lia.
    apply mem_read_app in Hr as [H1 H2]; [|lia..]. simpl in H1, H2.
    rewrite H1. simpl. erewrite IH; [|rewrite length_insert; lia|done|].
    + f_equal. rewrite (take_S_r _ i c).
      * rewrite take_insert_ge by lia. by rewrite <- app_assoc.
      * rewrite list_lookup_insert_eq; [done|lia].
    + by replace (off + Z.of_nat (S i)) with (off + Z.of_nat i + 1) by lia.
Qed.

Lemma Bitmap_DeserializeFrom_spec b data off src :
  mem_len (bits_ b) < 2 ^ 16 → mem_len src = mem_len (bits_ b) →
  mem_read off (mem_len src) data = Ok src →
  Bitmap_DeserializeFrom b data off = Ok (mkBitmap (bm_size_ b) src, mem_len src).
Proof.
  intros Hb Hs Hr. unfold Bitmap_DeserializeFrom, GetBytes.
  pose proof (mem_len_nonneg (bits_ b)). rewrite u16_small by lia.
  erewrite Bitmap_read_loop_spec; [| | |].
  - simpl. by rewrite Hs.
  - unfold mem_len. lia.
  - unfold mem_len in *. lia.
  - rewrite Z.add_0_r. unfold mem_len in *. by rewrite Nat2Z.id, <- Hs.
Qed.
