(* ===== verification/Column.v ===== *)
(** [src/src/catalog/column_definition.cpp] and
    [src/src/catalog/column_list.cpp]: the schema of a table. *)
From S2P Require Import Prelude Types Value.

Record ColumnDefinition := mkColumn { name_ : string; ctype_ : Type_; max_size_ : Z }.

(** [ColumnDefinition(name, type)]: the size is the one of the type. *)
Definition mk_ColumnDefinition (name : string) (type : Type_) : res ColumnDefinition :=
  size ← TypeSize type; Ok (mkColumn name type (u16 size)).

Definition sizeof_Type : Z := 4.
Definition Column_GetBytes (c : ColumnDefinition) : Z :=
  u16 (sizeof_db_size_t + str_len (name_ c) + sizeof_Type + sizeof_db_size_t).

Definition Column_ToString (c : ColumnDefinition) : res string :=
  t ← Type2String (ctype_ c);
  Ok (name_ c +:+ " " +:+ t +:+ " " +:+ pretty (max_size_ c)).

Definition ToStringVector (c : ColumnDefinition) : res (list string) :=
  t ← Type2String (ctype_ c); Ok [name_ c; t; pretty (max_size_ c)].

Record ColumnList := mkColumnList {
  columns_ : list ColumnDefinition;
  col2idx_ : gmap string Z
}.

Definition ColumnList_empty : ColumnList := mkColumnList [] ∅.

(** [col2idx_[column.name_] = col2idx_.size()]: since C++17 the right operand
    of an assignment is evaluated first, so the size is the one before
    [operator[]] inserts the key. *)
Definition AddColumn (cl : ColumnList) (column : ColumnDefinition) : ColumnList :=
  mkColumnList (columns_ cl ++ [column])
    (<[name_ column := Z.of_nat (size (col2idx_ cl))]> (col2idx_ cl)).

(** [explicit ColumnList(const std::vector<ColumnDefinition> &columns)] *)
Definition mk_ColumnList (columns : list ColumnDefinition) : ColumnList :=
  fold_left AddColumn columns ColumnList_empty.

Definition TryGetColumnIndex (cl : ColumnList) (name : string) : option Z :=
  col2idx_ cl !! name.

Definition GetColumnIndex (cl : ColumnList) (name : string) : res Z :=
  match TryGetColumnIndex cl name with
  | Some i => Ok i
  | None => Err (DbException ("Column " +:+ name +:+ " not found in column list"))
  end.

(** [columns_[index]] is undefined past the end. *)
Definition GetColumn (cl : ColumnList) (index : Z) : res ColumnDefinition :=
  match columns_ cl !! Z.to_nat index with
  | Some c => Ok c
  | None => Err (Undefined "GetColumn out of range")
  end.

Definition Length (cl : ColumnList) : Z := Z.of_nat (length (columns_ cl)).

Definition ColumnList_Size (cl : ColumnList) : Z :=
  fold_left (λ size c, size + Column_GetBytes c) (columns_ cl) sizeof_db_size_t.

Fixpoint columns_ToString (cs : list ColumnDefinition) : res string :=
  match cs with
  | [] => Ok ""
  | c :: cs => s ← Column_ToString c; rest ← columns_ToString cs;
               Ok (s +:+ newline +:+ rest)
  end.

Definition ColumnList_ToString (cl : ColumnList) : res string :=
  rest ← columns_ToString (columns_ cl);
  Ok (pretty (Length cl) +:+ newline +:+ rest).

(** ** Names and positions *)

Definition names (cl : ColumnList) : list string := name_ <$> columns_ cl.

(** The index map agrees with the positions of the columns. *)
Definition indexed (cl : ColumnList) : Prop :=
  (∀ n i, col2idx_ cl !! n = Some i ↔ 0 <= i ∧ names cl !! Z.to_nat i = Some n) ∧
  size (col2idx_ cl) = length (columns_ cl).

Lemma indexed_empty : indexed ColumnList_empty.
Proof.
  split; [|done]. intros n i. unfold names; simpl. rewrite lookup_nil, lookup_empty.
  naive_solver.
Qed.

Lemma AddColumn_indexed cl c :
  indexed cl → name_ c ∉ names cl → indexed (AddColumn cl c).
Proof.
  intros [Hi Hs] Hn.
  assert (col2idx_ cl !! name_ c = None) as Hnone.
  { destruct (col2idx_ cl !! name_ c) as [i|] eqn:He; [|done].
    apply Hi in He as [_ He]. destruct Hn. by eapply list_elem_of_lookup_2. }
  assert (length (names cl) = length (columns_ cl)) as Hl by apply length_fmap.
  split; simpl.
  - intros n i. unfold names; simpl. rewrite fmap_app, lookup_insert. simpl.
    change (name_ <$> columns_ cl) with (names cl).
    case_decide as Hd.
    + subst. rewrite Hs. split.
      * intros [= <-]. split; [lia|]. rewrite lookup_app_r by lia.
        by replace (Z.to_nat _ - length (names cl))%nat with 0%nat by lia.
      * intros [? Ha]. apply lookup_app_Some in Ha as [Ha|[? Ha]].
        -- destruct Hn. by eapply list_elem_of_lookup_2.
        -- apply lookup_lt_Some in Ha. simpl in Ha. f_equal. lia.
    + rewrite Hi. split; intros [? Ha]; (split; [done|]).
      * by apply lookup_app_l_Some.
      * apply lookup_app_Some in Ha as [Ha|[? Ha]]; [done|].
        apply list_lookup_singleton_Some in Ha as [_ Ha]. congruence.
  - rewrite map_size_insert_None, length_app by done. simpl. lia.
Qed.

Lemma mk_ColumnList_gen columns : ∀ cl,
  indexed cl → NoDup (names cl ++ (name_ <$> columns)) →
  indexed (fold_left AddColumn columns cl) ∧
  columns_ (fold_left AddColumn columns cl) = columns_ cl ++ columns.
Proof.
  induction columns as [|c cs IH]; intros cl Hi Hn; simpl.
  { by rewrite app_nil_r. }
  destruct (IH (AddColumn cl c)) as [H1 H2].
  - apply AddColumn_indexed; [done|]. rewrite NoDup_app in Hn.
    destruct Hn as (_ & Hn & _). intros Hin. apply (Hn _ Hin). left.
  - unfold names, AddColumn; simpl. rewrite fmap_app; simpl. by rewrite <- app_assoc.
  - split; [done|]. rewrite H2; simpl. by rewrite <- app_assoc.
Qed.
