(* ===== verification/Record.v ===== *)
(** [src/src/table/record_header.cpp] and [src/src/table/record.cpp]: the
    header and the body of a record, and their encoding in a page. *)
From S2P Require Import Prelude Memory Types Value Bitmap Column.

(** ** [RecordHeader] *)

Definition RECORD_HEADER_SIZE : Z :=
  sizeof_bool + sizeof_xid_t + sizeof_xid_t + sizeof_cid_t.

Record RecordHeader := mkHeader { deleted_ : bool; xmin_ : Z; xmax_ : Z; cid_ : Z }.

(** The default member initialisers. *)
Definition RecordHeader_default : RecordHeader := mkHeader false NULL_XID NULL_XID NULL_CID.

Definition bool_to_Z (b : bool) : Z := if b then 1 else 0.

Definition Header_SerializeTo (h : RecordHeader) (data : bytes) (p : Z) : res (bytes * Z) :=
  let offset := 0 in
  data ← put_uint (p + offset) sizeof_bool (bool_to_Z (deleted_ h)) data;
  let offset := offset + sizeof_bool in
  data ← put_uint (p + offset) sizeof_xid_t (xmin_ h) data;
  let offset := offset + sizeof_xid_t in
  data ← put_uint (p + offset) sizeof_xid_t (xmax_ h) data;
  let offset := offset + sizeof_xid_t in
  data ← put_uint (p + offset) sizeof_cid_t (cid_ h) data;
  let offset := offset + sizeof_cid_t in
  if offset =? RECORD_HEADER_SIZE then Ok (data, offset)
  else Err (AssertFailed "offset == RECORD_HEADER_SIZE").

Definition Header_DeserializeFrom (data : bytes) (p : Z) : res (RecordHeader * Z) :=
  let offset := 0 in
  deleted ← get_uint (p + offset) sizeof_bool data;
  let offset := offset + sizeof_bool in
  xmin ← get_uint (p + offset) sizeof_xid_t data;
  let offset := offset + sizeof_xid_t in
  xmax ← get_uint (p + offset) sizeof_xid_t data;
  let offset := offset + sizeof_xid_t in
  cid ← get_uint (p + offset) sizeof_cid_t data;
  let offset := offset + sizeof_cid_t in
  if offset =? RECORD_HEADER_SIZE then Ok (mkHeader (negb (deleted =? 0)) xmin xmax cid, offset)
  else Err (AssertFailed "offset == RECORD_HEADER_SIZE").

Definition Header_ToString (h : RecordHeader) : string :=
  "[deleted: " +:+ (if deleted_ h then "1" else "0") +:+
  ", xmin: " +:+ pretty (xmin_ h) +:+ ", xmax: " +:+ pretty (xmax_ h) +:+
  ", cid: " +:+ pretty (cid_ h) +:+ "]".

Definition Header_SetDeleted (h : RecordHeader) (deleted : bool) : RecordHeader :=
  mkHeader deleted (xmin_ h) (xmax_ h) (cid_ h).
Definition Header_SetXmax (h : RecordHeader) (xmax : Z) : RecordHeader :=
  mkHeader (deleted_ h) (xmin_ h) xmax (cid_ h).

(** ** [Record] *)

Record Rec := mkRec {
  null_bitmap_ : Bitmap;
  rvalues_ : list Value;
  header_ : RecordHeader;
  rid_ : Rid;
  rsize_ : Z
}.

(** [UpdateSize]: every [+=] is on a [db_size_t]. *)
Definition size_step (size : Z) (value : Value) : Z :=
  if IsNull value then size
  else let size := u16 (size + size_ value) in
       if IsString (type_ value) then u16 (size + 2) else size.

Definition UpdateSize (r : Rec) : Rec :=
  let size := RECORD_HEADER_SIZE in
  let size := u16 (size + GetBytes (null_bitmap_ r)) in
  mkRec (null_bitmap_ r) (rvalues_ r) (header_ r) (rid_ r)
    (fold_left size_step (rvalues_ r) size).

(** [Record() = default] leaves [rid_] and [size_] uninitialised; they are set
    before they are read. *)
Definition Record_default : Rec :=
  mkRec Bitmap_default [] RecordHeader_default (mkRid 0 0) 0.

(** The loop [for (i = 0; i < values_.size(); i++) if (IsNull()) Set(i)]. *)
Fixpoint set_nulls (b : Bitmap) (i : Z) (values : list Value) : res Bitmap :=
  match values with
  | [] => Ok b
  | v :: values =>
      b ← (if IsNull v then Set_ b (u16 i) else Ok b);
      set_nulls b (i + 1) values
  end.

(** [explicit Record(std::vector<Value> values, Rid rid)] *)
Definition mk_Record (values : list Value) (rid : Rid) : res Rec :=
  b ← set_nulls (mk_Bitmap (u16 (Z.of_nat (length values)))) 0 values;
  Ok (UpdateSize (mkRec b values RecordHeader_default rid 0)).

(** One iteration of the loop of [Append]: the bit and the [push_back]. *)
Definition append_step (acc : res (Bitmap * list Value)) (value : Value) : res (Bitmap * list Value) :=
  '(b, vs) ← acc;
  b ← (if IsNull value then Set_ b (u16 (Z.of_nat (length vs)))
       else Clear b (u16 (Z.of_nat (length vs))));
  Ok (b, vs ++ [value]).

Definition Append (r record : Rec) : res Rec :=
  let b := Resize (null_bitmap_ r)
             (u16 (Bitmap_GetSize (null_bitmap_ r) + Z.of_nat (length (rvalues_ record)))) in
  '(b, vs) ← fold_left append_step (rvalues_ record) (Ok (b, rvalues_ r));
  Ok (UpdateSize (mkRec b vs (header_ r) (rid_ r) (rsize_ r))).

Definition GetValue (r : Rec) (col_idx : Z) : res Value :=
  match (if 0 <=? col_idx then rvalues_ r !! Z.to_nat col_idx else None) with
  | Some v => Ok v
  | None => Err (DbException "Column index out of range")
  end.

Definition SetValue (r : Rec) (col_idx : Z) (value : Value) : res Rec :=
  if (0 <=? col_idx) && (col_idx <? Z.of_nat (length (rvalues_ r))) then
    b ← (if IsNull value then Set_ (null_bitmap_ r) (u16 col_idx)
         else Clear (null_bitmap_ r) (u16 col_idx));
    Ok (UpdateSize (mkRec b (<[Z.to_nat col_idx := value]> (rvalues_ r))
                      (header_ r) (rid_ r) (rsize_ r)))
  else Err (Undefined "SetValue out of range").

Definition GetValues (r : Rec) : list Value := rvalues_ r.
Definition GetSize (r : Rec) : Z := rsize_ r.
Definition GetRid (r : Rec) : Rid := rid_ r.
Definition SetRid (r : Rec) (rid : Rid) : Rec :=
  mkRec (null_bitmap_ r) (rvalues_ r) (header_ r) rid (rsize_ r).
Definition set_header (r : Rec) (h : RecordHeader) : Rec :=
  mkRec (null_bitmap_ r) (rvalues_ r) h (rid_ r) (rsize_ r).
Definition IsDeleted (r : Rec) : bool := deleted_ (header_ r).
Definition GetXmin (r : Rec) : Z := xmin_ (header_ r).
Definition GetXmax (r : Rec) : Z := xmax_ (header_ r).
Definition GetCid (r : Rec) : Z := cid_ (header_ r).
Definition SetDeleted (r : Rec) (deleted : bool) : Rec :=
  set_header r (mkHeader deleted (xmin_ (header_ r)) (xmax_ (header_ r)) (cid_ (header_ r))).
Definition SetXmin (r : Rec) (xmin : Z) : Rec :=
  set_header r (mkHeader (deleted_ (header_ r)) xmin (xmax_ (header_ r)) (cid_ (header_ r))).
Definition SetXmax (r : Rec) (xmax : Z) : Rec :=
  set_header r (mkHeader (deleted_ (header_ r)) (xmin_ (header_ r)) xmax (cid_ (header_ r))).
Definition SetCid (r : Rec) (cid : Z) : Rec :=
  set_header r (mkHeader (deleted_ (header_ r)) (xmin_ (header_ r)) (xmax_ (header_ r)) cid).

Fixpoint values_ToString (fmt_double : Z → string) (vs : list Value) : res string :=
  match vs with
  | [] => Ok ""
  | v :: vs => s ← Value_ToString fmt_double v; rest ← values_ToString fmt_double vs;
               Ok (s +:+ ", " +:+ rest)
  end.
Definition Record_ToString (fmt_double : Z → string) (r : Rec) : res string :=
  values_ToString fmt_double (rvalues_ r).

(** The loop over the values; [offset] is a [db_size_t]. *)
Fixpoint values_SerializeTo (vs : list Value) (data : bytes) (p offset : Z) : res (bytes * Z) :=
  match vs with
  | [] => Ok (data, offset)
  | v :: vs =>
      if IsNull v then values_SerializeTo vs data p offset
      else '(data, n) ← Value_SerializeTo v data (p + offset);
           values_SerializeTo vs data p (u16 (offset + n))
  end.

Definition Record_SerializeTo (r : Rec) (data : bytes) (p : Z) : res (bytes * Z) :=
  '(data, offset) ← Header_SerializeTo (header_ r) data p;
  '(data, n) ← Bitmap_SerializeTo (null_bitmap_ r) data (p + offset);
  let offset := u16 (offset + n) in
  '(data, offset) ← values_SerializeTo (rvalues_ r) data p offset;
  if offset =? GetSize r then Ok (data, offset)
  else Err (AssertFailed "offset == GetSize()").

Fixpoint values_DeserializeFrom (cols : list ColumnDefinition) (i : Z) (b : Bitmap)
    (data : bytes) (p offset : Z) : res (list Value * Z) :=
  match cols with
  | [] => Ok ([], offset)
  | c :: cols =>
      null ← Test b (u16 i);
      if null : bool then
        '(vs, offset) ← values_DeserializeFrom cols (i + 1) b data p offset;
        Ok (Value_null :: vs, offset)
      else
        '(v, n) ← Value_DeserializeFrom (Value_typed (ctype_ c) (max_size_ c)) data (p + offset);
        '(vs, offset) ← values_DeserializeFrom cols (i + 1) b data p (u16 (offset + n));
        Ok (v :: vs, offset)
  end.

Definition Record_DeserializeFrom (r : Rec) (data : bytes) (p : Z) (column_list : ColumnList)
    : res (Rec * Z) :=
  '(h, offset) ← Header_DeserializeFrom data p;
  let b := Resize (null_bitmap_ r) (u16 (Length column_list)) in
  '(b, n) ← Bitmap_DeserializeFrom b data (p + offset);
  let offset := u16 (offset + n) in
  '(vs, offset) ← values_DeserializeFrom (columns_ column_list) 0 b data p offset;
  let r := UpdateSize (mkRec b (rvalues_ r ++ vs) h (rid_ r) (rsize_ r)) in
  if offset =? GetSize r then Ok (r, offset)
  else Err (AssertFailed "offset == GetSize()").

Definition SerializeHeaderTo (r : Rec) (data : bytes) (p : Z) : res bytes :=
  fst <$> Header_SerializeTo (header_ r) data p.
Definition DeserializeHeaderFrom (r : Rec) (data : bytes) (p : Z) : res Rec :=
  '(h, _) ← Header_DeserializeFrom data p; Ok (set_header r h).

(** ** The encoding of headers *)

Definition header_bytes (h : RecordHeader) : bytes :=
  le_split 1 (bool_to_Z (deleted_ h)) ++ le_split 4 (xmin_ h) ++ le_split 4 (xmax_ h) ++
  le_split 4 (cid_ h).

Definition header_wf (h : RecordHeader) : Prop :=
  0 <= xmin_ h < 2 ^ 32 ∧ 0 <= xmax_ h < 2 ^ 32 ∧ 0 <= cid_ h < 2 ^ 32.

Lemma mem_len_header_bytes h : mem_len (header_bytes h) = RECORD_HEADER_SIZE.
Proof. done. Qed.

Lemma Header_SerializeTo_spec h data p :
  Header_SerializeTo h data p =
    (data' ← mem_write p (header_bytes h) data; Ok (data', RECORD_HEADER_SIZE)).
Proof.
  unfold Header_SerializeTo, header_bytes, put_uint.
  change (Z.to_nat sizeof_bool) with 1%nat. change (Z.to_nat sizeof_xid_t) with 4%nat.
  change (Z.to_nat sizeof_cid_t) with 4%nat. rewrite Z.add_0_r.
  rewrite mem_write_app. change (mem_len (le_split 1 _)) with 1.
  destruct (mem_write p _ data) as [d1|e]; rs; [|done].
  rewrite mem_write_app. change (mem_len (le_split 4 _)) with 4.
  change (p + (0 + sizeof_bool)) with (p + 1).
  destruct (mem_write (p + 1) _ d1) as [d2|e]; rs; [|done].
  rewrite mem_write_app. change (mem_len (le_split 4 _)) with 4.
  replace (p + (0 + sizeof_bool + sizeof_xid_t)) with (p + 1 + 4)
    by (unfold sizeof_bool, sizeof_xid_t; lia).
  destruct (mem_write (p + 1 + 4) _ d2) as [d3|e]; rs; [|done].
  replace (p + (0 + sizeof_bool + sizeof_xid_t + sizeof_xid_t)) with (p + 1 + 4 + 4)
    by (unfold sizeof_bool, sizeof_xid_t; lia).
  by destruct (mem_write (p + 1 + 4 + 4) _ d3) as [d4|e].
Qed.

(** Reading [n] bytes of an integer field off the front of a byte string. *)
Lemma get_uint_prefix p n z rest data :
  0 <= n → 0 <= z < 2 ^ (8 * n) →
  mem_read p (mem_len (le_split (Z.to_nat n) z ++ rest)) data = Ok (le_split (Z.to_nat n) z ++ rest) →
  get_uint p n data = Ok z ∧ mem_read (p + n) (mem_len rest) data = Ok rest.
Proof.
  intros Hn Hz Hr. rewrite mem_len_app, mem_len_le_split in Hr by lia.
  apply mem_read_app in Hr as [H1 H2]; [|lia|done].
  rewrite take_app_length' in H1 by (by rewrite length_le_split).
  rewrite drop_app_length' in H2 by (by rewrite length_le_split).
  split; [|done]. unfold get_uint. rewrite H1. simpl.
  rewrite le_combine_split, Z.mod_small; [done|].
  by replace (Z.of_nat (Z.to_nat n) * 8) with (8 * n) by lia.
Qed.

Lemma Header_DeserializeFrom_spec h data p :
  header_wf h → mem_read p RECORD_HEADER_SIZE data = Ok (header_bytes h) →
  Header_DeserializeFrom data p = Ok (h, RECORD_HEADER_SIZE).
Proof.
  intros (Hmin & Hmax & Hcid) Hr. unfold Header_DeserializeFrom.
  rewrite <- (mem_len_header_bytes h) in Hr. unfold header_bytes in Hr.
  apply (get_uint_prefix p 1) in Hr as [H1 Hr]; [|lia|by destruct (deleted_ h)].
  apply (get_uint_prefix _ 4) in Hr as [H2 Hr]; [|lia..].
  apply (get_uint_prefix _ 4) in Hr as [H3 Hr]; [|lia..].
  rewrite <- (app_nil_r (le_split 4 (cid_ h))) in Hr.
  apply (get_uint_prefix _ 4) in Hr as [H4 _]; [|lia..].
  rewrite Z.add_0_r. unfold sizeof_bool, sizeof_xid_t, sizeof_cid_t in *.
  rewrite H1; rs. change (p + (0 + 1)) with (p + 1). rewrite H2; rs.
  replace (p + (0 + 1 + 4)) with (p + 1 + 4) by lia. rewrite H3; rs.
  replace (p + (0 + 1 + 4 + 4)) with (p + 1 + 4 + 4) by lia. rewrite H4; rs.
  destruct h as [[] ???]; done.
Qed.

(** Any readable header decodes. *)
Lemma Header_DeserializeFrom_total data p :
  0 <= p → p + RECORD_HEADER_SIZE <= mem_len data →
  ∃ h, Header_DeserializeFrom data p = Ok (h, RECORD_HEADER_SIZE) ∧ header_wf h.
Proof.
  intros Hp Hd. unfold RECORD_HEADER_SIZE, sizeof_bool, sizeof_xid_t, sizeof_cid_t in Hd.
  unfold Header_DeserializeFrom, sizeof_bool, sizeof_xid_t, sizeof_cid_t.
  destruct (get_uint_in (p + 0) 1 data) as [a Ha]; [lia..|]. rewrite Ha; rs.
  destruct (get_uint_in (p + (0 + 1)) 4 data) as [b Hb]; [lia..|]. rewrite Hb; rs.
  destruct (get_uint_in (p + (0 + 1 + 4)) 4 data) as [c Hc]; [lia..|]. rewrite Hc; rs.
  destruct (get_uint_in (p + (0 + 1 + 4 + 4)) 4 data) as [d He]; [lia..|]. rewrite He; rs.
  eexists; split; [done|].
  apply get_uint_range in Hb, Hc, He. unfold header_wf; simpl. lia.
Qed.

(** ** The encoding of records *)

Fixpoint values_bytes (vs : list Value) : bytes :=
  match vs with
  | [] => []
  | v :: vs => if IsNull v then values_bytes vs else value_bytes v ++ values_bytes vs
  end.

Definition record_bytes (r : Rec) : bytes :=
  header_bytes (header_ r) ++ bits_ (null_bitmap_ r) ++ values_bytes (rvalues_ r).

(** A value that can be stored: NULL, or a well-formed value. *)
Definition storable (v : Value) : Prop := IsNull v = true ∨ value_wf v.

(** The null bitmap of a list of values. *)
Definition bitmap_of (b : Bitmap) (vs : list Value) : Prop :=
  mem_len (bits_ b) = (Z.of_nat (length vs) + 7) / 8 ∧
  ∀ i, 0 <= i → bit b i = match vs !! Z.to_nat i with Some v => IsNull v | None => false end.

Record record_wf (r : Rec) : Prop := {
  rw_values : Forall storable (rvalues_ r);
  rw_count : Z.of_nat (length (rvalues_ r)) < 2 ^ 16;
  rw_bitmap : bitmap_of (null_bitmap_ r) (rvalues_ r);
  rw_header : header_wf (header_ r);
  rw_size : rsize_ r = mem_len (record_bytes r);
  rw_fits : mem_len (record_bytes r) < 2 ^ 16
}.

Lemma storable_not_null v : storable v → IsNull v = false → value_wf v.
Proof. intros [Hn|Hw] Hf; [congruence|done]. Qed.

Lemma size_fold vs : ∀ s,
  Forall storable vs → 0 <= s → s + mem_len (values_bytes vs) < 2 ^ 16 →
  fold_left size_step vs s = s + mem_len (values_bytes vs).
Proof.
  induction vs as [|v vs IH]; intros s Hs Hp Hb; simpl in *.
  { unfold mem_len; simpl. lia. }
  apply Forall_cons in Hs as [Hv Hs]. unfold size_step at 2.
  destruct (IsNull v) eqn:Hn; [by apply IH|].
  apply storable_not_null in Hv; [|done].
  rewrite mem_len_app, (value_bytes_len v Hv) in Hb.
  rewrite mem_len_app, (value_bytes_len v Hv).
  pose proof (mem_len_nonneg (values_bytes vs)). pose proof (mem_len_nonneg (value_bytes v)) as Hv0.
  rewrite (value_bytes_len v Hv) in Hv0.
  assert (0 <= size_ v) as Hsz.
  { apply value_wf_cases in Hv.
    destruct Hv as [[b ->]|[[z [-> ?]]|[[z [-> ?]]|[[z [-> ?]]|(str&t&->&?&?)]]]]; simpl; try lia.
    apply u16_range. }
  rewrite (u16_small (s + size_ v)) by (destruct (IsString (type_ v)); lia).
  destruct (IsString (type_ v)).
  - rewrite u16_small by lia. rewrite IH by (done || lia). lia.
  - rewrite IH by (done || lia). lia.
Qed.

(** Values are written one after the other. *)
Lemma values_SerializeTo_spec vs : ∀ data p offset,
  Forall storable vs → 0 <= offset → offset + mem_len (values_bytes vs) < 2 ^ 16 →
  (∃ data', mem_write (p + offset) (values_bytes vs) data = Ok data') →
  values_SerializeTo vs data p offset =
    (data' ← mem_write (p + offset) (values_bytes vs) data;
     Ok (data', offset + mem_len (values_bytes vs))).
Proof.
  induction vs as [|v vs IH]; intros data p offset Hs Hp Hb [data' Hw]; simpl in *.
  - rewrite Hw. simpl. apply mem_write_Ok in Hw as (?&?&->).
    unfold splice, mem_len; simpl. rewrite Nat.add_0_r, take_drop, Z.add_0_r. done.
  - apply Forall_cons in Hs as [Hv Hs].
    destruct (IsNull v) eqn:Hn; [by apply IH; eauto|].
    apply storable_not_null in Hv; [|done].
    rewrite mem_len_app in *. pose proof (mem_len_nonneg (values_bytes vs)).
    pose proof (mem_len_nonneg (value_bytes v)).
    rewrite Value_SerializeTo_spec, mem_write_app by done.
    rewrite mem_write_app in Hw. destruct (mem_write _ (value_bytes v) data) as [d1|]; [|done].
    simpl in *. rewrite u16_small by lia.
    replace (p + offset + mem_len (value_bytes v)) with (p + (offset + mem_len (value_bytes v))) in * by lia.
    rewrite IH by (eauto || lia). rewrite Hw. simpl. do 2 f_equal. lia.
Qed.

Lemma bitmap_len_lt b vs :
  bitmap_of b vs → Z.of_nat (length vs) < 2 ^ 16 → mem_len (bits_ b) < 2 ^ 16.
Proof.
  intros [-> _] Hl. apply Z.div_lt_upper_bound; lia.
Qed.

(** [SerializeTo] of a well-formed record is one copy of its bytes, the size
    it reports is [GetSize()] and the assertion holds. *)
Lemma Record_SerializeTo_spec r data p :
  record_wf r → 0 <= p → p + rsize_ r <= mem_len data →
  ∃ data', mem_write p (record_bytes r) data = Ok data' ∧
    Record_SerializeTo r data p = Ok (data', rsize_ r).
Proof.
  intros [Hv Hc Hb Hh Hs Hf] Hp Hd. rewrite Hs in Hd.
  pose proof (bitmap_len_lt _ _ Hb Hc) as Hbl.
  assert (mem_len (record_bytes r) = RECORD_HEADER_SIZE +
    (mem_len (bits_ (null_bitmap_ r)) + mem_len (values_bytes (rvalues_ r)))) as Hl.
  { unfold record_bytes. by rewrite !mem_len_app, mem_len_header_bytes. }
  eexists; split; [by apply mem_write_in|].
  assert (mem_write p (record_bytes r) data
    = Ok (splice (Z.to_nat p) (record_bytes r) data)) as Hw by (by apply mem_write_in).
  unfold record_bytes in Hw at 1. rewrite mem_write_app in Hw.
  apply bind_Ok in Hw as (d1 & Hw1 & Hw). rewrite mem_write_app in Hw.
  apply bind_Ok in Hw as (d2 & Hw2 & Hw).
  rewrite mem_len_header_bytes in Hw2, Hw.
  pose proof (mem_len_nonneg (bits_ (null_bitmap_ r))).
  pose proof (mem_len_nonneg (values_bytes (rvalues_ r))).
  assert (0 <= RECORD_HEADER_SIZE) by done.
  unfold Record_SerializeTo. rewrite Header_SerializeTo_spec, Hw1; rs.
  rewrite Bitmap_SerializeTo_spec, Hw2 by done; rs.
  rewrite u16_small by lia.
  replace (p + RECORD_HEADER_SIZE + mem_len (bits_ (null_bitmap_ r)))
    with (p + (RECORD_HEADER_SIZE + mem_len (bits_ (null_bitmap_ r)))) in Hw by lia.
  rewrite values_SerializeTo_spec by (eauto || lia). rewrite Hw; rs.
  unfold GetSize. rewrite Hs, Hl.
  rewrite (proj2 (Z.eqb_eq _ _)) by lia. do 2 f_equal. lia.
Qed.

(** *** Building a record from its values *)

Lemma set_nulls_spec vs : ∀ b i,
  0 <= i → i + Z.of_nat (length vs) < 2 ^ 16 →
  mem_len (bits_ b) = (i + Z.of_nat (length vs) + 7) / 8 →
  ∃ b', set_nulls b i vs = Ok b' ∧ mem_len (bits_ b') = mem_len (bits_ b) ∧
    bm_size_ b' = bm_size_ b ∧
    ∀ j, 0 <= j → bit b' j = (bit b j ||
      match (if i <=? j then vs !! Z.to_nat (j - i) else None) with
      | Some v => IsNull v | None => false end)%bool.
Proof.
  induction vs as [|v vs IH]; intros b i Hi Hb Hl; simpl.
  { exists b. repeat split. intros j Hj.
    destruct (i <=? j); rewrite ?lookup_nil; by rewrite orb_false_r. }
  simpl in Hb, Hl.
  assert (∃ b1, (if IsNull v then Set_ b (u16 i) else Ok b) = Ok b1 ∧
    mem_len (bits_ b1) = mem_len (bits_ b) ∧ bm_size_ b1 = bm_size_ b ∧
    ∀ j, 0 <= j → bit b1 j = (bit b j || (bool_decide (j = i) && IsNull v))%bool)
    as (b1 & Hb1 & Hl1 & Hs1 & Hbit1).
  { destruct (IsNull v).
    - rewrite u16_small by lia.
      destruct (Set_bit b i) as (b1 & Hb1 & Hs1 & Hl1 & Hbit1).
      { eapply in_range_size; [done|lia]. }
      exists b1. repeat split; try done. intros j Hj.
      by rewrite Hbit1, andb_true_r, orb_comm by lia.
    - exists b. repeat split; try done. intros j Hj.
      by rewrite andb_false_r, orb_false_r. }
  rewrite Hb1; rs.
  destruct (IH b1 (i + 1)) as (b' & Hb' & Hl' & Hs' & Hbit'); [lia..| |].
  { rewrite Hl1, Hl. f_equal. lia. }
  exists b'. split; [done|]. split; [by rewrite Hl'|]. split; [by rewrite Hs'|].
  intros j Hj. rewrite Hbit', Hbit1 by done. rewrite <- orb_assoc. f_equal.
  destruct (Z.leb_spec (i + 1) j), (Z.leb_spec i j); try lia.
  - rewrite bool_decide_false by lia. simpl.
    by replace (Z.to_nat (j - i)) with (S (Z.to_nat (j - (i + 1)))) by lia.
  - assert (j = i) as -> by lia. rewrite bool_decide_true by done. simpl.
    by rewrite Z.sub_diag, orb_false_r.
  - rewrite bool_decide_false by lia. done.
Qed.

(** The number of bytes of a record with the values [vs]. *)
Definition record_len (vs : list Value) : Z :=
  RECORD_HEADER_SIZE + (Z.of_nat (length vs) + 7) / 8 + mem_len (values_bytes vs).

Lemma record_bytes_len r :
  bitmap_of (null_bitmap_ r) (rvalues_ r) →
  mem_len (record_bytes r) = record_len (rvalues_ r).
Proof.
  intros [Hb _]. unfold record_bytes, record_len.
  rewrite !mem_len_app, mem_len_header_bytes, Hb. lia.
Qed.

Lemma bitmap_len_nonneg (n : nat) : 0 <= (Z.of_nat n + 7) / 8.
Proof. apply Z.div_pos; lia. Qed.

Lemma UpdateSize_rsize b vs h rid sz :
  Forall storable vs → Z.of_nat (length vs) < 2 ^ 16 → bitmap_of b vs →
  record_len vs < 2 ^ 16 →
  rsize_ (UpdateSize (mkRec b vs h rid sz)) = record_len vs.
Proof.
  intros Hs Hc Hb Hf. unfold record_len in *. unfold UpdateSize, GetBytes; simpl.
  pose proof (bitmap_len_nonneg (length vs)). pose proof (mem_len_nonneg (values_bytes vs)).
  destruct Hb as [Hb _]. rewrite Hb.
  assert (RECORD_HEADER_SIZE = 13) as Hh by done. rewrite Hh in *.
  rewrite (u16_small ((_ + 7) / 8)) by lia. rewrite u16_small by lia.
  by rewrite size_fold by (done || lia).
Qed.

Lemma mk_Record_spec vs rid :
  Forall storable vs → Z.of_nat (length vs) < 2 ^ 16 → record_len vs < 2 ^ 16 →
  ∃ r, mk_Record vs rid = Ok r ∧ record_wf r ∧ rvalues_ r = vs ∧ rid_ r = rid ∧
    header_ r = RecordHeader_default ∧ bm_size_ (null_bitmap_ r) = Z.of_nat (length vs).
Proof.
  intros Hs Hc Hf. unfold mk_Record.
  destruct (set_nulls_spec vs (mk_Bitmap (u16 (Z.of_nat (length vs)))) 0)
    as (b & Hb & Hl & Hbs & Hbit); [lia..| |].
  { rewrite u16_small by lia. apply mem_len_Resize. lia. }
  rewrite Hb; rs.
  assert (bitmap_of b vs) as Hbm.
  { split.
    - rewrite Hl, u16_small by lia. apply mem_len_Resize. lia.
    - intros j Hj. rewrite Hbit by done.
      rewrite mk_Bitmap_bit by apply u16_range. simpl.
      destruct (Z.leb_spec 0 j); [|lia]. by rewrite Z.sub_0_r. }
  eexists; split; [done|]. split; [|repeat split; try done].
  - split; try done.
    + rewrite UpdateSize_rsize by done. by rewrite record_bytes_len.
    + by rewrite record_bytes_len.
  - simpl. rewrite Hbs. simpl. apply u16_small. lia.
Qed.

(** *** Decoding *)

(** What a stored value is read back as. *)
Definition norm (v : Value) : Value := if IsNull v then Value_null else v.

Definition column_fits (c : ColumnDefinition) (v : Value) : Prop :=
  IsNull v = true ∨
  (ctype_ c = type_ v ∧ (IsString (type_ v) = false → max_size_ c = size_ v)).

(** The record has the columns of the schema. *)
Definition schema_ok (cl : ColumnList) (vs : list Value) : Prop :=
  Forall2 column_fits (columns_ cl) vs.

Lemma values_DeserializeFrom_spec b data p vs : ∀ cols i offset,
  Forall storable vs → Forall2 column_fits cols vs →
  0 <= i → i + Z.of_nat (length vs) < 2 ^ 16 →
  (∀ j v, vs !! j = Some v → Test b (i + Z.of_nat j) = Ok (IsNull v)) →
  0 <= offset → offset + mem_len (values_bytes vs) < 2 ^ 16 →
  mem_read (p + offset) (mem_len (values_bytes vs)) data = Ok (values_bytes vs) →
  values_DeserializeFrom cols i b data p offset
    = Ok (norm <$> vs, offset + mem_len (values_bytes vs)).
Proof.
  induction vs as [|v vs IH]; intros cols i offset Hs Hcs Hi Hb Ht Ho Hf Hr.
  { inversion Hcs; subst. simpl. do 2 f_equal. unfold mem_len; simpl. lia. }
  apply Forall2_cons_inv_r in Hcs as (c & cols' & Hc & Hcs & ->).
  apply Forall_cons in Hs as [Hv Hs].
  cbn [values_DeserializeFrom]. cbn [length] in Hb. rewrite u16_small by lia.
  pose proof (Ht 0%nat v eq_refl) as Ht0. rewrite Z.add_0_r in Ht0. rewrite Ht0; rs.
  assert (∀ j w, vs !! j = Some w → Test b (i + 1 + Z.of_nat j) = Ok (IsNull w)) as Ht'.
  { intros j w Hj. rewrite <- (Ht (S j) w Hj). f_equal. lia. }
  cbn [values_bytes] in Hf, Hr |- *. destruct (IsNull v) eqn:Hn.
  - rewrite (IH cols' (i + 1) offset) by (done || lia); rs.
    simpl. unfold norm at 2. by rewrite Hn.
  - apply storable_not_null in Hv; [|done]. destruct Hc as [Hc|[Hty Hsz]]; [congruence|].
    rewrite mem_len_app in Hf, Hr |- *.
    pose proof (mem_len_nonneg (values_bytes vs)). pose proof (mem_len_nonneg (value_bytes v)).
    apply mem_read_app in Hr as [Hr1 Hr2]; [|done..].
    rewrite take_app_length' in Hr1 by (unfold mem_len; lia).
    rewrite drop_app_length' in Hr2 by (unfold mem_len; lia).
    rewrite Hty, (Value_DeserializeFrom_spec v data (p + offset) (max_size_ c)) by done; rs.
    rewrite u16_small by lia.
    rewrite (IH cols' (i + 1)); try done; try lia.
    + rs. simpl. unfold norm at 2. rewrite Hn. do 2 f_equal. lia.
    + by rewrite Z.add_assoc.
Qed.

Lemma norm_IsNull v : IsNull (norm v) = IsNull v.
Proof. unfold norm. by destruct (IsNull v) eqn:Hn. Qed.

Lemma values_bytes_norm vs : values_bytes (norm <$> vs) = values_bytes vs.
Proof.
  induction vs as [|v vs IH]; [done|]. rewrite fmap_cons. cbn [values_bytes].
  rewrite norm_IsNull, IH. unfold norm. by destruct (IsNull v).
Qed.

Lemma norm_storable vs : Forall storable vs → Forall storable (norm <$> vs).
Proof.
  intros Hs. apply Forall_fmap. eapply Forall_impl; [done|]. intros v [Hv|Hv].
  - left. simpl. by rewrite norm_IsNull.
  - right. simpl. unfold norm. by rewrite value_wf_not_null.
Qed.

Lemma bitmap_of_norm b vs : bitmap_of b vs → bitmap_of b (norm <$> vs).
Proof.
  intros [Hl Hb]. split; [by rewrite length_fmap|]. intros i Hi.
  rewrite Hb, list_lookup_fmap by done.
  destruct (vs !! Z.to_nat i); simpl; [by rewrite norm_IsNull|done].
Qed.

(** The record a scan reads back from the bytes of [r]. *)
Definition read_back (r : Rec) (rid : Rid) : Rec :=
  mkRec (mkBitmap (Z.of_nat (length (rvalues_ r))) (bits_ (null_bitmap_ r)))
    (norm <$> rvalues_ r) (header_ r) rid (rsize_ r).

Lemma UpdateSize_norm b vs h rid sz :
  Forall storable vs → Z.of_nat (length vs) < 2 ^ 16 → bitmap_of b vs →
  record_len vs < 2 ^ 16 →
  UpdateSize (mkRec b (norm <$> vs) h rid sz) = mkRec b (norm <$> vs) h rid (record_len vs).
Proof.
  intros Hs Hc Hb Hf.
  assert (record_len (norm <$> vs) = record_len vs) as Hl.
  { unfold record_len. by rewrite length_fmap, values_bytes_norm. }
  rewrite <- Hl, <- (UpdateSize_rsize b (norm <$> vs) h rid sz); [done|..].
  - by apply norm_storable.
  - by rewrite length_fmap.
  - by apply bitmap_of_norm.
  - by rewrite Hl.
Qed.

Lemma Record_DeserializeFrom_spec r data p cl rid sz :
  record_wf r → schema_ok cl (rvalues_ r) →
  mem_read p (rsize_ r) data = Ok (record_bytes r) →
  Record_DeserializeFrom (mkRec Bitmap_default [] RecordHeader_default rid sz) data p cl
    = Ok (read_back r rid, rsize_ r).
Proof.
  intros [Hv Hc Hb Hh Hs Hf] Hsc Hr.
  pose proof (bitmap_len_lt _ _ Hb Hc) as Hbl.
  rewrite record_bytes_len in Hs, Hf by done. unfold read_back. rewrite Hs in Hr |- *.
  assert (Length cl = Z.of_nat (length (rvalues_ r))) as Hcl.
  { unfold Length. f_equal. by eapply Forall2_length. }
  assert (mem_len (bits_ (Resize Bitmap_default (u16 (Length cl)))) =
    mem_len (bits_ (null_bitmap_ r))) as Hbb.
  { rewrite mem_len_Resize, Hcl, u16_small by (apply u16_range || lia). symmetry. apply Hb. }
  assert (record_len (rvalues_ r) = RECORD_HEADER_SIZE +
    (mem_len (bits_ (null_bitmap_ r)) + mem_len (values_bytes (rvalues_ r)))) as Hl.
  { unfold record_len. rewrite <- (proj1 Hb). lia. }
  pose proof (mem_len_nonneg (bits_ (null_bitmap_ r))).
  pose proof (mem_len_nonneg (values_bytes (rvalues_ r))).
  assert (RECORD_HEADER_SIZE = 13) as Hh13 by done.
  rewrite Hl in Hr. unfold record_bytes in Hr.
  apply mem_read_app in Hr as [Hr1 Hr]; [|lia..].
  rewrite take_app_length' in Hr1 by done. rewrite drop_app_length' in Hr by done.
  apply mem_read_app in Hr as [Hr2 Hr]; [|done..].
  rewrite take_app_length' in Hr2 by (unfold mem_len; lia).
  rewrite drop_app_length' in Hr by (unfold mem_len; lia).
  unfold Record_DeserializeFrom. cbn [null_bitmap_ rvalues_ rid_ rsize_].
  rewrite (Header_DeserializeFrom_spec (header_ r)) by done; rs.
  rewrite (Bitmap_DeserializeFrom_spec _ _ _ (bits_ (null_bitmap_ r)));
    [|by rewrite Hbb|by rewrite Hbb|done].
  rs. rewrite (u16_small (_ + mem_len _)) by lia.
  rewrite (values_DeserializeFrom_spec _ _ _ (rvalues_ r)); try done; try lia.
  - rs. cbn [rvalues_ app null_bitmap_ rid_ rsize_]. rewrite UpdateSize_norm by done.
    unfold GetSize; cbn [rsize_]. rewrite Hl.
    rewrite (proj2 (Z.eqb_eq _ _)) by lia. cbn [bm_size_ Resize].
    rewrite Hcl, u16_small by lia. do 2 f_equal. lia.
  - intros j v Hj. rewrite Test_bit.
    + f_equal. rewrite Z.add_0_l.
      change (bit (null_bitmap_ r) (Z.of_nat j) = IsNull v).
      rewrite (proj2 Hb) by lia. by rewrite Nat2Z.id, Hj.
    + apply lookup_lt_Some in Hj. eapply in_range_size; [exact (proj1 Hb)|]. lia.
  - by rewrite Z.add_assoc.
Qed.

(** ** Properties *)

(** C34: [DeserializeFrom] inverts [SerializeTo]. A well-formed record written
    anywhere in a large enough array is read back, with a schema its values
    fit, as the record with the same values (every NULL the untyped one), the
    same header and the same size, and both operations report [GetSize()]. *)
Theorem record_roundtrip r data p cl :
  record_wf r → schema_ok cl (rvalues_ r) → 0 <= p → p + GetSize r <= mem_len data →
  ∃ data', Record_SerializeTo r data p = Ok (data', GetSize r) ∧ mem_len data' = mem_len data ∧
    Record_DeserializeFrom Record_default data' p cl = Ok (read_back r (mkRid 0 0), GetSize r).
Proof.
  intros Hr Hs Hp Hd. destruct (Record_SerializeTo_spec r data p Hr Hp Hd) as (d' & Hw & Hser).
  exists d'. split; [done|]. split; [by eapply mem_write_length|].
  apply Record_DeserializeFrom_spec; [done|done|].
  eapply mem_read_write_same; [done|]. apply Hr.
Qed.

(** The constructor [Record(values, rid)] succeeds on storable values that
    fit in 16 bits, its null bitmap marks exactly the NULL values and
    [GetSize()] is the number of bytes [SerializeTo] writes. *)
Theorem record_constructor values rid :
  Forall storable values → Z.of_nat (length values) < 2 ^ 16 → record_len values < 2 ^ 16 →
  ∃ r, mk_Record values rid = Ok r ∧ record_wf r ∧ GetValues r = values ∧ GetRid r = rid ∧
    GetSize r = record_len values ∧
    ∀ i v, values !! i = Some v → Test (null_bitmap_ r) (Z.of_nat i) = Ok (IsNull v).
Proof.
  intros Hs Hc Hf. destruct (mk_Record_spec values rid Hs Hc Hf) as (r & Hr & Hw & Hv & Hi & _ & _).
  exists r. split; [done|]. split; [done|]. split; [done|]. split; [done|].
  destruct Hw as [_ _ Hb _ Hsz _]. rewrite Hv in Hb. split.
  - unfold GetSize. rewrite Hsz, record_bytes_len, Hv by (by rewrite Hv). done.
  - intros i v Hiv. rewrite Test_bit.
    + rewrite (proj2 Hb) by lia. by rewrite Nat2Z.id, Hiv.
    + apply lookup_lt_Some in Hiv. eapply in_range_size; [apply Hb|]. lia.
Qed.

(** *** Concrete records *)

Definition ex_values : list Value :=
  [Value_int (-7); Value_null; Value_string "ab" VARCHAR; Value_bool true].
Definition ex_schema : ColumnList :=
  mk_ColumnList [mkColumn "a" INT 4; mkColumn "b" DOUBLE 8; mkColumn "c" VARCHAR 10;
                 mkColumn "d" BOOL 1].
Definition ex_record : Rec :=
  match mk_Record ex_values (mkRid 0 0) with Ok r => r | Err _ => Record_default end.

Lemma ex_values_storable : Forall storable ex_values.
Proof. repeat (apply Forall_cons; split; [by (left + right)|]). constructor. Qed.

Lemma ex_record_wf : record_wf ex_record ∧ schema_ok ex_schema (rvalues_ ex_record).
Proof.
  destruct (mk_Record_spec ex_values (mkRid 0 0)) as (r & Hr & Hw & _);
    [exact ex_values_storable|done|done|].
  assert (r = ex_record) as -> by (unfold ex_record; by rewrite Hr).
  split; [done|]. unfold schema_ok.
  change (columns_ ex_schema) with [mkColumn "a" INT 4; mkColumn "b" DOUBLE 8;
    mkColumn "c" VARCHAR 10; mkColumn "d" BOOL 1].
  change (rvalues_ ex_record) with ex_values.
  repeat (apply Forall2_cons; split; [(by left) || (right; by split)|]). by constructor.
Qed.

Lemma record_roundtrip_witness :
  ∃ data', Record_SerializeTo ex_record (replicate 40 Byte.x00) 3 = Ok (data', 23) ∧
    mem_len data' = 40 ∧
    Record_DeserializeFrom Record_default data' 3 ex_schema
      = Ok (read_back ex_record (mkRid 0 0), 23).
Proof.
  destruct ex_record_wf as [Hw Hs].
  exact (record_roundtrip ex_record (replicate 40 Byte.x00) 3 ex_schema Hw Hs
    ltac:(lia) ltac:(by vm_compute)).
Defined.

Lemma record_constructor_witness :
  ∃ r, mk_Record ex_values (mkRid 2 5) = Ok r ∧ record_wf r ∧ GetValues r = ex_values ∧
    GetRid r = mkRid 2 5 ∧ GetSize r = record_len ex_values ∧
    ∀ i v, ex_values !! i = Some v → Test (null_bitmap_ r) (Z.of_nat i) = Ok (IsNull v).
Proof.
  exact (record_constructor ex_values (mkRid 2 5) ex_values_storable ltac:(done) ltac:(done)).
Defined.
