(* ===== verification/TablePage.v ===== *)
(** [src/src/storage/page.cpp] and [src/src/table/table_page.cpp]: the slotted
    page. The operations act on the 256 bytes of the page; [page_repr] relates
    those bytes to an abstract page (its LSN, its successor and its records in
    slot order) and every operation is proved to refine one on abstract pages. *)
From S2P Require Import Prelude Memory Types Value Bitmap Column Record.

(** ** [Page] *)

Record Page := mkPage { data_ : bytes; is_dirty_ : bool }.

(** [Page::Page()]: [new char[DB_PAGE_SIZE]] leaves the bytes indeterminate;
    they are the argument. *)
Definition Page_new (contents : bytes) : Page := mkPage contents false.
Definition SetDirty (p : Page) : Page := mkPage (data_ p) true.
Definition IsDirty (p : Page) : bool := is_dirty_ p.

(** ** [TablePage] *)

Definition PAGE_HEADER_SIZE : Z :=
  sizeof_lsn_t + sizeof_pageid_t + sizeof_db_size_t + sizeof_db_size_t.

(** The constructor sets the member pointers at these offsets. *)
Definition page_lsn_ : Z := 0.
Definition next_page_id_ : Z := sizeof_lsn_t.
Definition lower_ : Z := sizeof_lsn_t + sizeof_pageid_t.
Definition upper_ : Z := sizeof_lsn_t + sizeof_pageid_t + sizeof_db_size_t.
Definition slots_offset_ (i : Z) : Z := PAGE_HEADER_SIZE + sizeof_Slot * i.
Definition slots_size_ (i : Z) : Z := PAGE_HEADER_SIZE + sizeof_Slot * i + sizeof_db_size_t.

(** Reading and writing through those pointers. *)
Definition rd (p n : Z) : M Page Z := λ pg, (get_uint p n (data_ pg), pg).
Definition on_data (f : bytes → res bytes) : M Page unit := λ pg,
  match f (data_ pg) with
  | Ok d => (Ok (), mkPage d (is_dirty_ pg))
  | Err e => (Err e, pg)
  end.
Definition wr (p n z : Z) : M Page unit := on_data (put_uint p n z).
Definition set_dirty : M Page unit := modify SetDirty.

Definition Init : M Page unit :=
  wr page_lsn_ sizeof_lsn_t 0 ;;
  wr next_page_id_ sizeof_pageid_t NULL_PAGE_ID ;;
  wr lower_ sizeof_db_size_t PAGE_HEADER_SIZE ;;
  wr upper_ sizeof_db_size_t DB_PAGE_SIZE ;;
  set_dirty.

(** [*lower_ - PAGE_HEADER_SIZE] is an [int] that the division by [sizeof]
    converts to [size_t]. *)
Definition GetRecordCount : M Page Z :=
  lower ← rd lower_ sizeof_db_size_t;
  mret (u16 (u64 (lower - PAGE_HEADER_SIZE) / sizeof_Slot)).

(** The record is the caller's object: the version with its header filled in
    is returned with the slot. *)
Definition InsertRecord (record : Rec) (xid cid : Z) : M Page (Z * Rec) :=
  get_count ← GetRecordCount;
  lower ← rd lower_ sizeof_db_size_t;
  wr lower_ sizeof_db_size_t (u16 (lower + sizeof_Slot)) ;;
  upper ← rd upper_ sizeof_db_size_t;
  wr upper_ sizeof_db_size_t (u16 (upper - GetSize record)) ;;
  let record := SetCid record cid in
  let record := SetXmin record xid in
  upper ← rd upper_ sizeof_db_size_t;
  wr (slots_offset_ get_count) sizeof_db_size_t upper ;;
  wr (slots_size_ get_count) sizeof_db_size_t (GetSize record) ;;
  upper ← rd upper_ sizeof_db_size_t;
  on_data (λ d, fst <$> Record_SerializeTo record d upper) ;;
  set_dirty ;;
  count ← GetRecordCount;
  mret (u16 (count - 1), record).

(** Rewriting the header of the record in a slot. *)
Definition update_header (slot_id : Z) (f : RecordHeader → RecordHeader) : M Page unit :=
  offset ← rd (slots_offset_ slot_id) sizeof_db_size_t;
  pg ← get;
  '(h, _) ← lift (Header_DeserializeFrom (data_ pg) offset);
  on_data (λ d, fst <$> Header_SerializeTo (f h) d offset) ;;
  set_dirty.

Definition DeleteRecord (slot_id xid : Z) : M Page unit :=
  update_header slot_id (λ record_header,
    Header_SetXmax (Header_SetDeleted record_header true) xid).

Definition UndoDeleteRecord (slot_id : Z) : M Page unit :=
  update_header slot_id (λ record_header,
    Header_SetXmax (Header_SetDeleted record_header false) NULL_XID).

Definition UpdateRecordInPlace (record : Rec) (slot_id : Z) : M Page unit :=
  offset ← rd (slots_offset_ slot_id) sizeof_db_size_t;
  on_data (λ d, fst <$> Record_SerializeTo record d offset) ;;
  set_dirty.

Definition GetRecord (rid : Rid) (column_list : ColumnList) : M Page Rec :=
  offset ← rd (slots_offset_ (slot_id_ rid)) sizeof_db_size_t;
  pg ← get;
  '(record, _) ← lift (Record_DeserializeFrom Record_default (data_ pg) offset column_list);
  let record := SetRid record rid in
  '(new_header, _) ← lift (Header_DeserializeFrom (data_ pg) offset);
  record_ptr ← lift (mk_Record (GetValues record) (GetRid record));
  let record_ptr := SetDeleted record_ptr (IsDeleted record) in
  let record_ptr := SetCid record_ptr (GetCid record) in
  let record_ptr := SetXmax record_ptr (GetXmax record) in
  let record_ptr := SetXmin record_ptr (GetXmin record) in
  mret record_ptr.

(** [page_offset] is not used. *)
Definition RedoInsertRecord (slot_id : Z) (raw_record : bytes) (page_offset record_size : Z)
    : M Page unit :=
  get_count ← GetRecordCount;
  lower ← rd lower_ sizeof_db_size_t;
  wr lower_ sizeof_db_size_t (u16 (lower + sizeof_Slot)) ;;
  upper ← rd upper_ sizeof_db_size_t;
  wr upper_ sizeof_db_size_t (u16 (upper - record_size)) ;;
  wr (slots_size_ slot_id) sizeof_db_size_t record_size ;;
  upper ← rd upper_ sizeof_db_size_t;
  wr (slots_offset_ slot_id) sizeof_db_size_t upper ;;
  upper ← rd upper_ sizeof_db_size_t;
  src ← lift (mem_read 0 record_size raw_record);
  on_data (mem_write upper src) ;;
  set_dirty.

Definition GetPageLSN : M Page Z := rd page_lsn_ sizeof_lsn_t.
Definition GetNextPageId : M Page Z := rd next_page_id_ sizeof_pageid_t.
Definition GetLower : M Page Z := rd lower_ sizeof_db_size_t.
Definition GetUpper : M Page Z := rd upper_ sizeof_db_size_t.

Definition GetFreeSpaceSize : M Page Z :=
  upper ← rd upper_ sizeof_db_size_t;
  lower ← rd lower_ sizeof_db_size_t;
  mret (if upper <? u64 (lower + sizeof_Slot) then 0
        else u16 (u64 (upper - lower - sizeof_Slot))).

Definition SetNextPageId (page_id : Z) : M Page unit :=
  wr next_page_id_ sizeof_pageid_t page_id ;; set_dirty.
Definition SetPageLSN (page_lsn : Z) : M Page unit :=
  wr page_lsn_ sizeof_lsn_t page_lsn ;; set_dirty.

(** The lines [ToString] prints for the slots [i], [i + 1], ..., [n] of them. *)
Fixpoint slots_ToString (n : nat) (i : Z) : M Page string :=
  match n with
  | O => mret ""
  | S n =>
      offset ← rd (slots_offset_ i) sizeof_db_size_t;
      size ← rd (slots_size_ i) sizeof_db_size_t;
      line ← (if size <=? RECORD_HEADER_SIZE
              then mret "***Error: record size smaller than header size***"
              else if DB_PAGE_SIZE <=? offset + RECORD_HEADER_SIZE
              then mret "***Error: record offset out of page boundary***"
              else pg ← get;
                   '(h, _) ← lift (Header_DeserializeFrom (data_ pg) offset);
                   mret (Header_ToString h));
      rest ← slots_ToString n (i + 1);
      mret ("    " +:+ pretty i +:+ ": offset " +:+ pretty offset +:+ ", size " +:+
            pretty size +:+ " " +:+ line +:+ newline +:+ rest)
  end.

Definition Page_ToString : M Page string :=
  lsn ← rd page_lsn_ sizeof_lsn_t;
  next ← rd next_page_id_ sizeof_pageid_t;
  lower ← rd lower_ sizeof_db_size_t;
  upper ← rd upper_ sizeof_db_size_t;
  count ← GetRecordCount;
  slots ← slots_ToString (Z.to_nat count) 0;
  mret ("TablePage[" +:+ newline +:+
        "  page_lsn: " +:+ pretty lsn +:+ newline +:+
        "  next_page_id: " +:+ pretty next +:+ newline +:+
        "  lower: " +:+ pretty lower +:+ newline +:+
        "  upper: " +:+ pretty upper +:+ newline +:+
        (if upper <? lower
         then newline +:+ "***Error: lower > upper***" +:+ newline else "") +:+
        "  slots: " +:+ newline +:+ slots +:+ "]" +:+ newline).

(** ** Abstract pages *)

(** The content of a page: its LSN, the number of the next page and the
    encoded records, slot by slot. *)
Record APage := mkAPage { a_lsn : Z; a_next : Z; a_recs : list bytes }.

Fixpoint total (recs : list bytes) : Z :=
  match recs with [] => 0 | b :: recs => mem_len b + total recs end.

(** Records are stacked downwards from the end of the page. *)
Definition rec_offset (recs : list bytes) (i : nat) : Z := DB_PAGE_SIZE - total (take (S i) recs).

Definition a_count (recs : list bytes) : Z := Z.of_nat (length recs).

(** The bytes a page with these records occupies. *)
Definition a_used (recs : list bytes) : Z :=
  PAGE_HEADER_SIZE + sizeof_Slot * a_count recs + total recs.

Record page_repr (p : Page) (a : APage) : Prop := {
  pr_len : mem_len (data_ p) = DB_PAGE_SIZE;
  pr_lsn : get_uint page_lsn_ sizeof_lsn_t (data_ p) = Ok (a_lsn a);
  pr_next : get_uint next_page_id_ sizeof_pageid_t (data_ p) = Ok (a_next a);
  pr_lower : get_uint lower_ sizeof_db_size_t (data_ p)
    = Ok (PAGE_HEADER_SIZE + sizeof_Slot * a_count (a_recs a));
  pr_upper : get_uint upper_ sizeof_db_size_t (data_ p) = Ok (DB_PAGE_SIZE - total (a_recs a));
  pr_fits : a_used (a_recs a) <= DB_PAGE_SIZE;
  pr_slots : ∀ i b, a_recs a !! i = Some b →
    get_uint (slots_offset_ (Z.of_nat i)) sizeof_db_size_t (data_ p) = Ok (rec_offset (a_recs a) i) ∧
    get_uint (slots_size_ (Z.of_nat i)) sizeof_db_size_t (data_ p) = Ok (mem_len b) ∧
    mem_read (rec_offset (a_recs a) i) (mem_len b) (data_ p) = Ok b
}.

(** *** Arithmetic of the layout *)

Ltac page_consts := cbv [page_lsn_ next_page_id_ lower_ upper_ slots_offset_ slots_size_
  PAGE_HEADER_SIZE sizeof_lsn_t sizeof_pageid_t sizeof_db_size_t sizeof_Slot
  RECORD_HEADER_SIZE sizeof_bool sizeof_xid_t sizeof_cid_t a_used rec_offset a_count] in *;
  change DB_PAGE_SIZE with 256 in *.
Ltac plia := page_consts; lia.

Lemma total_nonneg recs : 0 <= total recs.
Proof. induction recs as [|b recs IH]; simpl; [lia|]. pose proof (mem_len_nonneg b). lia. Qed.
#[export] Hint Resolve total_nonneg : core.

Lemma total_app r1 r2 : total (r1 ++ r2) = total r1 + total r2.
Proof. induction r1 as [|b r1 IH]; simpl; lia. Qed.

Lemma total_take_le recs i : total (take i recs) <= total recs.
Proof.
  rewrite <- (take_drop i recs) at 2. rewrite total_app. pose proof (total_nonneg (drop i recs)). lia.
Qed.

Lemma total_take_mono recs i j : (i ≤ j)%nat → total (take i recs) <= total (take j recs).
Proof. intros Hij. rewrite <- (total_take_le (take j recs) i), take_take. by rewrite Nat.min_l. Qed.

Lemma total_take_S recs i b :
  recs !! i = Some b → total (take (S i) recs) = total (take i recs) + mem_len b.
Proof. intros Hb. rewrite (take_S_r _ _ _ Hb), total_app. simpl. lia. Qed.

(** The bytes of record [i] lie between the upper pointer and the end. *)
Lemma rec_offset_bounds recs i b :
  recs !! i = Some b →
  DB_PAGE_SIZE - total recs <= rec_offset recs i ∧
  rec_offset recs i + mem_len b = DB_PAGE_SIZE - total (take i recs).
Proof.
  intros Hb. unfold rec_offset. pose proof (total_take_le recs (S i)).
  pose proof (total_take_S _ _ _ Hb). lia.
Qed.

Lemma a_count_lookup recs i b : recs !! i = Some b → Z.of_nat i < a_count recs.
Proof. intros Hb. apply lookup_lt_Some in Hb. unfold a_count. lia. Qed.

Lemma rec_offset_app recs b i :
  (i < length recs)%nat → rec_offset (recs ++ [b]) i = rec_offset recs i.
Proof. intros Hi. unfold rec_offset. by rewrite take_app_le by lia. Qed.

Lemma rec_offset_last recs b :
  rec_offset (recs ++ [b]) (length recs) = DB_PAGE_SIZE - total recs - mem_len b.
Proof.
  unfold rec_offset. rewrite take_ge by (rewrite length_app; simpl; lia).
  rewrite total_app. simpl. lia.
Qed.

(** Replacing a record by one of the same length moves nothing. *)
Lemma total_insert recs i b b' :
  recs !! i = Some b → mem_len b' = mem_len b → total (<[i := b']> recs) = total recs.
Proof.
  revert i. induction recs as [|x recs IH]; intros i Hb Hl; [done|].
  destruct i as [|i]; simpl in *; [simplify_eq; lia|]. by rewrite (IH i).
Qed.

Lemma rec_offset_insert recs i b b' j :
  recs !! i = Some b → mem_len b' = mem_len b →
  rec_offset (<[i := b']> recs) j = rec_offset recs j.
Proof.
  intros Hb Hl. unfold rec_offset. destruct (decide (i < S j)%nat).
  - rewrite take_insert_lt by lia. erewrite total_insert; [done| |done].
    by rewrite lookup_take_lt by lia.
  - by rewrite take_insert_ge by lia.
Qed.

(** *** Steps on pages *)

Lemma rd_step {B} p n z (f : Z → M Page B) pg :
  get_uint p n (data_ pg) = Ok z → (rd p n ≫= f) pg = f z pg.
Proof. intros H. unfold rd, mbind, M_bind. by rewrite H. Qed.

Lemma on_data_step {B} g d (f : unit → M Page B) pg :
  g (data_ pg) = Ok d → (on_data g ≫= f) pg = f () (mkPage d (is_dirty_ pg)).
Proof. intros H. unfold on_data, mbind, M_bind. by rewrite H. Qed.

Lemma wr_step {B} p n z d (f : unit → M Page B) pg :
  put_uint p n z (data_ pg) = Ok d → (wr p n z ≫= f) pg = f () (mkPage d (is_dirty_ pg)).
Proof. apply on_data_step. Qed.

Lemma GetRecordCount_spec p a :
  page_repr p a → GetRecordCount p = (Ok (a_count (a_recs a)), p).
Proof.
  intros Hp. unfold GetRecordCount. erewrite rd_step by apply Hp.
  destruct Hp as [? _ _ _ _ Hf _]. unfold mret, M_ret. f_equal. f_equal.
  pose proof (total_nonneg (a_recs a)).
  replace (PAGE_HEADER_SIZE + sizeof_Slot * a_count (a_recs a) - PAGE_HEADER_SIZE)
    with (a_count (a_recs a) * sizeof_Slot) by lia.
  rewrite u64_small, Z.div_mul by plia. apply u16_small. plia.
Qed.

Lemma GetFreeSpaceSize_spec p a :
  page_repr p a →
  GetFreeSpaceSize p =
    (Ok (Z.max 0 (DB_PAGE_SIZE - a_used (a_recs a) - sizeof_Slot)), p).
Proof.
  intros Hp. unfold GetFreeSpaceSize. do 2 erewrite rd_step by apply Hp.
  destruct Hp as [? _ _ _ _ Hf _]. unfold mret, M_ret. f_equal. f_equal.
  pose proof (total_nonneg (a_recs a)). assert (0 <= a_count (a_recs a)) by plia.
  rewrite u64_small by plia.
  destruct (Z.ltb_spec (DB_PAGE_SIZE - total (a_recs a))
    (PAGE_HEADER_SIZE + sizeof_Slot * a_count (a_recs a) + sizeof_Slot)).
  - unfold a_used in *. lia.
  - rewrite u64_small by plia. rewrite u16_small by plia. unfold a_used in *. lia.
Qed.

(** *** Appending a record *)

(** The byte ranges an insertion into a page with the records [recs] touches:
    the two pointers, the next slot and the bytes of the record. *)
Definition insert_footprint (recs : list bytes) (len o m : Z) : Prop :=
  (o + m <= lower_ ∨ PAGE_HEADER_SIZE <= o) ∧
  (o + m <= slots_offset_ (a_count recs) ∨ slots_offset_ (a_count recs + 1) <= o) ∧
  (o + m <= DB_PAGE_SIZE - total recs - len ∨ DB_PAGE_SIZE - total recs <= o).

Lemma page_repr_append p a d' dirty b :
  page_repr p a →
  a_used (a_recs a ++ [b]) <= DB_PAGE_SIZE →
  mem_len d' = DB_PAGE_SIZE →
  get_uint lower_ sizeof_db_size_t d' = Ok (PAGE_HEADER_SIZE + sizeof_Slot * (a_count (a_recs a) + 1)) →
  get_uint upper_ sizeof_db_size_t d' = Ok (DB_PAGE_SIZE - total (a_recs a) - mem_len b) →
  get_uint (slots_offset_ (a_count (a_recs a))) sizeof_db_size_t d'
    = Ok (DB_PAGE_SIZE - total (a_recs a) - mem_len b) →
  get_uint (slots_size_ (a_count (a_recs a))) sizeof_db_size_t d' = Ok (mem_len b) →
  mem_read (DB_PAGE_SIZE - total (a_recs a) - mem_len b) (mem_len b) d' = Ok b →
  (∀ o m, insert_footprint (a_recs a) (mem_len b) o m → mem_read o m d' = mem_read o m (data_ p)) →
  page_repr (mkPage d' dirty) (mkAPage (a_lsn a) (a_next a) (a_recs a ++ [b])).
Proof.
  intros Hp Hfit Hlen Hlow Hup Hso Hss Hrec Hframe.
  assert (∀ o m, insert_footprint (a_recs a) (mem_len b) o m →
    get_uint o m d' = get_uint o m (data_ p)) as Hg.
  { intros o m Hom. unfold get_uint. by rewrite Hframe. }
  destruct Hp as [Hl Hlsn Hnext _ _ Hf Hs]. pose proof (total_nonneg (a_recs a)).
  pose proof (mem_len_nonneg b).
  assert (a_used (a_recs a ++ [b]) = a_used (a_recs a) + sizeof_Slot + mem_len b) as Hu.
  { unfold a_used, a_count. rewrite total_app, length_app. simpl. lia. }
  split; simpl.
  - done.
  - rewrite Hg; [done|]. unfold insert_footprint. plia.
  - rewrite Hg; [done|]. unfold insert_footprint. plia.
  - rewrite Hlow. f_equal. unfold a_count. rewrite length_app. simpl. lia.
  - rewrite Hup. f_equal. rewrite total_app. simpl. lia.
  - done.
  - intros i c Hi. apply lookup_app_Some in Hi as [Hi|[Hi Hc]].
    + pose proof (lookup_lt_Some _ _ _ Hi). pose proof (a_count_lookup _ _ _ Hi).
      destruct (rec_offset_bounds _ _ _ Hi) as [Hb1 Hb2].
      pose proof (total_nonneg (take i (a_recs a))). pose proof (mem_len_nonneg c).
      rewrite rec_offset_app by done.
      destruct (Hs _ _ Hi) as (Hs1 & Hs2 & Hs3).
      rewrite !Hg, Hframe; [done|..]; unfold insert_footprint; plia.
    + apply list_lookup_singleton_Some in Hc as [Hi' <-].
      assert (i = length (a_recs a)) as -> by lia. rewrite rec_offset_last. done.
Qed.

(** Follow reads through the writes made since. *)
Ltac frame :=
  repeat match goal with
  | H : put_uint ?off ?n ?z ?d = Ok ?d' |- context [mem_read ?o ?m ?d'] =>
      rewrite (mem_read_put_uint_other off n z d d' o m ltac:(plia) H ltac:(plia))
  | H : mem_write ?off ?bs ?d = Ok ?d' |- context [mem_read ?o ?m ?d'] =>
      rewrite (mem_read_write_other off bs d d' o m H ltac:(plia))
  | H : put_uint ?off ?n ?z ?d = Ok ?d' |- context [get_uint ?o ?m ?d'] =>
      rewrite (get_put_uint_other off n z d d' o m ltac:(plia) H ltac:(plia))
  | H : mem_write ?off ?bs ?d = Ok ?d' |- context [get_uint ?o ?m ?d'] =>
      rewrite (get_write_other off bs d d' o m H ltac:(plia))
  end.

(** Perform the next write of a page operation. *)
Lemma put_uint_step off n z d :
  0 <= off → 0 <= n → off + n <= mem_len d →
  ∃ d', put_uint off n z d = Ok d' ∧ mem_len d' = mem_len d ∧
    get_uint off n d' = Ok (z mod 2 ^ (8 * n)).
Proof.
  intros. destruct (put_uint_in off n z d) as [d' Hd]; [done..|].
  exists d'. split; [done|]. split; [by eapply put_uint_length|by eapply get_put_uint_same].
Qed.

(** The header the insertion stamps on the record. *)
Definition stamp (r : Rec) (xid cid : Z) : Rec := SetXmin (SetCid r cid) xid.

Lemma stamp_bytes_len r xid cid : mem_len (record_bytes (stamp r xid cid)) = mem_len (record_bytes r).
Proof. unfold record_bytes. by rewrite !mem_len_app. Qed.

Lemma stamp_wf r xid cid :
  record_wf r → 0 <= xid < 2 ^ 32 → 0 <= cid < 2 ^ 32 → record_wf (stamp r xid cid).
Proof.
  intros [Hv Hc Hb Hh Hs Hf] ??. split; try done.
  destruct Hh as (?&?&?). unfold header_wf; simpl. lia.
Qed.

Lemma page_repr_len_b p a : page_repr p a → mem_len (data_ p) = 256.
Proof. by intros [-> _ _ _ _ _ _]. Qed.

(** The writes that append the record [b] to a page that represents [a]. *)
Definition append_writes (p : Page) (a : APage) (b d5 : bytes) : Prop :=
  let upper := DB_PAGE_SIZE - total (a_recs a) - mem_len b in
  ∃ d1 d2 d3 d4,
    put_uint lower_ sizeof_db_size_t
      (PAGE_HEADER_SIZE + sizeof_Slot * a_count (a_recs a) + sizeof_Slot) (data_ p) = Ok d1 ∧
    put_uint upper_ sizeof_db_size_t upper d1 = Ok d2 ∧
    put_uint (slots_offset_ (a_count (a_recs a))) sizeof_db_size_t upper d2 = Ok d3 ∧
    put_uint (slots_size_ (a_count (a_recs a))) sizeof_db_size_t (mem_len b) d3 = Ok d4 ∧
    mem_write upper b d4 = Ok d5.

Lemma append_writes_repr p a b :
  page_repr p a → a_used (a_recs a) + sizeof_Slot + mem_len b <= DB_PAGE_SIZE →
  ∃ d5, append_writes p a b d5 ∧
    page_repr (mkPage d5 true) (mkAPage (a_lsn a) (a_next a) (a_recs a ++ [b])).
Proof.
  intros Hp Hfit. pose proof (mem_len_nonneg b). pose proof (total_nonneg (a_recs a)).
  assert (0 <= a_count (a_recs a)) by plia. pose proof (pr_len _ _ Hp) as Hl.
  set (upper := DB_PAGE_SIZE - total (a_recs a) - mem_len b).
  destruct (put_uint_step lower_ sizeof_db_size_t
    (PAGE_HEADER_SIZE + sizeof_Slot * a_count (a_recs a) + sizeof_Slot) (data_ p))
    as (d1 & Hd1 & Hl1 & Hg1); [plia..|].
  destruct (put_uint_step upper_ sizeof_db_size_t upper d1) as (d2 & Hd2 & Hl2 & Hg2); [plia..|].
  destruct (put_uint_step (slots_offset_ (a_count (a_recs a))) sizeof_db_size_t upper d2)
    as (d3 & Hd3 & Hl3 & Hg3); [plia..|].
  destruct (put_uint_step (slots_size_ (a_count (a_recs a))) sizeof_db_size_t (mem_len b) d3)
    as (d4 & Hd4 & Hl4 & Hg4); [plia..|].
  assert (mem_write upper b d4 = Ok (splice (Z.to_nat upper) b d4)) as Hd5.
  { apply mem_write_in; unfold upper; plia. }
  pose proof (mem_write_length _ _ _ _ Hd5) as Hl5. unfold upper in *.
  eexists. split; [by exists d1, d2, d3, d4|]. apply (page_repr_append p); try done.
  - unfold a_used, a_count in *. rewrite total_app, length_app. simpl. plia.
  - plia.
  - frame. rewrite Hg1, Z.mod_small by plia. f_equal. lia.
  - frame. by rewrite Hg2, Z.mod_small by plia.
  - frame. by rewrite Hg3, Z.mod_small by plia.
  - frame. by rewrite Hg4, Z.mod_small by plia.
  - by eapply mem_read_write_same.
  - intros o m (Ho1 & Ho2 & Ho3). frame. done.
Qed.

(** [InsertRecord] performs those writes. *)
Lemma InsertRecord_writes p a r xid cid d5 :
  page_repr p a → record_wf r → 0 <= xid < 2 ^ 32 → 0 <= cid < 2 ^ 32 →
  a_used (a_recs a) + sizeof_Slot + rsize_ r <= DB_PAGE_SIZE →
  append_writes p a (record_bytes (stamp r xid cid)) d5 →
  page_repr (mkPage d5 true)
    (mkAPage (a_lsn a) (a_next a) (a_recs a ++ [record_bytes (stamp r xid cid)])) →
  InsertRecord r xid cid p = (Ok (a_count (a_recs a), stamp r xid cid), mkPage d5 true).
Proof.
  intros Hp Hr Hx Hc Hfit (d1 & d2 & d3 & d4 & Hd1 & Hd2 & Hd3 & Hd4 & Hd5) Hrepr.
  pose proof (stamp_wf r xid cid Hr Hx Hc) as Hrw. revert Hd1 Hd2 Hd3 Hd4 Hd5 Hrepr.
  set (b := record_bytes (stamp r xid cid)). intros Hd1 Hd2 Hd3 Hd4 Hd5 Hrepr.
  assert (mem_len b = rsize_ r) as Hsz by (unfold b; rewrite stamp_bytes_len; symmetry; apply Hr).
  rewrite Hsz in *.
  pose proof (total_nonneg (a_recs a)). pose proof (mem_len_nonneg b).
  assert (0 <= a_count (a_recs a)) by plia. pose proof (pr_len _ _ Hp) as Hl.
  unfold InsertRecord, GetSize. erewrite M_bind_step by (by apply GetRecordCount_spec).
  erewrite rd_step by apply Hp. rewrite u16_small by plia. erewrite wr_step by exact Hd1.
  erewrite rd_step by (cbn [data_]; frame; apply Hp). rewrite u16_small by plia.
  erewrite wr_step by exact Hd2.
  pose proof (get_put_uint_same _ sizeof_db_size_t _ _ _ ltac:(done) Hd2) as Hg2. rewrite Z.mod_small in Hg2 by plia.
  erewrite rd_step by exact Hg2. erewrite wr_step by exact Hd3. erewrite wr_step by exact Hd4.
  erewrite rd_step by (cbn [data_]; frame; exact Hg2).
  destruct (Record_SerializeTo_spec (stamp r xid cid) d4 (DB_PAGE_SIZE - total (a_recs a) - rsize_ r))
    as (d5' & Hd5' & Hs5); [done|plia| |].
  { apply mem_write_Ok in Hd5 as (?&?&_). cbn [rsize_ stamp SetXmin SetCid set_header]. lia. }
  fold b in Hd5'. rewrite Hd5 in Hd5'. injection Hd5' as <-.
  apply (f_equal (fmap fst)) in Hs5. erewrite on_data_step by exact Hs5.
  unfold set_dirty. rewrite modify_step.
  erewrite M_bind_step by (by apply GetRecordCount_spec).
  unfold mret, M_ret; simpl. do 3 f_equal.
  unfold a_count in *. rewrite length_app; simpl. rewrite u16_small by plia. plia.
Qed.

(** [RedoInsertRecord] of the logged bytes performs them too, with the two
    fields of the slot written in the other order. *)
Lemma RedoInsertRecord_writes p a b off d5 :
  page_repr p a → a_used (a_recs a) + sizeof_Slot + mem_len b <= DB_PAGE_SIZE →
  append_writes p a b d5 →
  RedoInsertRecord (a_count (a_recs a)) b off (mem_len b) p = (Ok (), mkPage d5 true).
Proof.
  intros Hp Hfit (d1 & d2 & d3 & d4 & Hd1 & Hd2 & Hd3 & Hd4 & Hd5).
  pose proof (total_nonneg (a_recs a)). pose proof (mem_len_nonneg b).
  assert (0 <= a_count (a_recs a)) by plia. pose proof (pr_len _ _ Hp) as Hl.
  pose proof (get_put_uint_same _ sizeof_db_size_t _ _ _ ltac:(done) Hd2) as Hg2. rewrite Z.mod_small in Hg2 by plia.
  pose proof (get_put_uint_same _ sizeof_db_size_t _ _ _ ltac:(done) Hd3) as Hg3.
  edestruct (λ H, mem_write_comm _ _ _ _ _ _ _ H Hd3 Hd4) as (d3' & Hd3' & Hd4').
  { rewrite !mem_len_le_split by plia. plia. }
  change (put_uint (slots_size_ (a_count (a_recs a))) sizeof_db_size_t (mem_len b) d2 = Ok d3') in Hd3'.
  change (put_uint (slots_offset_ (a_count (a_recs a))) sizeof_db_size_t
    (DB_PAGE_SIZE - total (a_recs a) - mem_len b) d3' = Ok d4) in Hd4'.
  unfold RedoInsertRecord. erewrite M_bind_step by (by apply GetRecordCount_spec).
  erewrite rd_step by apply Hp. rewrite u16_small by plia. erewrite wr_step by exact Hd1.
  erewrite rd_step by (cbn [data_]; frame; apply Hp). rewrite u16_small by plia.
  erewrite wr_step by exact Hd2. erewrite wr_step by exact Hd3'.
  clear Hd3 Hd4 Hg3.
  erewrite rd_step by (cbn [data_]; frame; exact Hg2). erewrite wr_step by exact Hd4'.
  erewrite rd_step by (cbn [data_]; frame; exact Hg2).
  erewrite lift_step by (by apply mem_read_all). erewrite on_data_step by exact Hd5. done.
Qed.

(** [InsertRecord] appends the stamped record to the abstract page, and
    [RedoInsertRecord] of what was logged for it rebuilds the same bytes. *)
Lemma InsertRecord_repr p a r xid cid :
  page_repr p a → record_wf r → 0 <= xid < 2 ^ 32 → 0 <= cid < 2 ^ 32 →
  a_used (a_recs a) + sizeof_Slot + rsize_ r <= DB_PAGE_SIZE →
  let b := record_bytes (stamp r xid cid) in
  ∃ p', InsertRecord r xid cid p = (Ok (a_count (a_recs a), stamp r xid cid), p') ∧
    page_repr p' (mkAPage (a_lsn a) (a_next a) (a_recs a ++ [b])) ∧ is_dirty_ p' = true ∧
    ∀ off, RedoInsertRecord (a_count (a_recs a)) b off (rsize_ r) p = (Ok (), p').
Proof.
  intros Hp Hr Hx Hc Hfit b.
  assert (mem_len b = rsize_ r) as Hsz by (unfold b; rewrite stamp_bytes_len; symmetry; apply Hr).
  destruct (append_writes_repr p a b Hp) as (d5 & Hw & Hrepr); [lia|].
  exists (mkPage d5 true). split; [by apply InsertRecord_writes|]. do 2 (split; [done|]).
  intros off. rewrite <- Hsz. apply RedoInsertRecord_writes; done || lia.
Qed.

(** *** Initialisation *)

Lemma Init_repr p :
  mem_len (data_ p) = DB_PAGE_SIZE →
  ∃ p', Init p = (Ok (), p') ∧ page_repr p' (mkAPage 0 NULL_PAGE_ID []) ∧ is_dirty_ p' = true.
Proof.
  intros Hl. unfold Init.
  destruct (put_uint_step page_lsn_ sizeof_lsn_t 0 (data_ p)) as (d1 & Hd1 & Hl1 & Hg1); [plia..|].
  destruct (put_uint_step next_page_id_ sizeof_pageid_t NULL_PAGE_ID d1)
    as (d2 & Hd2 & Hl2 & Hg2); [plia..|].
  destruct (put_uint_step lower_ sizeof_db_size_t PAGE_HEADER_SIZE d2)
    as (d3 & Hd3 & Hl3 & Hg3); [plia..|].
  destruct (put_uint_step upper_ sizeof_db_size_t DB_PAGE_SIZE d3)
    as (d4 & Hd4 & Hl4 & Hg4); [plia..|].
  erewrite wr_step by exact Hd1. erewrite wr_step by exact Hd2.
  erewrite wr_step by exact Hd3. erewrite wr_step by exact Hd4.
  eexists; split; [done|]. split; [|done]. split; simpl.
  - plia.
  - by frame.
  - by frame.
  - frame. rewrite Hg3. done.
  - rewrite Hg4. done.
  - done.
  - intros i b Hi. by rewrite lookup_nil in Hi.
Qed.

(** *** Headers in place *)

Lemma get_uint_shift p n d hb k m :
  mem_read p n d = Ok hb → 0 <= k → 0 <= m → k + m <= n →
  get_uint (p + k) m d = get_uint k m hb.
Proof.
  intros Hr ???. pose proof (mem_read_length _ _ _ _ Hr) as Hl.
  unfold get_uint.
  assert (mem_read p (k + (m + (n - k - m))) d = Ok hb) as Hr' by (rewrite <- Hr; f_equal; lia).
  apply mem_read_app in Hr' as [_ Hr']; [|lia..]. apply mem_read_app in Hr' as [Hr' _]; [|lia..].
  rewrite Hr'. by rewrite mem_read_in by lia.
Qed.

(** Decoding a header only looks at its bytes. *)
Lemma Header_DeserializeFrom_shift d p hb :
  mem_read p RECORD_HEADER_SIZE d = Ok hb →
  Header_DeserializeFrom d p = Header_DeserializeFrom hb 0.
Proof.
  intros Hr. unfold Header_DeserializeFrom, RECORD_HEADER_SIZE, sizeof_bool, sizeof_xid_t,
    sizeof_cid_t in *.
  by rewrite !(get_uint_shift p _ d hb) by (exact Hr || lia).
Qed.

Definition decode_header (b : bytes) : RecordHeader :=
  match Header_DeserializeFrom b 0 with Ok (h, _) => h | Err _ => RecordHeader_default end.

(** The bytes of a record with its header changed by [f]. *)
Definition with_header (f : RecordHeader → RecordHeader) (b : bytes) : bytes :=
  header_bytes (f (decode_header b)) ++ drop (Z.to_nat RECORD_HEADER_SIZE) b.

Lemma with_header_len f b :
  RECORD_HEADER_SIZE <= mem_len b → mem_len (with_header f b) = mem_len b.
Proof.
  intros Hb. unfold with_header. rewrite mem_len_app, mem_len_header_bytes.
  unfold mem_len in *. rewrite length_drop. plia.
Qed.

Lemma decode_record_bytes r :
  header_wf (header_ r) → decode_header (record_bytes r) = header_ r.
Proof.
  intros Hh. unfold decode_header.
  rewrite (Header_DeserializeFrom_spec (header_ r)); [done|done|].
  unfold record_bytes. by apply mem_read_prefix.
Qed.

Lemma with_header_record f r :
  header_wf (header_ r) →
  with_header f (record_bytes r) = record_bytes (set_header r (f (header_ r))).
Proof.
  intros Hh. unfold with_header. rewrite decode_record_bytes by done.
  unfold record_bytes. by rewrite drop_app_length'.
Qed.

(** The write that [update_header] performs. *)
Lemma update_header_write p a i b f :
  page_repr p a → a_recs a !! i = Some b → RECORD_HEADER_SIZE <= mem_len b →
  ∃ d', mem_write (rec_offset (a_recs a) i) (header_bytes (f (decode_header b))) (data_ p) = Ok d' ∧
    update_header (Z.of_nat i) f p = (Ok (), mkPage d' true) ∧
    mem_read (rec_offset (a_recs a) i) RECORD_HEADER_SIZE (data_ p)
      = Ok (take (Z.to_nat RECORD_HEADER_SIZE) b) ∧
    Header_DeserializeFrom (take (Z.to_nat RECORD_HEADER_SIZE) b) 0
      = Ok (decode_header b, RECORD_HEADER_SIZE).
Proof.
  intros Hp Hi Hb. destruct (rec_offset_bounds _ _ _ Hi) as [Hb1 Hb2].
  pose proof (total_nonneg (take i (a_recs a))). pose proof (pr_fits _ _ Hp).
  pose proof (pr_len _ _ Hp) as Hl.
  destruct (pr_slots _ _ Hp _ _ Hi) as (Hs1 & Hs2 & Hs3).
  assert (0 <= a_count (a_recs a)) by plia.
  assert (0 <= rec_offset (a_recs a) i) as Hr0.
  { unfold a_used, PAGE_HEADER_SIZE, sizeof_Slot, sizeof_lsn_t, sizeof_pageid_t,
      sizeof_db_size_t in *. lia. }
  assert (mem_read (rec_offset (a_recs a) i) RECORD_HEADER_SIZE (data_ p)
    = Ok (take (Z.to_nat RECORD_HEADER_SIZE) b)) as Hrh.
  { replace (mem_len b) with (RECORD_HEADER_SIZE + (mem_len b - RECORD_HEADER_SIZE)) in Hs3 by lia.
    apply mem_read_app in Hs3 as [Hs3 _]; [done|done|lia]. }
  assert (Header_DeserializeFrom (take (Z.to_nat RECORD_HEADER_SIZE) b) 0
      = Ok (decode_header b, RECORD_HEADER_SIZE)) as Hdec.
  { rewrite <- (Header_DeserializeFrom_shift b 0).
    - unfold decode_header.
      destruct (Header_DeserializeFrom_total b 0) as (h & -> & _); done || lia.
    - rewrite mem_read_in by (done || lia). done. }
  eexists. split; [apply mem_write_in; rewrite ?mem_len_header_bytes; lia|].
  split; [|done]. unfold update_header. erewrite rd_step by exact Hs1. rewrite get_step.
  erewrite lift_step by (rewrite (Header_DeserializeFrom_shift _ _ _ Hrh); exact Hdec).
  cbv beta iota. erewrite on_data_step; [done|].
  rewrite Header_SerializeTo_spec, mem_write_in; rewrite ?mem_len_header_bytes; done || lia.
Qed.

(** [DeleteRecord] and [UndoDeleteRecord] change the header of one record and
    nothing else of the page. *)
Lemma update_header_repr p a i b f :
  page_repr p a → a_recs a !! i = Some b → RECORD_HEADER_SIZE <= mem_len b →
  ∃ p', update_header (Z.of_nat i) f p = (Ok (), p') ∧ is_dirty_ p' = true ∧
    page_repr p' (mkAPage (a_lsn a) (a_next a) (<[i := with_header f b]> (a_recs a))).
Proof.
  intros Hp Hi Hb. destruct (update_header_write p a i b f Hp Hi Hb) as (d' & Hd & Hu & Hrh & _).
  exists (mkPage d' true). do 2 (split; [done|]).
  pose proof (with_header_len f b Hb) as Hwl.
  pose proof (mem_write_length _ _ _ _ Hd) as Hl'.
  destruct (rec_offset_bounds _ _ _ Hi) as [Hb1 Hb2].
  pose proof (total_nonneg (take i (a_recs a))).
  pose proof (total_insert _ _ _ _ Hi Hwl) as Ht.
  pose proof (mem_len_header_bytes (f (decode_header b))) as Hhl.
  destruct Hp as [Hl Hlsn Hnext Hlow Hup Hf Hs]. unfold a_used in Hf.
  assert (0 <= a_count (a_recs a)) by plia.
  assert (a_count (<[i := with_header f b]> (a_recs a)) = a_count (a_recs a)) as Hc
    by (unfold a_count; by rewrite length_insert).
  assert (∀ o m, o + m <= DB_PAGE_SIZE - total (a_recs a) → get_uint o m d' = get_uint o m (data_ p)) as Hg.
  { intros o m Hom. eapply get_write_other; [exact Hd|]. lia. }
  split; simpl; rewrite ?Ht, ?Hc; try (rewrite Hg; [done|plia]); try done.
  { lia. }
  { unfold a_used. by rewrite Ht, Hc. }
  intros j c Hj. rewrite (rec_offset_insert _ _ _ _ _ Hi Hwl).
  destruct (decide (i = j)) as [<-|Hij].
  - rewrite list_lookup_insert_eq in Hj by (by eapply lookup_lt_Some). injection Hj as <-.
    destruct (Hs _ _ Hi) as (Hs1 & Hs2 & Hs3). pose proof (a_count_lookup _ _ _ Hi).
    rewrite !Hg by plia. rewrite Hwl. do 2 (split; [done|]).
    assert (mem_write (rec_offset (a_recs a) i) (with_header f b) (data_ p) = Ok d') as Hd2.
    { unfold with_header. rewrite mem_write_app, Hd. rs. rewrite Hhl.
      apply (mem_write_read _ (mem_len b - RECORD_HEADER_SIZE)).
      replace (mem_len b) with (RECORD_HEADER_SIZE + (mem_len b - RECORD_HEADER_SIZE)) in Hs3 by lia.
      apply mem_read_app in Hs3 as [_ Hs3]; [|done|lia].
      rewrite (mem_read_write_other _ _ _ _ _ _ Hd); [done|]. rewrite Hhl. lia. }
    by eapply mem_read_write_same.
  - rewrite list_lookup_insert_ne in Hj by done.
    destruct (Hs _ _ Hj) as (Hs1 & Hs2 & Hs3). pose proof (a_count_lookup _ _ _ Hj).
    rewrite !Hg by plia. do 2 (split; [done|]).
    rewrite (mem_read_write_other _ _ _ _ _ _ Hd); [done|]. rewrite Hhl.
    destruct (rec_offset_bounds _ _ _ Hj) as [Hc1 Hc2].
    destruct (decide (j < i)%nat).
    + pose proof (total_take_mono (a_recs a) (S j) i ltac:(lia)). unfold rec_offset in *. lia.
    + pose proof (total_take_mono (a_recs a) (S i) j ltac:(lia)). unfold rec_offset in *. lia.
Qed.

(** Undoing a deletion restores the bytes of the page. *)
Lemma update_header_undo p a i b f g :
  page_repr p a → a_recs a !! i = Some b → RECORD_HEADER_SIZE <= mem_len b →
  header_wf (f (decode_header b)) →
  header_bytes (g (f (decode_header b))) = take (Z.to_nat RECORD_HEADER_SIZE) b →
  ∃ p', update_header (Z.of_nat i) f p = (Ok (), p') ∧
    update_header (Z.of_nat i) g p' = (Ok (), mkPage (data_ p) true).
Proof.
  intros Hp Hi Hb Hwf Hg.
  destruct (update_header_write p a i b f Hp Hi Hb) as (d1 & Hd1 & Hu1 & Hr1 & _).
  destruct (update_header_repr p a i b f Hp Hi Hb) as (p1 & Hu1' & _ & Hp1).
  rewrite Hu1 in Hu1'. injection Hu1' as <-.
  assert (mem_len (with_header f b) = mem_len b) as Hwl by (by apply with_header_len).
  assert (<[i := with_header f b]> (a_recs a) !! i = Some (with_header f b)) as Hi1
    by (apply list_lookup_insert_eq; by eapply lookup_lt_Some).
  destruct (update_header_write _ _ i (with_header f b) g Hp1 Hi1) as (d2 & Hd2 & Hu2 & _); [lia|].
  exists (mkPage d1 true). split; [done|]. rewrite Hu2. do 2 f_equal.
  assert (decode_header (with_header f b) = f (decode_header b)) as Hdec.
  { unfold decode_header at 1. unfold with_header.
    erewrite Header_DeserializeFrom_spec; [done|done|]. by apply mem_read_prefix. }
  rewrite Hdec, Hg in Hd2. simpl in Hd2.
  rewrite (rec_offset_insert _ _ _ _ _ Hi Hwl) in Hd2.
  assert (mem_len (header_bytes (f (decode_header b)))
    = mem_len (take (Z.to_nat RECORD_HEADER_SIZE) b)) as Hhl.
  { apply mem_read_length in Hr1. by rewrite Hr1. }
  rewrite (mem_write_write _ _ _ _ _ Hhl Hd1) in Hd2.
  rewrite (mem_write_read _ RECORD_HEADER_SIZE _ _ Hr1) in Hd2. congruence.
Qed.

(** *** Reading a record *)

(** The record [GetRecord] builds for the stored record [r] at [rid]. *)
Definition read_version (rid : Rid) (r : Rec) : Rec :=
  match mk_Record (norm <$> rvalues_ r) rid with
  | Ok r' => set_header r' (header_ r)
  | Err _ => r
  end.

Lemma GetRecord_repr p a i r rid cl :
  page_repr p a → a_recs a !! i = Some (record_bytes r) → record_wf r →
  schema_ok cl (rvalues_ r) → slot_id_ rid = Z.of_nat i →
  ∃ r', GetRecord rid cl p = (Ok r', p) ∧ rvalues_ r' = norm <$> rvalues_ r ∧
    header_ r' = header_ r ∧ rid_ r' = rid ∧ rsize_ r' = rsize_ r ∧ record_wf r' ∧
    r' = read_version rid r.
Proof.
  intros Hp Hi Hr Hsc Hrid. destruct (pr_slots _ _ Hp _ _ Hi) as (Hs1 & Hs2 & Hs3).
  pose proof Hr as [Hv Hc Hb Hh Hs Hf]. rewrite <- Hs in Hs3.
  assert (record_len (norm <$> rvalues_ r) = record_len (rvalues_ r)) as Hln.
  { unfold record_len. by rewrite length_fmap, values_bytes_norm. }
  assert (mem_len (record_bytes r) = record_len (rvalues_ r)) as Hlen by (by apply record_bytes_len).
  destruct (mk_Record_spec (norm <$> rvalues_ r) rid) as (r2 & Hr2 & Hw2 & Hv2 & Hrid2 & _ & _).
  { by apply norm_storable. }
  { by rewrite length_fmap. }
  { by rewrite Hln, <- Hlen. }
  exists (set_header r2 (header_ r)). split; [|split; [done|]].
  - unfold GetRecord. rewrite Hrid. erewrite rd_step by exact Hs1. rewrite get_step.
    assert (Record_DeserializeFrom Record_default (data_ p) (rec_offset (a_recs a) i) cl
      = Ok (read_back r (mkRid 0 0), rsize_ r)) as Hd by (by apply Record_DeserializeFrom_spec).
    erewrite lift_step by exact Hd. cbv beta iota.
    assert (Header_DeserializeFrom (data_ p) (rec_offset (a_recs a) i)
      = Ok (header_ r, RECORD_HEADER_SIZE)) as Hhd.
    { apply Header_DeserializeFrom_spec; [done|].
      rewrite Hs in Hs3. unfold record_bytes in Hs3. rewrite mem_len_app in Hs3.
      apply mem_read_app in Hs3 as [Hs3 _]; [|done|done].
      by rewrite take_app_length' in Hs3. }
    erewrite lift_step by exact Hhd. cbv beta iota. cbn [GetValues SetRid read_back rvalues_ GetRid rid_].
    erewrite lift_step by exact Hr2. unfold mret, M_ret. do 2 f_equal.
    unfold SetXmin, SetXmax, SetCid, SetDeleted, set_header; simpl. f_equal.
    unfold IsDeleted, GetXmin, GetXmax, GetCid; simpl. by destruct (header_ r).
  - split; [done|]. split; [done|].
    assert (rsize_ (set_header r2 (header_ r)) = rsize_ r) as Hrs.
    { simpl. destruct Hw2 as [_ _ Hb2 _ Hs2' _]. rewrite Hs2', record_bytes_len, Hv2, Hln by done.
      by rewrite Hs. }
    split; [done|]. split; [|unfold read_version; by rewrite Hr2].
    destruct Hw2 as [Hw1 Hw2 Hw3 Hw4 Hw5 Hw6].
    assert (mem_len (record_bytes (set_header r2 (header_ r))) = mem_len (record_bytes r2)) as He.
    { unfold record_bytes. by rewrite !mem_len_app. }
    split; try done; by rewrite He.
Qed.

Lemma record_wf_header_len r : RECORD_HEADER_SIZE <= mem_len (record_bytes r).
Proof.
  unfold record_bytes. rewrite mem_len_app, mem_len_header_bytes.
  pose proof (mem_len_nonneg (bits_ (null_bitmap_ r) ++ values_bytes (rvalues_ r))). lia.
Qed.

Lemma set_header_wf r h : record_wf r → header_wf h → record_wf (set_header r h).
Proof.
  intros [Hv Hc Hb Hh Hs Hf] ?.
  assert (mem_len (record_bytes (set_header r h)) = mem_len (record_bytes r)) as He
    by (unfold record_bytes; by rewrite !mem_len_app).
  by split; rewrite ?He.
Qed.

(** *** The two header fields of the page *)

Lemma page_repr_fields p a d' dirty lsn next :
  page_repr p a → mem_len d' = DB_PAGE_SIZE →
  (∀ o m, lower_ <= o → mem_read o m d' = mem_read o m (data_ p)) →
  get_uint page_lsn_ sizeof_lsn_t d' = Ok lsn →
  get_uint next_page_id_ sizeof_pageid_t d' = Ok next →
  page_repr (mkPage d' dirty) (mkAPage lsn next (a_recs a)).
Proof.
  intros [Hl _ _ Hlow Hup Hf Hs] Hl' Hm Hlsn Hnext.
  assert (∀ o m, lower_ <= o → get_uint o m d' = get_uint o m (data_ p)) as Hg
    by (intros; unfold get_uint; by rewrite Hm).
  split; simpl; try done; try (rewrite Hg by plia; done).
  intros i b Hi. destruct (rec_offset_bounds _ _ _ Hi) as [Hb1 Hb2].
  pose proof (total_nonneg (a_recs a)). pose proof (a_count_lookup _ _ _ Hi).
  assert (lower_ <= rec_offset (a_recs a) i).
  { unfold a_used, PAGE_HEADER_SIZE, sizeof_Slot, lower_, sizeof_lsn_t, sizeof_pageid_t,
      sizeof_db_size_t in *. lia. }
  rewrite !Hg, Hm by (done || plia). by apply Hs.
Qed.

Lemma SetPageLSN_repr p a lsn :
  page_repr p a → 0 <= lsn < 2 ^ 64 →
  ∃ p', SetPageLSN lsn p = (Ok (), p') ∧ is_dirty_ p' = true ∧
    page_repr p' (mkAPage lsn (a_next a) (a_recs a)).
Proof.
  intros Hp Hr. pose proof (pr_len _ _ Hp) as Hl. pose proof (pr_next _ _ Hp).
  destruct (put_uint_step page_lsn_ sizeof_lsn_t lsn (data_ p)) as (d' & Hd & Hl' & Hg); [plia..|].
  exists (mkPage d' true). unfold SetPageLSN. erewrite wr_step by exact Hd.
  do 2 (split; [done|]). apply (page_repr_fields p); try done.
  - by rewrite Hl'.
  - intros o m Ho. by frame.
  - rewrite Hg. f_equal. by apply Z.mod_small.
  - by frame.
Qed.

Lemma SetNextPageId_repr p a next :
  page_repr p a → 0 <= next < 2 ^ 32 →
  ∃ p', SetNextPageId next p = (Ok (), p') ∧ is_dirty_ p' = true ∧
    page_repr p' (mkAPage (a_lsn a) next (a_recs a)).
Proof.
  intros Hp Hr. pose proof (pr_len _ _ Hp) as Hl. pose proof (pr_lsn _ _ Hp).
  destruct (put_uint_step next_page_id_ sizeof_pageid_t next (data_ p))
    as (d' & Hd & Hl' & Hg); [plia..|].
  exists (mkPage d' true). unfold SetNextPageId. erewrite wr_step by exact Hd.
  do 2 (split; [done|]). apply (page_repr_fields p); try done.
  - by rewrite Hl'.
  - intros o m Ho. by frame.
  - by frame.
  - rewrite Hg. f_equal. by apply Z.mod_small.
Qed.

Lemma GetNextPageId_repr p a : page_repr p a → GetNextPageId p = (Ok (a_next a), p).
Proof. intros Hp. unfold GetNextPageId, rd. by rewrite (pr_next _ _ Hp). Qed.
Lemma GetPageLSN_repr p a : page_repr p a → GetPageLSN p = (Ok (a_lsn a), p).
Proof. intros Hp. unfold GetPageLSN, rd. by rewrite (pr_lsn _ _ Hp). Qed.
Lemma GetUpper_repr p a : page_repr p a → GetUpper p = (Ok (DB_PAGE_SIZE - total (a_recs a)), p).
Proof. intros Hp. unfold GetUpper, rd. by rewrite (pr_upper _ _ Hp). Qed.

(** ** Properties *)

(** A record inserted into a page that [GetFreeSpaceSize] says can hold it
    goes to the next slot, is read back by [GetRecord] with its values and
    with the transaction stamped on its header, and the page keeps every other
    record, its successor and its LSN. No access leaves the page. *)
Theorem insert_then_get p a r xid cid free pid cl :
  page_repr p a → record_wf r → schema_ok cl (rvalues_ r) →
  0 <= xid < 2 ^ 32 → 0 <= cid < 2 ^ 32 →
  GetFreeSpaceSize p = (Ok free, p) → GetSize r <= free →
  ∃ p' r' got, InsertRecord r xid cid p = (Ok (a_count (a_recs a), r'), p') ∧
    page_repr p' (mkAPage (a_lsn a) (a_next a) (a_recs a ++ [record_bytes r'])) ∧
    is_dirty_ p' = true ∧
    GetRecord (mkRid pid (a_count (a_recs a))) cl p' = (Ok got, p') ∧
    rvalues_ got = norm <$> rvalues_ r ∧ GetXmin got = xid ∧ GetCid got = cid ∧
    GetXmax got = GetXmax r ∧ IsDeleted got = IsDeleted r.
Proof.
  intros Hp Hr Hsc Hx Hc Hfree Hle. rewrite (GetFreeSpaceSize_spec _ _ Hp) in Hfree.
  injection Hfree as <-. unfold GetSize in Hle.
  pose proof (record_wf_header_len r) as Hh. rewrite <- (rw_size r Hr) in Hh.
  assert (a_used (a_recs a) + sizeof_Slot + rsize_ r <= DB_PAGE_SIZE).
  { unfold RECORD_HEADER_SIZE, sizeof_bool, sizeof_xid_t, sizeof_cid_t in Hh. lia. }
  destruct (InsertRecord_repr p a r xid cid) as (p' & Hi & Hp' & Hd & _); [done..|].
  destruct (GetRecord_repr p' _ (length (a_recs a)) (stamp r xid cid)
    (mkRid pid (a_count (a_recs a))) cl Hp') as (got & Hg & Hv & Hgh & _); simpl; try done.
  - by rewrite lookup_app_r, Nat.sub_diag by lia.
  - by apply stamp_wf.
  - exists p', (stamp r xid cid), got. unfold GetXmin, GetCid, GetXmax, IsDeleted.
    rewrite Hgh. done.
Qed.

(** C36: [RedoInsertRecord] with the bytes, slot and size that [Table] logs for
    an insertion rebuilds, from the page before the insertion, exactly the
    bytes the insertion produced. *)
Theorem redo_rebuilds_insert p a r xid cid off slot r' p' :
  page_repr p a → record_wf r → 0 <= xid < 2 ^ 32 → 0 <= cid < 2 ^ 32 →
  a_used (a_recs a) + sizeof_Slot + GetSize r <= DB_PAGE_SIZE →
  InsertRecord r xid cid p = (Ok (slot, r'), p') →
  RedoInsertRecord slot (record_bytes r') off (GetSize r') p = (Ok (), p').
Proof.
  intros Hp Hr Hx Hc Hf Hi.
  destruct (InsertRecord_repr p a r xid cid) as (p2 & Hi2 & _ & _ & Hredo); [done..|].
  rewrite Hi2 in Hi. injection Hi as <- <- <-. apply Hredo.
Qed.

(** [DeleteRecord] marks the record of its slot deleted by [xid] and
    changes nothing else on the page; the record keeps its values. *)
Theorem delete_marks_record p a i r xid :
  page_repr p a → a_recs a !! i = Some (record_bytes r) → record_wf r → 0 <= xid < 2 ^ 32 →
  ∃ p', DeleteRecord (Z.of_nat i) xid p = (Ok (), p') ∧ is_dirty_ p' = true ∧
    page_repr p' (mkAPage (a_lsn a) (a_next a)
      (<[i := record_bytes (SetXmax (SetDeleted r true) xid)]> (a_recs a))).
Proof.
  intros Hp Hi Hr Hx. unfold DeleteRecord.
  destruct (update_header_repr p a i _
    (λ h, Header_SetXmax (Header_SetDeleted h true) xid) Hp Hi) as (p' & Hu & Hd & Hp').
  - apply record_wf_header_len.
  - exists p'. do 2 (split; [done|]). rewrite with_header_record in Hp' by apply Hr. done.
Qed.

(** On a record that was not deleted, [UndoDeleteRecord] after
    [DeleteRecord] gives back the page byte for byte. *)
Theorem undo_restores_delete p a i r xid :
  page_repr p a → a_recs a !! i = Some (record_bytes r) → record_wf r → 0 <= xid < 2 ^ 32 →
  IsDeleted r = false → GetXmax r = NULL_XID →
  ∃ p', DeleteRecord (Z.of_nat i) xid p = (Ok (), p') ∧
    UndoDeleteRecord (Z.of_nat i) p' = (Ok (), mkPage (data_ p) true).
Proof.
  intros Hp Hi Hr Hx Hdel Hmax. pose proof (rw_header r Hr) as Hh.
  apply (update_header_undo p a i (record_bytes r)); try done.
  - apply record_wf_header_len.
  - rewrite decode_record_bytes by done. destruct Hh as (?&?&?). by split.
  - rewrite decode_record_bytes by done. unfold record_bytes.
    rewrite take_app_length' by done. f_equal.
    unfold IsDeleted, GetXmax in *. destruct (header_ r); simpl in *. by subst.
Qed.

(** *** Concrete pages *)

Definition ex_page : Page := (Init (Page_new (replicate 256 Byte.x2a))).2.
Definition ex_page1 : Page := (InsertRecord ex_record 3 1 ex_page).2.

Lemma ex_page_repr : page_repr ex_page (mkAPage 0 NULL_PAGE_ID []).
Proof.
  destruct (Init_repr (Page_new (replicate 256 Byte.x2a))) as (p' & Hi & Hp & _); [done|].
  unfold ex_page. by rewrite Hi.
Qed.

Lemma ex_page1_repr :
  page_repr ex_page1 (mkAPage 0 NULL_PAGE_ID [record_bytes (stamp ex_record 3 1)]).
Proof.
  destruct (InsertRecord_repr ex_page _ ex_record 3 1 ex_page_repr) as (p' & Hi & Hp & _);
    [apply ex_record_wf|lia|lia|by vm_compute|].
  unfold ex_page1. by rewrite Hi.
Qed.

Lemma ex_stamped_wf : record_wf (stamp ex_record 3 1).
Proof. apply stamp_wf; [apply ex_record_wf|lia|lia]. Qed.

Lemma insert_then_get_witness :
  ∃ p' r' got, InsertRecord ex_record 3 1 ex_page = (Ok (0, r'), p') ∧
    page_repr p' (mkAPage 0 NULL_PAGE_ID [record_bytes r']) ∧
    is_dirty_ p' = true ∧ GetRecord (mkRid 0 0) ex_schema p' = (Ok got, p') ∧
    rvalues_ got = norm <$> ex_values ∧ GetXmin got = 3 ∧ GetCid got = 1 ∧
    GetXmax got = GetXmax ex_record ∧ IsDeleted got = IsDeleted ex_record.
Proof.
  exact (insert_then_get ex_page (mkAPage 0 NULL_PAGE_ID []) ex_record 3 1 236 0 ex_schema
    ex_page_repr (proj1 ex_record_wf) (proj2 ex_record_wf) ltac:(lia) ltac:(lia)
    ltac:(by vm_compute) ltac:(by vm_compute)).
Defined.

Lemma redo_rebuilds_insert_witness :
  RedoInsertRecord 0 (record_bytes (stamp ex_record 3 1)) 99 23 ex_page = (Ok (), ex_page1).
Proof.
  exact (redo_rebuilds_insert ex_page (mkAPage 0 NULL_PAGE_ID []) ex_record 3 1 99 0
    (stamp ex_record 3 1) ex_page1 ex_page_repr (proj1 ex_record_wf) ltac:(lia) ltac:(lia)
    ltac:(by vm_compute) ltac:(by vm_compute)).
Defined.

Lemma delete_marks_record_witness :
  ∃ p', DeleteRecord 0 9 ex_page1 = (Ok (), p') ∧ is_dirty_ p' = true ∧
    page_repr p' (mkAPage 0 NULL_PAGE_ID
      [record_bytes (SetXmax (SetDeleted (stamp ex_record 3 1) true) 9)]).
Proof.
  exact (delete_marks_record ex_page1 (mkAPage 0 NULL_PAGE_ID [record_bytes (stamp ex_record 3 1)])
    0 (stamp ex_record 3 1) 9 ex_page1_repr eq_refl ex_stamped_wf ltac:(lia)).
Defined.

Lemma undo_restores_delete_witness :
  ∃ p', DeleteRecord 0 9 ex_page1 = (Ok (), p') ∧
    UndoDeleteRecord 0 p' = (Ok (), mkPage (data_ ex_page1) true).
Proof.
  exact (undo_restores_delete ex_page1 (mkAPage 0 NULL_PAGE_ID [record_bytes (stamp ex_record 3 1)])
    0 (stamp ex_record 3 1) 9 ex_page1_repr eq_refl ex_stamped_wf ltac:(lia) eq_refl eq_refl).
Defined.
