(* ===== verification/LockManager.v ===== *)
(** [src/src/transaction/lock_manager.h] and [lock_manager.cpp]: multi-granularity
    locks on tables and rows. A request never waits: it answers [true] or
    [false] at once. The table of locks is related to an abstract one, a partial
    function from transactions and resources to lock types. *)
From S2P Require Import Prelude Types.

(** [enum class LockType]; [S] and [X] are written [LS] and [LX]. *)
Inductive LockType := IS | IX | LS | SIX | LX.
#[export] Instance LockType_eq_dec : EqDecision LockType.
Proof. solve_decision. Defined.

Inductive LockGranularity := TABLE | ROW.
#[export] Instance LockGranularity_eq_dec : EqDecision LockGranularity.
Proof. solve_decision. Defined.

Inductive DeadlockType := DL_NONE | WAIT_DIE | WOUND_WAIT | DETECTION.

(** [struct Lock]. The code leaves [rid_] uninitialised in a table lock and
    reads it in row locks only: a table lock has no rid. *)
Record Lock := mkLock {
  lock_granularity_ : LockGranularity;
  lock_type_ : LockType;
  lock_oid_ : Z;
  lock_rid_ : option Rid
}.
Definition set_lock_type (l : Lock) (t : LockType) : Lock :=
  mkLock (lock_granularity_ l) t (lock_oid_ l) (lock_rid_ l).

(** The class. [lock_map] is a [std::map] from transactions to vectors. *)
Record LockManager := mkLockManager {
  deadlock_type_ : DeadlockType;
  lock_map : gmap Z (list Lock)
}.
Definition LockManager_new : LockManager := mkLockManager DL_NONE ∅.
Definition set_lock_map (lm : LockManager) (m : gmap Z (list Lock)) : LockManager :=
  mkLockManager (deadlock_type_ lm) m.

Definition SetDeadLockType (deadlock_type : DeadlockType) : M LockManager unit :=
  modify (λ lm, mkLockManager deadlock_type (lock_map lm)).

Definition Compatible (type_a type_b : LockType) : bool :=
  match type_a with
  | LS => match type_b with LS | IS => true | _ => false end
  | LX => false
  | IS => match type_b with LX => false | _ => true end
  | IX => match type_b with IS | IX => true | _ => false end
  | SIX => match type_b with IS => true | _ => false end
  end.

Definition Upgrade (self other : LockType) : LockType :=
  match self with
  | LS => match other with LX => LX | IX => SIX | _ => LS end
  | LX => LX
  | IS => other
  | IX => match other with LS => SIX | LX | SIX => other | _ => self end
  | SIX => match other with LX => other | _ => self end
  end.

(** [lock_map[xid]]: an absent key is given an empty vector. *)
Definition locks_of (lm : LockManager) (xid : Z) : list Lock := default [] (lock_map lm !! xid).
Definition set_locks (xid : Z) (locks : list Lock) (lm : LockManager) : LockManager :=
  set_lock_map lm (<[xid := locks]> (lock_map lm)).
(** [auto locks = lock_map[xid]]: a copy of the vector. *)
Definition index (xid : Z) : M LockManager (list Lock) := λ lm,
  (Ok (locks_of lm xid), set_locks xid (locks_of lm xid) lm).
(** [lock_map[xid].push_back(lock)] *)
Definition push_lock (xid : Z) (l : Lock) : M LockManager unit :=
  modify (λ lm, set_locks xid (locks_of lm xid ++ [l]) lm).
(** [lock_map[xid][idx].lock_type_ = t] *)
Definition retype (xid : Z) (idx : nat) (t : LockType) : M LockManager unit := λ lm,
  match locks_of lm xid !! idx with
  | Some l => (Ok (), set_locks xid (<[idx := set_lock_type l t]> (locks_of lm xid)) lm)
  | None => (Err (Undefined "vector index out of range"), lm)
  end.

(** The two tests the loops make on a lock. *)
Definition on_table (oid : Z) (l : Lock) : bool :=
  bool_decide (lock_granularity_ l = TABLE) && (oid =? lock_oid_ l).
Definition on_row (oid : Z) (rid : Rid) (l : Lock) : bool :=
  bool_decide (lock_granularity_ l = ROW) && (lock_oid_ l =? oid) &&
  match lock_rid_ l with
  | Some r => (page_id_ r =? page_id_ rid) && (slot_id_ r =? slot_id_ rid)
  | None => false
  end.

(** ** [LockTable] *)

(** The first loop: [now] is [table_lock_type_now], which the code declares
    without a value; [exist_table_lock] is whether it was assigned. *)
Fixpoint upgrade_table (xid oid : Z) (lock_type : LockType) (idx : nat) (table_locks : list Lock)
    (now : option LockType) : M LockManager (option LockType) :=
  match table_locks with
  | [] => mret now
  | it :: rest =>
      if on_table oid it then
        let t := Upgrade (lock_type_ it) lock_type in
        retype xid idx t ;;
        upgrade_table xid oid lock_type (S idx) rest (Some t)
      else upgrade_table xid oid lock_type (S idx) rest now
  end.

(** The last loop: [false] at the first lock of another transaction that is
    not compatible. *)
Definition others_compatible (xid : Z) (ok : Lock → bool) (lm : LockManager) : bool :=
  forallb (λ '(other, all_locks), if negb (other =? xid) then forallb ok all_locks else true)
    (map_to_list (lock_map lm)).

Definition LockTable (xid : Z) (lock_type : LockType) (oid : Z) : M LockManager bool :=
  table_locks ← index xid;
  now ← upgrade_table xid oid lock_type 0 table_locks None;
  table_lock_type_now ← (match now with
    | Some t => mret t
    | None => push_lock xid (mkLock TABLE lock_type oid None) ;; mret lock_type
    end);
  lm ← get;
  mret (others_compatible xid (λ it,
    if on_table oid it then Compatible (lock_type_ it) table_lock_type_now else true) lm).

(** ** [LockRow] *)

(** The intention lock a row lock needs on its table. *)
Definition intention (lock_type : LockType) : LockType :=
  match lock_type with LS => IS | _ => IX end.

Fixpoint upgrade_row (xid oid : Z) (rid : Rid) (lock_type : LockType) (idx : nat)
    (xid_locks : list Lock) (table_now row_now : option LockType)
    : M LockManager (option LockType * option LockType) :=
  match xid_locks with
  | [] => mret (table_now, row_now)
  | it :: rest =>
      if on_table oid it then
        let t := Upgrade (lock_type_ it) (intention lock_type) in
        retype xid idx t ;;
        upgrade_row xid oid rid lock_type (S idx) rest (Some t) row_now
      else if on_row oid rid it then
        let t := Upgrade (lock_type_ it) lock_type in
        retype xid idx t ;;
        upgrade_row xid oid rid lock_type (S idx) rest table_now (Some t)
      else upgrade_row xid oid rid lock_type (S idx) rest table_now row_now
  end.

Definition LockRow (xid : Z) (lock_type : LockType) (oid : Z) (rid : Rid) : M LockManager bool :=
  xid_locks ← index xid;
  '(table_now, row_now) ← upgrade_row xid oid rid lock_type 0 xid_locks None None;
  row_lock_type_now ← (match row_now with
    | Some t => mret t
    | None => push_lock xid (mkLock ROW lock_type oid (Some rid)) ;; mret lock_type
    end);
  table_lock_type_now ← (match table_now with
    | Some t => mret t
    | None => push_lock xid (mkLock TABLE (intention lock_type) oid None) ;;
              mret (intention lock_type)
    end);
  lm ← get;
  mret (others_compatible xid (λ it,
    if on_table oid it then Compatible (lock_type_ it) table_lock_type_now
    else if on_row oid rid it then Compatible (lock_type_ it) row_lock_type_now
    else true) lm).

(** [ReleaseLocks]: the vector of the transaction is emptied. *)
Definition LockManager_ReleaseLocks (xid : Z) : M LockManager unit :=
  all_locks ← index xid;
  if bool_decide (all_locks = []) then mret () else modify (set_locks xid []).

(** ** The abstract lock table *)

(** What a lock is on. *)
Inductive resource := RTable (oid : Z) | RRow (oid : Z) (rid : option Rid).
#[export] Instance resource_eq_dec : EqDecision resource.
Proof. solve_decision. Defined.

Definition resource_of (l : Lock) : resource :=
  match lock_granularity_ l with
  | TABLE => RTable (lock_oid_ l)
  | ROW => RRow (lock_oid_ l) (lock_rid_ l)
  end.

(** The lock a transaction holds on a resource. *)
Definition held (lm : LockManager) (xid : Z) (r : resource) : option LockType :=
  lock_type_ <$> find (λ l, bool_decide (resource_of l = r)) (locks_of lm xid).

(** A transaction has at most one lock per resource. *)
Definition lm_wf (lm : LockManager) : Prop :=
  ∀ xid, NoDup (resource_of <$> locks_of lm xid).

(** No two transactions hold incompatible locks. *)
Definition conflict_free (lm : LockManager) : Prop :=
  ∀ xid1 xid2 r t1 t2, xid1 ≠ xid2 →
    held lm xid1 r = Some t1 → held lm xid2 r = Some t2 → Compatible t1 t2 = true.

(** [covers t u]: a lock of type [t] gives the rights of one of type [u]. *)
Definition covers (t u : LockType) : bool :=
  match t, u with
  | LX, _ => true
  | SIX, (SIX | LS | IX | IS) => true
  | LS, (LS | IS) => true
  | IX, (IX | IS) => true
  | IS, IS => true
  | _, _ => false
  end.

(** What a request makes of the lock held before it. *)
Definition granted (old : option LockType) (t : LockType) : LockType :=
  match old with Some self => Upgrade self t | None => t end.

(** Every row lock is covered by an intention lock on its table. *)
Definition intentions_held (lm : LockManager) : Prop :=
  ∀ xid oid rid t, held lm xid (RRow oid rid) = Some t →
    ∃ u, held lm xid (RTable oid) = Some u ∧ covers u (intention t) = true.

(** ** Lock types *)

Lemma Compatible_sym a b : Compatible a b = Compatible b a.
Proof. by destruct a, b. Qed.

Lemma Upgrade_covers_self a b : covers (Upgrade a b) a = true.
Proof. by destruct a, b. Qed.

Lemma covers_trans a b c : covers a b = true → covers b c = true → covers a c = true.
Proof. by destruct a, b, c. Qed.

Lemma covers_Compatible a b c : covers a b = true → Compatible a c = true → Compatible b c = true.
Proof. by destruct a, b, c. Qed.

Lemma Upgrade_covers_other a b :
  covers (Upgrade a b) b = true ↔ ¬ (a = LS ∧ b = SIX).
Proof. destruct a, b; simpl; naive_solver. Qed.

Lemma covers_intention_Upgrade t u b :
  covers u (intention t) = true → covers (Upgrade u (intention b)) (intention (Upgrade t b)) = true.
Proof. by destruct t, u, b. Qed.

(** ** The vectors of locks *)

Lemma on_table_spec oid l : on_table oid l = bool_decide (resource_of l = RTable oid).
Proof.
  apply eq_true_iff_eq. unfold on_table, resource_of.
  rewrite andb_true_iff, !bool_decide_eq_true, Z.eqb_eq.
  destruct (lock_granularity_ l); naive_solver.
Qed.

Lemma on_row_spec oid rid l : on_row oid rid l = bool_decide (resource_of l = RRow oid (Some rid)).
Proof.
  apply eq_true_iff_eq. unfold on_row, resource_of.
  rewrite !andb_true_iff, !bool_decide_eq_true, Z.eqb_eq.
  destruct (lock_granularity_ l), (lock_rid_ l) as [[p s]|], rid as [p' s']; simpl;
    rewrite ?andb_true_iff, ?Z.eqb_eq; naive_solver.
Qed.

Definition res_is (r : resource) (l : Lock) : bool := bool_decide (resource_of l = r).

Lemma res_is_true r l : resource_of l = r → res_is r l = true.
Proof. intros. by apply bool_decide_eq_true_2. Qed.
Lemma res_is_false r l : resource_of l ≠ r → res_is r l = false.
Proof. intros. by apply bool_decide_eq_false_2. Qed.

Lemma resource_of_retype l t : resource_of (set_lock_type l t) = resource_of l.
Proof. done. Qed.

Lemma locks_of_set xid locks lm xid' :
  locks_of (set_locks xid locks lm) xid' = if decide (xid' = xid) then locks else locks_of lm xid'.
Proof.
  unfold locks_of, set_locks; simpl. case_decide; simplify_eq.
  - by rewrite lookup_insert_eq.
  - by rewrite lookup_insert_ne by done.
Qed.

Lemma set_locks_id lm xid : lock_map lm !! xid = Some (locks_of lm xid) → set_locks xid (locks_of lm xid) lm = lm.
Proof. destruct lm. unfold set_locks, set_lock_map; simpl. intros. f_equal. by apply insert_id. Qed.

Lemma set_locks_twice xid l1 l2 lm : set_locks xid l1 (set_locks xid l2 lm) = set_locks xid l1 lm.
Proof. unfold set_locks, set_lock_map; simpl. by rewrite insert_insert_eq. Qed.

(** The assignments of a loop that retypes the locks [p] accepts, in order. *)
Definition retyped (p : Lock → bool) (f : Lock → LockType) (l : Lock) : Lock :=
  if p l then set_lock_type l (f l) else l.
Definition last_type (p : Lock → bool) (f : Lock → LockType) (now : option LockType)
    (locks : list Lock) : option LockType :=
  foldl (λ now l, if p l then Some (f l) else now) now locks.

Lemma retype_step {B} xid pre l rest t lm (k : unit → M LockManager B) :
  locks_of lm xid = pre ++ l :: rest →
  (retype xid (length pre) t ≫= k) lm = k () (set_locks xid (pre ++ set_lock_type l t :: rest) lm).
Proof.
  intros Hl. unfold mbind, M_bind, retype. rewrite Hl, list_lookup_middle by done.
  by rewrite insert_app_r_alt, Nat.sub_diag by lia.
Qed.

Lemma upgrade_table_run xid oid t locks : ∀ pre now lm,
  lock_map lm !! xid = Some (pre ++ locks) →
  let f l := Upgrade (lock_type_ l) t in
  upgrade_table xid oid t (length pre) locks now lm =
    (Ok (last_type (on_table oid) f now locks),
     set_locks xid (pre ++ (retyped (on_table oid) f <$> locks)) lm).
Proof.
  induction locks as [|l locks IH]; intros pre now lm Hl f.
  { simpl. unfold mret, M_ret. do 2 f_equal. rewrite app_nil_r in *. symmetry.
    assert (locks_of lm xid = pre) as <- by (unfold locks_of; by rewrite Hl).
    apply set_locks_id. unfold locks_of. by rewrite Hl. }
  assert (locks_of lm xid = pre ++ l :: locks) as Hl' by (unfold locks_of; by rewrite Hl).
  simpl. unfold retyped at 1. destruct (on_table oid l).
  - rewrite (retype_step _ _ _ _ _ _ _ Hl').
    replace (S (length pre)) with (length (pre ++ [set_lock_type l (f l)]))
      by (rewrite length_app; simpl; lia).
    rewrite (IH (pre ++ [set_lock_type l (f l)])).
    + by rewrite set_locks_twice, <- app_assoc.
    + simpl. by rewrite lookup_insert_eq, <- app_assoc.
  - replace (S (length pre)) with (length (pre ++ [l])) by (rewrite length_app; simpl; lia).
    rewrite (IH (pre ++ [l])).
    + by rewrite <- app_assoc.
    + by rewrite <- app_assoc.
Qed.

Definition retyped_row (oid : Z) (rid : Rid) (t : LockType) (l : Lock) : Lock :=
  if on_table oid l then set_lock_type l (Upgrade (lock_type_ l) (intention t))
  else if on_row oid rid l then set_lock_type l (Upgrade (lock_type_ l) t) else l.

Lemma upgrade_row_run xid oid rid t locks : ∀ pre tnow rnow lm,
  lock_map lm !! xid = Some (pre ++ locks) →
  upgrade_row xid oid rid t (length pre) locks tnow rnow lm =
    (Ok (last_type (on_table oid) (λ l, Upgrade (lock_type_ l) (intention t)) tnow locks,
         last_type (on_row oid rid) (λ l, Upgrade (lock_type_ l) t) rnow locks),
     set_locks xid (pre ++ (retyped_row oid rid t <$> locks)) lm).
Proof.
  induction locks as [|l locks IH]; intros pre tnow rnow lm Hl.
  { simpl. unfold mret, M_ret. do 2 f_equal. rewrite app_nil_r in *. symmetry.
    assert (locks_of lm xid = pre) as <- by (unfold locks_of; by rewrite Hl).
    apply set_locks_id. unfold locks_of. by rewrite Hl. }
  assert (locks_of lm xid = pre ++ l :: locks) as Hl' by (unfold locks_of; by rewrite Hl).
  assert (∀ l', length (pre ++ [l']) = S (length pre)) as Hlen
    by (intros; rewrite length_app; simpl; lia).
  assert (on_table oid l = true → on_row oid rid l = false) as Hex.
  { rewrite on_table_spec, on_row_spec, bool_decide_eq_true, bool_decide_eq_false. congruence. }
  simpl. unfold retyped_row at 1. destruct (on_table oid l) eqn:Ht.
  - rewrite (Hex eq_refl), (retype_step _ _ _ _ _ _ _ Hl').
    erewrite <- Hlen, IH by (simpl; by rewrite lookup_insert_eq, <- app_assoc).
    by rewrite set_locks_twice, <- app_assoc.
  - destruct (on_row oid rid l).
    + rewrite (retype_step _ _ _ _ _ _ _ Hl').
      erewrite <- Hlen, IH by (simpl; by rewrite lookup_insert_eq, <- app_assoc).
      by rewrite set_locks_twice, <- app_assoc.
    + erewrite <- Hlen, IH by (by rewrite Hl, <- app_assoc). by rewrite <- app_assoc.
Qed.

(** *** What the vectors say about [held] *)

Definition find_lock (r : resource) (locks : list Lock) : option LockType :=
  lock_type_ <$> find (res_is r) locks.

Lemma held_find lm xid r : held lm xid r = find_lock r (locks_of lm xid).
Proof. done. Qed.

Lemma find_lock_cons r l locks :
  find_lock r (l :: locks) = if res_is r l then Some (lock_type_ l) else find_lock r locks.
Proof. unfold find_lock. simpl. by destruct (res_is r l). Qed.

Lemma find_lock_None r locks : find_lock r locks = None ↔ r ∉ (resource_of <$> locks).
Proof.
  unfold find_lock. rewrite fmap_None. induction locks as [|l locks IH]; simpl.
  { split; [set_solver|done]. }
  rewrite not_elem_of_cons, <- IH. unfold res_is. case_bool_decide; naive_solver.
Qed.

Lemma find_lock_Some r locks t :
  NoDup (resource_of <$> locks) →
  find_lock r locks = Some t ↔ ∃ l, l ∈ locks ∧ resource_of l = r ∧ lock_type_ l = t.
Proof.
  induction locks as [|l locks IH]; intros Hnd.
  { split; [done|]. intros (?&?%elem_of_nil&_). done. }
  simpl in Hnd. apply NoDup_cons in Hnd as [Hni Hnd]. specialize (IH Hnd).
  unfold find_lock in *. simpl. unfold res_is at 1. case_bool_decide as Hr.
  - simpl. split.
    + intros [= <-]. exists l. by rewrite elem_of_cons; eauto.
    + intros (l'&[->|Hin]%elem_of_cons&Hr'&<-); [done|]. destruct Hni. rewrite Hr, <- Hr'.
      by apply list_elem_of_fmap_2.
  - rewrite IH. split.
    + intros (l'&?&?&?). exists l'. rewrite elem_of_cons. eauto.
    + intros (l'&[->|Hin]%elem_of_cons&?&?); [done|eauto].
Qed.

Lemma find_lock_app r l1 l2 :
  find_lock r (l1 ++ l2) = match find_lock r l1 with Some t => Some t | None => find_lock r l2 end.
Proof. unfold find_lock. induction l1 as [|l l1 IH]; simpl; [done|]. by destruct (res_is r l). Qed.

Lemma find_lock_fmap r (f : Lock → Lock) (g : LockType → LockType) locks :
  (∀ l, resource_of (f l) = resource_of l) →
  (∀ l, resource_of l = r → lock_type_ (f l) = g (lock_type_ l)) →
  find_lock r (f <$> locks) = g <$> find_lock r locks.
Proof.
  intros Hf Hg. unfold find_lock. induction locks as [|l locks IH]; simpl; [done|].
  unfold res_is in *. rewrite Hf. case_bool_decide; simpl; [by rewrite Hg|done].
Qed.

Lemma last_type_find r p (f : LockType → LockType) locks :
  (∀ l, p l = res_is r l) → NoDup (resource_of <$> locks) →
  last_type p (λ l, f (lock_type_ l)) None locks = f <$> find_lock r locks.
Proof.
  intros Hp. unfold last_type.
  assert (∀ locks now, r ∉ (resource_of <$> locks) →
    foldl (λ now l, if p l then Some (f (lock_type_ l)) else now) now locks = now) as Hno.
  { clear locks. induction locks as [|l locks IH]; intros now Hr; simpl; [done|].
    simpl in Hr. apply not_elem_of_cons in Hr as [? ?]. rewrite Hp. unfold res_is.
    case_bool_decide; [done|]. by apply IH. }
  induction locks as [|l locks IH]; intros Hnd; simpl; [done|].
  simpl in Hnd. apply NoDup_cons in Hnd as [Hni Hnd]. rewrite Hp, find_lock_cons.
  unfold res_is. case_bool_decide as Hr; simpl; [|by apply IH].
  apply Hno. by rewrite <- Hr.
Qed.

(** The final loop of a request. *)
Lemma others_compatible_spec xid ok lm :
  others_compatible xid ok lm = true ↔
  ∀ other l, other ≠ xid → l ∈ locks_of lm other → ok l = true.
Proof.
  unfold others_compatible. rewrite forallb_forall. split.
  - intros H other l Hne Hl. unfold locks_of in Hl.
    destruct (lock_map lm !! other) as [locks|] eqn:Ho; [|by apply elem_of_nil in Hl].
    specialize (H (other, locks) ltac:(by apply list_elem_of_In, elem_of_map_to_list)). simpl in *.
    rewrite (proj2 (Z.eqb_neq other xid) Hne) in H. simpl in H.
    rewrite forallb_forall in H. by apply H, list_elem_of_In.
  - intros H [other locks] Ho%list_elem_of_In%elem_of_map_to_list.
    destruct (Z.eqb_spec other xid); simpl; [done|].
    apply forallb_forall. intros l Hl%list_elem_of_In. apply (H other); [done|].
    unfold locks_of. by rewrite Ho.
Qed.

(** *** The requests *)

Lemma index_run xid lm :
  index xid lm = (Ok (locks_of lm xid), set_locks xid (locks_of lm xid) lm).
Proof. done. Qed.

Lemma locks_of_set_eq xid locks lm : locks_of (set_locks xid locks lm) xid = locks.
Proof. rewrite locks_of_set. by rewrite decide_True. Qed.

(** Pushing a lock unless the loop found one. *)
Lemma ensure_lock_run xid (now : option LockType) (t : LockType) l locks lm :
  (match now with Some t => mret t | None => push_lock xid l ;; mret t end : M LockManager LockType)
    (set_locks xid locks lm) =
  (Ok (default t now), set_locks xid (locks ++ if now then [] else [l]) lm).
Proof.
  destruct now; simpl.
  - by rewrite app_nil_r.
  - unfold push_lock. rewrite modify_step. by rewrite locks_of_set_eq, set_locks_twice.
Qed.

(** The first half of a request, up to the compatibility check: [locks] is the
    transaction's vector before it. *)
Lemma LockTable_run xid t oid lm :
  lm_wf lm →
  let new := granted (held lm xid (RTable oid)) t in
  ∃ locks', let lm' := set_locks xid locks' lm in
    LockTable xid t oid lm = (Ok (others_compatible xid (λ it,
      if on_table oid it then Compatible (lock_type_ it) new else true) lm'), lm') ∧
    NoDup (resource_of <$> locks') ∧
    find_lock (RTable oid) locks' = Some new ∧
    (∀ r, r ≠ RTable oid → find_lock r locks' = held lm xid r).
Proof.
  intros Hwf new. set (locks := locks_of lm xid).
  set (f := retyped (on_table oid) (λ l, Upgrade (lock_type_ l) t)).
  assert (∀ l, resource_of (f l) = resource_of l) as Hf
    by (intros l; unfold f, retyped; by destruct (on_table oid l)).
  assert (resource_of <$> (f <$> locks) = resource_of <$> locks) as Hres
    by (rewrite <- list_fmap_compose; apply list_fmap_ext; intros; apply Hf).
  assert (∀ r, find_lock r (f <$> locks) =
    (if bool_decide (r = RTable oid) then λ self, Upgrade self t else id) <$> find_lock r locks) as Hfind.
  { intros r. apply find_lock_fmap; [done|]. intros l <-. unfold f, retyped.
    rewrite on_table_spec. by case_bool_decide. }
  exists ((f <$> locks) ++ (if (λ self, Upgrade self t) <$> find_lock (RTable oid) locks : option _
    then [] else [mkLock TABLE t oid None])).
  unfold LockTable. rewrite (M_bind_step _ _ _ _ _ (index_run xid lm)).
  rewrite (M_bind_step _ _ _ _ _ (upgrade_table_run xid oid t locks [] None
    (set_locks xid locks lm) (lookup_insert_eq _ _ _))).
  rewrite set_locks_twice, (last_type_find (RTable oid) _ (λ self, Upgrade self t))
    by (exact (on_table_spec oid) || apply Hwf).
  rewrite (M_bind_step _ _ _ _ _ (ensure_lock_run _ _ _ _ _ _)). simpl ([] ++ _). fold f.
  subst new. rewrite !held_find. fold locks. split.
  { by destruct (find_lock (RTable oid) locks). }
  destruct (find_lock (RTable oid) locks) as [old|] eqn:Hold; simpl.
  - rewrite app_nil_r, Hres. split; [apply Hwf|].
    split; [by rewrite Hfind, Hold, bool_decide_eq_true_2|].
    intros r Hr. rewrite Hfind, bool_decide_eq_false_2 by done. apply option_fmap_id.
  - rewrite fmap_app, Hres. split.
    { apply NoDup_app. split; [apply Hwf|]. split; [|apply NoDup_singleton].
      intros r Hr ->%list_elem_of_singleton. by apply find_lock_None in Hold. }
    split.
    + rewrite find_lock_app, Hfind, Hold. simpl. by rewrite find_lock_cons, res_is_true.
    + intros r Hr. rewrite find_lock_app, Hfind, bool_decide_eq_false_2, option_fmap_id, held_find by done.
      fold locks. destruct (find_lock r locks); [done|].
      by rewrite find_lock_cons, res_is_false by (unfold resource_of; simpl; congruence).
Qed.

Lemma LockRow_run xid t oid rid lm :
  lm_wf lm →
  let row := granted (held lm xid (RRow oid (Some rid))) t in
  let table := granted (held lm xid (RTable oid)) (intention t) in
  ∃ locks', let lm' := set_locks xid locks' lm in
    LockRow xid t oid rid lm = (Ok (others_compatible xid (λ it,
      if on_table oid it then Compatible (lock_type_ it) table
      else if on_row oid rid it then Compatible (lock_type_ it) row else true) lm'), lm') ∧
    NoDup (resource_of <$> locks') ∧
    find_lock (RTable oid) locks' = Some table ∧
    find_lock (RRow oid (Some rid)) locks' = Some row ∧
    (∀ r, r ≠ RTable oid → r ≠ RRow oid (Some rid) → find_lock r locks' = held lm xid r).
Proof.
  intros Hwf row table. set (locks := locks_of lm xid). set (f := retyped_row oid rid t).
  assert (∀ l, resource_of (f l) = resource_of l) as Hf
    by (intros l; unfold f, retyped_row; by destruct (on_table oid l), (on_row oid rid l)).
  assert (resource_of <$> (f <$> locks) = resource_of <$> locks) as Hres
    by (rewrite <- list_fmap_compose; apply list_fmap_ext; intros; apply Hf).
  set (up r := if bool_decide (r = RTable oid) then λ self, Upgrade self (intention t)
    else if bool_decide (r = RRow oid (Some rid)) then λ self, Upgrade self t else id).
  assert (∀ r, find_lock r (f <$> locks) = up r <$> find_lock r locks) as Hfind.
  { intros r. apply find_lock_fmap; [done|]. intros l <-. unfold f, retyped_row, up.
    rewrite on_table_spec, on_row_spec. by repeat case_bool_decide. }
  set (row_new := [mkLock ROW t oid (Some rid)]).
  set (table_new := [mkLock TABLE (intention t) oid None]).
  exists (((f <$> locks) ++
    (if (λ self, Upgrade self t) <$> find_lock (RRow oid (Some rid)) locks : option _ then [] else row_new)) ++
    (if (λ self, Upgrade self (intention t)) <$> find_lock (RTable oid) locks : option _
     then [] else table_new)).
  unfold LockRow. rewrite (M_bind_step _ _ _ _ _ (index_run xid lm)).
  rewrite (M_bind_step _ _ _ _ _ (upgrade_row_run xid oid rid t locks [] None None
    (set_locks xid locks lm) (lookup_insert_eq _ _ _))).
  rewrite set_locks_twice, (last_type_find (RTable oid) _ (λ self, Upgrade self (intention t))),
    (last_type_find (RRow oid (Some rid)) _ (λ self, Upgrade self t))
    by (exact (on_table_spec oid) || exact (on_row_spec oid rid) || apply Hwf).
  rewrite !(M_bind_step _ _ _ _ _ (ensure_lock_run _ _ _ _ _ _)). simpl ([] ++ _). fold f.
  subst row table. rewrite !held_find. fold locks row_new table_new. split.
  { by destruct (find_lock (RTable oid) locks), (find_lock (RRow oid (Some rid)) locks). }
  assert (∀ r locks2, find_lock r ((f <$> locks) ++ locks2) =
    match find_lock r locks with Some u => Some (up r u) | None => find_lock r locks2 end) as Happ.
  { intros r locks2. rewrite find_lock_app, Hfind. by destruct (find_lock r locks). }
  assert (up (RTable oid) = λ self, Upgrade self (intention t)) as Hup1
    by (unfold up; by rewrite bool_decide_eq_true_2).
  assert (up (RRow oid (Some rid)) = λ self, Upgrade self t) as Hup2
    by (unfold up; by rewrite bool_decide_eq_false_2, bool_decide_eq_true_2).
  assert (∀ r, r ≠ RTable oid → r ≠ RRow oid (Some rid) → up r = id) as Hup3
    by (intros; unfold up; by rewrite !bool_decide_eq_false_2).
  assert (∀ r l locks2, find_lock r (l :: locks2) =
    if decide (resource_of l = r) then Some (lock_type_ l) else find_lock r locks2) as Hcons.
  { intros. rewrite find_lock_cons. case_decide; [by rewrite res_is_true|by rewrite res_is_false]. }
  rewrite <- !app_assoc. split.
  { rewrite !fmap_app, Hres. apply NoDup_app. split; [apply Hwf|]. split.
    - intros r Hr [Hi|Hi]%elem_of_app.
      + destruct (find_lock (RRow oid (Some rid)) locks) eqn:Hn; simpl in Hi; [by apply elem_of_nil in Hi|].
        apply list_elem_of_singleton in Hi as ->. by apply find_lock_None in Hn.
      + destruct (find_lock (RTable oid) locks) eqn:Hn; simpl in Hi; [by apply elem_of_nil in Hi|].
        apply list_elem_of_singleton in Hi as ->. by apply find_lock_None in Hn.
    - destruct (find_lock (RRow oid (Some rid)) locks), (find_lock (RTable oid) locks); simpl;
        repeat constructor; set_solver. }
  rewrite !Happ, Hup1, Hup2. split; [|split].
  - destruct (find_lock (RTable oid) locks); simpl; [done|].
    destruct (find_lock (RRow oid (Some rid)) locks); unfold row_new, table_new; simpl;
      rewrite !Hcons; simpl; by repeat case_decide.
  - destruct (find_lock (RRow oid (Some rid)) locks); simpl; [done|].
    unfold row_new. simpl. rewrite Hcons. by case_decide.
  - intros r Hr1 Hr2. rewrite Happ, Hup3, held_find by done. fold locks.
    destruct (find_lock r locks); [done|].
    destruct (find_lock (RRow oid (Some rid)) locks), (find_lock (RTable oid) locks);
      unfold row_new, table_new; simpl; rewrite ?Hcons; repeat case_decide; done.
Qed.

(** ** The refinement *)

Lemma held_set xid locks lm xid' r :
  held (set_locks xid locks lm) xid' r =
    if decide (xid' = xid) then find_lock r locks else held lm xid' r.
Proof. rewrite !held_find, locks_of_set. by case_decide. Qed.

Lemma set_locks_wf xid locks lm :
  lm_wf lm → NoDup (resource_of <$> locks) → lm_wf (set_locks xid locks lm).
Proof. intros ?? xid'. rewrite locks_of_set. by case_decide. Qed.

(** The check of a request, on the abstract table; [new] gives the types the
    requester now holds on the resources it asked for. *)
Lemma others_held xid locks lm (ok : Lock → bool) (new : resource → option LockType) :
  lm_wf lm →
  (∀ l, ok l = match new (resource_of l) with Some t => Compatible (lock_type_ l) t | None => true end) →
  others_compatible xid ok (set_locks xid locks lm) = true ↔
  ∀ other r t u, other ≠ xid → new r = Some t → held lm other r = Some u → Compatible u t = true.
Proof.
  intros Hwf Hok. rewrite others_compatible_spec. split.
  - intros H other r t u Hne Hr Hu.
    apply (find_lock_Some r _ u (Hwf other)) in Hu as (l & Hl & <- & <-).
    specialize (H other l Hne). rewrite locks_of_set, decide_False, Hok, Hr in H by done. by apply H.
  - intros H other l Hne. rewrite locks_of_set, decide_False, Hok by done. intros Hl.
    destruct (new (resource_of l)) as [t|] eqn:Hn; [|done].
    eapply H; [done..|]. apply find_lock_Some; [apply Hwf|eauto].
Qed.

Lemma LockTable_abs xid t oid lm :
  lm_wf lm →
  let new := granted (held lm xid (RTable oid)) t in
  ∃ b lm', LockTable xid t oid lm = (Ok b, lm') ∧ lm_wf lm' ∧
    (∀ xid' r, held lm' xid' r =
      if decide (xid' = xid ∧ r = RTable oid) then Some new else held lm xid' r) ∧
    (b = true ↔ ∀ other u, other ≠ xid → held lm other (RTable oid) = Some u → Compatible u new = true).
Proof.
  intros Hwf new. destruct (LockTable_run xid t oid lm Hwf) as (locks' & Hrun & Hnd & Hnew & Hold).
  do 2 eexists. split; [exact Hrun|]. split; [by apply set_locks_wf|]. split.
  - intros xid' r. rewrite held_set.
    destruct (decide (xid' = xid)) as [->|]; [|rewrite decide_False; naive_solver].
    destruct (decide (r = RTable oid)) as [->|]; [by rewrite decide_True|].
    rewrite decide_False by naive_solver. by apply Hold.
  - rewrite (others_held _ _ _ _ (λ r, if decide (r = RTable oid) then Some new else None) Hwf).
    + split; [intros H other u ??; apply (H other (RTable oid)); rewrite ?decide_True by done; done|].
      intros H other r t' u ?. case_decide; [|done]. intros [= <-]. subst r. by apply H.
    + intros l. rewrite on_table_spec. case_bool_decide; by case_decide.
Qed.

Lemma LockRow_abs xid t oid rid lm :
  lm_wf lm →
  let row := granted (held lm xid (RRow oid (Some rid))) t in
  let table := granted (held lm xid (RTable oid)) (intention t) in
  ∃ b lm', LockRow xid t oid rid lm = (Ok b, lm') ∧ lm_wf lm' ∧
    (∀ xid' r, held lm' xid' r =
      if decide (xid' = xid ∧ r = RTable oid) then Some table
      else if decide (xid' = xid ∧ r = RRow oid (Some rid)) then Some row
      else held lm xid' r) ∧
    (b = true ↔ ∀ other u, other ≠ xid →
      (held lm other (RTable oid) = Some u → Compatible u table = true) ∧
      (held lm other (RRow oid (Some rid)) = Some u → Compatible u row = true)).
Proof.
  intros Hwf row table.
  destruct (LockRow_run xid t oid rid lm Hwf) as (locks' & Hrun & Hnd & Htab & Hrow & Hold).
  do 2 eexists. split; [exact Hrun|]. split; [by apply set_locks_wf|]. split.
  - intros xid' r. rewrite held_set.
    destruct (decide (xid' = xid)) as [->|]; [|rewrite !decide_False; naive_solver].
    destruct (decide (r = RTable oid)) as [->|]; [by rewrite decide_True|].
    rewrite decide_False by naive_solver.
    destruct (decide (r = RRow oid (Some rid))) as [->|]; [by rewrite decide_True|].
    rewrite decide_False by naive_solver. by apply Hold.
  - rewrite (others_held _ _ _ _ (λ r, if decide (r = RTable oid) then Some table
      else if decide (r = RRow oid (Some rid)) then Some row else None) Hwf).
    + split.
      * intros H other u ?. split; intros Hu; eapply H; try exact Hu; try done.
        -- by rewrite decide_True.
        -- by rewrite decide_False, decide_True.
      * intros H other r t' u ? Hr Hu. destruct (H other u) as [H1 H2]; [done|].
        repeat case_decide; simplify_eq; [by apply H1|by apply H2].
    + intros l. rewrite on_table_spec, on_row_spec. repeat case_bool_decide; by repeat case_decide.
Qed.

Lemma ReleaseLocks_abs xid lm :
  lm_wf lm →
  ∃ lm', LockManager_ReleaseLocks xid lm = (Ok (), lm') ∧ lm_wf lm' ∧
    ∀ xid' r, held lm' xid' r = if decide (xid' = xid) then None else held lm xid' r.
Proof.
  intros Hwf. unfold LockManager_ReleaseLocks. rewrite (M_bind_step _ _ _ _ _ (index_run xid lm)).
  exists (set_locks xid [] lm). split.
  - case_bool_decide as He; [by rewrite He|]. unfold modify. by rewrite set_locks_twice.
  - split; [apply set_locks_wf; [done|constructor]|]. intros xid' r. by rewrite held_set.
Qed.

(** ** Requests and their histories *)

Inductive lock_op :=
| OpTable (xid : Z) (t : LockType) (oid : Z)
| OpRow (xid : Z) (t : LockType) (oid : Z) (rid : Rid)
| OpRelease (xid : Z).

(** Whether the operation was granted, and the state it leaves. *)
Definition run_op (op : lock_op) : M LockManager bool :=
  match op with
  | OpTable xid t oid => LockTable xid t oid
  | OpRow xid t oid rid => LockRow xid t oid rid
  | OpRelease xid => LockManager_ReleaseLocks xid ;; mret true
  end.

Definition op_xid (op : lock_op) : Z :=
  match op with OpTable xid _ _ | OpRow xid _ _ _ | OpRelease xid => xid end.

(** States reached by operations whose answers were in [allowed]. *)
Inductive reached (allowed : bool → Prop) : LockManager → Prop :=
| reached_new : reached allowed LockManager_new
| reached_op lm op b lm' :
    reached allowed lm → run_op op lm = (Ok b, lm') → allowed b → reached allowed lm'.

(** The effect of any operation, in the form the invariants need: [xid] asks,
    the answer is [b]. *)
Record op_effect (xid : Z) (lm : LockManager) (b : bool) (lm' : LockManager) : Prop := {
  oe_wf : lm_wf lm';
  oe_frame : ∀ xid' r, xid' ≠ xid → held lm' xid' r = held lm xid' r;
  oe_conflict : conflict_free lm → (b = true ↔ conflict_free lm');
  oe_intentions : intentions_held lm → intentions_held lm'
}.

(** When only the locks of [xid] change, the answer [true] to the check of the
    changed resources is the absence of conflicts. *)
Lemma conflict_free_update xid lm lm' (new : resource → option LockType) :
  (∀ xid' r, held lm' xid' r =
    if decide (xid' = xid) then match new r with Some t => Some t | None => held lm xid' r end
    else held lm xid' r) →
  conflict_free lm →
  (conflict_free lm' ↔ ∀ other r t u, other ≠ xid → new r = Some t →
    held lm other r = Some u → Compatible u t = true).
Proof.
  intros Hheld Hcf. split.
  - intros Hcf' other r t u Hne Hn Hu. apply (Hcf' other xid r); [done|..]; rewrite Hheld.
    + by rewrite decide_False.
    + by rewrite decide_True, Hn.
  - intros Hc xid1 xid2 r t1 t2 Hne. rewrite !Hheld.
    destruct (decide (xid1 = xid)) as [->|], (decide (xid2 = xid)) as [->|]; try done.
    + destruct (new r) eqn:Hn; [|by apply Hcf]. intros [= <-] Hu.
      rewrite Compatible_sym. by eapply Hc.
    + destruct (new r) eqn:Hn; [|by apply Hcf]. intros Hu [= <-]. by eapply Hc.
    + by apply Hcf.
Qed.

Lemma LockTable_effect xid t oid lm :
  lm_wf lm → ∃ b lm', LockTable xid t oid lm = (Ok b, lm') ∧ op_effect xid lm b lm'.
Proof.
  intros Hwf. destruct (LockTable_abs xid t oid lm Hwf) as (b & lm' & Hrun & Hwf' & Hheld & Hb).
  exists b, lm'. split; [done|]. split; [done|..].
  - intros. rewrite Hheld, decide_False by naive_solver. done.
  - intros Hcf. rewrite Hb, (conflict_free_update xid lm lm'
      (λ r, if decide (r = RTable oid) then Some (granted (held lm xid (RTable oid)) t) else None));
      [|intros xid' r; rewrite Hheld; by repeat case_decide; naive_solver|done].
    split; [|intros H other u ??; eapply H; [done| |done]; by rewrite decide_True].
    intros H other r t' u ?. case_decide; [|done]. intros [= <-]. subst r. by apply H.
  - intros Hin xid' oid' rid' t'. rewrite Hheld, decide_False by naive_solver.
    intros (u & Hu & Hcov)%Hin. rewrite Hheld. case_decide as Hd; [|eauto].
    destruct Hd as [-> [= ->]]. rewrite Hu. simpl. eexists; split; [done|].
    eapply covers_trans; [apply Upgrade_covers_self|done].
Qed.

Lemma LockRow_effect xid t oid rid lm :
  lm_wf lm → ∃ b lm', LockRow xid t oid rid lm = (Ok b, lm') ∧ op_effect xid lm b lm'.
Proof.
  intros Hwf. destruct (LockRow_abs xid t oid rid lm Hwf) as (b & lm' & Hrun & Hwf' & Hheld & Hb).
  set (table := granted (held lm xid (RTable oid)) (intention t)) in *.
  set (row := granted (held lm xid (RRow oid (Some rid))) t) in *.
  exists b, lm'. split; [done|]. split; [done|..].
  - intros. rewrite Hheld, !decide_False by naive_solver. done.
  - intros Hcf. rewrite Hb, (conflict_free_update xid lm lm'
      (λ r, if decide (r = RTable oid) then Some table
            else if decide (r = RRow oid (Some rid)) then Some row else None));
      [|intros xid' r; rewrite Hheld; by repeat case_decide; naive_solver|done].
    split.
    + intros H other r t' u Hne. destruct (H other u Hne) as [H1 H2].
      repeat case_decide; naive_solver.
    + intros H other u Hne. split; intros Hu; (eapply H; [done| |exact Hu]).
      * by rewrite decide_True.
      * by rewrite decide_False, decide_True.
  - intros Hin xid' oid' rid' t'. rewrite !Hheld, decide_False by naive_solver.
    destruct (decide (xid' = xid ∧ RRow oid' rid' = RRow oid (Some rid))) as [[-> [= -> ->]]|Hr].
    + intros [= <-]. rewrite decide_True by done. eexists; split; [done|]. unfold row, table.
      destruct (held lm xid (RRow oid (Some rid))) as [self|] eqn:Hs; simpl.
      * destruct (Hin _ _ _ _ Hs) as (u & -> & Hcov). simpl. by apply covers_intention_Upgrade.
      * destruct (held lm xid (RTable oid)) as [u|]; simpl; [by destruct u, t|by destruct t].
    + intros (u & Hu & Hcov)%Hin. case_decide as Hd.
      * destruct Hd as [-> [= ->]]. unfold table. rewrite Hu. simpl. eexists; split; [done|].
        eapply covers_trans; [apply Upgrade_covers_self|done].
      * rewrite decide_False by naive_solver. eauto.
Qed.

(** *** Requests that are granted *)

Lemma Upgrade_Compatible u o t :
  Compatible u o = true → Compatible u t = true → Compatible u (Upgrade o t) = true.
Proof. by destruct u, o, t. Qed.

(** The lock table after a granted request of [xid]: no conflicts, and the locks
    of the others as they were. *)
Record granted_to (xid : Z) (lm lm' : LockManager) : Prop := {
  gr_wf : lm_wf lm';
  gr_free : conflict_free lm';
  gr_frame : ∀ other r, other ≠ xid → held lm' other r = held lm other r
}.

(** A request compatible with the locks of the others is granted: what it makes
    of the lock held before is compatible, too. *)
Lemma granted_Compatible xid lm r t other u :
  conflict_free lm → other ≠ xid → held lm other r = Some u → Compatible u t = true →
  Compatible u (granted (held lm xid r) t) = true.
Proof.
  intros Hcf Hne Hu Hc. destruct (held lm xid r) as [o|] eqn:Ho; simpl; [|done].
  apply Upgrade_Compatible; [|done]. by eapply Hcf.
Qed.

Lemma LockTable_granted xid t oid lm : lm_wf lm → conflict_free lm →
  (∀ other u, other ≠ xid → held lm other (RTable oid) = Some u → Compatible u t = true) →
  ∃ lm', LockTable xid t oid lm = (Ok true, lm') ∧ granted_to xid lm lm'.
Proof.
  intros Hwf Hcf Hc. destruct (LockTable_abs xid t oid lm Hwf) as (b & lm' & Hrun & _ & _ & Hb).
  assert (b = true) as -> by (apply Hb; intros; eapply granted_Compatible; eauto).
  destruct (LockTable_effect xid t oid lm Hwf) as (b & lm2 & Hrun2 & [? Hf Hcf2 _]).
  rewrite Hrun in Hrun2. injection Hrun2 as <- <-. exists lm'. split; [done|]. split; [done|by apply Hcf2|done].
Qed.

Lemma LockRow_granted xid t oid rid lm : lm_wf lm → conflict_free lm →
  (∀ other u, other ≠ xid → held lm other (RTable oid) = Some u → Compatible u (intention t) = true) →
  (∀ other u, other ≠ xid → held lm other (RRow oid (Some rid)) = Some u → Compatible u t = true) →
  ∃ lm', LockRow xid t oid rid lm = (Ok true, lm') ∧ granted_to xid lm lm'.
Proof.
  intros Hwf Hcf Ht Hr. destruct (LockRow_abs xid t oid rid lm Hwf) as (b & lm' & Hrun & _ & _ & Hb).
  assert (b = true) as -> by (apply Hb; intros other u Hne; split; intros; eapply granted_Compatible; eauto).
  destruct (LockRow_effect xid t oid rid lm Hwf) as (b & lm2 & Hrun2 & [? Hf Hcf2 _]).
  rewrite Hrun in Hrun2. injection Hrun2 as <- <-. exists lm'. split; [done|]. split; [done|by apply Hcf2|done].
Qed.

Lemma run_op_effect op lm :
  lm_wf lm → ∃ b lm', run_op op lm = (Ok b, lm') ∧ op_effect (op_xid op) lm b lm'.
Proof.
  intros Hwf. destruct op as [xid t oid|xid t oid rid|xid]; simpl;
    [by apply LockTable_effect|by apply LockRow_effect|].
  destruct (ReleaseLocks_abs xid lm Hwf) as (lm' & Hrun & Hwf' & Hheld).
  exists true, lm'. rewrite (M_bind_step _ _ _ _ _ Hrun). split; [done|]. split; [done|..].
  - intros. by rewrite Hheld, decide_False.
  - intros Hcf. split; [|done]. intros _ xid1 xid2 r t1 t2 ?. rewrite !Hheld.
    repeat case_decide; try done. by apply Hcf.
  - intros Hin xid' oid' rid' t'. rewrite !Hheld. case_decide; [done|]. apply Hin.
Qed.

Lemma lm_wf_new : lm_wf LockManager_new.
Proof. intros xid. unfold locks_of. simpl. rewrite lookup_empty. constructor. Qed.
Lemma held_new xid r : held LockManager_new xid r = None.
Proof. unfold held, locks_of. simpl. by rewrite lookup_empty. Qed.

Lemma reached_inv allowed lm :
  reached allowed lm → lm_wf lm ∧ intentions_held lm ∧
    ((∀ b, allowed b → b = true) → conflict_free lm).
Proof.
  induction 1 as [|lm op b lm' _ (Hwf & Hin & Hcf) Hrun Hb].
  - split; [apply lm_wf_new|]. split.
    + intros xid oid rid t. by rewrite held_new.
    + intros _ xid1 xid2 r t1 t2 _. by rewrite held_new.
  - destruct (run_op_effect op lm Hwf) as (b2 & lm2 & Hrun2 & [H1 H2 H3 H4]).
    rewrite Hrun2 in Hrun. injection Hrun as <- <-. split; [done|]. split; [by apply H4|].
    intros Hall. apply H3; [by apply Hcf|by apply Hall].
Qed.

(** ** Properties *)

(** [LockTable] refines the abstract table of locks: the transaction ends
    up with the upgrade of the lock it had on the table (or the one it asked
    for), no other lock changes, and the answer is [true] exactly when every
    other transaction's lock on the table is compatible with the result. *)
Theorem LockTable_refines xid t oid lm :
  lm_wf lm →
  let new := granted (held lm xid (RTable oid)) t in
  ∃ b lm', LockTable xid t oid lm = (Ok b, lm') ∧ lm_wf lm' ∧
    (∀ xid' r, held lm' xid' r =
      if decide (xid' = xid ∧ r = RTable oid) then Some new else held lm xid' r) ∧
    (b = true ↔ ∀ other u, other ≠ xid → held lm other (RTable oid) = Some u → Compatible u new = true).
Proof. apply LockTable_abs. Qed.

(** C27: [LockRow] refines the abstract table: it takes (or upgrades) the row
    lock and the intention lock on the table, changes nothing else, and answers
    [true] exactly when both are compatible with the locks of the others. *)
Theorem LockRow_refines xid t oid rid lm :
  lm_wf lm →
  let row := granted (held lm xid (RRow oid (Some rid))) t in
  let table := granted (held lm xid (RTable oid)) (intention t) in
  ∃ b lm', LockRow xid t oid rid lm = (Ok b, lm') ∧ lm_wf lm' ∧
    (∀ xid' r, held lm' xid' r =
      if decide (xid' = xid ∧ r = RTable oid) then Some table
      else if decide (xid' = xid ∧ r = RRow oid (Some rid)) then Some row
      else held lm xid' r) ∧
    (b = true ↔ ∀ other u, other ≠ xid →
      (held lm other (RTable oid) = Some u → Compatible u table = true) ∧
      (held lm other (RRow oid (Some rid)) = Some u → Compatible u row = true)).
Proof. apply LockRow_abs. Qed.

(** C24: after any history of requests and releases in which every request was
    granted, no two transactions hold incompatible locks on a table or a row,
    and every row lock is covered by an intention lock on its table. *)
Theorem granted_history_safe lm :
  reached (eq true) lm → conflict_free lm ∧ intentions_held lm.
Proof. intros (_ & Hin & Hcf)%reached_inv. split; [|done]. by apply Hcf. Qed.

(** A refused request is not taken back: its lock stays in the table, which
    then holds incompatible locks, until the requester releases its locks. *)
Theorem refused_lock_stays op lm lm' :
  lm_wf lm → conflict_free lm → run_op op lm = (Ok false, lm') →
  ¬ conflict_free lm' ∧
  ∃ lm'', LockManager_ReleaseLocks (op_xid op) lm' = (Ok (), lm'') ∧ conflict_free lm''.
Proof.
  intros Hwf Hcf Hrun. destruct (run_op_effect op lm Hwf) as (b & lm2 & Hrun2 & [H1 H2 H3 _]).
  rewrite Hrun2 in Hrun. injection Hrun as -> ->. split; [by intros ?%H3|].
  destruct (ReleaseLocks_abs (op_xid op) lm' H1) as (lm'' & Hrel & _ & Hheld).
  exists lm''. split; [done|]. intros xid1 xid2 r t1 t2 Hne. rewrite !Hheld.
  repeat case_decide; try done. rewrite !H2 by done. by apply Hcf.
Qed.

(** [Upgrade] never weakens the lock held, and gives at least the lock
    asked for except that a shared lock asked to become [SIX] stays shared. *)
Theorem Upgrade_bound self other :
  covers (Upgrade self other) self = true ∧
  (covers (Upgrade self other) other = true ↔ ¬ (self = LS ∧ other = SIX)) ∧
  (∀ t, covers t self = true → covers t other = true → covers t (Upgrade self other) = true).
Proof.
  split; [apply Upgrade_covers_self|]. split; [apply Upgrade_covers_other|].
  intros t. by destruct self, other, t.
Qed.

(** *** Concrete histories *)

(** Transaction 1 writes a row of table 7, then transaction 2 asks to scan it
    exclusively. *)
Definition ex_lm : LockManager := (LockRow 1 LX 7 (mkRid 0 3) LockManager_new).2.

Lemma ex_lm_reached : reached (eq true) ex_lm.
Proof. by eapply (reached_op _ _ (OpRow 1 LX 7 (mkRid 0 3)) true); [apply reached_new|vm_compute|]. Qed.
Lemma ex_lm_wf : lm_wf ex_lm.
Proof. apply (reached_inv _ _ ex_lm_reached). Qed.
Lemma ex_lm_conflict_free : conflict_free ex_lm.
Proof. apply (reached_inv _ _ ex_lm_reached). by intros b <-. Qed.

Example ex_lm_held : held ex_lm 1 (RTable 7) = Some IX ∧
  held ex_lm 1 (RRow 7 (Some (mkRid 0 3))) = Some LX ∧
  (LockTable 2 LS 7 ex_lm).1 = Ok false ∧ (LockTable 2 IS 7 ex_lm).1 = Ok true.
Proof. by vm_compute. Qed.

Lemma LockTable_refines_witness :
  ∃ b lm', LockTable 1 LS 7 ex_lm = (Ok b, lm') ∧ lm_wf lm' ∧
    (∀ xid' r, held lm' xid' r =
      if decide (xid' = 1 ∧ r = RTable 7) then Some SIX else held ex_lm xid' r) ∧
    (b = true ↔ ∀ other u, other ≠ 1 → held ex_lm other (RTable 7) = Some u → Compatible u SIX = true).
Proof. exact (LockTable_refines 1 LS 7 ex_lm ex_lm_wf). Defined.

Lemma LockRow_refines_witness :
  ∃ b lm', LockRow 2 LS 7 (mkRid 0 3) ex_lm = (Ok b, lm') ∧ lm_wf lm' ∧
    (∀ xid' r, held lm' xid' r =
      if decide (xid' = 2 ∧ r = RTable 7) then Some IS
      else if decide (xid' = 2 ∧ r = RRow 7 (Some (mkRid 0 3))) then Some LS
      else held ex_lm xid' r) ∧
    (b = true ↔ ∀ other u, other ≠ 2 →
      (held ex_lm other (RTable 7) = Some u → Compatible u IS = true) ∧
      (held ex_lm other (RRow 7 (Some (mkRid 0 3))) = Some u → Compatible u LS = true)).
Proof. exact (LockRow_refines 2 LS 7 (mkRid 0 3) ex_lm ex_lm_wf). Defined.

Lemma granted_history_safe_witness : conflict_free ex_lm ∧ intentions_held ex_lm.
Proof. exact (granted_history_safe ex_lm ex_lm_reached). Defined.

Lemma refused_lock_stays_witness :
  ¬ conflict_free (LockTable 2 LS 7 ex_lm).2 ∧
  ∃ lm'', LockManager_ReleaseLocks 2 (LockTable 2 LS 7 ex_lm).2 = (Ok (), lm'') ∧ conflict_free lm''.
Proof.
  exact (refused_lock_stays (OpTable 2 LS 7) ex_lm (LockTable 2 LS 7 ex_lm).2
    ex_lm_wf ex_lm_conflict_free ltac:(by vm_compute)).
Defined.
