(* ===== verification/TransactionManager.v ===== *)
(** [src/src/transaction/transaction_manager.h] and [transaction_manager.cpp]:
    the active transactions, their command counters and their snapshots. A step
    relation over the operations gives the reachable states and the invariants
    that the visibility rules rely on. *)
From S2P Require Import Prelude Types LockManager.

Inductive IsolationLevel := READ_COMMITTED | REPEATABLE_READ | SERIALIZABLE.
#[export] Instance IsolationLevel_eq_dec : EqDecision IsolationLevel.
Proof. solve_decision. Defined.
Definition DEFAULT_ISOLATION_LEVEL : IsolationLevel := READ_COMMITTED.

(** The class. The lock manager it holds a reference to is part of the state. *)
Record TransactionManager := mkTM {
  lock_manager_ : LockManager;
  next_xid_ : Z;
  xid2cid_ : gmap Z Z;
  xid2active_set_ : gmap Z (gset Z)
}.

Definition TransactionManager_new (lock_manager : LockManager) (next_xid : Z) : TransactionManager :=
  mkTM lock_manager next_xid ∅ ∅.

Definition set_next_xid (z : Z) (tm : TransactionManager) : TransactionManager :=
  mkTM (lock_manager_ tm) z (xid2cid_ tm) (xid2active_set_ tm).
Definition set_xid2cid (m : gmap Z Z) (tm : TransactionManager) : TransactionManager :=
  mkTM (lock_manager_ tm) (next_xid_ tm) m (xid2active_set_ tm).
Definition set_xid2active_set (m : gmap Z (gset Z)) (tm : TransactionManager) : TransactionManager :=
  mkTM (lock_manager_ tm) (next_xid_ tm) (xid2cid_ tm) m.
Definition set_lock_manager (lm : LockManager) (tm : TransactionManager) : TransactionManager :=
  mkTM lm (next_xid_ tm) (xid2cid_ tm) (xid2active_set_ tm).
(** A call of the lock manager. *)
Definition on_locks {A} (m : M LockManager A) : M TransactionManager A :=
  zoom lock_manager_ set_lock_manager m.

(** ["xid" + std::to_string(xid) + "not found ..."] *)
Definition xid_message (xid : Z) (rest : string) : exn :=
  DbException ("xid" +:+ pretty xid +:+ rest).

Definition GetCidAndIncrement (xid : Z) : M TransactionManager Z :=
  tm ← get;
  match xid2cid_ tm !! xid with
  | None => throw (xid_message xid "not found in GetCidAndIncrement")
  | Some cid => modify (set_xid2cid (<[xid := u32 (cid + 1)]> (xid2cid_ tm))) ;; mret cid
  end.

Definition GetNextXid : M TransactionManager Z := gets next_xid_.
Definition SetNextXid (next_xid : Z) : M TransactionManager unit :=
  tm ← get;
  if next_xid_ tm <? next_xid then modify (set_next_xid next_xid) else mret ().

Definition Begin : M TransactionManager Z :=
  xid ← gets next_xid_;
  modify (set_next_xid (u32 (xid + 1))) ;;
  active_xids ← gets (λ tm, dom (xid2cid_ tm) : gset Z);
  modify (λ tm, set_xid2active_set (<[xid := active_xids]> (xid2active_set_ tm)) tm) ;;
  modify (λ tm, set_xid2cid (<[xid := FIRST_CID]> (xid2cid_ tm)) tm) ;;
  mret xid.

Definition TransactionManager_ReleaseLocks (xid : Z) : M TransactionManager unit :=
  on_locks (LockManager_ReleaseLocks xid).

Definition Commit (xid : Z) : M TransactionManager unit :=
  tm ← get;
  if bool_decide (xid2cid_ tm !! xid = None)
  then throw (xid_message xid "not found in xid2cid_ in Commit")
  else if bool_decide (xid2active_set_ tm !! xid = None)
  then throw (xid_message xid "not found in xid2active_set_ in Commit")
  else
    TransactionManager_ReleaseLocks xid ;;
    modify (λ tm, set_xid2cid (delete xid (xid2cid_ tm)) tm) ;;
    modify (λ tm, set_xid2active_set (delete xid (xid2active_set_ tm)) tm).

Definition TransactionManager_Rollback (xid : Z) : M TransactionManager unit :=
  tm ← get;
  if bool_decide (xid2cid_ tm !! xid = None)
  then throw (xid_message xid "not found in xid2cid_ in Rollback")
  else if bool_decide (xid2active_set_ tm !! xid = None)
  then throw (xid_message xid "not found in xid2active_set_ in Rollback")
  else
    TransactionManager_ReleaseLocks xid ;;
    modify (λ tm, set_xid2cid (delete xid (xid2cid_ tm)) tm) ;;
    modify (λ tm, set_xid2active_set (delete xid (xid2active_set_ tm)) tm).

Definition GetSnapshot (xid : Z) : M TransactionManager (gset Z) :=
  tm ← get;
  match xid2active_set_ tm !! xid with
  | None => throw (xid_message xid "not found in xid2active_set_ in GetSnapshot")
  | Some s => mret s
  end.

Definition GetActiveTransactions : M TransactionManager (gset Z) :=
  gets (λ tm, dom (xid2cid_ tm)).

(** ** Reachable states *)

(** One call, with the transaction it is about. [tm_begin] stops before the
    counter reaches [NULL_XID]. *)
Inductive tm_step : TransactionManager → TransactionManager → Prop :=
| tm_begin tm xid tm' :
    next_xid_ tm < NULL_XID → Begin tm = (Ok xid, tm') → tm_step tm tm'
| tm_commit tm xid r tm' : Commit xid tm = (r, tm') → tm_step tm tm'
| tm_rollback tm xid r tm' : TransactionManager_Rollback xid tm = (r, tm') → tm_step tm tm'
| tm_cid tm xid r tm' : GetCidAndIncrement xid tm = (r, tm') → tm_step tm tm'
| tm_next tm xid r tm' : xid <= NULL_XID → SetNextXid xid tm = (r, tm') → tm_step tm tm'
| tm_locks tm {A} (m : M LockManager A) r tm' : on_locks m tm = (r, tm') → tm_step tm tm'.

Record tm_wf (tm : TransactionManager) : Prop := {
  tm_dom : (dom (xid2cid_ tm) : gset Z) = dom (xid2active_set_ tm);
  tm_bound : ∀ xid, xid ∈ dom (xid2cid_ tm) → FIRST_XID <= xid < next_xid_ tm;
  tm_next_range : FIRST_XID <= next_xid_ tm <= NULL_XID;
  tm_snapshot : ∀ xid s, xid2active_set_ tm !! xid = Some s → ∀ x, x ∈ s → FIRST_XID <= x < xid;
  (** Of two active transactions the younger has the older in its snapshot. *)
  tm_older : ∀ xid xid' s, xid ∈ dom (xid2cid_ tm) → xid2active_set_ tm !! xid' = Some s →
    xid < xid' → xid ∈ s
}.

Lemma TransactionManager_new_wf lm next :
  FIRST_XID <= next <= NULL_XID → tm_wf (TransactionManager_new lm next).
Proof. intros ?. by split; simpl; intros; rewrite ?dom_empty_L, ?lookup_empty in *; try set_solver.
Qed.

(** What a transaction end leaves. *)
Definition ended (xid : Z) (lm : LockManager) (tm : TransactionManager) : TransactionManager :=
  mkTM lm (next_xid_ tm) (delete xid (xid2cid_ tm)) (delete xid (xid2active_set_ tm)).

Lemma release_run xid lm : ∃ lm', LockManager_ReleaseLocks xid lm = (Ok (), lm') ∧ locks_of lm' xid = [].
Proof.
  unfold LockManager_ReleaseLocks. rewrite (M_bind_step _ _ _ _ _ (index_run xid lm)).
  case_bool_decide as He; eexists; (split; [done|]); by rewrite !locks_of_set_eq.
Qed.

Lemma Commit_run xid tm :
  tm_wf tm → xid ∈ dom (xid2cid_ tm) →
  ∃ lm', Commit xid tm = (Ok (), ended xid lm' tm) ∧ locks_of lm' xid = [].
Proof.
  intros Hwf Hx. destruct (release_run xid (lock_manager_ tm)) as (lm' & Hrel & Hl).
  exists lm'. split; [|done]. unfold Commit. rewrite get_step.
  rewrite !bool_decide_eq_false_2.
  - unfold TransactionManager_ReleaseLocks, on_locks, zoom, mbind, M_bind. by rewrite Hrel.
  - rewrite <- not_elem_of_dom, <- (tm_dom _ Hwf). naive_solver.
  - rewrite <- not_elem_of_dom. naive_solver.
Qed.

Lemma Commit_missing xid tm :
  xid ∉ dom (xid2cid_ tm) →
  Commit xid tm = (Err (xid_message xid "not found in xid2cid_ in Commit"), tm).
Proof.
  intros ?%not_elem_of_dom. unfold Commit. rewrite get_step. by rewrite bool_decide_eq_true_2.
Qed.

Lemma Rollback_Commit xid tm :
  (TransactionManager_Rollback xid tm).2 = (Commit xid tm).2.
Proof.
  unfold TransactionManager_Rollback, Commit. rewrite !get_step. by repeat case_bool_decide.
Qed.

Lemma ended_wf xid lm tm : tm_wf tm → tm_wf (ended xid lm tm).
Proof.
  intros [Hd Hb Hn Hs Ho]. split; simpl; [by rewrite !dom_delete_L, Hd| |done|..].
  - intros x. rewrite dom_delete_L. set_solver.
  - intros x s [_ Hx]%lookup_delete_Some. by apply Hs.
  - intros x x' s Hx [_ Hx']%lookup_delete_Some ?. eapply Ho; [|done..]. set_solver.
Qed.

Lemma Begin_run tm :
  Begin tm = (Ok (next_xid_ tm),
    mkTM (lock_manager_ tm) (u32 (next_xid_ tm + 1)) (<[next_xid_ tm := FIRST_CID]> (xid2cid_ tm))
      (<[next_xid_ tm := dom (xid2cid_ tm)]> (xid2active_set_ tm))).
Proof. done. Qed.

Lemma NULL_XID_val : NULL_XID = 2 ^ 32 - 1.
Proof. done. Qed.

Lemma Begin_wf tm : tm_wf tm → next_xid_ tm < NULL_XID → tm_wf (Begin tm).2.
Proof.
  intros [Hd Hb Hn Hs Ho] Hlt. pose proof NULL_XID_val.
  rewrite Begin_run. unfold FIRST_XID in *.
  split; simpl; rewrite ?dom_insert_L, ?(u32_small (next_xid_ tm + 1)) by lia.
  - by rewrite Hd.
  - intros x [->%elem_of_singleton|Hx%Hb]%elem_of_union; unfold FIRST_XID; lia.
  - unfold FIRST_XID; lia.
  - intros x s [[<- <-]|[? Hx]]%lookup_insert_Some y Hy; [by apply Hb|by eapply Hs].
  - intros x x' s Hx [[<- <-]|[? Hx']]%lookup_insert_Some Hl; [set_solver by lia|].
    assert (x' ∈ dom (xid2cid_ tm)) as Hx2 by (rewrite Hd; by eapply elem_of_dom_2).
    apply elem_of_union in Hx as [->%elem_of_singleton|Hx]; [apply Hb in Hx2; lia|by eapply Ho].
Qed.

Lemma tm_step_wf tm tm' : tm_wf tm → tm_step tm tm' → tm_wf tm'.
Proof.
  intros Hwf Hstep.
  destruct Hstep as [tm xid tm' Hlt Hb|tm xid r tm' Hc|tm xid r tm' Hr|tm xid r tm' Hc
    |tm xid r tm' Hle Hn|tm A m r tm' Hm].
  - replace tm' with (Begin tm).2 by (by rewrite Hb). by apply Begin_wf.
  - replace tm' with (Commit xid tm).2 by (by rewrite Hc).
    destruct (decide (xid ∈ dom (xid2cid_ tm))) as [Hx|Hx].
    + destruct (Commit_run xid tm Hwf Hx) as (lm & -> & _). by apply ended_wf.
    + by rewrite Commit_missing.
  - replace tm' with (TransactionManager_Rollback xid tm).2 by (by rewrite Hr).
    rewrite Rollback_Commit. destruct (decide (xid ∈ dom (xid2cid_ tm))) as [Hx|Hx].
    + destruct (Commit_run xid tm Hwf Hx) as (lm & -> & _). by apply ended_wf.
    + by rewrite Commit_missing.
  - unfold GetCidAndIncrement in Hc. rewrite get_step in Hc.
    destruct (xid2cid_ tm !! xid) as [cid|] eqn:Hx; [|by injection Hc as <- <-].
    injection Hc as <- <-. destruct Hwf as [Hd Hb Hn Hs Ho].
    assert (dom (<[xid := u32 (cid + 1)]> (xid2cid_ tm)) = dom (xid2cid_ tm)) as He.
    { rewrite dom_insert_L. apply elem_of_dom_2 in Hx. set_solver. }
    split; simpl; rewrite ?He; done.
  - unfold SetNextXid in Hn. rewrite get_step in Hn.
    destruct (Z.ltb_spec (next_xid_ tm) xid); injection Hn as <- <-; [|done].
    destruct Hwf as [Hd Hb Hn Hs Ho]. split; simpl; try done.
    + intros x Hx%Hb. lia.
    + lia.
  - unfold on_locks, zoom in Hm. destruct (m (lock_manager_ tm)) as [r' lm].
    injection Hm as <- <-. by destruct Hwf; split.
Qed.

(** The states reached from a manager created with [next_xid]. *)
Inductive tm_reachable : TransactionManager → Prop :=
| tm_init lm next : FIRST_XID <= next <= NULL_XID → tm_reachable (TransactionManager_new lm next)
| tm_trans tm tm' : tm_reachable tm → tm_step tm tm' → tm_reachable tm'.

Lemma tm_reachable_wf tm : tm_reachable tm → tm_wf tm.
Proof.
  induction 1; [by apply TransactionManager_new_wf|by eapply tm_step_wf].
Qed.

(** ** Properties *)

(** In every reachable state [Begin] returns a transaction number that is
    not active and larger than every active one, records the transactions
    active at that moment as its snapshot, starts its command counter at
    [FIRST_CID] and leaves the other transactions alone. *)
Theorem Begin_fresh tm :
  tm_reachable tm → next_xid_ tm < NULL_XID →
  ∃ tm', Begin tm = (Ok (next_xid_ tm), tm') ∧
    (∀ x, x ∈ dom (xid2cid_ tm) → x < next_xid_ tm) ∧
    GetSnapshot (next_xid_ tm) tm' = (Ok (dom (xid2cid_ tm)), tm') ∧
    (GetActiveTransactions tm').1 = Ok ({[next_xid_ tm]} ∪ dom (xid2cid_ tm)) ∧
    (GetCidAndIncrement (next_xid_ tm) tm').1 = Ok FIRST_CID ∧
    (∀ x, x ≠ next_xid_ tm → xid2cid_ tm' !! x = xid2cid_ tm !! x ∧
      xid2active_set_ tm' !! x = xid2active_set_ tm !! x).
Proof.
  intros Hwf%tm_reachable_wf Hlt. eexists. split; [apply Begin_run|]. split; [|split; [|split; [|split]]].
  - intros x Hx%(tm_bound _ Hwf). lia.
  - unfold GetSnapshot. rewrite get_step. simpl. by rewrite lookup_insert_eq.
  - unfold GetActiveTransactions, gets. simpl. by rewrite dom_insert_L.
  - unfold GetCidAndIncrement. rewrite get_step. simpl. by rewrite lookup_insert_eq.
  - intros x Hx. simpl. by rewrite !lookup_insert_ne.
Qed.

(** In every reachable state a transaction's snapshot and the transactions
    concurrent with it fit together: its snapshot holds only older
    transactions, never itself, and every other active transaction is either
    in the snapshot or younger. *)
Theorem snapshot_separates tm xid s :
  tm_reachable tm → GetSnapshot xid tm = (Ok s, tm) →
  (∀ x, x ∈ s → x < xid) ∧
  ∀ active x, GetActiveTransactions tm = (Ok active, tm) → x ∈ active → x ≠ xid → x ∈ s ∨ xid < x.
Proof.
  intros Hwf%tm_reachable_wf Hs. unfold GetSnapshot in Hs. rewrite get_step in Hs.
  destruct (xid2active_set_ tm !! xid) as [s'|] eqn:Hx; [|done]. injection Hs as ->.
  split; [intros x Hin; eapply (tm_snapshot _ Hwf); done|].
  intros active x [= <-] Hin Hne. destruct (decide (xid < x)); [by right|].
  left. eapply (tm_older _ Hwf); [done..|]. lia.
Qed.

(** [Commit] and [Rollback] of an active transaction end it: it is no
    longer active, holds no locks, and a second end throws; other transactions
    keep their counters and snapshots. *)
Theorem end_of_transaction tm xid (fin : M TransactionManager unit) :
  tm_reachable tm → xid ∈ dom (xid2cid_ tm) →
  fin = Commit xid ∨ fin = TransactionManager_Rollback xid →
  ∃ tm', (fin tm).2 = tm' ∧ locks_of (lock_manager_ tm') xid = [] ∧
    (GetActiveTransactions tm').1 = Ok (dom (xid2cid_ tm) ∖ {[xid]}) ∧
    is_ok (fin tm').1 = false ∧ next_xid_ tm' = next_xid_ tm ∧
    (∀ x, x ≠ xid → xid2cid_ tm' !! x = xid2cid_ tm !! x ∧
      xid2active_set_ tm' !! x = xid2active_set_ tm !! x).
Proof.
  intros Hwf%tm_reachable_wf Hx Hfin. destruct (Commit_run xid tm Hwf Hx) as (lm & Hc & Hl).
  exists (ended xid lm tm). split; [|split; [done|split; [|split; [|split; [done|]]]]].
  - destruct Hfin as [-> | ->]; [by rewrite Hc|by rewrite Rollback_Commit, Hc].
  - unfold GetActiveTransactions, gets. simpl. by rewrite dom_delete_L.
  - assert (xid2cid_ (ended xid lm tm) !! xid = None) as Hn by apply lookup_delete_eq.
    destruct Hfin as [-> | ->]; unfold Commit, TransactionManager_Rollback; rewrite get_step;
      by rewrite bool_decide_eq_true_2.
  - intros x Hne. simpl. by rewrite !lookup_delete_ne.
Qed.

(** *** A concrete history *)

(** Transactions 1 and 2 begin, 1 commits, 3 begins. *)
Definition ex_tm2 : TransactionManager := (Begin (Begin (TransactionManager_new LockManager_new 1)).2).2.
Definition ex_tm : TransactionManager := (Begin (Commit 1 ex_tm2).2).2.

Lemma ex_tm2_reachable : tm_reachable ex_tm2.
Proof.
  eapply tm_trans; [eapply tm_trans; [apply (tm_init LockManager_new 1); done|]|].
  - by eapply (tm_begin _ 1).
  - by eapply (tm_begin _ 2).
Qed.
Lemma ex_tm_reachable : tm_reachable ex_tm.
Proof.
  eapply tm_trans; [eapply tm_trans; [apply ex_tm2_reachable|]|].
  - by eapply (tm_commit _ 1).
  - by eapply (tm_begin _ 3).
Qed.

Lemma Begin_fresh_witness :
  ∃ tm', Begin ex_tm2 = (Ok 3, tm') ∧ (∀ x, x ∈ dom (xid2cid_ ex_tm2) → x < 3) ∧
    GetSnapshot 3 tm' = (Ok (dom (xid2cid_ ex_tm2)), tm') ∧
    (GetActiveTransactions tm').1 = Ok ({[3]} ∪ dom (xid2cid_ ex_tm2)) ∧
    (GetCidAndIncrement 3 tm').1 = Ok FIRST_CID ∧
    (∀ x, x ≠ 3 → xid2cid_ tm' !! x = xid2cid_ ex_tm2 !! x ∧
      xid2active_set_ tm' !! x = xid2active_set_ ex_tm2 !! x).
Proof. exact (Begin_fresh ex_tm2 ex_tm2_reachable eq_refl). Defined.

Lemma snapshot_separates_witness :
  (∀ x, x ∈ ({[2]} : gset Z) → x < 3) ∧
  ∀ active x, GetActiveTransactions ex_tm = (Ok active, ex_tm) → x ∈ active → x ≠ 3 →
    x ∈ ({[2]} : gset Z) ∨ 3 < x.
Proof. exact (snapshot_separates ex_tm 3 {[2]} ex_tm_reachable ltac:(by vm_compute)). Defined.

Lemma end_of_transaction_witness :
  ∃ tm', (Commit 2 ex_tm).2 = tm' ∧ locks_of (lock_manager_ tm') 2 = [] ∧
    (GetActiveTransactions tm').1 = Ok (dom (xid2cid_ ex_tm) ∖ {[2]}) ∧
    is_ok (Commit 2 tm').1 = false ∧ next_xid_ tm' = next_xid_ ex_tm ∧
    (∀ x, x ≠ 2 → xid2cid_ tm' !! x = xid2cid_ ex_tm !! x ∧
      xid2active_set_ tm' !! x = xid2active_set_ ex_tm !! x).
Proof.
  exact (end_of_transaction ex_tm 2 (Commit 2) ex_tm_reachable
    (elem_of_dom_2 (xid2cid_ ex_tm) 2 1 eq_refl) (or_introl eq_refl)).
Defined.
