(* ===== verification/StringUtil.v ===== *)
(** [src/src/common/string_util.cpp] and the conversions between numbers and
    decimal text that the program takes from the standard library:
    [std::to_string] ([pretty]), [std::stoi] and [istream >> uint64_t]. *)
From Stdlib Require Import Ascii.
From S2P Require Import Prelude Types.

Definition code (c : Ascii.ascii) : Z := Z.of_N (Ascii.N_of_ascii c).
Definition chr (z : Z) : Ascii.ascii := Ascii.ascii_of_N (Z.to_N z).

(** [isspace], [isdigit], [tolower] and [toupper] of the C locale. *)
Definition isspace (c : Ascii.ascii) : bool :=
  (code c =? 32) || ((9 <=? code c) && (code c <=? 13)).
Definition isdigit (c : Ascii.ascii) : bool := (48 <=? code c) && (code c <=? 57).
Definition tolower (c : Ascii.ascii) : Ascii.ascii :=
  if (65 <=? code c) && (code c <=? 90) then chr (code c + 32) else c.
Definition toupper (c : Ascii.ascii) : Ascii.ascii :=
  if (97 <=? code c) && (code c <=? 122) then chr (code c - 32) else c.

(** ** [StringUtil] *)

Fixpoint RTrim (str : string) : string :=
  match str with
  | EmptyString => ""
  | String c rest =>
      match RTrim rest with
      | EmptyString => if isspace c then "" else String c ""
      | trimmed => String c trimmed
      end
  end.

(** The successive [std::getline] calls: [token] holds the characters read
    since the last delimiter; at the end of the stream an empty token makes the
    call fail. *)
Fixpoint getlines (delim : Ascii.ascii) (token : string) (str : string) : list string :=
  match str with
  | EmptyString => match token with EmptyString => [] | _ => [token] end
  | String c rest =>
      if Ascii.eqb c delim then token :: getlines delim "" rest
      else getlines delim (token +:+ String c "") rest
  end.

Definition Split (str : string) (delim : Ascii.ascii) : list string :=
  RTrim <$> getlines delim "" str.

Fixpoint string_map (f : Ascii.ascii → Ascii.ascii) (str : string) : string :=
  match str with EmptyString => "" | String c rest => String (f c) (string_map f rest) end.
Definition Lower (str : string) : string := string_map tolower str.
Definition Upper (str : string) : string := string_map toupper str.

(** ** Decimal numbers *)

(** The digits at the front of [str], after the value [acc]. *)
Fixpoint read_digits (acc : Z) (str : string) : Z :=
  match str with
  | EmptyString => acc
  | String c rest => if isdigit c then read_digits (acc * 10 + (code c - 48)) rest else acc
  end.

(** Digits behind [acc], how many, and the rest. *)
Fixpoint take_digits (acc n : Z) (str : string) : Z * Z * string :=
  match str with
  | String c rest => if isdigit c then take_digits (acc * 10 + (code c - 48)) (n + 1) rest else (acc, n, str)
  | EmptyString => (acc, n, "")
  end.

Definition starts_digit (str : string) : bool :=
  match str with String c _ => isdigit c | EmptyString => false end.

Fixpoint skip_space (str : string) : string :=
  match str with
  | EmptyString => ""
  | String c rest => if isspace c then skip_space rest else str
  end.

(** The sign and the digits [strtol] accepts. *)
Definition read_sign (str : string) : bool * string :=
  match str with
  | String c rest =>
      if Ascii.eqb c "-"%char then (true, rest) else if Ascii.eqb c "+"%char then (false, rest) else (false, str)
  | EmptyString => (false, "")
  end.

Definition stoi (str : string) : res Z :=
  let '(neg, rest) := read_sign (skip_space str) in
  if starts_digit rest then
    let v := read_digits 0 rest in
    let v := if neg then - v else v in
    if in_i32 v then Ok v else Err (StdException "stoi: out of range")
  else Err (StdException "stoi: invalid argument").

(** [in >> n] for an [uint64_t n]: no digits store 0, an overflow the largest
    value; a minus sign negates in the unsigned type. *)
Definition read_u64 (str : string) : Z :=
  let '(neg, rest) := read_sign (skip_space str) in
  let v := read_digits 0 rest in
  if 2 ^ 64 <=? v then 2 ^ 64 - 1 else if neg then u64 (- v) else v.

(** *** What [pretty] prints *)

Fixpoint all_digits (str : string) : bool :=
  match str with EmptyString => true | String c rest => isdigit c && all_digits rest end.

Lemma pretty_char_digit x : (x < 10)%N →
  isdigit (pretty_N_char x) = true ∧ code (pretty_N_char x) - 48 = Z.of_N x.
Proof.
  intros Hx.
  assert (x = 0 ∨ x = 1 ∨ x = 2 ∨ x = 3 ∨ x = 4 ∨ x = 5 ∨ x = 6 ∨ x = 7 ∨ x = 8 ∨ x = 9)%N
    as Hc by lia.
  by repeat destruct Hc as [->|Hc]; subst.
Qed.

Lemma pretty_N_go_digits x s :
  read_digits 0 (pretty_N_go x s) = read_digits (Z.of_N x) s ∧
  (all_digits s = true → all_digits (pretty_N_go x s) = true) ∧
  ((0 < x)%N ∨ starts_digit s = true → starts_digit (pretty_N_go x s) = true).
Proof.
  revert s. induction (N.lt_wf_0 x) as [x _ IH]; intros s.
  assert (x = 0 ∨ 0 < x)%N as [->|Hx] by lia.
  { rewrite pretty_N_go_0. split; [done|]. split; [done|]. by intros [?|?]. }
  rewrite pretty_N_go_step by done.
  destruct (pretty_char_digit (x `mod` 10)%N) as [Hd Hc]; [by apply N.mod_lt|].
  destruct (IH (x `div` 10)%N ltac:(by apply N.div_lt) (String (pretty_N_char (x `mod` 10)) s))
    as (H1 & H2 & H3).
  split; [|split].
  - rewrite H1. simpl. rewrite Hd, Hc. f_equal. pose proof (N.div_mod x 10). lia.
  - intros Hs. apply H2. simpl. by rewrite Hd.
  - intros _. apply H3. right. exact Hd.
Qed.

Lemma pretty_digits z : 0 <= z →
  read_digits 0 (pretty z) = z ∧ all_digits (pretty z) = true ∧ starts_digit (pretty z) = true.
Proof.
  intros Hz. destruct z as [|p|p]; [done| |lia].
  change (pretty (Zpos p)) with (pretty (Npos p)).
  unfold pretty, pretty_N. destruct (decide _); [done|].
  destruct (pretty_N_go_digits (Npos p) "") as (H1 & H2 & H3).
  split; [by rewrite H1|]. split; [by apply H2|]. apply H3. lia.
Qed.

Lemma isdigit_plain c : isdigit c = true →
  isspace c = false ∧ Ascii.eqb c "-"%char = false ∧ Ascii.eqb c "+"%char = false.
Proof.
  unfold isdigit, isspace. rewrite andb_true_iff, !Z.leb_le. intros [H1 H2]. split.
  - destruct (Z.eqb_spec (code c) 32), (Z.leb_spec 9 (code c)), (Z.leb_spec (code c) 13);
      simpl; (done || lia).
  - split; apply Ascii.eqb_neq; intros ->; by vm_compute in H1.
Qed.

Lemma read_sign_digits s : starts_digit s = true → read_sign (skip_space s) = (false, s).
Proof.
  destruct s as [|c s]; simpl; [done|]. intros (H1 & H2 & H3)%isdigit_plain.
  rewrite H1. simpl. by rewrite H2, H3.
Qed.

Lemma stoi_pretty z : 0 <= z < 2 ^ 31 → stoi (pretty z) = Ok z.
Proof.
  intros Hz. destruct (pretty_digits z) as (H1 & H2 & H3); [lia|].
  unfold stoi. rewrite read_sign_digits, H3, H1 by done.
  unfold in_i32. destruct (Z.leb_spec (- 2 ^ 31) z), (Z.ltb_spec z (2 ^ 31)); simpl; (done || lia).
Qed.

Lemma stoi_pretty_big z : 2 ^ 31 <= z → stoi (pretty z) = Err (StdException "stoi: out of range").
Proof.
  intros Hz. destruct (pretty_digits z) as (H1 & H2 & H3); [lia|].
  unfold stoi. rewrite read_sign_digits, H3, H1 by done.
  unfold in_i32. destruct (Z.leb_spec (- 2 ^ 31) z), (Z.ltb_spec z (2 ^ 31)); simpl; (done || lia).
Qed.

Lemma read_u64_pretty z : 0 <= z < 2 ^ 64 → read_u64 (pretty z) = z.
Proof.
  intros Hz. destruct (pretty_digits z) as (H1 & H2 & H3); [lia|].
  unfold read_u64. rewrite read_sign_digits, H1 by done.
  by destruct (Z.leb_spec (2 ^ 64) z); [lia|].
Qed.

(** *** Splitting what was joined *)

Fixpoint has_char (c : Ascii.ascii) (s : string) : bool :=
  match s with EmptyString => false | String c' s => Ascii.eqb c' c || has_char c s end.

(** The last character is not a space (and the string is not empty). *)
Fixpoint trimmed (s : string) : bool :=
  match s with
  | EmptyString => false
  | String c EmptyString => negb (isspace c)
  | String _ s => trimmed s
  end.

Lemma RTrim_trimmed s : trimmed s = true → RTrim s = s.
Proof.
  induction s as [|c s IH]; simpl; [done|]. destruct s as [|c' s].
  - simpl. by destruct (isspace c).
  - intros H. rewrite IH by done. done.
Qed.

Lemma all_digits_trimmed s : all_digits s = true → s ≠ "" → trimmed s = true.
Proof.
  induction s as [|c s IH]; simpl; [done|]. rewrite andb_true_iff. intros [Hc Hs] _.
  destruct s; [by destruct (isdigit_plain c Hc) as [-> _]|by apply IH].
Qed.

Lemma all_digits_no_char c s : isdigit c = false → all_digits s = true → has_char c s = false.
Proof.
  intros Hc. induction s as [|c' s IH]; simpl; [done|]. rewrite andb_true_iff. intros [Hc' Hs].
  rewrite IH by done. rewrite orb_false_r. apply Ascii.eqb_neq. congruence.
Qed.

Lemma string_app_cons x (a b : string) : String x a +:+ b = String x (a +:+ b).
Proof. done. Qed.

Lemma string_app_assoc (a b c : string) : (a +:+ b) +:+ c = a +:+ (b +:+ c).
Proof. induction a as [|x a IH]; [done|]. by rewrite !string_app_cons, IH. Qed.

Lemma string_app_nil (a : string) : a +:+ "" = a.
Proof. induction a as [|x a IH]; [done|]. by rewrite string_app_cons, IH. Qed.

(** Reading a token up to the delimiter. *)
Lemma getlines_token delim token s rest :
  has_char delim s = false →
  getlines delim token (s +:+ String delim rest) = (token +:+ s) :: getlines delim "" rest.
Proof.
  revert token. induction s as [|c s IH]; intros token Hs; simpl in *.
  - by rewrite Ascii.eqb_refl, string_app_nil.
  - apply orb_false_iff in Hs as [Hc Hs]. rewrite Hc, IH by done. by rewrite string_app_assoc.
Qed.

Lemma getlines_last delim token s :
  has_char delim s = false → token +:+ s ≠ "" → getlines delim token s = [token +:+ s].
Proof.
  revert token. induction s as [|c s IH]; intros token Hs Hne; simpl in *.
  - rewrite string_app_nil in *. by destruct token.
  - apply orb_false_iff in Hs as [Hc Hs].
    rewrite Hc, IH by (rewrite ?string_app_assoc; done). by rewrite string_app_assoc.
Qed.

Lemma Split_cons delim s rest :
  has_char delim s = false → trimmed s = true →
  Split (s +:+ String delim rest) delim = s :: Split rest delim.
Proof.
  intros Hs Ht. unfold Split. rewrite getlines_token by done. simpl. by rewrite RTrim_trimmed.
Qed.

Lemma Split_last delim s :
  has_char delim s = false → trimmed s = true → Split s delim = [s].
Proof.
  intros Hs Ht. unfold Split. rewrite getlines_last; simpl; [|done|by destruct s].
  by rewrite RTrim_trimmed.
Qed.

Lemma pretty_token z delim : 0 <= z → isdigit delim = false →
  has_char delim (pretty z) = false ∧ trimmed (pretty z) = true.
Proof.
  intros Hz Hd. destruct (pretty_digits z Hz) as (_ & H2 & H3). split.
  - by apply all_digits_no_char.
  - apply all_digits_trimmed; [done|]. by intros He; rewrite He in H3.
Qed.
