(* ===== verification/Disk.v ===== *)
(** [src/src/storage/disk.h] and [disk.cpp]: page files and the log file.

    The file system is a map from paths to inodes and from inodes to contents,
    because an open [fstream] keeps its inode when the path is removed. A
    stream is its inode and its fail bit, which is sticky: a read past the end
    of the file sets it and no operation of the class clears it. *)
From S2P Require Import Prelude Memory Types StringUtil.

Record Fs := mkFs { fs_names : gmap string nat; fs_data : gmap nat bytes; fs_next : nat }.
Definition Fs_empty : Fs := mkFs ∅ ∅ 0.

(** An [fstream] opened for reading and writing. *)
Record fstream := mkStream { st_inode : option nat; st_fail : bool }.

Record Disk := mkDisk {
  fs_ : Fs;
  hashmap_ : gmap string fstream;
  log_fs_ : fstream;
  access_count_ : Z;
  log_segments : Z
}.

Definition set_fs (fs : Fs) (d : Disk) : Disk :=
  mkDisk fs (hashmap_ d) (log_fs_ d) (access_count_ d) (log_segments d).
Definition set_hashmap (m : gmap string fstream) (d : Disk) : Disk :=
  mkDisk (fs_ d) m (log_fs_ d) (access_count_ d) (log_segments d).
Definition set_log_fs (s : fstream) (d : Disk) : Disk :=
  mkDisk (fs_ d) (hashmap_ d) s (access_count_ d) (log_segments d).
Definition set_access_count (n : Z) (d : Disk) : Disk :=
  mkDisk (fs_ d) (hashmap_ d) (log_fs_ d) n (log_segments d).
Definition set_log_segments (n : Z) (d : Disk) : Disk :=
  mkDisk (fs_ d) (hashmap_ d) (log_fs_ d) (access_count_ d) n.

(** ** The file system *)

Definition inode_data (fs : Fs) (i : nat) : bytes := default [] (fs_data fs !! i).
Definition set_inode (i : nat) (b : bytes) (fs : Fs) : Fs :=
  mkFs (fs_names fs) (<[i := b]> (fs_data fs)) (fs_next fs).
Definition file_data (fs : Fs) (path : string) : option bytes :=
  inode_data fs <$> fs_names fs !! path.

Definition FileExists (fs : Fs) (path : string) : bool := bool_decide (is_Some (fs_names fs !! path)).
Definition EmptyFile (fs : Fs) (path : string) : res bool :=
  match file_data fs path with
  | None => Err (DbException ("file " +:+ path +:+ " does not exist"))
  | Some b => Ok (bool_decide (b = []))
  end.
(** [std::ofstream ofs(path)] truncates the file or creates it; [contents] is
    what is then written to it. *)
Definition WriteFile (path : string) (contents : bytes) (fs : Fs) : Fs :=
  match fs_names fs !! path with
  | Some i => set_inode i contents fs
  | None => mkFs (<[path := fs_next fs]> (fs_names fs)) (<[fs_next fs := contents]> (fs_data fs))
                 (S (fs_next fs))
  end.
Definition CreateFile (path : string) (fs : Fs) : Fs := WriteFile path [] fs.
Definition RemoveFile (path : string) (fs : Fs) : Fs :=
  mkFs (delete path (fs_names fs)) (fs_data fs) (fs_next fs).

(** [std::filesystem::resize_file] *)
Definition resize (n : nat) (b : bytes) : bytes := list.resize n Byte.x00 b.
Definition resize_file (path : string) (n : Z) (fs : Fs) : Fs :=
  match fs_names fs !! path with
  | Some i => set_inode i (resize (Z.to_nat n) (inode_data fs i)) fs
  | None => fs
  end.

(** [write] at position [off] of a file: a gap is filled with zeros. *)
Definition file_write (off : nat) (src b : bytes) : bytes :=
  resize off b ++ src ++ drop (off + length src) b.
(** [read] of [count] bytes at [off]: the bytes obtained. *)
Definition file_read (off count : nat) (b : bytes) : bytes := take count (drop off b).

Definition stream_data (fs : Fs) (s : fstream) : bytes :=
  match st_inode s with Some i => inode_data fs i | None => [] end.
Definition stream_write (s : fstream) (off : Z) (src : bytes) (fs : Fs) : Fs :=
  match st_inode s with
  | Some i => set_inode i (file_write (Z.to_nat off) src (inode_data fs i)) fs
  | None => fs
  end.

(** ** [Disk] *)

(** The part of the constructor that opens the log, in the data directory. *)
Definition Disk_new (fs : Fs) : res Disk :=
  let mk fs segments :=
    Ok (mkDisk fs ∅ (mkStream (fs_names fs !! LOG_NAME) false) 0 segments) in
  match file_data fs LOG_NAME with
  | None => mk (resize_file LOG_NAME LOG_SEGMENT_SIZE (CreateFile LOG_NAME fs)) 1
  | Some b =>
      let log_file_size := mem_len b in
      if (log_file_size / LOG_SEGMENT_SIZE =? 0) || negb (log_file_size mod LOG_SEGMENT_SIZE =? 0)
      then Err (DbException "log file size is not a multiple of segment size")
      else mk fs (u32 (log_file_size / LOG_SEGMENT_SIZE))
  end.

(** A failed open leaves its stream in the map. *)
Definition OpenFile (path : string) : M Disk unit :=
  d ← get;
  let i := fs_names (fs_ d) !! path in
  let s := mkStream i (bool_decide (i = None)) in
  modify (set_hashmap (<[path := s]> (hashmap_ d))) ;;
  if st_fail s then throw (DbException ("file " +:+ path +:+ " does not exist")) else mret ().

Definition CloseFile (path : string) : M Disk unit :=
  modify (λ d, set_hashmap (delete path (hashmap_ d)) d).

Definition GetFilePath (db_oid table_oid : Z) : string :=
  pretty db_oid +:+ "/" +:+ pretty table_oid.

(** [oids[0]] and [oids[1]]; [std::stoi] gives an [int] that becomes [oid_t]. *)
Definition GetOid (path : string) : res (Z * Z) :=
  let oids := Split path (Ascii.ascii_of_nat 47) in
  match oids with
  | o0 :: o1 :: _ => db ← stoi o0; table ← stoi o1; Ok (u32 db, u32 table)
  | _ => Err (Undefined "vector index out of range")
  end.

Definition count_access (path : string) : M Disk unit :=
  oids ← lift (GetOid path);
  if oids.1 =? SYSTEM_DATABASE_OID then mret ()
  else modify (λ d, set_access_count (u32 (access_count_ d + 1)) d).

(** [hashmap_.count(path) == 0] and the access to the stream. *)
Definition open_stream (path : string) : M Disk fstream :=
  d ← get;
  (if bool_decide (hashmap_ d !! path = None) then OpenFile path else mret ()) ;;
  d ← get;
  mret (default (mkStream None false) (hashmap_ d !! path)).

Definition short_read (path : string) (page_id gcount : Z) : exn :=
  DbException (path +:+ " read page " +:+ pretty page_id +:+ " failed: read " +:+ pretty gcount +:+
               " bytes, expected " +:+ pretty DB_PAGE_SIZE +:+ " bytes").

(** The bytes read into [data]. *)
Definition ReadPage (path : string) (page_id : Z) : M Disk bytes :=
  count_access path ;;
  fs ← open_stream path;
  if st_fail fs then throw (DbException "fstream failed in Disk::ReadPage")
  else
    d ← get;
    let data := file_read (Z.to_nat (u64 (page_id * DB_PAGE_SIZE))) (Z.to_nat DB_PAGE_SIZE)
                  (stream_data (fs_ d) fs) in
    if mem_len data =? DB_PAGE_SIZE then mret data
    else
      modify (set_hashmap (<[path := mkStream (st_inode fs) true]> (hashmap_ d))) ;;
      throw (short_read path page_id (mem_len data)).

Definition WritePage (path : string) (page_id : Z) (data : bytes) : M Disk unit :=
  d ← get;
  if negb (FileExists (fs_ d) path) then mret ()
  else
    (if bool_decide (hashmap_ d !! path = None) then OpenFile path else mret ()) ;;
    count_access path ;;
    fs ← open_stream path;
    if st_fail fs then throw (DbException "fstream failed in Disk::WritePage")
    else
      src ← lift (mem_read 0 DB_PAGE_SIZE data);
      modify (λ d, set_fs (stream_write fs (u64 (page_id * DB_PAGE_SIZE)) src (fs_ d)) d).

(** The arguments are converted to [uint32_t] at the call. *)
Definition ReadLog (offset count : Z) : M Disk bytes :=
  let offset := u32 offset in
  let count := u32 count in
  d ← get;
  if st_fail (log_fs_ d) then throw (DbException "fstream failed in Disk::ReadLog")
  else
    let data := file_read (Z.to_nat offset) (Z.to_nat count) (stream_data (fs_ d) (log_fs_ d)) in
    if mem_len data =? count then mret data
    else
      modify (set_log_fs (mkStream (st_inode (log_fs_ d)) true)) ;;
      throw (DbException ("read log failed (offset: " +:+ pretty offset +:+ ", count: " +:+
        pretty count +:+ ", read: " +:+ pretty (mem_len data) +:+ ")")).

(** [offset + count] wraps in 32 bits; one segment is added whatever the
    distance. *)
Definition WriteLog (offset count : Z) (data : bytes) : M Disk unit :=
  let offset := u32 offset in
  let count := u32 count in
  d ← get;
  if st_fail (log_fs_ d) then throw (DbException "fstream failed in Disk::WriteLog")
  else
    (if u64 (log_segments d * LOG_SEGMENT_SIZE) <? u32 (offset + count) then
       let segments := u32 (log_segments d + 1) in
       modify (set_log_segments segments) ;;
       modify (λ d, set_fs (resize_file LOG_NAME (u64 (segments * LOG_SEGMENT_SIZE)) (fs_ d)) d)
     else mret ()) ;;
    src ← lift (mem_read 0 count data);
    modify (λ d, set_fs (stream_write (log_fs_ d) offset src (fs_ d)) d).

Definition GetAccessCount : M Disk Z := gets access_count_.

(** Small text files: [std::ofstream out(path); out << n] and
    [std::ifstream in(path); in >> n]. *)
Definition write_number (path : string) (n : Z) : M Disk unit :=
  modify (λ d, set_fs (WriteFile path (String.list_byte_of_string (pretty n)) (fs_ d)) d).
Definition read_number (path : string) : M Disk Z :=
  gets (λ d, read_u64 (String.string_of_list_byte (default [] (file_data (fs_ d) path)))).

(** ** Contents *)

Lemma length_file_write off src b :
  length (file_write off src b) = Nat.max (length b) (off + length src).
Proof. unfold file_write, resize. rewrite !length_app, length_resize, length_drop. lia. Qed.

Lemma file_write_lookup off src b i :
  (i < length b)%nat ∨ (off ≤ i < off + length src)%nat →
  file_write off src b !! i =
    if decide (off ≤ i < off + length src)%nat then src !! (i - off)%nat else b !! i.
Proof.
  intros Hi. unfold file_write, resize. case_decide.
  - rewrite lookup_app_r; rewrite length_resize; [|lia]. by rewrite lookup_app_l by lia.
  - destruct Hi as [Hi|?]; [|lia]. destruct (decide (i < off)%nat).
    + rewrite lookup_app_l by (rewrite length_resize; lia). by apply lookup_resize.
    + rewrite !lookup_app_r; rewrite ?length_resize; try lia.
      rewrite lookup_drop. f_equal. lia.
Qed.

Lemma file_read_full off n b : length (file_read off n b) = n ↔ n = 0%nat ∨ (off + n ≤ length b)%nat.
Proof. unfold file_read. rewrite length_take, length_drop. lia. Qed.

Lemma file_read_lookup off n b i :
  file_read off n b !! i = if decide (i < n)%nat then b !! (off + i)%nat else None.
Proof. apply lookup_slice. Qed.

Lemma file_read_write_same off src b : file_read off (length src) (file_write off src b) = src.
Proof.
  apply list_eq; intros i. rewrite file_read_lookup. case_decide.
  - rewrite file_write_lookup by lia. rewrite decide_True by lia. f_equal. lia.
  - symmetry. by apply lookup_ge_None; lia.
Qed.

Lemma file_read_write_other off src b o n :
  (o + n ≤ length b)%nat → (o + n ≤ off ∨ off + length src ≤ o)%nat →
  file_read o n (file_write off src b) = file_read o n b.
Proof.
  intros Hn Hd. apply list_eq; intros i. rewrite !file_read_lookup. case_decide; [|done].
  rewrite file_write_lookup by lia. by rewrite decide_False by lia.
Qed.

(** Page [page_id] of the file at [path], when the file holds it entirely. *)
Definition page_at (d : Disk) (path : string) (page_id : Z) : option bytes :=
  b ← file_data (fs_ d) path;
  let p := file_read (Z.to_nat (page_id * DB_PAGE_SIZE)) (Z.to_nat DB_PAGE_SIZE) b in
  if bool_decide (length p = Z.to_nat DB_PAGE_SIZE) then Some p else None.

(** The contents of the log. *)
Definition log_data (d : Disk) : bytes := stream_data (fs_ d) (log_fs_ d).

(** Paths have their own inodes; every open stream is good and is the file its
    path names. *)
Record disk_ok (d : Disk) : Prop := {
  dk_inj : ∀ p1 p2 i, fs_names (fs_ d) !! p1 = Some i → fs_names (fs_ d) !! p2 = Some i → p1 = p2;
  dk_bound : ∀ p i, fs_names (fs_ d) !! p = Some i → (i < fs_next (fs_ d))%nat;
  dk_streams : ∀ p s, hashmap_ d !! p = Some s →
    st_fail s = false ∧ ∃ i, st_inode s = Some i ∧ fs_names (fs_ d) !! p = Some i;
  dk_log : st_fail (log_fs_ d) = false ∧
    ∃ i, st_inode (log_fs_ d) = Some i ∧ fs_names (fs_ d) !! LOG_NAME = Some i
}.

(** What page reads and writes may change beside pages. *)
Definition same_log (d d' : Disk) : Prop :=
  log_fs_ d' = log_fs_ d ∧ log_segments d' = log_segments d ∧ log_data d' = log_data d.

Lemma GetOid_GetFilePath db table :
  0 <= db < 2 ^ 31 → 0 <= table < 2 ^ 31 → GetOid (GetFilePath db table) = Ok (db, table).
Proof.
  intros Hd Ht. unfold GetOid, GetFilePath.
  destruct (pretty_token db (Ascii.ascii_of_nat 47)) as [H1 H2]; [lia|done|].
  destruct (pretty_token table (Ascii.ascii_of_nat 47)) as [H3 H4]; [lia|done|].
  change ("/" +:+ pretty table) with (String (Ascii.ascii_of_nat 47) (pretty table)).
  rewrite Split_cons, Split_last by done. rewrite !stoi_pretty by done. rs.
  by rewrite !u32_small by lia.
Qed.

Lemma GetFilePath_inj db1 t1 db2 t2 :
  0 <= db1 < 2 ^ 31 → 0 <= t1 < 2 ^ 31 → 0 <= db2 < 2 ^ 31 → 0 <= t2 < 2 ^ 31 →
  GetFilePath db1 t1 = GetFilePath db2 t2 → db1 = db2 ∧ t1 = t2.
Proof.
  intros ???? Heq. assert (Ok (db1, t1) = Ok (db2, t2)) as [=]; [|done].
  rewrite <- !GetOid_GetFilePath by done. by rewrite Heq.
Qed.

Lemma GetFilePath_has_slash db t : has_char (Ascii.ascii_of_nat 47) (GetFilePath db t) = true.
Proof.
  unfold GetFilePath. induction (pretty db) as [|c s IH]; [done|].
  rewrite string_app_cons. cbn [has_char]. by rewrite IH, orb_true_r.
Qed.

Lemma GetFilePath_not_log db t : GetFilePath db t ≠ LOG_NAME.
Proof. intros He. pose proof (GetFilePath_has_slash db t) as H. by rewrite He in H. Qed.

Lemma count_access_run db table d :
  0 <= db < 2 ^ 31 → 0 <= table < 2 ^ 31 →
  count_access (GetFilePath db table) d =
    (Ok (), set_access_count (if db =? SYSTEM_DATABASE_OID then access_count_ d
                              else u32 (access_count_ d + 1)) d).
Proof.
  intros. unfold count_access. erewrite lift_step by (by apply GetOid_GetFilePath). simpl.
  destruct (db =? SYSTEM_DATABASE_OID); [|done]. by destruct d.
Qed.

Lemma OpenFile_run path i d :
  fs_names (fs_ d) !! path = Some i →
  OpenFile path d = (Ok (), set_hashmap (<[path := mkStream (Some i) false]> (hashmap_ d)) d).
Proof. intros Hi. unfold OpenFile. by rewrite get_step, Hi. Qed.

(** Getting the stream of a file that exists. *)
Lemma open_stream_run path i d :
  disk_ok d → fs_names (fs_ d) !! path = Some i →
  ∃ d', open_stream path d = (Ok (mkStream (Some i) false), d') ∧ disk_ok d' ∧
    hashmap_ d' !! path = Some (mkStream (Some i) false) ∧
    fs_ d' = fs_ d ∧ log_fs_ d' = log_fs_ d ∧ log_segments d' = log_segments d ∧
    access_count_ d' = access_count_ d.
Proof.
  intros [H1 H2 H3 H4] Hi. unfold open_stream. rewrite get_step.
  destruct (hashmap_ d !! path) as [s|] eqn:Hs.
  - rewrite bool_decide_eq_false_2 by done. exists d.
    destruct (H3 _ _ Hs) as (Hf & j & Hj & Hn). rewrite Hi in Hn. injection Hn as <-.
    destruct s as [j f]; simpl in *; subst. split; [|by split].
    unfold mbind, M_bind, mret, M_ret, get. by rewrite Hs.
  - rewrite bool_decide_eq_true_2, (M_bind_step _ _ _ _ _ (OpenFile_run _ _ _ Hi)) by done.
    exists (set_hashmap (<[path:=mkStream (Some i) false]> (hashmap_ d)) d).
    split; [|split; [|by simpl; rewrite lookup_insert_eq]].
    + rewrite get_step. cbn [hashmap_ set_hashmap]. by rewrite lookup_insert_eq.
    + split; simpl; try done. intros p s [[<- <-]|[? Hp]]%lookup_insert_Some; eauto.
Qed.

Lemma page_at_Some d path page_id p :
  page_at d path page_id = Some p ↔
  ∃ i, fs_names (fs_ d) !! path = Some i ∧
    p = file_read (Z.to_nat (page_id * DB_PAGE_SIZE)) (Z.to_nat DB_PAGE_SIZE) (inode_data (fs_ d) i) ∧
    length p = Z.to_nat DB_PAGE_SIZE.
Proof.
  unfold page_at, file_data. destruct (fs_names (fs_ d) !! path) as [i|]; simpl; [|naive_solver].
  case_bool_decide; naive_solver.
Qed.

Lemma page_at_length d path page_id p : page_at d path page_id = Some p → mem_len p = DB_PAGE_SIZE.
Proof. intros (i & _ & _ & Hl)%page_at_Some. unfold mem_len. by rewrite Hl. Qed.

Lemma page_pos page_id : 0 <= page_id < 2 ^ 32 → u64 (page_id * DB_PAGE_SIZE) = page_id * DB_PAGE_SIZE.
Proof. intros. apply u64_small. change DB_PAGE_SIZE with 256. lia. Qed.

Lemma ReadPage_ok d db table page_id p :
  disk_ok d → 0 <= db < 2 ^ 31 → 0 <= table < 2 ^ 31 → 0 <= page_id < 2 ^ 32 →
  page_at d (GetFilePath db table) page_id = Some p →
  ∃ d', ReadPage (GetFilePath db table) page_id d = (Ok p, d') ∧ disk_ok d' ∧
    fs_ d' = fs_ d ∧ same_log d d'.
Proof.
  intros Hok Hdb Ht Hp Hpg. pose proof (page_at_length _ _ _ _ Hpg) as Hlen.
  apply page_at_Some in Hpg as (i & Hi & Hpe & Hl).
  unfold ReadPage. rewrite (M_bind_step _ _ _ _ _ (count_access_run _ _ _ Hdb Ht)).
  set (d1 := set_access_count _ d).
  destruct (open_stream_run (GetFilePath db table) i d1) as (d' & Hrun & Hok' & Hs & Hfs & Hlf & Hls & _);
    [by destruct Hok|done|].
  exists d'. rewrite (M_bind_step _ _ _ _ _ Hrun). cbn [st_fail st_inode]. rewrite get_step.
  unfold stream_data. cbn [st_fail st_inode]. rewrite page_pos by done. rewrite Hfs. cbn [fs_ d1 set_access_count].
  rewrite <- Hpe, Hlen, Z.eqb_refl. split; [done|]. split; [done|]. split; [done|].
  split; [done|]. split; [done|]. unfold log_data. by rewrite Hlf, Hfs.
Qed.

(** Reading a page that the file does not have throws. *)
Lemma ReadPage_missing d db table page_id :
  disk_ok d → 0 <= db < 2 ^ 31 → 0 <= table < 2 ^ 31 → 0 <= page_id < 2 ^ 32 →
  is_Some (fs_names (fs_ d) !! GetFilePath db table) → page_at d (GetFilePath db table) page_id = None →
  ∃ e, (ReadPage (GetFilePath db table) page_id d).1 = Err e.
Proof.
  intros Hok Hdb Ht Hp [i Hi] Hpg.
  unfold ReadPage. rewrite (M_bind_step _ _ _ _ _ (count_access_run _ _ _ Hdb Ht)).
  set (d1 := set_access_count _ d).
  destruct (open_stream_run (GetFilePath db table) i d1) as (d' & Hrun & _ & _ & Hfs & _);
    [by destruct Hok|done|].
  rewrite (M_bind_step _ _ _ _ _ Hrun). cbn [st_fail st_inode]. rewrite get_step.
  unfold stream_data. cbn [st_fail st_inode]. rewrite page_pos by done. rewrite Hfs. cbn [fs_ d1 set_access_count].
  set (data := file_read _ _ _). destruct (Z.eqb_spec (mem_len data) DB_PAGE_SIZE) as [He|_]; [|by eexists].
  assert (page_at d (GetFilePath db table) page_id = Some data) as Hs; [|congruence].
  apply page_at_Some. exists i. split; [done|]. split; [done|]. unfold mem_len in He. change DB_PAGE_SIZE with 256 in *. lia.
Qed.

Lemma inode_data_set i b fs j :
  inode_data (set_inode i b fs) j = if decide (i = j) then b else inode_data fs j.
Proof.
  unfold inode_data, set_inode; simpl. case_decide; simplify_eq.
  - by rewrite lookup_insert_eq.
  - by rewrite lookup_insert_ne.
Qed.

Lemma disk_ok_fs d fs :
  disk_ok d → fs_names fs = fs_names (fs_ d) → fs_next fs = fs_next (fs_ d) → disk_ok (set_fs fs d).
Proof. intros [H1 H2 H3 H4] Hn Hx. split; simpl; rewrite ?Hn, ?Hx; done. Qed.

Lemma WritePage_missing d path page_id data :
  fs_names (fs_ d) !! path = None → WritePage path page_id data d = (Ok (), d).
Proof.
  intros Hn. unfold WritePage. rewrite get_step. unfold FileExists.
  rewrite bool_decide_eq_false_2; [done|]. rewrite Hn. by intros [? ?].
Qed.

Lemma WritePage_ok d db table page_id data :
  disk_ok d → 0 <= db < 2 ^ 31 → 0 <= table < 2 ^ 31 → 0 <= page_id < 2 ^ 32 →
  is_Some (fs_names (fs_ d) !! GetFilePath db table) → mem_len data = DB_PAGE_SIZE →
  ∃ d', WritePage (GetFilePath db table) page_id data d = (Ok (), d') ∧ disk_ok d' ∧ same_log d d' ∧
    fs_names (fs_ d') = fs_names (fs_ d) ∧
    (∀ path', path' ≠ GetFilePath db table → file_data (fs_ d') path' = file_data (fs_ d) path') ∧
    page_at d' (GetFilePath db table) page_id = Some data ∧
    (∀ path' page_id' p, (path', page_id') ≠ (GetFilePath db table, page_id) → 0 <= page_id' →
      page_at d path' page_id' = Some p → page_at d' path' page_id' = Some p).
Proof.
  intros Hok Hdb Ht Hp [i Hi] Hlen. set (path := GetFilePath db table) in *.
  assert (∃ d2, WritePage path page_id data d =
      (Ok (), set_fs (set_inode i (file_write (Z.to_nat (page_id * DB_PAGE_SIZE)) data (inode_data (fs_ d) i)) (fs_ d)) d2)
      ∧ disk_ok d2 ∧ fs_ d2 = fs_ d ∧ log_fs_ d2 = log_fs_ d ∧ log_segments d2 = log_segments d)
    as (d2 & Hrun & Hok2 & Hfs2 & Hlf2 & Hls2).
  { destruct (open_stream_run path i d Hok Hi) as (d1 & H1 & Hok1 & Hs1 & Hf1 & Hlf1 & Hls1 & _).
    set (d2 := set_access_count (if db =? SYSTEM_DATABASE_OID then access_count_ d1
                                 else u32 (access_count_ d1 + 1)) d1).
    destruct (open_stream_run path i d2) as (d3 & H3 & Hok3 & Hs3 & Hf3 & Hlf3 & Hls3 & _);
      [by destruct Hok1|by rewrite <- Hi, <- Hf1|].
    exists d3. unfold WritePage. rewrite get_step. unfold FileExists.
    rewrite bool_decide_eq_true_2 by (rewrite Hi; eauto). cbn [negb].
    assert ((if bool_decide (hashmap_ d !! path = None) then OpenFile path else mret ()) d = (Ok (), d1))
      as Hopen.
    { unfold open_stream in H1. rewrite get_step in H1.
      apply M_bind_Ok in H1 as ([] & t & Hx & H1). rewrite Hx. by injection H1 as _ ->. }
    rewrite (M_bind_step _ _ _ _ _ Hopen).
    rewrite (M_bind_step _ _ _ _ _ (count_access_run _ _ _ Hdb Ht)). fold d2.
    rewrite (M_bind_step _ _ _ _ _ H3). cbn [st_fail st_inode].
    erewrite lift_step by (apply mem_read_in; [done|done|rewrite Hlen; done]).
    unfold modify, stream_write. cbn [st_fail st_inode]. rewrite page_pos by done.
    rewrite drop_0, take_ge by (unfold mem_len in Hlen; lia).
    assert (fs_ d3 = fs_ d) as Hfs by (rewrite Hf3; exact Hf1). rewrite Hfs.
    split; [done|]. split; [done|]. split; [done|].
    split; [rewrite Hlf3; exact Hlf1|rewrite Hls3; exact Hls1]. }
  eexists. split; [exact Hrun|]. split; [apply disk_ok_fs; [done|by rewrite Hfs2..]|].
  assert (length data = Z.to_nat DB_PAGE_SIZE) as Hld by (unfold mem_len in Hlen; lia).
  split; [|split; [done|split; [|split]]].
  - split; [done|]. split; [done|]. unfold log_data. simpl. rewrite Hlf2.
    destruct (dk_log _ Hok) as (_ & j & Hj & Hn). unfold stream_data. rewrite Hj, inode_data_set.
    rewrite decide_False; [done|]. intros ->.
    exact (GetFilePath_not_log db table (dk_inj _ Hok _ _ _ Hi Hn)).
  - intros path' Hne. unfold file_data; simpl.
    destruct (fs_names (fs_ d) !! path') as [j|] eqn:Hj; simpl; [|done].
    rewrite inode_data_set, decide_False; [done|]. intros ->.
    exact (Hne (dk_inj _ Hok _ _ _ Hj Hi)).
  - apply page_at_Some. exists i. simpl. rewrite inode_data_set, decide_True by done.
    rewrite <- Hld, file_read_write_same. done.
  - intros path' pid' p Hne Hp' (j & Hj & Hpe & Hl)%page_at_Some. apply page_at_Some.
    exists j. simpl. split; [done|]. split; [|done]. rewrite inode_data_set.
    case_decide as Hij; [|done]. subst j. assert (path' = path) as -> by (by eapply (dk_inj _ Hok)).
    assert (pid' ≠ page_id) as Hpne by congruence.
    rewrite Hpe in Hl. apply file_read_full in Hl as [Hz|Hl]; [done|].
    rewrite file_read_write_other; [done|lia|]. rewrite Hld.
    change (Z.to_nat DB_PAGE_SIZE) with (Z.to_nat 256) in *. change DB_PAGE_SIZE with 256 in *. lia.
Qed.

(** *** The log file *)

(** The log file is made of whole segments, whose size fits the 32-bit
    positions of [ReadLog] and [WriteLog]. *)
Definition log_ok (d : Disk) : Prop :=
  mem_len (log_data d) = log_segments d * LOG_SEGMENT_SIZE ∧
  0 < log_segments d ∧ (log_segments d + 1) * LOG_SEGMENT_SIZE < 2 ^ 32.

Lemma file_read_resize o m n b :
  (length b ≤ n)%nat → (o + m ≤ length b)%nat → file_read o m (resize n b) = file_read o m b.
Proof.
  intros Hn Hm. apply list_eq; intros i. rewrite !file_read_lookup. case_decide; [|done].
  apply lookup_resize; lia.
Qed.

(** Replacing the contents of the log by [b]. *)
Definition set_log_data (b : bytes) (d : Disk) : Disk :=
  match st_inode (log_fs_ d) with Some i => set_fs (set_inode i b (fs_ d)) d | None => d end.

Lemma set_log_data_spec b d :
  disk_ok d →
  disk_ok (set_log_data b d) ∧ log_data (set_log_data b d) = b ∧
  log_segments (set_log_data b d) = log_segments d ∧ log_fs_ (set_log_data b d) = log_fs_ d ∧
  fs_names (fs_ (set_log_data b d)) = fs_names (fs_ d) ∧
  (∀ path page_id, path ≠ LOG_NAME → page_at (set_log_data b d) path page_id = page_at d path page_id).
Proof.
  intros Hok. destruct (dk_log _ Hok) as (_ & i & Hi & Hn). unfold set_log_data. rewrite Hi.
  split; [by apply disk_ok_fs|]. split.
  { unfold log_data, stream_data. simpl. rewrite Hi, inode_data_set. by rewrite decide_True. }
  do 3 (split; [done|]). intros path page_id Hne. unfold page_at, file_data; simpl.
  destruct (fs_names (fs_ d) !! path) as [j|] eqn:Hj; simpl; [|done].
  rewrite inode_data_set, decide_False; [done|]. intros ->.
  exact (Hne (dk_inj _ Hok _ _ _ Hj Hn)).
Qed.

Lemma stream_write_log off src d :
  disk_ok d →
  set_fs (stream_write (log_fs_ d) off src (fs_ d)) d =
  set_log_data (file_write (Z.to_nat off) src (log_data d)) d.
Proof.
  intros Hok. destruct (dk_log _ Hok) as (_ & i & Hi & Hn).
  unfold stream_write, set_log_data, log_data, stream_data. by rewrite Hi.
Qed.

Lemma resize_file_log n d :
  disk_ok d →
  set_fs (resize_file LOG_NAME n (fs_ d)) d = set_log_data (resize (Z.to_nat n) (log_data d)) d.
Proof.
  intros Hok. destruct (dk_log _ Hok) as (_ & i & Hi & Hn).
  unfold resize_file, set_log_data, log_data, stream_data. by rewrite Hn, Hi.
Qed.

Lemma ReadLog_ok d off n :
  disk_ok d → 0 <= off < 2 ^ 32 → 0 <= n < 2 ^ 32 → off + n <= mem_len (log_data d) →
  ReadLog off n d = (Ok (file_read (Z.to_nat off) (Z.to_nat n) (log_data d)), d).
Proof.
  intros Hok Ho Hn Hl. unfold ReadLog. rewrite get_step, !u32_small by done.
  destruct (dk_log _ Hok) as [Hf _]. rewrite Hf. fold (log_data d). cbv zeta.
  assert (mem_len (file_read (Z.to_nat off) (Z.to_nat n) (log_data d)) = n) as ->.
  { unfold mem_len in *. rewrite (proj2 (file_read_full _ _ _)); lia. }
  by rewrite Z.eqb_refl.
Qed.

(** A log read that goes past the end of the file fails, and every log access
    after it fails too. *)
Lemma ReadLog_short d off n :
  disk_ok d → 0 <= off < 2 ^ 32 → 0 < n < 2 ^ 32 → mem_len (log_data d) < off + n →
  ∃ e d', ReadLog off n d = (Err e, d') ∧ st_fail (log_fs_ d') = true.
Proof.
  intros Hok Ho Hn Hl. unfold ReadLog. rewrite get_step, !u32_small by lia.
  destruct (dk_log _ Hok) as [Hf _]. rewrite Hf. fold (log_data d). cbv zeta.
  destruct (Z.eqb_spec (mem_len (file_read (Z.to_nat off) (Z.to_nat n) (log_data d))) n) as [He|He].
  - unfold mem_len in He. assert (length (file_read (Z.to_nat off) (Z.to_nat n) (log_data d)) = Z.to_nat n)
      as [?|Hfull]%file_read_full by lia; [lia|]. unfold mem_len in Hl. lia.
  - do 2 eexists. split; [reflexivity|done].
Qed.

(** Rewriting the log with its own contents. *)
Lemma set_log_data_id d : disk_ok d → log_data d ≠ [] → set_log_data (log_data d) d = d.
Proof.
  intros Hok Hne. destruct (dk_log _ Hok) as (_ & i & Hi & _).
  unfold set_log_data, log_data, stream_data in *. rewrite Hi in *.
  unfold inode_data in *. destruct d as [[nm dt nx] hm lf ac ls]. unfold set_inode, set_fs; simpl in *.
  do 2 f_equal. destruct (dt !! i) as [x|] eqn:Hx; simpl in *; [by apply insert_id|done].
Qed.

(** The segments after a write that ends at [last]. *)
Definition grown (d : Disk) (last : Z) : Z :=
  if log_segments d * LOG_SEGMENT_SIZE <? last then log_segments d + 1 else log_segments d.

Lemma grow_run d last :
  disk_ok d → log_ok d →
  (if log_segments d * LOG_SEGMENT_SIZE <? last then
     modify (set_log_segments (log_segments d + 1)) ;;
     modify (λ d2, set_fs (resize_file LOG_NAME ((log_segments d + 1) * LOG_SEGMENT_SIZE) (fs_ d2)) d2)
   else mret ()) d =
  (Ok (), set_log_data (resize (Z.to_nat (grown d last * LOG_SEGMENT_SIZE)) (log_data d))
            (set_log_segments (grown d last) d)).
Proof.
  intros Hok (Hlen & Hpos & _). unfold grown. assert (0 < LOG_SEGMENT_SIZE) as Hs by done.
  destruct (log_segments d * LOG_SEGMENT_SIZE <? last).
  - rewrite modify_step. unfold modify. rewrite resize_file_log by (by destruct Hok). done.
  - assert (set_log_segments (log_segments d) d = d) as -> by (by destruct d).
    unfold resize. replace (Z.to_nat (log_segments d * LOG_SEGMENT_SIZE)) with (length (log_data d))
      by (unfold mem_len in Hlen; lia).
    rewrite resize_all, set_log_data_id; [done|done|].
    intros He. rewrite He in Hlen. unfold mem_len in Hlen. simpl in Hlen. nia.
Qed.

Lemma WriteLog_run d off n data :
  disk_ok d → log_ok d → 0 <= off → 0 <= n → n <= mem_len data →
  off + n <= (log_segments d + 1) * LOG_SEGMENT_SIZE →
  let b := resize (Z.to_nat (grown d (off + n) * LOG_SEGMENT_SIZE)) (log_data d) in
  WriteLog off n data d =
    (Ok (), set_log_data (file_write (Z.to_nat off) (take (Z.to_nat n) data) b)
              (set_log_data b (set_log_segments (grown d (off + n)) d))).
Proof.
  intros Hok Hlog Ho Hn Hsrc Hfit b. pose proof Hlog as (Hlen & Hpos & Hmax).
  assert (0 < LOG_SEGMENT_SIZE) as Hs by done.
  set (d0 := set_log_segments (grown d (off + n)) d).
  assert (disk_ok d0) as Hok0 by (by destruct Hok).
  destruct (set_log_data_spec b d0 Hok0) as (H1 & H2 & _ & H4 & _).
  unfold WriteLog. rewrite get_step, !u32_small by nia.
  destruct (dk_log _ Hok) as [Hf _]. rewrite Hf. cbv zeta. rewrite !u64_small by nia.
  rewrite (M_bind_step _ _ _ _ _ (grow_run d (off + n) Hok Hlog)).
  erewrite lift_step by (apply mem_read_in; lia). unfold modify. rewrite drop_0.
  do 2 f_equal. fold b d0. replace (log_fs_ d) with (log_fs_ (set_log_data b d0)) by exact H4.
  rewrite (stream_write_log _ _ _ H1). by rewrite H2.
Qed.

Lemma WriteLog_ok d off n data :
  disk_ok d → log_ok d → 0 <= off → 0 <= n → n <= mem_len data →
  off + n <= (log_segments d + 1) * LOG_SEGMENT_SIZE →
  ∃ d', WriteLog off n data d = (Ok (), d') ∧ disk_ok d' ∧
    fs_names (fs_ d') = fs_names (fs_ d) ∧
    mem_len (log_data d') = log_segments d' * LOG_SEGMENT_SIZE ∧
    log_segments d' = grown d (off + n) ∧
    file_read (Z.to_nat off) (Z.to_nat n) (log_data d') = take (Z.to_nat n) data ∧
    (∀ o m, (o + m ≤ Z.to_nat off ∨ Z.to_nat (off + n) ≤ o)%nat →
      (o + m ≤ length (log_data d))%nat → file_read o m (log_data d') = file_read o m (log_data d)) ∧
    (∀ path page_id, path ≠ LOG_NAME → page_at d' path page_id = page_at d path page_id).
Proof.
  intros Hok Hlog Ho Hn Hsrc Hfit. pose proof Hlog as (Hlen & Hpos & Hmax).
  pose proof (WriteLog_run d off n data Hok Hlog Ho Hn Hsrc Hfit) as Hrun. cbv zeta in Hrun.
  set (b := resize _ (log_data d)) in Hrun.
  assert (0 < LOG_SEGMENT_SIZE) as Hs by done.
  assert (log_segments d <= grown d (off + n) ∧ off + n <= grown d (off + n) * LOG_SEGMENT_SIZE) as [Hg1 Hg2].
  { unfold grown. destruct (Z.ltb_spec (log_segments d * LOG_SEGMENT_SIZE) (off + n)); nia. }
  destruct (set_log_data_spec b (set_log_segments (grown d (off + n)) d)) as (G1 & G2 & G3 & G4 & G5 & G6);
    [by destruct Hok|].
  destruct (set_log_data_spec (file_write (Z.to_nat off) (take (Z.to_nat n) data) b) _ G1)
    as (H1 & H2 & H3 & H4 & H5 & H6).
  assert (length (take (Z.to_nat n) data) = Z.to_nat n) as Htl
    by (rewrite length_take; unfold mem_len in Hsrc; lia).
  assert (length b = Z.to_nat (grown d (off + n) * LOG_SEGMENT_SIZE)) as Hbl by apply length_resize.
  eexists. split; [exact Hrun|]. split; [done|]. split; [by rewrite H5, G5|].
  rewrite H2, H3, G3. split; [|split; [done|split; [|split]]].
  - unfold mem_len. rewrite length_file_write, Htl, Hbl. cbn [log_segments set_log_segments]. lia.
  - rewrite <- Htl at 1. apply file_read_write_same.
  - intros o m Hom Hol. unfold mem_len in Hlen.
    rewrite file_read_write_other by (rewrite ?Htl, ?Hbl; nia).
    apply file_read_resize; nia.
  - intros path page_id Hne. by rewrite H6, G6.
Qed.

(** *** Opening the disk *)

Definition fs_wf (fs : Fs) : Prop :=
  (∀ p1 p2 i, fs_names fs !! p1 = Some i → fs_names fs !! p2 = Some i → p1 = p2) ∧
  (∀ p i, fs_names fs !! p = Some i → (i < fs_next fs)%nat).

Lemma Fs_empty_wf : fs_wf Fs_empty.
Proof. split; simpl; intros *; by rewrite lookup_empty. Qed.

Lemma WriteFile_wf path b fs : fs_wf fs → fs_wf (WriteFile path b fs).
Proof.
  intros [H1 H2]. unfold WriteFile. destruct (fs_names fs !! path) as [i|] eqn:Hi; [by split|].
  split; simpl.
  - intros p1 p2 j [[<- <-]|[? Hp1]]%lookup_insert_Some [[<- Hj]|[? Hp2]]%lookup_insert_Some;
      simplify_eq; try done.
    + apply H2 in Hp2. lia.
    + apply H2 in Hp1. lia.
    + by eapply H1.
  - intros p j [[<- <-]|[? Hp%H2]]%lookup_insert_Some; lia.
Qed.

Lemma WriteFile_data path b fs : file_data (WriteFile path b fs) path = Some b.
Proof.
  unfold WriteFile, file_data, inode_data. destruct (fs_names fs !! path) as [i|] eqn:Hi; simpl.
  - rewrite Hi. simpl. by rewrite lookup_insert_eq.
  - rewrite lookup_insert_eq. simpl. by rewrite lookup_insert_eq.
Qed.

Lemma WriteFile_other path b fs path' :
  fs_wf fs → path' ≠ path → file_data (WriteFile path b fs) path' = file_data fs path'.
Proof.
  intros [H1 H2] Hne. unfold WriteFile, file_data, inode_data.
  destruct (fs_names fs !! path) as [i|] eqn:Hi; simpl; rewrite ?lookup_insert_ne by done;
    destruct (fs_names fs !! path') as [j|] eqn:Hj; simpl; try done; rewrite lookup_insert_ne; try done.
  - intros ->. by apply Hne, (H1 _ _ j).
  - intros <-. apply H2 in Hj. lia.
Qed.

Lemma resize_file_data path n fs b :
  file_data fs path = Some b → file_data (resize_file path n fs) path = Some (resize (Z.to_nat n) b).
Proof.
  unfold file_data, resize_file. destruct (fs_names fs !! path) as [i|] eqn:Hi; simpl; [|done].
  intros [= <-]. rewrite Hi. simpl. by rewrite inode_data_set, decide_True.
Qed.

(** Without a log file the constructor makes one of one segment. *)
Lemma Disk_new_ok fs :
  fs_wf fs → file_data fs LOG_NAME = None →
  ∃ d, Disk_new fs = Ok d ∧ disk_ok d ∧ log_ok d ∧ log_segments d = 1 ∧
    (∀ path, path ≠ LOG_NAME → file_data (fs_ d) path = file_data fs path).
Proof.
  intros Hwf Hn. unfold Disk_new. rewrite Hn.
  set (fs' := resize_file LOG_NAME LOG_SEGMENT_SIZE (CreateFile LOG_NAME fs)).
  pose proof (WriteFile_data LOG_NAME [] fs) as Hd. fold (CreateFile LOG_NAME fs) in Hd.
  pose proof (resize_file_data LOG_NAME LOG_SEGMENT_SIZE _ _ Hd) as Hd'. fold fs' in Hd'.
  destruct (fs_names (CreateFile LOG_NAME fs) !! LOG_NAME) as [i|] eqn:Hi;
    [|unfold file_data in Hd; by rewrite Hi in Hd].
  assert (fs' = set_inode i (resize (Z.to_nat LOG_SEGMENT_SIZE) (inode_data (CreateFile LOG_NAME fs) i))
    (CreateFile LOG_NAME fs)) as Hfs by (unfold fs', resize_file; by rewrite Hi).
  assert (fs_names fs' !! LOG_NAME = Some i) as Hi' by (by rewrite Hfs).
  destruct (WriteFile_wf LOG_NAME [] fs Hwf) as [W1 W2].
  eexists. split; [done|]. split; [|split; [|split; [done|]]].
  - split; cbn [fs_ hashmap_ log_fs_]; [by rewrite Hfs..| |].
    + intros p s. by rewrite lookup_empty.
    + split; [done|]. exists i. by rewrite Hi'.
  - unfold log_ok, log_data, stream_data. cbn [fs_ log_fs_ log_segments st_inode]. rewrite Hi'.
    split; [|by split].
    unfold file_data in Hd'. rewrite Hi' in Hd'. injection Hd' as ->.
    unfold mem_len, resize. rewrite length_resize, Z2Nat.id by done. lia.
  - intros path Hne. cbn [fs_]. rewrite <- (WriteFile_other LOG_NAME [] fs path Hwf Hne).
    fold (CreateFile LOG_NAME fs). rewrite Hfs. unfold file_data. cbn [fs_names set_inode].
    destruct (fs_names (CreateFile LOG_NAME fs) !! path) as [j|] eqn:Hj; cbn; [|done].
    rewrite inode_data_set, decide_False; [done|]. intros ->.
    exact (Hne (W1 _ _ _ Hj Hi)).
Qed.

(** *** The small text files *)

Lemma disk_fs_wf d : disk_ok d → fs_wf (fs_ d).
Proof. intros [H1 H2 _ _]. by split. Qed.

Lemma log_file_data d : disk_ok d → file_data (fs_ d) LOG_NAME = Some (log_data d).
Proof.
  intros Hok. destruct (dk_log _ Hok) as (_ & i & Hi & Hn).
  unfold file_data, log_data, stream_data. by rewrite Hn, Hi.
Qed.

(** What the log manager may do to the disk: its files are the log and the two
    text files; pages are not touched, and the log file never shrinks. *)
Definition log_size (d : Disk) : Z := mem_len (log_data d).
Definition log_file (path : string) : Prop :=
  path = LOG_NAME ∨ path = NEXT_LSN_NAME ∨ path = MASTER_RECORD_NAME.
Record log_only (d d' : Disk) : Prop := {
  lo_names : ∀ path, ¬ log_file path → fs_names (fs_ d') !! path = fs_names (fs_ d) !! path;
  lo_pages : ∀ path page_id, ¬ log_file path → page_at d' path page_id = page_at d path page_id;
  lo_size : log_size d <= log_size d'
}.
#[export] Instance log_only_preorder : PreOrder log_only.
Proof.
  split; [done|]. intros d1 d2 d3 [H1 H2 H5] [H3 H4 H6]. split; intros; [| |lia].
  - by rewrite H3, H1.
  - by rewrite H4, H2.
Qed.

Lemma write_number_ok d path n :
  disk_ok d → path = NEXT_LSN_NAME ∨ path = MASTER_RECORD_NAME → 0 <= n < 2 ^ 64 →
  ∃ d', write_number path n d = (Ok (), d') ∧ disk_ok d' ∧ same_log d d' ∧ log_only d d' ∧
    FileExists (fs_ d') path = true ∧ read_number path d' = (Ok n, d') ∧
    (∀ path', path' ≠ path → file_data (fs_ d') path' = file_data (fs_ d) path').
Proof.
  intros Hok Hp Hn. set (b := String.list_byte_of_string (pretty n)).
  assert (path ≠ LOG_NAME) as Hpl by (destruct Hp as [-> | ->]; done).
  pose proof (disk_fs_wf d Hok) as Hwf.
  set (fs := WriteFile path b (fs_ d)). exists (set_fs fs d). split; [done|].
  assert (∀ q, q ≠ path → file_data fs q = file_data (fs_ d) q) as Hfd
    by (intros; by apply WriteFile_other).
  assert (∀ q, q ≠ path → fs_names fs !! q = fs_names (fs_ d) !! q) as Hnm.
  { intros q Hq. unfold fs, WriteFile. destruct (fs_names (fs_ d) !! path); simpl; [done|].
    by rewrite lookup_insert_ne. }
  assert (∀ q i, fs_names (fs_ d) !! q = Some i → fs_names fs !! q = Some i) as Hsome.
  { intros q i Hq. destruct (decide (q = path)) as [->|]; [|by rewrite Hnm].
    unfold fs, WriteFile. by rewrite Hq. }
  pose proof (WriteFile_data path b (fs_ d)) as Hd. fold fs in Hd.
  pose proof (WriteFile_wf path b (fs_ d) Hwf) as [W1 W2]. fold fs in W1, W2.
  assert (disk_ok (set_fs fs d)) as Hok'.
  { destruct Hok as [_ _ H3 (H4 & i & H5 & H6)]. split; simpl; try done.
    - intros q s Hs. destruct (H3 _ _ Hs) as (? & j & ? & ?). eauto 6.
    - split; [done|]. exists i. eauto. }
  assert (log_data (set_fs fs d) = log_data d) as Hlog.
  { pose proof (log_file_data _ Hok') as H1. simpl in H1. rewrite Hfd in H1 by done.
    rewrite (log_file_data _ Hok) in H1. by injection H1. }
  split; [done|]. split; [by split|]. split; [|split; [|split; [|done]]].
  - assert (∀ q, ¬ log_file q → q ≠ path) as Hq.
    { intros q Hq ->. apply Hq. unfold log_file. tauto. }
    split; intros; simpl; [by apply Hnm, Hq| |unfold log_size; by rewrite Hlog].
    unfold page_at; simpl. by rewrite Hfd by (by apply Hq).
  - unfold FileExists. apply bool_decide_eq_true_2. simpl. unfold file_data in Hd.
    destruct (fs_names fs !! path); [eauto|done].
  - unfold read_number, gets. simpl. rewrite Hd. simpl. unfold b.
    rewrite String.string_of_list_byte_of_string. by rewrite read_u64_pretty.
Qed.

(** ** Properties *)

(** What [WritePage] writes to an existing file [ReadPage] reads back, for
    every file of a database and a table whose numbers [std::stoi] can parse;
    every other page, of this file and of the others, and the log keep their
    contents. *)
Theorem write_then_read_page d db table page_id data :
  disk_ok d → 0 <= db < 2 ^ 31 → 0 <= table < 2 ^ 31 → 0 <= page_id < 2 ^ 32 →
  FileExists (fs_ d) (GetFilePath db table) = true → mem_len data = DB_PAGE_SIZE →
  ∃ d' d'', WritePage (GetFilePath db table) page_id data d = (Ok (), d') ∧
    ReadPage (GetFilePath db table) page_id d' = (Ok data, d'') ∧
    log_data d'' = log_data d ∧
    ∀ path' page_id' p, (path', page_id') ≠ (GetFilePath db table, page_id) → 0 <= page_id' →
      page_at d path' page_id' = Some p → page_at d'' path' page_id' = Some p.
Proof.
  intros Hok Hdb Ht Hp Hex%bool_decide_eq_true Hlen.
  destruct (WritePage_ok d db table page_id data Hok Hdb Ht Hp Hex Hlen)
    as (d' & Hw & Hok' & (_ & _ & Hl') & _ & _ & Hpg & Hoth).
  destruct (ReadPage_ok d' db table page_id data Hok' Hdb Ht Hp Hpg)
    as (d'' & Hr & Hok'' & Hfs & (_ & _ & Hl'')).
  exists d', d''. split; [done|]. split; [done|]. split; [by rewrite Hl'', Hl'|].
  intros path' pid' p Hne Hp0 Hat. unfold page_at. rewrite Hfs. by apply Hoth.
Qed.

(** A write to the log that starts in the file or right after it, and is not
    longer than a segment, is read back by [ReadLog]; the log stays made of
    whole segments, the rest of it and the page files are unchanged. *)
Theorem write_then_read_log d off data :
  disk_ok d → log_ok d → 0 <= off <= mem_len (log_data d) → mem_len data <= LOG_SEGMENT_SIZE →
  ∃ d', WriteLog off (mem_len data) data d = (Ok (), d') ∧
    ReadLog off (mem_len data) d' = (Ok data, d') ∧
    mem_len (log_data d') = log_segments d' * LOG_SEGMENT_SIZE ∧
    (∀ o m, 0 <= o → 0 <= m → o + m <= off ∨ off + mem_len data <= o →
      o + m <= mem_len (log_data d) → ReadLog o m d' = ((ReadLog o m d).1, d')) ∧
    (∀ path page_id, path ≠ LOG_NAME → page_at d' path page_id = page_at d path page_id).
Proof.
  intros Hok Hlog Hoff Hlen. pose proof Hlog as (Hl & Hpos & Hmax). pose proof (mem_len_nonneg data).
  destruct (WriteLog_ok d off (mem_len data) data Hok Hlog) as
    (d' & Hw & Hok' & _ & Hlen' & Hsegs & Hsame & Hother & Hpages); [lia..|].
  assert (log_segments d <= log_segments d' <= log_segments d + 1) as Hsd.
  { rewrite Hsegs. unfold grown. case_match; lia. }
  assert (off + mem_len data <= mem_len (log_data d')) as Hin.
  { rewrite Hlen', Hsegs. unfold grown. destruct (Z.ltb_spec (log_segments d * LOG_SEGMENT_SIZE) (off + mem_len data)); lia. }
  assert (mem_len (log_data d) <= mem_len (log_data d')) as Hmono.
  { rewrite Hlen', Hl. assert (0 < LOG_SEGMENT_SIZE) by done. nia. }
  assert (mem_len (log_data d') < 2 ^ 32) as Hlt.
  { rewrite Hlen'. assert (0 < LOG_SEGMENT_SIZE) by done. nia. }
  exists d'. split; [done|]. split.
  - rewrite ReadLog_ok by (done || lia). do 2 f_equal. rewrite Hsame. apply take_ge.
    unfold mem_len. lia.
  - split; [done|]. split; [|done]. intros o m Ho Hm Hd Hom.
    rewrite !ReadLog_ok by (done || lia). simpl. do 2 f_equal.
    apply Hother; unfold mem_len in *; lia.
Qed.

(** A log read that goes past the end of the file, as the fixed-length
    reads of recovery near the end of the last segment do, throws and leaves
    the stream in a failed state in which every later log access throws. *)
Theorem short_log_read_is_fatal d off n :
  disk_ok d → 0 <= off < 2 ^ 32 → 0 < n < 2 ^ 32 → mem_len (log_data d) < off + n →
  ∃ e d', ReadLog off n d = (Err e, d') ∧
    (∀ o m, is_ok (ReadLog o m d').1 = false) ∧
    (∀ o m data, is_ok (WriteLog o m data d').1 = false).
Proof.
  intros Hok Ho Hn Hl. destruct (ReadLog_short d off n Hok Ho Hn Hl) as (e & d' & Hr & Hf).
  exists e, d'. split; [done|]. split; intros.
  - unfold ReadLog. rewrite get_step. by rewrite Hf.
  - unfold WriteLog. rewrite get_step. by rewrite Hf.
Qed.

(** *** A concrete disk: a table of two pages and an empty log *)

Definition ex_fs : Fs := WriteFile (GetFilePath 3 10001) (replicate 512 Byte.x07) Fs_empty.

Lemma ex_fs_wf : fs_wf ex_fs.
Proof. apply WriteFile_wf, Fs_empty_wf. Qed.

Lemma ex_disk_exists :
  ∃ d, Disk_new ex_fs = Ok d ∧ disk_ok d ∧ log_ok d ∧ log_segments d = 1 ∧
    (∀ path, path ≠ LOG_NAME → file_data (fs_ d) path = file_data ex_fs path).
Proof.
  apply Disk_new_ok; [apply ex_fs_wf|]. unfold ex_fs.
  rewrite WriteFile_other; [done|apply Fs_empty_wf|]. intros He. symmetry in He.
  by apply GetFilePath_not_log in He.
Qed.

Lemma ex_file_exists d :
  (∀ path, path ≠ LOG_NAME → file_data (fs_ d) path = file_data ex_fs path) →
  FileExists (fs_ d) (GetFilePath 3 10001) = true.
Proof.
  intros H. unfold FileExists. apply bool_decide_eq_true_2.
  specialize (H _ (GetFilePath_not_log 3 10001)). unfold ex_fs in H. rewrite WriteFile_data in H.
  unfold file_data in H. destruct (fs_names (fs_ d) !! GetFilePath 3 10001); [eauto|done].
Qed.

Lemma write_then_read_page_witness :
  ∃ d, Disk_new ex_fs = Ok d ∧ ∃ d' d'',
    WritePage (GetFilePath 3 10001) 1 (replicate 256 Byte.x2a) d = (Ok (), d') ∧
    ReadPage (GetFilePath 3 10001) 1 d' = (Ok (replicate 256 Byte.x2a), d'') ∧
    log_data d'' = log_data d ∧
    ∀ path' page_id' p, (path', page_id') ≠ (GetFilePath 3 10001, 1) → 0 <= page_id' →
      page_at d path' page_id' = Some p → page_at d'' path' page_id' = Some p.
Proof.
  destruct ex_disk_exists as (d & Hd & Hok & _ & _ & Hf). exists d. split; [exact Hd|].
  exact (write_then_read_page d 3 10001 1 (replicate 256 Byte.x2a) Hok ltac:(lia) ltac:(lia)
    ltac:(lia) (ex_file_exists d Hf) eq_refl).
Defined.

Lemma ex_log_len d : log_ok d → log_segments d = 1 → mem_len (log_data d) = 2 ^ 20.
Proof. intros (-> & _) ->. done. Qed.

Lemma write_then_read_log_witness :
  ∃ d, Disk_new ex_fs = Ok d ∧ ∃ d',
    WriteLog (2 ^ 20 - 1) 3 [Byte.x01; Byte.x02; Byte.x03] d = (Ok (), d') ∧
    ReadLog (2 ^ 20 - 1) 3 d' = (Ok [Byte.x01; Byte.x02; Byte.x03], d') ∧
    mem_len (log_data d') = log_segments d' * LOG_SEGMENT_SIZE ∧
    (∀ o m, 0 <= o → 0 <= m → o + m <= 2 ^ 20 - 1 ∨ 2 ^ 20 - 1 + 3 <= o →
      o + m <= mem_len (log_data d) → ReadLog o m d' = ((ReadLog o m d).1, d')) ∧
    (∀ path page_id, path ≠ LOG_NAME → page_at d' path page_id = page_at d path page_id).
Proof.
  destruct ex_disk_exists as (d & Hd & Hok & Hlog & H1 & _). exists d. split; [exact Hd|].
  exact (write_then_read_log d (2 ^ 20 - 1) [Byte.x01; Byte.x02; Byte.x03] Hok Hlog
    ltac:(rewrite (ex_log_len d Hlog H1); lia) ltac:(done)).
Defined.

Lemma short_log_read_is_fatal_witness :
  ∃ d, Disk_new ex_fs = Ok d ∧ ∃ e d', ReadLog (2 ^ 20 - 13) MAX_LOG_SIZE d = (Err e, d') ∧
    (∀ o m, is_ok (ReadLog o m d').1 = false) ∧
    (∀ o m data, is_ok (WriteLog o m data d').1 = false).
Proof.
  destruct ex_disk_exists as (d & Hd & Hok & Hlog & H1 & _). exists d. split; [exact Hd|].
  exact (short_log_read_is_fatal d (2 ^ 20 - 13) MAX_LOG_SIZE Hok ltac:(lia) ltac:(done)
    ltac:(rewrite (ex_log_len d Hlog H1); done)).
Defined.
