(* ===== verification/Lru.v ===== *)
(** [src/src/storage/lru_buffer_strategy.cpp]: the replacement strategy of the
    buffer pool, a vector of frame numbers from the most to the least recently
    used. [BufferStrategy] is the interface the buffer pool sees. *)
From S2P Require Import Prelude Types.

(** The interface of [buffer_strategy.h]. *)
Class BufferStrategy (S : Type) := {
  Access : Z → M S unit;
  Evict : M S Z
}.

(** [access_map] is never used. *)
Record LRUBufferStrategy := mkLRU { buffer_vec : list Z }.

(** [std::find] followed by [erase] of the element found. *)
Fixpoint erase_first (frame_no : Z) (vec : list Z) : list Z :=
  match vec with
  | [] => []
  | i :: rest => if i =? frame_no then rest else i :: erase_first frame_no rest
  end.

Definition LRU_Access (frame_no : Z) : M LRUBufferStrategy unit :=
  modify (λ s, mkLRU (frame_no :: erase_first frame_no (buffer_vec s))).

(** [buffer_vec[0]] is out of range when nothing was accessed; the loop leaves
    the last element in [victim]. *)
Definition LRU_Evict : M LRUBufferStrategy Z :=
  s ← get;
  match buffer_vec s with
  | [] => throw (Undefined "vector index out of range")
  | first :: _ =>
      let victim := foldl (λ _ i, i) first (buffer_vec s) in
      modify (λ s, mkLRU (erase_first victim (buffer_vec s))) ;;
      mret victim
  end.

#[export] Instance LRU_strategy : BufferStrategy LRUBufferStrategy := {
  Access := LRU_Access;
  Evict := LRU_Evict
}.

(** ** The vector *)

Lemma erase_first_filter x vec : NoDup vec → erase_first x vec = filter (.≠ x) vec.
Proof.
  induction vec as [|i vec IH]; intros Hnd; [done|]. apply NoDup_cons in Hnd as [Hi Hnd]. simpl.
  destruct (Z.eqb_spec i x) as [->|Hne].
  - rewrite filter_cons_False by naive_solver. symmetry. apply list_filter_all.
    apply Forall_forall. intros y Hy ->. done.
  - rewrite filter_cons_True by done. by rewrite IH.
Qed.

Lemma erase_first_elem x y vec : NoDup vec → y ∈ erase_first x vec ↔ y ∈ vec ∧ y ≠ x.
Proof. intros. rewrite erase_first_filter, list_elem_of_filter by done. naive_solver. Qed.

Lemma erase_first_NoDup x vec : NoDup vec → NoDup (erase_first x vec).
Proof. intros. rewrite erase_first_filter by done. by apply NoDup_filter. Qed.

Lemma erase_first_last vec x : x ∉ vec → erase_first x (vec ++ [x]) = vec.
Proof.
  induction vec as [|i vec IH]; simpl; intros Hx.
  - by rewrite Z.eqb_refl.
  - apply not_elem_of_cons in Hx as [Hne Hx]. destruct (Z.eqb_spec i x); [done|]. by rewrite IH.
Qed.

Lemma foldl_last (vec : list Z) (x d : Z) : foldl (λ _ i, i) d (vec ++ [x]) = x.
Proof. by rewrite foldl_app. Qed.

Lemma LRU_Access_run f vec :
  LRU_Access f (mkLRU vec) = (Ok (), mkLRU (f :: erase_first f vec)).
Proof. done. Qed.

Lemma LRU_Evict_run vec x :
  x ∉ vec → LRU_Evict (mkLRU (vec ++ [x])) = (Ok x, mkLRU vec).
Proof.
  intros Hx. unfold LRU_Evict. rewrite get_step. cbn [buffer_vec].
  destruct (vec ++ [x]) as [|i rest] eqn:He; [by destruct vec|].
  assert (foldl (λ _ i, i) i (i :: rest) = x) as -> by (rewrite <- He; apply foldl_last).
  rewrite modify_step. cbn [buffer_vec]. rewrite <- He. by rewrite erase_first_last.
Qed.

(** ** The order of last accesses *)

(** The frames of a sequence of accesses, oldest access first, each at its last
    access only. *)
Fixpoint last_accesses (trace : list Z) : list Z :=
  match trace with
  | [] => []
  | f :: rest => if bool_decide (f ∈ rest) then last_accesses rest else f :: last_accesses rest
  end.

Fixpoint run_accesses (trace : list Z) : M LRUBufferStrategy unit :=
  match trace with
  | [] => mret ()
  | f :: rest => LRU_Access f ;; run_accesses rest
  end.

Lemma last_accesses_elem trace f : f ∈ last_accesses trace ↔ f ∈ trace.
Proof.
  induction trace as [|g trace IH]; simpl; [done|]. case_bool_decide; set_solver.
Qed.

Lemma last_accesses_NoDup trace : NoDup (last_accesses trace).
Proof.
  induction trace as [|g trace IH]; simpl; [constructor|]. case_bool_decide; [done|].
  constructor; [by rewrite last_accesses_elem|done].
Qed.

Lemma run_accesses_vec trace vec :
  NoDup vec →
  run_accesses trace (mkLRU vec) =
    (Ok (), mkLRU (reverse (last_accesses trace) ++ filter (.∉ trace) vec)).
Proof.
  revert vec. induction trace as [|f trace IH]; intros vec Hnd; simpl.
  { rewrite (list_filter_all _ vec); [done|]. apply Forall_forall. set_solver. }
  rewrite (M_bind_step _ _ _ _ _ (LRU_Access_run f vec)).
  rewrite IH by (constructor; [rewrite erase_first_elem by done; naive_solver|by apply erase_first_NoDup]).
  do 2 f_equal. rewrite erase_first_filter by done.
  assert (filter (.∉ trace) (filter (.≠ f) vec) = filter (.∉ f :: trace) vec) as Hf.
  { rewrite list_filter_filter. apply list_filter_ext. intros x. rewrite not_elem_of_cons. tauto. }
  case_bool_decide as Hin.
  - rewrite filter_cons_False by naive_solver. by rewrite Hf.
  - rewrite filter_cons_True by done. rewrite reverse_cons, <- app_assoc, Hf. done.
Qed.

(** After any sequence of accesses [Evict] returns the frame whose last
    access is the oldest and forgets it; with no access at all it reads outside
    the vector. *)
Theorem Evict_least_recent trace :
  let s := (run_accesses trace (mkLRU [])).2 in
  match last_accesses trace with
  | [] => (LRU_Evict s).1 = Err (Undefined "vector index out of range")
  | oldest :: younger => LRU_Evict s = (Ok oldest, mkLRU (reverse younger)) ∧ oldest ∉ younger
  end.
Proof.
  rewrite run_accesses_vec by constructor. simpl. rewrite app_nil_r.
  pose proof (last_accesses_NoDup trace) as Hnd.
  destruct (last_accesses trace) as [|oldest younger]; [done|].
  apply NoDup_cons in Hnd as [Hn _]. rewrite reverse_cons. split; [|done].
  apply LRU_Evict_run. by rewrite elem_of_reverse.
Qed.

Example Evict_example : LRU_Evict (run_accesses [0; 1; 2; 0; 1] (mkLRU [])).2 = (Ok 2, mkLRU [1; 0]).
Proof. by vm_compute. Qed.
