(* ===== verification/LogRecord.v ===== *)
(** [src/src/log/log_record.h], [log_record.cpp] and [log/log_records/]: the
    records of the write-ahead log and their encoding. The class hierarchy is
    one type: the fields of [LogRecord] and a body per subclass. *)
From S2P Require Import Prelude Memory Types.

Inductive LogType :=
| BEGIN | COMMIT | ROLLBACK | INSERT | DELETE | NEW_PAGE | BEGIN_CHECKPOINT | END_CHECKPOINT.
#[export] Instance LogType_eq_dec : EqDecision LogType.
Proof. solve_decision. Defined.

(** [enum class LogType : enum_t] *)
Definition LogType_code (t : LogType) : Z :=
  match t with
  | BEGIN => 0 | COMMIT => 1 | ROLLBACK => 2 | INSERT => 3 | DELETE => 4
  | NEW_PAGE => 5 | BEGIN_CHECKPOINT => 6 | END_CHECKPOINT => 7
  end.

(** The order in which the implementation iterates over an [unordered_map] is
    unspecified: some permutation of the entries. *)
Class MapOrder := {
  att_order : gmap Z Z → list (Z * Z);
  dpt_order : gmap TablePageid Z → list (TablePageid * Z);
  att_order_perm : ∀ m, att_order m ≡ₚ map_to_list m;
  dpt_order_perm : ∀ m, dpt_order m ≡ₚ map_to_list m
}.

(** What each subclass adds to [LogRecord]. [record_] is the copy the
    constructor of [InsertLog] makes. *)
Inductive LogBody :=
| BeginLog
| CommitLog
| RollbackLog
| InsertLog (oid page_id slot_id page_offset record_size : Z) (record : bytes)
| DeleteLog (oid page_id slot_id : Z)
| NewPageLog (oid prev_page_id page_id : Z)
| BeginCheckpointLog
| EndCheckpointLog (att : gmap Z Z) (dpt : gmap TablePageid Z).

Record LogRecord := mkLogRecord {
  log_lsn_ : Z;
  log_xid_ : Z;
  log_prev_lsn_ : Z;
  log_body_ : LogBody
}.

Definition SetLSN (lsn : Z) (r : LogRecord) : LogRecord :=
  mkLogRecord lsn (log_xid_ r) (log_prev_lsn_ r) (log_body_ r).
Definition GetLSN (r : LogRecord) : Z := log_lsn_ r.
Definition GetXid (r : LogRecord) : Z := log_xid_ r.
Definition GetPrevLSN (r : LogRecord) : Z := log_prev_lsn_ r.
Definition body_type (b : LogBody) : LogType :=
  match b with
  | BeginLog => BEGIN
  | CommitLog => COMMIT
  | RollbackLog => ROLLBACK
  | InsertLog _ _ _ _ _ _ => INSERT
  | DeleteLog _ _ _ => DELETE
  | NewPageLog _ _ _ => NEW_PAGE
  | BeginCheckpointLog => BEGIN_CHECKPOINT
  | EndCheckpointLog _ _ => END_CHECKPOINT
  end.
Definition GetType (r : LogRecord) : LogType := body_type (log_body_ r).

(** [size_] of [LogRecord], and what the constructors of the subclasses add. *)
Definition LOG_HEADER_SIZE : Z := sizeof_enum_t + sizeof_xid_t + sizeof_lsn_t.
Definition body_size (b : LogBody) : Z :=
  match b with
  | InsertLog _ _ _ _ record_size _ =>
      sizeof_oid_t + sizeof_pageid_t + sizeof_slotid_t + sizeof_db_size_t + sizeof_db_size_t + record_size
  | DeleteLog _ _ _ => sizeof_oid_t + sizeof_pageid_t + sizeof_slotid_t
  | NewPageLog _ _ _ => sizeof_oid_t + sizeof_pageid_t + sizeof_pageid_t
  | EndCheckpointLog att dpt =>
      sizeof_size_t + Z.of_nat (size att) * (sizeof_xid_t + sizeof_lsn_t) +
      sizeof_size_t + Z.of_nat (size dpt) * (sizeof_TablePageid + sizeof_lsn_t)
  | _ => 0
  end.
Definition Log_GetSize (r : LogRecord) : Z := u32 (LOG_HEADER_SIZE + body_size (log_body_ r)).

(** The constructor of [InsertLog] copies [record_size] bytes. *)
Definition InsertLog_new (oid page_id slot_id page_offset record_size : Z) (record : bytes) : res LogBody :=
  record_ ← mem_read 0 record_size record;
  Ok (InsertLog oid page_id slot_id page_offset record_size record_).

(** ** Encoding *)

(** [memcpy] of an integer at [offset], which then moves past it. *)
Definition put_field (n z : Z) (data : bytes) (offset : Z) : res (bytes * Z) :=
  data ← put_uint offset n z data; Ok (data, offset + n).
Definition get_field (n : Z) (data : bytes) (offset : Z) : res (Z * Z) :=
  z ← get_uint offset n data; Ok (z, offset + n).

Definition LogRecord_SerializeTo_base (r : LogRecord) (data : bytes) : res (bytes * Z) :=
  let offset := 0 in
  '(data, offset) ← put_field sizeof_enum_t (LogType_code (GetType r)) data offset;
  '(data, offset) ← put_field sizeof_xid_t (log_xid_ r) data offset;
  put_field sizeof_lsn_t (log_prev_lsn_ r) data offset.

Fixpoint put_att (entries : list (Z * Z)) (data : bytes) (offset : Z) : res (bytes * Z) :=
  match entries with
  | [] => Ok (data, offset)
  | (xid, lsn) :: rest =>
      '(data, offset) ← put_field sizeof_xid_t xid data offset;
      '(data, offset) ← put_field sizeof_lsn_t lsn data offset;
      put_att rest data offset
  end.

(** A [TablePageid] is copied whole: its two fields, without padding. *)
Fixpoint put_dpt (entries : list (TablePageid * Z)) (data : bytes) (offset : Z) : res (bytes * Z) :=
  match entries with
  | [] => Ok (data, offset)
  | (table_page_id, lsn) :: rest =>
      '(data, offset) ← put_field sizeof_oid_t (table_oid_ table_page_id) data offset;
      '(data, offset) ← put_field sizeof_pageid_t (tp_page_id_ table_page_id) data offset;
      '(data, offset) ← put_field sizeof_lsn_t lsn data offset;
      put_dpt rest data offset
  end.

Section Encoding.
Context `{MapOrder}.

(** The bytes the subclass writes after the common fields. *)
Definition body_SerializeTo (b : LogBody) (data : bytes) (offset : Z) : res (bytes * Z) :=
  match b with
  | BeginLog | CommitLog | RollbackLog | BeginCheckpointLog => Ok (data, offset)
  | InsertLog oid page_id slot_id page_offset record_size record =>
      '(data, offset) ← put_field sizeof_oid_t oid data offset;
      '(data, offset) ← put_field sizeof_pageid_t page_id data offset;
      '(data, offset) ← put_field sizeof_slotid_t slot_id data offset;
      '(data, offset) ← put_field sizeof_db_size_t page_offset data offset;
      '(data, offset) ← put_field sizeof_db_size_t record_size data offset;
      src ← mem_read 0 record_size record;
      data ← mem_write offset src data;
      Ok (data, offset + record_size)
  | DeleteLog oid page_id slot_id =>
      '(data, offset) ← put_field sizeof_oid_t oid data offset;
      '(data, offset) ← put_field sizeof_pageid_t page_id data offset;
      put_field sizeof_slotid_t slot_id data offset
  | NewPageLog oid prev_page_id page_id =>
      '(data, offset) ← put_field sizeof_oid_t oid data offset;
      '(data, offset) ← put_field sizeof_pageid_t prev_page_id data offset;
      put_field sizeof_pageid_t page_id data offset
  | EndCheckpointLog att dpt =>
      '(data, offset) ← put_field sizeof_size_t (Z.of_nat (size att)) data offset;
      '(data, offset) ← put_att (att_order att) data offset;
      '(data, offset) ← put_field sizeof_size_t (Z.of_nat (size dpt)) data offset;
      put_dpt (dpt_order dpt) data offset
  end.

(** [SerializeTo] of every subclass ends with [assert(offset == size_)]. *)
Definition LogRecord_SerializeTo (r : LogRecord) (data : bytes) : res (bytes * Z) :=
  '(data, offset) ← LogRecord_SerializeTo_base r data;
  '(data, offset) ← body_SerializeTo (log_body_ r) data offset;
  if offset =? Log_GetSize r then Ok (data, offset)
  else Err (AssertFailed "offset == size_").

End Encoding.

(** ** Decoding *)

(** The [DeserializeFrom] of the subclasses; [p] is where their [data] points. *)
Definition read_common (data : bytes) (p : Z) : res (Z * Z * Z) :=
  '(xid, offset) ← get_field sizeof_xid_t data p;
  '(prev_lsn, offset) ← get_field sizeof_lsn_t data offset;
  Ok (xid, prev_lsn, offset).

Definition plain_DeserializeFrom (b : LogBody) (lsn : Z) (data : bytes) (p : Z) : res LogRecord :=
  '(xid, prev_lsn, offset) ← read_common data p;
  Ok (mkLogRecord lsn xid prev_lsn b).

Definition InsertLog_DeserializeFrom (lsn : Z) (data : bytes) (p : Z) : res LogRecord :=
  '(xid, prev_lsn, offset) ← read_common data p;
  '(oid, offset) ← get_field sizeof_oid_t data offset;
  '(page_id, offset) ← get_field sizeof_pageid_t data offset;
  '(slot_id, offset) ← get_field sizeof_slotid_t data offset;
  '(page_offset, offset) ← get_field sizeof_db_size_t data offset;
  '(record_size, offset) ← get_field sizeof_db_size_t data offset;
  record ← mem_read offset record_size data;
  b ← InsertLog_new oid page_id slot_id page_offset record_size record;
  Ok (mkLogRecord lsn xid prev_lsn b).

Definition DeleteLog_DeserializeFrom (lsn : Z) (data : bytes) (p : Z) : res LogRecord :=
  '(xid, prev_lsn, offset) ← read_common data p;
  '(oid, offset) ← get_field sizeof_oid_t data offset;
  '(page_id, offset) ← get_field sizeof_pageid_t data offset;
  '(slot_id, offset) ← get_field sizeof_slotid_t data offset;
  Ok (mkLogRecord lsn xid prev_lsn (DeleteLog oid page_id slot_id)).

Definition NewPageLog_DeserializeFrom (lsn : Z) (data : bytes) (p : Z) : res LogRecord :=
  '(xid, prev_lsn, offset) ← read_common data p;
  '(oid, offset) ← get_field sizeof_oid_t data offset;
  '(prev_page_id, offset) ← get_field sizeof_pageid_t data offset;
  '(page_id, offset) ← get_field sizeof_pageid_t data offset;
  Ok (mkLogRecord lsn xid prev_lsn (NewPageLog oid prev_page_id page_id)).

(** The loops over the [n] entries of the two tables. *)
Fixpoint get_att (n : nat) (att : gmap Z Z) (data : bytes) (offset : Z) : res (gmap Z Z * Z) :=
  match n with
  | O => Ok (att, offset)
  | S n =>
      '(temp_xid, offset) ← get_field sizeof_xid_t data offset;
      '(temp_lsn, offset) ← get_field sizeof_lsn_t data offset;
      get_att n (<[temp_xid := temp_lsn]> att) data offset
  end.
Fixpoint get_dpt (n : nat) (dpt : gmap TablePageid Z) (data : bytes) (offset : Z)
    : res (gmap TablePageid Z * Z) :=
  match n with
  | O => Ok (dpt, offset)
  | S n =>
      '(table_oid, offset) ← get_field sizeof_oid_t data offset;
      '(page_id, offset) ← get_field sizeof_pageid_t data offset;
      '(temp_lsn, offset) ← get_field sizeof_lsn_t data offset;
      get_dpt n (<[mkTPid table_oid page_id := temp_lsn]> dpt) data offset
  end.

(** A count larger than the array can hold reads past its end: the loop ends
    there, before [att_size] steps when [att_size] is more than its length. *)
Definition EndCheckpointLog_DeserializeFrom (lsn : Z) (data : bytes) (p : Z) : res LogRecord :=
  '(xid, prev_lsn, offset) ← read_common data p;
  '(att_size, offset) ← get_field sizeof_size_t data offset;
  '(att, offset) ← get_att (Z.to_nat (Z.min att_size (mem_len data + 1))) ∅ data offset;
  '(dpt_size, offset) ← get_field sizeof_size_t data offset;
  '(dpt, offset) ← get_dpt (Z.to_nat (Z.min dpt_size (mem_len data + 1))) ∅ data offset;
  Ok (mkLogRecord lsn xid prev_lsn (EndCheckpointLog att dpt)).

Definition LogRecord_DeserializeFrom (lsn : Z) (data : bytes) : res LogRecord :=
  type ← get_uint 0 sizeof_enum_t data;
  let p := sizeof_enum_t in
  if type =? LogType_code INSERT then InsertLog_DeserializeFrom lsn data p
  else if type =? LogType_code DELETE then DeleteLog_DeserializeFrom lsn data p
  else if type =? LogType_code NEW_PAGE then NewPageLog_DeserializeFrom lsn data p
  else if type =? LogType_code BEGIN then plain_DeserializeFrom BeginLog lsn data p
  else if type =? LogType_code COMMIT then plain_DeserializeFrom CommitLog lsn data p
  else if type =? LogType_code ROLLBACK then plain_DeserializeFrom RollbackLog lsn data p
  else if type =? LogType_code BEGIN_CHECKPOINT then plain_DeserializeFrom BeginCheckpointLog lsn data p
  else if type =? LogType_code END_CHECKPOINT then EndCheckpointLog_DeserializeFrom lsn data p
  else Err (DbException "Unknown log type in DeserializeFrom").

(** [GetOid] and [GetPageId] of the records about a page. *)
Definition log_page (b : LogBody) : option TablePageid :=
  match b with
  | InsertLog oid page_id _ _ _ _ | DeleteLog oid page_id _ | NewPageLog oid _ page_id =>
      Some (mkTPid oid page_id)
  | _ => None
  end.

(** ** Printing *)

Definition tab : string := String.String (Ascii.ascii_of_nat 9) "".
Definition LogRecord_ToString_base (r : LogRecord) : string :=
  "lsn: " +:+ pretty (log_lsn_ r) +:+ tab +:+ "size: " +:+ pretty (Log_GetSize r) +:+ tab +:+
  "xid: " +:+ pretty (log_xid_ r) +:+ tab +:+ "prev_lsn: " +:+ pretty (log_prev_lsn_ r).

Section Printing.
Context `{MapOrder}.

Definition Log_ToString (r : LogRecord) : string :=
  let base := LogRecord_ToString_base r in
  match log_body_ r with
  | BeginLog => "BeginLog" +:+ tab +:+ tab +:+ "[" +:+ base +:+ "]"
  | CommitLog => "CommitLog" +:+ tab +:+ tab +:+ "[" +:+ base +:+ "]"
  | RollbackLog => "RollbackLog" +:+ tab +:+ "[" +:+ base +:+ "]"
  | BeginCheckpointLog => "BeginCheckpointLog" +:+ tab +:+ "[" +:+ base +:+ "]"
  | InsertLog oid page_id slot_id page_offset record_size _ =>
      "InsertLog" +:+ tab +:+ tab +:+ "[" +:+ base +:+ tab +:+ "oid: " +:+ pretty oid +:+ tab +:+
      "page_id: " +:+ pretty page_id +:+ tab +:+ "slot_id: " +:+ pretty slot_id +:+ tab +:+
      "page_offset: " +:+ pretty page_offset +:+ tab +:+ "record_size: " +:+ pretty record_size +:+ "]"
  | DeleteLog oid page_id slot_id =>
      "DeleteLog" +:+ tab +:+ tab +:+ "[" +:+ base +:+ " oid: " +:+ pretty oid +:+ tab +:+
      "page_id: " +:+ pretty page_id +:+ tab +:+ "slot_id: " +:+ pretty slot_id +:+ "]"
  | NewPageLog oid prev_page_id page_id =>
      "NewPageLog" +:+ tab +:+ tab +:+ "[" +:+ base +:+ tab +:+ "oid: " +:+ pretty oid +:+ tab +:+
      "prev_page_id: " +:+ pretty prev_page_id +:+ tab +:+ "page_id: " +:+ pretty page_id +:+ "]"
  | EndCheckpointLog att dpt =>
      "EndCheckpointLog" +:+ tab +:+ "[" +:+ base +:+ " att: {" +:+
      foldr (λ '(xid, lsn) s, "(" +:+ pretty xid +:+ ": " +:+ pretty lsn +:+ ") " +:+ s) "" (att_order att) +:+
      "} dpt: {" +:+
      foldr (λ '(k, lsn) s, "(" +:+ pretty (table_oid_ k) +:+ ", " +:+ pretty (tp_page_id_ k) +:+ ": " +:+
                            pretty (lsn : Z) +:+ ") " +:+ s) "" (dpt_order dpt) +:+
      "}]"
  end.

End Printing.

(** ** The bytes of a record *)

Definition field (n z : Z) : bytes := le_split (Z.to_nat n) z.

Definition att_bytes (entries : list (Z * Z)) : bytes :=
  concat ((λ e, field sizeof_xid_t e.1 ++ field sizeof_lsn_t e.2) <$> entries).
Definition dpt_bytes (entries : list (TablePageid * Z)) : bytes :=
  concat ((λ e, field sizeof_oid_t (table_oid_ e.1) ++ field sizeof_pageid_t (tp_page_id_ e.1) ++
                field sizeof_lsn_t e.2) <$> entries).

Definition header_log_bytes (r : LogRecord) : bytes :=
  field sizeof_enum_t (LogType_code (GetType r)) ++ field sizeof_xid_t (log_xid_ r) ++
  field sizeof_lsn_t (log_prev_lsn_ r).

Definition body_bytes `{MapOrder} (b : LogBody) : bytes :=
  match b with
  | InsertLog oid page_id slot_id page_offset record_size record =>
      field sizeof_oid_t oid ++ field sizeof_pageid_t page_id ++ field sizeof_slotid_t slot_id ++
      field sizeof_db_size_t page_offset ++ field sizeof_db_size_t record_size ++ record
  | DeleteLog oid page_id slot_id =>
      field sizeof_oid_t oid ++ field sizeof_pageid_t page_id ++ field sizeof_slotid_t slot_id
  | NewPageLog oid prev_page_id page_id =>
      field sizeof_oid_t oid ++ field sizeof_pageid_t prev_page_id ++ field sizeof_pageid_t page_id
  | EndCheckpointLog att dpt =>
      field sizeof_size_t (Z.of_nat (size att)) ++ att_bytes (att_order att) ++
      field sizeof_size_t (Z.of_nat (size dpt)) ++ dpt_bytes (dpt_order dpt)
  | _ => []
  end.
Definition log_bytes `{MapOrder} (r : LogRecord) : bytes := header_log_bytes r ++ body_bytes (log_body_ r).

(** Every field is in the range of its type. *)
Definition in_range (n z : Z) : Prop := 0 <= z < 2 ^ (8 * n).
Definition body_wf (b : LogBody) : Prop :=
  match b with
  | InsertLog oid page_id slot_id page_offset record_size record =>
      in_range 4 oid ∧ in_range 4 page_id ∧ in_range 2 slot_id ∧ in_range 2 page_offset ∧
      in_range 2 record_size ∧ mem_len record = record_size
  | DeleteLog oid page_id slot_id => in_range 4 oid ∧ in_range 4 page_id ∧ in_range 2 slot_id
  | NewPageLog oid prev_page_id page_id =>
      in_range 4 oid ∧ in_range 4 prev_page_id ∧ in_range 4 page_id
  | EndCheckpointLog att dpt =>
      (∀ xid lsn, att !! xid = Some lsn → in_range 4 xid ∧ in_range 8 lsn) ∧
      (∀ k lsn, dpt !! k = Some lsn →
        in_range 4 (table_oid_ k) ∧ in_range 4 (tp_page_id_ k) ∧ in_range 8 lsn)
  | _ => True
  end.
Record log_wf (r : LogRecord) : Prop := {
  lw_xid : in_range 4 (log_xid_ r);
  lw_prev : in_range 8 (log_prev_lsn_ r);
  lw_body : body_wf (log_body_ r);
  lw_size : LOG_HEADER_SIZE + body_size (log_body_ r) < 2 ^ 32
}.

Lemma mem_len_field n z : 0 <= n → mem_len (field n z) = n.
Proof. apply mem_len_le_split. Qed.

Lemma att_bytes_len entries : mem_len (att_bytes entries) = Z.of_nat (length entries) * 12.
Proof.
  induction entries as [|e entries IH]; [done|]. unfold att_bytes in *. rewrite fmap_cons.
  cbn [concat]. rewrite !mem_len_app, IH, !mem_len_field by done. cbn [length].
  unfold sizeof_xid_t, sizeof_lsn_t. lia.
Qed.
Lemma dpt_bytes_len entries : mem_len (dpt_bytes entries) = Z.of_nat (length entries) * 16.
Proof.
  induction entries as [|e entries IH]; [done|]. unfold dpt_bytes in *. rewrite fmap_cons.
  cbn [concat]. rewrite !mem_len_app, IH, !mem_len_field by done. cbn [length].
  unfold sizeof_oid_t, sizeof_pageid_t, sizeof_lsn_t. lia.
Qed.

Lemma att_order_length `{MapOrder} m : length (att_order m) = size m.
Proof. rewrite att_order_perm. apply length_map_to_list. Qed.
Lemma dpt_order_length `{MapOrder} m : length (dpt_order m) = size m.
Proof. rewrite dpt_order_perm. apply length_map_to_list. Qed.

Ltac log_sizes := cbv [LOG_HEADER_SIZE sizeof_enum_t sizeof_xid_t sizeof_lsn_t sizeof_oid_t
  sizeof_pageid_t sizeof_slotid_t sizeof_db_size_t sizeof_size_t sizeof_TablePageid] in *.

Lemma body_bytes_len `{MapOrder} b : body_wf b → mem_len (body_bytes b) = body_size b.
Proof.
  destruct b; cbn [body_bytes body_size body_wf]; intros Hwf; try done;
    rewrite ?mem_len_app, ?mem_len_field by done.
  - destruct Hwf as (_&_&_&_&_& ->). lia.
  - rewrite att_bytes_len, dpt_bytes_len, att_order_length, dpt_order_length. log_sizes. lia.
Qed.

Lemma header_log_bytes_len r : mem_len (header_log_bytes r) = LOG_HEADER_SIZE.
Proof. unfold header_log_bytes. by rewrite !mem_len_app, !mem_len_field by done. Qed.

Lemma body_size_nonneg b : body_wf b → 0 <= body_size b.
Proof.
  destruct b; simpl; log_sizes; unfold in_range; intros; try lia.
Qed.

Lemma Log_GetSize_wf r : log_wf r → Log_GetSize r = LOG_HEADER_SIZE + body_size (log_body_ r).
Proof.
  intros [_ _ Hb Hs]. apply body_size_nonneg in Hb. unfold Log_GetSize. apply u32_small.
  assert (0 < LOG_HEADER_SIZE) by done. lia.
Qed.

Lemma log_bytes_len `{MapOrder} r : log_wf r → mem_len (log_bytes r) = Log_GetSize r.
Proof.
  intros Hr. rewrite Log_GetSize_wf by done. unfold log_bytes.
  by rewrite mem_len_app, header_log_bytes_len, body_bytes_len by apply Hr.
Qed.

(** *** Writing fields one after the other *)

(** The state of an encoder that has written [pre] over [data]. *)
Definition over (pre data : bytes) : bytes := pre ++ drop (length pre) data.

Lemma mem_write_over pre b data :
  mem_len pre + mem_len b <= mem_len data →
  mem_write (mem_len pre) b (over pre data) = Ok (over (pre ++ b) data).
Proof.
  intros Hl. unfold over, mem_len in *. apply mem_write_Ok. unfold mem_len. split; [lia|].
  rewrite length_app, length_drop. split; [lia|].
  unfold splice. rewrite Nat2Z.id, take_app_length, drop_app_ge by lia.
  rewrite drop_drop, length_app, <- app_assoc. do 2 f_equal. f_equal. lia.
Qed.

Lemma put_field_over n z pre data :
  0 <= n → mem_len pre + n <= mem_len data →
  put_field n z (over pre data) (mem_len pre) =
    Ok (over (pre ++ field n z) data, mem_len (pre ++ field n z)).
Proof.
  intros Hn Hl. unfold put_field, put_uint.
  rewrite mem_write_over by (rewrite mem_len_le_split; lia). simpl.
  by rewrite mem_len_app, mem_len_field.
Qed.

Lemma over_nil data : over [] data = data.
Proof. done. Qed.

(** Push the encoder one field further. *)
Ltac put_step := rewrite put_field_over by (rewrite ?mem_len_app, ?mem_len_field by done; log_sizes; lia); rs.

Lemma put_att_over entries : ∀ pre data,
  mem_len pre + mem_len (att_bytes entries) <= mem_len data →
  put_att entries (over pre data) (mem_len pre) =
    Ok (over (pre ++ att_bytes entries) data, mem_len (pre ++ att_bytes entries)).
Proof.
  induction entries as [|[xid lsn] entries IH]; intros pre data Hl.
  { unfold att_bytes. simpl. by rewrite app_nil_r. }
  unfold att_bytes in *. rewrite fmap_cons in *. cbn [concat fst snd put_att] in *.
  rewrite !mem_len_app, !mem_len_field in Hl by done.
  pose proof (mem_len_nonneg (concat ((λ e, field sizeof_xid_t e.1 ++ field sizeof_lsn_t e.2) <$> entries))).
  do 2 put_step.
  rewrite IH by (rewrite !mem_len_app, !mem_len_field by done; lia).
  by rewrite <- !app_assoc.
Qed.

Lemma put_dpt_over entries : ∀ pre data,
  mem_len pre + mem_len (dpt_bytes entries) <= mem_len data →
  put_dpt entries (over pre data) (mem_len pre) =
    Ok (over (pre ++ dpt_bytes entries) data, mem_len (pre ++ dpt_bytes entries)).
Proof.
  induction entries as [|[k lsn] entries IH]; intros pre data Hl.
  { unfold dpt_bytes. simpl. by rewrite app_nil_r. }
  unfold dpt_bytes in *. rewrite fmap_cons in *. cbn [concat fst snd put_dpt] in *.
  rewrite !mem_len_app, !mem_len_field in Hl by done.
  pose proof (mem_len_nonneg (concat ((λ e, field sizeof_oid_t (table_oid_ e.1) ++
    field sizeof_pageid_t (tp_page_id_ e.1) ++ field sizeof_lsn_t e.2) <$> entries))).
  do 3 put_step.
  rewrite IH by (rewrite !mem_len_app, !mem_len_field by done; lia).
  by rewrite <- !app_assoc.
Qed.

Lemma body_SerializeTo_over `{MapOrder} b pre data :
  body_wf b → mem_len pre + body_size b <= mem_len data →
  body_SerializeTo b (over pre data) (mem_len pre) =
    Ok (over (pre ++ body_bytes b) data, mem_len (pre ++ body_bytes b)).
Proof.
  intros Hwf Hl. pose proof (body_size_nonneg b Hwf) as Hn.
  destruct b; cbn [body_bytes body_size body_wf body_SerializeTo] in *; rewrite ?app_nil_r; try done.
  - destruct Hwf as (_&_&_&_&_& <-). pose proof (mem_len_nonneg record).
    do 5 put_step.
    rewrite mem_read_in by lia. rs. rewrite drop_0, take_ge by (unfold mem_len; lia).
    rewrite mem_write_over by (rewrite ?mem_len_app, ?mem_len_field by done; log_sizes; lia). rs.
    do 2 f_equal; [by rewrite <- !app_assoc|]. rewrite !mem_len_app. lia.
  - do 3 put_step.
    by rewrite <- !app_assoc.
  - do 3 put_step.
    by rewrite <- !app_assoc.
  - pose proof (att_bytes_len (att_order att)) as Ha. pose proof (dpt_bytes_len (dpt_order dpt)) as Hd.
    rewrite att_order_length in Ha. rewrite dpt_order_length in Hd.
    put_step.
    rewrite put_att_over by (rewrite ?mem_len_app, ?mem_len_field by done; log_sizes; lia). rs.
    put_step.
    rewrite put_dpt_over by (rewrite ?mem_len_app, ?mem_len_field by done; log_sizes; lia).
    by rewrite <- !app_assoc.
Qed.

Lemma LogRecord_SerializeTo_base_over r data :
  LOG_HEADER_SIZE <= mem_len data →
  LogRecord_SerializeTo_base r data =
    Ok (over (header_log_bytes r) data, mem_len (header_log_bytes r)).
Proof.
  intros Hl. unfold LogRecord_SerializeTo_base. cbv zeta.
  assert (∀ n z, 0 <= n <= mem_len data →
    put_field n z data 0 = Ok (over (field n z) data, mem_len (field n z))) as Hfirst.
  { intros n z Hn. apply (put_field_over n z []); [lia|]. change (mem_len []) with 0. lia. }
  rewrite Hfirst by (log_sizes; lia). rs. do 2 put_step. unfold header_log_bytes.
  by rewrite <- !app_assoc.
Qed.

Lemma LogRecord_SerializeTo_spec `{MapOrder} r data :
  log_wf r → Log_GetSize r <= mem_len data →
  LogRecord_SerializeTo r data = Ok (over (log_bytes r) data, Log_GetSize r).
Proof.
  intros Hr Hl. pose proof (log_bytes_len r Hr) as Hlen. rewrite (Log_GetSize_wf r Hr) in Hl.
  pose proof (body_size_nonneg _ (lw_body _ Hr)) as Hn. unfold LogRecord_SerializeTo.
  rewrite LogRecord_SerializeTo_base_over by lia. rs.
  rewrite body_SerializeTo_over by (apply Hr || (rewrite header_log_bytes_len; lia)). rs.
  fold (log_bytes r). rewrite Hlen. by rewrite Z.eqb_refl.
Qed.

(** *** Reading fields one after the other *)

(** The array holds [bs] at [off]. *)
Definition at_off (data : bytes) (off : Z) (bs : bytes) : Prop := mem_read off (mem_len bs) data = Ok bs.

Lemma at_off_app data off b1 b2 :
  at_off data off (b1 ++ b2) → at_off data off b1 ∧ at_off data (off + mem_len b1) b2.
Proof.
  unfold at_off. rewrite mem_len_app. intros Hr.
  apply mem_read_app in Hr as [H1 H2]; [|done|done]. rewrite H1, H2. unfold mem_len.
  by rewrite Nat2Z.id, take_app_length, drop_app_length.
Qed.

Lemma get_field_at n z data off rest :
  0 <= n → in_range n z → at_off data off (field n z ++ rest) →
  get_field n data off = Ok (z, off + n) ∧ at_off data (off + n) rest.
Proof.
  intros Hn Hz Hat. apply at_off_app in Hat as [H1 H2].
  rewrite mem_len_field in H2 by done. split; [|done].
  unfold get_field, get_uint. unfold at_off in H1. rewrite mem_len_field in H1 by done.
  rewrite H1. rs. unfold field. rewrite le_combine_split. do 3 f_equal. unfold in_range in Hz.
  rewrite Z.mod_small; [done|]. replace (Z.of_nat (Z.to_nat n) * 8) with (8 * n) by lia. done.
Qed.

Lemma get_field_last n z data off :
  0 <= n → in_range n z → at_off data off (field n z) → get_field n data off = Ok (z, off + n).
Proof.
  intros Hn Hz Hat. apply (get_field_at n z data off []); [done|done|]. by rewrite app_nil_r.
Qed.

(** Read the next field of the array described by [Hat]. *)
Ltac get_step Hat := 
  let Hg := fresh in
  apply get_field_at in Hat as [Hg Hat]; [|done|done]; rewrite Hg; clear Hg; rs.

Lemma get_att_at entries : ∀ att data off rest,
  (∀ e, e ∈ entries → in_range 4 e.1 ∧ in_range 8 e.2) →
  at_off data off (att_bytes entries ++ rest) →
  get_att (length entries) att data off =
    Ok (foldl (λ m e, <[e.1 := e.2]> m) att entries, off + mem_len (att_bytes entries)) ∧
  at_off data (off + mem_len (att_bytes entries)) rest.
Proof.
  induction entries as [|[xid lsn] entries IH]; intros att data off rest Hr Hat.
  { unfold att_bytes in *. simpl in *. by rewrite Z.add_0_r. }
  destruct (Hr (xid, lsn)) as [Hx Hl]; [by left|]. simpl in Hx, Hl.
  unfold att_bytes in *. rewrite fmap_cons in *. cbn [concat fst snd length get_att foldl] in *.
  rewrite <- !app_assoc in Hat. do 2 get_step Hat.
  rewrite !mem_len_app, !mem_len_field by done.
  destruct (IH (<[xid:=lsn]> att) data (off + sizeof_xid_t + sizeof_lsn_t) rest) as [-> Hrest];
    [intros e He; apply Hr; by right|done|].
  split; [do 2 f_equal; lia|]. by rewrite !Z.add_assoc.
Qed.

Lemma get_dpt_at entries : ∀ dpt data off rest,
  (∀ e, e ∈ entries →
    in_range 4 (table_oid_ e.1) ∧ in_range 4 (tp_page_id_ e.1) ∧ in_range 8 e.2) →
  at_off data off (dpt_bytes entries ++ rest) →
  get_dpt (length entries) dpt data off =
    Ok (foldl (λ m e, <[e.1 := e.2]> m) dpt entries, off + mem_len (dpt_bytes entries)) ∧
  at_off data (off + mem_len (dpt_bytes entries)) rest.
Proof.
  induction entries as [|[[t p] lsn] entries IH]; intros dpt data off rest Hr Hat.
  { unfold dpt_bytes in *. simpl in *. by rewrite Z.add_0_r. }
  destruct (Hr (mkTPid t p, lsn)) as (Hx & Hp & Hl); [by left|]. simpl in Hx, Hp, Hl.
  unfold dpt_bytes in *. rewrite fmap_cons in *.
  cbn [concat fst snd length get_dpt foldl table_oid_ tp_page_id_] in *.
  rewrite <- !app_assoc in Hat. do 3 get_step Hat.
  rewrite !mem_len_app, !mem_len_field by done.
  destruct (IH (<[mkTPid t p:=lsn]> dpt) data (off + sizeof_oid_t + sizeof_pageid_t + sizeof_lsn_t) rest)
    as [-> Hrest]; [intros e He; apply Hr; by right|done|].
  split; [do 2 f_equal; lia|]. by rewrite !Z.add_assoc.
Qed.

(** Inserting the entries of a map in any order rebuilds it. *)
Lemma foldl_insert_order `{Countable K} {A} (m : gmap K A) (l : list (K * A)) :
  l ≡ₚ map_to_list m → foldl (λ m e, <[e.1 := e.2]> m) ∅ l = m.
Proof.
  intros Hl.
  assert (∀ l' acc, foldl (λ (m : gmap K A) e, <[e.1 := e.2]> m) acc l' =
    foldr (λ e m, <[e.1 := e.2]> m) acc (reverse l')) as Hrev.
  { induction l' as [|e l' IH]; intros acc; simpl; [done|].
    by rewrite IH, reverse_cons, foldr_app. }
  rewrite Hrev. change (foldr _ ∅ (reverse l)) with (list_to_map (M := gmap K A) (reverse l)).
  rewrite <- (list_to_map_to_list m). apply list_to_map_proper.
  - rewrite reverse_Permutation, Hl. apply NoDup_fst_map_to_list.
  - by rewrite reverse_Permutation.
Qed.

Lemma read_common_at data p xid prev_lsn rest :
  in_range 4 xid → in_range 8 prev_lsn →
  at_off data p (field sizeof_xid_t xid ++ field sizeof_lsn_t prev_lsn ++ rest) →
  read_common data p = Ok (xid, prev_lsn, p + sizeof_xid_t + sizeof_lsn_t) ∧
  at_off data (p + sizeof_xid_t + sizeof_lsn_t) rest.
Proof. intros Hx Hp Hat. unfold read_common. do 2 get_step Hat. done. Qed.

Lemma at_off_len data off bs : at_off data off bs → 0 <= off ∧ off + mem_len bs <= mem_len data.
Proof. intros (?&?&?&_)%mem_read_Ok. done. Qed.

(** Decoding the body at [p], after the type. *)
Lemma EndCheckpoint_at `{MapOrder} lsn data p xid prev_lsn att dpt :
  in_range 4 xid → in_range 8 prev_lsn → body_wf (EndCheckpointLog att dpt) →
  body_size (EndCheckpointLog att dpt) < 2 ^ 32 →
  at_off data p (field sizeof_xid_t xid ++ field sizeof_lsn_t prev_lsn ++ body_bytes (EndCheckpointLog att dpt)) →
  EndCheckpointLog_DeserializeFrom lsn data p =
    Ok (mkLogRecord lsn xid prev_lsn (EndCheckpointLog att dpt)).
Proof.
  intros Hx Hp [Ha Hd] Hsz Hat. unfold EndCheckpointLog_DeserializeFrom.
  destruct (read_common_at _ _ _ _ _ Hx Hp Hat) as [-> Hat2]. rs. clear Hat.
  cbn [body_bytes body_size] in *. log_sizes.
  pose proof (at_off_len _ _ _ Hat2) as [Hp0 Hl].
  rewrite !mem_len_app, !mem_len_field, att_bytes_len, dpt_bytes_len, att_order_length,
    dpt_order_length in Hl by done.
  apply get_field_at in Hat2 as [-> Hat2]; [rs|done|unfold in_range; lia].
  rewrite Z.min_l, Nat2Z.id by lia. rewrite <- att_order_length.
  apply get_att_at with (att := ∅) in Hat2 as [-> Hat2]; [rs|].
  - apply get_field_at in Hat2 as [-> Hat2]; [rs|done|unfold in_range; lia].
    rewrite Z.min_l, Nat2Z.id by lia. rewrite <- dpt_order_length.
    rewrite <- (app_nil_r (dpt_bytes _)) in Hat2.
    apply get_dpt_at with (dpt := ∅) in Hat2 as [-> _]; [rs|].
    + by rewrite (foldl_insert_order att _ (att_order_perm att)), (foldl_insert_order dpt _ (dpt_order_perm dpt)).
    + intros [k l] He. rewrite dpt_order_perm in He. by apply elem_of_map_to_list, Hd in He.
  - intros [x l] He. rewrite att_order_perm in He. by apply elem_of_map_to_list, Ha in He.
Qed.

Lemma InsertLog_at lsn data p xid prev_lsn oid page_id slot_id page_offset record_size record :
  in_range 4 xid → in_range 8 prev_lsn →
  body_wf (InsertLog oid page_id slot_id page_offset record_size record) →
  at_off data p (field sizeof_xid_t xid ++ field sizeof_lsn_t prev_lsn ++ field sizeof_oid_t oid ++
    field sizeof_pageid_t page_id ++ field sizeof_slotid_t slot_id ++
    field sizeof_db_size_t page_offset ++ field sizeof_db_size_t record_size ++ record) →
  InsertLog_DeserializeFrom lsn data p =
    Ok (mkLogRecord lsn xid prev_lsn (InsertLog oid page_id slot_id page_offset record_size record)).
Proof.
  intros Hx Hp (H1 & H2 & H3 & H4 & H5 & H6) Hat. unfold InsertLog_DeserializeFrom.
  destruct (read_common_at _ _ _ _ _ Hx Hp Hat) as [-> Hat2]. rs. clear Hat.
  do 5 get_step Hat2. unfold at_off in Hat2. rewrite H6 in Hat2. rewrite Hat2. rs.
  unfold InsertLog_new. rewrite mem_read_in by (rewrite ?H6; unfold in_range in *; lia). rs.
  rewrite drop_0, take_ge by (unfold mem_len in H6; lia). done.
Qed.

Lemma LogRecord_DeserializeFrom_spec `{MapOrder} r data :
  log_wf r → at_off data 0 (log_bytes r) →
  LogRecord_DeserializeFrom (log_lsn_ r) data = Ok r.
Proof.
  intros Hr Hat. pose proof Hr as [Hx Hp Hb Hs]. destruct r as [lsn xid prev b].
  unfold log_bytes, header_log_bytes, GetType in *.
  cbn [log_lsn_ log_xid_ log_prev_lsn_ log_body_] in *.
  rewrite <- !app_assoc in Hat. unfold LogRecord_DeserializeFrom.
  apply get_field_at in Hat as [Ht Hat]; [|done|by destruct b].
  unfold get_field in Ht. apply bind_Ok in Ht as (type & Ht & [= ->]). rewrite Ht. rs.
  change (0 + sizeof_enum_t) with sizeof_enum_t in Hat.
  pose proof (body_size_nonneg b Hb). assert (0 < LOG_HEADER_SIZE) by done.
  assert (∀ b0, plain_DeserializeFrom b0 lsn data sizeof_enum_t = Ok (mkLogRecord lsn xid prev b0)) as Hplain.
  { intros b0. unfold plain_DeserializeFrom. by destruct (read_common_at _ _ _ _ _ Hx Hp Hat) as [-> _]. }
  destruct b; cbn [body_type LogType_code Z.eqb Pos.eqb]; try apply Hplain.
  - by apply InsertLog_at.
  - unfold DeleteLog_DeserializeFrom. destruct (read_common_at _ _ _ _ _ Hx Hp Hat) as [-> Hat2]. rs.
    destruct Hb as (? & ? & ?). cbn [body_bytes] in Hat2. do 2 get_step Hat2.
    by erewrite get_field_last by (done || exact Hat2).
  - unfold NewPageLog_DeserializeFrom. destruct (read_common_at _ _ _ _ _ Hx Hp Hat) as [-> Hat2]. rs.
    destruct Hb as (? & ? & ?). cbn [body_bytes] in Hat2. do 2 get_step Hat2.
    by erewrite get_field_last by (done || exact Hat2).
  - apply EndCheckpoint_at; [done..|lia|done].
Qed.

(** The [DeserializeFrom] of the class of the record, which skips the type. *)
Lemma DeserializeFrom_class `{MapOrder} r data :
  log_wf r → at_off data 0 (log_bytes r) →
  match log_body_ r with
  | InsertLog _ _ _ _ _ _ => InsertLog_DeserializeFrom (log_lsn_ r) data sizeof_enum_t
  | DeleteLog _ _ _ => DeleteLog_DeserializeFrom (log_lsn_ r) data sizeof_enum_t
  | NewPageLog _ _ _ => NewPageLog_DeserializeFrom (log_lsn_ r) data sizeof_enum_t
  | EndCheckpointLog _ _ => EndCheckpointLog_DeserializeFrom (log_lsn_ r) data sizeof_enum_t
  | b => plain_DeserializeFrom b (log_lsn_ r) data sizeof_enum_t
  end = Ok r.
Proof.
  intros Hr Hat. pose proof (LogRecord_DeserializeFrom_spec r data Hr Hat) as Hd.
  unfold log_bytes, header_log_bytes in Hat. rewrite <- !app_assoc in Hat.
  apply get_field_at in Hat as [Ht _]; [|done|unfold GetType; by destruct (log_body_ r)].
  unfold get_field in Ht. apply bind_Ok in Ht as (type & Ht & [= ->]).
  unfold LogRecord_DeserializeFrom in Hd. rewrite Ht in Hd. revert Hd. rs. unfold GetType.
  by destruct (log_body_ r).
Qed.

(** ** Properties *)

(** C35: a log record that [SerializeTo] writes at the front of a buffer large
    enough for [GetSize()] is read back by [DeserializeFrom] at its LSN, the
    tables of a checkpoint included and whatever the order in which their
    entries were written; the bytes after it are untouched. *)
Theorem log_record_roundtrip `{MapOrder} r data :
  log_wf r → Log_GetSize r <= mem_len data →
  ∃ data', LogRecord_SerializeTo r data = Ok (data', Log_GetSize r) ∧
    mem_len data' = mem_len data ∧
    drop (Z.to_nat (Log_GetSize r)) data' = drop (Z.to_nat (Log_GetSize r)) data ∧
    LogRecord_DeserializeFrom (log_lsn_ r) data' = Ok r.
Proof.
  intros Hr Hl. pose proof (log_bytes_len r Hr) as Hlen. exists (over (log_bytes r) data).
  assert (length (log_bytes r) = Z.to_nat (Log_GetSize r)) as Hln by (unfold mem_len in Hlen; lia).
  split; [by apply LogRecord_SerializeTo_spec|]. split; [|split].
  - unfold over. rewrite mem_len_app. unfold mem_len in *. rewrite length_drop. lia.
  - unfold over. by rewrite drop_app_length' by lia; rewrite Hln.
  - apply LogRecord_DeserializeFrom_spec; [done|]. unfold at_off, over.
    rewrite mem_read_in; [|done|done|].
    + f_equal. rewrite drop_0, take_app_length' by (unfold mem_len; lia). done.
    + rewrite mem_len_app. pose proof (mem_len_nonneg (drop (length (log_bytes r)) data)). lia.
Qed.

(** [MAX_LOG_SIZE] bounds every record of a table of records of at most
    [MAX_RECORD_SIZE] bytes; for the record that ends a checkpoint it does not:
    its size exceeds [MAX_LOG_SIZE] exactly when its tables have more than 240
    bytes of entries. *)
Theorem log_size_bound r :
  log_wf r →
  match log_body_ r with
  | EndCheckpointLog att dpt =>
      MAX_LOG_SIZE < Log_GetSize r ↔ 240 < Z.of_nat (size att) * 12 + Z.of_nat (size dpt) * 16
  | InsertLog _ _ _ _ record_size _ => record_size <= MAX_RECORD_SIZE → Log_GetSize r <= MAX_LOG_SIZE
  | _ => Log_GetSize r <= MAX_LOG_SIZE
  end.
Proof.
  intros Hr. rewrite (Log_GetSize_wf r Hr). change MAX_LOG_SIZE with 269.
  unfold MAX_RECORD_SIZE. destruct (log_body_ r); simpl; log_sizes; lia.
Qed.

(** *** Concrete records *)

#[export] Instance ex_order : MapOrder := {
  att_order := map_to_list;
  dpt_order := map_to_list;
  att_order_perm := λ m, reflexivity (map_to_list m);
  dpt_order_perm := λ m, reflexivity (map_to_list m)
}.

Definition ex_checkpoint : LogRecord :=
  mkLogRecord 40 NULL_XID NULL_LSN
    (EndCheckpointLog (<[3 := 13]> (<[7 := 27]> ∅)) (<[mkTPid 10001 0 := 13]> ∅)).

Lemma ex_checkpoint_wf : log_wf ex_checkpoint.
Proof.
  unfold ex_checkpoint. split; simpl; [done|done| |done]. split.
  - intros xid lsn [[<- <-]|[? [[<- <-]|[? [=]]]%lookup_insert_Some]]%lookup_insert_Some; done.
  - intros k lsn [[<- <-]|[? [=]]]%lookup_insert_Some; done.
Qed.

Lemma ex_checkpoint_size : Log_GetSize ex_checkpoint = 69.
Proof. by vm_compute. Qed.

Lemma log_record_roundtrip_witness :
  ∃ data', LogRecord_SerializeTo ex_checkpoint (replicate 80 Byte.x00) = Ok (data', 69) ∧
    mem_len data' = mem_len (replicate 80 Byte.x00) ∧
    drop (Z.to_nat 69) data' = drop (Z.to_nat 69) (replicate 80 Byte.x00) ∧
    LogRecord_DeserializeFrom (log_lsn_ ex_checkpoint) data' = Ok ex_checkpoint.
Proof.
  rewrite <- ex_checkpoint_size.
  apply (log_record_roundtrip ex_checkpoint (replicate 80 Byte.x00) ex_checkpoint_wf).
  rewrite ex_checkpoint_size. done.
Defined.

Lemma log_size_bound_witness :
  MAX_LOG_SIZE < Log_GetSize ex_checkpoint ↔ 240 < Z.of_nat 2 * 12 + Z.of_nat 1 * 16.
Proof. exact (log_size_bound ex_checkpoint ex_checkpoint_wf). Defined.
