(* ===== verification/LogManager.v ===== *)
(** [src/src/log/log_manager.h] and [log_manager.cpp]: appending to the
    write-ahead log, flushing it and checkpoints. Rollback and recovery, which
    call the buffer pool, are in [Recovery]. The log manager works on its own
    state and on the disk. *)
From S2P Require Import Prelude Memory Types StringUtil Disk LogRecord.

(** The class; the mutex and the atomic counter protect against other threads,
    which the model does not have. *)
Record LogManager := mkLogManager {
  att_ : gmap Z Z;
  dpt_ : gmap TablePageid Z;
  next_lsn_ : Z;
  flushed_lsn_ : Z;
  log_buffer_ : list LogRecord;
  redo_count_ : Z
}.

Definition LogManager_new (next_lsn : Z) : LogManager :=
  mkLogManager ∅ ∅ next_lsn (u64 (next_lsn - 1)) [] 0.

Definition set_att (m : gmap Z Z) (l : LogManager) : LogManager :=
  mkLogManager m (dpt_ l) (next_lsn_ l) (flushed_lsn_ l) (log_buffer_ l) (redo_count_ l).
Definition set_dpt (m : gmap TablePageid Z) (l : LogManager) : LogManager :=
  mkLogManager (att_ l) m (next_lsn_ l) (flushed_lsn_ l) (log_buffer_ l) (redo_count_ l).
Definition set_next_lsn (z : Z) (l : LogManager) : LogManager :=
  mkLogManager (att_ l) (dpt_ l) z (flushed_lsn_ l) (log_buffer_ l) (redo_count_ l).
Definition set_flushed_lsn (z : Z) (l : LogManager) : LogManager :=
  mkLogManager (att_ l) (dpt_ l) (next_lsn_ l) z (log_buffer_ l) (redo_count_ l).
Definition set_log_buffer (b : list LogRecord) (l : LogManager) : LogManager :=
  mkLogManager (att_ l) (dpt_ l) (next_lsn_ l) (flushed_lsn_ l) b (redo_count_ l).
Definition set_redo_count (z : Z) (l : LogManager) : LogManager :=
  mkLogManager (att_ l) (dpt_ l) (next_lsn_ l) (flushed_lsn_ l) (log_buffer_ l) z.

(** The log manager and the disk it refers to. *)
Record LogDisk := mkLogDisk { lg : LogManager; dk : Disk }.
Definition on_lg (f : LogManager → LogManager) : M LogDisk unit :=
  modify (λ w, mkLogDisk (f (lg w)) (dk w)).
Definition on_dk {A} (m : M Disk A) : M LogDisk A :=
  zoom dk (λ d w, mkLogDisk (lg w) d) m.

Definition GetNextLSN : M LogDisk Z := gets (λ w, next_lsn_ (lg w)).
(** [Clear]: the log buffer is lost. *)
Definition LogManager_Clear : M LogDisk unit := on_lg (set_log_buffer []).

(** [if (dpt_.find(k) == dpt_.end()) dpt_[k] = lsn;] *)
Definition dpt_add (k : TablePageid) (lsn : Z) (l : LogManager) : LogManager :=
  match dpt_ l !! k with Some _ => l | None => set_dpt (<[k := lsn]> (dpt_ l)) l end.
Definition LogManager_SetDirty (oid page_id lsn : Z) : M LogDisk unit :=
  on_lg (dpt_add (mkTPid oid page_id) lsn).

(** [next_lsn_.fetch_add(log->GetSize())] and [log->SetLSN(lsn)]. *)
Definition take_lsn (r : LogRecord) : M LogDisk Z :=
  lsn ← gets (λ w, next_lsn_ (lg w));
  on_lg (set_next_lsn (u64 (lsn + Log_GetSize r))) ;;
  mret lsn.
Definition push_log (r : LogRecord) : M LogDisk unit :=
  on_lg (λ l, set_log_buffer (log_buffer_ l ++ [r]) l).

Definition not_in_att {A} (xid : Z) (caller : string) : M LogDisk A :=
  throw (DbException (pretty xid +:+ " does not exist in att (in " +:+ caller +:+ ")")).

Definition AppendInsertLog (xid oid page_id slot_id offset size : Z) (new_record : bytes) : M LogDisk Z :=
  w ← get;
  match att_ (lg w) !! xid with
  | None => not_in_att xid "AppendInsertLog"
  | Some prev =>
      body ← lift (InsertLog_new oid page_id slot_id offset size new_record);
      let log := mkLogRecord NULL_LSN xid prev body in
      lsn ← take_lsn log;
      let log := SetLSN lsn log in
      on_lg (λ l, set_att (<[xid := lsn]> (att_ l)) l) ;;
      push_log log ;;
      on_lg (dpt_add (mkTPid oid page_id) lsn) ;;
      mret lsn
  end.

Definition AppendDeleteLog (xid oid page_id slot_id : Z) : M LogDisk Z :=
  w ← get;
  match att_ (lg w) !! xid with
  | None => not_in_att xid "AppendDeleteLog"
  | Some prev =>
      let log := mkLogRecord NULL_LSN xid prev (DeleteLog oid page_id slot_id) in
      lsn ← take_lsn log;
      let log := SetLSN lsn log in
      on_lg (λ l, set_att (<[xid := lsn]> (att_ l)) l) ;;
      push_log log ;;
      on_lg (dpt_add (mkTPid oid page_id) lsn) ;;
      mret lsn
  end.

(** The previous LSN goes through a variable of the 32-bit type [xid_t]; for a
    DDL statement it is [NULL_XID] and not [NULL_LSN]. *)
Definition AppendNewPageLog (xid oid prev_page_id page_id : Z) : M LogDisk Z :=
  w ← get;
  if negb (xid =? DDL_XID) && bool_decide (att_ (lg w) !! xid = None)
  then not_in_att xid "AppendNewPageLog"
  else
    log_xid ← (if xid =? DDL_XID then mret NULL_XID
               else lift (match att_ (lg w) !! xid with
                          | Some prev => Ok (u32 prev)
                          | None => Err (StdException "unordered_map::at")
                          end));
    let log := mkLogRecord NULL_LSN xid log_xid (NewPageLog oid prev_page_id page_id) in
    lsn ← take_lsn log;
    let log := SetLSN lsn log in
    (if xid =? DDL_XID then mret () else on_lg (λ l, set_att (<[xid := lsn]> (att_ l)) l)) ;;
    push_log log ;;
    on_lg (dpt_add (mkTPid oid page_id) lsn) ;;
    (if prev_page_id =? NULL_PAGE_ID then mret ()
     else on_lg (dpt_add (mkTPid oid prev_page_id) lsn)) ;;
    mret lsn.

Definition AppendBeginLog (xid : Z) : M LogDisk Z :=
  w ← get;
  match att_ (lg w) !! xid with
  | Some _ => throw (DbException (pretty xid +:+ " already exists in att"))
  | None =>
      let log := mkLogRecord NULL_LSN xid NULL_LSN BeginLog in
      lsn ← take_lsn log;
      let log := SetLSN lsn log in
      on_lg (λ l, set_att (<[xid := lsn]> (att_ l)) l) ;;
      push_log log ;;
      mret lsn
  end.

Section Flushing.
Context `{MapOrder}.

(** The loop of [Flush(lsn)]: [kept] are the records it passed over, [rest]
    those it has not seen; the list on the heap is [kept ++ rest]. *)
Fixpoint flush_loop (lsn : Z) (kept rest : list LogRecord) (max_lsn max_log_size : Z)
    : M LogDisk (Z * Z) :=
  match rest with
  | [] => mret (max_lsn, max_log_size)
  | log_record :: rest =>
      if negb (lsn =? NULL_LSN) && (lsn <? GetLSN log_record)
      then flush_loop lsn (kept ++ [log_record]) rest max_lsn max_log_size
      else
        let log_size := Log_GetSize log_record in
        '(log, _) ← lift (LogRecord_SerializeTo log_record (replicate (Z.to_nat log_size) Byte.x00));
        on_dk (WriteLog (GetLSN log_record) log_size log) ;;
        let newer := (max_lsn =? NULL_LSN) || (max_lsn <? GetLSN log_record) in
        on_lg (set_log_buffer (kept ++ rest)) ;;
        flush_loop lsn kept rest
          (if newer then GetLSN log_record else max_lsn)
          (if newer then log_size else max_log_size)
  end.

(** The private [Flush(lsn)]; [NULL_LSN] flushes everything. *)
Definition Flush_upto (lsn : Z) : M LogDisk unit :=
  buffer ← gets (λ w, log_buffer_ (lg w));
  '(max_lsn, max_log_size) ← flush_loop lsn [] buffer NULL_LSN 0;
  w ← get;
  if negb (max_lsn =? NULL_LSN) &&
     ((flushed_lsn_ (lg w) =? NULL_LSN) || (flushed_lsn_ (lg w) <? max_lsn)) then
    on_lg (set_flushed_lsn max_lsn) ;;
    next_lsn ← (if FileExists (fs_ (dk w)) NEXT_LSN_NAME
                then on_dk (read_number NEXT_LSN_NAME) else mret FIRST_LSN);
    let last := u64 (max_lsn + max_log_size) in
    if next_lsn <? last then on_dk (write_number NEXT_LSN_NAME last) else mret ()
  else mret ().

Definition LogManager_Flush : M LogDisk unit := Flush_upto NULL_LSN.

Definition AppendCommitLog (xid : Z) : M LogDisk Z :=
  w ← get;
  match att_ (lg w) !! xid with
  | None => not_in_att xid "AppendCommitLog"
  | Some prev =>
      let log := mkLogRecord NULL_LSN xid prev CommitLog in
      lsn ← take_lsn log;
      push_log (SetLSN lsn log) ;;
      Flush_upto lsn ;;
      on_lg (λ l, set_att (delete xid (att_ l)) l) ;;
      mret lsn
  end.

Definition AppendRollbackLog (xid : Z) : M LogDisk Z :=
  w ← get;
  match att_ (lg w) !! xid with
  | None => not_in_att xid "AppendRollbackLog"
  | Some prev =>
      let log := mkLogRecord NULL_LSN xid prev RollbackLog in
      lsn ← take_lsn log;
      push_log (SetLSN lsn log) ;;
      Flush_upto lsn ;;
      on_lg (λ l, set_att (delete xid (att_ l)) l) ;;
      mret lsn
  end.

(** [async] is not used. *)
Definition Checkpoint (async : bool) : M LogDisk Z :=
  let begin_checkpoint_log := mkLogRecord NULL_LSN NULL_XID NULL_LSN BeginCheckpointLog in
  begin_lsn ← take_lsn begin_checkpoint_log;
  push_log (SetLSN begin_lsn begin_checkpoint_log) ;;
  w ← get;
  let end_checkpoint_log :=
    mkLogRecord NULL_LSN NULL_XID NULL_LSN (EndCheckpointLog (att_ (lg w)) (dpt_ (lg w))) in
  end_lsn ← take_lsn end_checkpoint_log;
  push_log (SetLSN end_lsn end_checkpoint_log) ;;
  Flush_upto end_lsn ;;
  on_dk (write_number MASTER_RECORD_NAME begin_lsn) ;;
  mret end_lsn.

Definition LogManager_FlushPage (table_oid page_id page_lsn : Z) : M LogDisk unit :=
  Flush_upto page_lsn ;;
  on_lg (λ l, set_dpt (delete (mkTPid table_oid page_id) (dpt_ l)) l).

End Flushing.

Definition IncrementRedoCount : M LogDisk unit :=
  on_lg (λ l, set_redo_count (u32 (redo_count_ l + 1)) l).
Definition GetRedoCount : M LogDisk Z := gets (λ w, redo_count_ (lg w)).

(** ** The log as one sequence

    [hist] is every record appended since the log manager was created at LSN
    [base]; the first [k] of them are on disk and the others in the buffer. *)
Section Sequence.
Context `{MapOrder}.

Fixpoint span (recs : list LogRecord) : Z :=
  match recs with [] => 0 | r :: recs => Log_GetSize r + span recs end.

(** Records laid out one after the other from [base]. *)
Fixpoint chain (base : Z) (recs : list LogRecord) : Prop :=
  match recs with
  | [] => True
  | r :: recs => GetLSN r = base ∧ log_wf r ∧ Log_GetSize r <= LOG_SEGMENT_SIZE ∧
                 chain (base + Log_GetSize r) recs
  end.

(** The largest position used: a segment can still be added below 4 GiB. *)
Definition LOG_LIMIT : Z := 2 ^ 32 - 2 * LOG_SEGMENT_SIZE.

(** The record can be read from the log at its LSN. *)
Definition stored (d : Disk) (r : LogRecord) : Prop :=
  0 <= GetLSN r ∧ GetLSN r + Log_GetSize r <= mem_len (log_data d) ∧
  file_read (Z.to_nat (GetLSN r)) (Z.to_nat (Log_GetSize r)) (log_data d) = log_bytes r.

(** The value of the file [next_lsn]. *)
Definition next_file (d : Disk) : Z :=
  if FileExists (fs_ d) NEXT_LSN_NAME then
    read_u64 (String.string_of_list_byte (default [] (file_data (fs_ d) NEXT_LSN_NAME)))
  else FIRST_LSN.

Record log_inv (base : Z) (hist : list LogRecord) (k : nat) (w : LogDisk) : Prop := {
  li_base : 0 <= base;
  li_chain : chain base hist;
  li_next : next_lsn_ (lg w) = base + span hist;
  li_limit : base + span hist <= LOG_LIMIT;
  li_k : (k ≤ length hist)%nat;
  li_buffer : log_buffer_ (lg w) = drop k hist;
  li_flushed : match last (take k hist) with
    | Some r => GetLSN r <= flushed_lsn_ (lg w) < base + span (take k hist)
    | None => flushed_lsn_ (lg w) = u64 (base - 1)
    end;
  li_disk : disk_ok (dk w);
  li_log : log_ok (dk w);
  li_room : base + span (take k hist) <= mem_len (log_data (dk w));
  li_stored : ∀ r, r ∈ take k hist → stored (dk w) r;
  li_next_file : next_file (dk w) <= base + span (take k hist) ∧
    (k ≠ 0%nat → next_file (dk w) = base + span (take k hist))
}.

(** *** Chains *)

Lemma log_size_pos r : log_wf r → LOG_HEADER_SIZE <= Log_GetSize r.
Proof. intros Hr. rewrite Log_GetSize_wf by done. pose proof (body_size_nonneg _ (lw_body _ Hr)). lia. Qed.

Lemma span_app r1 r2 : span (r1 ++ r2) = span r1 + span r2.
Proof. induction r1 as [|r r1 IH]; simpl; lia. Qed.

Lemma chain_app base r1 r2 : chain base (r1 ++ r2) ↔ chain base r1 ∧ chain (base + span r1) r2.
Proof.
  revert base. induction r1 as [|r r1 IH]; intros base; simpl.
  - rewrite Z.add_0_r. naive_solver.
  - rewrite IH, Z.add_assoc. naive_solver.
Qed.

Lemma span_nonneg base recs : chain base recs → 0 <= span recs.
Proof.
  revert base. induction recs as [|r recs IH]; intros base; simpl; [done|].
  intros (_ & Hr & _ & Hc). apply IH in Hc. apply log_size_pos in Hr.
  assert (0 < LOG_HEADER_SIZE) by done. lia.
Qed.

Lemma chain_lsn base recs r :
  chain base recs → r ∈ recs →
  base <= GetLSN r ∧ GetLSN r + Log_GetSize r <= base + span recs ∧ log_wf r.
Proof.
  revert base. induction recs as [|r' recs IH]; intros base; simpl; [by intros _ ?%elem_of_nil|].
  intros (<- & Hr & _ & Hc) [->|Hin]%elem_of_cons.
  - pose proof (span_nonneg _ _ Hc). split; [lia|]. split; [lia|done].
  - destruct (IH _ Hc Hin) as (?&?&?). apply log_size_pos in Hr.
    assert (0 < LOG_HEADER_SIZE) by done. split; [lia|]. split; [lia|done].
Qed.

(** LSNs increase along a chain: those up to a bound are a prefix. *)
Lemma chain_split base recs lsn :
  chain base recs →
  ∃ r1 r2, recs = r1 ++ r2 ∧ (∀ r, r ∈ r1 → GetLSN r <= lsn) ∧ (∀ r, r ∈ r2 → lsn < GetLSN r).
Proof.
  revert base. induction recs as [|r recs IH]; intros base; simpl.
  { intros _. exists [], []. split; [done|]. split; intros ? ?%elem_of_nil; done. }
  intros (Hl & Hr & Hs & Hc). destruct (decide (GetLSN r <= lsn)) as [Hle|Hgt].
  - destruct (IH _ Hc) as (r1 & r2 & -> & H1 & H2). exists (r :: r1), r2.
    split; [done|]. split; [|done]. intros r' [->|?]%elem_of_cons; [done|by apply H1].
  - exists [], (r :: recs). split; [done|]. split; [by intros ? ?%elem_of_nil|].
    intros r' [->|Hin]%elem_of_cons; [lia|]. destruct (chain_lsn _ _ _ Hc Hin) as (? & _ & _).
    apply log_size_pos in Hr. assert (0 < LOG_HEADER_SIZE) by done. lia.
Qed.

(** *** One record to disk *)

Lemma WriteLog_log_ok d off n data :
  disk_ok d → log_ok d → 0 <= off → 0 <= n → n <= mem_len data → n <= LOG_SEGMENT_SIZE →
  off <= mem_len (log_data d) → off + n <= LOG_LIMIT →
  ∃ d', WriteLog off n data d = (Ok (), d') ∧ disk_ok d' ∧ log_ok d' ∧ log_only d d' ∧
    fs_names (fs_ d') = fs_names (fs_ d) ∧
    mem_len (log_data d) <= mem_len (log_data d') ∧ off + n <= mem_len (log_data d') ∧
    file_read (Z.to_nat off) (Z.to_nat n) (log_data d') = take (Z.to_nat n) data ∧
    (∀ o m, (o + m ≤ Z.to_nat off)%nat → (o + m ≤ length (log_data d))%nat →
      file_read o m (log_data d') = file_read o m (log_data d)) ∧
    next_file d' = next_file d.
Proof.
  intros Hok Hlog Ho Hn Hdata Hseg Hoff Hlim. pose proof Hlog as (Hlen & Hpos & Hmax).
  assert (0 < LOG_SEGMENT_SIZE) as Hs by done. unfold LOG_LIMIT in Hlim.
  pose proof (WriteLog_run d off n data Hok Hlog Ho Hn Hdata ltac:(nia)) as Hrun.
  destruct (WriteLog_ok d off n data Hok Hlog Ho Hn Hdata) as
    (d' & Hw & Hok' & Hnm & Hlen' & Hseg' & Hsame & Hother & Hpages); [nia|].
  assert (log_segments d <= log_segments d' ∧ off + n <= log_segments d' * LOG_SEGMENT_SIZE ∧
    (log_segments d' + 1) * LOG_SEGMENT_SIZE < 2 ^ 32) as (Hg1 & Hg2 & Hg3).
  { rewrite Hseg'. unfold grown.
    destruct (Z.ltb_spec (log_segments d * LOG_SEGMENT_SIZE) (off + n)); nia. }
  exists d'. split; [done|]. split; [done|]. split; [split; [done|]; lia|].
  split.
  { split; [intros path; intros; by rewrite Hnm| |unfold log_size; nia].
    intros path; intros. apply Hpages. intros ->.
    match goal with Hf : ¬ log_file _ |- _ => apply Hf end. by left. }
  split; [done|]. split; [nia|]. split; [lia|]. split; [done|]. split; [auto|].
  (* the text file is another inode than the log *)
  rewrite Hw in Hrun. injection Hrun as ->. unfold next_file, FileExists. rewrite Hnm.
  case_bool_decide; [|done]. do 3 f_equal.
  set (d0 := set_log_segments _ d). assert (disk_ok d0) as Hok0 by (by destruct Hok).
  assert (∀ b e, disk_ok e → file_data (fs_ (set_log_data b e)) NEXT_LSN_NAME
    = file_data (fs_ e) NEXT_LSN_NAME) as Hfd.
  { intros b e He. destruct (dk_log _ He) as (_ & i & Hi & Hni). unfold set_log_data. rewrite Hi.
    unfold file_data; simpl. destruct (fs_names (fs_ e) !! NEXT_LSN_NAME) as [j|] eqn:Hj; simpl; [|done].
    rewrite inode_data_set, decide_False; [done|]. intros ->.
    by pose proof (dk_inj _ He _ _ _ Hj Hni). }
  rewrite !Hfd; [done|done|]. by apply set_log_data_spec.
Qed.

Lemma on_dk_step {A B} (m : M Disk A) a d' (f : A → M LogDisk B) w :
  m (dk w) = (Ok a, d') → (on_dk m ≫= f) w = f a (mkLogDisk (lg w) d').
Proof. intros Hm. unfold mbind, M_bind, on_dk, zoom. by rewrite Hm. Qed.

Lemma stored_mono d d' r :
  stored d r → mem_len (log_data d) <= mem_len (log_data d') →
  (∀ o m, (o + m ≤ Z.to_nat (GetLSN r + Log_GetSize r))%nat → (o + m ≤ length (log_data d))%nat →
    file_read o m (log_data d') = file_read o m (log_data d)) →
  log_wf r → stored d' r.
Proof.
  intros (H1 & H2 & H3) Hle Hsame Hr. apply log_size_pos in Hr. assert (0 < LOG_HEADER_SIZE) by done.
  split; [done|]. split; [lia|]. rewrite Hsame; [done|lia|unfold mem_len in *; lia].
Qed.

(** *** The loop of [Flush] *)

Lemma flush_loop_kept lsn kept rest m s w :
  lsn ≠ NULL_LSN → (∀ r, r ∈ rest → lsn < GetLSN r) →
  flush_loop lsn kept rest m s w = (Ok (m, s), w).
Proof.
  intros Hne. revert kept. induction rest as [|r rest IH]; intros kept Hr; simpl; [done|].
  rewrite (proj2 (Z.eqb_neq _ _) Hne).
  rewrite (proj2 (Z.ltb_lt _ _)) by (apply Hr; by left). simpl.
  apply IH. intros r' ?. apply Hr. by right.
Qed.

(** The state after the records [b1] went to the disk [d'] and [b2] stayed. *)
Record flushed_to (base : Z) (b1 b2 : list LogRecord) (w w' : LogDisk) : Prop := {
  ft_lg : lg w' = set_log_buffer b2 (lg w);
  ft_disk : disk_ok (dk w');
  ft_log : log_ok (dk w');
  ft_only : log_only (dk w) (dk w');
  ft_len : mem_len (log_data (dk w)) <= mem_len (log_data (dk w'));
  ft_room : base + span b1 <= mem_len (log_data (dk w'));
  ft_stored : ∀ r, r ∈ b1 → stored (dk w') r;
  ft_before : ∀ o m, (o + m ≤ Z.to_nat base)%nat → (o + m ≤ length (log_data (dk w)))%nat →
    file_read o m (log_data (dk w')) = file_read o m (log_data (dk w));
  ft_next : next_file (dk w') = next_file (dk w)
}.

Lemma flush_loop_prefix lsn b1 : ∀ base b2 m s w,
  0 <= base → chain base b1 → base + span b1 <= LOG_LIMIT →
  lsn = NULL_LSN ∨ (∀ r, r ∈ b1 → GetLSN r <= lsn) →
  m = NULL_LSN ∨ m < base →
  disk_ok (dk w) → log_ok (dk w) → base <= mem_len (log_data (dk w)) →
  log_buffer_ (lg w) = b1 ++ b2 →
  ∃ w', flush_loop lsn [] (b1 ++ b2) m s w =
    flush_loop lsn [] b2 (match last b1 with Some r => GetLSN r | None => m end)
      (match last b1 with Some r => Log_GetSize r | None => s end) w' ∧
    flushed_to base b1 b2 w w'.
Proof.
  induction b1 as [|r b1 IH]; intros base b2 m s w Hb Hc Hlim Hlsn Hm Hok Hlog Hlen Hbuf.
  { exists w. split; [done|]. split; try done.
    - destruct w as [l d]; simpl in *. rewrite <- Hbuf. by destruct l.
    - simpl. lia.
    - by intros ? ?%elem_of_nil. }
  simpl in Hc. destruct Hc as (Hl & Hr & Hs & Hc). pose proof (span_nonneg _ _ Hc) as Hsp.
  pose proof (log_size_pos r Hr) as Hpos. assert (0 < LOG_HEADER_SIZE) as Hh by done.
  simpl in Hlim. pose proof (log_bytes_len r Hr) as Hbl.
  set (data := over (log_bytes r) (replicate (Z.to_nat (Log_GetSize r)) Byte.x00)).
  assert (data = log_bytes r) as Hdata.
  { unfold data, over. rewrite drop_ge; [by rewrite app_nil_r|]. rewrite length_replicate.
    unfold mem_len in Hbl. lia. }
  destruct (WriteLog_log_ok (dk w) base (Log_GetSize r) data) as
    (d' & Hw & Hok' & Hlog' & Honly & _ & Hmono & Hroom & Hsame & Hbefore & Hnext);
    [done|done|done|lia|rewrite Hdata; lia|done|done|lia|].
  assert (stored d' r) as Hst.
  { split; [lia|]. rewrite Hl. split; [done|]. rewrite Hsame, Hdata. apply take_ge.
    unfold mem_len in Hbl. lia. }
  set (w1 := mkLogDisk (set_log_buffer (b1 ++ b2) (lg w)) d').
  destruct (IH (base + Log_GetSize r) b2 (GetLSN r) (Log_GetSize r) w1) as (w' & Hrun & Hft);
    [lia|done|lia|destruct Hlsn as [?|Hlsn]; [by left|right; intros; apply Hlsn; by right]
    |right; lia|done|done|done|done|].
  exists w'. split.
  - simpl app. cbn [flush_loop].
    assert (negb (lsn =? NULL_LSN) && (lsn <? GetLSN r) = false) as ->.
    { destruct Hlsn as [-> | Hlsn]; [done|]. destruct (Z.ltb_spec lsn (GetLSN r)); [|by rewrite andb_false_r].
      specialize (Hlsn r ltac:(by left)). lia. }
    erewrite lift_step by (apply LogRecord_SerializeTo_spec; [done|];
      unfold mem_len; rewrite length_replicate; lia).
    cbv beta iota. rewrite Hl. fold data. erewrite on_dk_step by exact Hw.
    unfold on_lg. rewrite modify_step. cbn [lg dk]. fold w1. rewrite <- Hl.
    assert ((m =? NULL_LSN) || (m <? GetLSN r) = true) as ->.
    { destruct Hm as [-> | Hm]; [done|]. rewrite Hl, (proj2 (Z.ltb_lt _ _)) by done. apply orb_true_r. }
    cbv beta iota zeta. cbn [app]. unfold w1 in Hrun. rewrite Hrun.
    destruct b1 as [|r' b1]; [done|]. rewrite last_cons_cons.
    destruct (last (r' :: b1)) eqn:He; [done|]. by apply last_None in He.
  - destruct Hft as [G1 G2 G3 G4 G5 G6 G7 G8 G9]. simpl in *. split; try done.
    + by etrans.
    + simpl. lia.
    + simpl. lia.
    + intros r' [->|Hin]%elem_of_cons; [|by apply G7]. apply (stored_mono d'); try done.
      intros o m' ??. apply G8; lia.
    + intros o m' H1 H2. rewrite G8; [apply Hbefore; lia|lia|unfold mem_len in Hmono; lia].
    + by rewrite G9.
Qed.

(** *** [Flush] *)

Lemma NULL_LSN_val : NULL_LSN = 2 ^ 64 - 1.
Proof. done. Qed.

Lemma flushed_below base hist k w :
  log_inv base hist k w →
  flushed_lsn_ (lg w) = NULL_LSN ∨ flushed_lsn_ (lg w) < base + span (take k hist).
Proof.
  intros Hi. pose proof (li_flushed _ _ _ _ Hi) as Hf.
  destruct (last (take k hist)) as [r|] eqn:Hl; [right; lia|rewrite Hf].
  - apply last_None in Hl. rewrite Hl. simpl. pose proof (li_base _ _ _ _ Hi).
    pose proof (li_limit _ _ _ _ Hi). pose proof (span_nonneg _ _ (li_chain _ _ _ _ Hi)).
    unfold LOG_LIMIT in *. assert (0 < LOG_SEGMENT_SIZE) by done.
    destruct (decide (base = 0)) as [->|]; [by left|right]. rewrite u64_small; lia.
Qed.

(** The writes to the text file that end a flush of the records [b1]. *)
Lemma flush_end base hist k b1 w d lsn_last size_last :
  disk_ok d → lsn_last ≠ NULL_LSN →
  flushed_lsn_ (lg w) = NULL_LSN ∨ flushed_lsn_ (lg w) < lsn_last →
  u64 (lsn_last + size_last) = base + span (take k hist ++ b1) →
  next_file d < base + span (take k hist ++ b1) → 0 <= base + span (take k hist ++ b1) < 2 ^ 64 →
  ∃ d', (w2 ← get;
    if negb (lsn_last =? NULL_LSN) &&
       ((flushed_lsn_ (lg w2) =? NULL_LSN) || (flushed_lsn_ (lg w2) <? lsn_last)) then
      on_lg (set_flushed_lsn lsn_last) ;;
      next_lsn ← (if FileExists (fs_ (dk w2)) NEXT_LSN_NAME
                  then on_dk (read_number NEXT_LSN_NAME) else mret FIRST_LSN);
      let last := u64 (lsn_last + size_last) in
      if next_lsn <? last then on_dk (write_number NEXT_LSN_NAME last) else mret ()
    else mret ()) (mkLogDisk (lg w) d) = (Ok (), mkLogDisk (set_flushed_lsn lsn_last (lg w)) d') ∧
    disk_ok d' ∧ same_log d d' ∧ log_only d d' ∧ next_file d' = base + span (take k hist ++ b1).
Proof.
  intros Hok Hne Hfl Hlast Hnext Hrange. set (n := base + span (take k hist ++ b1)) in *.
  destruct (write_number_ok d NEXT_LSN_NAME n) as (d' & Hw & Hok' & Hsame & Honly & Hex & Hrd & _);
    [done|by left|done|].
  exists d'. split; [|split; [done|split; [done|split; [done|]]]].
  - rewrite get_step. rewrite (proj2 (Z.eqb_neq _ _) Hne). cbn [negb andb lg dk].
    assert ((flushed_lsn_ (lg w) =? NULL_LSN) || (flushed_lsn_ (lg w) <? lsn_last) = true) as ->.
    { destruct Hfl as [-> | Hfl]; [done|]. rewrite (proj2 (Z.ltb_lt _ _) Hfl). apply orb_true_r. }
    unfold on_lg. rewrite modify_step. cbn [lg dk]. rewrite Hlast. cbv zeta.
    assert ((if FileExists (fs_ d) NEXT_LSN_NAME then on_dk (read_number NEXT_LSN_NAME)
             else mret FIRST_LSN) (mkLogDisk (set_flushed_lsn lsn_last (lg w)) d) =
            (Ok (next_file d), mkLogDisk (set_flushed_lsn lsn_last (lg w)) d)) as Hr.
    { unfold next_file. by destruct (FileExists (fs_ d) NEXT_LSN_NAME). }
    rewrite (M_bind_step _ _ _ _ _ Hr), (proj2 (Z.ltb_lt _ _) Hnext).
    unfold on_dk, zoom. cbn [dk lg]. by rewrite Hw.
  - unfold next_file. rewrite Hex. unfold read_number, gets in Hrd. by injection Hrd.
Qed.

Lemma take_lsns base hist k lsn :
  chain base hist → (k ≤ length hist)%nat →
  ∃ b1 b2, hist = take k hist ++ b1 ++ b2 ∧ drop k hist = b1 ++ b2 ∧
    (lsn = NULL_LSN ∨ ∀ r, r ∈ b1 → GetLSN r <= lsn) ∧
    (lsn = NULL_LSN → b2 = []) ∧ (lsn ≠ NULL_LSN → ∀ r, r ∈ b2 → lsn < GetLSN r).
Proof.
  intros Hc Hk. destruct (decide (lsn = NULL_LSN)) as [->|Hne].
  - exists (drop k hist), []. rewrite app_nil_r, take_drop. split; [done|]. split; [done|].
    split; [by left|]. done.
  - rewrite <- (take_drop k hist), chain_app in Hc. destruct Hc as [_ Hc].
    destruct (chain_split _ _ lsn Hc) as (b1 & b2 & He & H1 & H2).
    exists b1, b2. rewrite <- He, take_drop. split; [done|]. split; [done|]. split; [by right|]. done.
Qed.

Lemma log_inv_flushed base hist k b1 b2 w w1 d' lsn :
  log_inv base hist k w → drop k hist = b1 ++ b2 → b1 ≠ [] →
  flushed_to (base + span (take k hist)) b1 b2 w w1 →
  disk_ok d' → same_log (dk w1) d' → next_file d' = base + span (take k hist ++ b1) →
  last b1 = Some lsn →
  log_inv base hist (k + length b1) (mkLogDisk (set_flushed_lsn (GetLSN lsn) (lg w1)) d').
Proof.
  intros Hi Hd Hne Hft Hok' (Hlf & Hls & Hld) Hnext Hlast.
  pose proof Hi as [G1 G2 G3 G4 G5 G6 G7 G8 G9 G10 G11 G12].
  destruct Hft as [F1 F2 F3 F4 F5 F6 F7 F8 F9].
  assert (take (k + length b1) hist = take k hist ++ b1) as Htake.
  { rewrite <- take_take_drop, Hd. by rewrite take_app_length. }
  assert (drop (k + length b1) hist = b2) as Hdrop.
  { rewrite <- drop_drop, Hd. apply drop_app_length. }
  assert (length (b1 ++ b2) = (length hist - k)%nat) as Hlen by (rewrite <- Hd; apply length_drop).
  rewrite length_app in Hlen.
  assert (chain base (take k hist)) as Hck.
  { rewrite <- (take_drop k hist), chain_app in G2. apply G2. }
  split; rewrite ?Htake, ?Hdrop; try done; cbn [lg dk]; rewrite ?F1; try done.
  - lia.
  - simpl. rewrite last_app, Hlast. split; [done|].
    assert (lsn ∈ take (k + length b1) hist) as Hin by (rewrite Htake; apply elem_of_app; right; by apply last_Some_elem_of).
    rewrite <- Htake. rewrite <- (take_drop (k + length b1) hist), chain_app in G2.
    destruct (chain_lsn _ _ _ (proj1 G2) Hin) as (_ & ? & Hr). apply log_size_pos in Hr.
    assert (0 < LOG_HEADER_SIZE) by done. lia.
  - destruct F3 as (L1 & L2 & L3). split; [rewrite Hld, Hls; done|]. by rewrite Hls.
  - rewrite span_app, Hld. lia.
  - intros r [Hr|Hr]%elem_of_app; unfold stored; rewrite Hld; [|by apply F7].
    destruct (chain_lsn _ _ _ Hck Hr) as (_ & Hle & Hwf).
    apply (stored_mono (dk w)); [by apply G11|done| |done].
    intros o m H1 H2. apply F8; [|done]. lia.
  - split; [lia|done].
Qed.

Lemma Flush_upto_ok base hist k w lsn :
  log_inv base hist k w →
  ∃ k' w', Flush_upto lsn w = (Ok (), w') ∧ log_inv base hist k' w' ∧ (k ≤ k')%nat ∧
    log_only (dk w) (dk w') ∧
    att_ (lg w') = att_ (lg w) ∧ dpt_ (lg w') = dpt_ (lg w) ∧ next_lsn_ (lg w') = next_lsn_ (lg w) ∧
    redo_count_ (lg w') = redo_count_ (lg w) ∧
    (∀ r, r ∈ hist → lsn = NULL_LSN ∨ GetLSN r <= lsn → r ∈ take k' hist).
Proof.
  intros Hi. pose proof Hi as [G1 G2 G3 G4 G5 G6 G7 G8 G9 G10 G11 G12].
  destruct (take_lsns base hist k lsn G2 G5) as (b1 & b2 & Hh & Hd & Hb1 & Hb2 & Hb2').
  pose proof G2 as Hc. rewrite Hh, chain_app, chain_app in Hc. destruct Hc as (Hck & Hc1 & Hc2).
  pose proof (span_nonneg _ _ Hck) as Hsk. pose proof (span_nonneg _ _ Hc1) as Hs1.
  pose proof (span_nonneg _ _ Hc2) as Hs2.
  assert (span hist = span (take k hist) + (span b1 + span b2)) as Hsp by (by rewrite Hh at 1; rewrite !span_app).
  destruct (flush_loop_prefix lsn b1 (base + span (take k hist)) b2 NULL_LSN 0 w) as (w1 & Hloop & Hft);
    [lia|done|lia|done|by left|done|done|done|by rewrite G6|].
  assert (∀ m s w2, flush_loop lsn [] b2 m s w2 = (Ok (m, s), w2)) as Hrest.
  { intros m s w2. destruct (decide (lsn = NULL_LSN)) as [E|E]; [by rewrite Hb2|].
    apply flush_loop_kept; auto. }
  rewrite Hrest in Hloop. unfold Flush_upto. unfold gets at 1.
  rewrite (M_bind_step _ _ w w (log_buffer_ (lg w))) by done. rewrite G6, Hd.
  rewrite (M_bind_step _ _ _ _ _ Hloop). cbv beta iota.
  destruct (last b1) as [r|] eqn:Hlast.
  - assert (b1 ≠ []) as Hne by (by intros ->).
    destruct (proj1 (last_Some _ _) Hlast) as [b1' ->].
    assert (chain (base + span (take k hist) + span b1') [r]) as (Hlr & Hwr & _ & _)
      by (rewrite chain_app in Hc1; apply Hc1).
    rewrite span_app in *. simpl span in *. rewrite Z.add_0_r in *.
    pose proof (log_size_pos r Hwr) as Hpr. assert (0 < LOG_HEADER_SIZE) as Hh0 by done.
    rewrite chain_app in Hc1. destruct Hc1 as [Hc1 _]. pose proof (span_nonneg _ _ Hc1) as Hs1'.
    unfold LOG_LIMIT in G4. assert (0 < LOG_SEGMENT_SIZE) as Hseg by done. pose proof NULL_LSN_val.
    destruct (flush_end base hist k (b1' ++ [r]) w1 (dk w1) (GetLSN r) (Log_GetSize r)) as
      (d' & Hend & Hok' & Hsame & Honly & Hnf).
    + apply Hft.
    + lia.
    + rewrite (ft_lg _ _ _ _ _ Hft). simpl. destruct (flushed_below _ _ _ _ Hi); [by left|right; lia].
    + rewrite !span_app. simpl. rewrite u64_small; lia.
    + rewrite (ft_next _ _ _ _ _ Hft), !span_app. simpl. lia.
    + rewrite !span_app. simpl. lia.
    + exists (k + length (b1' ++ [r]))%nat, (mkLogDisk (set_flushed_lsn (GetLSN r) (lg w1)) d').
      split; [destruct w1; exact Hend|].
      split; [by apply (log_inv_flushed base hist k (b1' ++ [r]) b2 w)|].
      split; [lia|]. split; [etrans; [apply Hft|done]|].
      rewrite (ft_lg _ _ _ _ _ Hft). simpl. do 4 (split; [done|]).
      intros r' Hr' Hlt. rewrite <- take_take_drop, Hd, take_app_length.
      rewrite Hh in Hr'. apply elem_of_app in Hr' as [?|[?|Hr']%elem_of_app]; [set_solver..|].
      destruct Hlt as [E|Hlt]; [rewrite (Hb2 E) in Hr'; by apply elem_of_nil in Hr'|].
      destruct (decide (lsn = NULL_LSN)) as [E|E]; [rewrite (Hb2 E) in Hr'; by apply elem_of_nil in Hr'|].
      specialize (Hb2' E r' Hr'). lia.
  - apply last_None in Hlast as ->. simpl in Hh, Hd.
    assert (w1 = w) as -> by (simpl in Hloop; rewrite Hrest in Hloop; by injection Hloop).
    rewrite get_step. exists k, w. split; [done|]. split; [done|]. split; [done|].
    split; [done|]. do 4 (split; [done|]).
    intros r' Hr' Hlt. rewrite Hh in Hr'. apply elem_of_app in Hr' as [?|Hr']; [done|].
    destruct (decide (lsn = NULL_LSN)) as [E|E]; [rewrite (Hb2 E) in Hr'; by apply elem_of_nil in Hr'|].
    specialize (Hb2' E r' Hr'). destruct Hlt; [done|lia].
Qed.

(** *** The transactions of the log *)

(** The active transaction table after each record. *)
Definition att_step (m : gmap Z Z) (r : LogRecord) : gmap Z Z :=
  match log_body_ r with
  | BeginLog | InsertLog _ _ _ _ _ _ | DeleteLog _ _ _ => <[GetXid r := GetLSN r]> m
  | NewPageLog _ _ _ => if GetXid r =? DDL_XID then m else <[GetXid r := GetLSN r]> m
  | CommitLog | RollbackLog => delete (GetXid r) m
  | BeginCheckpointLog | EndCheckpointLog _ _ => m
  end.
Definition att_of (hist : list LogRecord) : gmap Z Z := foldl att_step ∅ hist.

(** Each record points to the previous one of its transaction. *)
Definition prev_ok (m : gmap Z Z) (r : LogRecord) : Prop :=
  match log_body_ r with
  | BeginLog => m !! GetXid r = None ∧ GetPrevLSN r = NULL_LSN
  | BeginCheckpointLog | EndCheckpointLog _ _ => True
  | NewPageLog _ _ _ => GetXid r = DDL_XID ∨ m !! GetXid r = Some (GetPrevLSN r)
  | _ => m !! GetXid r = Some (GetPrevLSN r)
  end.
Fixpoint prev_chain (m : gmap Z Z) (hist : list LogRecord) : Prop :=
  match hist with
  | [] => True
  | r :: hist => prev_ok m r ∧ prev_chain (att_step m r) hist
  end.

Record hist_inv (hist : list LogRecord) (w : LogDisk) : Prop := {
  hi_att : att_ (lg w) = att_of hist;
  hi_prev : prev_chain ∅ hist;
  hi_dpt : ∀ k lsn, dpt_ (lg w) !! k = Some lsn →
    in_range 4 (table_oid_ k) ∧ in_range 4 (tp_page_id_ k) ∧ in_range 8 lsn
}.

Lemma att_of_snoc hist r : att_of (hist ++ [r]) = att_step (att_of hist) r.
Proof. unfold att_of. by rewrite foldl_app. Qed.

Lemma prev_chain_snoc m hist r :
  prev_chain m hist → prev_ok (foldl att_step m hist) r → prev_chain m (hist ++ [r]).
Proof. revert m. induction hist as [|r' hist IH]; simpl; intros m; [done|]. intros []. auto. Qed.

(** The entries of the table come from records of the log. *)
Lemma att_of_range base hist xid lsn :
  chain base hist → base + span hist <= LOG_LIMIT → 0 <= base →
  att_of hist !! xid = Some lsn → in_range 4 xid ∧ 0 <= lsn < 2 ^ 32.
Proof.
  intros Hc Hl Hb.
  assert (∀ r, r ∈ hist → in_range 4 (GetXid r) ∧ 0 <= GetLSN r < 2 ^ 32) as Hr.
  { intros r Hin. destruct (chain_lsn _ _ _ Hc Hin) as (H1 & H2 & Hw).
    split; [apply Hw|]. apply log_size_pos in Hw. assert (0 < LOG_HEADER_SIZE) by done.
    unfold LOG_LIMIT in Hl. assert (0 < LOG_SEGMENT_SIZE) by done. lia. }
  clear Hc. unfold att_of.
  assert (∀ m : gmap Z Z, (∀ x l, m !! x = Some l → in_range 4 x ∧ 0 <= l < 2 ^ 32) →
    ∀ x l, foldl att_step m hist !! x = Some l → in_range 4 x ∧ 0 <= l < 2 ^ 32) as Hgen.
  { clear Hl. induction hist as [|r hist IH]; intros m Hm; simpl; [done|].
    apply IH; [intros; apply Hr; by right|]. destruct (Hr r) as [Hx Hlr]; [by left|].
    assert (∀ x l, <[GetXid r := GetLSN r]> m !! x = Some l → in_range 4 x ∧ 0 <= l < 2 ^ 32) as Hins
      by (intros x l [[<- <-]|[_ ?]]%lookup_insert_Some; [by split|by apply Hm]).
    assert (∀ x l, delete (GetXid r) m !! x = Some l → in_range 4 x ∧ 0 <= l < 2 ^ 32) as Hdel
      by (intros x l [_ ?]%lookup_delete_Some; by apply Hm).
    unfold att_step. destruct (log_body_ r); try case_match; assumption. }
  by apply Hgen.
Qed.

Lemma log_inv_append base hist k w r l' :
  log_inv base hist k w → GetLSN r = next_lsn_ (lg w) → log_wf r →
  Log_GetSize r <= LOG_SEGMENT_SIZE → base + span hist + Log_GetSize r <= LOG_LIMIT →
  next_lsn_ l' = u64 (next_lsn_ (lg w) + Log_GetSize r) →
  log_buffer_ l' = log_buffer_ (lg w) ++ [r] → flushed_lsn_ l' = flushed_lsn_ (lg w) →
  log_inv base (hist ++ [r]) k (mkLogDisk l' (dk w)).
Proof.
  intros [G1 G2 G3 G4 G5 G6 G7 G8 G9 G10 G11 G12] Hl Hr Hs Hlim Hn Hb Hf.
  pose proof (span_nonneg _ _ G2). pose proof (log_size_pos r Hr). assert (0 < LOG_HEADER_SIZE) by done.
  unfold LOG_LIMIT in *. assert (0 < LOG_SEGMENT_SIZE) by done.
  assert (take k (hist ++ [r]) = take k hist) as Ht by (by rewrite take_app_le).
  split; simpl; rewrite ?Ht, ?span_app; simpl; try done.
  - apply chain_app. split; [done|]. simpl. by rewrite Hl, G3.
  - rewrite Hn, G3, u64_small; lia.
  - unfold LOG_LIMIT. lia.
  - rewrite length_app. lia.
  - by rewrite Hb, G6, drop_app_le.
  - by rewrite Hf.
Qed.

(** *** The operations *)

Inductive log_op :=
| OInsert (xid oid page_id slot_id offset size : Z) (new_record : bytes)
| ODelete (xid oid page_id slot_id : Z)
| ONewPage (xid oid prev_page_id page_id : Z)
| OBegin (xid : Z)
| OCommit (xid : Z)
| ORollback (xid : Z)
| OCheckpoint
| OFlushPage (oid page_id lsn : Z)
| OSetDirty (oid page_id lsn : Z)
| OFlush.

Definition run_log_op (op : log_op) : M LogDisk unit :=
  match op with
  | OInsert xid oid page_id slot_id offset size rec =>
      AppendInsertLog xid oid page_id slot_id offset size rec ;; mret ()
  | ODelete xid oid page_id slot_id => AppendDeleteLog xid oid page_id slot_id ;; mret ()
  | ONewPage xid oid prev page_id => AppendNewPageLog xid oid prev page_id ;; mret ()
  | OBegin xid => AppendBeginLog xid ;; mret ()
  | OCommit xid => AppendCommitLog xid ;; mret ()
  | ORollback xid => AppendRollbackLog xid ;; mret ()
  | OCheckpoint => Checkpoint false ;; mret ()
  | OFlushPage oid page_id lsn => LogManager_FlushPage oid page_id lsn
  | OSetDirty oid page_id lsn => LogManager_SetDirty oid page_id lsn
  | OFlush => LogManager_Flush
  end.

(** Arguments in the range of their types. *)
Definition op_args (op : log_op) : Prop :=
  match op with
  | OInsert xid oid page_id slot_id offset size rec =>
      in_range 4 xid ∧ in_range 4 oid ∧ in_range 4 page_id ∧ in_range 2 slot_id ∧
      in_range 2 offset ∧ in_range 2 size ∧ size <= mem_len rec
  | ODelete xid oid page_id slot_id =>
      in_range 4 xid ∧ in_range 4 oid ∧ in_range 4 page_id ∧ in_range 2 slot_id
  | ONewPage xid oid prev page_id =>
      in_range 4 xid ∧ in_range 4 oid ∧ in_range 4 prev ∧ in_range 4 page_id
  | OBegin xid | OCommit xid | ORollback xid => in_range 4 xid
  | OSetDirty oid page_id lsn => in_range 4 oid ∧ in_range 4 page_id ∧ in_range 8 lsn
  | OCheckpoint | OFlushPage _ _ _ | OFlush => True
  end.

(** The log space an operation needs. *)
Definition op_room (op : log_op) (w : LogDisk) : Z :=
  match op with
  | OInsert _ _ _ _ _ size _ => 27 + size
  | ODelete _ _ _ _ => 23
  | ONewPage _ _ _ _ => 25
  | OBegin _ | OCommit _ | ORollback _ => 13
  | OCheckpoint => 42 + 12 * Z.of_nat (size (att_ (lg w))) + 16 * Z.of_nat (size (dpt_ (lg w)))
  | _ => 0
  end.

(** What an operation leaves: more records, at least as many on disk. *)
Definition op_done (base : Z) (hist : list LogRecord) (k : nat) (w w' : LogDisk) : Prop :=
  ∃ new k', log_inv base (hist ++ new) k' w' ∧ hist_inv (hist ++ new) w' ∧ (k ≤ k')%nat ∧
    log_only (dk w) (dk w').

Lemma op_done_same base hist k w : log_inv base hist k w → hist_inv hist w → op_done base hist k w w.
Proof. intros. exists [], k. by rewrite app_nil_r. Qed.

Lemma dpt_add_range l k lsn k' lsn' :
  dpt_ (dpt_add k lsn l) !! k' = Some lsn' → dpt_ l !! k' = Some lsn' ∨ (k' = k ∧ lsn' = lsn).
Proof.
  unfold dpt_add. destruct (dpt_ l !! k) as [?|] eqn:Hk; [by left|]. simpl.
  intros [[<- <-]|[? ?]]%lookup_insert_Some; auto.
Qed.

Lemma dpt_add_same l k lsn :
  att_ (dpt_add k lsn l) = att_ l ∧ next_lsn_ (dpt_add k lsn l) = next_lsn_ l ∧
  flushed_lsn_ (dpt_add k lsn l) = flushed_lsn_ l ∧ log_buffer_ (dpt_add k lsn l) = log_buffer_ l.
Proof. unfold dpt_add. by destruct (dpt_ l !! k). Qed.

(** The state after [r] was appended. *)
Definition appended (r : LogRecord) (w : LogDisk) : LogManager :=
  let l := set_next_lsn (u64 (next_lsn_ (lg w) + Log_GetSize r)) (lg w) in
  set_log_buffer (log_buffer_ l ++ [r]) (set_att (att_step (att_ l) r) l).

Lemma append_inv base hist k w r l' :
  log_inv base hist k w → hist_inv hist w →
  GetLSN r = next_lsn_ (lg w) → log_wf r → prev_ok (att_of hist) r →
  Log_GetSize r <= LOG_SEGMENT_SIZE → base + span hist + Log_GetSize r <= LOG_LIMIT →
  att_ l' = att_ (appended r w) → next_lsn_ l' = next_lsn_ (appended r w) →
  log_buffer_ l' = log_buffer_ (appended r w) → flushed_lsn_ l' = flushed_lsn_ (lg w) →
  (∀ key lsn, dpt_ l' !! key = Some lsn → dpt_ (lg w) !! key = Some lsn ∨
    (in_range 4 (table_oid_ key) ∧ in_range 4 (tp_page_id_ key) ∧ lsn = GetLSN r)) →
  log_inv base (hist ++ [r]) k (mkLogDisk l' (dk w)) ∧ hist_inv (hist ++ [r]) (mkLogDisk l' (dk w)).
Proof.
  intros Hi [H1 H2 H3] Hl Hr Hp Hs Hlim Ha Hn Hb Hf Hd. split.
  - by apply (log_inv_append _ _ _ w).
  - pose proof (li_next _ _ _ _ Hi). pose proof (span_nonneg _ _ (li_chain _ _ _ _ Hi)).
    pose proof (li_base _ _ _ _ Hi). pose proof (log_size_pos r Hr). assert (0 < LOG_HEADER_SIZE) by done.
    unfold LOG_LIMIT in Hlim. assert (0 < LOG_SEGMENT_SIZE) by done.
    split; simpl.
    + rewrite Ha. simpl. by rewrite H1, att_of_snoc.
    + by apply prev_chain_snoc.
    + intros key lsn [?|(?&?&->)]%Hd; [by apply H3|]. do 2 (split; [done|]).
      unfold in_range. lia.
Qed.

Lemma AppendInsertLog_run xid oid page_id slot_id offset size rec prev w :
  att_ (lg w) !! xid = Some prev → 0 <= size <= mem_len rec →
  let r := mkLogRecord (next_lsn_ (lg w)) xid prev
             (InsertLog oid page_id slot_id offset size (take (Z.to_nat size) rec)) in
  AppendInsertLog xid oid page_id slot_id offset size rec w =
    (Ok (next_lsn_ (lg w)), mkLogDisk (dpt_add (mkTPid oid page_id) (next_lsn_ (lg w)) (appended r w)) (dk w)).
Proof.
  intros Ha Hs r. unfold AppendInsertLog. rewrite get_step, Ha.
  unfold InsertLog_new. rewrite mem_read_in, drop_0 by lia. reflexivity.
Qed.

Lemma AppendDeleteLog_run xid oid page_id slot_id prev w :
  att_ (lg w) !! xid = Some prev →
  let r := mkLogRecord (next_lsn_ (lg w)) xid prev (DeleteLog oid page_id slot_id) in
  AppendDeleteLog xid oid page_id slot_id w =
    (Ok (next_lsn_ (lg w)), mkLogDisk (dpt_add (mkTPid oid page_id) (next_lsn_ (lg w)) (appended r w)) (dk w)).
Proof. intros Ha r. unfold AppendDeleteLog. by rewrite get_step, Ha. Qed.

Lemma AppendBeginLog_run xid w :
  att_ (lg w) !! xid = None →
  let r := mkLogRecord (next_lsn_ (lg w)) xid NULL_LSN BeginLog in
  AppendBeginLog xid w = (Ok (next_lsn_ (lg w)), mkLogDisk (appended r w) (dk w)).
Proof. intros Ha r. unfold AppendBeginLog. by rewrite get_step, Ha. Qed.

(** The previous LSN a NEW_PAGE record gets. *)
Definition new_page_prev (xid : Z) (w : LogDisk) : Z :=
  if xid =? DDL_XID then NULL_XID else u32 (default 0 (att_ (lg w) !! xid)).

Lemma AppendNewPageLog_run xid oid prev page_id w :
  xid = DDL_XID ∨ is_Some (att_ (lg w) !! xid) →
  let r := mkLogRecord (next_lsn_ (lg w)) xid (new_page_prev xid w) (NewPageLog oid prev page_id) in
  let l := dpt_add (mkTPid oid page_id) (next_lsn_ (lg w)) (appended r w) in
  AppendNewPageLog xid oid prev page_id w =
    (Ok (next_lsn_ (lg w)), mkLogDisk
      (if prev =? NULL_PAGE_ID then l else dpt_add (mkTPid oid prev) (next_lsn_ (lg w)) l) (dk w)).
Proof.
  intros Hx r l. unfold AppendNewPageLog, l, r, new_page_prev. rewrite get_step.
  destruct (Z.eqb_spec xid DDL_XID) as [->|Hne].
  - by destruct (prev =? NULL_PAGE_ID).
  - destruct Hx as [?|[p Hp]]; [done|]. rewrite Hp. rewrite bool_decide_eq_false_2 by done.
    assert (∀ m lsn prev_lsn, att_step m (mkLogRecord lsn xid prev_lsn (NewPageLog oid prev page_id))
      = <[xid := lsn]> m) as Hstep.
    { intros. unfold att_step. simpl. by rewrite (proj2 (Z.eqb_neq _ _) Hne). }
    unfold appended. cbv zeta. rewrite Hstep. by destruct (prev =? NULL_PAGE_ID).
Qed.

(** *** Every operation keeps the invariants *)

Ltac log_size := unfold Log_GetSize; cbn [log_body_ body_size]; log_sizes; rewrite u32_small; [|lia].

Lemma in_range_att base hist k w xid prev :
  log_inv base hist k w → hist_inv hist w → att_ (lg w) !! xid = Some prev →
  in_range 4 xid ∧ in_range 8 prev ∧ 0 <= prev < 2 ^ 32 ∧ att_of hist !! xid = Some prev.
Proof.
  intros Hi Hh Ha. rewrite (hi_att _ _ Hh) in Ha.
  destruct (att_of_range base hist xid prev) as [? ?]; [apply Hi..|done|].
  unfold in_range in *. split; [done|]. split; [lia|done].
Qed.

(** What appending [r] leaves. *)
Definition append_done (base : Z) (hist : list LogRecord) (k : nat) (r : LogRecord) (w w' : LogDisk) : Prop :=
  dk w' = dk w ∧ log_inv base (hist ++ [r]) k w' ∧ hist_inv (hist ++ [r]) w'.

Lemma op_done_append base hist k w r w' : append_done base hist k r w w' → op_done base hist k w w'.
Proof. intros (Hd & ? & ?). exists [r], k. rewrite Hd. split; [done|]. split; [done|]. split; [lia|done]. Qed.

Lemma dpt_add_entries oid page_id lsn l key lsn' :
  in_range 4 oid → in_range 4 page_id →
  dpt_ (dpt_add (mkTPid oid page_id) lsn l) !! key = Some lsn' →
  dpt_ l !! key = Some lsn' ∨ (in_range 4 (table_oid_ key) ∧ in_range 4 (tp_page_id_ key) ∧ lsn' = lsn).
Proof. intros ?? [?|[-> ->]]%dpt_add_range; [by left|by right]. Qed.

Lemma Insert_done base hist k w xid oid page_id slot_id offset size rec prev :
  log_inv base hist k w → hist_inv hist w → att_ (lg w) !! xid = Some prev →
  op_args (OInsert xid oid page_id slot_id offset size rec) →
  base + span hist + (27 + size) <= LOG_LIMIT →
  let r := mkLogRecord (next_lsn_ (lg w)) xid prev
             (InsertLog oid page_id slot_id offset size (take (Z.to_nat size) rec)) in
  ∃ w', AppendInsertLog xid oid page_id slot_id offset size rec w = (Ok (next_lsn_ (lg w)), w') ∧
    append_done base hist k r w w'.
Proof.
  intros Hi Hh Ha (Hx & Ho & Hp & Hsl & Hof & Hs & Hrec) Hroom r.
  destruct (in_range_att _ _ _ _ _ _ Hi Hh Ha) as (_ & Hpr & _ & Hat).
  eexists. split; [apply AppendInsertLog_run; [done|unfold in_range in Hs; lia]|].
  fold r. unfold in_range in Hs.
  assert (log_wf r) as Hr.
  { split; simpl; [done|done| |log_sizes; lia]. do 4 (split; [done|]). split; [done|].
    unfold mem_len in *. rewrite length_take. lia. }
  assert (Log_GetSize r = 27 + size) as Hsz.
  { rewrite Log_GetSize_wf by done. unfold r. cbn [log_body_ body_size]. log_sizes. lia. }
  destruct (dpt_add_same (appended r w) (mkTPid oid page_id) (next_lsn_ (lg w))) as (E1 & E2 & E3 & E4).
  split; [done|]. apply append_inv; try done.
  - rewrite Hsz. change LOG_SEGMENT_SIZE with (2 ^ 20). lia.
  - by rewrite Hsz.
  - intros key lsn Hk. by apply (dpt_add_entries oid page_id _ _ _ _ Ho Hp) in Hk.
Qed.

Lemma Delete_done base hist k w xid oid page_id slot_id prev :
  log_inv base hist k w → hist_inv hist w → att_ (lg w) !! xid = Some prev →
  op_args (ODelete xid oid page_id slot_id) → base + span hist + 23 <= LOG_LIMIT →
  let r := mkLogRecord (next_lsn_ (lg w)) xid prev (DeleteLog oid page_id slot_id) in
  ∃ w', AppendDeleteLog xid oid page_id slot_id w = (Ok (next_lsn_ (lg w)), w') ∧
    append_done base hist k r w w'.
Proof.
  intros Hi Hh Ha (Hx & Ho & Hp & Hsl) Hroom r.
  destruct (in_range_att _ _ _ _ _ _ Hi Hh Ha) as (_ & Hpr & _ & Hat).
  eexists. split; [by apply AppendDeleteLog_run|]. fold r.
  assert (log_wf r) as Hr by (split; [done..|split; done|done]).
  destruct (dpt_add_same (appended r w) (mkTPid oid page_id) (next_lsn_ (lg w))) as (E1 & E2 & E3 & E4).
  split; [done|]. apply append_inv; try done.
  intros key lsn Hk. by apply (dpt_add_entries oid page_id _ _ _ _ Ho Hp) in Hk.
Qed.

Lemma Begin_done base hist k w xid :
  log_inv base hist k w → hist_inv hist w → att_ (lg w) !! xid = None → in_range 4 xid →
  base + span hist + 13 <= LOG_LIMIT →
  let r := mkLogRecord (next_lsn_ (lg w)) xid NULL_LSN BeginLog in
  ∃ w', AppendBeginLog xid w = (Ok (next_lsn_ (lg w)), w') ∧ append_done base hist k r w w'.
Proof.
  intros Hi Hh Ha Hx Hroom r. eexists. split; [by apply AppendBeginLog_run|].
  fold r. assert (log_wf r) as Hr by (by split).
  split; [done|]. apply append_inv; try done.
  - split; [by rewrite <- (hi_att _ _ Hh)|done].
  - intros key lsn Hk. by left.
Qed.

Lemma NewPage_done base hist k w xid oid prev page_id :
  log_inv base hist k w → hist_inv hist w → xid = DDL_XID ∨ is_Some (att_ (lg w) !! xid) →
  op_args (ONewPage xid oid prev page_id) → base + span hist + 25 <= LOG_LIMIT →
  let r := mkLogRecord (next_lsn_ (lg w)) xid (new_page_prev xid w) (NewPageLog oid prev page_id) in
  ∃ w', AppendNewPageLog xid oid prev page_id w = (Ok (next_lsn_ (lg w)), w') ∧
    append_done base hist k r w w'.
Proof.
  intros Hi Hh Hx (Hxr & Ho & Hpv & Hp) Hroom r. eexists. split; [by apply AppendNewPageLog_run|].
  fold r.
  assert (in_range 8 (new_page_prev xid w) ∧ (xid = DDL_XID ∨ att_of hist !! xid = Some (new_page_prev xid w)))
    as [Hnp Hat].
  { unfold new_page_prev. destruct (Z.eqb_spec xid DDL_XID); [by split; [|left]|].
    destruct Hx as [?|[p Hpp]]; [done|]. rewrite Hpp. simpl.
    destruct (in_range_att _ _ _ _ _ _ Hi Hh Hpp) as (_ & ? & ? & ?).
    rewrite u32_small by done. by split; [|right]. }
  assert (log_wf r) as Hr by (split; [done..|split; done|done]).
  set (l1 := dpt_add (mkTPid oid page_id) (next_lsn_ (lg w)) (appended r w)).
  set (l2 := if prev =? NULL_PAGE_ID then l1 else dpt_add (mkTPid oid prev) (next_lsn_ (lg w)) l1).
  assert (att_ l2 = att_ (appended r w) ∧ next_lsn_ l2 = next_lsn_ (appended r w) ∧
    flushed_lsn_ l2 = flushed_lsn_ (appended r w) ∧ log_buffer_ l2 = log_buffer_ (appended r w))
    as (E1 & E2 & E3 & E4).
  { destruct (dpt_add_same (appended r w) (mkTPid oid page_id) (next_lsn_ (lg w))) as (?&?&?&?).
    destruct (dpt_add_same l1 (mkTPid oid prev) (next_lsn_ (lg w))) as (?&?&?&?).
    unfold l2. destruct (prev =? NULL_PAGE_ID); unfold l1 in *; split_and!; congruence. }
  split; [done|]. apply append_inv; try done.
  intros key lsn Hk. unfold l2 in Hk.
  destruct (prev =? NULL_PAGE_ID); [by apply (dpt_add_entries oid page_id _ _ _ _ Ho Hp) in Hk|].
  apply (dpt_add_entries oid prev _ _ _ _ Ho Hpv) in Hk as [Hk|Hk]; [|by right].
  by apply (dpt_add_entries oid page_id _ _ _ _ Ho Hp) in Hk.
Qed.

Lemma take_lsn_run r w :
  take_lsn r w = (Ok (next_lsn_ (lg w)),
    mkLogDisk (set_next_lsn (u64 (next_lsn_ (lg w) + Log_GetSize r)) (lg w)) (dk w)).
Proof. done. Qed.

Lemma push_log_step {B} r (f : unit → M LogDisk B) w :
  (push_log r ≫= f) w =
  f () (mkLogDisk (set_log_buffer (log_buffer_ (lg w) ++ [r]) (lg w)) (dk w)).
Proof. done. Qed.

(** [AppendCommitLog] and [AppendRollbackLog] are the same function of the
    record they append. *)
Definition append_end (body : LogBody) (caller : string) (xid : Z) : M LogDisk Z :=
  w ← get;
  match att_ (lg w) !! xid with
  | None => not_in_att xid caller
  | Some prev =>
      let log := mkLogRecord NULL_LSN xid prev body in
      lsn ← take_lsn log;
      push_log (SetLSN lsn log) ;;
      Flush_upto lsn ;;
      on_lg (λ l, set_att (delete xid (att_ l)) l) ;;
      mret lsn
  end.
Lemma AppendCommitLog_end xid : AppendCommitLog xid = append_end CommitLog "AppendCommitLog" xid.
Proof. done. Qed.
Lemma AppendRollbackLog_end xid : AppendRollbackLog xid = append_end RollbackLog "AppendRollbackLog" xid.
Proof. done. Qed.

Lemma hist_inv_same hist w w' :
  hist_inv hist w → att_ (lg w') = att_ (lg w) → dpt_ (lg w') = dpt_ (lg w) → hist_inv hist w'.
Proof. intros [H1 H2 H3] Ha Hd. split; [by rewrite Ha|done|by rewrite Hd]. Qed.

(** A record that is on disk together with all the ones before it. *)
Lemma flushed_all base hist r k w :
  log_inv base (hist ++ [r]) k w → r ∈ take k (hist ++ [r]) → k = length (hist ++ [r]).
Proof.
  intros Hi Hin. pose proof (li_chain _ _ _ _ Hi) as Hc. pose proof (li_k _ _ _ _ Hi) as Hk.
  apply chain_app in Hc as [Hc (Hl & Hr & _)].
  destruct (decide (k ≤ length hist)%nat) as [Hle|].
  - rewrite take_app_le in Hin by done.
    assert (r ∈ hist) as Hrh by (rewrite <- (take_drop k hist); set_solver).
    destruct (chain_lsn _ _ _ Hc Hrh) as (_ & ? & _). apply log_size_pos in Hr.
    assert (0 < LOG_HEADER_SIZE) by done. lia.
  - rewrite length_app in *. simpl in *. lia.
Qed.

Lemma End_done base hist k w xid prev body caller :
  log_inv base hist k w → hist_inv hist w → att_ (lg w) !! xid = Some prev →
  body = CommitLog ∨ body = RollbackLog → base + span hist + 13 <= LOG_LIMIT →
  ∃ w', append_end body caller xid w = (Ok (next_lsn_ (lg w)), w') ∧
    let hist' := hist ++ [mkLogRecord (next_lsn_ (lg w)) xid prev body] in
    log_inv base hist' (length hist') w' ∧ hist_inv hist' w' ∧ log_only (dk w) (dk w').
Proof.
  intros Hi Hh Ha Hbody Hroom.
  destruct (in_range_att _ _ _ _ _ _ Hi Hh Ha) as (Hx & Hpr & _ & Hat).
  set (r := mkLogRecord (next_lsn_ (lg w)) xid prev body).
  assert (log_wf r) as Hr by (split; destruct Hbody as [-> | ->]; done).
  assert (Log_GetSize r = 13) as Hsz by (by unfold r; destruct Hbody as [-> | ->]).
  set (l1 := set_log_buffer (log_buffer_ (lg w) ++ [r])
    (set_next_lsn (u64 (next_lsn_ (lg w) + Log_GetSize r)) (lg w))).
  assert (log_inv base (hist ++ [r]) k (mkLogDisk l1 (dk w))) as Hi1.
  { apply (log_inv_append _ _ _ w); try done; rewrite Hsz; [done|lia]. }
  destruct (Flush_upto_ok _ _ _ _ (next_lsn_ (lg w)) Hi1) as
    (k' & w2 & Hfl & Hi2 & _ & Honly & Ha2 & Hd2 & Hn2 & _ & Hall).
  assert (k' = length (hist ++ [r])) as ->.
  { eapply flushed_all; [exact Hi2|]. apply Hall; [set_solver|right; done]. }
  exists (mkLogDisk (set_att (delete xid (att_ (lg w2))) (lg w2)) (dk w2)).
  split; [|split; [|split; [|done]]].
  - unfold append_end. rewrite get_step, Ha. cbv zeta.
    rewrite (M_bind_step _ _ _ _ _ (take_lsn_run _ _)).
    rewrite push_log_step.
    assert (Flush_upto (next_lsn_ (lg w)) (mkLogDisk l1 (dk w)) = (Ok (), w2)) as Hf by exact Hfl.
    rewrite (M_bind_step _ _ _ _ _ Hf). done.
  - by destruct Hi2; split.
  - destruct Hh as [H1 H2 H3]. split; simpl.
    + rewrite Ha2, att_of_snoc. simpl. rewrite H1. unfold att_step, r. simpl.
      by destruct Hbody as [-> | ->].
    + apply prev_chain_snoc; [done|]. unfold prev_ok, r. simpl.
      by destruct Hbody as [-> | ->].
    + rewrite Hd2. simpl. done.
Qed.

Lemma FlushPage_done base hist k w oid page_id lsn :
  log_inv base hist k w → hist_inv hist w →
  ∃ k' w', LogManager_FlushPage oid page_id lsn w = (Ok (), w') ∧
    log_inv base hist k' w' ∧ hist_inv hist w' ∧ (k ≤ k')%nat ∧ log_only (dk w) (dk w') ∧
    dpt_ (lg w') = delete (mkTPid oid page_id) (dpt_ (lg w)) ∧
    (∀ r, r ∈ hist → lsn = NULL_LSN ∨ GetLSN r <= lsn → r ∈ take k' hist).
Proof.
  intros Hi Hh. destruct (Flush_upto_ok _ _ _ _ lsn Hi) as
    (k' & w2 & Hfl & Hi2 & Hk & Honly & Ha2 & Hd2 & _ & _ & Hall).
  exists k', (mkLogDisk (set_dpt (delete (mkTPid oid page_id) (dpt_ (lg w2))) (lg w2)) (dk w2)).
  split; [|split; [by destruct Hi2; split|split; [|split; [done|split; [done|split; [|done]]]]]].
  - unfold LogManager_FlushPage. by rewrite (M_bind_step _ _ _ _ _ Hfl).
  - destruct Hh as [H1 H2 H3]. split; simpl; [by rewrite Ha2|done|].
    rewrite Hd2. intros key l [_ ?]%lookup_delete_Some. by apply H3.
  - simpl. by rewrite Hd2.
Qed.

Lemma log_inv_master base hist k w n :
  log_inv base hist k w → 0 <= n < 2 ^ 64 →
  ∃ d', write_number MASTER_RECORD_NAME n (dk w) = (Ok (), d') ∧
    log_inv base hist k (mkLogDisk (lg w) d') ∧ log_only (dk w) d'.
Proof.
  intros [G1 G2 G3 G4 G5 G6 G7 G8 G9 G10 G11 G12] Hn.
  destruct (write_number_ok (dk w) MASTER_RECORD_NAME n) as
    (d' & Hw & Hok & (S1 & S2 & S3) & Honly & _ & _ & Hother); [done|by right|done|].
  assert (next_file d' = next_file (dk w)) as Hnf.
  { unfold next_file. assert (NEXT_LSN_NAME ≠ MASTER_RECORD_NAME) as Hne by done.
    specialize (Hother _ Hne). rewrite Hother.
    assert (FileExists (fs_ d') NEXT_LSN_NAME = FileExists (fs_ (dk w)) NEXT_LSN_NAME) as ->; [|done].
    unfold FileExists. apply bool_decide_ext. unfold file_data in Hother.
    destruct (fs_names (fs_ d') !! NEXT_LSN_NAME), (fs_names (fs_ (dk w)) !! NEXT_LSN_NAME);
      simpl in Hother; try done. }
  exists d'. split; [done|]. split; [|done]. split; try done; cbn [lg dk].
  - destruct G9 as (L1 & L2 & L3). split; [rewrite S3, S2; done|]. by rewrite S2.
  - by rewrite S3.
  - intros r Hr. unfold stored. rewrite S3. by apply G11.
  - by rewrite Hnf.
Qed.

Lemma Checkpoint_done base hist k w :
  log_inv base hist k w → hist_inv hist w →
  op_room OCheckpoint w <= LOG_SEGMENT_SIZE → base + span hist + op_room OCheckpoint w <= LOG_LIMIT →
  ∃ lsn w', Checkpoint false w = (Ok lsn, w') ∧
    let begin := mkLogRecord (next_lsn_ (lg w)) NULL_XID NULL_LSN BeginCheckpointLog in
    let end_ := mkLogRecord lsn NULL_XID NULL_LSN (EndCheckpointLog (att_ (lg w)) (dpt_ (lg w))) in
    let hist' := hist ++ [begin] ++ [end_] in
    lsn = next_lsn_ (lg w) + 13 ∧
    log_inv base hist' (length hist') w' ∧ hist_inv hist' w' ∧ log_only (dk w) (dk w').
Proof.
  intros Hi Hh Hseg Hroom. unfold op_room in *.
  pose proof (span_nonneg _ _ (li_chain _ _ _ _ Hi)) as Hsp.
  pose proof (li_base _ _ _ _ Hi) as Hb. pose proof (li_next _ _ _ _ Hi) as Hn.
  unfold LOG_LIMIT in Hroom. assert (0 < LOG_SEGMENT_SIZE) as Hs0 by done.
  set (b := mkLogRecord (next_lsn_ (lg w)) NULL_XID NULL_LSN BeginCheckpointLog).
  set (l1 := set_log_buffer (log_buffer_ (lg w) ++ [b])
    (set_next_lsn (u64 (next_lsn_ (lg w) + Log_GetSize b)) (lg w))).
  assert (log_wf b) as Hbw by done.
  assert (log_inv base (hist ++ [b]) k (mkLogDisk l1 (dk w))) as Hi1.
  { apply (log_inv_append _ _ _ w); try done. unfold LOG_LIMIT. change (Log_GetSize b) with 13. lia. }
  assert (next_lsn_ l1 = next_lsn_ (lg w) + 13) as Hn1.
  { simpl. change (Log_GetSize b) with 13. rewrite u64_small; lia. }
  set (e := mkLogRecord (next_lsn_ l1) NULL_XID NULL_LSN (EndCheckpointLog (att_ (lg w)) (dpt_ (lg w)))).
  assert (log_wf e) as Hew.
  { split; [done|done| |simpl; log_sizes; lia]. split.
    - intros xid lsn Hx. by destruct (in_range_att _ _ _ _ _ _ Hi Hh Hx) as (?&?&_).
    - apply Hh. }
  assert (Log_GetSize e = 29 + 12 * Z.of_nat (size (att_ (lg w))) + 16 * Z.of_nat (size (dpt_ (lg w)))) as Hes.
  { rewrite Log_GetSize_wf by done. unfold e. cbn [log_body_ body_size]. log_sizes. lia. }
  set (l2 := set_log_buffer (log_buffer_ l1 ++ [e])
    (set_next_lsn (u64 (next_lsn_ l1 + Log_GetSize e)) l1)).
  assert (log_inv base ((hist ++ [b]) ++ [e]) k (mkLogDisk l2 (dk w))) as Hi2.
  { apply (log_inv_append _ _ _ (mkLogDisk l1 (dk w))); try done; [lia|].
    rewrite span_app. simpl span. change (Log_GetSize b) with 13. unfold LOG_LIMIT. lia. }
  destruct (Flush_upto_ok _ _ _ _ (next_lsn_ l1) Hi2) as
    (k' & w2 & Hfl & Hi3 & _ & Honly & Ha2 & Hd2 & _ & _ & Hall).
  assert (k' = length ((hist ++ [b]) ++ [e])) as ->.
  { eapply flushed_all; [exact Hi3|]. apply Hall; [set_solver|right; done]. }
  destruct (log_inv_master _ _ _ w2 (next_lsn_ (lg w)) Hi3) as (d' & Hw & Hi4 & Honly'); [lia|].
  exists (next_lsn_ l1), (mkLogDisk (lg w2) d'). rewrite (app_assoc hist [b]). split; [|split; [done|split; [done|split; [|by etrans]]]].
  - unfold Checkpoint. cbv zeta. rewrite (M_bind_step _ _ _ _ _ (take_lsn_run _ _)).
    rewrite push_log_step, get_step.
    rewrite (M_bind_step _ _ _ _ _ (take_lsn_run _ _)).
    rewrite push_log_step.
    assert (Flush_upto (next_lsn_ l1) (mkLogDisk l2 (dk w)) = (Ok (), w2)) as Hf by exact Hfl.
    rewrite (M_bind_step _ _ _ _ _ Hf). by erewrite on_dk_step by exact Hw.
  - destruct Hh as [H1 H2 H3]. split; cbn [lg].
    + rewrite Ha2, !att_of_snoc. done.
    + by repeat apply prev_chain_snoc.
    + by rewrite Hd2.
Qed.

Lemma op_done_end base hist k w r w' :
  log_inv base (hist ++ [r]) (length (hist ++ [r])) w' → hist_inv (hist ++ [r]) w' →
  (k ≤ length hist)%nat → log_only (dk w) (dk w') → op_done base hist k w w'.
Proof.
  intros. exists [r], (length (hist ++ [r])). split; [done|]. split; [done|].
  split; [rewrite length_app; lia|done].
Qed.

Lemma run_to_unit {A} (m : M LogDisk A) r w w' :
  m w = (r, w') → ∃ r', (m ;; mret ()) w = (r', w').
Proof. unfold mbind, M_bind. intros ->. destruct r; eauto. Qed.

Lemma run_log_op_ok base hist k op w :
  log_inv base hist k w → hist_inv hist w → op_args op →
  op_room op w <= LOG_SEGMENT_SIZE → next_lsn_ (lg w) + op_room op w <= LOG_LIMIT →
  ∃ res w', run_log_op op w = (res, w') ∧ op_done base hist k w w'.
Proof.
  intros Hi Hh Hargs Hseg Hroom. rewrite (li_next _ _ _ _ Hi) in Hroom.
  pose proof (li_k _ _ _ _ Hi) as Hk.
  assert (∀ {A} (m : M LogDisk A) r w', m w = (r, w') → op_done base hist k w w' →
    ∃ res w', (m ;; mret ()) w = (res, w') ∧ op_done base hist k w w') as Hfin.
  { intros A m r w' Hm Hd. destruct (run_to_unit m r w w' Hm) as [r' Hr]. eauto. }
  assert (∀ {A} (m : M LogDisk A) e, m w = (Err e, w) →
    ∃ res w', (m ;; mret ()) w = (res, w') ∧ op_done base hist k w w') as Herr.
  { intros A m e Hm. eapply Hfin; [exact Hm|]. by apply op_done_same. }
  destruct op as [xid oid pid sid off sz rec|xid oid pid sid|xid oid prev pid|xid|xid|xid| |oid pid lsn|oid pid lsn|];
    cbn [run_log_op op_room] in *.
  - destruct (att_ (lg w) !! xid) as [prev|] eqn:Ha.
    + destruct (Insert_done _ _ _ _ _ _ _ _ _ _ _ _ Hi Hh Ha Hargs Hroom) as (w' & Hr & Hd). eapply Hfin; [exact Hr|]. by eapply op_done_append.
    + eapply Herr. unfold AppendInsertLog. by rewrite get_step, Ha.
  - destruct (att_ (lg w) !! xid) as [prev|] eqn:Ha.
    + destruct (Delete_done _ _ _ _ _ _ _ _ _ Hi Hh Ha Hargs Hroom) as (w' & Hr & Hd). eapply Hfin; [exact Hr|]. by eapply op_done_append.
    + eapply Herr. unfold AppendDeleteLog. by rewrite get_step, Ha.
  - destruct (decide (xid = DDL_XID ∨ is_Some (att_ (lg w) !! xid))) as [Hx|Hx].
    + destruct (NewPage_done _ _ _ _ _ _ _ _ Hi Hh Hx Hargs Hroom) as (w' & Hr & Hd). eapply Hfin; [exact Hr|]. by eapply op_done_append.
    + eapply Herr. unfold AppendNewPageLog. rewrite get_step.
      rewrite (proj2 (Z.eqb_neq xid DDL_XID)) by tauto.
      rewrite bool_decide_eq_true_2; [done|]. apply eq_None_not_Some. tauto.
  - destruct (att_ (lg w) !! xid) as [prev|] eqn:Ha.
    + eapply Herr. unfold AppendBeginLog. by rewrite get_step, Ha.
    + destruct (Begin_done _ _ _ _ _ Hi Hh Ha Hargs Hroom) as (w' & Hr & Hd). eapply Hfin; [exact Hr|]. by eapply op_done_append.
  - rewrite AppendCommitLog_end. destruct (att_ (lg w) !! xid) as [prev|] eqn:Ha.
    + destruct (End_done _ _ _ _ _ _ CommitLog "AppendCommitLog" Hi Hh Ha (or_introl eq_refl) Hroom)
        as (w' & Hr & H1 & H2 & H3). eapply Hfin; [exact Hr|]. by eapply op_done_end.
    + eapply Herr. unfold append_end. by rewrite get_step, Ha.
  - rewrite AppendRollbackLog_end. destruct (att_ (lg w) !! xid) as [prev|] eqn:Ha.
    + destruct (End_done _ _ _ _ _ _ RollbackLog "AppendRollbackLog" Hi Hh Ha (or_intror eq_refl) Hroom)
        as (w' & Hr & H1 & H2 & H3). eapply Hfin; [exact Hr|]. by eapply op_done_end.
    + eapply Herr. unfold append_end. by rewrite get_step, Ha.
  - destruct (Checkpoint_done _ _ _ _ Hi Hh Hseg Hroom) as (lsn & w' & Hr & _ & H1 & H2 & H3).
    eapply Hfin; [exact Hr|]. eexists _, _. split; [exact H1|]. split; [exact H2|].
    split; [rewrite length_app; lia|done].
  - destruct (FlushPage_done _ _ _ _ oid pid lsn Hi Hh) as (k' & w' & Hr & H1 & H2 & H3 & H4 & _).
    exists (Ok ()), w'. split; [done|]. exists [], k'. by rewrite app_nil_r.
  - eexists _, _. split; [reflexivity|]. unfold LogManager_SetDirty, on_lg, modify.
    exists [], k. rewrite app_nil_r. destruct (dpt_add_same (lg w) (mkTPid oid pid) lsn) as (E1 & E2 & E3 & E4).
    split; [|split; [|done]].
    + destruct Hi. split; cbn [lg dk]; rewrite ?E2, ?E3, ?E4; done.
    + destruct Hh as [H1 H2 H3]. split; cbn [lg]; [by rewrite E1|done|].
      intros key l [?|[-> ->]]%dpt_add_range; [by apply H3|done].
  - destruct (Flush_upto_ok _ _ _ _ NULL_LSN Hi) as (k' & w' & Hr & H1 & H2 & H3 & H4 & H5 & _).
    exists (Ok ()), w'. split; [done|]. exists [], k'. rewrite app_nil_r.
    split; [done|]. split; [by apply (hist_inv_same _ w)|]. done.
Qed.

(** ** Histories of a log manager *)

(** The states reached from a log manager created at [base] on a disk whose
    log holds what comes before. *)
Inductive log_reached (base : Z) : LogDisk → Prop :=
| reached_init d :
    0 <= base <= LOG_LIMIT → disk_ok d → log_ok d → base <= mem_len (log_data d) →
    next_file d <= base → log_reached base (mkLogDisk (LogManager_new base) d)
| reached_log_op w op res w' :
    log_reached base w → op_args op → op_room op w <= LOG_SEGMENT_SIZE →
    next_lsn_ (lg w) + op_room op w <= LOG_LIMIT →
    run_log_op op w = (res, w') → log_reached base w'.

Lemma log_reached_run base w op :
  log_reached base w → op_args op → op_room op w <= LOG_SEGMENT_SIZE →
  next_lsn_ (lg w) + op_room op w <= LOG_LIMIT → log_reached base (run_log_op op w).2.
Proof.
  intros Hw Ha Hs Hr. destruct (run_log_op op w) as [res w'] eqn:Hrun.
  exact (reached_log_op base w op res w' Hw Ha Hs Hr Hrun).
Qed.

Lemma log_inv_init base d :
  0 <= base <= LOG_LIMIT → disk_ok d → log_ok d → base <= mem_len (log_data d) → next_file d <= base →
  log_inv base [] 0 (mkLogDisk (LogManager_new base) d) ∧
  hist_inv [] (mkLogDisk (LogManager_new base) d).
Proof.
  intros Hb Hok Hlog Hlen Hnf. split; split; simpl; rewrite ?Z.add_0_r; try done; try lia.
  by intros r ?%elem_of_nil.
Qed.

Lemma log_reached_inv base w :
  log_reached base w → ∃ hist k, log_inv base hist k w ∧ hist_inv hist w.
Proof.
  induction 1 as [d Hb Hok Hlog Hlen Hnf|w op res w' _ (hist & k & Hi & Hh) Hargs Hseg Hroom Hrun].
  - exists [], 0%nat. by apply log_inv_init.
  - destruct (run_log_op_ok base hist k op w Hi Hh Hargs Hseg Hroom) as
      (res2 & w2 & Hrun2 & new & k' & Hi2 & Hh2 & _).
    rewrite Hrun2 in Hrun. injection Hrun as <- <-. eauto.
Qed.

(** A record can be read from the disk as recovery reads it. *)
Definition on_disk (d : Disk) (r : LogRecord) : Prop :=
  ∃ data, ReadLog (GetLSN r) (Log_GetSize r) d = (Ok data, d) ∧
          LogRecord_DeserializeFrom (GetLSN r) data = Ok r.

Lemma stored_on_disk base hist k w r :
  log_inv base hist k w → r ∈ take k hist → on_disk (dk w) r.
Proof.
  intros Hi Hin. destruct (li_stored _ _ _ _ Hi r Hin) as (H1 & H2 & H3).
  assert (r ∈ hist) as Hr by (rewrite <- (take_drop k hist); set_solver).
  destruct (chain_lsn _ _ _ (li_chain _ _ _ _ Hi) Hr) as (H4 & H5 & Hw).
  pose proof (log_size_pos r Hw) as Hp. pose proof (li_limit _ _ _ _ Hi) as Hl.
  assert (0 < LOG_HEADER_SIZE) by done. unfold LOG_LIMIT in Hl. assert (0 < LOG_SEGMENT_SIZE) by done.
  exists (log_bytes r). split.
  - rewrite ReadLog_ok by (done || lia || apply Hi). by rewrite H3.
  - apply (LogRecord_DeserializeFrom_spec r); [done|]. unfold at_off.
    rewrite mem_read_in, drop_0, take_ge by (done || (unfold mem_len; lia)). done.
Qed.

(** ** Properties *)

(** C25: in every reachable state the log is one sequence of records laid out
    without gaps from the initial LSN to the next one, the buffer is its tail,
    every record before the buffer can be read back from the disk, the active
    transaction table is what the records say, and each record points to the
    previous one of its transaction. *)
Theorem log_is_a_sequence base w :
  log_reached base w →
  ∃ flushed, let hist := flushed ++ log_buffer_ (lg w) in
    chain base hist ∧ next_lsn_ (lg w) = base + span hist ∧
    (∀ r, r ∈ flushed → on_disk (dk w) r) ∧
    att_ (lg w) = att_of hist ∧ prev_chain ∅ hist.
Proof.
  intros (hist & k & Hi & Hh)%log_reached_inv. exists (take k hist).
  rewrite (li_buffer _ _ _ _ Hi). cbv zeta. rewrite take_drop.
  split; [apply Hi|]. split; [apply Hi|]. split; [|split; apply Hh].
  intros r Hr. by eapply stored_on_disk.
Qed.

(** C18: when [AppendCommitLog] returns, the commit record and every record
    appended before it can be read back from the disk, nothing is left in the
    buffer, and the file [next_lsn] holds the position after the commit. *)
Theorem commit_is_durable base w xid prev :
  log_reached base w → att_ (lg w) !! xid = Some prev → next_lsn_ (lg w) + 13 <= LOG_LIMIT →
  ∃ lsn w' hist, AppendCommitLog xid w = (Ok lsn, w') ∧
    chain base (hist ++ [mkLogRecord lsn xid prev CommitLog]) ∧
    (∀ r, r ∈ hist ++ [mkLogRecord lsn xid prev CommitLog] → on_disk (dk w') r) ∧
    (∀ r, r ∈ log_buffer_ (lg w) → r ∈ hist) ∧ log_buffer_ (lg w') = [] ∧
    att_ (lg w') !! xid = None ∧ next_file (dk w') = next_lsn_ (lg w').
Proof.
  intros (hist & k & Hi & Hh)%log_reached_inv Ha Hroom. rewrite (li_next _ _ _ _ Hi) in Hroom.
  destruct (End_done _ _ _ _ _ _ CommitLog "AppendCommitLog" Hi Hh Ha (or_introl eq_refl) Hroom)
    as (w' & Hr & Hi' & Hh' & _). cbv zeta in Hi', Hh'.
  set (r := mkLogRecord (next_lsn_ (lg w)) xid prev CommitLog) in *.
  exists (next_lsn_ (lg w)), w', hist. split; [exact Hr|]. fold r. split; [apply Hi'|].
  split; [|split; [|split; [|split]]].
  - intros r' Hin. eapply stored_on_disk; [exact Hi'|]. by rewrite take_ge.
  - intros r' Hin. rewrite (li_buffer _ _ _ _ Hi) in Hin. rewrite <- (take_drop k hist). set_solver.
  - rewrite (li_buffer _ _ _ _ Hi'). by apply drop_ge.
  - rewrite (hi_att _ _ Hh'), att_of_snoc. unfold att_step, r. simpl. apply lookup_delete_eq.
  - destruct (li_next_file _ _ _ _ Hi') as [_ Hnf]. rewrite Hnf by (rewrite length_app; simpl; lia).
    rewrite take_ge by done. by rewrite (li_next _ _ _ _ Hi').
Qed.

(** [FlushPage] obeys the write-ahead rule: when it returns, every record up
    to the LSN of the page can be read back from the disk; it removes the page
    from the dirty page table and touches no page file. *)
Theorem flush_page_writes_log_first base w oid page_id lsn :
  log_reached base w →
  ∃ w' hist, LogManager_FlushPage oid page_id lsn w = (Ok (), w') ∧
    (∀ r, r ∈ log_buffer_ (lg w) → r ∈ hist) ∧ chain base hist ∧
    (∀ r, r ∈ hist → GetLSN r <= lsn → on_disk (dk w') r) ∧
    dpt_ (lg w') = delete (mkTPid oid page_id) (dpt_ (lg w)) ∧
    (∀ path pid, ¬ log_file path → page_at (dk w') path pid = page_at (dk w) path pid).
Proof.
  intros (hist & k & Hi & Hh)%log_reached_inv.
  destruct (FlushPage_done _ _ _ _ oid page_id lsn Hi Hh) as (k' & w' & Hr & Hi' & _ & _ & Honly & Hd & Hall).
  exists w', hist. split; [done|]. split; [|split; [apply Hi|split; [|split; [done|apply Honly]]]].
  - intros r Hin. rewrite (li_buffer _ _ _ _ Hi) in Hin. rewrite <- (take_drop k hist). set_solver.
  - intros r Hin Hle. eapply stored_on_disk; [exact Hi'|]. apply Hall; [done|by right].
Qed.

End Sequence.

(** *** A concrete history: transaction 5 begins and deletes a record *)

Lemma ex_next_file d :
  (∀ path, path ≠ LOG_NAME → file_data (fs_ d) path = file_data ex_fs path) → next_file d = 0.
Proof.
  intros Hf. unfold next_file, FileExists. specialize (Hf NEXT_LSN_NAME ltac:(done)). unfold ex_fs in Hf.
  rewrite WriteFile_other in Hf by (apply Fs_empty_wf ||
    (intros He; pose proof (GetFilePath_has_slash 3 10001) as Hs; by rewrite <- He in Hs)).
  unfold file_data in Hf. destruct (fs_names (fs_ d) !! NEXT_LSN_NAME); [done|].
  rewrite bool_decide_eq_false_2; [done|]. by intros [? ?].
Qed.

Lemma ex_log_start :
  ∃ d, Disk_new ex_fs = Ok d ∧ log_reached 0 (mkLogDisk (LogManager_new 0) d).
Proof.
  destruct ex_disk_exists as (d & Hd & Hok & Hlog & H1 & Hf). exists d. split; [done|].
  apply reached_init; try done. by rewrite (ex_next_file d Hf).
Qed.

Lemma ex_log_reached :
  ∃ w, log_reached 0 w ∧ att_ (lg w) !! 5 = Some 13 ∧ next_lsn_ (lg w) = 36 ∧
    log_buffer_ (lg w) = [mkLogRecord 0 5 NULL_LSN BeginLog; mkLogRecord 13 5 0 (DeleteLog 10001 0 3)].
Proof.
  destruct ex_log_start as (d & _ & Hr).
  exists (run_log_op (ODelete 5 10001 0 3)
    (run_log_op (OBegin 5) (mkLogDisk (LogManager_new 0) d)).2).2.
  split; [|done].
  apply log_reached_run; [apply log_reached_run; [exact Hr|done..]|done..].
Qed.

Lemma log_is_a_sequence_witness :
  ∃ w, next_lsn_ (lg w) = 36 ∧ ∃ flushed, let hist := flushed ++ log_buffer_ (lg w) in
    chain 0 hist ∧ next_lsn_ (lg w) = 0 + span hist ∧
    (∀ r, r ∈ flushed → on_disk (dk w) r) ∧ att_ (lg w) = att_of hist ∧ prev_chain ∅ hist.
Proof.
  destruct ex_log_reached as (w & Hr & _ & Hn & _). exists w. split; [exact Hn|].
  exact (log_is_a_sequence 0 w Hr).
Defined.

Lemma commit_is_durable_witness :
  ∃ w, next_lsn_ (lg w) = 36 ∧ ∃ lsn w' hist, AppendCommitLog 5 w = (Ok lsn, w') ∧
    chain 0 (hist ++ [mkLogRecord lsn 5 13 CommitLog]) ∧
    (∀ r, r ∈ hist ++ [mkLogRecord lsn 5 13 CommitLog] → on_disk (dk w') r) ∧
    (∀ r, r ∈ log_buffer_ (lg w) → r ∈ hist) ∧ log_buffer_ (lg w') = [] ∧
    att_ (lg w') !! 5 = None ∧ next_file (dk w') = next_lsn_ (lg w').
Proof.
  destruct ex_log_reached as (w & Hr & Ha & Hn & _). exists w. split; [exact Hn|].
  exact (commit_is_durable 0 w 5 13 Hr Ha ltac:(rewrite Hn; done)).
Defined.

Lemma flush_page_writes_log_first_witness :
  ∃ w, next_lsn_ (lg w) = 36 ∧ ∃ w' hist, LogManager_FlushPage 10001 0 13 w = (Ok (), w') ∧
    (∀ r, r ∈ log_buffer_ (lg w) → r ∈ hist) ∧ chain 0 hist ∧
    (∀ r, r ∈ hist → GetLSN r <= 13 → on_disk (dk w') r) ∧
    dpt_ (lg w') = delete (mkTPid 10001 0) (dpt_ (lg w)) ∧
    (∀ path pid, ¬ log_file path → page_at (dk w') path pid = page_at (dk w) path pid).
Proof.
  destruct ex_log_reached as (w & Hr & _ & Hn & _). exists w. split; [exact Hn|].
  exact (flush_page_writes_log_first 0 w 10001 0 13 Hr).
Defined.
