(* ===== verification/BufferPool.v ===== *)
(** [src/src/storage/buffer_pool.h] and [buffer_pool.cpp]: the cache of pages.

    Pages are shared: [GetPage] returns a [shared_ptr] that stays usable after
    the page was evicted, so pages live in a heap and a buffer entry holds the
    location of its page. The buffer pool knows the log manager through the
    class [Wal]; what it needs of it is stated by [WalSpec]. *)
From S2P Require Import Prelude Memory Types Disk Value Bitmap Column Record TablePage Lru.

(** ** The interface to the log manager *)

(** A log manager with the disk it writes to; [wal_flush_page] is
    [LogManager::FlushPage]. *)
Class Wal (L : Type) := {
  wal_disk : L → Disk;
  wal_set_disk : Disk → L → L;
  wal_flush_page : Z → Z → Z → M L unit
}.

(** Changes of the disk outside the files of the log. *)
Record pages_only (d d' : Disk) : Prop := {
  po_log : same_log d d';
  po_files : ∀ path, log_file path → file_data (fs_ d') path = file_data (fs_ d) path;
  po_exists : ∀ path, fs_names (fs_ d') !! path = fs_names (fs_ d) !! path
}.

Class WalSpec (L : Type) `{Wal L} := {
  wal_ok : L → Prop;
  (** The log up to this LSN is on the disk. *)
  wal_durable : L → Z → Prop;
  wal_disk_set : ∀ d l, wal_disk (wal_set_disk d l) = d;
  wal_set_get : ∀ l, wal_set_disk (wal_disk l) l = l;
  wal_set_set : ∀ d d' l, wal_set_disk d (wal_set_disk d' l) = wal_set_disk d l;
  wal_disk_ok : ∀ l, wal_ok l → disk_ok (wal_disk l);
  wal_flush_spec : ∀ oid page_id lsn l, wal_ok l →
    ∃ l', wal_flush_page oid page_id lsn l = (Ok (), l') ∧ wal_ok l' ∧
      log_only (wal_disk l) (wal_disk l') ∧ wal_durable l' lsn;
  wal_pages : ∀ d l, wal_ok l → disk_ok d → pages_only (wal_disk l) d → wal_ok (wal_set_disk d l);
  wal_durable_pages : ∀ d l lsn, wal_ok l → disk_ok d → pages_only (wal_disk l) d →
    wal_durable l lsn → wal_durable (wal_set_disk d l) lsn
}.

(** ** The state *)

Abbreviation loc := nat.

Record BufferPoolEntry := mkEntry {
  be_db_oid_ : Z;
  be_table_oid_ : Z;
  be_page_id_ : Z;
  be_page_ : loc
}.
#[export] Instance BufferPoolEntry_eq_dec : EqDecision BufferPoolEntry.
Proof. solve_decision. Defined.

Record BufferPool := mkBufferPool {
  buffer_strategy_ : LRUBufferStrategy;
  buffers_ : list BufferPoolEntry;
  page_map_ : gmap TablePageid Z;
  systable_buffers_ : list BufferPoolEntry;
  systable_hashmap_ : gmap TablePageid Z
}.
Definition BufferPool_new : BufferPool := mkBufferPool (mkLRU []) [] ∅ [] ∅.

Definition entry_key (e : BufferPoolEntry) : TablePageid := mkTPid (be_table_oid_ e) (be_page_id_ e).

(** The log manager, the buffer pool and the heap of pages; [po_next] is the
    next location to allocate. *)
Record Pool (L : Type) := mkPool { po_wal : L; po_bp : BufferPool; po_heap : gmap loc Page; po_next : loc }.
Arguments mkPool {L}. Arguments po_wal {L}. Arguments po_bp {L}. Arguments po_heap {L}. Arguments po_next {L}.

(** [new char[n]] leaves the bytes indeterminate: they are a parameter, the
    pages being numbered by their location. *)
Class Allocator := {
  fresh_page : loc → bytes;
  fresh_page_len : ∀ l, mem_len (fresh_page l) = DB_PAGE_SIZE;
  fresh_array : Z → bytes;
  fresh_array_len : ∀ n, 0 <= n → mem_len (fresh_array n) = n
}.

Section Operations.
Context {L : Type} `{Wal L} `{Allocator}.

Definition on_wal {A} (m : M L A) : M (Pool L) A :=
  zoom po_wal (λ l w, mkPool l (po_bp w) (po_heap w) (po_next w)) m.
Definition on_disk_ {A} (m : M Disk A) : M (Pool L) A :=
  on_wal (zoom wal_disk wal_set_disk m).
Definition on_bp (f : BufferPool → BufferPool) : M (Pool L) unit :=
  modify (λ w, mkPool (po_wal w) (f (po_bp w)) (po_heap w) (po_next w)).
Definition on_strategy {A} (m : M LRUBufferStrategy A) : M (Pool L) A :=
  zoom (λ w, buffer_strategy_ (po_bp w))
       (λ s w, mkPool (po_wal w) (mkBufferPool s (buffers_ (po_bp w)) (page_map_ (po_bp w))
                 (systable_buffers_ (po_bp w)) (systable_hashmap_ (po_bp w))) (po_heap w) (po_next w)) m.

(** [std::make_shared<Page>()] with the bytes that are then stored in it. *)
Definition alloc_page (data : loc → bytes) : M (Pool L) loc := λ w,
  (Ok (po_next w), mkPool (po_wal w) (po_bp w)
     (<[po_next w := Page_new (data (po_next w))]> (po_heap w)) (S (po_next w))).

(** Running an operation of [TablePage] on the page a pointer points to. *)
Definition on_page {A} (l : loc) (m : M Page A) : M (Pool L) A := λ w,
  match po_heap w !! l with
  | Some p => let '(r, p) := m p in (r, mkPool (po_wal w) (po_bp w) (<[l := p]> (po_heap w)) (po_next w))
  | None => (Err (Undefined "null page pointer"), w)
  end.

(** The buffers and the map for a database: [sys] is [db_oid == SYSTEM_DATABASE_OID]. *)
Definition sel_buffers (sys : bool) (b : BufferPool) : list BufferPoolEntry :=
  if sys then systable_buffers_ b else buffers_ b.
Definition sel_map (sys : bool) (b : BufferPool) : gmap TablePageid Z :=
  if sys then systable_hashmap_ b else page_map_ b.
Definition set_buffers (sys : bool) (v : list BufferPoolEntry) (b : BufferPool) : BufferPool :=
  if sys then mkBufferPool (buffer_strategy_ b) (buffers_ b) (page_map_ b) v (systable_hashmap_ b)
  else mkBufferPool (buffer_strategy_ b) v (page_map_ b) (systable_buffers_ b) (systable_hashmap_ b).
Definition set_map (sys : bool) (m : gmap TablePageid Z) (b : BufferPool) : BufferPool :=
  if sys then mkBufferPool (buffer_strategy_ b) (buffers_ b) (page_map_ b) (systable_buffers_ b) m
  else mkBufferPool (buffer_strategy_ b) (buffers_ b) m (systable_buffers_ b) (systable_hashmap_ b).

Definition vec_at {A} (v : list A) (i : Z) : res A :=
  if i <? 0 then Err (Undefined "vector index out of range")
  else match v !! Z.to_nat i with
       | Some x => Ok x
       | None => Err (Undefined "vector index out of range")
       end.

Definition erase_key (sys : bool) (k : TablePageid) : M (Pool L) unit :=
  on_bp (λ b, set_map sys (delete k (sel_map sys b)) b).

(** [FlushPage] and [FlushSysTablePage]. *)
Definition BufferPool_FlushPage (frame_id : Z) : M (Pool L) unit :=
  w ← get;
  buffer_entry ← lift (vec_at (buffers_ (po_bp w)) frame_id);
  dirty ← on_page (be_page_ buffer_entry) (gets IsDirty);
  (if dirty : bool then
     lsn ← on_page (be_page_ buffer_entry) GetPageLSN;
     on_wal (wal_flush_page (be_table_oid_ buffer_entry) (be_page_id_ buffer_entry) lsn) ;;
     (if be_db_oid_ buffer_entry =? SYSTEM_DATABASE_OID
      then throw (AssertFailed "buffer_entry.db_oid_ != SYSTEM_DATABASE_OID") else mret ()) ;;
     data ← on_page (be_page_ buffer_entry) (gets data_);
     on_disk_ (WritePage (GetFilePath (be_db_oid_ buffer_entry) (be_table_oid_ buffer_entry))
                 (be_page_id_ buffer_entry) data)
   else mret ()) ;;
  erase_key false (entry_key buffer_entry).

Definition FlushSysTablePage (frame_id : Z) : M (Pool L) unit :=
  w ← get;
  buffer_entry ← lift (vec_at (systable_buffers_ (po_bp w)) frame_id);
  dirty ← on_page (be_page_ buffer_entry) (gets IsDirty);
  (if dirty : bool then
     (if be_db_oid_ buffer_entry =? SYSTEM_DATABASE_OID then mret ()
      else throw (AssertFailed "buffer_entry.db_oid_ == SYSTEM_DATABASE_OID")) ;;
     data ← on_page (be_page_ buffer_entry) (gets data_);
     on_disk_ (WritePage (GetFilePath (be_db_oid_ buffer_entry) (be_table_oid_ buffer_entry))
                 (be_page_id_ buffer_entry) data)
   else mret ()) ;;
  erase_key true (entry_key buffer_entry).

(** [buffers.push_back(entry)] and [hashmap[key] = index]. *)
Definition push_entry (sys : bool) (e : BufferPoolEntry) : M (Pool L) unit :=
  on_bp (λ b, set_buffers sys (sel_buffers sys b ++ [e]) b).
Definition set_key (sys : bool) (k : TablePageid) (i : Z) : M (Pool L) unit :=
  on_bp (λ b, set_map sys (<[k := i]> (sel_map sys b)) b).

Definition AddToBuffer (db_oid table_oid page_id : Z) (page : loc) : M (Pool L) unit :=
  let entry := mkEntry db_oid table_oid page_id page in
  w ← get;
  if db_oid =? SYSTEM_DATABASE_OID then
    set_key true (mkTPid table_oid page_id) (Z.of_nat (length (systable_buffers_ (po_bp w)))) ;;
    push_entry true entry
  else if Z.of_nat (length (buffers_ (po_bp w))) =? BUFFER_SIZE then
    victim ← on_strategy Evict;
    BufferPool_FlushPage victim ;;
    on_strategy (Access victim) ;;
    on_bp (λ b, set_buffers false (<[Z.to_nat victim := entry]> (buffers_ b)) b) ;;
    set_key false (mkTPid table_oid page_id) victim
  else
    on_strategy (Access (Z.of_nat (length (buffers_ (po_bp w))))) ;;
    set_key false (mkTPid table_oid page_id) (Z.of_nat (length (buffers_ (po_bp w)))) ;;
    push_entry false entry.

Definition GetPage (db_oid table_oid page_id : Z) : M (Pool L) loc :=
  let sys := db_oid =? SYSTEM_DATABASE_OID in
  w ← get;
  match sel_map sys (po_bp w) !! mkTPid table_oid page_id with
  | None =>
      data ← on_disk_ (ReadPage (GetFilePath db_oid table_oid) page_id);
      page ← alloc_page (λ _, data);
      AddToBuffer db_oid table_oid page_id page ;;
      mret page
  | Some i =>
      (if sys then mret () else on_strategy (Access i)) ;;
      e ← lift (vec_at (sel_buffers sys (po_bp w)) i);
      mret (be_page_ e)
  end.

Definition NewPage (db_oid table_oid page_id : Z) : M (Pool L) loc :=
  page ← alloc_page fresh_page;
  AddToBuffer db_oid table_oid page_id page ;;
  mret page.

(** [for (i = 0; i < n; i++) flush(i)] *)
Fixpoint flush_frames (flush : Z → M (Pool L) unit) (n : nat) (i : Z) : M (Pool L) unit :=
  match n with
  | O => mret ()
  | S n => flush i ;; flush_frames flush n (i + 1)
  end.

Definition BufferPool_Flush (regular_only : bool) : M (Pool L) unit :=
  w ← get;
  flush_frames BufferPool_FlushPage (length (buffers_ (po_bp w))) 0 ;;
  on_bp (set_buffers false []) ;;
  if regular_only then mret ()
  else
    w ← get;
    flush_frames FlushSysTablePage (length (systable_buffers_ (po_bp w))) 0 ;;
    on_bp (set_buffers true []).

Definition BufferPool_Clear : M (Pool L) unit :=
  on_bp (λ b, set_map true ∅ (set_buffers true [] (set_map false ∅ (set_buffers false [] b)))).

End Operations.

(** ** What the pool does to the log manager *)

(** A property of the log manager that changes of the disk and flushes keep is
    kept by whatever brings pages in. *)
Section Keeps.
Context {L : Type} `{Wal L} `{Allocator} (P : L → Prop).
Context (P_disk : ∀ d l, P l → P (wal_set_disk d l)).
Context (P_flush : ∀ oid page_id lsn l, P l → P (wal_flush_page oid page_id lsn l).2).

Definition keeps_log {A} (m : M (Pool L) A) : Prop := ∀ w, P (po_wal w) → P (po_wal (m w).2).

Lemma keeps_bind {A B} (m : M (Pool L) A) (f : A → M (Pool L) B) :
  keeps_log m → (∀ a, keeps_log (f a)) → keeps_log (a ← m; f a).
Proof.
  intros Hm Hf w Hw. specialize (Hm w Hw). unfold mbind, M_bind. destruct (m w) as [[a|x] w']; [by apply Hf|done].
Qed.
Lemma keeps_same {A} (m : M (Pool L) A) : (∀ w, po_wal (m w).2 = po_wal w) → keeps_log m.
Proof. intros Hm w. by rewrite Hm. Qed.
Lemma keeps_if {A} (b : bool) (m1 m2 : M (Pool L) A) : keeps_log m1 → keeps_log m2 → keeps_log (if b then m1 else m2).
Proof. by destruct b. Qed.
Lemma keeps_on_page {A} l (m : M Page A) : keeps_log (on_page l m).
Proof. apply keeps_same. intros w. unfold on_page. destruct (po_heap w !! l) as [p|]; [|done]. by destruct (m p). Qed.
Lemma keeps_on_strategy {A} (m : M LRUBufferStrategy A) : keeps_log (on_strategy m).
Proof. apply keeps_same. intros w. unfold on_strategy, zoom. by destruct (m _). Qed.
Lemma keeps_on_disk {A} (m : M Disk A) : keeps_log (on_disk_ m).
Proof. intros w Hw. unfold on_disk_, on_wal, zoom. destruct (m _). by apply P_disk. Qed.
Lemma keeps_flush oid page_id lsn : keeps_log (on_wal (wal_flush_page oid page_id lsn)).
Proof.
  intros w Hw. unfold on_wal, zoom. pose proof (P_flush oid page_id lsn _ Hw) as Hf.
  by destruct (wal_flush_page oid page_id lsn (po_wal w)).
Qed.
Lemma keeps_on_bp f : keeps_log (on_bp f). Proof. by apply keeps_same. Qed.
Lemma keeps_ret {A} (a : A) : keeps_log (mret a). Proof. by apply keeps_same. Qed.
Lemma keeps_throw {A} x : keeps_log (throw x : M (Pool L) A). Proof. by apply keeps_same. Qed.
Lemma keeps_get : keeps_log get. Proof. by apply keeps_same. Qed.
Lemma keeps_lift {A} (r : res A) : keeps_log (lift r). Proof. by apply keeps_same. Qed.

Ltac keeps_step := first [ apply keeps_bind; [|intros ?] | apply keeps_if | apply keeps_on_page | apply keeps_on_strategy
  | apply keeps_on_disk | apply keeps_flush | apply keeps_on_bp | apply keeps_ret | apply keeps_throw
  | apply keeps_get | apply keeps_lift | by apply keeps_same ].

Lemma keeps_FlushPage frame_id : keeps_log (BufferPool_FlushPage frame_id).
Proof. unfold BufferPool_FlushPage, erase_key. by repeat keeps_step. Qed.
Lemma keeps_AddToBuffer db_oid table_oid page_id page : keeps_log (AddToBuffer db_oid table_oid page_id page).
Proof.
  unfold AddToBuffer, set_key, push_entry. repeat first [apply keeps_FlushPage|keeps_step].
Qed.
Lemma keeps_GetPage db_oid table_oid page_id : keeps_log (GetPage db_oid table_oid page_id).
Proof.
  unfold GetPage. apply keeps_bind; [by apply keeps_same|]. intros w. case_match;
    repeat first [apply keeps_AddToBuffer|keeps_step].
Qed.

End Keeps.

(** ** The pool as a view of all pages *)

Section View.
Context {L : Type} `{WalSpec L} `{Allocator}.

(** The database of each table. *)
Context (db_of : Z → Z).

Definition is_sys (k : TablePageid) : bool := db_of (table_oid_ k) =? SYSTEM_DATABASE_OID.
Definition key_path (k : TablePageid) : string := GetFilePath (db_of (table_oid_ k)) (table_oid_ k).
Definition key_range (k : TablePageid) : Prop :=
  0 <= db_of (table_oid_ k) < 2 ^ 31 ∧ 0 <= table_oid_ k < 2 ^ 31 ∧ 0 <= tp_page_id_ k < 2 ^ 32.
Definition disk_of (w : Pool L) : Disk := wal_disk (po_wal w).
Definition disk_page (d : Disk) (k : TablePageid) : option bytes := page_at d (key_path k) (tp_page_id_ k).
(** The file of the table exists. *)
Definition key_file (d : Disk) (k : TablePageid) : Prop := is_Some (fs_names (fs_ d) !! key_path k).

Definition frame_of (w : Pool L) (k : TablePageid) : option BufferPoolEntry :=
  i ← sel_map (is_sys k) (po_bp w) !! k; sel_buffers (is_sys k) (po_bp w) !! Z.to_nat i.

(** The contents of a page, wherever it is. *)
Definition view (w : Pool L) (k : TablePageid) : option bytes :=
  match frame_of w k with
  | Some e => data_ <$> po_heap w !! be_page_ e
  | None => disk_page (disk_of w) k
  end.

(** The location of the page in the pool. *)
Definition at_loc (w : Pool L) (k : TablePageid) (l : loc) : Prop :=
  ∃ e, frame_of w k = Some e ∧ be_page_ e = l.

(** A vector of entries and the map of their positions. *)
Record frames_wf (v : list BufferPoolEntry) (m : gmap TablePageid Z) : Prop := {
  fw_map : ∀ k i, m !! k = Some i → 0 <= i ∧ ∃ e, v !! Z.to_nat i = Some e ∧ entry_key e = k;
  fw_vec : ∀ i e, v !! i = Some e → m !! entry_key e = Some (Z.of_nat i)
}.

(** The strategy knows the frames in use, each once. *)
Definition lru_wf (s : LRUBufferStrategy) (n : nat) : Prop :=
  NoDup (buffer_vec s) ∧ (∀ f, f ∈ buffer_vec s → 0 <= f < BUFFER_SIZE) ∧
  (∀ i, (i < n)%nat → Z.of_nat i ∈ buffer_vec s).

(** [pending] is the page just allocated by [NewPage], whose bytes are not on
    the disk although it is not dirty yet. *)
Record pool_inv (pending : option loc) (w : Pool L) : Prop := {
  pi_wal : wal_ok (po_wal w);
  pi_frames : ∀ s, frames_wf (sel_buffers s (po_bp w)) (sel_map s (po_bp w));
  pi_entry : ∀ s e, e ∈ sel_buffers s (po_bp w) →
    key_range (entry_key e) ∧ key_file (disk_of w) (entry_key e) ∧
    be_db_oid_ e = db_of (be_table_oid_ e) ∧ is_sys (entry_key e) = s;
  pi_page : ∀ s e, e ∈ sel_buffers s (po_bp w) →
    ∃ p, po_heap w !! be_page_ e = Some p ∧ mem_len (data_ p) = DB_PAGE_SIZE ∧
      (is_dirty_ p = false →
        pending = Some (be_page_ e) ∨ disk_page (disk_of w) (entry_key e) = Some (data_ p));
  pi_locs : ∀ s1 e1 s2 e2, e1 ∈ sel_buffers s1 (po_bp w) → e2 ∈ sel_buffers s2 (po_bp w) →
    be_page_ e1 = be_page_ e2 → e1 = e2;
  pi_fresh : ∀ l, (po_next w ≤ l)%nat → po_heap w !! l = None;
  pi_cap : (length (buffers_ (po_bp w)) ≤ Z.to_nat BUFFER_SIZE)%nat;
  pi_lru : lru_wf (buffer_strategy_ (po_bp w)) (length (buffers_ (po_bp w)))
}.

(** *** Vectors of entries *)

Lemma frames_unique v m i j e1 e2 :
  frames_wf v m → v !! i = Some e1 → v !! j = Some e2 → entry_key e1 = entry_key e2 → i = j.
Proof.
  intros [_ Hv] Ha%Hv Hb%Hv He. rewrite He, Hb in Ha. injection Ha. lia.
Qed.

Lemma frames_push v m e :
  frames_wf v m → m !! entry_key e = None →
  frames_wf (v ++ [e]) (<[entry_key e := Z.of_nat (length v)]> m).
Proof.
  intros [Hm Hv] Hn. split.
  - intros k i [[<- <-]|[Hne Hk]]%lookup_insert_Some.
    + split; [lia|]. exists e. by rewrite Nat2Z.id, lookup_app_r, Nat.sub_diag by lia.
    + destruct (Hm _ _ Hk) as (? & e' & He' & <-). split; [done|]. exists e'.
      split; [|done]. by apply lookup_app_l_Some.
  - intros i e' [He'|[Hi He']]%lookup_app_Some.
    + rewrite lookup_insert_ne; [by apply Hv|]. intros Hk. apply Hv in He'. congruence.
    + destruct (i - length v)%nat eqn:Hd; [|done]. simpl in He'. injection He' as <-.
      rewrite lookup_insert_eq. do 2 f_equal. lia.
Qed.

Lemma frames_replace v m i old e :
  frames_wf v m → v !! i = Some old → m !! entry_key e = None →
  frames_wf (<[i := e]> v) (<[entry_key e := Z.of_nat i]> (delete (entry_key old) m)).
Proof.
  intros Hwf Hi Hn. pose proof Hwf as [Hm Hv]. pose proof (lookup_lt_Some _ _ _ Hi) as Hlt. split.
  - intros k j [[<- <-]|[Hne [Hne' Hk]%lookup_delete_Some]]%lookup_insert_Some.
    + split; [lia|]. exists e. by rewrite Nat2Z.id, list_lookup_insert_eq by done.
    + destruct (Hm _ _ Hk) as (? & e' & He' & <-). split; [done|]. exists e'. split; [|done].
      rewrite list_lookup_insert_ne; [done|]. intros ->. congruence.
  - intros j e' Hj. destruct (decide (i = j)) as [->|Hne].
    + rewrite list_lookup_insert_eq in Hj by done. injection Hj as <-. by rewrite lookup_insert_eq.
    + rewrite list_lookup_insert_ne in Hj by done. rewrite lookup_insert_ne.
      * rewrite lookup_delete_ne; [by apply Hv|]. intros Hk. by apply Hne, (frames_unique v m i j old e').
      * intros Hk. apply Hv in Hj. congruence.
Qed.

Lemma replace_elem v m i old e x :
  frames_wf v m → v !! i = Some old →
  x ∈ <[i := e]> v ↔ x = e ∨ (x ∈ v ∧ entry_key x ≠ entry_key old).
Proof.
  intros Hwf Hi. pose proof (lookup_lt_Some _ _ _ Hi) as Hlt. rewrite !list_elem_of_lookup. split.
  - intros [j Hj]. destruct (decide (i = j)) as [->|Hne].
    + rewrite list_lookup_insert_eq in Hj by done. left. congruence.
    + rewrite list_lookup_insert_ne in Hj by done. right. split; [eauto|].
      intros Hk. by apply Hne, (frames_unique v m i j old x).
  - intros [->|[[j Hj] Hk]].
    + exists i. by apply list_lookup_insert_eq.
    + exists j. rewrite list_lookup_insert_ne; [done|]. congruence.
Qed.

Lemma frame_of_Some pending w k e :
  pool_inv pending w → frame_of w k = Some e ↔ e ∈ sel_buffers (is_sys k) (po_bp w) ∧ entry_key e = k.
Proof.
  intros Hi. destruct (pi_frames _ _ Hi (is_sys k)) as [Hm Hv]. unfold frame_of. split.
  - intros (i & Hk & He)%bind_Some. destruct (Hm _ _ Hk) as (_ & e' & He' & Hke).
    rewrite He in He'. injection He' as <-. split; [|done]. by eapply list_elem_of_lookup_2.
  - intros [[i Hi']%list_elem_of_lookup <-]. rewrite (Hv _ _ Hi'). simpl. by rewrite Nat2Z.id.
Qed.

Lemma frame_of_None pending w k :
  pool_inv pending w → frame_of w k = None ↔ sel_map (is_sys k) (po_bp w) !! k = None.
Proof.
  intros Hi. destruct (pi_frames _ _ Hi (is_sys k)) as [Hm _]. unfold frame_of.
  destruct (sel_map (is_sys k) (po_bp w) !! k) as [i|] eqn:Hk; simpl; [|done].
  destruct (Hm _ _ Hk) as (_ & e & He & _). rewrite He. done.
Qed.

Lemma entry_unique pending w s e1 e2 :
  pool_inv pending w → e1 ∈ sel_buffers s (po_bp w) → e2 ∈ sel_buffers s (po_bp w) →
  entry_key e1 = entry_key e2 → e1 = e2.
Proof.
  intros Hi [i1 Hi1]%list_elem_of_lookup [i2 Hi2]%list_elem_of_lookup Hk.
  assert (i1 = i2) as -> by (eapply frames_unique; [apply (pi_frames _ _ Hi s)|done..]). congruence.
Qed.

(** The view of a page in the pool and of a page that is not. *)
Lemma view_in pending w e p :
  pool_inv pending w → e ∈ sel_buffers (is_sys (entry_key e)) (po_bp w) →
  po_heap w !! be_page_ e = Some p → view w (entry_key e) = Some (data_ p).
Proof.
  intros Hi He Hp. unfold view. rewrite (proj2 (frame_of_Some _ _ _ _ Hi) (conj He eq_refl)).
  by rewrite Hp.
Qed.

Lemma view_out w k : frame_of w k = None → view w k = disk_page (disk_of w) k.
Proof. unfold view. by intros ->. Qed.

Lemma key_path_inj k1 k2 :
  key_range k1 → key_range k2 → (key_path k1, tp_page_id_ k1) = (key_path k2, tp_page_id_ k2) → k1 = k2.
Proof.
  intros (?&?&?) (?&?&?) [=Hp Hpid]. apply GetFilePath_inj in Hp as [_ Ht]; [|done..].
  destruct k1, k2; simpl in *; congruence.
Qed.

Lemma key_path_not_log k : ¬ log_file (key_path k).
Proof.
  unfold key_path. intros [He|[He|He]];
    pose proof (GetFilePath_has_slash (db_of (table_oid_ k)) (table_oid_ k)) as Hs;
    rewrite He in Hs; by vm_compute in Hs.
Qed.

(** *** Steps of the pool *)

Lemma on_page_read {A} l p (m : M Page A) r (w : Pool L) :
  po_heap w !! l = Some p → m p = (r, p) → on_page l m w = (r, w).
Proof.
  intros Hl Hm. unfold on_page. rewrite Hl, Hm. rewrite insert_id by done. by destruct w.
Qed.

Lemma GetPageLSN_ok p : mem_len (data_ p) = DB_PAGE_SIZE → ∃ lsn, GetPageLSN p = (Ok lsn, p).
Proof.
  intros Hl. destruct (get_uint_in page_lsn_ sizeof_lsn_t (data_ p)) as [z Hz]; [done|done|by rewrite Hl|].
  exists z. unfold GetPageLSN, rd. by rewrite Hz.
Qed.

Lemma vec_at_Some {A} (v : list A) i x : v !! i = Some x → vec_at v (Z.of_nat i) = Ok x.
Proof.
  intros Hi. unfold vec_at. rewrite Nat2Z.id, Hi. by destruct (Z.ltb_spec (Z.of_nat i) 0); [lia|].
Qed.

Definition set_wal (l : L) (w : Pool L) : Pool L := mkPool l (po_bp w) (po_heap w) (po_next w).
Definition set_bp (b : BufferPool) (w : Pool L) : Pool L := mkPool (po_wal w) b (po_heap w) (po_next w).

Lemma on_disk_run {A} (m : M Disk A) r d' w :
  m (disk_of w) = (r, d') → on_disk_ m w = (r, set_wal (wal_set_disk d' (po_wal w)) w).
Proof. intros Hm. unfold on_disk_, on_wal, zoom. fold (disk_of w). by rewrite Hm. Qed.

(** Writing a dirty page: the log goes first. *)
Lemma write_back (log_first : bool) w e p :
  wal_ok (po_wal w) → key_range (entry_key e) → key_file (disk_of w) (entry_key e) →
  be_db_oid_ e = db_of (be_table_oid_ e) → mem_len (data_ p) = DB_PAGE_SIZE →
  ∃ l1 d', let l' := wal_set_disk d' l1 in
    (if log_first then ∃ lsn, GetPageLSN p = (Ok lsn, p) ∧
              wal_flush_page (be_table_oid_ e) (be_page_id_ e) lsn (po_wal w) = (Ok (), l1) ∧
              wal_durable l1 lsn ∧ wal_durable l' lsn
            else l1 = po_wal w) ∧
    (∀ k, disk_page (wal_disk l1) k = disk_page (disk_of w) k) ∧
    WritePage (GetFilePath (be_db_oid_ e) (be_table_oid_ e)) (be_page_id_ e) (data_ p) (wal_disk l1) = (Ok (), d') ∧
    on_disk_ (WritePage (GetFilePath (be_db_oid_ e) (be_table_oid_ e)) (be_page_id_ e) (data_ p))
      (set_wal l1 w) = (Ok (), set_wal l' w) ∧
    wal_ok l' ∧ disk_page (wal_disk l') (entry_key e) = Some (data_ p) ∧
    (∀ k b, key_range k → k ≠ entry_key e → disk_page (disk_of w) k = Some b →
      disk_page (wal_disk l') k = Some b) ∧
    (∀ k, key_file (disk_of w) k → key_file (wal_disk l') k) ∧ log_size (disk_of w) <= log_size (wal_disk l').
Proof.
  intros Hok Hr Hf Hdb Hlen.
  assert (∃ l1 : L, wal_ok l1 ∧ log_only (disk_of w) (wal_disk l1) ∧
    (if log_first then ∃ lsn, GetPageLSN p = (Ok lsn, p) ∧
       wal_flush_page (be_table_oid_ e) (be_page_id_ e) lsn (po_wal w) = (Ok (), l1) ∧ wal_durable l1 lsn
     else l1 = po_wal w)) as (l1 & Hok1 & [Ho1 Ho2 Hsz] & Hl1).
  { destruct log_first; [|by exists (po_wal w)].
    destruct (GetPageLSN_ok p Hlen) as [lsn Hlsn].
    destruct (wal_flush_spec (be_table_oid_ e) (be_page_id_ e) lsn (po_wal w) Hok) as (l1 & ? & ? & ? & ?).
    exists l1. split; [done|]. split; [done|]. eauto. }
  destruct Hr as (Hr1 & Hr2 & Hr3). simpl in Hr1, Hr2, Hr3.
  destruct (WritePage_ok (wal_disk l1) (db_of (be_table_oid_ e)) (be_table_oid_ e) (be_page_id_ e) (data_ p))
    as (d' & Hw & Hok' & Hsame & Hnm & Hfd & Hpg & Hoth);
    [by apply wal_disk_ok|done|done|done|rewrite Ho1 by apply (key_path_not_log (entry_key e)); exact Hf|done|].
  assert (pages_only (wal_disk l1) d') as Hpo.
  { split; [done| |intros; by rewrite Hnm]. intros path Hp. apply Hfd. intros ->.
    by apply (key_path_not_log (entry_key e)). }
  exists l1, d'. split; [|split; [|split; [|split; [|split; [|split; [|split; [|split]]]]]]].
  - destruct log_first; [|done]. destruct Hl1 as (lsn & ? & ? & ?). exists lsn.
    split; [done|]. split; [done|]. split; [done|]. by apply wal_durable_pages.
  - intros k. apply Ho2, key_path_not_log.
  - rewrite Hdb. exact Hw.
  - rewrite Hdb. apply (on_disk_run _ _ d' (set_wal l1 w)). exact Hw.
  - by apply wal_pages.
  - rewrite wal_disk_set. exact Hpg.
  - intros k b Hk Hne Hb. rewrite wal_disk_set. apply Hoth; [|apply Hk|].
    + intros Heq. apply Hne, key_path_inj; [done|by split|exact Heq].
    + rewrite Ho2 by apply key_path_not_log. exact Hb.
  - intros k Hk. unfold key_file. rewrite wal_disk_set, Hnm, Ho1 by apply key_path_not_log. exact Hk.
  - rewrite wal_disk_set. unfold log_size. destruct Hsame as (_ & _ & ->). exact Hsz.
Qed.

(** What flushing the page [p] of the entry [e] does to the log and the disk. *)
Record flushed (w : Pool L) (e : BufferPoolEntry) (p : Page) (l' : L) : Prop := {
  fl_ok : wal_ok l';
  fl_page : disk_page (wal_disk l') (entry_key e) = Some (data_ p);
  fl_other : ∀ k b, key_range k → k ≠ entry_key e → disk_page (disk_of w) k = Some b →
    disk_page (wal_disk l') k = Some b;
  fl_files : ∀ k, key_file (disk_of w) k → key_file (wal_disk l') k;
  fl_log : log_size (disk_of w) <= log_size (wal_disk l')
}.

Lemma flushed_clean w e p :
  wal_ok (po_wal w) → disk_page (disk_of w) (entry_key e) = Some (data_ p) → flushed w e p (po_wal w).
Proof. intros. by split. Qed.

Lemma is_sys_db e : be_db_oid_ e = db_of (be_table_oid_ e) →
  is_sys (entry_key e) = (be_db_oid_ e =? SYSTEM_DATABASE_OID).
Proof. intros Hdb. unfold is_sys. simpl. by rewrite Hdb. Qed.

(** What flushing an entry relies on. *)
Record entry_ok (pending : option loc) (s : bool) (w : Pool L) (e : BufferPoolEntry) (p : Page) : Prop := {
  eo_wal : wal_ok (po_wal w);
  eo_range : key_range (entry_key e);
  eo_file : key_file (disk_of w) (entry_key e);
  eo_db : be_db_oid_ e = db_of (be_table_oid_ e);
  eo_sys : is_sys (entry_key e) = s;
  eo_heap : po_heap w !! be_page_ e = Some p;
  eo_len : mem_len (data_ p) = DB_PAGE_SIZE;
  eo_clean : is_dirty_ p = false →
    pending = Some (be_page_ e) ∨ disk_page (disk_of w) (entry_key e) = Some (data_ p)
}.

Lemma pool_entry_ok pending s w e :
  pool_inv pending w → e ∈ sel_buffers s (po_bp w) → ∃ p, entry_ok pending s w e p.
Proof.
  intros Hi He. destruct (pi_entry _ _ Hi s e He) as (?&?&?&?).
  destruct (pi_page _ _ Hi s e He) as (p &?&?&?). exists p. split; try done. apply Hi.
Qed.

(** The log is flushed up to the LSN of the page, and only then the page is
    written: [l1] is the state in between. *)
Definition log_then_page (w : Pool L) (e : BufferPoolEntry) (p : Page) (l' : L) : Prop :=
  ∃ lsn l1 d', GetPageLSN p = (Ok lsn, p) ∧
    wal_flush_page (be_table_oid_ e) (be_page_id_ e) lsn (po_wal w) = (Ok (), l1) ∧
    wal_durable l1 lsn ∧ (∀ k, disk_page (wal_disk l1) k = disk_page (disk_of w) k) ∧
    WritePage (GetFilePath (be_db_oid_ e) (be_table_oid_ e)) (be_page_id_ e) (data_ p) (wal_disk l1) = (Ok (), d') ∧
    l' = wal_set_disk d' l1 ∧ wal_durable l' lsn.

Lemma FlushPage_run pending w i e p :
  entry_ok pending false w e p → buffers_ (po_bp w) !! i = Some e → pending ≠ Some (be_page_ e) →
  ∃ l', BufferPool_FlushPage (Z.of_nat i) w =
      (Ok (), set_bp (set_map false (delete (entry_key e) (page_map_ (po_bp w))) (po_bp w)) (set_wal l' w)) ∧
    flushed w e p l' ∧ (is_dirty_ p = true → log_then_page w e p l').
Proof.
  intros [Hwok Hr Hf Hdb Hsys Hp Hlen Hclean] Hv Hpend.
  unfold BufferPool_FlushPage. rewrite get_step.
  erewrite lift_step by (by apply vec_at_Some).
  assert (on_page (be_page_ e) (gets IsDirty) w = (Ok (is_dirty_ p), w)) as Hdirty
    by (by apply (on_page_read _ p)).
  rewrite (M_bind_step _ _ _ _ _ Hdirty).
  destruct (is_dirty_ p) eqn:Hd.
  - destruct (write_back true w e p Hwok Hr Hf Hdb Hlen) as
      (l1 & d' & (lsn & Hlsn & Hwal & Hdur1 & Hdur) & Hsame & Hpage & Hwr & Hok' & Hpg & Hoth & Hfiles & Hsz).
    exists (wal_set_disk d' l1). split; [|split; [by split|by exists lsn, l1, d']].
    assert (on_page (be_page_ e) GetPageLSN w = (Ok lsn, w)) as Hl by (by apply (on_page_read _ p)).
    assert (on_wal (wal_flush_page (be_table_oid_ e) (be_page_id_ e) lsn) w = (Ok (), set_wal l1 w)) as Hw
      by (unfold on_wal, zoom; by rewrite Hwal).
    assert (on_page (be_page_ e) (gets data_) (set_wal l1 w) = (Ok (data_ p), set_wal l1 w)) as Hdata
      by (by apply (on_page_read _ p)).
    rewrite (is_sys_db _ Hdb) in Hsys. rewrite Hsys.
    rewrite !bind_assoc_run, (M_bind_step _ _ _ _ _ Hl), bind_assoc_run, (M_bind_step _ _ _ _ _ Hw).
    rewrite bind_assoc_run. rewrite (M_bind_step _ _ _ (set_wal l1 w) () eq_refl).
    by rewrite bind_assoc_run, (M_bind_step _ _ _ _ _ Hdata), (M_bind_step _ _ _ _ _ Hwr).
  - destruct (Hclean eq_refl) as [?|Hdisk]; [done|].
    exists (po_wal w). split; [|split; [by apply flushed_clean|done]].
    by destruct w.
Qed.

Lemma FlushSys_run pending w i e p :
  entry_ok pending true w e p → systable_buffers_ (po_bp w) !! i = Some e → pending ≠ Some (be_page_ e) →
  ∃ l', FlushSysTablePage (Z.of_nat i) w =
      (Ok (), set_bp (set_map true (delete (entry_key e) (systable_hashmap_ (po_bp w))) (po_bp w)) (set_wal l' w)) ∧
    flushed w e p l'.
Proof.
  intros [Hwok Hr Hf Hdb Hsys Hp Hlen Hclean] Hv Hpend.
  unfold FlushSysTablePage. rewrite get_step.
  erewrite lift_step by (by apply vec_at_Some).
  assert (on_page (be_page_ e) (gets IsDirty) w = (Ok (is_dirty_ p), w)) as Hdirty
    by (by apply (on_page_read _ p)).
  rewrite (M_bind_step _ _ _ _ _ Hdirty).
  destruct (is_dirty_ p) eqn:Hd.
  - destruct (write_back false w e p Hwok Hr Hf Hdb Hlen) as
      (l1 & d' & -> & _ & _ & Hwr & Hok' & Hpg & Hoth & Hfiles & Hsz).
    exists (wal_set_disk d' (po_wal w)). split; [|by split].
    assert (on_page (be_page_ e) (gets data_) w = (Ok (data_ p), w)) as Hdata
      by (by apply (on_page_read _ p)).
    rewrite (is_sys_db _ Hdb) in Hsys. rewrite Hsys.
    assert (set_wal (po_wal w) w = w) as Hid by (by destruct w). rewrite Hid in Hwr.
    rewrite bind_assoc_run, (M_bind_step _ _ _ w () eq_refl).
    by rewrite bind_assoc_run, (M_bind_step _ _ _ _ _ Hdata), (M_bind_step _ _ _ _ _ Hwr).
  - destruct (Hclean eq_refl) as [?|Hdisk]; [done|].
    exists (po_wal w). split; [|by apply flushed_clean].
    by destruct w.
Qed.

(** *** Adding a page *)

(** The page was the last one accessed: it is not the next victim. *)
Definition recent (w : Pool L) (k : TablePageid) : Prop :=
  ∃ i, sel_map (is_sys k) (po_bp w) !! k = Some i ∧
    (is_sys k = true ∨ head (buffer_vec (buffer_strategy_ (po_bp w))) = Some i).

(** The pool after an entry for [k] at [l] was added: the other pages that were
    readable still are, with the same contents. *)
Record added (pending : option loc) (k : TablePageid) (l : loc) (p : Page) (w w' : Pool L) : Prop := {
  ad_inv : pool_inv pending w';
  ad_heap : po_heap w' = po_heap w;
  ad_next : po_next w' = po_next w;
  ad_loc : at_loc w' k l;
  ad_view : view w' k = Some (data_ p);
  ad_other : ∀ k' b, key_range k' → k' ≠ k → view w k' = Some b → view w' k' = Some b;
  ad_files : ∀ k', key_file (disk_of w) k' → key_file (disk_of w') k';
  ad_log : log_size (disk_of w) <= log_size (disk_of w');
  ad_frames : ∀ k', is_Some (frame_of w' k') → k' = k ∨ is_Some (frame_of w k');
  ad_recent : recent w' k;
  ad_keeps : ∀ k', recent w k' → frame_of w' k' = frame_of w k'
}.

(** The page to add: a fresh location, its bytes on the disk or pending. *)
Record addable (pending : option loc) (k : TablePageid) (l : loc) (p : Page) (w : Pool L) : Prop := {
  ab_inv : pool_inv None w;
  ab_range : key_range k;
  ab_file : key_file (disk_of w) k;
  ab_out : frame_of w k = None;
  ab_heap : po_heap w !! l = Some p;
  ab_len : mem_len (data_ p) = DB_PAGE_SIZE;
  ab_clean : is_dirty_ p = false → pending = Some l ∨ disk_page (disk_of w) k = Some (data_ p);
  ab_fresh : ∀ s e, e ∈ sel_buffers s (po_bp w) → be_page_ e ≠ l
}.

Definition new_entry (k : TablePageid) (l : loc) : BufferPoolEntry :=
  mkEntry (db_of (table_oid_ k)) (table_oid_ k) (tp_page_id_ k) l.

Lemma new_entry_key k l : entry_key (new_entry k l) = k.
Proof. by destruct k. Qed.

(** Establishing [added]: [w'] holds the new entry and entries of [w] only; an
    entry of [w] it does not hold was flushed. *)
Lemma added_intro pending k l p w w' :
  addable pending k l p w →
  wal_ok (po_wal w') → po_heap w' = po_heap w → po_next w' = po_next w →
  (∀ s, frames_wf (sel_buffers s (po_bp w')) (sel_map s (po_bp w'))) →
  new_entry k l ∈ sel_buffers (is_sys k) (po_bp w') →
  (∀ s e, e ∈ sel_buffers s (po_bp w') → (e = new_entry k l ∧ s = is_sys k) ∨ e ∈ sel_buffers s (po_bp w)) →
  (∀ s e, e ∈ sel_buffers s (po_bp w) → e ∉ sel_buffers s (po_bp w') →
    ∃ pe, po_heap w !! be_page_ e = Some pe ∧ disk_page (disk_of w') (entry_key e) = Some (data_ pe)) →
  (∀ k' b, key_range k' → disk_page (disk_of w) k' = Some b →
    (∀ e, e ∈ sel_buffers (is_sys k') (po_bp w) → entry_key e = k' → e ∈ sel_buffers (is_sys k') (po_bp w')) →
    disk_page (disk_of w') k' = Some b) →
  (∀ k', key_file (disk_of w) k' → key_file (disk_of w') k') → log_size (disk_of w) <= log_size (disk_of w') →
  (length (buffers_ (po_bp w')) ≤ Z.to_nat BUFFER_SIZE)%nat →
  lru_wf (buffer_strategy_ (po_bp w')) (length (buffers_ (po_bp w'))) →
  recent w' k →
  (∀ e, recent w (entry_key e) → e ∈ sel_buffers (is_sys (entry_key e)) (po_bp w) →
    e ∈ sel_buffers (is_sys (entry_key e)) (po_bp w')) →
  added pending k l p w w'.
Proof.
  intros [Hi Hr Hf Hout Hl Hlen Hclean Hfresh] Hwal Hheap Hnext Hfr Hnew Hin Hgone Hdisk Hfiles Hsz Hcap Hlru Hrec Hkeep.
  assert (pool_inv pending w') as Hi'.
  { split; try done; rewrite ?Hheap, ?Hnext; try apply Hi.
    - intros s e He. destruct (Hin s e He) as [[-> ->]|Hold].
      + rewrite new_entry_key. split; [done|]. split; [by apply Hfiles|done].
      + destruct (pi_entry _ _ Hi s e Hold) as (?&?&?&?). split; [done|].
        split; [by apply Hfiles|done].
    - intros s e He. destruct (Hin s e He) as [[-> ->]|Hold].
      + exists p. split; [done|]. split; [done|]. rewrite new_entry_key. intros Hd.
        destruct (Hclean Hd) as [?|Hc]; [by left|right]. apply Hdisk; [done..|].
        intros e Hek Heq. exfalso. apply (frame_of_None _ _ _ Hi) in Hout.
        destruct (pi_frames _ _ Hi (is_sys k)) as [_ Hv].
        apply list_elem_of_lookup in Hek as [j Hj]. apply Hv in Hj. congruence.
      + destruct (pi_page _ _ Hi s e Hold) as (pe & Hpe & Hle & Hce). exists pe.
        split; [done|]. split; [done|]. intros Hd. destruct (Hce Hd) as [|Hc]; [done|]. right.
        destruct (pi_entry _ _ Hi s e Hold) as (Hre&_&_&Hse).
        apply Hdisk; [done..|]. rewrite Hse. intros e2 He2 Hk2.
        by rewrite (entry_unique _ _ _ _ _ Hi He2 Hold Hk2).
    - intros s1 e1 s2 e2 He1 He2 Heq.
      destruct (Hin _ _ He1) as [[-> ->]|Ho1], (Hin _ _ He2) as [[-> ->]|Ho2]; [done|..].
      + by destruct (Hfresh _ _ Ho2).
      + by destruct (Hfresh _ _ Ho1).
      + by eapply (pi_locs _ _ Hi). }
  assert (frame_of w' k = Some (new_entry k l)) as Hfk
    by (apply (frame_of_Some _ _ _ _ Hi'); by rewrite new_entry_key).
  split; try done.
  - by exists (new_entry k l).
  - unfold view. rewrite Hfk, Hheap. simpl. by rewrite Hl.
  - intros k' b Hr' Hne Hb. destruct (frame_of w k') as [e|] eqn:Hfe.
    + apply (frame_of_Some _ _ _ _ Hi) in Hfe as [He <-].
      destruct (pi_page _ _ Hi _ _ He) as (pe & Hpe & _). rewrite (view_in _ _ _ _ Hi He Hpe) in Hb.
      injection Hb as <-. destruct (decide (e ∈ sel_buffers (is_sys (entry_key e)) (po_bp w'))) as [He'|He'].
      * eapply view_in; [done..|]. by rewrite Hheap.
      * destruct (Hgone _ _ He He') as (pe' & Hpe' & Hd). rewrite Hpe in Hpe'. injection Hpe' as <-.
        rewrite view_out; [done|]. destruct (frame_of w' (entry_key e)) as [e'|] eqn:Hf'; [|done].
        apply (frame_of_Some _ _ _ _ Hi') in Hf' as [He2 Hk2].
        destruct (Hin _ _ He2) as [[-> _]|Ho2]; [by rewrite new_entry_key in Hk2|].
        exfalso. apply He'. assert (e' = e) as Heq; [|by rewrite Heq in He2].
        by apply (entry_unique _ _ _ _ _ Hi Ho2 He).
    + pose proof Hfe as Hno. rewrite view_out in Hb by done. rewrite view_out.
      * apply Hdisk; [done..|]. intros e He Hk.
        assert (frame_of w k' = Some e) by (by apply (frame_of_Some _ _ _ _ Hi)). congruence.
      * destruct (frame_of w' k') as [e'|] eqn:Hf'; [|done].
        apply (frame_of_Some _ _ _ _ Hi') in Hf' as [He2 <-].
        destruct (Hin _ _ He2) as [[-> _]|Ho2]; [by rewrite new_entry_key in Hne|].
        assert (frame_of w (entry_key e') = Some e') by (by apply (frame_of_Some _ _ _ _ Hi)). congruence.
  - intros k' [e He]. apply (frame_of_Some _ _ _ _ Hi') in He as [He Hk].
    destruct (Hin _ _ He) as [[-> _]|Ho]; [left; by rewrite new_entry_key in Hk|right].
    exists e. by apply (frame_of_Some _ _ _ _ Hi).
  - intros k' Hk'. assert (∃ e, frame_of w k' = Some e) as [e He].
    { destruct Hk' as (i & Hm & _). destruct (fw_map _ _ (pi_frames _ _ Hi (is_sys k')) _ _ Hm) as (_ & e & He & _).
      exists e. unfold frame_of. by rewrite Hm. }
    rewrite He. apply (frame_of_Some _ _ _ _ Hi'). apply (frame_of_Some _ _ _ _ Hi) in He as [He <-].
    by split; [apply Hkeep|].
Qed.


Lemma on_strategy_run {A} (m : M LRUBufferStrategy A) r s' (w : Pool L) :
  m (buffer_strategy_ (po_bp w)) = (r, s') →
  on_strategy m w = (r, set_bp (mkBufferPool s' (buffers_ (po_bp w)) (page_map_ (po_bp w))
    (systable_buffers_ (po_bp w)) (systable_hashmap_ (po_bp w))) w).
Proof. intros Hm. unfold on_strategy, zoom. by rewrite Hm. Qed.

(** Accessing a frame keeps the vector of the strategy well formed. *)
Lemma lru_access f vec n :
  lru_wf (mkLRU vec) n → 0 <= f < BUFFER_SIZE →
  lru_wf (mkLRU (f :: erase_first f vec)) (if f =? Z.of_nat n then S n else n).
Proof.
  unfold lru_wf. cbn [buffer_vec]. intros (Hnd & Hr & Hall) Hf. split; [|split].
  - constructor; [|by apply erase_first_NoDup]. rewrite erase_first_elem by done. naive_solver.
  - intros g [->|Hg]%elem_of_cons; [done|]. apply erase_first_elem in Hg; naive_solver.
  - intros i Hi. rewrite elem_of_cons, erase_first_elem by done.
    destruct (decide (Z.of_nat i = f)) as [|Hne]; [by left|right]. split; [|done]. apply Hall.
    destruct (Z.eqb_spec f (Z.of_nat n)); lia.
Qed.

(** A full pool has a victim, which is one of its frames. *)
Lemma lru_evict s n :
  lru_wf s n → (0 < n)%nat → n = Z.to_nat BUFFER_SIZE →
  ∃ i vec, (i < n)%nat ∧ LRU_Evict s = (Ok (Z.of_nat i), mkLRU vec) ∧
    head (buffer_vec s) ≠ Some (Z.of_nat i) ∧
    lru_wf (mkLRU (Z.of_nat i :: erase_first (Z.of_nat i) vec)) n.
Proof.
  destruct s as [vec]. unfold lru_wf. cbn [buffer_vec]. intros (Hnd & Hr & Hall) Hn Hfull.
  destruct vec as [|x vec' _] using rev_ind.
  { specialize (Hall 0%nat Hn). by apply not_elem_of_nil in Hall. }
  apply NoDup_app in Hnd as (Hnd & Hnot & _).
  assert (x ∉ vec') as Hx by (intros Hx; apply (Hnot _ Hx); by apply list_elem_of_singleton).
  assert (0 <= x < BUFFER_SIZE) as Hxr by (apply Hr; set_solver).
  exists (Z.to_nat x), vec'. rewrite Z2Nat.id by lia.
  split; [lia|]. split; [by apply LRU_Evict_run|]. split.
  { destruct vec' as [|y vec']; [|simpl; intros [= ->]; apply Hx; by left].
    assert (∀ i, (i < n)%nat → Z.of_nat i = x) as Hone by (intros j Hj; specialize (Hall j Hj); set_solver).
    assert (n = 5%nat) as Hn5 by done. pose proof (Hone 0%nat ltac:(lia)). pose proof (Hone 1%nat ltac:(lia)). lia. }
  assert (erase_first x vec' = vec') as ->.
  { rewrite erase_first_filter by done. apply list_filter_all, Forall_forall. intros y Hy ->. done. }
  split; [by constructor|]. split.
  - intros f Hf. apply Hr. set_solver.
  - intros i Hi. specialize (Hall i Hi). set_solver.
Qed.

(** The entry is pushed at the end of its vector. *)
Lemma add_push pending k l p w strat :
  addable pending k l p w →
  lru_wf strat (length (if is_sys k then buffers_ (po_bp w) else buffers_ (po_bp w) ++ [new_entry k l])) →
  (length (if is_sys k then buffers_ (po_bp w) else buffers_ (po_bp w) ++ [new_entry k l])
    ≤ Z.to_nat BUFFER_SIZE)%nat →
  (is_sys k = true ∨ head (buffer_vec strat) = Some (Z.of_nat (length (buffers_ (po_bp w))))) →
  let v := sel_buffers (is_sys k) (po_bp w) in
  let b := mkBufferPool strat (buffers_ (po_bp w)) (page_map_ (po_bp w))
             (systable_buffers_ (po_bp w)) (systable_hashmap_ (po_bp w)) in
  added pending k l p w
    (set_bp (set_buffers (is_sys k) (v ++ [new_entry k l])
       (set_map (is_sys k) (<[k := Z.of_nat (length v)]> (sel_map (is_sys k) (po_bp w))) b)) w).
Proof.
  intros Hadd Hlru Hcap Hhead v b. pose proof Hadd as [Hi Hr Hf Hout Hl Hlen Hclean Hfresh].
  apply (frame_of_None _ _ _ Hi) in Hout.
  assert (frames_wf (v ++ [new_entry k l])
    (<[k := Z.of_nat (length v)]> (sel_map (is_sys k) (po_bp w)))) as Hpush.
  { rewrite <- (new_entry_key k l) at 2. apply frames_push; [apply (pi_frames _ _ Hi)|].
    by rewrite new_entry_key. }
  assert (∀ s e, e ∈ sel_buffers s (po_bp w) → e ∈ sel_buffers s (po_bp (set_bp
    (set_buffers (is_sys k) (v ++ [new_entry k l])
       (set_map (is_sys k) (<[k := Z.of_nat (length v)]> (sel_map (is_sys k) (po_bp w))) b)) w))) as Hkeep.
  { intros s e He. unfold v. destruct s, (is_sys k); try done; cbn; apply elem_of_app; by left. }
  apply added_intro; try done; try apply Hi.
  - intros s. pose proof (pi_frames _ _ Hi s) as Hs. unfold v in *. destruct s, (is_sys k); done.
  - unfold v. destruct (is_sys k); cbn; apply elem_of_app; right; by apply list_elem_of_singleton.
  - intros s e. unfold v. destruct s, (is_sys k); cbn; rewrite ?elem_of_app, ?list_elem_of_singleton; naive_solver.
  - intros s e He Hn. by destruct Hn; apply Hkeep.
  - unfold v. destruct (is_sys k); done.
  - unfold v. destruct (is_sys k); done.
  - unfold recent, v. destruct (is_sys k) eqn:Hs; cbn; eexists; (split; [apply lookup_insert_eq|]); [by left|].
    right. by destruct Hhead.
  - intros e _. apply Hkeep.
Qed.

(** A full pool replaces the victim, after writing it back. *)
Lemma add_evict k l p w :
  addable None k l p w ∨ addable (Some l) k l p w →
  is_sys k = false → length (buffers_ (po_bp w)) = Z.to_nat BUFFER_SIZE →
  ∃ w', AddToBuffer (db_of (table_oid_ k)) (table_oid_ k) (tp_page_id_ k) l w = (Ok (), w') ∧
    ∀ pending, addable pending k l p w → added pending k l p w w'.
Proof.
  intros Hor Hsys Hfull.
  assert (pool_inv None w) as Hi by (by destruct Hor as [[]|[]]).
  destruct (lru_evict (buffer_strategy_ (po_bp w)) (length (buffers_ (po_bp w)))) as
    (i & vec & Hlt & Hev & Hhd & Hlru); [apply Hi|rewrite Hfull; by compute; lia|done|].
  destruct (lookup_lt_is_Some_2 _ _ Hlt) as [victim Hvic].
  assert (victim ∈ sel_buffers false (po_bp w)) as Hvin by (by eapply list_elem_of_lookup_2).
  destruct (pool_entry_ok None false w victim Hi Hvin) as [pv Hpv].
  set (b1 := mkBufferPool (mkLRU vec) (buffers_ (po_bp w)) (page_map_ (po_bp w))
    (systable_buffers_ (po_bp w)) (systable_hashmap_ (po_bp w))).
  destruct (FlushPage_run None (set_bp b1 w) i victim pv) as (l' & Hflush & Hfl & _); [|done|done|].
  { destruct Hpv. by split. }
  eexists. split.
  - unfold AddToBuffer. rewrite get_step. unfold is_sys in Hsys. rewrite Hsys.
    rewrite Hfull. rewrite Z2Nat.id by done. rewrite Z.eqb_refl.
    rewrite (M_bind_step _ _ _ _ _ (on_strategy_run _ _ _ w Hev)). fold b1.
    rewrite (M_bind_step _ _ _ _ _ Hflush).
    rewrite (M_bind_step _ _ _ _ _ (on_strategy_run (LRU_Access _) _ _ _ (LRU_Access_run _ _))).
    unfold on_bp, set_key. rewrite modify_step. reflexivity.
  - intros pending Hadd. cbn -[delete insert erase_first set_wal]. rewrite Nat2Z.id.
    pose proof Hadd as [_ Hr Hf Hout Hl Hlen Hclean Hfresh].
    apply (frame_of_None _ _ _ Hi) in Hout. rewrite Hsys in Hout.
    pose proof (pi_frames _ _ Hi false) as Hwf. cbn in Hwf, Hout.
    fold (new_entry k l).
    assert (mkTPid (table_oid_ k) (tp_page_id_ k) = k) as -> by (by destruct k).
    destruct Hfl as [Hok' Hpg Hoth Hfiles Hsz].
    assert (∀ x, x ∈ <[i:=new_entry k l]> (buffers_ (po_bp w)) ↔
      x = new_entry k l ∨ x ∈ buffers_ (po_bp w) ∧ entry_key x ≠ entry_key victim) as Hrep
      by (intros x; by eapply replace_elem).
    apply added_intro; try done.
    + intros [|]; [apply (pi_frames _ _ Hi true)|]. cbn.
      rewrite <- (new_entry_key k l) at 2. eapply frames_replace; [done|done|by rewrite new_entry_key].
    + rewrite Hsys. cbn. apply Hrep. by left.
    + intros [|] e; cbn; [by right|]. rewrite Hrep, Hsys. naive_solver.
    + intros [|] e; cbn; [done|]. rewrite Hrep. intros He Hne. exists pv.
      assert (e = victim) as ->; [|split; [apply Hpv|done]].
      apply (entry_unique _ _ false _ _ Hi He Hvin).
      destruct (decide (entry_key e = entry_key victim)); [done|naive_solver].
    + intros k' b Hr' Hb Hst. apply Hoth; [done| |done]. intros ->.
      assert (is_sys (entry_key victim) = false) as Hsv by apply Hpv. rewrite Hsv in Hst.
      specialize (Hst victim Hvin eq_refl). cbn in Hst. apply Hrep in Hst as [->|[_ Hst]]; [|done].
      rewrite new_entry_key in *. by destruct (Hfresh false (new_entry k l)).
    + cbn. rewrite length_insert. apply Hi.
    + cbn. by rewrite length_insert.
    + unfold recent. rewrite Hsys. exists (Z.of_nat i). cbn. split; [apply lookup_insert_eq|by right].
    + intros e (j & Hm & Hj) He. destruct (is_sys (entry_key e)) eqn:Hse; [done|]. cbn. apply Hrep. right.
      split; [done|]. intros Hk'. destruct Hj as [?|Hj]; [done|]. apply Hhd. rewrite Hj. f_equal.
      cbn in Hm. rewrite Hk' in Hm. destruct Hwf as [_ Hv]. rewrite (Hv i victim Hvic) in Hm. by injection Hm.
Qed.

Lemma AddToBuffer_run pending k l p w :
  pending = None ∨ pending = Some l → addable pending k l p w →
  ∃ w', AddToBuffer (db_of (table_oid_ k)) (table_oid_ k) (tp_page_id_ k) l w = (Ok (), w') ∧
    added pending k l p w w'.
Proof.
  intros Hpend Hadd. pose proof (ab_inv _ _ _ _ _ Hadd) as Hi.
  assert (mkTPid (table_oid_ k) (tp_page_id_ k) = k) as Hk by (by destruct k).
  destruct (is_sys k) eqn:Hsys.
  - pose proof (add_push pending k l p w (buffer_strategy_ (po_bp w)) Hadd) as Hpush.
    rewrite Hsys in Hpush. eexists. split; [|apply Hpush; (by left) || apply Hi].
    unfold AddToBuffer. rewrite get_step. unfold is_sys in Hsys. rewrite Hsys, Hk. by destruct w as [? []].
  - destruct (decide (length (buffers_ (po_bp w)) = Z.to_nat BUFFER_SIZE)) as [Hfull|Hroom].
    + destruct (add_evict k l p w) as (w' & Hrun & Hall); [destruct Hpend as [->| ->]; auto|done|done|]. eauto.
    + pose proof (pi_cap _ _ Hi) as Hcap. pose proof (pi_lru _ _ Hi) as Hlru.
      destruct (buffer_strategy_ (po_bp w)) as [vec] eqn:Hvec.
      pose proof (lru_access (Z.of_nat (length (buffers_ (po_bp w)))) vec _ Hlru) as Hacc.
      rewrite Z.eqb_refl in Hacc.
      pose proof (add_push pending k l p w (mkLRU (Z.of_nat (length (buffers_ (po_bp w)))
        :: erase_first (Z.of_nat (length (buffers_ (po_bp w)))) vec)) Hadd) as Hpush.
      rewrite Hsys, length_app in Hpush. eexists. split; [|apply Hpush].
      * unfold AddToBuffer. rewrite get_step. unfold is_sys in Hsys. rewrite Hsys, Hk.
        destruct (Z.eqb_spec (Z.of_nat (length (buffers_ (po_bp w)))) BUFFER_SIZE) as [He|_]; [lia|].
        rewrite (M_bind_step _ _ _ _ _ (on_strategy_run (LRU_Access _) _ _ _ eq_refl)).
        rewrite Hvec. by destruct w as [? []].
      * rewrite Nat.add_1_r. apply Hacc. lia.
      * simpl. lia.
      * by right.
Qed.

(** *** Reading a page *)

Definition set_heap (h : gmap loc Page) (n : loc) (w : Pool L) : Pool L := mkPool (po_wal w) (po_bp w) h n.

Lemma disk_page_fs d d' k : fs_ d' = fs_ d → disk_page d' k = disk_page d k.
Proof. intros He. unfold disk_page, page_at. by rewrite He. Qed.

Lemma key_file_fs d d' k : fs_ d' = fs_ d → key_file d' k ↔ key_file d k.
Proof. intros He. unfold key_file. by rewrite He. Qed.

Lemma disk_page_file d k b : disk_page d k = Some b → key_file d k.
Proof.
  unfold disk_page, page_at, key_file, file_data. intros (d0 & Hd & _)%bind_Some.
  apply bind_Some in Hd as (i & Hi & _). by rewrite Hi.
Qed.

(** Reading the disk changes nothing but the counters and streams of the disk. *)
Lemma pool_inv_wal pending l' (w : Pool L) :
  pool_inv pending w → wal_ok l' → fs_ (wal_disk l') = fs_ (disk_of w) → pool_inv pending (set_wal l' w).
Proof.
  intros Hi Hok Hfs. split; try done; try apply Hi.
  - intros s e He. destruct (pi_entry _ _ Hi s e He) as (?&?&?&?). split; [done|].
    split; [by apply (key_file_fs _ _ _ Hfs)|done].
  - intros s e He. destruct (pi_page _ _ Hi s e He) as (p & ? & ? & Hc). exists p.
    split; [done|]. split; [done|]. intros Hd. destruct (Hc Hd); [by left|right].
    by rewrite (disk_page_fs _ _ _ Hfs).
Qed.

Lemma view_wal l' (w : Pool L) k :
  fs_ (wal_disk l') = fs_ (disk_of w) → view (set_wal l' w) k = view w k.
Proof.
  intros Hfs. unfold view. change (frame_of (set_wal l' w) k) with (frame_of w k).
  destruct (frame_of w k); [done|]. by apply disk_page_fs.
Qed.

(** Allocating a page does not touch the pool. *)
Lemma pool_inv_alloc pending p (w : Pool L) :
  pool_inv pending w →
  pool_inv pending (set_heap (<[po_next w := p]> (po_heap w)) (S (po_next w)) w) ∧
  (∀ s e, e ∈ sel_buffers s (po_bp w) → be_page_ e ≠ po_next w).
Proof.
  intros Hi.
  assert (∀ s e, e ∈ sel_buffers s (po_bp w) → be_page_ e ≠ po_next w) as Hne.
  { intros s e He Heq. destruct (pi_page _ _ Hi s e He) as (p' & Hp' & _).
    rewrite (pi_fresh _ _ Hi) in Hp' by lia. done. }
  split; [|done]. split; try done; try apply Hi.
  - intros s e He. cbn. rewrite lookup_insert_ne by (apply not_eq_sym; by eapply Hne). by apply (pi_page _ _ Hi s).
  - cbn. intros l Hl. rewrite lookup_insert_ne by lia. apply (pi_fresh _ _ Hi). lia.
Qed.

Lemma view_alloc pending p (w : Pool L) k :
  pool_inv pending w →
  view (set_heap (<[po_next w := p]> (po_heap w)) (S (po_next w)) w) k = view w k.
Proof.
  intros Hi. destruct (pool_inv_alloc _ p _ Hi) as [Hi' Hne]. unfold view.
  change (frame_of (set_heap _ _ _) k) with (frame_of w k).
  destruct (frame_of w k) as [e|] eqn:He; [|done]. apply (frame_of_Some _ _ _ _ Hi) in He as [He _].
  cbn. by rewrite lookup_insert_ne by (apply not_eq_sym; by eapply Hne).
Qed.

(** What an operation that only brings pages in leaves to its caller. *)
Record kept (w w' : Pool L) : Prop := {
  ke_view : ∀ k b, key_range k → view w k = Some b → view w' k = Some b;
  ke_files : ∀ k, key_file (disk_of w) k → key_file (disk_of w') k;
  ke_heap : ∀ l p, (l < po_next w)%nat → po_heap w !! l = Some p → po_heap w' !! l = Some p;
  ke_next : (po_next w ≤ po_next w')%nat;
  ke_log : log_size (disk_of w) <= log_size (disk_of w')
}.

#[export] Instance kept_preorder : PreOrder kept.
Proof.
  split.
  - intros w. by split.
  - intros w1 w2 w3 [] []. split; eauto with lia.
Qed.

(** [GetPage] finds the page in the pool. *)
Lemma GetPage_hit k e w :
  pool_inv None w → frame_of w k = Some e →
  ∃ w', GetPage (db_of (table_oid_ k)) (table_oid_ k) (tp_page_id_ k) w = (Ok (be_page_ e), w') ∧
    pool_inv None w' ∧ frame_of w' k = Some e ∧ kept w w' ∧ po_heap w' = po_heap w ∧
    (∀ k', frame_of w' k' = frame_of w k') ∧ recent w' k.
Proof.
  intros Hi Hf. assert (mkTPid (table_oid_ k) (tp_page_id_ k) = k) as Hk by (by destruct k).
  unfold frame_of in Hf. apply bind_Some in Hf as (i & Hm & He).
  destruct (fw_map _ _ (pi_frames _ _ Hi (is_sys k)) _ _ Hm) as (Hpos & _).
  assert (vec_at (sel_buffers (is_sys k) (po_bp w)) i = Ok e) as Hvec.
  { unfold vec_at. rewrite He. by destruct (Z.ltb_spec i 0); [lia|]. }
  unfold GetPage. rewrite get_step, Hk. fold (is_sys k). rewrite Hm. destruct (is_sys k) eqn:Hsys.
  - exists w. rewrite (M_bind_step _ _ _ w () eq_refl), (lift_step _ e) by done.
    split; [done|]. split; [done|]. split; [unfold frame_of; rewrite Hsys; rewrite Hm; exact He|].
    do 3 (split; [done|]). exists i. rewrite Hsys. split; [done|by left].
  - destruct (pi_lru _ _ Hi) as (Hnd & Hlr & Hall).
    pose proof (lookup_lt_Some _ _ _ He) as Hlt. cbn in Hlt.
    pose proof (pi_cap _ _ Hi) as Hcap.
    pose proof (lru_access i (buffer_vec (buffer_strategy_ (po_bp w))) _ (pi_lru _ _ Hi)) as Hacc.
    eexists. split; [|split; [|split; [|split; [|split; [|split]]]]].
    + rewrite (M_bind_step _ _ _ _ _ (on_strategy_run (LRU_Access i) _ _ w eq_refl)).
      rewrite (lift_step _ e) by done. reflexivity.
    + split; try apply Hi. cbn -[erase_first].
      destruct (Z.eqb_spec i (Z.of_nat (length (buffers_ (po_bp w))))); [lia|].
      apply Hacc. lia.
    + unfold frame_of. rewrite Hsys. cbn. cbn in Hm. rewrite Hm. exact He.
    + by split.
    + done.
    + done.
    + exists i. rewrite Hsys. split; [done|by right].
Qed.

(** [GetPage] reads the page from the disk. *)
Lemma GetPage_miss k b w :
  pool_inv None w → key_range k → frame_of w k = None → disk_page (disk_of w) k = Some b →
  ∃ l w', GetPage (db_of (table_oid_ k)) (table_oid_ k) (tp_page_id_ k) w = (Ok l, w') ∧
    pool_inv None w' ∧ at_loc w' k l ∧ po_heap w' !! l = Some (Page_new b) ∧ kept w w' ∧
    (∀ k', is_Some (frame_of w' k') → k' = k ∨ is_Some (frame_of w k')) ∧
    recent w' k ∧ (∀ k', recent w k' → frame_of w' k' = frame_of w k').
Proof.
  intros Hi Hr Hf Hb. assert (mkTPid (table_oid_ k) (tp_page_id_ k) = k) as Hk by (by destruct k).
  pose proof (disk_page_file _ _ _ Hb) as Hfile. pose proof (page_at_length _ _ _ _ Hb) as Hlen.
  destruct Hr as (Hr1 & Hr2 & Hr3).
  destruct (ReadPage_ok (disk_of w) _ _ _ _ (wal_disk_ok _ (pi_wal _ _ Hi)) Hr1 Hr2 Hr3 Hb) as
    (d' & Hread & Hdok & Hfs & Hlog).
  set (l1 := wal_set_disk d' (po_wal w)).
  assert (wal_ok l1) as Hok1.
  { apply wal_pages; [apply Hi|done|]. split; [done|..]; intros; unfold disk_of in Hfs; by rewrite Hfs. }
  assert (fs_ (wal_disk l1) = fs_ (disk_of w)) as Hfs1 by (unfold l1; by rewrite wal_disk_set).
  pose proof (pool_inv_wal _ _ _ Hi Hok1 Hfs1) as Hi1.
  set (w1 := set_wal l1 w) in *.
  destruct (pool_inv_alloc _ (Page_new b) _ Hi1) as [Hi2 Hne].
  set (w2 := set_heap (<[po_next w1 := Page_new b]> (po_heap w1)) (S (po_next w1)) w1) in *.
  assert (addable None k (po_next w1) (Page_new b) w2) as Hadd.
  { split; try done.
    - by apply (key_file_fs _ _ _ Hfs1).
    - cbn. apply lookup_insert_eq.
    - intros _. right. etrans; [apply (disk_page_fs _ _ _ Hfs1)|done]. }
  destruct (AddToBuffer_run None k (po_next w1) (Page_new b) w2) as (w' & Hrun & Had); [by left|done|].
  exists (po_next w1), w'. split; [|split; [apply Had|split; [apply Had|split; [|split; [|split; [|split]]]]]].
  - unfold GetPage. rewrite get_step, Hk. apply (frame_of_None _ _ _ Hi) in Hf. unfold is_sys in Hf.
    rewrite Hf. rewrite (M_bind_step _ _ _ _ _ (on_disk_run _ _ _ w Hread)). fold l1 w1.
    assert (alloc_page (λ _, b) w1 = (Ok (po_next w1), w2)) as Hal by done.
    rewrite (M_bind_step _ _ _ _ _ Hal). by rewrite (M_bind_step _ _ _ _ _ Hrun).
  - rewrite (ad_heap _ _ _ _ _ _ Had). cbn. apply lookup_insert_eq.
  - split.
    + intros k' b' Hr' Hb'. destruct (decide (k' = k)) as [->|Hn].
      * rewrite view_out in Hb' by done. rewrite Hb in Hb'. injection Hb' as <-.
        apply (ad_view _ _ _ _ _ _ Had).
      * apply (ad_other _ _ _ _ _ _ Had); [done..|]. unfold w2. rewrite (view_alloc None) by done.
        unfold w1. by rewrite view_wal.
    + intros k' Hk'. apply (ad_files _ _ _ _ _ _ Had). by apply (key_file_fs _ _ _ Hfs1).
    + intros l0 p0 Hl0 Hp0. rewrite (ad_heap _ _ _ _ _ _ Had). cbn. rewrite lookup_insert_ne; [done|lia].
    + rewrite (ad_next _ _ _ _ _ _ Had). cbn. lia.
    + etransitivity; [|exact (ad_log _ _ _ _ _ _ Had)]. unfold w2, w1, l1, disk_of. cbn.
      rewrite wal_disk_set. unfold log_size. destruct Hlog as (_ & _ & ->). apply Z.le_refl.
  - exact (ad_frames _ _ _ _ _ _ Had).
  - exact (ad_recent _ _ _ _ _ _ Had).
  - exact (ad_keeps _ _ _ _ _ _ Had).
Qed.

Lemma GetPage_run k b w :
  pool_inv None w → key_range k → view w k = Some b →
  ∃ l w' p, GetPage (db_of (table_oid_ k)) (table_oid_ k) (tp_page_id_ k) w = (Ok l, w') ∧
    pool_inv None w' ∧ at_loc w' k l ∧ po_heap w' !! l = Some p ∧ data_ p = b ∧ kept w w' ∧
    (∀ k', is_Some (frame_of w' k') → k' = k ∨ is_Some (frame_of w k')) ∧
    recent w' k ∧ (∀ k', recent w k' → frame_of w' k' = frame_of w k').
Proof.
  intros Hi Hr Hb. destruct (frame_of w k) as [e|] eqn:Hf.
  - destruct (GetPage_hit k e w Hi Hf) as (w' & Hrun & Hi' & Hf' & Hkept & Hheap & Hsame & Hrec).
    unfold view in Hb. rewrite Hf in Hb. apply fmap_Some in Hb as (p & Hp & ->).
    exists (be_page_ e), w', p. rewrite Hheap. split; [done|]. split; [done|].
    split; [by exists e|]. split; [done|]. split; [done|]. split; [done|].
    split; [intros k'; rewrite Hsame; by right|done].
  - rewrite view_out in Hb by done.
    destruct (GetPage_miss k b w Hi Hr Hf Hb) as (l & w' & Hrun & Hi' & Hl & Hp & Hkept & Hfr & Hrec).
    exists l, w', (Page_new b). do 7 (split; [done|]). done.
Qed.

(** [GetPage] of a page that is neither in the pool nor in the file throws. *)
Lemma GetPage_absent k w :
  pool_inv None w → key_range k → key_file (disk_of w) k → frame_of w k = None → disk_page (disk_of w) k = None →
  ∃ e, (GetPage (db_of (table_oid_ k)) (table_oid_ k) (tp_page_id_ k) w).1 = Err e.
Proof.
  intros Hi (Hr1 & Hr2 & Hr3) Hfile Hf Hd. apply (frame_of_None _ _ _ Hi) in Hf.
  assert (mkTPid (table_oid_ k) (tp_page_id_ k) = k) as Hk by (by destruct k).
  destruct (ReadPage_missing (disk_of w) _ _ _ (wal_disk_ok _ (pi_wal _ _ Hi)) Hr1 Hr2 Hr3 Hfile Hd) as [e He].
  exists e. unfold GetPage. rewrite get_step, Hk. fold (is_sys k). rewrite Hf.
  unfold on_disk_, on_wal, zoom, mbind, M_bind. fold (disk_of w).
  destruct (ReadPage _ _ (disk_of w)) as [r d']. cbn [fst] in He. by subst r.
Qed.

(** A frame for the page without an eviction. *)
Definition room_for (w : Pool L) (k : TablePageid) : Prop :=
  is_Some (frame_of w k) ∨ is_sys k = true ∨ (length (buffers_ (po_bp w)) < Z.to_nat BUFFER_SIZE)%nat.

Lemma GetPage_room k w :
  room_for w k →
  ∃ d, po_wal (GetPage (db_of (table_oid_ k)) (table_oid_ k) (tp_page_id_ k) w).2 = wal_set_disk d (po_wal w).
Proof.
  intros Hroom. set (P := λ l, ∃ d, l = wal_set_disk d (po_wal w)).
  assert (P (po_wal w)) as Hw by (exists (wal_disk (po_wal w)); by rewrite wal_set_get).
  assert (∀ d l, P l → P (wal_set_disk d l)) as HP by (intros d l [d' ->]; exists d; by rewrite wal_set_set).
  change (P (po_wal (GetPage (db_of (table_oid_ k)) (table_oid_ k) (tp_page_id_ k) w).2)).
  assert (mkTPid (table_oid_ k) (tp_page_id_ k) = k) as Hk by (by destruct k).
  unfold GetPage. rewrite get_step, Hk. fold (is_sys k). destruct (sel_map (is_sys k) (po_bp w) !! k) as [i|] eqn:Hm.
  - apply (keeps_bind P); [apply keeps_if; [apply keeps_ret|apply keeps_on_strategy]| |done]. intros _.
    apply keeps_bind; [apply keeps_lift|]. intros e. apply keeps_ret.
  - assert (is_sys k = true ∨ (length (buffers_ (po_bp w)) < Z.to_nat BUFFER_SIZE)%nat) as Hr.
    { destruct Hroom as [Hs|Hr]; [|exact Hr]. unfold frame_of in Hs. rewrite Hm in Hs. by destruct Hs. }
    unfold mbind, M_bind. pose proof (keeps_on_disk P HP (ReadPage (GetFilePath (db_of (table_oid_ k)) (table_oid_ k))
      (tp_page_id_ k)) w Hw) as Hd.
    assert (po_bp (on_disk_ (ReadPage (GetFilePath (db_of (table_oid_ k)) (table_oid_ k)) (tp_page_id_ k)) w).2 =
      po_bp w) as Hbp by (unfold on_disk_, on_wal, zoom; by destruct (ReadPage _ _ _)).
    destruct (on_disk_ _ w) as [[data|x] w1]; [|exact Hd]. cbn [snd] in Hd, Hbp. unfold alloc_page.
    set (w2 := mkPool _ _ _ _). assert (P (po_wal w2)) as Hw2 by exact Hd.
    assert (P (po_wal (AddToBuffer (db_of (table_oid_ k)) (table_oid_ k) (tp_page_id_ k) (po_next w1) w2).2)) as Hadd.
    { unfold AddToBuffer. rewrite get_step. fold (is_sys k). destruct (is_sys k) eqn:Hs.
      - apply (keeps_bind P); [apply keeps_on_bp|intros _; apply keeps_on_bp|done].
      - destruct Hr as [?|Hr]; [done|]. cbn [w2 po_bp]. rewrite Hbp.
        destruct (Z.eqb_spec (Z.of_nat (length (buffers_ (po_bp w)))) BUFFER_SIZE) as [He|_]; [lia|].
        apply (keeps_bind P); [apply keeps_on_strategy| |done]. intros _.
        apply keeps_bind; [apply keeps_on_bp|]. intros _. apply keeps_on_bp. }
    by destruct (AddToBuffer _ _ _ _ w2) as [[?|?] ?].
Qed.

(** With the user pages of [D] only, there is room while [D] is small. *)
Lemma frames_room w k (D : gset TablePageid) :
  pool_inv None w → k ∈ D → (size D ≤ Z.to_nat BUFFER_SIZE)%nat →
  (∀ k', is_sys k' = false → is_Some (frame_of w k') → k' ∈ D) → room_for w k.
Proof.
  intros Hi Hk HD Hfr. unfold room_for. destruct (frame_of w k) as [e|] eqn:Hf; [by left; eexists|].
  destruct (is_sys k) eqn:Hs; [by right; left|]. right; right.
  set (keys := entry_key <$> buffers_ (po_bp w)).
  assert (∀ e, e ∈ buffers_ (po_bp w) → is_sys (entry_key e) = false ∧ frame_of w (entry_key e) = Some e) as Hin.
  { intros e He. destruct (pi_entry _ _ Hi false e He) as (_ & _ & _ & Hse). split; [done|].
    apply (frame_of_Some _ _ _ _ Hi). by rewrite Hse. }
  assert (NoDup (k :: keys)) as Hnd.
  { constructor.
    - intros (e & -> & He)%list_elem_of_fmap. destruct (Hin e He) as [_ Hfe]. congruence.
    - apply NoDup_alt. intros i j x Hx Hy. unfold keys in Hx, Hy. rewrite list_lookup_fmap in Hx, Hy.
      apply fmap_Some in Hx as (e1 & G1 & ->), Hy as (e2 & G2 & He).
      by apply (frames_unique _ _ _ _ _ _ (pi_frames _ _ Hi false) G1 G2). }
  assert (list_to_set (k :: keys) ⊆ D) as Hsub.
  { intros x. rewrite elem_of_list_to_set, elem_of_cons. intros [->|(e & -> & He)%list_elem_of_fmap]; [done|].
    destruct (Hin e He) as [? Hfe]. apply Hfr; [done|]. by rewrite Hfe. }
  apply subseteq_size in Hsub. rewrite size_list_to_set in Hsub by done. unfold keys in Hsub.
  cbn [length] in Hsub. rewrite length_fmap in Hsub. lia.
Qed.

(** [NewPage] for a page that is in the file's range but not in the pool. *)
Lemma NewPage_run k w :
  pool_inv None w → key_range k → key_file (disk_of w) k → frame_of w k = None →
  ∃ l w' p, NewPage (db_of (table_oid_ k)) (table_oid_ k) (tp_page_id_ k) w = (Ok l, w') ∧
    pool_inv (Some l) w' ∧ at_loc w' k l ∧ po_heap w' !! l = Some p ∧
    mem_len (data_ p) = DB_PAGE_SIZE ∧ is_dirty_ p = false ∧
    (∀ k' b, key_range k' → k' ≠ k → view w k' = Some b → view w' k' = Some b) ∧
    (∀ k', key_file (disk_of w) k' → key_file (disk_of w') k') ∧ log_size (disk_of w) <= log_size (disk_of w') ∧
    (∀ k', is_Some (frame_of w' k') → k' = k ∨ is_Some (frame_of w k')) ∧
    recent w' k ∧ (∀ k', recent w k' → frame_of w' k' = frame_of w k') ∧
    (∀ l0 p0, po_heap w !! l0 = Some p0 → po_heap w' !! l0 = Some p0).
Proof.
  intros Hi Hr Hfile Hout.
  set (p := Page_new (fresh_page (po_next w))).
  destruct (pool_inv_alloc _ p _ Hi) as [Hi2 Hne].
  set (w2 := set_heap (<[po_next w := p]> (po_heap w)) (S (po_next w)) w) in *.
  assert (addable (Some (po_next w)) k (po_next w) p w2) as Hadd.
  { split; try done.
    - cbn. apply lookup_insert_eq.
    - apply fresh_page_len.
    - intros _. by left. }
  destruct (AddToBuffer_run _ k (po_next w) p w2 (or_intror eq_refl) Hadd) as (w' & Hrun & Had).
  exists (po_next w), w', p. split; [|split; [apply Had|split; [apply Had|split; [|split; [|split; [|split; [|split; [|split; [|split; [|split; [|split]]]]]]]]]]].
  - unfold NewPage. assert (alloc_page fresh_page w = (Ok (po_next w), w2)) as Hal by done.
    rewrite (M_bind_step _ _ _ _ _ Hal). by rewrite (M_bind_step _ _ _ _ _ Hrun).
  - rewrite (ad_heap _ _ _ _ _ _ Had). cbn. apply lookup_insert_eq.
  - apply fresh_page_len.
  - done.
  - intros k' b' Hr' Hn Hb'. apply (ad_other _ _ _ _ _ _ Had); [done..|].
    unfold w2. by rewrite (view_alloc None).
  - intros k' Hk'. by apply (ad_files _ _ _ _ _ _ Had).
  - exact (ad_log _ _ _ _ _ _ Had).
  - exact (ad_frames _ _ _ _ _ _ Had).
  - exact (ad_recent _ _ _ _ _ _ Had).
  - exact (ad_keeps _ _ _ _ _ _ Had).
  - intros l0 p0 Hp0. rewrite (ad_heap _ _ _ _ _ _ Had). cbn. rewrite lookup_insert_ne; [done|].
    intros <-. by rewrite (pi_fresh _ _ Hi) in Hp0.
Qed.

(** *** Changing a page in place *)

(** An operation on the page at [l] that leaves it dirty. *)
Lemma on_page_update {A} (m : M Page A) pending k l p p' r (w : Pool L) :
  pool_inv pending w → (pending = None ∨ pending = Some l) → at_loc w k l →
  po_heap w !! l = Some p → m p = (r, p') →
  mem_len (data_ p') = DB_PAGE_SIZE → is_dirty_ p' = true →
  ∃ w', on_page l m w = (r, w') ∧ pool_inv None w' ∧ view w' k = Some (data_ p') ∧
    at_loc w' k l ∧ po_heap w' !! l = Some p' ∧
    (∀ k', k' ≠ k → view w' k' = view w k') ∧ po_wal w' = po_wal w ∧ (∀ k', frame_of w' k' = frame_of w k').
Proof.
  intros Hi Hpend (e & Hfe & Hel) Hp Hm Hlen Hdirty.
  exists (set_heap (<[l := p']> (po_heap w)) (po_next w) w).
  pose proof Hfe as [He Hek]%(frame_of_Some _ _ _ _ Hi).
  assert (∀ s e', e' ∈ sel_buffers s (po_bp w) → be_page_ e' = l → e' = e) as Hsame
    by (intros s e' He' <-; by eapply (pi_locs _ _ Hi)).
  split; [unfold on_page; by rewrite Hp, Hm|].
  split; [|split; [|split; [by exists e|split; [cbn; apply lookup_insert_eq|split; [|split; done]]]]].
  - split; try done; try apply Hi; cbn.
    + intros s e' He'. destruct (decide (be_page_ e' = l)) as [Hl|Hl].
      * exists p'. rewrite Hl, lookup_insert_eq. split; [done|]. split; [done|]. congruence.
      * rewrite lookup_insert_ne by done. destruct (pi_page _ _ Hi s e' He') as (q & ? & ? & Hc).
        exists q. split; [done|]. split; [done|]. intros Hd. destruct (Hc Hd) as [Hq|]; [|by right].
        destruct Hpend; congruence.
    + intros l' Hl'. rewrite lookup_insert_ne; [by apply (pi_fresh _ _ Hi)|].
      intros <-. rewrite (pi_fresh _ _ Hi) in Hp by done. done.
  - unfold view. change (frame_of (set_heap _ _ w) k) with (frame_of w k). rewrite Hfe, Hel. cbn.
    by rewrite lookup_insert_eq.
  - intros k' Hn. unfold view. change (frame_of (set_heap _ _ w) k') with (frame_of w k').
    destruct (frame_of w k') as [e'|] eqn:Hfe'; [|done]. cbn.
    apply (frame_of_Some _ _ _ _ Hi) in Hfe' as [He' Hk']. rewrite lookup_insert_ne; [done|].
    intros Hl. symmetry in Hl. apply (Hsame _ _ He') in Hl. congruence.
Qed.

(** An operation that does not change the page at [l]. *)
Lemma on_page_pure {A} (m : M Page A) pending l p r (w : Pool L) :
  pool_inv pending w → po_heap w !! l = Some p → m p = (r, p) → on_page l m w = (r, w).
Proof. intros _. apply on_page_read. Qed.

(** *** Flushing *)

Definition flush_of (s : bool) : Z → M (Pool L) unit := if s then FlushSysTablePage else BufferPool_FlushPage.

Lemma flush_of_run s w i e p :
  entry_ok None s w e p → sel_buffers s (po_bp w) !! i = Some e →
  ∃ l', flush_of s (Z.of_nat i) w =
      (Ok (), set_bp (set_map s (delete (entry_key e) (sel_map s (po_bp w))) (po_bp w)) (set_wal l' w)) ∧
    flushed w e p l'.
Proof.
  intros He Hv. destruct s.
  - by apply (FlushSys_run None w i e p).
  - destruct (FlushPage_run None w i e p) as (l' & ? & ? & _); eauto.
Qed.

(** The loop has flushed the frames below [i] of the vector of [w]. *)
Record flushed_to (s : bool) (w : Pool L) (i : nat) (m' : gmap TablePageid Z) (l' : L) : Prop := {
  ft_wal : wal_ok l';
  ft_files : ∀ k, key_file (disk_of w) k → key_file (wal_disk l') k;
  ft_done : ∀ j e p, (j < i)%nat → sel_buffers s (po_bp w) !! j = Some e → po_heap w !! be_page_ e = Some p →
    disk_page (wal_disk l') (entry_key e) = Some (data_ p);
  ft_keep : ∀ k b, key_range k → disk_page (disk_of w) k = Some b →
    (∀ j e, (j < i)%nat → sel_buffers s (po_bp w) !! j = Some e → entry_key e ≠ k) →
    disk_page (wal_disk l') k = Some b;
  ft_map : ∀ k j, m' !! k = Some j ↔ sel_map s (po_bp w) !! k = Some j ∧ Z.of_nat i <= j
}.

Definition flush_state (s : bool) (m' : gmap TablePageid Z) (l' : L) (w : Pool L) : Pool L :=
  set_bp (set_map s m' (po_bp w)) (set_wal l' w).

Lemma sel_buffers_map s s' m b : sel_buffers s (set_map s' m b) = sel_buffers s b.
Proof. by destruct s, s'. Qed.
Lemma sel_map_set s m b : sel_map s (set_map s m b) = m.
Proof. by destruct s. Qed.
Lemma set_map_map s m m' b : set_map s m (set_map s m' b) = set_map s m b.
Proof. by destruct s. Qed.

Lemma flush_frames_run s w n i m' l' :
  pool_inv None w → (i + n)%nat = length (sel_buffers s (po_bp w)) → flushed_to s w i m' l' →
  ∃ m'' l'', flush_frames (flush_of s) n (Z.of_nat i) (flush_state s m' l' w) =
      (Ok (), flush_state s m'' l'' w) ∧ flushed_to s w (i + n) m'' l''.
Proof.
  intros Hi. revert i m' l'. induction n as [|n IH]; intros i m' l' Hn Hft.
  { exists m', l'. by rewrite Nat.add_0_r. }
  destruct (lookup_lt_is_Some_2 (sel_buffers s (po_bp w)) i) as [e He]; [lia|].
  assert (e ∈ sel_buffers s (po_bp w)) as Hin by (by eapply list_elem_of_lookup_2).
  destruct (pool_entry_ok _ _ _ _ Hi Hin) as [p Hp].
  pose proof (pi_frames _ _ Hi s) as Hwf. destruct Hft as [Hwal Hfiles Hdone Hkeep Hmap].
  assert (∀ j e', (j < i)%nat → sel_buffers s (po_bp w) !! j = Some e' → entry_key e' ≠ entry_key e) as Hother.
  { intros j e' Hj He' Hk. assert (j = i) by (by eapply frames_unique). lia. }
  destruct (flush_of_run s (flush_state s m' l' w) i e p) as (l2 & Hrun & [Hok2 Hpg2 Hoth2 Hf2]).
  { destruct Hp as [? ? ? ? ? ? ? Hclean]. split; try done; [by apply Hfiles|].
    intros Hd. right. destruct (Hclean Hd) as [|Hc]; [done|]. by apply Hkeep. }
  { unfold flush_state. cbn -[sel_buffers set_map]. by rewrite sel_buffers_map. }
  destruct (IH (S i) (delete (entry_key e) m') l2) as (m'' & l'' & Hrest & Hft'').
  - lia.
  - split; [done|..].
    + intros k Hk. by apply Hf2, Hfiles.
    + intros j e' p' Hj He' Hp'. destruct (decide (j = i)) as [->|Hne].
      * rewrite He in He'. injection He' as <-. rewrite (eo_heap _ _ _ _ _ Hp) in Hp'. injection Hp' as <-. done.
      * assert (e' ∈ sel_buffers s (po_bp w)) as He'in by (by eapply list_elem_of_lookup_2).
        apply Hoth2; [by apply (pi_entry _ _ Hi s)|apply (Hother j); [lia|done]|]. apply (Hdone j); [lia|done..].
    + intros k b Hk Hb Hn'. apply Hoth2; [done| |].
      * intros ->. by apply (Hn' i e); [lia|..].
      * apply Hkeep; [done..|]. intros j e' Hj. apply Hn'. lia.
    + intros k j. rewrite lookup_delete_Some, Hmap. pose proof (fw_vec _ _ Hwf _ _ He) as Hk.
      split; intros [Ha Hb].
      * split; [apply Hb|]. destruct (decide (j = Z.of_nat i)) as [->|]; [|lia].
        destruct (fw_map _ _ Hwf _ _ (proj1 Hb)) as (_ & e' & He' & Hk'). rewrite Nat2Z.id, He in He'. congruence.
      * split; [|split; [done|lia]]. intros <-. rewrite Hk in Ha. injection Ha. lia.
  - exists m'', l''. replace (i + S n)%nat with (S i + n)%nat by lia. split; [|done].
    cbn [flush_frames]. rewrite (M_bind_step _ _ _ _ _ Hrun).
    replace (Z.of_nat i + 1) with (Z.of_nat (S i)) by lia. rewrite <- Hrest. f_equal.
    unfold flush_state. cbn -[set_map sel_map]. by rewrite set_map_map, sel_map_set.
Qed.

Lemma flushed_to_0 s w : pool_inv None w → flushed_to s w 0 (sel_map s (po_bp w)) (po_wal w).
Proof.
  intros Hi. split; try done; try apply Hi.
  - intros; lia.
  - intros k j. split; [|tauto]. intros Hk. split; [done|].
    apply (fw_map _ _ (pi_frames _ _ Hi s)) in Hk as [? _]. lia.
Qed.

Lemma sel_set_buffers s s' v b :
  sel_buffers s (set_buffers s' v b) = if Bool.eqb s s' then v else sel_buffers s b.
Proof. by destruct s, s'. Qed.
Lemma sel_map_buffers s s' v b : sel_map s (set_buffers s' v b) = sel_map s b.
Proof. by destruct s, s'. Qed.
Lemma sel_set_map s s' m b :
  sel_map s (set_map s' m b) = if Bool.eqb s s' then m else sel_map s b.
Proof. by destruct s, s'. Qed.

(** One half of [Flush]: the loop and the [clear]. *)
Definition flush_half (s : bool) : M (Pool L) unit :=
  w ← get;
  flush_frames (flush_of s) (length (sel_buffers s (po_bp w))) 0 ;;
  on_bp (set_buffers s []).

Record flushed_half (s : bool) (w w' : Pool L) : Prop := {
  fh_inv : pool_inv None w';
  fh_empty : sel_buffers s (po_bp w') = [];
  fh_other : sel_buffers (negb s) (po_bp w') = sel_buffers (negb s) (po_bp w);
  fh_view : ∀ k b, key_range k → view w k = Some b → view w' k = Some b;
  fh_files : ∀ k, key_file (disk_of w) k → key_file (disk_of w') k;
  fh_heap : po_heap w' = po_heap w
}.

Lemma flush_half_run s w :
  pool_inv None w → ∃ w', flush_half s w = (Ok (), w') ∧ flushed_half s w w'.
Proof.
  intros Hi. set (n := length (sel_buffers s (po_bp w))).
  destruct (flush_frames_run s w n 0 (sel_map s (po_bp w)) (po_wal w)) as (m' & l' & Hrun & Hft);
    [done|done|by apply flushed_to_0|].
  destruct Hft as [Hwal Hfiles Hdone Hkeep Hmap].
  assert (flush_state s (sel_map s (po_bp w)) (po_wal w) w = w) as Hid.
  { unfold flush_state. by destruct w as [? [] ? ?], s. }
  rewrite Hid in Hrun.
  assert (m' = ∅) as ->.
  { apply map_empty. intros k. destruct (m' !! k) as [j|] eqn:Hk; [|done]. apply Hmap in Hk as [Hk Hj].
    destruct (fw_map _ _ (pi_frames _ _ Hi s) _ _ Hk) as (_ & e & He & _). apply lookup_lt_Some in He. lia. }
  exists (set_bp (set_buffers s [] (set_map s ∅ (po_bp w))) (set_wal l' w)).
  set (w' := set_bp _ _).
  assert (∀ e, e ∈ sel_buffers s (po_bp w) → ∃ j, (j < 0 + n)%nat ∧ sel_buffers s (po_bp w) !! j = Some e) as Hidx.
  { intros e [j Hj]%list_elem_of_lookup. exists j. pose proof (lookup_lt_Some _ _ _ Hj). split; [lia|done]. }
  assert (sel_buffers s (po_bp w') = []) as Hempty by (unfold w'; destruct s; done).
  assert (sel_buffers (negb s) (po_bp w') = sel_buffers (negb s) (po_bp w)) as Hoth by (unfold w'; destruct s; done).
  assert (∀ s' e, e ∈ sel_buffers s' (po_bp w') → s' = negb s ∧ e ∈ sel_buffers s' (po_bp w)) as Hin.
  { intros s' e He. destruct (decide (s' = s)) as [->|Hs]; [rewrite Hempty in He; by apply not_elem_of_nil in He|].
    assert (s' = negb s) as -> by (by destruct s', s). rewrite Hoth in He. done. }
  assert (pool_inv None w') as Hi'.
  { split; try done; try apply Hi.
    - intros s'. unfold w'. cbn -[set_buffers set_map].
      rewrite sel_set_buffers, sel_map_buffers, sel_buffers_map, sel_set_map.
      destruct (Bool.eqb s' s); [|apply (pi_frames _ _ Hi)]. by split.
    - intros s' e [-> He]%Hin. destruct (pi_entry _ _ Hi _ e He) as (?&?&?&?). split; [done|].
      split; [by apply Hfiles|done].
    - intros s' e [Hs He]%Hin. destruct (pi_page _ _ Hi _ e He) as (p & ? & ? & Hc). exists p.
      split; [done|]. split; [done|]. intros Hd. right. destruct (Hc Hd) as [|Hc']; [done|].
      destruct (pi_entry _ _ Hi _ e He) as (Hr&_&_&Hse). apply Hkeep; [done..|].
      intros j e' _ Hj Hk. apply list_elem_of_lookup_2 in Hj. apply (pi_entry _ _ Hi) in Hj as (_&_&_&Hse').
      rewrite Hk, Hse, Hs in Hse'. by destruct s.
    - intros s1 e1 s2 e2 [_ He1]%Hin [_ He2]%Hin. by apply (pi_locs _ _ Hi s1 e1 s2 e2).
    - unfold w'. destruct s; [apply Hi|]. cbn. lia.
    - unfold w'. destruct s; [apply Hi|]. destruct (pi_lru _ _ Hi) as (?&?&?). split; [done|]. split; [done|].
      cbn. lia. }
  split.
  - unfold flush_half. rewrite get_step. fold n. change 0 with (Z.of_nat 0).
    rewrite (M_bind_step _ _ _ _ _ Hrun). done.
  - split; try done. intros k b Hr Hb. destruct (frame_of w k) as [e|] eqn:Hfe.
    + apply (frame_of_Some _ _ _ _ Hi) in Hfe as [He Hk]. subst k.
      destruct (pool_entry_ok _ _ _ _ Hi He) as [p Hp]. rewrite (view_in _ _ _ p Hi He (eo_heap _ _ _ _ _ Hp)) in Hb.
      injection Hb as <-. destruct (decide (is_sys (entry_key e) = s)) as [Hs|Hs].
      * rewrite view_out.
        -- rewrite Hs in He. destruct (Hidx _ He) as (j & Hj & Hje). apply (Hdone j); [done..|]. apply Hp.
        -- apply (frame_of_None _ _ _ Hi'). rewrite Hs. unfold w'. by destruct s.
      * assert (is_sys (entry_key e) = negb s) as Hs' by (by destruct (is_sys (entry_key e)), s).
        apply (view_in None); [done| |apply Hp]. rewrite Hs', Hoth. by rewrite Hs' in He.
    + pose proof Hfe as Hout. rewrite view_out in Hb by done. rewrite view_out.
      * apply Hkeep; [done..|]. intros j e _ Hj Hk. apply list_elem_of_lookup_2 in Hj.
        assert (frame_of w k = Some e) as Hs; [|congruence]. apply (frame_of_Some _ _ _ _ Hi). split; [|done].
        destruct (pi_entry _ _ Hi s e Hj) as (_&_&_&Hse). by rewrite <- Hk, Hse.
      * apply (frame_of_None _ _ _ Hi) in Hout. apply (frame_of_None _ _ _ Hi'). unfold w'.
        cbn -[set_buffers set_map]. rewrite sel_map_buffers, sel_set_map. by destruct (Bool.eqb (is_sys k) s).
Qed.

Lemma BufferPool_Flush_halves regular_only (w : Pool L) :
  BufferPool_Flush regular_only w =
    (flush_half false ;; if regular_only then mret () else flush_half true) w.
Proof.
  unfold BufferPool_Flush, flush_half. rewrite bind_assoc_run, !get_step. cbn [flush_of sel_buffers].
  by rewrite !bind_assoc_run.
Qed.

Lemma BufferPool_Flush_run w :
  pool_inv None w →
  ∃ w', BufferPool_Flush false w = (Ok (), w') ∧ pool_inv None w' ∧
    buffers_ (po_bp w') = [] ∧ systable_buffers_ (po_bp w') = [] ∧
    (∀ k b, key_range k → view w k = Some b → view w' k = Some b ∧ disk_page (disk_of w') k = Some b) ∧
    (∀ k, key_file (disk_of w) k → key_file (disk_of w') k).
Proof.
  intros Hi.
  destruct (flush_half_run false w Hi) as (w1 & Hrun1 & [Hi1 He1 _ Hv1 Hf1 _]).
  destruct (flush_half_run true w1 Hi1) as (w2 & Hrun2 & [Hi2 He2 Ho2 Hv2 Hf2 _]).
  exists w2. split; [|split; [done|split; [|split; [done|split]]]].
  - rewrite BufferPool_Flush_halves. by rewrite (M_bind_step _ _ _ _ _ Hrun1).
  - cbn in Ho2, He1. congruence.
  - intros k b Hr Hb. assert (view w2 k = Some b) as Hv by auto. split; [done|].
    rewrite view_out in Hv; [done|]. destruct (frame_of w2 k) as [e|] eqn:Hfe; [|done].
    apply (frame_of_Some _ _ _ _ Hi2) in Hfe as [He _]. exfalso.
    destruct (is_sys k); cbn in *; [rewrite He2 in He|rewrite Ho2, He1 in He]; by apply not_elem_of_nil in He.
  - auto.
Qed.

(** ** A map of pages *)

(** What the clients of the pool do: read a page, overwrite one and mark it
    dirty, create one and fill it, flush. *)
Inductive page_op := PGet (k : TablePageid) | PPut (k : TablePageid) (data : bytes)
  | PNew (k : TablePageid) (data : bytes) | PFlush.

Definition page_fill (data : bytes) : M Page unit := modify (λ p, SetDirty (mkPage data (is_dirty_ p))).

Definition run_page_op (op : page_op) : M (Pool L) (option bytes) :=
  match op with
  | PGet k => l ← GetPage (db_of (table_oid_ k)) (table_oid_ k) (tp_page_id_ k);
              data ← on_page l (gets data_); mret (Some data)
  | PPut k data => l ← GetPage (db_of (table_oid_ k)) (table_oid_ k) (tp_page_id_ k);
                   on_page l (page_fill data) ;; mret None
  | PNew k data => l ← NewPage (db_of (table_oid_ k)) (table_oid_ k) (tp_page_id_ k);
                   on_page l (page_fill data) ;; mret None
  | PFlush => BufferPool_Flush false ;; mret None
  end.

Fixpoint run_page_ops (ops : list page_op) : M (Pool L) (list (option bytes)) :=
  match ops with
  | [] => mret []
  | op :: ops => r ← run_page_op op; rs ← run_page_ops ops; mret (r :: rs)
  end.

(** The specification: a map. [files] are the pages of existing tables. *)
Definition spec_op (op : page_op) (m : gmap TablePageid bytes) : gmap TablePageid bytes :=
  match op with
  | PPut k data | PNew k data => <[k := data]> m
  | _ => m
  end.
Definition spec_result (op : page_op) (m : gmap TablePageid bytes) : option bytes :=
  match op with PGet k => m !! k | _ => None end.

Fixpoint spec_ops (ops : list page_op) (m : gmap TablePageid bytes) : gmap TablePageid bytes * list (option bytes) :=
  match ops with
  | [] => (m, [])
  | op :: ops => let '(m', rs) := spec_ops ops (spec_op op m) in (m', spec_result op m :: rs)
  end.

Definition op_ok (files : TablePageid → Prop) (op : page_op) (m : gmap TablePageid bytes) : Prop :=
  match op with
  | PGet k => is_Some (m !! k)
  | PPut k data => is_Some (m !! k) ∧ mem_len data = DB_PAGE_SIZE
  | PNew k data => m !! k = None ∧ key_range k ∧ files k ∧ mem_len data = DB_PAGE_SIZE
  | PFlush => True
  end.
Fixpoint ops_ok (files : TablePageid → Prop) (ops : list page_op) (m : gmap TablePageid bytes) : Prop :=
  match ops with
  | [] => True
  | op :: ops => op_ok files op m ∧ ops_ok files ops (spec_op op m)
  end.

Record refines_map (m : gmap TablePageid bytes) (w : Pool L) : Prop := {
  rm_inv : pool_inv None w;
  rm_view : ∀ k b, m !! k = Some b → key_range k ∧ view w k = Some b;
  rm_frames : ∀ k, is_Some (frame_of w k) → is_Some (m !! k)
}.

Lemma page_op_ok files op m w :
  refines_map m w → (∀ k, files k → key_file (disk_of w) k) → op_ok files op m →
  ∃ w', run_page_op op w = (Ok (spec_result op m), w') ∧ refines_map (spec_op op m) w' ∧
    (∀ k, files k → key_file (disk_of w') k).
Proof.
  intros [Hi Hv Hfr] Hfiles Hok. destruct op as [k|k data|k data|]; cbn [run_page_op spec_op spec_result op_ok] in *.
  - destruct Hok as [b Hk]. destruct (Hv _ _ Hk) as [Hr Hb].
    destruct (GetPage_run k b w Hi Hr Hb) as (l & w' & p & Hrun & Hi' & _ & Hp & Hd & [Hkv Hkf _ _] & Hf').
    exists w'. split; [|split; [split; [done|..]|auto]].
    + rewrite (M_bind_step _ _ _ _ _ Hrun).
      rewrite (M_bind_step _ _ _ _ _ (on_page_read l p (gets data_) _ w' Hp eq_refl)).
      by rewrite Hd, Hk.
    + intros k' b' Hk'. destruct (Hv _ _ Hk'). auto.
    + intros k' [->|Hs]%Hf'; [by exists b|auto].
  - destruct Hok as [[b Hk] Hlen]. destruct (Hv _ _ Hk) as [Hr Hb].
    destruct (GetPage_run k b w Hi Hr Hb) as (l & w1 & p & Hrun & Hi1 & Hl & Hp & _ & [Hkv Hkf _ _] & Hf1).
    destruct (on_page_update (page_fill data) None k l p (mkPage data true) (Ok ()) w1) as
      (w' & Hup & Hi' & Hv' & _ & _ & Hoth & Hwal & Hf'); try done; [by left|].
    exists w'. split; [|split; [split; [done|..]|]].
    + by rewrite (M_bind_step _ _ _ _ _ Hrun), (M_bind_step _ _ _ _ _ Hup).
    + intros k' b' [[<- <-]|[Hne Hk']]%lookup_insert_Some; [done|]. destruct (Hv _ _ Hk').
      rewrite Hoth by done. auto.
    + intros k' Hs. rewrite Hf' in Hs. destruct (decide (k' = k)) as [->|Hne]; [rewrite lookup_insert_eq; eauto|].
      rewrite lookup_insert_ne by done. apply Hf1 in Hs as [?|?]; [done|auto].
    + intros k' Hk'. unfold disk_of. rewrite Hwal. by apply Hkf, Hfiles.
  - destruct Hok as (Hk & Hr & Hfk & Hlen).
    assert (frame_of w k = None) as Hout.
    { destruct (frame_of w k) as [e|] eqn:He; [|done]. destruct (Hfr k); [by rewrite He|congruence]. }
    destruct (NewPage_run k w Hi Hr (Hfiles _ Hfk) Hout) as
      (l & w1 & p & Hrun & Hi1 & Hl & Hp & _ & _ & Hkv & Hkf & Hf1).
    destruct (on_page_update (page_fill data) (Some l) k l p (mkPage data true) (Ok ()) w1) as
      (w' & Hup & Hi' & Hv' & _ & _ & Hoth & Hwal & Hf'); try done; [by right|].
    exists w'. split; [|split; [split; [done|..]|]].
    + by rewrite (M_bind_step _ _ _ _ _ Hrun), (M_bind_step _ _ _ _ _ Hup).
    + intros k' b' [[<- <-]|[Hne Hk']]%lookup_insert_Some; [done|]. destruct (Hv _ _ Hk').
      rewrite Hoth by done. auto.
    + intros k' Hs. rewrite Hf' in Hs. destruct (decide (k' = k)) as [->|Hne]; [rewrite lookup_insert_eq; eauto|].
      rewrite lookup_insert_ne by done. apply Hf1 in Hs as [?|?]; [done|auto].
    + intros k' Hk'. unfold disk_of. rewrite Hwal. by apply Hkf, Hfiles.
  - destruct (BufferPool_Flush_run w Hi) as (w' & Hrun & Hi' & He1 & He2 & Hkv & Hkf).
    exists w'. split; [|split; [split; [done|..]|auto]].
    + by rewrite (M_bind_step _ _ _ _ _ Hrun).
    + intros k b Hk. destruct (Hv _ _ Hk) as [Hr Hb]. split; [done|]. by apply Hkv.
    + intros k [e He]. apply (frame_of_Some _ _ _ _ Hi') in He as [He _].
      destruct (is_sys k); cbn in He; rewrite ?He1, ?He2 in He; by apply not_elem_of_nil in He.
Qed.

(** C19: the pool of [BUFFER_SIZE] frames, with eviction, write-back and flushes,
    is indistinguishable from a map of all pages: any sequence of reads, writes,
    page creations and flushes returns what the map returns, and ends in a state
    that again refines the map. *)
Theorem buffer_pool_is_a_map files ops m w :
  refines_map m w → (∀ k, files k → key_file (disk_of w) k) → ops_ok files ops m →
  ∃ w', run_page_ops ops w = (Ok (spec_ops ops m).2, w') ∧ refines_map (spec_ops ops m).1 w' ∧
    (length (buffers_ (po_bp w')) ≤ Z.to_nat BUFFER_SIZE)%nat.
Proof.
  revert m w. induction ops as [|op ops IH]; intros m w Hrm Hfiles Hok; cbn [ops_ok spec_ops run_page_ops] in *.
  - exists w. split; [done|]. split; [done|]. apply Hrm.
  - destruct Hok as [Ho Hok]. destruct (page_op_ok _ _ _ _ Hrm Hfiles Ho) as (w1 & Hrun & Hrm1 & Hf1).
    destruct (IH _ _ Hrm1 Hf1 Hok) as (w' & Hrest & Hrm' & Hcap). exists w'.
    destruct (spec_ops ops (spec_op op m)) as [m' rs]. cbn in *. split; [|done].
    by rewrite (M_bind_step _ _ _ _ _ Hrun), (M_bind_step _ _ _ _ _ Hrest).
Qed.

(** When [Flush] returns, every page is on the disk with the contents the
    pool held and the pool is empty. *)
Theorem flush_persists_pages w :
  pool_inv None w →
  ∃ w', BufferPool_Flush false w = (Ok (), w') ∧
    buffers_ (po_bp w') = [] ∧ systable_buffers_ (po_bp w') = [] ∧
    ∀ k b, key_range k → view w k = Some b → disk_page (disk_of w') k = Some b.
Proof.
  intros Hi. destruct (BufferPool_Flush_run w Hi) as (w' & Hrun & _ & ? & ? & Hv & _).
  exists w'. split; [done|]. split; [done|]. split; [done|]. intros k b Hr Hb. by apply Hv.
Qed.

(** C22: the write-ahead rule for the pages of user tables, in the order of the
    steps: writing back a dirty page first makes the log durable up to the LSN in
    the page, while every page on the disk is still what it was; then the page's
    bytes are written to that disk. And with any log manager whose flush fails
    the write-back fails with that error and writes nothing itself: the disk is
    the one the log manager left. *)
Theorem dirty_page_after_its_log w i e p :
  pool_inv None w → buffers_ (po_bp w) !! i = Some e → po_heap w !! be_page_ e = Some p → is_dirty_ p = true →
  (∃ w', BufferPool_FlushPage (Z.of_nat i) w = (Ok (), w') ∧ log_then_page w e p (po_wal w') ∧
    disk_page (disk_of w') (entry_key e) = Some (data_ p) ∧ frame_of w' (entry_key e) = None) ∧
  ∀ (failing : Wal L) lsn x l1, GetPageLSN p = (Ok lsn, p) →
    wal_flush_page (Wal := failing) (be_table_oid_ e) (be_page_id_ e) lsn (po_wal w) = (Err x, l1) →
    BufferPool_FlushPage (H := failing) (Z.of_nat i) w = (Err x, set_wal l1 w).
Proof.
  intros Hi He Hp Hd. split.
  - assert (e ∈ sel_buffers false (po_bp w)) as Hin by (by eapply list_elem_of_lookup_2).
    destruct (pool_entry_ok _ _ _ _ Hi Hin) as [p' Hok].
    assert (p' = p) as -> by (pose proof (eo_heap _ _ _ _ _ Hok); congruence).
    destruct (FlushPage_run None w i e p Hok He) as (l' & Hrun & Hfl & Hlog); [done|].
    eexists. split; [exact Hrun|]. split; [by apply Hlog|]. split; [apply Hfl|].
    unfold frame_of. rewrite (eo_sys _ _ _ _ _ Hok). cbn. by rewrite lookup_delete_eq.
  - intros failing lsn x l1 Hlsn Hfail. unfold BufferPool_FlushPage. rewrite get_step.
    erewrite lift_step by (by apply vec_at_Some).
    assert (on_page (be_page_ e) (gets IsDirty) w = (Ok (is_dirty_ p), w)) as Hdirty by (by apply (on_page_read _ p)).
    rewrite (M_bind_step _ _ _ _ _ Hdirty), Hd.
    assert (on_page (be_page_ e) GetPageLSN w = (Ok lsn, w)) as Hl by (by apply (on_page_read _ p)).
    rewrite bind_assoc_run, (M_bind_step _ _ _ _ _ Hl).
    unfold on_wal, zoom, mbind, M_bind. by rewrite Hfail.
Qed.

End View.
