(* ===== verification/Storage.v ===== *)
(** The storage layer assembled as [DatabaseEngine] assembles it: the log
    manager of [LogManager.v] on the disk of [Disk.v] is the write-ahead log of
    the buffer pool of [BufferPool.v]. *)
From S2P Require Import Prelude Memory Types StringUtil Disk Value Bitmap Column Record TablePage Lru LogRecord LogManager BufferPool.

(** ** The log manager as a write-ahead log *)

Section WriteAheadLog.
Context `{MapOrder}.

#[export] Instance LogDisk_wal : Wal LogDisk := {
  wal_disk := dk;
  wal_set_disk := λ d l, mkLogDisk (lg l) d;
  wal_flush_page := LogManager_FlushPage
}.

(** The records appended so far, as a parameter: the buffer pool flushes the log
    but appends nothing to it. *)
Section History.
Context (base : Z) (hist : list LogRecord).

Definition logdisk_ok (l : LogDisk) : Prop := ∃ k, log_inv base hist k l ∧ hist_inv hist l.

(** Every record up to [lsn] can be read back from the disk. *)
Definition logdisk_durable (l : LogDisk) (lsn : Z) : Prop :=
  ∃ k, log_inv base hist k l ∧ hist_inv hist l ∧ ∀ r, r ∈ hist → GetLSN r <= lsn → r ∈ take k hist.

Lemma log_inv_pages k d l :
  log_inv base hist k l → disk_ok d → pages_only (dk l) d →
  log_inv base hist k (mkLogDisk (lg l) d).
Proof.
  intros [] Hd [(Hs1 & Hs2 & Hs3) Hfiles Hnames].
  assert (next_file d = next_file (dk l)) as Hnf.
  { unfold next_file, FileExists. rewrite Hnames, Hfiles; [done|]. by right; left. }
  split; simpl; rewrite ?Hnf; try done.
  - unfold log_ok in *. by rewrite Hs2, Hs3.
  - by rewrite Hs3.
  - intros r Hr. unfold stored. rewrite Hs3. by apply li_stored.
Qed.

Lemma hist_inv_pages d l : hist_inv hist l → hist_inv hist (mkLogDisk (lg l) d).
Proof. by intros []. Qed.

#[local] Instance LogDisk_wal_spec : WalSpec LogDisk.
Proof.
  apply (@Build_WalSpec _ _ logdisk_ok logdisk_durable).
  - done.
  - by intros [].
  - done.
  - intros l (k & Hi & _). apply Hi.
  - intros oid page_id lsn l (k & Hi & Hh).
    destruct (FlushPage_done base hist k l oid page_id lsn Hi Hh) as
      (k' & l' & Hrun & Hi' & Hh' & _ & Honly & _ & Hall).
    exists l'. split; [done|]. split; [by exists k'|]. split; [done|].
    exists k'. split; [done|]. split; [done|]. intros r Hr Hle. apply Hall; [done|by right].
  - intros d l (k & Hi & Hh) Hd Hpo. exists k. split; [by apply log_inv_pages|by apply hist_inv_pages].
  - intros d l lsn _ Hd Hpo (k & Hi & Hh & Hall). exists k.
    split; [by apply log_inv_pages|]. split; [by apply hist_inv_pages|done].
Defined.

End History.
End WriteAheadLog.

(** ** A concrete pool *)

(** Nothing is logged yet. *)
#[local] Instance ex_spec : WalSpec LogDisk := LogDisk_wal_spec 0 [].

Lemma replicate_mem_len n : 0 <= n → mem_len (replicate (Z.to_nat n) Byte.x00) = n.
Proof. intros. unfold mem_len. rewrite length_replicate. lia. Qed.

#[export] Instance ex_allocator : Allocator := {
  fresh_page := λ _, replicate (Z.to_nat DB_PAGE_SIZE) Byte.x00;
  fresh_page_len := λ _, eq_refl;
  fresh_array := λ n, replicate (Z.to_nat n) Byte.x00;
  fresh_array_len := replicate_mem_len
}.

Definition ex_db_of : Z → Z := λ _, 3.
Definition ex_pool (d : Disk) : Pool LogDisk := mkPool (mkLogDisk (LogManager_new 0) d) BufferPool_new ∅ 0.
Definition ex_key (page_id : Z) : TablePageid := mkTPid 10001 page_id.
Definition ex_page : bytes := replicate 256 Byte.x07.

Lemma pool_new_inv {L} `{WalSpec L} (db_of : Z → Z) (l : L) :
  wal_ok l → pool_inv db_of None (mkPool l BufferPool_new ∅ 0).
Proof.
  intros Hl. split; try done.
  - intros [|]; by split.
  - intros [|] e He; by apply not_elem_of_nil in He.
  - intros [|] e He; by apply not_elem_of_nil in He.
  - intros [|] ? ? ? He; by apply not_elem_of_nil in He.
  - simpl. lia.
  - split; [constructor|]. split; [intros ? He; by apply not_elem_of_nil in He|]. simpl. lia.
Qed.

Lemma ex_page_at d page_id :
  (∀ path, path ≠ LOG_NAME → file_data (fs_ d) path = file_data ex_fs path) → page_id = 0 ∨ page_id = 1 →
  disk_page ex_db_of d (ex_key page_id) = Some ex_page.
Proof.
  intros Hf Hp. unfold disk_page, page_at, key_path. cbn [table_oid_ tp_page_id_ ex_key].
  rewrite Hf by apply GetFilePath_not_log. unfold ex_fs, ex_db_of. rewrite WriteFile_data.
  by destruct Hp as [->| ->].
Qed.

Lemma ex_pool_start :
  ∃ d, Disk_new ex_fs = Ok d ∧
    refines_map ex_db_of {[ex_key 0 := ex_page; ex_key 1 := ex_page]} (ex_pool d) ∧
    key_file ex_db_of (disk_of (ex_pool d)) (ex_key 2).
Proof.
  destruct ex_disk_exists as (d & Hd & Hok & Hlog & H1 & Hf).
  exists d. split; [done|].
  assert (pool_inv ex_db_of None (ex_pool d)) as Hi.
  { apply pool_new_inv. exists 0%nat. apply log_inv_init; try done. by rewrite (ex_next_file d Hf). }
  split.
  - split; [done| |].
    + intros k b [[<- <-]|[_ [<- <-]%lookup_singleton_Some]]%lookup_insert_Some; (split; [done|]).
      * apply (ex_page_at d); [done|by left].
      * apply (ex_page_at d); [done|by right].
    + intros k [e He]. unfold frame_of in He. by destruct (is_sys ex_db_of k).
  - apply (disk_page_file ex_db_of d (ex_key 0) ex_page). apply ex_page_at; [done|by left].
Qed.

Definition ex_ops : list page_op :=
  [PGet (ex_key 0); PPut (ex_key 1) (replicate 256 Byte.x2a); PNew (ex_key 2) (replicate 256 Byte.x01);
   PFlush; PGet (ex_key 1); PGet (ex_key 2)].

Lemma buffer_pool_is_a_map_witness :
  ∃ d w', Disk_new ex_fs = Ok d ∧
    run_page_ops ex_db_of ex_ops (ex_pool d) =
      (Ok [Some ex_page; None; None; None; Some (replicate 256 Byte.x2a); Some (replicate 256 Byte.x01)], w').
Proof.
  destruct ex_pool_start as (d & Hd & Hrm & Hf).
  destruct (buffer_pool_is_a_map ex_db_of (λ k, k = ex_key 2) ex_ops _ _ Hrm) as (w' & Hrun & _).
  - by intros k ->.
  - repeat (split; try done); by eexists.
  - exists d, w'. split; [done|exact Hrun].
Defined.

Lemma flush_persists_pages_witness :
  ∃ d, Disk_new ex_fs = Ok d ∧ ∃ w', BufferPool_Flush false (ex_pool d) = (Ok (), w') ∧
    buffers_ (po_bp w') = [] ∧ systable_buffers_ (po_bp w') = [] ∧
    ∀ k b, key_range ex_db_of k → view ex_db_of (ex_pool d) k = Some b →
      disk_page ex_db_of (disk_of w') k = Some b.
Proof.
  destruct ex_pool_start as (d & Hd & Hrm & _). exists d. split; [done|].
  exact (flush_persists_pages ex_db_of (ex_pool d) (rm_inv _ _ _ Hrm)).
Defined.

(** The page 2, created and filled with zeros, is dirty in frame 0. *)
Lemma ex_dirty_pool :
  ∃ w e p, pool_inv ex_db_of None w ∧ buffers_ (po_bp w) !! 0%nat = Some e ∧ entry_key e = ex_key 2 ∧
    po_heap w !! be_page_ e = Some p ∧ is_dirty_ p = true.
Proof.
  destruct ex_pool_start as (d & Hd & Hrm & Hf).
  destruct (page_op_ok ex_db_of (λ k, k = ex_key 2) (PNew (ex_key 2) (replicate 256 Byte.x00)) _ _ Hrm)
    as (w' & Hrun & Hrm' & _); [by intros k ->|by repeat (split; try done)|].
  exists w'. pose proof (f_equal snd Hrun) as Hw. cbn [snd] in Hw. clear Hrun. rewrite <- Hw in Hrm' |- *.
  eexists _, _. split; [apply Hrm'|]. split; [reflexivity|]. split; [reflexivity|]. by split.
Qed.

(** A log manager that cannot write its log. *)
Definition full_disk : Wal LogDisk :=
  {| wal_disk := dk; wal_set_disk := λ d l, mkLogDisk (lg l) d;
     wal_flush_page := λ _ _ _, throw (DbException "disk full") |}.

Lemma dirty_page_after_its_log_witness :
  ∃ w e p, entry_key e = ex_key 2 ∧
    (∃ w', BufferPool_FlushPage 0 w = (Ok (), w') ∧ log_then_page ex_db_of w e p (po_wal w') ∧
      disk_page ex_db_of (disk_of w') (ex_key 2) = Some (data_ p) ∧ frame_of ex_db_of w' (ex_key 2) = None) ∧
    BufferPool_FlushPage (H := full_disk) 0 w = (Err (DbException "disk full"), w).
Proof.
  destruct ex_dirty_pool as (w & e & p & Hi & He & Hk & Hp & Hd). exists w, e, p.
  destruct (dirty_page_after_its_log ex_db_of w 0 e p Hi He Hp Hd) as [Hw Hf]. rewrite Hk in Hw.
  split; [exact Hk|]. split; [exact Hw|].
  destruct Hw as (w' & _ & (lsn & l1 & d' & Hlsn & _) & _).
  specialize (Hf full_disk lsn (DbException "disk full") (po_wal w) Hlsn eq_refl).
  destruct w. exact Hf.
Defined.
