(* ===== verification/Visibility.v ===== *)
(** [TableScan::CanGet] of [src/src/table/table_scan.cpp]: which record versions
    a scan skips under each isolation level, the rule it implements, and how it
    fits the snapshots of [TransactionManager.v]. *)
From S2P Require Import Prelude Types Value Bitmap Column Record LockManager TransactionManager.

(** ** The code *)

(** [true] means that the scan skips the record. [in_active] is
    [active_xids.find(..) != active_xids.end()]. The last [return] of each
    level, after the [else if]s, is kept although the branches cover all cases. *)
Definition CanGet (record : Rec) (xid cid : Z) (isolation_level : IsolationLevel)
    (active_xids : gset Z) : bool :=
  let in_active (x : Z) := bool_decide (x ∈ active_xids) in
  match isolation_level with
  | READ_COMMITTED =>
      if (GetCid record =? cid) && (GetXmin record =? xid) then true
      else
        let find_in_active := in_active (GetXmin record) in
        if find_in_active && negb (GetXmin record =? xid) then true
        else if find_in_active && (GetXmin record =? xid) then
          if (xid =? GetXmax record) && negb (GetXmax record =? NULL_XID) then true
          else if negb (GetXmax record =? NULL_XID) && negb (in_active (GetXmax record)) then true
          else false
        else if negb find_in_active then
          if (GetXmax record =? xid) && negb (GetXmax record =? NULL_XID) then true
          else if negb (GetXmax record =? NULL_XID) && negb (in_active (GetXmax record)) then true
          else false
        else false
  | REPEATABLE_READ =>
      if (GetCid record =? cid) && (GetXmin record =? xid) then true
      else
        let find_in_active := in_active (GetXmin record) in
        if find_in_active && negb (GetXmin record =? xid) then true
        else if find_in_active && (GetXmin record =? xid) then
          if (GetXmax record =? xid) && negb (GetXmax record =? NULL_XID) then true
          else false
        else if negb find_in_active && (GetXmin record <=? xid) then
          if (GetXmax record =? xid) && negb (GetXmax record =? NULL_XID) then true
          else if in_active (GetXmax record) || (xid <? GetXmax record) then false
          else true
        else if negb find_in_active && (xid <? GetXmin record) then true
        else false
  | SERIALIZABLE =>
      (negb (GetXmin record =? xid) && in_active (GetXmin record)) ||
      ((GetXmax record =? xid) || ((GetCid record =? cid) && (GetXmin record =? xid)) ||
       (negb (GetXmax record =? NULL_XID) && negb (in_active (GetXmax record))))
  end.

(** ** The rules *)

(** A version is visible when its creation is and its deletion is not. *)
Section Rules.
Context (xid cid : Z) (active : gset Z).

(** A transaction sees what it created in earlier commands. *)
Definition own_earlier (r : Rec) : Prop := GetXmin r = xid ∧ GetCid r ≠ cid.
(** The level at which the latest committed state counts: everything not active
    has committed. *)
Definition created_now (r : Rec) : Prop :=
  own_earlier r ∨ (GetXmin r ≠ xid ∧ GetXmin r ∉ active).
Definition deleted_now (r : Rec) : Prop :=
  GetXmax r = xid ∨ (GetXmax r ≠ NULL_XID ∧ GetXmax r ∉ active).
(** The level at which the state at the begin of the transaction counts: it was
    left by the older transactions not active then. *)
Definition created_before (r : Rec) : Prop :=
  own_earlier r ∨ (GetXmin r ∉ active ∧ GetXmin r < xid).
Definition deleted_before (r : Rec) : Prop :=
  GetXmax r = xid ∨ (GetXmax r ∉ active ∧ GetXmax r < xid).

Definition visible (level : IsolationLevel) (r : Rec) : Prop :=
  match level with
  | REPEATABLE_READ => created_before r ∧ ¬ deleted_before r
  | _ => created_now r ∧ ¬ deleted_now r
  end.

End Rules.

(** Decide the comparisons and memberships of a visibility test. *)
Ltac decide_tests :=
  repeat match goal with
  | |- context [?x =? ?y] => destruct (Z.eqb_spec x y)
  | |- context [?x <? ?y] => destruct (Z.ltb_spec x y)
  | |- context [?x <=? ?y] => destruct (Z.leb_spec x y)
  | |- context [bool_decide ?P] => destruct (bool_decide_reflect P)
  end; simpl.

(** The reader is a real transaction; a snapshot does not hold its owner. *)
Lemma CanGet_visible r xid cid level active :
  xid < NULL_XID → (level = REPEATABLE_READ → xid ∉ active) →
  CanGet r xid cid level active = false ↔ visible xid cid active level r.
Proof.
  intros Hx Ha. unfold visible, CanGet, created_now, deleted_now, created_before, deleted_before, own_earlier.
  destruct level; [| |]; try specialize (Ha eq_refl);
    decide_tests; try (assert (GetXmin r = xid → GetXmin r ∉ active) by congruence);
    first [ split; [intros [=]|]; intros; exfalso; intuition (congruence || lia)
          | split; [|done]; intros _; intuition (congruence || lia) ].
Qed.

Lemma CanGet_same r r' xid cid level active :
  xid < NULL_XID → (level = REPEATABLE_READ → xid ∉ active) →
  (visible xid cid active level r ↔ visible xid cid active level r') →
  CanGet r xid cid level active = CanGet r' xid cid level active.
Proof.
  intros Hx Ha Hv. rewrite <- !(CanGet_visible _ _ _ _ _ Hx Ha) in Hv.
  destruct (CanGet r xid cid level active), (CanGet r' xid cid level active); intuition congruence.
Qed.

(** [SeqScanExecutor::Next] chooses the set of active transactions. *)
Definition scan_active (level : IsolationLevel) (xid : Z) : M TransactionManager (gset Z) :=
  match level with
  | REPEATABLE_READ =>
      active_xids ← GetSnapshot xid;
      _ ← GetActiveTransactions;
      mret active_xids
  | READ_COMMITTED => GetActiveTransactions
  | SERIALIZABLE => GetActiveTransactions
  end.

Lemma scan_active_run tm level xid :
  tm_wf tm → xid ∈ dom (xid2cid_ tm) →
  ∃ active, scan_active level xid tm = (Ok active, tm) ∧ xid < NULL_XID ∧
    (level = REPEATABLE_READ → xid ∉ active ∧ xid2active_set_ tm !! xid = Some active) ∧
    (level ≠ REPEATABLE_READ → active = dom (xid2cid_ tm)).
Proof.
  intros Hwf Hx. pose proof (tm_bound _ Hwf _ Hx). pose proof (tm_next_range _ Hwf).
  assert (is_Some (xid2active_set_ tm !! xid)) as [s Hs].
  { apply elem_of_dom. by rewrite <- (tm_dom _ Hwf). }
  destruct level.
  - exists (dom (xid2cid_ tm)). split; [done|]. split; [lia|done].
  - exists s. split; [|split; [lia|split; [intros _|done]]].
    + unfold scan_active, GetSnapshot, GetActiveTransactions, mbind, M_bind, get. by rewrite Hs.
    + split; [|done]. intros Hin. apply (tm_snapshot _ Hwf _ _ Hs) in Hin. lia.
  - exists (dom (xid2cid_ tm)). split; [done|]. split; [lia|done].
Qed.

(** *** What other transactions do *)

(** Steps beside the running transaction [xid]: a call of the transaction manager
    that does not end it, or another running transaction changes a table, whose
    versions in the order of a scan are the list: it adds a version, marks one
    deleted, or takes its mark back when it rolls back. *)
Inductive other_step (xid : Z) : TransactionManager * list Rec → TransactionManager * list Rec → Prop :=
| other_call tm tm' rs :
    tm_step tm tm' → xid ∈ dom (xid2cid_ tm') → other_step xid (tm, rs) (tm', rs)
| other_insert tm pre post r :
    GetXmin r ∈ dom (xid2cid_ tm) → GetXmin r ≠ xid →
    other_step xid (tm, pre ++ post) (tm, pre ++ r :: post)
| other_delete tm pre post r other :
    other ∈ dom (xid2cid_ tm) → other ≠ xid → GetXmax r = NULL_XID →
    other_step xid (tm, pre ++ r :: post) (tm, pre ++ SetXmax r other :: post)
| other_undelete tm pre post r :
    GetXmax r ∈ dom (xid2cid_ tm) → GetXmax r ≠ xid →
    other_step xid (tm, pre ++ r :: post) (tm, pre ++ SetXmax r NULL_XID :: post).

(** The rows a scan at REPEATABLE READ delivers of these versions. *)
Definition rows_seen (xid cid : Z) (active : gset Z) (rs : list Rec) : list (list Value) :=
  rvalues_ <$> filter (λ r, CanGet r xid cid REPEATABLE_READ active = false) rs.

(** The snapshot a scan reads. *)
Lemma scan_snapshot tm xid active :
  scan_active REPEATABLE_READ xid tm = (Ok active, tm) ↔ xid2active_set_ tm !! xid = Some active.
Proof.
  unfold scan_active, GetSnapshot, GetActiveTransactions, gets, mbind, M_bind, get.
  destruct (xid2active_set_ tm !! xid); [|done]. split; [by intros [= ->]|by intros [= ->]].
Qed.

(** It belongs to the transaction as long as it runs. *)
Lemma tm_step_snapshot tm tm' xid s :
  tm_wf tm → tm_step tm tm' → xid ∈ dom (xid2cid_ tm') →
  xid2active_set_ tm !! xid = Some s → xid2active_set_ tm' !! xid = Some s.
Proof.
  intros Hwf Hstep Hx Hs. pose proof Hs as Hd%elem_of_dom_2. rewrite <- (tm_dom _ Hwf) in Hd.
  assert (∀ x, xid ∈ dom (xid2cid_ (Commit x tm).2) → xid2active_set_ (Commit x tm).2 !! xid = Some s) as Hend.
  { intros x. destruct (decide (x ∈ dom (xid2cid_ tm))) as [Hin|Hin]; [|by rewrite Commit_missing].
    destruct (Commit_run x tm Hwf Hin) as (lm & -> & _). simpl. rewrite dom_delete_L.
    intros [_ Hne%not_elem_of_singleton]%elem_of_difference. by rewrite lookup_delete_ne by done. }
  destruct Hstep as [tm x tm' Hlt Hb|tm x r tm' Hc|tm x r tm' Hr|tm x r tm' Hc|tm x r tm' Hle Hn|tm A m r tm' Hm].
  - replace tm' with (Begin tm).2 by (by rewrite Hb). rewrite Begin_run. simpl.
    apply (tm_bound _ Hwf) in Hd. by rewrite lookup_insert_ne by lia.
  - replace tm' with (Commit x tm).2 in Hx |- * by (by rewrite Hc). by apply Hend.
  - replace tm' with (Commit x tm).2 in Hx |- * by (by rewrite <- Rollback_Commit, Hr). by apply Hend.
  - unfold GetCidAndIncrement in Hc. rewrite get_step in Hc. by destruct (xid2cid_ tm !! x); injection Hc as <- <-.
  - unfold SetNextXid in Hn. rewrite get_step in Hn. by destruct (next_xid_ tm <? x); injection Hn as <- <-.
  - unfold on_locks, zoom in Hm. destruct (m (lock_manager_ tm)). by injection Hm as <- <-.
Qed.

(** Other running transactions are outside what a snapshot has seen end. *)
Lemma other_outside tm xid active other :
  tm_wf tm → xid2active_set_ tm !! xid = Some active → other ∈ dom (xid2cid_ tm) → other ≠ xid →
  other ∈ active ∨ xid < other.
Proof.
  intros Hwf Hs Ho Hne. destruct (decide (xid < other)); [by right|left]. eapply (tm_older _ Hwf); [done..|lia].
Qed.

(** Versions from outside are hidden, and their marks do not count. *)
Lemma outside_hidden r xid cid active :
  xid < NULL_XID → xid ∉ active → GetXmin r ≠ xid → GetXmin r ∈ active ∨ xid < GetXmin r →
  CanGet r xid cid REPEATABLE_READ active = true.
Proof.
  intros Hx Ha Hne Hout. apply Bool.not_false_iff_true. rewrite CanGet_visible by done.
  intros [[[? _]|[? ?]] _]; [done|]. destruct Hout; [done|lia].
Qed.

Lemma outside_mark r r' xid cid active :
  xid < NULL_XID → xid ∉ active → GetXmin r' = GetXmin r → GetCid r' = GetCid r →
  GetXmax r ≠ xid → GetXmax r' ≠ xid →
  GetXmax r ∈ active ∨ xid < GetXmax r → GetXmax r' ∈ active ∨ xid < GetXmax r' →
  CanGet r' xid cid REPEATABLE_READ active = CanGet r xid cid REPEATABLE_READ active.
Proof.
  intros Hx Ha E1 E2 N1 N2 O1 O2. apply CanGet_same; [done..|].
  assert (∀ v, GetXmax v ≠ xid → GetXmax v ∈ active ∨ xid < GetXmax v → ¬ deleted_before xid active v) as Hd.
  { intros v Hn Ho [?|[??]]; [done|]. destruct Ho; [done|lia]. }
  pose proof (Hd r N1 O1). pose proof (Hd r' N2 O2).
  unfold visible, created_before, own_earlier. rewrite E1, E2. tauto.
Qed.

(** The reader with its snapshot. *)
Definition reader (xid : Z) (active : gset Z) (tm : TransactionManager) : Prop :=
  tm_wf tm ∧ xid2active_set_ tm !! xid = Some active.

Lemma other_step_stable xid cid active s s' :
  other_step xid s s' → reader xid active s.1 →
  reader xid active s'.1 ∧ rows_seen xid cid active s'.2 = rows_seen xid cid active s.2.
Proof.
  intros Hstep [Hwf Hs].
  assert (xid < NULL_XID ∧ xid ∉ active) as [Hx Ha].
  { assert (xid ∈ dom (xid2cid_ s.1)) as Hd by (rewrite (tm_dom _ Hwf); by apply elem_of_dom_2 in Hs).
    apply (tm_bound _ Hwf) in Hd. pose proof (tm_next_range _ Hwf).
    split; [lia|]. intros Hin. apply (tm_snapshot _ Hwf _ _ Hs) in Hin. lia. }
  unfold rows_seen.
  destruct Hstep as [tm tm' rs Hst Hin|tm pre post r Ho Hne|tm pre post r other Ho Hne Hn|tm pre post r Ho Hne]; cbn [fst snd] in *.
  - split; [split; [by eapply tm_step_wf|by eapply tm_step_snapshot]|done].
  - split; [done|]. pose proof (outside_hidden r xid cid active Hx Ha Hne (other_outside _ _ _ _ Hwf Hs Ho Hne)) as Hh.
    rewrite !filter_app, filter_cons_False; [done|]. by rewrite Hh.
  - assert (GetXmax r ≠ xid ∧ xid < GetXmax r) as [Hn1 Hn2] by (rewrite Hn; lia).
    pose proof (outside_mark r (SetXmax r other) xid cid active Hx Ha eq_refl eq_refl Hn1 Hne (or_intror Hn2)
      (other_outside _ _ _ _ Hwf Hs Ho Hne)) as He.
    split; [done|]. rewrite !filter_app, !filter_cons, He, !fmap_app. by case_decide.
  - assert (NULL_XID ≠ xid) as Hn1 by lia.
    pose proof (outside_mark r (SetXmax r NULL_XID) xid cid active Hx Ha eq_refl eq_refl Hne Hn1
      (other_outside _ _ _ _ Hwf Hs Ho Hne) (or_intror Hx)) as He.
    split; [done|]. rewrite !filter_app, !filter_cons, He, !fmap_app. by case_decide.
Qed.

Lemma others_stable xid cid active s s' :
  rtc (other_step xid) s s' → reader xid active s.1 →
  reader xid active s'.1 ∧ rows_seen xid cid active s'.2 = rows_seen xid cid active s.2.
Proof.
  induction 1 as [s|s1 s2 s3 Hstep _ IH]; intros Hrd; [done|].
  destruct (other_step_stable xid cid active _ _ Hstep Hrd) as [Hrd2 Hr2]. destruct (IH Hrd2) as [? Hr].
  split; [done|]. by rewrite Hr.
Qed.

(** ** Properties *)

(** C15: with the set of transactions the scan chooses for its isolation level,
    [CanGet] skips exactly the versions the rule of the level hides: the latest
    committed state at READ COMMITTED and SERIALIZABLE, the state at the begin
    of the transaction at REPEATABLE READ, with the transaction's own earlier
    commands at every level. *)
Theorem visibility_rules tm xid cid level r :
  tm_reachable tm → xid ∈ dom (xid2cid_ tm) →
  ∃ active, scan_active level xid tm = (Ok active, tm) ∧
    (CanGet r xid cid level active = false ↔ visible xid cid active level r) ∧
    (level ≠ REPEATABLE_READ → active = dom (xid2cid_ tm)) ∧
    (level = REPEATABLE_READ → (GetSnapshot xid tm).1 = Ok active).
Proof.
  intros Hwf%tm_reachable_wf Hx. destruct (scan_active_run tm level xid Hwf Hx) as (active & Hrun & Hlt & Hrr & Hrc).
  exists active. split; [done|]. split; [apply CanGet_visible; [done|naive_solver]|]. split; [done|].
  intros Hl. destruct (Hrr Hl) as [_ Hs]. unfold GetSnapshot. rewrite get_step. by rewrite Hs.
Qed.

(** C16: repeatable reads: while a transaction at REPEATABLE READ runs, other
    transactions may begin, insert versions, mark versions deleted, take marks
    back, commit and roll back in any order; afterwards its scan still chooses
    the same set of transactions, and the rows it sees are the same, in the same
    order. A version is marked by one transaction at a time. *)
Theorem repeatable_read_stable tm rs tm' rs' xid cid active :
  tm_reachable tm → scan_active REPEATABLE_READ xid tm = (Ok active, tm) →
  rtc (other_step xid) (tm, rs) (tm', rs') →
  scan_active REPEATABLE_READ xid tm' = (Ok active, tm') ∧
  rows_seen xid cid active rs' = rows_seen xid cid active rs.
Proof.
  intros Hwf%tm_reachable_wf Hrun%scan_snapshot Hsteps.
  destruct (others_stable xid cid active _ _ Hsteps (conj Hwf Hrun)) as [[_ Hs] Hr].
  split; [by apply scan_snapshot|exact Hr].
Qed.

(** C26: no dirty reads, and commits are seen: at READ COMMITTED and
    SERIALIZABLE the insertions and deletions of another running transaction
    have no effect, and have their effect from its commit on. *)
Theorem committed_reads tm xid cid other level r :
  tm_reachable tm → xid ∈ dom (xid2cid_ tm) → other ∈ dom (xid2cid_ tm) → other ≠ xid →
  level = READ_COMMITTED ∨ level = SERIALIZABLE →
  ∃ before tm' after, scan_active level xid tm = (Ok before, tm) ∧
    Commit other tm = (Ok (), tm') ∧ scan_active level xid tm' = (Ok after, tm') ∧
    (GetXmin r = other → CanGet r xid cid level before = true) ∧
    (GetXmin r = other → GetXmax r = NULL_XID → CanGet r xid cid level after = false) ∧
    (GetXmax r = other → CanGet r xid cid level before =
      CanGet (SetXmax r NULL_XID) xid cid level before) ∧
    (GetXmax r = other → CanGet r xid cid level after = true).
Proof.
  intros Hwf%tm_reachable_wf Hx Ho Hne Hl.
  destruct (Commit_run other tm Hwf Ho) as (lm & Hc & _).
  assert (xid ∈ dom (xid2cid_ (ended other lm tm))) as Hx' by (simpl; rewrite dom_delete_L; set_solver).
  destruct (scan_active_run tm level xid Hwf Hx) as (before & Hb & Hlt & _ & Hb').
  destruct (scan_active_run _ level xid (ended_wf other lm tm Hwf) Hx') as (after & Ha & _ & _ & Ha').
  exists before, (ended other lm tm), after. split; [done|]. split; [done|]. split; [done|].
  rewrite Hb', Ha' by (by destruct Hl as [-> | ->]). simpl. rewrite dom_delete_L.
  pose proof (tm_bound _ Hwf _ Hx). pose proof (tm_bound _ Hwf _ Ho). pose proof (tm_next_range _ Hwf).
  set (running := dom (xid2cid_ tm)) in *.
  assert (other ∉ running ∖ {[other]} ∧ NULL_XID ∉ running ∖ {[other]} ∧ NULL_XID ∉ running) as (N1 & N2 & N3).
  { split; [set_solver|]. split; [intros [Hin _]%elem_of_difference|intros Hin]; apply (tm_bound _ Hwf) in Hin; lia. }
  assert (∀ a r', visible xid cid a level r' = (created_now xid cid a r' ∧ ¬ deleted_now xid a r')) as Hvis
    by (intros; by destruct Hl as [-> | ->]).
  assert (∀ a : gset Z, level = REPEATABLE_READ → xid ∉ a) as Hnrr by (intros a ->; by destruct Hl).
  split; [|split; [|split]].
  - intros Hr. apply Bool.not_false_iff_true. rewrite CanGet_visible, Hvis by auto.
    intros [[[? _]|[? ?]] _]; congruence.
  - intros Hr Hn. rewrite CanGet_visible, Hvis by auto. split; [right; by rewrite Hr|].
    unfold deleted_now; rewrite Hn. intros [?|[??]]; [lia|done].
  - intros Hr. apply CanGet_same; [auto..|]. rewrite !Hvis.
    assert (¬ deleted_now xid running r) as Hd1 by (unfold deleted_now; rewrite Hr; intros [?|[??]]; done).
    assert (¬ deleted_now xid running (SetXmax r NULL_XID)) as Hd2.
    { intros [Hq|[Hq _]]; [cbn in Hq; lia|done]. }
    change (created_now xid cid running (SetXmax r NULL_XID)) with (created_now xid cid running r). tauto.
  - intros Hr. apply Bool.not_false_iff_true. rewrite CanGet_visible, Hvis by auto. intros [_ Hd]. apply Hd.
    right. rewrite Hr. split; [lia|done].
Qed.

(** *** A concrete pair of transactions *)

(** In [ex_tm] transaction 3 runs beside 2; version 0 was inserted by the
    committed transaction 1. *)
Definition ex_version : Rec := SetXmin Record_default 1.

Lemma ex_active2 : 2 ∈ dom (xid2cid_ ex_tm).
Proof. by apply (elem_of_dom_2 (xid2cid_ ex_tm) 2 1). Qed.
Lemma ex_active3 : 3 ∈ dom (xid2cid_ ex_tm).
Proof. by apply (elem_of_dom_2 (xid2cid_ ex_tm) 3 1). Qed.

Lemma visibility_rules_witness :
  ∃ active, scan_active REPEATABLE_READ 3 ex_tm = (Ok active, ex_tm) ∧
    (CanGet ex_version 3 1 REPEATABLE_READ active = false ↔ visible 3 1 active REPEATABLE_READ ex_version) ∧
    (REPEATABLE_READ ≠ REPEATABLE_READ → active = dom (xid2cid_ ex_tm)) ∧
    (REPEATABLE_READ = REPEATABLE_READ → (GetSnapshot 3 ex_tm).1 = Ok active).
Proof. exact (visibility_rules ex_tm 3 1 REPEATABLE_READ ex_version ex_tm_reachable ex_active3). Defined.

(** Transaction 2 deletes the version transaction 3 sees and commits; transaction 4
    begins, inserts another one and commits. *)
Definition ex_tm4 : TransactionManager := (Begin ex_tm).2.
Definition ex_tm5 : TransactionManager := (Commit 4 (Commit 2 ex_tm4).2).2.
Definition ex_row (x xmin : Z) : Rec := SetXmin (mkRec Bitmap_default [Value_int x] RecordHeader_default (mkRid 0 0) 0) xmin.
Definition ex_row_of_1 : Rec := ex_row 7 1.
Definition ex_row_of_4 : Rec := ex_row 8 4.

Lemma ex_other_steps :
  rtc (other_step 3) (ex_tm, [ex_row_of_1]) (ex_tm5, [SetXmax ex_row_of_1 2; ex_row_of_4]).
Proof.
  assert (∀ x c tm, xid2cid_ tm !! x = Some c → x ∈ dom (xid2cid_ tm)) as Hin by (intros x c tm; apply elem_of_dom_2).
  apply rtc_l with (ex_tm, [SetXmax ex_row_of_1 2]).
  { apply (other_delete 3 ex_tm [] [] ex_row_of_1 2); [exact ex_active2|done|reflexivity]. }
  apply rtc_l with (ex_tm4, [SetXmax ex_row_of_1 2]).
  { apply other_call; [by eapply (tm_begin _ 4)|by apply (Hin _ 1)]. }
  apply rtc_l with (ex_tm4, [SetXmax ex_row_of_1 2; ex_row_of_4]).
  { apply (other_insert 3 ex_tm4 [SetXmax ex_row_of_1 2] [] ex_row_of_4); [by apply (Hin _ 1)|done]. }
  apply rtc_l with ((Commit 2 ex_tm4).2, [SetXmax ex_row_of_1 2; ex_row_of_4]).
  { apply other_call; [by eapply (tm_commit _ 2)|by apply (Hin _ 1)]. }
  apply rtc_once, other_call; [by eapply (tm_commit _ 4)|by apply (Hin _ 1)].
Qed.

Lemma repeatable_read_stable_witness :
  scan_active REPEATABLE_READ 3 ex_tm5 = (Ok {[2]}, ex_tm5) ∧
  rows_seen 3 1 {[2]} [SetXmax ex_row_of_1 2; ex_row_of_4] = rows_seen 3 1 {[2]} [ex_row_of_1] ∧
  rows_seen 3 1 {[2]} [ex_row_of_1] = [[Value_int 7]] ∧ GetActiveTransactions ex_tm5 = (Ok {[3]}, ex_tm5).
Proof.
  destruct (repeatable_read_stable ex_tm [ex_row_of_1] ex_tm5 [SetXmax ex_row_of_1 2; ex_row_of_4] 3 1 {[2]}
    ex_tm_reachable ltac:(by vm_compute) ex_other_steps) as [H1 H2].
  split; [exact H1|]. split; [exact H2|]. split; by vm_compute.
Defined.

(** Why a version must not be marked twice: transaction 3, at REPEATABLE READ, still
    sees the version that 2 deleted and may delete it after the commit of 2; its
    mark replaces that of 2, and 4, which began in between, sees the row again. *)
Example second_mark_hides_the_first :
  let r := SetXmax ex_version 2 in
  CanGet r 3 1 REPEATABLE_READ {[2]} = false ∧ CanGet r 4 1 REPEATABLE_READ {[3]} = true ∧
  CanGet (SetXmax r 3) 4 1 REPEATABLE_READ {[3]} = false.
Proof. by vm_compute. Qed.

Lemma committed_reads_witness :
  ∃ before tm' after, scan_active READ_COMMITTED 3 ex_tm = (Ok before, ex_tm) ∧
    Commit 2 ex_tm = (Ok (), tm') ∧ scan_active READ_COMMITTED 3 tm' = (Ok after, tm') ∧
    CanGet (SetXmin ex_version 2) 3 1 READ_COMMITTED before = true ∧
    CanGet (SetXmin ex_version 2) 3 1 READ_COMMITTED after = false.
Proof.
  destruct (committed_reads ex_tm 3 1 2 READ_COMMITTED (SetXmin ex_version 2) ex_tm_reachable
    ex_active3 ex_active2 ltac:(done) (or_introl eq_refl)) as (b & t & a & H1 & H2 & H3 & H4 & H5 & _).
  exists b, t, a. split; [exact H1|]. split; [exact H2|]. split; [exact H3|].
  split; [exact (H4 eq_refl)|exact (H5 eq_refl eq_refl)].
Defined.
