(* ===== verification/Table.v ===== *)
(** [src/src/table/table.h] and [table.cpp]: a table as a chain of pages.
    Records go to the first page with room, a new page is linked at the end of
    the chain, and every change is logged before the page LSN is set. *)
From S2P Require Import Prelude Memory Types StringUtil Disk Value Bitmap Column Record TablePage Lru LogRecord LogManager BufferPool Storage.

(** ** The code *)

Record Table := mkTable { oid_ : Z; db_oid_ : Z; first_page_id_ : Z; column_list_ : ColumnList }.

Definition Table_new (oid db_oid : Z) (column_list : ColumnList) (new_table is_empty : bool) : Table :=
  mkTable oid db_oid (if new_table || is_empty then NULL_PAGE_ID else 0) column_list.

(** A table and the storage it refers to. *)
Record TableState := mkTS { ts_table : Table; ts_pool : Pool LogDisk }.

Definition GetFirstPageId (t : Table) : Z := first_page_id_ t.
Definition GetOid (t : Table) : Z := oid_ t.
Definition GetDbOid (t : Table) : Z := db_oid_ t.
Definition GetColumnList (t : Table) : ColumnList := column_list_ t.

Section Operations.
Context `{MapOrder} `{Allocator}.

Definition on_pool {A} (m : M (Pool LogDisk) A) : M TableState A :=
  zoom ts_pool (λ w s, mkTS (ts_table s) w) m.
Definition set_first_page_id (page_id : Z) : M TableState unit :=
  modify (λ s, mkTS (mkTable (oid_ (ts_table s)) (db_oid_ (ts_table s)) page_id (column_list_ (ts_table s)))
                    (ts_pool s)).

(** The lines that log an insertion, the same at the four places it happens:
    the record is encoded into a fresh array, the log copies its bytes, and the
    page gets the LSN. *)
Definition log_insert (page : loc) (record : Rec) (xid oid page_id slot_id offset : Z) :
    M (Pool LogDisk) unit :=
  '(new_record, _) ← lift (Record_SerializeTo record (fresh_array (GetSize record + 30)) 0);
  lsn_insert ← on_wal (AppendInsertLog xid oid page_id slot_id offset (GetSize record) new_record);
  on_page page (SetPageLSN lsn_insert).

(** Inserting into a page that has room. *)
Definition insert_into (page : loc) (record : Rec) (xid cid : Z) (write_log : bool) (oid page_id : Z) :
    M (Pool LogDisk) (Z * Rec) :=
  '(slot_id, record) ← on_page page (InsertRecord record xid cid);
  offset ← on_page page GetUpper;
  (if write_log then log_insert page record xid oid page_id slot_id offset else mret ()) ;;
  mret (slot_id, record).

(** Inserting into a page just created. *)
Definition insert_into_new (page : loc) (record : Rec) (xid cid : Z) (write_log : bool)
    (oid prev_page_id page_id : Z) : M (Pool LogDisk) (Z * Rec) :=
  on_page page Init ;;
  '(slot_id, record) ← on_page page (InsertRecord record xid cid);
  (if write_log then
     lsn_new ← on_wal (AppendNewPageLog xid oid prev_page_id page_id);
     on_page page (SetPageLSN lsn_new) ;;
     offset ← on_page page GetUpper;
     log_insert page record xid oid page_id slot_id offset
   else mret ()) ;;
  mret (slot_id, record).

(** The [while] loop: [inl] when a page with room was found, [inr last_page_id]
    at the end of the chain. It runs at most once per page of the chain. *)
Fixpoint insert_walk (fuel : nat) (t : Table) (record : Rec) (xid cid : Z) (write_log : bool)
    (next_page_id last_page_id : Z) : M (Pool LogDisk) (Z * Z * Rec + Z) :=
  match fuel with
  | O => throw (Undefined "the chain of pages does not end")
  | S fuel =>
      if next_page_id =? NULL_PAGE_ID then mret (inr last_page_id)
      else
        next_page ← GetPage (db_oid_ t) (oid_ t) next_page_id;
        free ← on_page next_page GetFreeSpaceSize;
        if GetSize record <=? free then
          '(slot_id, record) ← insert_into next_page record xid cid write_log (oid_ t) next_page_id;
          mret (inl (next_page_id, slot_id, record))
        else
          let last_page_id := next_page_id in
          next_page_id ← on_page next_page GetNextPageId;
          (if next_page_id =? NULL_PAGE_ID
           then on_page next_page (SetNextPageId (u32 (last_page_id + 1))) else mret ()) ;;
          insert_walk fuel t record xid cid write_log next_page_id last_page_id
  end.

Definition Table_InsertRecord (fuel : nat) (record : Rec) (xid cid : Z) (write_log : bool) :
    M TableState (Rid * Rec) :=
  if MAX_RECORD_SIZE <? GetSize record
  then throw (DbException ("Record size too large: " +:+ pretty (GetSize record)))
  else
    t ← gets ts_table;
    '(insert_page_id, insert_slot_id, record) ←
      (if first_page_id_ t =? NULL_PAGE_ID then
         page ← on_pool (NewPage (db_oid_ t) (oid_ t) 0);
         set_first_page_id 0 ;;
         '(slot_id, record) ← on_pool (insert_into_new page record xid cid write_log (oid_ t) NULL_PAGE_ID 0);
         mret (0, slot_id, record)
       else
         page ← on_pool (GetPage (db_oid_ t) (oid_ t) (first_page_id_ t));
         free ← on_pool (on_page page GetFreeSpaceSize);
         if GetSize record <=? free then
           '(slot_id, record) ← on_pool (insert_into page record xid cid write_log (oid_ t) (first_page_id_ t));
           mret (first_page_id_ t, slot_id, record)
         else
           next_page_id ← on_pool (on_page page GetNextPageId);
           found ← on_pool (insert_walk fuel t record xid cid write_log next_page_id (first_page_id_ t));
           match found with
           | inl place => mret place
           | inr last_page_id =>
               (if last_page_id =? first_page_id_ t
                then on_pool (on_page page (SetNextPageId (u32 (first_page_id_ t + 1)))) else mret ()) ;;
               let page_id := u32 (last_page_id + 1) in
               new_page ← on_pool (NewPage (db_oid_ t) (oid_ t) page_id);
               '(slot_id, record) ← on_pool (insert_into_new new_page record xid cid write_log (oid_ t)
                                               last_page_id page_id);
               mret (page_id, slot_id, record)
           end);
    let rid := mkRid insert_page_id insert_slot_id in
    mret (rid, SetRid record rid).

Definition Table_DeleteRecord (rid : Rid) (xid : Z) (write_log : bool) : M TableState unit :=
  t ← gets ts_table;
  page ← on_pool (GetPage (db_oid_ t) (oid_ t) (page_id_ rid));
  on_pool (on_page page (DeleteRecord (slot_id_ rid) xid)) ;;
  if write_log then
    lsn_delete ← on_pool (on_wal (AppendDeleteLog xid (oid_ t) (page_id_ rid) (slot_id_ rid)));
    on_pool (on_page page (SetPageLSN lsn_delete))
  else mret ().

Definition UpdateRecord (fuel : nat) (rid : Rid) (xid cid : Z) (record : Rec) (write_log : bool) :
    M TableState (Rid * Rec) :=
  Table_DeleteRecord rid xid write_log ;;
  Table_InsertRecord fuel record xid cid write_log.

Definition Table_UpdateRecordInPlace (record : Rec) : M TableState unit :=
  t ← gets ts_table;
  page ← on_pool (GetPage (db_oid_ t) (oid_ t) (page_id_ (GetRid record)));
  on_pool (on_page page (UpdateRecordInPlace record (slot_id_ (GetRid record)))).

End Operations.

(** ** Pages of a table in the pool *)

Section Spec.
Context `{MapOrder} `{Allocator}.
Context (db_of : Z → Z) (base : Z).

(** The invariant of the pool when [hist] is the sequence of log records. *)
Definition inv (hist : list LogRecord) (pending : option loc) (w : Pool LogDisk) : Prop :=
  @pool_inv LogDisk _ (LogDisk_wal_spec base hist) db_of pending w.

(** What a step may change: the contents of the pages in [V]; pages in [F] may
    have entered the pool. *)
Record effect (V F : TablePageid → Prop) (w w' : Pool LogDisk) : Prop := {
  ef_view : ∀ k b, ¬ V k → key_range db_of k → view db_of w k = Some b → view db_of w' k = Some b;
  ef_frames : ∀ k, is_Some (frame_of db_of w' k) → F k ∨ is_Some (frame_of db_of w k);
  ef_files : ∀ k, key_file db_of (disk_of w) k → key_file db_of (disk_of w') k;
  ef_log : log_size (disk_of w) <= log_size (disk_of w')
}.

#[export] Instance effect_preorder V F : PreOrder (effect V F).
Proof.
  split.
  - intros w. split; auto. lia.
  - intros w1 w2 w3 [] []. split; auto; [|lia]. intros k Hk. destruct (ef_frames1 k Hk); auto.
Qed.

Lemma effect_mono (V F V' F' : TablePageid → Prop) w w' :
  (∀ k, V k → V' k) → (∀ k, F k → F' k) → effect V F w w' → effect V' F' w w'.
Proof. intros HV HF []. split; auto. intros k Hk. destruct (ef_frames0 k Hk); auto. Qed.

(** Page [k] is in the pool at [l] and holds the records of [a]. *)
Record here (hist : list LogRecord) (w : Pool LogDisk) (k : TablePageid) (l : loc) (a : APage) : Prop := {
  he_inv : inv hist None w;
  he_at : at_loc db_of w k l;
  he_page : ∃ p, po_heap w !! l = Some p ∧ page_repr p a
}.

Definition page_is (w : Pool LogDisk) (k : TablePageid) (a : APage) : Prop :=
  ∃ b, view db_of w k = Some b ∧ page_repr (mkPage b false) a.

Lemma page_repr_data p p' a : data_ p = data_ p' → page_repr p a → page_repr p' a.
Proof. intros Hd []. split; rewrite <- ?Hd; done. Qed.

Lemma here_view hist w k l a : here hist w k l a → page_is w k a.
Proof.
  intros [Hi (e & Hf & <-) (p & Hp & Ha)]. exists (data_ p). split; [|by apply (page_repr_data p)].
  unfold view. by rewrite Hf, Hp.
Qed.

Lemma here_read {A} hist w k l a (m : M Page A) r :
  here hist w k l a → (∀ p, page_repr p a → m p = (Ok r, p)) → on_page l m w = (Ok r, w).
Proof. intros [_ _ (p & Hp & Ha)] Hm. apply (on_page_read l p); auto. Qed.

Lemma update_from {A} hist pending w k l (m : M Page A) r a' p :
  inv hist pending w → pending = None ∨ pending = Some l → at_loc db_of w k l → po_heap w !! l = Some p →
  (∃ p', m p = (Ok r, p') ∧ is_dirty_ p' = true ∧ page_repr p' a') →
  ∃ w', on_page l m w = (Ok r, w') ∧ here hist w' k l a' ∧ effect (λ k', k' = k) (λ _, False) w w' ∧
    po_wal w' = po_wal w.
Proof.
  intros Hi Hpend Hat Hp (p' & Hm & Hd & Ha').
  destruct (on_page_update db_of m pending k l p p' (Ok r) w Hi Hpend Hat Hp Hm (pr_len _ _ Ha') Hd) as
    (w' & Hrun & Hi' & Hv & Hat' & Hp' & Hoth & Hwal & Hfr).
  exists w'. split; [done|]. split; [split; [done|done|eauto]|]. split; [|done]. split.
  - intros k' b Hn _ Hb. by rewrite Hoth.
  - intros k' Hk'. rewrite Hfr in Hk'. by right.
  - intros k' Hk'. unfold disk_of. by rewrite Hwal.
  - unfold disk_of. rewrite Hwal. lia.
Qed.

Lemma here_update {A} hist w k l a (m : M Page A) r a' :
  here hist w k l a → (∀ p, page_repr p a → ∃ p', m p = (Ok r, p') ∧ is_dirty_ p' = true ∧ page_repr p' a') →
  ∃ w', on_page l m w = (Ok r, w') ∧ here hist w' k l a' ∧ effect (λ k', k' = k) (λ _, False) w w' ∧
    po_wal w' = po_wal w.
Proof.
  intros [Hi Hat (p & Hp & Ha)] Hm. by eapply (update_from hist None w k l m r a' p); auto.
Qed.

(** Appending to the log does not touch the pool. *)
Lemma inv_log hist hist' pending w l' :
  inv hist pending w → logdisk_ok base hist' l' → dk l' = dk (po_wal w) → inv hist' pending (set_wal l' w).
Proof.
  intros Hi Hl Hd. assert (disk_of (set_wal l' w) = disk_of w) as Hdisk by done.
  split; try done; rewrite ?Hdisk; apply Hi.
Qed.

Lemma here_log {A} hist hist' w k l a (m : M LogDisk A) r l' :
  here hist w k l a → m (po_wal w) = (Ok r, l') → logdisk_ok base hist' l' → dk l' = dk (po_wal w) →
  on_wal m w = (Ok r, set_wal l' w) ∧ here hist' (set_wal l' w) k l a ∧
  effect (λ _, False) (λ _, False) w (set_wal l' w).
Proof.
  intros [Hi Hat Hp] Hm Hok Hd. assert (disk_of (set_wal l' w) = disk_of w) as Hdisk by done.
  split; [unfold on_wal, zoom; by rewrite Hm|]. split; [split; [by eapply inv_log|done|done]|].
  split; rewrite ?Hdisk; auto; [|lia]. intros k' b _ _. unfold view. by rewrite Hdisk.
Qed.

(** The page stays at its location when another one is brought in next. *)
Lemma here_keeps hist w w' k l a :
  here hist w k l a → inv hist None w' → recent db_of w k →
  (∀ k', recent db_of w k' → frame_of db_of w' k' = frame_of db_of w k') →
  (∀ l0 p0, po_heap w !! l0 = Some p0 → po_heap w' !! l0 = Some p0) → here hist w' k l a.
Proof.
  intros [Hi (e & Hf & Hl) (p & Hp & Ha)] Hi' Hr Hk Hheap. split; [done| |].
  - exists e. by rewrite Hk.
  - exists p. split; [by apply Hheap|done].
Qed.

Lemma here_get_recent hist w k a :
  inv hist None w → key_range db_of k → page_is w k a →
  ∃ l w', GetPage (db_of (table_oid_ k)) (table_oid_ k) (tp_page_id_ k) w = (Ok l, w') ∧
    here hist w' k l a ∧ effect (λ _, False) (λ k', k' = k) w w' ∧ recent db_of w' k ∧
    (∀ k0 l0 a0, here hist w k0 l0 a0 → recent db_of w k0 → here hist w' k0 l0 a0).
Proof.
  intros Hi Hr (b & Hb & Ha).
  destruct (@GetPage_run _ _ (LogDisk_wal_spec base hist) db_of k b w Hi Hr Hb) as
    (l & w' & p & Hrun & Hi' & Hat & Hp & Hd & [Hv Hf Hheap _ Hlog] & Hfr & Hrec & Hkeep).
  exists l, w'. split; [done|]. split.
  - split; [done|done|]. exists p. split; [done|]. by apply (page_repr_data (mkPage b false)).
  - split; [split; auto|]. split; [done|]. intros k0 l0 a0 Hh Hr0. apply (here_keeps hist w); try done.
    intros l1 p1 Hp1. apply Hheap; [|done]. destruct (decide (l1 < po_next w)%nat) as [|Hn]; [done|].
    by rewrite (pi_fresh _ _ _ Hi) in Hp1 by lia.
Qed.

Lemma here_get hist w k a :
  inv hist None w → key_range db_of k → page_is w k a →
  ∃ l w', GetPage (db_of (table_oid_ k)) (table_oid_ k) (tp_page_id_ k) w = (Ok l, w') ∧
    here hist w' k l a ∧ effect (λ _, False) (λ k', k' = k) w w'.
Proof.
  intros Hi Hr Ha. destruct (here_get_recent hist w k a Hi Hr Ha) as (l & w' & ? & ? & ? & _). by exists l, w'.
Qed.

Lemma here_new hist w k :
  inv hist None w → key_range db_of k → key_file db_of (disk_of w) k → frame_of db_of w k = None →
  ∃ l w1 w', NewPage (db_of (table_oid_ k)) (table_oid_ k) (tp_page_id_ k) w = (Ok l, w1) ∧
    on_page l Init w1 = (Ok (), w') ∧ here hist w' k l (mkAPage 0 NULL_PAGE_ID []) ∧
    effect (λ k', k' = k) (λ k', k' = k) w w'.
Proof.
  intros Hi Hr Hf Hout.
  destruct (@NewPage_run _ _ (LogDisk_wal_spec base hist) _ db_of k w Hi Hr Hf Hout) as
    (l & w1 & p & Hrun & Hi1 & Hat & Hp & Hlen & _ & Hv & Hfiles & Hlog & Hfr & _).
  assert (effect (λ k', k' = k) (λ k', k' = k) w w1) as He1 by (split; auto).
  destruct (Init_repr p Hlen) as (p' & Hinit & Hrepr & Hd).
  destruct (update_from hist (Some l) w1 k l Init () (mkAPage 0 NULL_PAGE_ID []) p)
    as (w' & Hrun' & Hh & He & _); [done|by right|done|done|by exists p'|].
  exists l, w1, w'. split; [done|]. split; [done|]. split; [done|].
  transitivity w1; [done|]. by eapply effect_mono; [| |exact He].
Qed.

(** Changing another page leaves the page where it is. *)
Lemma here_other {A} hist pending w w' k1 l1 a1 k2 l2 (m : M Page A) r :
  inv hist pending w → at_loc db_of w k1 l1 → (∃ p, po_heap w !! l1 = Some p ∧ page_repr p a1) →
  at_loc db_of w k2 l2 → k1 ≠ k2 → on_page l2 m w = (r, w') → inv hist None w' → here hist w' k1 l1 a1.
Proof.
  intros Hi (e1 & Hf1 & Hl1) (p & Hp & Ha) (e2 & Hf2 & Hl2) Hne Hrun Hi'.
  assert (l1 ≠ l2) as Hl.
  { intros Heq. apply (frame_of_Some db_of _ _ _ _ Hi) in Hf1 as [He1 Hk1], Hf2 as [He2 Hk2].
    apply Hne. rewrite <- Hk1, <- Hk2. f_equal. apply (pi_locs _ _ _ Hi _ _ _ _ He1 He2). congruence. }
  unfold on_page in Hrun. destruct (po_heap w !! l2) as [p2|]; [|injection Hrun as _ <-; split; eauto; by exists e1].
  destruct (m p2) as [r2 p2']. injection Hrun as _ <-. split; [done|by exists e1|].
  exists p. split; [|done]. cbn. by rewrite lookup_insert_ne.
Qed.

(** *** Logging *)

(** The log can take [room] more bytes from the active transaction [xid]. *)
Definition log_ready (hist : list LogRecord) (xid room : Z) : Prop :=
  is_Some (att_of hist !! xid) ∧ base + span hist + room <= LOG_LIMIT.

Definition insert_log (hist : list LogRecord) (xid : Z) (k : TablePageid) (slot offset : Z) (b : bytes) :
    LogRecord :=
  mkLogRecord (base + span hist) xid (default 0 (att_of hist !! xid))
    (InsertLog (table_oid_ k) (tp_page_id_ k) slot offset (mem_len b) b).

Lemma key_in_range k : key_range db_of k → in_range 4 (table_oid_ k) ∧ in_range 4 (tp_page_id_ k).
Proof. intros (?&?&?). unfold in_range. lia. Qed.

Lemma here_ok hist w k l a : here hist w k l a → logdisk_ok base hist (po_wal w).
Proof. intros [[] _ _]. done. Qed.

Lemma here_lsn hist w k l a lsn :
  here hist w k l a → 0 <= lsn < 2 ^ 64 →
  ∃ w', on_page l (SetPageLSN lsn) w = (Ok (), w') ∧ here hist w' k l (mkAPage lsn (a_next a) (a_recs a)) ∧
    effect (λ k', k' = k) (λ _, False) w w' ∧ po_wal w' = po_wal w.
Proof. intros Hh Hl. apply (here_update _ _ _ _ a); [done|]. intros p Hp. by apply SetPageLSN_repr. Qed.

Lemma lsn_range hist w k l a room xid :
  here hist w k l a → log_ready hist xid room → 0 <= room → 0 <= base + span hist < 2 ^ 64.
Proof.
  intros Hh [_ Hr] ?. destruct (here_ok _ _ _ _ _ Hh) as (n & Hi & _).
  pose proof (li_base _ _ _ _ Hi). pose proof (span_nonneg _ _ (li_chain _ _ _ _ Hi)).
  unfold LOG_LIMIT in Hr. assert (0 < LOG_SEGMENT_SIZE) by done. lia.
Qed.

Lemma log_insert_spec hist w k l a r xid slot offset :
  here hist w k l a → key_range db_of k → record_wf r → in_range 4 xid → in_range 2 slot → in_range 2 offset →
  log_ready hist xid (27 + rsize_ r) →
  ∃ w', log_insert l r xid (table_oid_ k) (tp_page_id_ k) slot offset w = (Ok (), w') ∧
    here (hist ++ [insert_log hist xid k slot offset (record_bytes r)]) w' k l
      (mkAPage (base + span hist) (a_next a) (a_recs a)) ∧
    effect (λ k', k' = k) (λ _, False) w w'.
Proof.
  intros Hh Hk Hr Hx Hsl Hof Hlog. destruct (key_in_range k Hk) as [Hko Hkp].
  pose proof (rw_size _ Hr) as Hsz. pose proof (rw_fits _ Hr) as Hfit.
  assert (0 <= rsize_ r) as Hpos by (rewrite Hsz; auto).
  destruct (Record_SerializeTo_spec r (fresh_array (GetSize r + 30)) 0 Hr) as (data & Hw & Hser);
    [done|rewrite fresh_array_len by (unfold GetSize; lia); unfold GetSize; lia|].
  pose proof (mem_write_length _ _ _ _ Hw) as Hlen. rewrite fresh_array_len in Hlen by (unfold GetSize; lia).
  pose proof (mem_read_write_same _ _ _ _ (rsize_ r) Hw Hsz) as Hrd.
  apply mem_read_Ok in Hrd as (_ & _ & Hle & Hrd). rewrite drop_0 in Hrd.
  destruct Hlog as [[prev Hat] Hroom]. destruct (here_ok _ _ _ _ _ Hh) as (n & Hi & Hhi).
  destruct (Insert_done base hist n (po_wal w) xid (table_oid_ k) (tp_page_id_ k) slot offset (rsize_ r) data prev)
    as (l' & Happ & Hd & Hi' & Hhi'); [done|done|by rewrite (hi_att _ _ Hhi)| |done|].
  { split_and!; try done; unfold in_range; lia. }
  rewrite (li_next _ _ _ _ Hi) in Happ. rewrite (li_next _ _ _ _ Hi), <- Hrd in Hi', Hhi'.
  destruct (here_log hist (hist ++ [insert_log hist xid k slot offset (record_bytes r)]) w k l a
    (AppendInsertLog xid (table_oid_ k) (tp_page_id_ k) slot offset (rsize_ r) data) (base + span hist) l' Hh)
    as (Hrun & Hh1 & He1); [done| |done|].
  { exists n. unfold insert_log. rewrite Hat, <- Hsz. done. }
  destruct (here_lsn _ _ _ _ _ (base + span hist) Hh1) as (w' & Hset & Hh' & He2 & _).
  { apply (lsn_range _ _ _ _ _ (27 + rsize_ r) xid Hh); [split; [by exists prev|done]|lia]. }
  exists w'. split; [|split; [exact Hh'|]].
  - unfold log_insert. erewrite lift_step by exact Hser. cbv beta iota.
    by rewrite (M_bind_step _ _ _ _ _ Hrun).
  - transitivity (set_wal l' w); [by eapply effect_mono; [| |exact He1]|done].
Qed.

(** *** Inserting into a page *)

(** What the log and the page LSN are after an insertion. *)
Definition logs_insert (write_log : bool) (hist : list LogRecord) (xid : Z) (k : TablePageid) (slot : Z)
    (offset : Z) (b : bytes) (lsn : Z) (hist' : list LogRecord) (lsn' : Z) : Prop :=
  if write_log then hist' = hist ++ [insert_log hist xid k slot offset b] ∧ lsn' = base + span hist
  else hist' = hist ∧ lsn' = lsn.

Lemma here_insert hist w k l lsn next recs r xid cid :
  here hist w k l (mkAPage lsn next recs) → record_wf r → in_range 4 xid → in_range 4 cid →
  a_used recs + sizeof_Slot + rsize_ r <= DB_PAGE_SIZE →
  ∃ w', on_page l (InsertRecord r xid cid) w = (Ok (a_count recs, stamp r xid cid), w') ∧
    here hist w' k l (mkAPage lsn next (recs ++ [record_bytes (stamp r xid cid)])) ∧
    effect (λ k', k' = k) (λ _, False) w w' ∧ po_wal w' = po_wal w.
Proof.
  intros Hh Hr Hx Hc Hfit. apply (here_update _ _ _ _ (mkAPage lsn next recs)); [done|]. intros p Hp.
  destruct (InsertRecord_repr p _ r xid cid Hp Hr Hx Hc Hfit) as (p' & ? & ? & ? & _). eauto.
Qed.

(** The slot and the offset of a new record, in range. *)
Lemma insert_ranges recs r xid cid :
  record_wf r → a_used recs + sizeof_Slot + rsize_ r <= DB_PAGE_SIZE →
  let recs' := recs ++ [record_bytes (stamp r xid cid)] in
  in_range 2 (a_count recs) ∧ in_range 2 (DB_PAGE_SIZE - total recs') ∧
  rsize_ r = mem_len (record_bytes (stamp r xid cid)).
Proof.
  intros Hr Hfit recs'. unfold recs'. rewrite total_app. simpl. rewrite stamp_bytes_len, <- (rw_size _ Hr).
  pose proof (total_nonneg recs). assert (0 <= rsize_ r) by (rewrite (rw_size _ Hr); auto).
  unfold in_range. split; [plia|]. split; [|done]. plia.
Qed.

Lemma insert_into_spec hist w k l lsn next recs r xid cid write_log :
  here hist w k l (mkAPage lsn next recs) → key_range db_of k → record_wf r → in_range 4 xid → in_range 4 cid →
  a_used recs + sizeof_Slot + rsize_ r <= DB_PAGE_SIZE →
  (write_log = true → log_ready hist xid (27 + rsize_ r)) →
  let b := record_bytes (stamp r xid cid) in
  ∃ w' hist' lsn',
    insert_into l r xid cid write_log (table_oid_ k) (tp_page_id_ k) w = (Ok (a_count recs, stamp r xid cid), w') ∧
    here hist' w' k l (mkAPage lsn' next (recs ++ [b])) ∧ effect (λ k', k' = k) (λ _, False) w w' ∧
    logs_insert write_log hist xid k (a_count recs) (DB_PAGE_SIZE - total (recs ++ [b])) b lsn hist' lsn'.
Proof.
  intros Hh Hk Hr Hx Hc Hfit Hlog b. destruct (insert_ranges recs r xid cid Hr Hfit) as (Hr1 & Hr2 & Hr3).
  destruct (here_insert _ _ _ _ _ _ _ r xid cid Hh Hr Hx Hc Hfit) as (w1 & Hins & Hh1 & He1 & _).
  pose proof (here_read _ _ _ _ _ GetUpper _ Hh1 (λ p Hp, GetUpper_repr p _ Hp)) as Hup. cbn [a_recs] in Hup.
  unfold insert_into. rewrite (M_bind_step _ _ _ _ _ Hins). cbv beta iota. rewrite (M_bind_step _ _ _ _ _ Hup).
  destruct write_log.
  - destruct (log_insert_spec hist w1 k l _ (stamp r xid cid) xid (a_count recs)
      (DB_PAGE_SIZE - total (recs ++ [b])) Hh1 Hk) as (w2 & Hrun & Hh2 & He2);
      [by apply stamp_wf|done..|by apply Hlog|].
    eexists _, _, _. split; [by rewrite (M_bind_step _ _ _ _ _ Hrun)|]. split; [exact Hh2|].
    split; [by transitivity w1|done].
  - eexists _, _, _. split; [reflexivity|]. split; [exact Hh1|]. split; [done|done].
Qed.

(** *** Inserting into a new page *)

Definition new_page_log (hist : list LogRecord) (xid prev_page_id : Z) (k : TablePageid) : LogRecord :=
  mkLogRecord (base + span hist) xid
    (if xid =? DDL_XID then NULL_XID else u32 (default 0 (att_of hist !! xid)))
    (NewPageLog (table_oid_ k) prev_page_id (tp_page_id_ k)).

Definition logs_new (write_log : bool) (hist : list LogRecord) (xid prev_page_id : Z) (k : TablePageid)
    (offset : Z) (b : bytes) (hist' : list LogRecord) (lsn' : Z) : Prop :=
  if write_log then
    let hist1 := hist ++ [new_page_log hist xid prev_page_id k] in
    hist' = hist1 ++ [insert_log hist1 xid k 0 offset b] ∧ lsn' = base + span hist1
  else hist' = hist ∧ lsn' = 0.

Lemma new_page_log_spec hist w k l a xid prev_page_id :
  here hist w k l a → key_range db_of k → in_range 4 xid → in_range 4 prev_page_id → log_ready hist xid 25 →
  let hist1 := hist ++ [new_page_log hist xid prev_page_id k] in
  ∃ w', on_wal (AppendNewPageLog xid (table_oid_ k) prev_page_id (tp_page_id_ k)) w = (Ok (base + span hist), w') ∧
    here hist1 w' k l a ∧ effect (λ _, False) (λ _, False) w w' ∧
    is_Some (att_of hist1 !! xid) ∧ span hist1 = span hist + 25.
Proof.
  intros Hh Hk Hx Hp [[prev Hat] Hroom] hist1. destruct (key_in_range k Hk) as [Hko Hkp].
  destruct (here_ok _ _ _ _ _ Hh) as (n & Hi & Hhi).
  assert (is_Some (att_ (lg (po_wal w)) !! xid)) as Hs by (rewrite (hi_att _ _ Hhi); eauto).
  destruct (NewPage_done base hist n (po_wal w) xid (table_oid_ k) prev_page_id (tp_page_id_ k))
    as (l' & Happ & Hd & Hi' & Hhi'); [done|done|by right|by split_and!|done|].
  assert (new_page_prev xid (po_wal w) =
    if xid =? DDL_XID then NULL_XID else u32 (default 0 (att_of hist !! xid))) as Hprev
    by (unfold new_page_prev; by rewrite (hi_att _ _ Hhi)).
  rewrite (li_next _ _ _ _ Hi) in Happ. rewrite (li_next _ _ _ _ Hi), Hprev in Hi', Hhi'.
  destruct (here_log hist hist1 w k l a _ (base + span hist) l' Hh Happ) as (Hrun & Hh1 & He1); [by exists n|done|].
  eexists. split; [exact Hrun|]. split; [done|]. split; [done|]. split.
  - unfold hist1. rewrite att_of_snoc. unfold att_step, new_page_log. cbn [log_body_ GetXid log_xid_ GetLSN log_lsn_].
    case_match; [by rewrite Hat|]. rewrite lookup_insert_eq. eauto.
  - unfold hist1. rewrite span_app. cbn [span]. rewrite Log_GetSize_wf.
    + cbn [body_size new_page_log log_body_]. log_sizes. lia.
    + pose proof (li_chain _ _ _ _ Hi') as Hc. apply chain_app in Hc as [_ Hc]. apply Hc.
Qed.

Lemma insert_into_new_spec hist w1 w k l r xid cid write_log prev_page_id :
  on_page l Init w1 = (Ok (), w) → here hist w k l (mkAPage 0 NULL_PAGE_ID []) →
  key_range db_of k → record_wf r → in_range 4 xid → in_range 4 cid → in_range 4 prev_page_id →
  rsize_ r <= MAX_RECORD_SIZE → (write_log = true → log_ready hist xid (52 + rsize_ r)) →
  let b := record_bytes (stamp r xid cid) in
  ∃ w' hist' lsn',
    insert_into_new l r xid cid write_log (table_oid_ k) prev_page_id (tp_page_id_ k) w1 =
      (Ok (0, stamp r xid cid), w') ∧
    here hist' w' k l (mkAPage lsn' NULL_PAGE_ID [b]) ∧ effect (λ k', k' = k) (λ _, False) w w' ∧
    logs_new write_log hist xid prev_page_id k (DB_PAGE_SIZE - mem_len b) b hist' lsn'.
Proof.
  intros Hinit Hh Hk Hr Hx Hc Hpv Hsz Hlog b.
  assert (0 <= rsize_ r) by (rewrite (rw_size _ Hr); auto).
  assert (a_used [] + sizeof_Slot + rsize_ r <= DB_PAGE_SIZE) as Hfit
    by (change (a_used []) with 16; unfold MAX_RECORD_SIZE in Hsz; plia).
  destruct (insert_ranges [] r xid cid Hr Hfit) as (Hr1 & Hr2 & Hr3).
  destruct (here_insert _ _ _ _ _ _ _ r xid cid Hh Hr Hx Hc Hfit) as (w2 & Hins & Hh2 & He2 & _).
  unfold insert_into_new. rewrite (M_bind_step _ _ _ _ _ Hinit), (M_bind_step _ _ _ _ _ Hins). cbv beta iota.
  destruct write_log.
  - destruct (Hlog eq_refl) as [Hact Hroom].
    destruct (new_page_log_spec _ _ _ _ _ xid prev_page_id Hh2 Hk Hx Hpv) as (w3 & Hnp & Hh3 & He3 & Hact3 & Hspan);
      [split; [done|lia]|].
    destruct (here_lsn _ _ _ _ _ (base + span hist) Hh3) as (w4 & Hset & Hh4 & He4 & _).
    { apply (lsn_range _ _ _ _ _ 25 xid Hh2); [split; [done|lia]|lia]. }
    pose proof (here_read _ _ _ _ _ GetUpper _ Hh4 (λ p Hp, GetUpper_repr p _ Hp)) as Hup. cbn [a_recs] in Hup.
    destruct (log_insert_spec _ w4 k l _ (stamp r xid cid) xid (a_count [])
      (DB_PAGE_SIZE - total ([] ++ [b])) Hh4 Hk) as (w5 & Hrun & Hh5 & He5);
      [by apply stamp_wf|done..|split; [done|rewrite Hspan; cbn [rsize_ stamp SetXmin SetCid set_header]; lia]|].
    eexists _, _, _. split; [|split; [exact Hh5|split]].
    + rewrite bind_assoc_run, (M_bind_step _ _ _ _ _ Hnp).
      rewrite bind_assoc_run, (M_bind_step _ _ _ _ _ Hset).
      rewrite bind_assoc_run, (M_bind_step _ _ _ _ _ Hup).
      by rewrite (M_bind_step _ _ _ _ _ Hrun).
    + transitivity w2; [done|]. transitivity w3; [by eapply effect_mono; [| |exact He3]|]. by transitivity w4.
    + split; [|done]. by cbn [app total]; rewrite Z.add_0_r.
  - eexists _, _, _. split; [reflexivity|]. split; [exact Hh2|]. split; [done|done].
Qed.

(** ** The table as a list of pages *)

Definition table_key (t : Table) (i : nat) : TablePageid := mkTPid (oid_ t) (Z.of_nat i).
(** The successor of page [i] of [n] when the last one points to [last]. *)
Definition next_of (n : nat) (last : Z) (i : nat) : Z :=
  if (S i <? n)%nat then Z.of_nat (S i) else last.

Lemma next_of_inner n last i : (S i < n)%nat → next_of n last i = Z.of_nat (S i).
Proof. unfold next_of. by destruct (Nat.ltb_spec (S i) n); [|lia]. Qed.
Lemma next_of_last n last i : (n ≤ S i)%nat → next_of n last i = last.
Proof. unfold next_of. by destruct (Nat.ltb_spec (S i) n); [lia|]. Qed.

(** Page [i] holds the encoded records [pgs !! i] and points to page [i + 1];
    the last page points to [last_next]. *)
Record pages_repr (t : Table) (pgs : list (list bytes)) (last_next : Z) (w : Pool LogDisk) : Prop := {
  pg_db : db_of (oid_ t) = db_oid_ t;
  pg_range : 0 <= db_oid_ t < 2 ^ 31 ∧ 0 <= oid_ t < 2 ^ 31;
  pg_file : key_file db_of (disk_of w) (table_key t 0);
  pg_count : Z.of_nat (length pgs) < NULL_PAGE_ID;
  pg_pages : ∀ i recs, pgs !! i = Some recs →
    ∃ lsn, page_is w (table_key t i) (mkAPage lsn (next_of (length pgs) last_next i) recs);
  pg_new : ∀ i, (length pgs ≤ i)%nat → frame_of db_of w (table_key t i) = None
}.

Definition first_page (pgs : list (list bytes)) : Z := match pgs with [] => NULL_PAGE_ID | _ => 0 end.

Definition table_repr (t : Table) (pgs : list (list bytes)) (w : Pool LogDisk) : Prop :=
  first_page_id_ t = first_page pgs ∧ pages_repr t pgs NULL_PAGE_ID w.

Lemma table_key_range t pgs last w i :
  pages_repr t pgs last w → Z.of_nat i < 2 ^ 32 → key_range db_of (table_key t i).
Proof. intros [Hdb [H1 H2] _ _ _ _] Hi. unfold key_range, table_key. simpl. rewrite Hdb. lia. Qed.

Lemma table_key_inj t i j : table_key t i = table_key t j → i = j.
Proof. intros [= Hij]. lia. Qed.

Lemma NULL_PAGE_ID_val : NULL_PAGE_ID = 2 ^ 32 - 1.
Proof. done. Qed.

Lemma page_is_keep V F w w' k a :
  effect V F w w' → ¬ V k → key_range db_of k → page_is w k a → page_is w' k a.
Proof. intros He Hv Hk (b & Hb & Ha). exists b. split; [by apply (ef_view _ _ _ _ He)|done]. Qed.

(** Reading pages of the table, or changing other tables. *)
Lemma pages_keep t pgs last V F w w' :
  pages_repr t pgs last w → effect V F w w' → (∀ i, (i < length pgs)%nat → ¬ V (table_key t i)) →
  (∀ i, (length pgs ≤ i)%nat → ¬ F (table_key t i)) → pages_repr t pgs last w'.
Proof.
  intros Hp He HV HF. pose proof (pg_count _ _ _ _ Hp). rewrite NULL_PAGE_ID_val in *.
  pose proof Hp as [Hdb Hr Hf Hc Hpg Hn]. split; try done.
  - by apply (ef_files _ _ _ _ He).
  - intros i recs Hi. destruct (Hpg i recs Hi) as [lsn Hl]. exists lsn. apply lookup_lt_Some in Hi.
    eapply page_is_keep; [exact He|by apply HV|eapply table_key_range; [exact Hp|lia]|done].
  - intros i Hi. destruct (frame_of db_of w' (table_key t i)) eqn:Hfr; [|done].
    destruct (ef_frames _ _ _ _ He (table_key t i)) as [?|[? Hs]]; [by rewrite Hfr|by destruct (HF i)|].
    by rewrite Hn in Hs.
Qed.

(** Page [i] now holds [recs]. *)
Lemma pages_set t pgs last last' w w' i lsn recs :
  pages_repr t pgs last w → (i < length pgs)%nat →
  effect (λ k, k = table_key t i) (λ _, False) w w' →
  page_is w' (table_key t i) (mkAPage lsn (next_of (length pgs) last' i) recs) →
  last' = last ∨ S i = length pgs →
  pages_repr t (<[i := recs]> pgs) last' w'.
Proof.
  intros Hp Hi He Hpage Hlast. pose proof (pg_count _ _ _ _ Hp). rewrite NULL_PAGE_ID_val in *.
  pose proof Hp as [Hdb Hr Hf Hc Hpg Hn]. split; rewrite ?length_insert; try done.
  - by apply (ef_files _ _ _ _ He).
  - intros j recs' Hj. destruct (decide (j = i)) as [->|Hne].
    + rewrite list_lookup_insert_eq in Hj by done. injection Hj as <-. by exists lsn.
    + rewrite list_lookup_insert_ne in Hj by done. destruct (Hpg j recs' Hj) as [lsn' Hl]. exists lsn'.
      assert (next_of (length pgs) last' j = next_of (length pgs) last j) as ->.
      { apply lookup_lt_Some in Hj. unfold next_of. destruct (Nat.ltb_spec (S j) (length pgs)); [done|].
        destruct Hlast as [->|Hl2]; [done|lia]. }
      apply lookup_lt_Some in Hj. eapply page_is_keep; [exact He| |eapply table_key_range; [exact Hp|lia]|done].
      intros ?%table_key_inj. done.
  - intros j Hj. destruct (frame_of db_of w' (table_key t j)) eqn:Hfr; [|done].
    destruct (ef_frames _ _ _ _ He (table_key t j)) as [[]|[? Hs]]; [by rewrite Hfr|]. by rewrite Hn in Hs.
Qed.

(** A page is added at the end of the chain. *)
Lemma pages_snoc t pgs w w' lsn recs :
  pages_repr t pgs (Z.of_nat (length pgs)) w → Z.of_nat (S (length pgs)) < NULL_PAGE_ID →
  effect (λ k, k = table_key t (length pgs)) (λ k, k = table_key t (length pgs)) w w' →
  page_is w' (table_key t (length pgs)) (mkAPage lsn NULL_PAGE_ID recs) →
  pages_repr t (pgs ++ [recs]) NULL_PAGE_ID w'.
Proof.
  intros Hp Hc He Hpage. pose proof Hp as [Hdb Hr Hf _ Hpg Hn]. rewrite NULL_PAGE_ID_val in *.
  assert (length (pgs ++ [recs]) = S (length pgs)) as Hlen by (rewrite length_app; simpl; lia).
  split; rewrite ?Hlen, ?NULL_PAGE_ID_val; try done.
  - by apply (ef_files _ _ _ _ He).
  - intros j recs' Hj. unfold next_of. apply lookup_app_Some in Hj as [Hj|[Hge Hj]].
    + destruct (Hpg j recs' Hj) as [lsn' Hl]. exists lsn'. apply lookup_lt_Some in Hj.
      assert ((S j <? S (length pgs))%nat = true) as -> by (apply Nat.ltb_lt; lia).
      assert (next_of (length pgs) (Z.of_nat (length pgs)) j = Z.of_nat (S j)) as Hnx.
      { unfold next_of. destruct (Nat.ltb_spec (S j) (length pgs)); [done|lia]. }
      rewrite Hnx in Hl. eapply page_is_keep; [exact He| |eapply table_key_range; [exact Hp|lia]|done].
      intros ?%table_key_inj. lia.
    + apply list_lookup_singleton_Some in Hj as [Hj <-]. assert (j = length pgs) as -> by lia.
      exists lsn. assert ((S (length pgs) <? S (length pgs))%nat = false) as -> by (apply Nat.ltb_ge; lia). done.
  - intros j Hj. destruct (frame_of db_of w' (table_key t j)) eqn:Hfr; [|done].
    destruct (ef_frames _ _ _ _ He (table_key t j)) as [Hk|[? Hs]]; [by rewrite Hfr| |].
    + apply table_key_inj in Hk. lia.
    + rewrite Hn in Hs by lia. done.
Qed.

(** ** Inserting into the table *)

(** The first page with room for [len] more bytes, or the number of pages. *)
Definition has_room (len : Z) (recs : list bytes) : bool :=
  a_used recs + sizeof_Slot + len <=? DB_PAGE_SIZE.
Fixpoint place (len : Z) (pgs : list (list bytes)) : nat :=
  match pgs with
  | [] => 0
  | recs :: pgs => if has_room len recs then 0 else S (place len pgs)
  end.

Lemma place_le len pgs : (place len pgs ≤ length pgs)%nat.
Proof. induction pgs as [|recs pgs IH]; simpl; [lia|]. destruct (has_room len recs); lia. Qed.

Lemma place_room len pgs recs : pgs !! place len pgs = Some recs → has_room len recs = true.
Proof.
  induction pgs as [|recs' pgs IH]; simpl; [done|]. destruct (has_room len recs') eqn:Hr; [|done].
  by intros [= <-].
Qed.

Lemma place_first len pgs j recs :
  (∀ i recs, (i < j)%nat → pgs !! i = Some recs → has_room len recs = false) →
  pgs !! j = Some recs → if has_room len recs then place len pgs = j else (j < place len pgs)%nat.
Proof.
  revert j. induction pgs as [|recs' pgs IH]; intros j Hb Hj; [done|]. destruct j as [|j]; simpl in *.
  - injection Hj as ->. destruct (has_room len recs); [done|lia].
  - rewrite (Hb 0%nat recs') by (done || lia).
    specialize (IH j (λ i recs Hi Hp, Hb (S i) recs ltac:(lia) Hp) Hj). destruct (has_room len recs); lia.
Qed.

Lemma place_end len pgs :
  (∀ i recs, pgs !! i = Some recs → has_room len recs = false) → place len pgs = length pgs.
Proof.
  induction pgs as [|recs pgs IH]; intros Hb; simpl; [done|]. rewrite (Hb 0%nat recs) by done.
  f_equal. apply IH. intros i. apply (Hb (S i)).
Qed.

(** Changes confined to the table. *)
Definition in_table (t : Table) (k : TablePageid) : Prop := table_oid_ k = oid_ t.
Definition table_effect (t : Table) : Pool LogDisk → Pool LogDisk → Prop := effect (in_table t) (in_table t).

Lemma effect_table t V F w w' :
  (∀ k, V k → in_table t k) → (∀ k, F k → in_table t k) → effect V F w w' → table_effect t w w'.
Proof. apply effect_mono. Qed.

Lemma visit_page t pgs last hist w i recs :
  inv hist None w → pages_repr t pgs last w → pgs !! i = Some recs →
  ∃ l w' lsn, GetPage (db_oid_ t) (oid_ t) (Z.of_nat i) w = (Ok l, w') ∧
    here hist w' (table_key t i) l (mkAPage lsn (next_of (length pgs) last i) recs) ∧
    pages_repr t pgs last w' ∧ table_effect t w w'.
Proof.
  intros Hi Hp Hrec. pose proof (lookup_lt_Some _ _ _ Hrec) as Hlt.
  pose proof (pg_count _ _ _ _ Hp) as Hc. rewrite NULL_PAGE_ID_val in Hc.
  destruct (pg_pages _ _ _ _ Hp i recs Hrec) as [lsn Hpage].
  assert (Z.of_nat i < 2 ^ 32) as Hi32 by lia.
  destruct (here_get hist w (table_key t i) _ Hi (table_key_range _ _ _ _ _ Hp Hi32) Hpage)
    as (l & w' & Hrun & Hh & He).
  exists l, w', lsn. rewrite <- (pg_db _ _ _ _ Hp). split; [exact Hrun|]. split; [done|]. split.
  - eapply pages_keep; [done|exact He|auto|]. intros j Hj ->%table_key_inj. lia.
  - by eapply effect_table; [| |exact He]; [|intros ? ->].
Qed.

Lemma free_room hist w k l a len :
  here hist w k l a → 0 < len →
  ∃ free, on_page l GetFreeSpaceSize w = (Ok free, w) ∧ (len <=? free) = has_room len (a_recs a).
Proof.
  intros Hh Hlen. eexists. split; [exact (here_read _ _ _ _ _ _ _ Hh (λ p Hp, GetFreeSpaceSize_spec p a Hp))|].
  unfold has_room. destruct (Z.leb_spec (a_used (a_recs a) + sizeof_Slot + len) DB_PAGE_SIZE).
  - apply Z.leb_le. lia.
  - apply Z.leb_gt. lia.
Qed.

(** The insertion into page [i] of the table. *)
Lemma insert_page t pgs hist w i l lsn recs r xid cid write_log :
  pages_repr t pgs NULL_PAGE_ID w → pgs !! i = Some recs →
  here hist w (table_key t i) l (mkAPage lsn (next_of (length pgs) NULL_PAGE_ID i) recs) →
  record_wf r → in_range 4 xid → in_range 4 cid → has_room (rsize_ r) recs = true →
  (write_log = true → log_ready hist xid (27 + rsize_ r)) →
  let b := record_bytes (stamp r xid cid) in
  ∃ w' hist' lsn', insert_into l r xid cid write_log (oid_ t) (Z.of_nat i) w =
      (Ok (a_count recs, stamp r xid cid), w') ∧
    inv hist' None w' ∧ pages_repr t (<[i := recs ++ [b]]> pgs) NULL_PAGE_ID w' ∧ table_effect t w w' ∧
    logs_insert write_log hist xid (table_key t i) (a_count recs) (DB_PAGE_SIZE - total (recs ++ [b])) b
      lsn hist' lsn' ∧
    page_is w' (table_key t i) (mkAPage lsn' (next_of (length pgs) NULL_PAGE_ID i) (recs ++ [b])).
Proof.
  intros Hp Hrec Hh Hr Hx Hc Hroom Hlog b. pose proof (lookup_lt_Some _ _ _ Hrec) as Hlt.
  pose proof (pg_count _ _ _ _ Hp) as Hcnt. rewrite NULL_PAGE_ID_val in Hcnt.
  assert (Z.of_nat i < 2 ^ 32) as Hi32 by lia.
  destruct (insert_into_spec hist w (table_key t i) l lsn _ recs r xid cid write_log Hh
    (table_key_range _ _ _ _ _ Hp Hi32)) as
    (w' & hist' & lsn' & Hrun & Hh' & He & Hl); [done..| |done|].
  { unfold has_room in Hroom. apply Z.leb_le in Hroom. lia. }
  pose proof (here_view _ _ _ _ _ Hh') as Hpage.
  exists w', hist', lsn'. split; [exact Hrun|]. split; [apply Hh'|]. split; [|split; [|split; [exact Hl|done]]].
  - eapply pages_set; [exact Hp|done|exact He|exact Hpage|by left].
  - by eapply effect_table; [| |exact He]; [intros ? ->|].
Qed.

(** The last page is made to point to the page that will follow it. *)
Lemma link_last t pgs hist w l lsn recs i nx :
  S i = length pgs → pages_repr t pgs NULL_PAGE_ID w → pgs !! i = Some recs →
  here hist w (table_key t i) l (mkAPage lsn nx recs) →
  ∃ w', on_page l (SetNextPageId (u32 (Z.of_nat i + 1))) w = (Ok (), w') ∧ inv hist None w' ∧
    pages_repr t pgs (Z.of_nat (length pgs)) w' ∧ table_effect t w w'.
Proof.
  intros Hlen Hp Hrec Hh. pose proof (pg_count _ _ _ _ Hp) as Hcnt. rewrite NULL_PAGE_ID_val in Hcnt.
  rewrite u32_small by lia. replace (Z.of_nat i + 1) with (Z.of_nat (length pgs)) by lia.
  destruct (here_update hist w (table_key t i) l (mkAPage lsn nx recs) (SetNextPageId (Z.of_nat (length pgs)))
    () (mkAPage lsn (Z.of_nat (length pgs)) recs) Hh) as (w' & Hrun & Hh' & He & _).
  { intros p Hpr. apply (SetNextPageId_repr p _ _ Hpr). lia. }
  exists w'. split; [done|]. split; [apply Hh'|]. split.
  - rewrite <- (list_insert_id pgs i recs) by done.
    eapply pages_set; rewrite ?length_insert; [exact Hp|lia|exact He| |by right].
    unfold next_of. assert ((S i <? length pgs)%nat = false) as -> by (apply Nat.ltb_ge; lia).
    exact (here_view _ _ _ _ _ Hh').
  - by eapply effect_table; [| |exact He]; [intros ? ->|].
Qed.

(** The walk from page [j] on, the pages before it being full. *)
Lemma insert_walk_spec fuel t pgs r xid cid write_log hist w j :
  (0 < j < length pgs)%nat → (length pgs - j < fuel)%nat →
  (∀ i recs, (i < j)%nat → pgs !! i = Some recs → has_room (rsize_ r) recs = false) →
  inv hist None w → pages_repr t pgs NULL_PAGE_ID w →
  record_wf r → in_range 4 xid → in_range 4 cid → (write_log = true → log_ready hist xid (27 + rsize_ r)) →
  let b := record_bytes (stamp r xid cid) in
  let i := place (rsize_ r) pgs in
  ∃ w', table_effect t w w' ∧
    match pgs !! i with
    | Some recs => ∃ hist' lsn lsn',
        insert_walk fuel t r xid cid write_log (Z.of_nat j) (Z.of_nat (j - 1)) w =
          (Ok (inl (Z.of_nat i, a_count recs, stamp r xid cid)), w') ∧
        inv hist' None w' ∧ pages_repr t (<[i := recs ++ [b]]> pgs) NULL_PAGE_ID w' ∧
        logs_insert write_log hist xid (table_key t i) (a_count recs) (DB_PAGE_SIZE - total (recs ++ [b])) b
          lsn hist' lsn' ∧
        page_is w' (table_key t i) (mkAPage lsn' (next_of (length pgs) NULL_PAGE_ID i) (recs ++ [b]))
    | None =>
        insert_walk fuel t r xid cid write_log (Z.of_nat j) (Z.of_nat (j - 1)) w =
          (Ok (inr (Z.of_nat (length pgs - 1))), w') ∧
        inv hist None w' ∧ pages_repr t pgs (Z.of_nat (length pgs)) w'
    end.
Proof.
  intros Hj Hfuel Hfull Hi Hp Hr Hx Hc Hlog b i. revert j w Hj Hfuel Hfull Hi Hp.
  induction fuel as [|fuel IH]; intros j w Hj Hfuel Hfull Hi Hp; [lia|].
  pose proof (pg_count _ _ _ _ Hp) as Hcnt. rewrite NULL_PAGE_ID_val in Hcnt.
  assert (0 < rsize_ r) as Hpos.
  { rewrite (rw_size _ Hr). pose proof (record_wf_header_len r). assert (0 < RECORD_HEADER_SIZE) by done. lia. }
  destruct (lookup_lt_is_Some_2 pgs j) as [recs Hrec]; [lia|].
  destruct (visit_page _ _ _ _ _ _ _ Hi Hp Hrec) as (l & w1 & lsn & Hget & Hh & Hp1 & He1).
  destruct (free_room _ _ _ _ _ _ Hh Hpos) as (free & Hfree & Hroom). cbn [a_recs] in Hroom.
  pose proof (place_first _ _ _ _ Hfull Hrec) as Hplace. cbn [insert_walk].
  destruct (Z.eqb_spec (Z.of_nat j) NULL_PAGE_ID) as [Hn|_]; [rewrite NULL_PAGE_ID_val in Hn; lia|].
  rewrite (M_bind_step _ _ _ _ _ Hget), (M_bind_step _ _ _ _ _ Hfree). unfold GetSize. rewrite Hroom.
  destruct (has_room (rsize_ r) recs) eqn:Hhas.
  - unfold i. rewrite Hplace, Hrec.
    destruct (insert_page _ _ _ _ _ _ _ _ _ xid cid write_log Hp1 Hrec Hh Hr Hx Hc Hhas Hlog) as
      (w' & hist' & lsn' & Hrun & Hi' & Hp' & He' & Hl & Hpg).
    exists w'. split; [unfold table_effect in *; by transitivity w1|]. exists hist', lsn, lsn'.
    split; [|done]. by rewrite (M_bind_step _ _ _ _ _ Hrun).
  - rewrite (M_bind_step _ _ _ _ _ (here_read _ _ _ _ _ _ _ Hh (λ p Hpr, GetNextPageId_repr p _ Hpr))).
    cbn [a_next]. assert (∀ i' recs', (i' < S j)%nat → pgs !! i' = Some recs' → has_room (rsize_ r) recs' = false) as Hfull'.
    { intros i' recs' Hi' Hrec'. destruct (decide (i' = j)) as [->|]; [congruence|]. apply (Hfull i'); [lia|done]. }
    destruct (decide (S j < length pgs)%nat) as [Hmore|Hlast].
    + rewrite (next_of_inner (length pgs) _ j) by done. destruct (Z.eqb_spec (Z.of_nat (S j)) NULL_PAGE_ID) as [Hn|_]; [rewrite NULL_PAGE_ID_val in Hn; lia|].
      destruct (IH (S j) w1) as (w' & He' & Hres); [lia|lia|done|apply Hh|done|].
      exists w'. split; [unfold table_effect in *; by transitivity w1|].
      replace (Z.of_nat (S j - 1)) with (Z.of_nat j) in Hres by lia. exact Hres.
    + rewrite (next_of_last (length pgs) _ j), Z.eqb_refl by lia. destruct (link_last t pgs hist w1 l lsn recs j _ ltac:(lia) Hp1 Hrec Hh) as
        (w2 & Hlink & Hi2 & Hp2 & He2).
      exists w2. split; [unfold table_effect in *; by transitivity w1|].
      assert (pgs !! i = None) as ->.
      { unfold i. rewrite place_end; [apply lookup_ge_None; lia|].
        intros i' recs' Hrec'. apply (Hfull' i'); [apply lookup_lt_Some in Hrec'; lia|done]. }
      split; [|done]. rewrite (M_bind_step _ _ _ _ _ Hlink). destruct fuel; [lia|]. cbn [insert_walk].
      rewrite Z.eqb_refl. replace (length pgs - 1)%nat with j by lia. done.
Qed.

(** *** The whole insertion *)

Definition table_insert (b : bytes) (pgs : list (list bytes)) : list (list bytes) :=
  match pgs !! place (mem_len b) pgs with
  | Some recs => <[place (mem_len b) pgs := recs ++ [b]]> pgs
  | None => pgs ++ [[b]]
  end.
Definition insert_rid (len : Z) (pgs : list (list bytes)) : Rid :=
  mkRid (Z.of_nat (place len pgs)) (match pgs !! place len pgs with Some recs => a_count recs | None => 0 end).

(** The records logged: INSERT, after NEW_PAGE when the table grows. *)
Definition inserted_hist (write_log : bool) (hist : list LogRecord) (xid : Z) (t : Table)
    (pgs : list (list bytes)) (b : bytes) : list LogRecord :=
  let i := place (mem_len b) pgs in
  if write_log then
    match pgs !! i with
    | Some recs => hist ++ [insert_log hist xid (table_key t i) (a_count recs) (DB_PAGE_SIZE - total (recs ++ [b])) b]
    | None =>
        let prev_page_id := match pgs with [] => NULL_PAGE_ID | _ => Z.of_nat (length pgs - 1) end in
        let hist1 := hist ++ [new_page_log hist xid prev_page_id (table_key t i)] in
        hist1 ++ [insert_log hist1 xid (table_key t i) 0 (DB_PAGE_SIZE - mem_len b) b]
    end
  else hist.

(** The LSN of the page is the one of the INSERT record. *)
Definition page_lsn_logged (write_log : bool) (w : Pool LogDisk) (k : TablePageid) (hist : list LogRecord) : Prop :=
  write_log = true → ∃ a, page_is w k a ∧ Some (a_lsn a) = GetLSN <$> last hist.

Lemma page_lsn_insert w k a hist1 xid slot offset b :
  page_is w k a → a_lsn a = base + span hist1 →
  page_lsn_logged true w k (hist1 ++ [insert_log hist1 xid k slot offset b]).
Proof. intros Hp Hl _. exists a. split; [done|]. rewrite last_snoc. simpl. by rewrite Hl. Qed.

Lemma add_page t pgs hist w r xid cid write_log prev_page_id :
  inv hist None w → pages_repr t pgs (Z.of_nat (length pgs)) w → Z.of_nat (S (length pgs)) < NULL_PAGE_ID →
  record_wf r → in_range 4 xid → in_range 4 cid → in_range 4 prev_page_id →
  rsize_ r <= MAX_RECORD_SIZE → (write_log = true → log_ready hist xid (52 + rsize_ r)) →
  let b := record_bytes (stamp r xid cid) in
  let k := table_key t (length pgs) in
  ∃ page w1 w' hist' lsn', NewPage (db_oid_ t) (oid_ t) (Z.of_nat (length pgs)) w = (Ok page, w1) ∧
    insert_into_new page r xid cid write_log (oid_ t) prev_page_id (Z.of_nat (length pgs)) w1 =
      (Ok (0, stamp r xid cid), w') ∧
    inv hist' None w' ∧ pages_repr t (pgs ++ [[b]]) NULL_PAGE_ID w' ∧ table_effect t w w' ∧
    logs_new write_log hist xid prev_page_id k (DB_PAGE_SIZE - mem_len b) b hist' lsn' ∧
    page_is w' k (mkAPage lsn' NULL_PAGE_ID [b]).
Proof.
  intros Hi Hp Hcnt Hr Hx Hc Hpv Hsz Hlog b k. rewrite NULL_PAGE_ID_val in Hcnt.
  assert (key_range db_of k) as Hk by (eapply table_key_range; [exact Hp|lia]).
  destruct (here_new hist w k Hi Hk) as (page & w1 & w2 & Hnew & Hinit & Hh & He).
  { exact (pg_file _ _ _ _ Hp). }
  { by apply (pg_new _ _ _ _ Hp). }
  destruct (insert_into_new_spec _ _ _ _ _ r xid cid write_log prev_page_id Hinit Hh Hk Hr Hx Hc Hpv Hsz Hlog)
    as (w' & hist' & lsn' & Hrun & Hh' & He' & Hl).
  pose proof (here_view _ _ _ _ _ Hh') as Hpage.
  assert (effect (λ k', k' = k) (λ k', k' = k) w w') as Heff
    by (transitivity w2; [done|by eapply effect_mono; [| |exact He']]).
  exists page, w1, w', hist', lsn'. rewrite <- (pg_db _ _ _ _ Hp). split; [exact Hnew|].
  split; [exact Hrun|]. split; [apply Hh'|]. split; [|split; [|done]].
  - by eapply pages_snoc; [exact Hp|by rewrite NULL_PAGE_ID_val|exact Heff|].
  - by eapply effect_table; [| |exact Heff]; intros ? ->.
Qed.

Lemma on_pool_step {A B} (m : M (Pool LogDisk) A) a w' (f : A → M TableState B) t w :
  m w = (Ok a, w') → (on_pool m ≫= f) (mkTS t w) = f a (mkTS t w').
Proof. intros Hm. unfold on_pool, zoom, mbind, M_bind. cbn [ts_pool]. by rewrite Hm. Qed.

Definition with_first (page_id : Z) (t : Table) : Table :=
  mkTable (oid_ t) (db_oid_ t) page_id (column_list_ t).

Lemma pages_first t pgs last w page_id : pages_repr t pgs last w → pages_repr (with_first page_id t) pgs last w.
Proof. by intros []. Qed.

Lemma table_insert_first b pgs : first_page (table_insert b pgs) = 0.
Proof.
  unfold table_insert. destruct (pgs !! place (mem_len b) pgs) eqn:He; [|by destruct pgs].
  destruct pgs as [|recs pgs]; [done|]. by destruct (place (mem_len b) (recs :: pgs)).
Qed.

(** The branches of the insertion, by the page it ends on. *)
Definition insert_body (fuel : nat) (t : Table) (record : Rec) (xid cid : Z) (write_log : bool) :
    M TableState (Z * Z * Rec) :=
  page ← on_pool (GetPage (db_oid_ t) (oid_ t) (first_page_id_ t));
  free ← on_pool (on_page page GetFreeSpaceSize);
  if GetSize record <=? free then
    '(slot_id, record) ← on_pool (insert_into page record xid cid write_log (oid_ t) (first_page_id_ t));
    mret (first_page_id_ t, slot_id, record)
  else
    next_page_id ← on_pool (on_page page GetNextPageId);
    found ← on_pool (insert_walk fuel t record xid cid write_log next_page_id (first_page_id_ t));
    match found with
    | inl place => mret place
    | inr last_page_id =>
        (if last_page_id =? first_page_id_ t
         then on_pool (on_page page (SetNextPageId (u32 (first_page_id_ t + 1)))) else mret ()) ;;
        let page_id := u32 (last_page_id + 1) in
        new_page ← on_pool (NewPage (db_oid_ t) (oid_ t) page_id);
        '(slot_id, record) ← on_pool (insert_into_new new_page record xid cid write_log (oid_ t)
                                        last_page_id page_id);
        mret (page_id, slot_id, record)
    end.

(** What an insertion ends with. *)
Definition insert_post (t : Table) (pgs : list (list bytes)) (hist : list LogRecord) (write_log : bool)
    (xid : Z) (b : bytes) (w w' : Pool LogDisk) : Prop :=
  let hist' := inserted_hist write_log hist xid t pgs b in
  inv hist' None w' ∧ pages_repr t (table_insert b pgs) NULL_PAGE_ID w' ∧ table_effect t w w' ∧
  page_lsn_logged write_log w' (table_key t (place (mem_len b) pgs)) hist'.

(** The record goes to page [i], which has room. *)
Lemma insert_post_page t pgs hist hist' write_log xid i recs b lsn lsn' w w' :
  i = place (mem_len b) pgs → pgs !! i = Some recs →
  inv hist' None w' → pages_repr t (<[i := recs ++ [b]]> pgs) NULL_PAGE_ID w' → table_effect t w w' →
  logs_insert write_log hist xid (table_key t i) (a_count recs) (DB_PAGE_SIZE - total (recs ++ [b])) b
    lsn hist' lsn' →
  page_is w' (table_key t i) (mkAPage lsn' (next_of (length pgs) NULL_PAGE_ID i) (recs ++ [b])) →
  insert_post t pgs hist write_log xid b w w'.
Proof.
  intros -> Hrec Hi Hp He Hl Hpage. unfold insert_post, inserted_hist, table_insert. rewrite Hrec.
  destruct write_log; destruct Hl as [-> ->].
  - split; [done|]. split; [done|]. split; [done|]. by eapply page_lsn_insert; [exact Hpage|].
  - split; [done|]. split; [done|]. split; [done|]. by intros [=].
Qed.

(** The record goes to a new page. *)
Lemma insert_post_new t pgs hist hist' write_log xid prev_page_id b lsn' w w' :
  place (mem_len b) pgs = length pgs →
  prev_page_id = match pgs with [] => NULL_PAGE_ID | _ => Z.of_nat (length pgs - 1) end →
  inv hist' None w' → pages_repr t (pgs ++ [[b]]) NULL_PAGE_ID w' → table_effect t w w' →
  logs_new write_log hist xid prev_page_id (table_key t (length pgs)) (DB_PAGE_SIZE - mem_len b) b hist' lsn' →
  page_is w' (table_key t (length pgs)) (mkAPage lsn' NULL_PAGE_ID [b]) →
  insert_post t pgs hist write_log xid b w w'.
Proof.
  intros Hpl -> Hi Hp He Hl Hpage. unfold insert_post, inserted_hist, table_insert.
  rewrite !Hpl, lookup_ge_None_2 by lia.
  destruct write_log; destruct Hl as [-> ->].
  - split; [done|]. split; [done|]. split; [done|]. by eapply page_lsn_insert; [exact Hpage|].
  - split; [done|]. split; [done|]. split; [done|]. by intros [=].
Qed.

Lemma log_ready_less hist xid room room' : log_ready hist xid room → room' <= room → log_ready hist xid room'.
Proof. intros [] ?. split; [done|lia]. Qed.

Section Insertion.
Context (fuel : nat) (t : Table) (pgs : list (list bytes)) (hist : list LogRecord) (w : Pool LogDisk).
Context (r : Rec) (xid cid : Z) (write_log : bool).
Context (Hi : inv hist None w) (Hfuel : (length pgs < fuel)%nat)
  (Hcnt : Z.of_nat (S (length pgs)) < NULL_PAGE_ID) (Hr : record_wf r) (Hx : in_range 4 xid)
  (Hc : in_range 4 cid) (Hsz : rsize_ r <= MAX_RECORD_SIZE)
  (Hlog : write_log = true → log_ready hist xid (52 + rsize_ r)).

Let b : bytes := record_bytes (stamp r xid cid).

Lemma stamp_len : mem_len b = rsize_ r.
Proof using Hr. unfold b. by rewrite stamp_bytes_len, (rw_size _ Hr). Qed.

(** The chain is full: a page is added after page [length pgs - 1]. *)
Lemma insert_extend w1 :
  pgs ≠ [] → place (rsize_ r) pgs = length pgs → inv hist None w1 →
  pages_repr t pgs (Z.of_nat (length pgs)) w1 → table_effect t w w1 →
  ∃ w', (page ← on_pool (NewPage (db_oid_ t) (oid_ t) (u32 (Z.of_nat (length pgs - 1) + 1)));
         '(slot_id, record) ← on_pool (insert_into_new page r xid cid write_log (oid_ t)
            (Z.of_nat (length pgs - 1)) (u32 (Z.of_nat (length pgs - 1) + 1)));
         mret (u32 (Z.of_nat (length pgs - 1) + 1), slot_id, record)) (mkTS t w1) =
      (Ok (Z.of_nat (length pgs), 0, stamp r xid cid), mkTS t w') ∧
    insert_post t pgs hist write_log xid b w w'.
Proof using All.
  intros Hne Hpl Hi1 Hp1 He1. rewrite NULL_PAGE_ID_val in Hcnt.
  assert (0 < length pgs)%nat by (destruct pgs; simpl; [done|lia]).
  rewrite u32_small by lia. replace (Z.of_nat (length pgs - 1) + 1) with (Z.of_nat (length pgs)) by lia.
  destruct (add_page t pgs hist w1 r xid cid write_log (Z.of_nat (length pgs - 1)) Hi1 Hp1) as
    (page & w2 & w' & hist' & lsn' & Hnew & Hins & Hi' & Hp' & He' & Hl & Hpage);
    [rewrite NULL_PAGE_ID_val; lia|done..|unfold in_range; lia|done|done|].
  exists w'. split.
  - rewrite (on_pool_step _ _ _ _ _ _ Hnew), (on_pool_step _ _ _ _ _ _ Hins). done.
  - eapply insert_post_new; [by rewrite stamp_len| |done|done| |done|done].
    + by destruct pgs.
    + unfold table_effect in *. by transitivity w1.
Qed.

Lemma insert_chain :
  pgs ≠ [] → first_page_id_ t = 0 → pages_repr t pgs NULL_PAGE_ID w →
  ∃ w', insert_body fuel t r xid cid write_log (mkTS t w) =
      (Ok (page_id_ (insert_rid (rsize_ r) pgs), slot_id_ (insert_rid (rsize_ r) pgs), stamp r xid cid), mkTS t w') ∧
    insert_post t pgs hist write_log xid b w w'.
Proof using All.
  intros Hne Hfirst Hp. assert (0 < length pgs)%nat as Hpos by (destruct pgs; simpl; [done|lia]).
  assert (0 < rsize_ r) as Hrpos.
  { rewrite (rw_size _ Hr). pose proof (record_wf_header_len r). assert (0 < RECORD_HEADER_SIZE) by done. lia. }
  destruct (lookup_lt_is_Some_2 pgs 0 Hpos) as [recs Hrec].
  destruct (visit_page _ _ _ _ _ _ _ Hi Hp Hrec) as (l & w1 & lsn & Hget & Hh & Hp1 & He1).
  destruct (free_room _ _ _ _ _ _ Hh Hrpos) as (free & Hfree & Hroom). cbn [a_recs] in Hroom.
  assert (∀ i recs, (i < 0)%nat → pgs !! i = Some recs → has_room (rsize_ r) recs = false) as Hb0 by (intros; lia).
  pose proof (place_first (rsize_ r) pgs 0 recs Hb0 Hrec) as Hplace.
  unfold insert_body, insert_rid. rewrite Hfirst. cbn [page_id_ slot_id_].
  rewrite (on_pool_step _ _ _ _ _ _ Hget), (on_pool_step _ _ _ _ _ _ Hfree).
  unfold GetSize. rewrite Hroom. destruct (has_room (rsize_ r) recs) eqn:Hhas.
  - destruct (insert_page _ _ _ _ _ _ _ _ r xid cid write_log Hp1 Hrec Hh Hr Hx Hc Hhas) as
      (w' & hist' & lsn' & Hrun & Hi' & Hp' & He' & Hl & Hpg).
    { intros Hw. eapply log_ready_less; [by apply Hlog|lia]. }
    exists w'. rewrite Hplace, Hrec. split; [by rewrite (on_pool_step _ _ _ _ _ _ Hrun)|].
    eapply (insert_post_page _ _ _ _ _ _ 0%nat); [by rewrite stamp_len|done..| |done|done].
    unfold table_effect in *. by transitivity w1.
  - rewrite (on_pool_step _ _ _ _ _ _ (here_read _ _ _ _ _ _ _ Hh (λ p Hpr, GetNextPageId_repr p _ Hpr))).
    cbn [a_next]. destruct (decide (1 < length pgs)%nat) as [Hmore|Hone].
    + rewrite next_of_inner by done.
      destruct (insert_walk_spec fuel t pgs r xid cid write_log hist w1 1) as (w2 & He2 & Hres);
        [lia|lia| |apply Hh|done..| |].
      { intros i recs' Hlt Hrec'. assert (i = 0%nat) as -> by lia. congruence. }
      { intros Hw. eapply log_ready_less; [by apply Hlog|lia]. }
      change (Z.of_nat (1 - 1)) with 0 in Hres. assert (table_effect t w w2) as He12
        by (unfold table_effect in *; by transitivity w1).
      destruct (pgs !! place (rsize_ r) pgs) as [recs'|] eqn:Hpl.
      * destruct Hres as (hist' & lsn1 & lsn' & Hrun & Hi' & Hp' & Hl & Hpg). exists w2.
        rewrite (on_pool_step _ _ _ _ _ _ Hrun). split; [done|].
        eapply insert_post_page; [by rewrite stamp_len|done..].
      * destruct Hres as (Hrun & Hi2 & Hp2). rewrite (on_pool_step _ _ _ _ _ _ Hrun).
        destruct (Z.eqb_spec (Z.of_nat (length pgs - 1)) 0) as [?|_]; [lia|].
        assert (place (rsize_ r) pgs = length pgs) as Hend
          by (apply lookup_ge_None in Hpl; pose proof (place_le (rsize_ r) pgs); lia).
        rewrite Hend. destruct (insert_extend w2 Hne Hend Hi2 Hp2 He12) as (w' & Hrun' & Hpost).
        exists w'. split; [exact Hrun'|exact Hpost].
    + assert (length pgs = 1%nat) as H1 by lia. rewrite next_of_last by lia.
      assert (on_pool (insert_walk fuel t r xid cid write_log NULL_PAGE_ID 0) (mkTS t w1) =
        (Ok (inr 0), mkTS t w1)) as Hwalk.
      { destruct fuel; [lia|]. done. }
      rewrite (M_bind_step _ _ _ _ _ Hwalk), Z.eqb_refl.
      destruct (link_last t pgs hist w1 l lsn recs 0 _ ltac:(lia) Hp1 Hrec Hh) as (w2 & Hlink & Hi2 & Hp2 & He2).
      change (u32 (Z.of_nat 0 + 1)) with (u32 (0 + 1)) in Hlink.
      rewrite (on_pool_step _ _ _ _ _ _ Hlink).
      assert (place (rsize_ r) pgs = length pgs) as Hend.
      { pose proof (place_le (rsize_ r) pgs). lia. }
      rewrite Hend. rewrite lookup_ge_None_2 by lia.
      destruct (insert_extend w2 Hne Hend Hi2 Hp2) as (w' & Hrun' & Hpost).
      { unfold table_effect in *. by transitivity w1. }
      replace (Z.of_nat (length pgs - 1)) with 0 in Hrun' by lia. exists w'. split; [exact Hrun'|exact Hpost].
Qed.

Lemma InsertRecord_run :
  table_repr t pgs w →
  ∃ w', Table_InsertRecord fuel r xid cid write_log (mkTS t w) =
      (Ok (insert_rid (rsize_ r) pgs, SetRid (stamp r xid cid) (insert_rid (rsize_ r) pgs)),
       mkTS (with_first 0 t) w') ∧
    insert_post t pgs hist write_log xid b w w'.
Proof using All.
  intros [Hfirst Hp]. unfold Table_InsertRecord. unfold GetSize at 1.
  destruct (Z.ltb_spec MAX_RECORD_SIZE (rsize_ r)) as [?|_]; [lia|].
  rewrite gets_step. cbn [ts_table].
  destruct (decide (pgs = [])) as [->|Hne].
  - rewrite Hfirst. cbn [first_page]. rewrite Z.eqb_refl.
    destruct (add_page t [] hist w r xid cid write_log NULL_PAGE_ID Hi) as
      (page & w1 & w' & hist' & lsn' & Hnew & Hins & Hi' & Hp' & He' & Hl & Hpage); try done.
    { destruct Hp. split; try done. }
    exists w'. split.
    + rewrite bind_assoc_run, (on_pool_step _ _ _ _ _ _ Hnew).
      rewrite bind_assoc_run. unfold set_first_page_id. rewrite modify_step. cbn [ts_table ts_pool].
      rewrite bind_assoc_run, (on_pool_step _ _ _ _ _ _ Hins). done.
    + eapply insert_post_new; [done|reflexivity|exact Hi'|exact Hp'|done|exact Hl|exact Hpage].
  - assert (first_page_id_ t = 0) as H0f by (by destruct pgs).
    destruct (insert_chain Hne H0f Hp) as (w' & Hrun & Hpost).
    exists w'. split; [|done]. rewrite H0f. change (0 =? NULL_PAGE_ID) with false. cbv iota.
    unfold insert_body in Hrun. rewrite H0f in Hrun. rewrite (M_bind_step _ _ _ _ _ Hrun).
    unfold with_first. rewrite <- H0f. by destruct t.
Qed.

End Insertion.

Lemma insert_post_repr t pgs hist write_log xid b w w' :
  insert_post t pgs hist write_log xid b w w' → table_repr (with_first 0 t) (table_insert b pgs) w'.
Proof. intros (_ & Hp & _). split; [by rewrite table_insert_first|by apply pages_first]. Qed.

(** ** Deleting a record *)

Definition delete_log (hist : list LogRecord) (xid : Z) (k : TablePageid) (slot : Z) : LogRecord :=
  mkLogRecord (base + span hist) xid (default 0 (att_of hist !! xid))
    (DeleteLog (table_oid_ k) (tp_page_id_ k) slot).

(** The bytes of a record once transaction [xid] deleted it. *)
Definition delete_mark (xid : Z) (b : bytes) : bytes :=
  with_header (λ h, Header_SetXmax (Header_SetDeleted h true) xid) b.

Lemma delete_log_spec hist w k l a xid slot :
  here hist w k l a → key_range db_of k → in_range 4 xid → in_range 2 slot → log_ready hist xid 23 →
  ∃ w', on_wal (AppendDeleteLog xid (table_oid_ k) (tp_page_id_ k) slot) w = (Ok (base + span hist), w') ∧
    here (hist ++ [delete_log hist xid k slot]) w' k l a ∧ effect (λ _, False) (λ _, False) w w'.
Proof.
  intros Hh Hk Hx Hsl [[prev Hat] Hroom]. destruct (key_in_range k Hk) as [Hko Hkp].
  destruct (here_ok _ _ _ _ _ Hh) as (n & Hi & Hhi).
  destruct (Delete_done base hist n (po_wal w) xid (table_oid_ k) (tp_page_id_ k) slot prev)
    as (l' & Happ & Hd & Hi' & Hhi'); [done|done|by rewrite (hi_att _ _ Hhi)|by split_and!|done|].
  rewrite (li_next _ _ _ _ Hi) in Happ. rewrite (li_next _ _ _ _ Hi) in Hi', Hhi'.
  destruct (here_log hist (hist ++ [delete_log hist xid k slot]) w k l a _ (base + span hist) l' Hh Happ)
    as (Hrun & Hh1 & He1); [exists n; unfold delete_log; by rewrite Hat|done|].
  eauto.
Qed.

Definition deleted_hist (write_log : bool) (hist : list LogRecord) (xid : Z) (k : TablePageid) (slot : Z) :
    list LogRecord :=
  if write_log then hist ++ [delete_log hist xid k slot] else hist.

Definition table_delete (i slot : nat) (xid : Z) (recs : list bytes) (b : bytes) (pgs : list (list bytes)) :
    list (list bytes) :=
  <[i := <[slot := delete_mark xid b]> recs]> pgs.

Lemma DeleteRecord_run t pgs hist w i slot recs b xid write_log :
  inv hist None w → pages_repr t pgs NULL_PAGE_ID w → pgs !! i = Some recs → recs !! slot = Some b →
  RECORD_HEADER_SIZE <= mem_len b → in_range 4 xid → in_range 2 (Z.of_nat slot) →
  (write_log = true → log_ready hist xid 23) →
  ∃ w', Table_DeleteRecord (mkRid (Z.of_nat i) (Z.of_nat slot)) xid write_log (mkTS t w) = (Ok (), mkTS t w') ∧
    inv (deleted_hist write_log hist xid (table_key t i) (Z.of_nat slot)) None w' ∧
    pages_repr t (table_delete i slot xid recs b pgs) NULL_PAGE_ID w' ∧ table_effect t w w' ∧
    page_lsn_logged write_log w' (table_key t i)
      (deleted_hist write_log hist xid (table_key t i) (Z.of_nat slot)).
Proof.
  intros Hi Hp Hrec Hslot Hb Hx Hsl Hlog. pose proof (lookup_lt_Some _ _ _ Hrec) as Hlt.
  pose proof (pg_count _ _ _ _ Hp) as Hcnt. rewrite NULL_PAGE_ID_val in Hcnt.
  assert (key_range db_of (table_key t i)) as Hk by (eapply table_key_range; [exact Hp|lia]).
  destruct (visit_page _ _ _ _ _ _ _ Hi Hp Hrec) as (l & w1 & lsn & Hget & Hh & Hp1 & He1).
  set (a := mkAPage lsn (next_of (length pgs) NULL_PAGE_ID i) (<[slot := delete_mark xid b]> recs)).
  destruct (here_update hist w1 (table_key t i) l _ (DeleteRecord (Z.of_nat slot) xid) () a Hh) as
    (w2 & Hdel & Hh2 & He2 & _).
  { intros p Hpr. destruct (update_header_repr p _ slot b
      (λ h, Header_SetXmax (Header_SetDeleted h true) xid) Hpr Hslot Hb) as (p' & ? & ? & ?).
    exists p'. done. }
  unfold Table_DeleteRecord. rewrite gets_step. cbn [ts_table].
  cbn [page_id_ slot_id_]. rewrite (on_pool_step _ _ _ _ _ _ Hget), (on_pool_step _ _ _ _ _ _ Hdel).
  assert (∀ hist' w' lsn', here hist' w' (table_key t i) l (mkAPage lsn' (a_next a) (a_recs a)) →
    effect (λ k', k' = table_key t i) (λ _, False) w2 w' →
    inv hist' None w' ∧ pages_repr t (table_delete i slot xid recs b pgs) NULL_PAGE_ID w' ∧
    table_effect t w w' ∧ page_is w' (table_key t i) (mkAPage lsn' (a_next a) (a_recs a))) as Hfin.
  { intros hist' w' lsn' Hh' He'. pose proof (here_view _ _ _ _ _ Hh') as Hpage.
    assert (effect (λ k', k' = table_key t i) (λ _, False) w1 w') as He12 by (by transitivity w2).
    split; [apply Hh'|]. split; [|split; [|done]].
    - eapply pages_set; [exact Hp1|done|exact He12|exact Hpage|by left].
    - unfold table_effect in *. transitivity w1; [done|].
      by eapply effect_table; [| |exact He12]; [intros ? ->|]. }
  destruct write_log.
  - destruct (delete_log_spec _ _ _ _ _ xid (Z.of_nat slot) Hh2 Hk Hx Hsl (Hlog eq_refl)) as
      (w3 & Happ & Hh3 & He3).
    destruct (here_lsn _ _ _ _ _ (base + span hist) Hh3) as (w4 & Hset & Hh4 & He4 & _).
    { eapply lsn_range; [exact Hh2|by apply Hlog|lia]. }
    destruct (Hfin _ w4 _ Hh4) as (F1 & F2 & F3 & F4).
    { transitivity w3; [by eapply effect_mono; [| |exact He3]|done]. }
    exists w4. split; [|split; [exact F1|split; [exact F2|split; [exact F3|]]]].
    + cbn [oid_ table_oid_ tp_page_id_ table_key] in Happ.
      rewrite (on_pool_step _ _ _ _ _ _ Happ). unfold on_pool, zoom. cbn [ts_pool]. by rewrite Hset.
    + intros _. eexists. split; [exact F4|]. unfold deleted_hist. by rewrite last_snoc.
  - destruct (Hfin hist w2 lsn) as (F1 & F2 & F3 & F4); [exact Hh2|done|].
    exists w2. split; [done|]. split; [exact F1|]. split; [exact F2|]. split; [exact F3|]. by intros [=].
Qed.

End Spec.
