(* ===== verification/TableScan.v ===== *)
(** [src/src/table/table_scan.h] and [table_scan.cpp]: the scan of a table
    returns, one call at a time and in the order of the chain, the versions
    [CanGet] of [Visibility.v] does not skip. *)
From S2P Require Import Prelude Memory Types StringUtil Disk Value Bitmap Column Record TablePage Lru LogRecord LogManager BufferPool Storage LockManager TransactionManager Visibility Table.

(** ** The code *)

(** The scan: its position, the table and the storage. *)
Record TableScan := mkScan { scan_rid_ : Rid; scan_table_ : Table; scan_pool_ : Pool LogDisk }.

Section Operations.
Context `{MapOrder} `{Allocator}.

Definition scan_pool {A} (m : M (Pool LogDisk) A) : M TableScan A :=
  zoom scan_pool_ (λ w s, mkScan (scan_rid_ s) (scan_table_ s) w) m.
Definition set_rid (rid : Rid) : M TableScan unit :=
  modify (λ s, mkScan rid (scan_table_ s) (scan_pool_ s)).

(** [table_page->GetRecord(rid_, ...)] and [record->SetRid(rid_)]. *)
Definition scan_record (page : loc) : M TableScan Rec :=
  s ← get;
  record ← scan_pool (on_page page (GetRecord (scan_rid_ s) (GetColumnList (scan_table_ s))));
  mret (SetRid record (scan_rid_ s)).

(** Moving [rid_] to the next slot, or to the first slot of the next page. *)
Definition scan_advance (page : loc) : M TableScan unit :=
  s ← get;
  record_count ← scan_pool (on_page page GetRecordCount);
  if slot_id_ (scan_rid_ s) <? record_count - 1
  then set_rid (mkRid (page_id_ (scan_rid_ s)) (u16 (slot_id_ (scan_rid_ s) + 1)))
  else
    next_page_id ← scan_pool (on_page page GetNextPageId);
    set_rid (mkRid next_page_id 0).

(** The [while] loop and what follows it; a page is only fetched when [rid_]
    moved to another one. *)
Fixpoint scan_loop (fuel : nat) (page : loc) (record : Rec) (xid : Z) (isolation_level : IsolationLevel)
    (cid : Z) (active_xids : gset Z) : M TableScan (option Rec) :=
  match fuel with
  | O => throw (Undefined "the scan does not end")
  | S fuel =>
      if CanGet record xid cid isolation_level active_xids then
        s ← get;
        record_count ← scan_pool (on_page page GetRecordCount);
        if slot_id_ (scan_rid_ s) <? record_count - 1 then
          set_rid (mkRid (page_id_ (scan_rid_ s)) (u16 (slot_id_ (scan_rid_ s) + 1))) ;;
          record ← scan_record page;
          scan_loop fuel page record xid isolation_level cid active_xids
        else
          next_page_id ← scan_pool (on_page page GetNextPageId);
          set_rid (mkRid next_page_id 0) ;;
          if next_page_id =? NULL_PAGE_ID then mret None
          else
            page ← scan_pool (GetPage (GetDbOid (scan_table_ s)) (GetOid (scan_table_ s)) next_page_id);
            record ← scan_record page;
            scan_loop fuel page record xid isolation_level cid active_xids
      else
        scan_advance page ;;
        mret (Some record)
  end.

Definition GetNextRecord (fuel : nat) (xid : Z) (isolation_level : IsolationLevel) (cid : Z)
    (active_xids : gset Z) : M TableScan (option Rec) :=
  s ← get;
  if page_id_ (scan_rid_ s) =? NULL_PAGE_ID then mret None
  else
    page ← scan_pool (GetPage (GetDbOid (scan_table_ s)) (GetOid (scan_table_ s)) (page_id_ (scan_rid_ s)));
    record ← scan_record page;
    scan_loop fuel page record xid isolation_level cid active_xids.

(** Calling [GetNextRecord] until it returns null, [calls] times at most. *)
Fixpoint scan_all (fuel calls : nat) (xid : Z) (isolation_level : IsolationLevel) (cid : Z)
    (active_xids : gset Z) : M TableScan (list Rec) :=
  match calls with
  | O => throw (Undefined "the scan does not end")
  | S calls =>
      record ← GetNextRecord fuel xid isolation_level cid active_xids;
      match record with
      | None => mret []
      | Some record =>
          records ← scan_all fuel calls xid isolation_level cid active_xids;
          mret (record :: records)
      end
  end.

End Operations.

(** ** The versions of a table in scan order *)

(** The bytes the pages hold for these versions. *)
Definition encode_pages (pages : list (list Rec)) : list (list bytes) :=
  (λ recs : list Rec, record_bytes <$> recs) <$> pages.

(** The versions of page [i], and of the pages from [i] on. *)
Definition page_entries (i : nat) (recs : list Rec) : list (Rid * Rec) :=
  imap (λ j r, (mkRid (Z.of_nat i) (Z.of_nat j), r)) recs.
Fixpoint entries (i : nat) (pages : list (list Rec)) : list (Rid * Rec) :=
  match pages with
  | [] => []
  | recs :: pages => page_entries i recs ++ entries (S i) pages
  end.

(** The position [rid] in a table with the versions [pages]: [todo] is still to
    be scanned. *)
Inductive scan_at (pages : list (list Rec)) : Rid → list (Rid * Rec) → Prop :=
| at_end slot : scan_at pages (mkRid NULL_PAGE_ID slot) []
| at_slot i j recs : pages !! i = Some recs → (j < length recs)%nat →
    scan_at pages (mkRid (Z.of_nat i) (Z.of_nat j))
      (drop j (page_entries i recs) ++ entries (S i) (drop (S i) pages)).

Lemma entries_start pages : Forall (λ recs, recs ≠ []) pages →
  scan_at pages (mkRid (first_page (encode_pages pages)) 0) (entries 0 pages).
Proof.
  intros Hne. destruct pages as [|recs pages]; [apply at_end|].
  apply Forall_cons in Hne as [Hne _]. apply (at_slot (recs :: pages) 0 0 recs); [done|]. destruct recs; simpl; [done|lia].
Qed.

Lemma drop_entries i pages : (i < length pages)%nat → ∃ recs,
  pages !! i = Some recs ∧ entries i (drop i pages) = page_entries i recs ++ entries (S i) (drop (S i) pages).
Proof.
  intros Hi. destruct (lookup_lt_is_Some_2 _ _ Hi) as [recs Hr]. exists recs. split; [done|].
  by rewrite (drop_S _ _ _ Hr).
Qed.

Lemma page_entries_cons i j recs r : recs !! j = Some r →
  drop j (page_entries i recs) = (mkRid (Z.of_nat i) (Z.of_nat j), r) :: drop (S j) (page_entries i recs).
Proof. intros Hj. apply drop_S. unfold page_entries. by rewrite list_lookup_imap, Hj. Qed.

Lemma page_entries_end i j recs : (length recs ≤ j)%nat → drop j (page_entries i recs) = [].
Proof. intros Hj. apply drop_ge. unfold page_entries. by rewrite length_imap. Qed.

(** ** The scan follows the positions *)

Section Spec.
Context `{MapOrder} `{Allocator}.
Context (db_of : Z → Z) (base : Z).
Context (hist : list LogRecord) (t : Table) (pages : list (list Rec)).
Context (xid cid : Z) (level : IsolationLevel) (active : gset Z).

(** The table holds [pages], none of them empty, all written with its schema. *)
Record scannable (w : Pool LogDisk) : Prop := {
  sc_inv : inv db_of base hist None w;
  sc_table : table_repr db_of t (encode_pages pages) w;
  sc_nonempty : Forall (λ recs, recs ≠ []) pages;
  sc_records : Forall (Forall (λ r, record_wf r ∧ schema_ok (column_list_ t) (rvalues_ r))) pages
}.

(** What is read for the version [r] at [rid]. *)
Record reads (rid : Rid) (r r' : Rec) : Prop := {
  rd_values : rvalues_ r' = norm <$> rvalues_ r;
  rd_header : header_ r' = header_ r;
  rd_rid : rid_ r' = rid;
  rd_size : rsize_ r' = rsize_ r;
  rd_is : r' = read_version rid r
}.

Lemma reads_CanGet rid r r' : reads rid r r' → CanGet r' xid cid level active = CanGet r xid cid level active.
Proof. intros [_ Hh _ _ _]. unfold CanGet, GetCid, GetXmin, GetXmax. by rewrite Hh. Qed.

(** The page [i] of the table is in the pool at [l]. *)
Definition on (w : Pool LogDisk) (i : nat) (l : loc) (recs : list Rec) : Prop :=
  pages !! i = Some recs ∧ scannable w ∧
  ∃ lsn, here db_of base hist w (table_key t i) l
    (mkAPage lsn (next_of (length pages) NULL_PAGE_ID i) (record_bytes <$> recs)).

Lemma encode_length : length (encode_pages pages) = length pages.
Proof. apply length_fmap. Qed.

Lemma scannable_keep w w' :
  scannable w → inv db_of base hist None w' → pages_repr db_of t (encode_pages pages) NULL_PAGE_ID w' → scannable w'.
Proof. intros [_ [Hf _] ? ?] ? ?. by split; [|split|..]. Qed.

Lemma scan_visit w i recs :
  scannable w → pages !! i = Some recs →
  ∃ l w', GetPage (db_oid_ t) (oid_ t) (Z.of_nat i) w = (Ok l, w') ∧ on w' i l recs ∧ table_effect db_of t w w'.
Proof.
  intros Hs Hi. pose proof Hs as [Hinv [Hf Hp] _ _].
  assert (encode_pages pages !! i = Some (record_bytes <$> recs)) as He
    by (unfold encode_pages; by rewrite list_lookup_fmap, Hi).
  destruct (visit_page _ _ _ _ _ _ _ _ _ Hinv Hp He) as (l & w' & lsn & Hget & Hh & Hp' & Heff).
  rewrite encode_length in Hh. exists l, w'. split; [done|]. split; [|done]. split; [done|].
  split; [|by exists lsn]. eapply scannable_keep; [exact Hs|apply Hh|done].
Qed.

Lemma scan_pool_step {A B} (m : M (Pool LogDisk) A) a w' (f : A → M TableScan B) rid w :
  m w = (Ok a, w') → (scan_pool m ≫= f) (mkScan rid t w) = f a (mkScan rid t w').
Proof. intros Hm. unfold scan_pool, zoom, mbind, M_bind. cbn [scan_pool_]. by rewrite Hm. Qed.

Lemma scan_record_run w i j l recs r :
  on w i l recs → recs !! j = Some r →
  ∃ r', scan_record l (mkScan (mkRid (Z.of_nat i) (Z.of_nat j)) t w) =
      (Ok r', mkScan (mkRid (Z.of_nat i) (Z.of_nat j)) t w) ∧ reads (mkRid (Z.of_nat i) (Z.of_nat j)) r r'.
Proof.
  intros (Hi & Hs & lsn & Hh) Hj. destruct Hh as [_ _ (p & Hp & Hpr)].
  destruct (Forall_lookup_1 _ _ _ _ (Forall_lookup_1 _ _ _ _ (sc_records _ Hs) Hi) Hj) as [Hwf Hsch].
  destruct (GetRecord_repr p _ j r (mkRid (Z.of_nat i) (Z.of_nat j)) (column_list_ t) Hpr) as
    (r' & Hrun & Hv & Hhd & Hrid & Hsz & _ & Hrv); [simpl; by rewrite list_lookup_fmap, Hj|done..|].
  exists (SetRid r' (mkRid (Z.of_nat i) (Z.of_nat j))). split; [|split; try done].
  2:{ rewrite <- Hrv. unfold SetRid. rewrite <- Hrid. by destruct r'. }
  unfold scan_record. rewrite get_step. cbn [scan_rid_ scan_table_].
  rewrite (scan_pool_step _ r' w); [done|]. by apply (on_page_read l p).
Qed.

Lemma scan_count w i l recs : on w i l recs →
  on_page l GetRecordCount w = (Ok (Z.of_nat (length recs)), w) ∧ Z.of_nat (length recs) < 2 ^ 16.
Proof.
  intros (_ & _ & lsn & Hh). split.
  - rewrite (here_read _ _ _ _ _ _ _ _ _ Hh (λ p Hp, GetRecordCount_spec p _ Hp)). cbn [a_recs].
    unfold a_count. by rewrite length_fmap.
  - destruct Hh as [_ _ (p & _ & Hpr)]. pose proof (pr_fits _ _ Hpr) as Hf. cbn [a_recs] in Hf.
    pose proof (total_nonneg (record_bytes <$> recs)). unfold a_used, a_count in Hf. rewrite length_fmap in Hf.
    change DB_PAGE_SIZE with 256 in Hf. unfold PAGE_HEADER_SIZE, sizeof_Slot, sizeof_lsn_t, sizeof_pageid_t,
      sizeof_db_size_t in Hf. lia.
Qed.

Lemma scan_next_page w i l recs : on w i l recs →
  on_page l GetNextPageId w = (Ok (next_of (length pages) NULL_PAGE_ID i), w).
Proof.
  intros (_ & _ & lsn & Hh). by rewrite (here_read _ _ _ _ _ _ _ _ _ Hh (λ p Hp, GetNextPageId_repr p _ Hp)).
Qed.

(** The next version to return, and what is left after it. *)
Fixpoint scan_next (todo : list (Rid * Rec)) : option (Rid * Rec) * list (Rid * Rec) :=
  match todo with
  | [] => (None, [])
  | (rid, r) :: todo => if CanGet r xid cid level active then scan_next todo else (Some (rid, r), todo)
  end.

Definition reads_option (x : option (Rid * Rec)) (out : option Rec) : Prop :=
  match x, out with
  | None, None => True
  | Some (rid, r), Some r' => reads rid r r'
  | _, _ => False
  end.

Definition next_rid (i j : nat) (recs : list Rec) : Rid :=
  if (S j <? length recs)%nat then mkRid (Z.of_nat i) (Z.of_nat (S j))
  else mkRid (next_of (length pages) NULL_PAGE_ID i) 0.

Lemma next_slot i j l recs w :
  on w i l recs → (j < length recs)%nat →
  (Z.of_nat j <? Z.of_nat (length recs) - 1) = (S j <? length recs)%nat ∧
  u16 (Z.of_nat j + 1) = Z.of_nat (S j).
Proof.
  intros Hon Hj. destruct (scan_count _ _ _ _ Hon) as [_ Hlt]. split.
  - destruct (Nat.ltb_spec (S j) (length recs)); [apply Z.ltb_lt|apply Z.ltb_ge]; lia.
  - rewrite u16_small by lia. lia.
Qed.

Lemma scan_advance_run w i j l recs :
  on w i l recs → (j < length recs)%nat →
  scan_advance l (mkScan (mkRid (Z.of_nat i) (Z.of_nat j)) t w) = (Ok (), mkScan (next_rid i j recs) t w).
Proof.
  intros Hon Hj. destruct (scan_count _ _ _ _ Hon) as [Hc _]. destruct (next_slot _ _ _ _ _ Hon Hj) as [H1 H2].
  unfold scan_advance. rewrite get_step. rewrite (scan_pool_step _ _ _ _ _ _ Hc). cbn [scan_rid_ slot_id_ page_id_].
  rewrite H1, H2. unfold next_rid. destruct (S j <? length recs)%nat; [done|].
  by rewrite (scan_pool_step _ _ _ _ _ _ (scan_next_page _ _ _ _ Hon)).
Qed.

Lemma table_effect_trans w1 w2 w3 :
  table_effect db_of t w1 w2 → table_effect db_of t w2 w3 → table_effect db_of t w1 w3.
Proof. apply (transitivity (R := effect db_of _ _)). Qed.

(** What is left from slot [j] of page [i] on. *)
Definition todo_at (i j : nat) (recs : list Rec) : list (Rid * Rec) :=
  drop j (page_entries i recs) ++ entries (S i) (drop (S i) pages).

Lemma todo_next w i j recs :
  scannable w → pages !! i = Some recs → (j < length recs)%nat →
  scan_at pages (next_rid i j recs) (todo_at i (S j) recs).
Proof.
  intros Hs Hi Hj. unfold next_rid, todo_at. pose proof (lookup_lt_Some _ _ _ Hi) as Hlt.
  destruct (Nat.ltb_spec (S j) (length recs)); [by apply at_slot|].
  rewrite page_entries_end by done. simpl. destruct (decide (S i < length pages)%nat) as [Hmore|Hlast].
  - rewrite next_of_inner by done. destruct (drop_entries (S i) pages Hmore) as (recs' & Hr' & ->).
    apply (at_slot pages (S i) 0 recs'); [done|].
    pose proof (Forall_lookup_1 _ _ _ _ (sc_nonempty _ Hs) Hr') as Hn. destruct recs'; simpl in *; [done|lia].
  - rewrite next_of_last, drop_ge by lia. apply at_end.
Qed.

(** The outcome of a call. *)
Definition scan_outcome (todo : list (Rid * Rec)) (w : Pool LogDisk) (run : res (option Rec) * TableScan) : Prop :=
  ∃ w' rid' out, table_effect db_of t w w' ∧ scannable w' ∧ run = (Ok out, mkScan rid' t w') ∧
    reads_option (scan_next todo).1 out ∧ scan_at pages rid' (scan_next todo).2.

Lemma scan_loop_run fuel : ∀ w i j l recs r r',
  on w i l recs → recs !! j = Some r → reads (mkRid (Z.of_nat i) (Z.of_nat j)) r r' →
  (length (todo_at i j recs) ≤ fuel)%nat →
  scan_outcome (todo_at i j recs) w
    (scan_loop fuel l r' xid level cid active (mkScan (mkRid (Z.of_nat i) (Z.of_nat j)) t w)).
Proof.
  induction fuel as [|fuel IH]; intros w i j l recs r r' Hon Hj Hrd Hfuel;
    pose proof (lookup_lt_Some _ _ _ Hj) as Hjlt; pose proof Hon as (Hi & Hs & _).
  { unfold todo_at in Hfuel. rewrite (page_entries_cons _ _ _ _ Hj) in Hfuel. simpl in Hfuel. lia. }
  pose proof (todo_next w i j recs Hs Hi Hjlt) as Hnext.
  unfold scan_outcome. unfold todo_at at 1 2. rewrite (page_entries_cons _ _ _ _ Hj).
  unfold todo_at in Hfuel. rewrite (page_entries_cons _ _ _ _ Hj) in Hfuel. cbn [length app] in Hfuel.
  fold (todo_at i (S j) recs) in Hfuel. cbn [app scan_next]. fold (todo_at i (S j) recs).
  cbn [scan_loop]. rewrite (reads_CanGet _ _ _ Hrd). destruct (CanGet r xid cid level active).
  2:{ exists w, (next_rid i j recs), (Some r'). split; [unfold table_effect; reflexivity|]. split; [done|]. split; [|done].
      by rewrite (M_bind_step _ _ _ _ _ (scan_advance_run _ _ _ _ _ Hon Hjlt)). }
  rewrite get_step. destruct (scan_count _ _ _ _ Hon) as [Hc _]. rewrite (scan_pool_step _ _ _ _ _ _ Hc).
  destruct (next_slot _ _ _ _ _ Hon Hjlt) as [E1 E2]. cbn [scan_rid_ slot_id_ page_id_ scan_table_].
  rewrite E1, E2. unfold next_rid in Hnext. destruct (Nat.ltb_spec (S j) (length recs)) as [Hin|Hend].
  - unfold set_rid at 1. rewrite modify_step. cbn [scan_table_ scan_pool_].
    destruct (lookup_lt_is_Some_2 recs (S j) Hin) as [r2 Hj2].
    destruct (scan_record_run _ _ _ _ _ _ Hon Hj2) as (r2' & Hrun & Hrd2).
    rewrite (M_bind_step _ _ _ _ _ Hrun). eapply IH; [done..|lia].
  - rewrite (scan_pool_step _ _ _ _ _ _ (scan_next_page _ _ _ _ Hon)).
    unfold set_rid at 1. rewrite modify_step. cbn [scan_table_ scan_pool_].
    unfold todo_at in *. rewrite page_entries_end in * by done. cbn [app] in *.
    destruct (decide (S i < length pages)%nat) as [Hmore|Hlast].
    + rewrite next_of_inner by done. destruct (drop_entries (S i) pages Hmore) as (recs' & Hr' & Heq).
      rewrite Heq in *. pose proof (pg_count _ _ _ _ _ (proj2 (sc_table _ Hs))) as Hcnt.
      rewrite encode_length in Hcnt. destruct (Z.eqb_spec (Z.of_nat (S i)) NULL_PAGE_ID); [lia|].
      destruct (scan_visit w (S i) recs' Hs Hr') as (l2 & w2 & Hget & Hon2 & He2).
      unfold GetDbOid, GetOid. rewrite (scan_pool_step _ _ _ _ _ _ Hget).
      pose proof (Forall_lookup_1 _ _ _ _ (sc_nonempty _ Hs) Hr') as Hn.
      destruct (lookup_lt_is_Some_2 recs' 0) as [r2 Hj2]; [destruct recs'; simpl in *; [done|lia]|].
      destruct (scan_record_run _ _ _ _ _ _ Hon2 Hj2) as (r2' & Hrun & Hrd2). change (Z.of_nat 0) with 0 in *.
      rewrite (M_bind_step _ _ _ _ _ Hrun).
      destruct (IH w2 (S i) 0%nat l2 recs' r2 r2' Hon2 Hj2 Hrd2) as (w' & rid' & out & He' & Hs' & Hr2 & Hout).
      { unfold todo_at. rewrite drop_0. lia. }
      exists w', rid', out. split; [by eapply table_effect_trans|]. split; [done|]. split; [exact Hr2|].
      unfold todo_at in Hout. rewrite drop_0 in Hout. exact Hout.
    + rewrite next_of_last by lia. rewrite drop_ge by lia. cbn [entries scan_next fst snd].
      exists w, (mkRid NULL_PAGE_ID 0), None. split; [unfold table_effect; reflexivity|]. split; [done|].
      split; [done|]. split; [done|apply at_end].
Qed.

Lemma GetNextRecord_run fuel w rid todo :
  scannable w → scan_at pages rid todo → (length todo ≤ fuel)%nat →
  scan_outcome todo w (GetNextRecord fuel xid level cid active (mkScan rid t w)).
Proof.
  intros Hs Hat Hfuel. unfold GetNextRecord. rewrite get_step. destruct Hat as [slot|i j recs Hi Hj].
  - cbn [scan_rid_ page_id_]. rewrite Z.eqb_refl.
    exists w, (mkRid NULL_PAGE_ID slot), None. split; [unfold table_effect; reflexivity|]. split; [done|].
    split; [done|]. split; [done|apply at_end].
  - cbn [scan_rid_ page_id_ scan_table_]. pose proof (pg_count _ _ _ _ _ (proj2 (sc_table _ Hs))) as Hcnt.
    rewrite encode_length in Hcnt. pose proof (lookup_lt_Some _ _ _ Hi).
    destruct (Z.eqb_spec (Z.of_nat i) NULL_PAGE_ID); [lia|].
    destruct (scan_visit w i recs Hs Hi) as (l & w2 & Hget & Hon & He2).
    unfold GetDbOid, GetOid. rewrite (scan_pool_step _ _ _ _ _ _ Hget).
    destruct (lookup_lt_is_Some_2 recs j Hj) as [r Hr].
    destruct (scan_record_run _ _ _ _ _ _ Hon Hr) as (r' & Hrun & Hrd).
    rewrite (M_bind_step _ _ _ _ _ Hrun).
    destruct (scan_loop_run fuel w2 i j l recs r r' Hon Hr Hrd Hfuel) as (w' & rid' & out & He' & Hs' & Hr2 & Hout).
    exists w', rid', out. split; [by eapply table_effect_trans|]. split; [done|]. split; [exact Hr2|exact Hout].
Qed.

(** *** The whole scan *)

Definition is_visible (e : Rid * Rec) : Prop := CanGet e.2 xid cid level active = false.
#[export] Instance is_visible_dec e : Decision (is_visible e) := decide (CanGet e.2 xid cid level active = false).

Lemma scan_next_filter todo :
  match scan_next todo with
  | (None, rest) => filter is_visible todo = [] ∧ rest = []
  | (Some e, rest) => filter is_visible todo = e :: filter is_visible rest ∧ (length rest < length todo)%nat
  end.
Proof.
  induction todo as [|[rid r] todo IH]; simpl; [done|].
  destruct (CanGet r xid cid level active) eqn:Hc.
  - destruct (scan_next todo) as [[e|] rest]; rewrite filter_cons_False by (unfold is_visible; simpl; congruence);
      [destruct IH; split; [done|lia]|done].
  - rewrite filter_cons_True by done. split; [done|lia].
Qed.

Lemma scan_all_run fuel calls w rid todo :
  scannable w → scan_at pages rid todo → (length todo ≤ fuel)%nat → (length todo < calls)%nat →
  ∃ w' slot records, table_effect db_of t w w' ∧ scannable w' ∧
    scan_all fuel calls xid level cid active (mkScan rid t w) =
      (Ok records, mkScan (mkRid NULL_PAGE_ID slot) t w') ∧
    Forall2 (λ e r', reads e.1 e.2 r') (filter is_visible todo) records.
Proof.
  revert w rid todo. induction calls as [|calls IH]; intros w rid todo Hs Hat Hfuel Hcalls; [lia|].
  destruct (GetNextRecord_run fuel w rid todo Hs Hat Hfuel) as (w1 & rid1 & out & He1 & Hs1 & Hrun & Hout & Hat1).
  pose proof (scan_next_filter todo) as Hf. cbn [scan_all]. rewrite (M_bind_step _ _ _ _ _ Hrun).
  destruct (scan_next todo) as [[[rid0 r0]|] rest]; destruct out as [r'|]; simpl in Hout, Hat1; try done.
  - destruct Hf as [Hf Hlen].
    destruct (IH w1 rid1 rest Hs1 Hat1) as (w' & slot & records & He' & Hs' & Hrest & Hall); [lia..|].
    exists w', slot, (r' :: records). split; [by eapply table_effect_trans|]. split; [done|]. split.
    + by rewrite (M_bind_step _ _ _ _ _ Hrest).
    + rewrite Hf. by constructor.
  - destruct Hf as [Hf ->]. rewrite Hf. inversion Hat1 as [slot|i j recs Hi Hj Heq Hnil].
    + exists w1, slot, []. split; [done|]. split; [done|]. split; [done|constructor].
    + destruct (lookup_lt_is_Some_2 recs j Hj) as [r Hr]. by rewrite (page_entries_cons _ _ _ _ Hr) in Hnil.
Qed.

End Spec.

(** ** Inserting at the level of versions *)

Definition versions_insert (r : Rec) (pages : list (list Rec)) : list (list Rec) :=
  let i := place (mem_len (record_bytes r)) (encode_pages pages) in
  match pages !! i with
  | Some recs => <[i := recs ++ [r]]> pages
  | None => pages ++ [[r]]
  end.

Lemma encode_insert r pages :
  encode_pages (versions_insert r pages) = table_insert (record_bytes r) (encode_pages pages).
Proof.
  unfold versions_insert, table_insert, encode_pages.
  set (i := place _ _). rewrite list_lookup_fmap. destruct (pages !! i) as [recs|]; simpl.
  - rewrite list_fmap_insert. by rewrite fmap_app.
  - by rewrite fmap_app.
Qed.

Lemma entries_app i p1 p2 : entries i (p1 ++ p2) = entries i p1 ++ entries (i + length p1) p2.
Proof.
  revert i. induction p1 as [|recs p1 IH]; intros i; simpl; [by rewrite Nat.add_0_r|].
  rewrite IH, app_assoc. do 2 f_equal. lia.
Qed.

Lemma page_entries_snoc i recs r :
  page_entries i (recs ++ [r]) = page_entries i recs ++ [(mkRid (Z.of_nat i) (Z.of_nat (length recs)), r)].
Proof. unfold page_entries. rewrite imap_app. simpl. by rewrite Nat.add_0_r. Qed.

(** The new version is one more entry, at the place [InsertRecord] returns. *)
Lemma versions_insert_entries r pages :
  entries 0 (versions_insert r pages) ≡ₚ
    (insert_rid (mem_len (record_bytes r)) (encode_pages pages), r) :: entries 0 pages.
Proof.
  unfold versions_insert, insert_rid. set (i := place _ _).
  assert (i ≤ length pages)%nat as Hle.
  { unfold i. pose proof (place_le (mem_len (record_bytes r)) (encode_pages pages)) as Hp.
    unfold encode_pages in Hp at 2. by rewrite length_fmap in Hp. }
  assert (encode_pages pages !! i = (λ recs : list Rec, record_bytes <$> recs) <$> pages !! i) as ->
    by apply list_lookup_fmap.
  destruct (pages !! i) as [recs|] eqn:Hi; simpl.
  - rewrite <- (take_drop_middle _ _ _ Hi) at 2. rewrite insert_take_drop by (by eapply lookup_lt_Some).
    rewrite !entries_app. simpl. rewrite length_take_le by lia. simpl.
    rewrite page_entries_snoc. unfold a_count. rewrite length_fmap.
    etrans; [|symmetry; apply Permutation_middle]. apply Permutation_app_head.
    rewrite <- app_assoc. simpl. symmetry. apply Permutation_middle.
  - apply lookup_ge_None in Hi. assert (i = length pages) as -> by lia.
    rewrite entries_app. simpl. by rewrite Permutation_app_comm.
Qed.

(** The version [r] once transaction [xid] deleted it. *)
Definition delete_version (xid : Z) (r : Rec) : Rec :=
  set_header r (Header_SetXmax (Header_SetDeleted (header_ r) true) xid).
Definition versions_delete (i j : nat) (xid : Z) (recs : list Rec) (r : Rec) (pages : list (list Rec)) :
    list (list Rec) :=
  <[i := <[j := delete_version xid r]> recs]> pages.

Lemma encode_delete i j xid recs r pages :
  record_wf r →
  encode_pages (versions_delete i j xid recs r pages) =
    table_delete i j xid (record_bytes <$> recs) (record_bytes r) (encode_pages pages).
Proof.
  intros Hr. unfold versions_delete, table_delete, encode_pages. rewrite list_fmap_insert. f_equal.
  rewrite list_fmap_insert. f_equal. unfold delete_mark, delete_version. by rewrite with_header_record by apply Hr.
Qed.

Section Changes.
Context `{MapOrder} `{Allocator}.
Context (db_of : Z → Z) (base : Z).

(** The contents of every page of the other tables. *)
Definition others_kept (t : Table) (w w' : Pool LogDisk) : Prop :=
  ∀ k b, table_oid_ k ≠ oid_ t → key_range db_of k → view db_of w k = Some b → view db_of w' k = Some b.

Lemma table_effect_others t w w' : table_effect db_of t w w' → others_kept t w w'.
Proof. intros He k b Hk. apply (ef_view _ _ _ _ _ He). exact Hk. Qed.

Lemma first_versions r pages : Forall (λ recs, recs ≠ []) pages → Forall (λ recs, recs ≠ []) (versions_insert r pages).
Proof.
  intros Hne. unfold versions_insert. destruct (pages !! _) as [recs|] eqn:Hi.
  - apply Forall_insert; [done|]. by destruct recs.
  - apply Forall_app. split; [done|]. by constructor.
Qed.

Lemma InsertRecord_versions fuel hist t pages w r xid cid write_log :
  scannable db_of base hist t pages w → record_wf r → schema_ok (column_list_ t) (rvalues_ r) →
  in_range 4 xid → in_range 4 cid → rsize_ r <= MAX_RECORD_SIZE →
  (length pages < fuel)%nat → Z.of_nat (S (length pages)) < NULL_PAGE_ID →
  (write_log = true → log_ready base hist xid (52 + rsize_ r)) →
  let v := stamp r xid cid in
  let rid := insert_rid (mem_len (record_bytes v)) (encode_pages pages) in
  let hist' := inserted_hist base write_log hist xid t (encode_pages pages) (record_bytes v) in
  ∃ w', Table_InsertRecord fuel r xid cid write_log (mkTS t w) =
      (Ok (rid, SetRid v rid), mkTS (with_first 0 t) w') ∧
    scannable db_of base hist' (with_first 0 t) (versions_insert v pages) w' ∧
    table_effect db_of t w w' ∧
    page_lsn_logged db_of write_log w' (mkTPid (oid_ t) (page_id_ rid)) hist'.
Proof.
  intros [Hi Ht Hne Hall] Hr Hsch Hx Hc Hsz Hfuel Hcnt Hlog v rid hist'.
  assert (rsize_ r = mem_len (record_bytes v)) as Hlen by (unfold v; by rewrite stamp_bytes_len, (rw_size _ Hr)).
  destruct (InsertRecord_run db_of base fuel t (encode_pages pages) hist w r xid cid write_log) as
    (w' & Hrun & Hpost); [done|unfold encode_pages; by rewrite length_fmap..|done|done|done|done|done|done|].
  pose proof Hpost as (Hi' & Hp' & He & Hl). exists w'. rewrite Hlen in Hrun. split; [exact Hrun|].
  split; [|split; [done|exact Hl]]. split.
  - exact Hi'.
  - rewrite encode_insert. by eapply insert_post_repr.
  - by apply first_versions.
  - unfold versions_insert. destruct (pages !! _) as [recs|] eqn:Hp.
    + apply Forall_insert; [done|]. apply Forall_app. split; [by eapply Forall_lookup_1 in Hall|].
      constructor; [|constructor]. split; [by apply stamp_wf|done].
    + apply Forall_app. split; [done|]. constructor; [|constructor]. constructor; [|constructor].
      split; [by apply stamp_wf|done].
Qed.

Lemma DeleteRecord_versions hist t pages w i j recs r xid write_log :
  scannable db_of base hist t pages w → pages !! i = Some recs → recs !! j = Some r →
  in_range 4 xid → (write_log = true → log_ready base hist xid 23) →
  let hist' := deleted_hist base write_log hist xid (table_key t i) (Z.of_nat j) in
  ∃ w', Table_DeleteRecord (mkRid (Z.of_nat i) (Z.of_nat j)) xid write_log (mkTS t w) = (Ok (), mkTS t w') ∧
    scannable db_of base hist' t (versions_delete i j xid recs r pages) w' ∧
    table_effect db_of t w w' ∧
    page_lsn_logged db_of write_log w' (table_key t i) hist'.
Proof.
  intros Hs Hi Hj Hx Hlog hist'. pose proof Hs as [Hinv [Hf Hp] Hne Hall].
  pose proof (Forall_lookup_1 _ _ _ _ Hall Hi) as Hrecs. destruct (Forall_lookup_1 _ _ _ _ Hrecs Hj) as [Hr Hsch].
  assert (encode_pages pages !! i = Some (record_bytes <$> recs)) as He
    by (unfold encode_pages; by rewrite list_lookup_fmap, Hi).
  assert (in_range 2 (Z.of_nat j)) as Hjr.
  { destruct (scan_visit db_of base hist t pages w i recs Hs Hi) as (l & w1 & _ & Hon & _).
    destruct (scan_count _ _ _ _ _ _ _ _ _ Hon) as [_ Hlt]. apply lookup_lt_Some in Hj. unfold in_range. lia. }
  destruct (DeleteRecord_run db_of base t (encode_pages pages) hist w i j (record_bytes <$> recs) (record_bytes r)
    xid write_log) as (w' & Hrun & Hi' & Hp' & Heff & Hl); [done..| |by apply record_wf_header_len|done|done|done|].
  { by rewrite list_lookup_fmap, Hj. }
  exists w'. split; [exact Hrun|]. split; [|done]. split; [exact Hi'|split| |].
  - rewrite Hf. unfold versions_delete. pose proof (lookup_lt_Some _ _ _ Hi).
    destruct pages as [|p0 rest]; [done|]. by destruct i.
  - by rewrite encode_delete.
  - apply Forall_insert; [done|]. pose proof (lookup_lt_Some _ _ _ Hj). destruct recs; [simpl in *; lia|].
    by destruct j.
  - apply Forall_insert; [done|]. apply Forall_insert; [done|]. split; [|done].
    apply set_header_wf; [done|]. destruct (rw_header _ Hr) as (?&?&?). done.
Qed.

Lemma deleted_log_ready hist t pages w xid k slot room :
  scannable db_of base (deleted_hist base true hist xid k slot) t pages w →
  log_ready base hist xid (23 + room) → log_ready base (deleted_hist base true hist xid k slot) xid room.
Proof.
  intros [[(n & Hi & _) _ _ _ _ _ _ _] _ _ _] [[prev Hat] Hroom]. unfold deleted_hist in *. split.
  - rewrite att_of_snoc. unfold att_step, delete_log. cbn. rewrite lookup_insert_eq. eauto.
  - rewrite span_app. cbn [span]. rewrite Log_GetSize_wf.
    + cbn [body_size delete_log log_body_]. log_sizes. lia.
    + pose proof (li_chain _ _ _ _ Hi) as Hc. apply chain_app in Hc as [_ Hc]. apply Hc.
Qed.

(** ** Properties *)

(** C23: inserting a record that fits adds exactly one version, stamped with the
    transaction and the command, at the place the function returns; the other
    versions keep their places and every page of the other tables its contents.
    With logging on, the log grows by the INSERT record holding the version's
    bytes, slot and offset, after a NEW_PAGE record when the table got a new
    page, and the page carries the LSN of the INSERT record. *)
Theorem insert_adds_version fuel hist t pages w r xid cid write_log :
  scannable db_of base hist t pages w → record_wf r → schema_ok (column_list_ t) (rvalues_ r) →
  in_range 4 xid → in_range 4 cid → rsize_ r <= MAX_RECORD_SIZE →
  (length pages < fuel)%nat → Z.of_nat (S (length pages)) < NULL_PAGE_ID →
  (write_log = true → log_ready base hist xid (52 + rsize_ r)) →
  let v := SetXmin (SetCid r cid) xid in
  ∃ rid hist' pages' t' w',
    Table_InsertRecord fuel r xid cid write_log (mkTS t w) = (Ok (rid, SetRid v rid), mkTS t' w') ∧
    scannable db_of base hist' t' pages' w' ∧
    entries 0 pages' ≡ₚ (rid, v) :: entries 0 pages ∧
    hist' = inserted_hist base write_log hist xid t (encode_pages pages) (record_bytes v) ∧
    page_lsn_logged db_of write_log w' (mkTPid (oid_ t) (page_id_ rid)) hist' ∧
    others_kept t w w' ∧ GetFirstPageId t' = 0 ∧ GetOid t' = GetOid t.
Proof.
  intros Hs Hr Hsch Hx Hc Hsz Hfuel Hcnt Hlog v.
  destruct (InsertRecord_versions fuel hist t pages w r xid cid write_log Hs Hr Hsch Hx Hc Hsz Hfuel Hcnt Hlog)
    as (w' & Hrun & Hs' & He & Hl).
  do 5 eexists. split; [exact Hrun|]. split; [exact Hs'|]. split; [apply versions_insert_entries|].
  split; [done|]. split; [exact Hl|]. split; [by apply table_effect_others|done].
Qed.

(** Deleting a version marks it deleted by the transaction and leaves every
    other version of the table and every page of the other tables alone; with
    logging on, the log grows by the DELETE record of that place and the page
    carries its LSN. *)
Theorem delete_marks_version hist t pages w i j recs r xid write_log :
  scannable db_of base hist t pages w → pages !! i = Some recs → recs !! j = Some r →
  in_range 4 xid → (write_log = true → log_ready base hist xid 23) →
  let rid := mkRid (Z.of_nat i) (Z.of_nat j) in
  let hist' := if write_log
    then hist ++ [mkLogRecord (base + span hist) xid (default 0 (att_of hist !! xid))
                    (DeleteLog (oid_ t) (page_id_ rid) (slot_id_ rid))]
    else hist in
  let marked := SetXmax (SetDeleted r true) xid in
  ∃ w', Table_DeleteRecord rid xid write_log (mkTS t w) = (Ok (), mkTS t w') ∧
    scannable db_of base hist' t (<[i := <[j := marked]> recs]> pages) w' ∧
    page_lsn_logged db_of write_log w' (mkTPid (oid_ t) (page_id_ rid)) hist' ∧
    others_kept t w w'.
Proof.
  intros Hs Hi Hj Hx Hlog rid hist' marked.
  destruct (DeleteRecord_versions hist t pages w i j recs r xid write_log Hs Hi Hj Hx Hlog) as
    (w' & Hrun & Hs' & He & Hl).
  exists w'. split; [exact Hrun|]. split; [exact Hs'|]. split; [exact Hl|]. by apply table_effect_others.
Qed.

(** An update is the deletion of the old version and the insertion of the
    new one by the same transaction: the scan order afterwards holds the old
    version marked deleted and the new version, and with logging on both are in
    the log, in this order. *)
Theorem update_replaces_version fuel hist t pages w i j recs old r xid cid write_log :
  scannable db_of base hist t pages w → pages !! i = Some recs → recs !! j = Some old →
  record_wf r → schema_ok (column_list_ t) (rvalues_ r) →
  in_range 4 xid → in_range 4 cid → rsize_ r <= MAX_RECORD_SIZE →
  (length pages < fuel)%nat → Z.of_nat (S (length pages)) < NULL_PAGE_ID →
  (write_log = true → log_ready base hist xid (23 + (52 + rsize_ r))) →
  let v := SetXmin (SetCid r cid) xid in
  let marked := <[i := <[j := SetXmax (SetDeleted old true) xid]> recs]> pages in
  ∃ rid hist' pages' t' w',
    UpdateRecord fuel (mkRid (Z.of_nat i) (Z.of_nat j)) xid cid r write_log (mkTS t w) =
      (Ok (rid, SetRid v rid), mkTS t' w') ∧
    scannable db_of base hist' t' pages' w' ∧
    entries 0 pages' ≡ₚ (rid, v) :: entries 0 marked ∧
    hist' = inserted_hist base write_log (deleted_hist base write_log hist xid (table_key t i) (Z.of_nat j)) xid t
              (encode_pages marked) (record_bytes v) ∧
    others_kept t w w'.
Proof.
  intros Hs Hi Hj Hr Hsch Hx Hc Hsz Hfuel Hcnt Hlog v marked.
  assert (0 <= rsize_ r) by (rewrite (rw_size _ Hr); auto).
  destruct (DeleteRecord_versions hist t pages w i j recs old xid write_log Hs Hi Hj Hx) as
    (w1 & Hrun1 & Hs1 & He1 & _); [intros Hw; eapply log_ready_less; [by apply Hlog|lia]|].
  assert (length marked = length pages) as Hlen by apply length_insert.
  destruct (InsertRecord_versions fuel _ t marked w1 r xid cid write_log Hs1 Hr Hsch Hx Hc Hsz) as
    (w' & Hrun & Hs' & He & _); [by rewrite Hlen..| |].
  { intros ->. eapply deleted_log_ready; [exact Hs1|by apply Hlog]. }
  do 5 eexists. split; [|split; [exact Hs'|split; [apply versions_insert_entries|split; [done|]]]].
  - unfold UpdateRecord. by rewrite (M_bind_step _ _ _ _ _ Hrun1).
  - apply table_effect_others. by eapply table_effect_trans.
Qed.

(** C14: calling [GetNextRecord] from the first page until it returns null
    terminates and returns, in page and slot order and each once, exactly the
    versions [CanGet] does not skip, with the values, header and rid they were
    stored with; the table and all other pages are left as they were. *)
Theorem scan_returns_visible fuel calls hist t pages w xid cid level active :
  scannable db_of base hist t pages w →
  (length (entries 0 pages) ≤ fuel)%nat → (length (entries 0 pages) < calls)%nat →
  ∃ w' rid records,
    scan_all fuel calls xid level cid active (mkScan (mkRid (GetFirstPageId t) 0) t w) =
      (Ok records, mkScan rid t w') ∧
    Forall2 (λ e r', GetValues r' = norm <$> GetValues e.2 ∧ header_ r' = header_ e.2 ∧ GetRid r' = e.1)
      (filter (λ e, CanGet e.2 xid cid level active = false) (entries 0 pages)) records ∧
    scannable db_of base hist t pages w' ∧ others_kept t w w'.
Proof.
  intros Hs Hfuel Hcalls.
  assert (scan_at pages (mkRid (GetFirstPageId t) 0) (entries 0 pages)) as Hat.
  { unfold GetFirstPageId. rewrite (proj1 (sc_table _ _ _ _ _ _ Hs)). apply entries_start, Hs. }
  destruct (scan_all_run db_of base hist t pages xid cid level active fuel calls w _ _ Hs Hat Hfuel Hcalls) as
    (w' & slot & records & He & Hs' & Hrun & Hall).
  exists w', (mkRid NULL_PAGE_ID slot), records. split; [done|]. split; [|split; [done|by apply table_effect_others]].
  eapply Forall2_impl; [exact Hall|]. intros e r' []. done.
Qed.

End Changes.

(** *** A concrete table *)

Definition ex_table : Table := Table_new 10001 3 ex_schema true false.
Definition ex_hist : list LogRecord := [mkLogRecord 0 5 NULL_LSN BeginLog].

(** Transaction 5 has begun; the table is empty. *)
Lemma ex_table_start : ∃ w, scannable ex_db_of 0 ex_hist ex_table [] w.
Proof.
  destruct ex_disk_exists as (d & Hd & Hok & Hlog & H1 & Hf).
  destruct (log_inv_init 0 d) as [Hi Hh]; try done; [by rewrite (ex_next_file d Hf)|].
  destruct (Begin_done 0 [] 0 _ 5 Hi Hh) as (l & Hrun & Hdk & Hi' & Hh'); [done..|].
  exists (mkPool l BufferPool_new ∅ 0). split; [|split; [done|]|done|done].
  - apply (@pool_new_inv _ _ (LogDisk_wal_spec 0 ex_hist)). by exists 0%nat.
  - split; try done.
    unfold key_file, disk_of, po_wal. cbn [wal_disk LogDisk_wal]. rewrite Hdk. cbn [dk].
    apply (disk_page_file ex_db_of d (ex_key 0) Storage.ex_page). apply ex_page_at; [done|by left].
Qed.

Lemma ex_log_ready : log_ready 0 ex_hist 5 75.
Proof. split; [by eexists|done]. Qed.

Lemma insert_adds_version_witness :
  ∃ w, scannable ex_db_of 0 ex_hist ex_table [] w ∧ ∃ rid hist' pages' t' w',
    Table_InsertRecord 1 ex_record 5 1 true (mkTS ex_table w) =
      (Ok (rid, SetRid (SetXmin (SetCid ex_record 1) 5) rid), mkTS t' w') ∧
    scannable ex_db_of 0 hist' t' pages' w' ∧
    entries 0 pages' ≡ₚ [(rid, SetXmin (SetCid ex_record 1) 5)].
Proof.
  destruct ex_table_start as [w Hs]. exists w. split; [exact Hs|]. destruct ex_record_wf as [Hr Hsch].
  destruct (insert_adds_version ex_db_of 0 1 ex_hist ex_table [] w ex_record 5 1 true Hs Hr Hsch
    ltac:(done) ltac:(done) ltac:(done) ltac:(simpl; lia) ltac:(done) (λ _, ex_log_ready))
    as (rid & hist' & pages' & t' & w' & H1 & H2 & H3 & _).
  exists rid, hist', pages', t', w'. split; [exact H1|]. split; [exact H2|exact H3].
Defined.

(** The table with one version, inserted by transaction 5. *)
Definition ex_version1 : Rec := stamp ex_record 5 1.
Lemma ex_table_one :
  ∃ w hist, scannable ex_db_of 0 hist (with_first 0 ex_table) [[ex_version1]] w ∧ log_ready 0 hist 5 4096.
Proof.
  destruct ex_table_start as [w Hs]. destruct ex_record_wf as [Hr Hsch].
  destruct (InsertRecord_versions ex_db_of 0 1 ex_hist ex_table [] w ex_record 5 1 true Hs Hr Hsch)
    as (w' & _ & Hs' & _); [done..|simpl; lia|done|intros _; apply ex_log_ready|].
  eexists w', _. split; [exact Hs'|]. split; [by eexists|by vm_compute].
Qed.

Lemma delete_marks_version_witness :
  ∃ w hist, scannable ex_db_of 0 hist (with_first 0 ex_table) [[ex_version1]] w ∧ ∃ w',
    Table_DeleteRecord (mkRid 0 0) 5 true (mkTS (with_first 0 ex_table) w) =
      (Ok (), mkTS (with_first 0 ex_table) w').
Proof.
  destruct ex_table_one as (w & hist & Hs & Hl). exists w, hist. split; [exact Hs|].
  destruct (delete_marks_version ex_db_of 0 hist (with_first 0 ex_table) [[ex_version1]] w 0 0 [ex_version1]
    ex_version1 5 true Hs eq_refl eq_refl ltac:(done) (λ _, log_ready_less 0 hist 5 4096 23 Hl ltac:(lia))) as (w' & H1 & _).
  exists w'. exact H1.
Defined.

Lemma update_replaces_version_witness :
  ∃ w hist, scannable ex_db_of 0 hist (with_first 0 ex_table) [[ex_version1]] w ∧ ∃ rid s',
    UpdateRecord 2 (mkRid 0 0) 5 2 ex_record true (mkTS (with_first 0 ex_table) w) =
      (Ok (rid, SetRid (SetXmin (SetCid ex_record 2) 5) rid), s').
Proof.
  destruct ex_table_one as (w & hist & Hs & Hl). exists w, hist. split; [exact Hs|].
  destruct ex_record_wf as [Hr Hsch].
  destruct (update_replaces_version ex_db_of 0 2 hist (with_first 0 ex_table) [[ex_version1]] w 0 0 [ex_version1]
    ex_version1 ex_record 5 2 true Hs eq_refl eq_refl Hr Hsch ltac:(done) ltac:(done) ltac:(done)
    ltac:(simpl; lia) ltac:(done) (λ _, log_ready_less 0 hist 5 4096 98 Hl ltac:(lia))) as (rid & h & pgs & t' & w' & H1 & _).
  exists rid, (mkTS t' w'). exact H1.
Defined.

(** Transaction 5 sees its version in a later command. *)
Lemma scan_returns_visible_witness :
  ∃ w hist, scannable ex_db_of 0 hist (with_first 0 ex_table) [[ex_version1]] w ∧ ∃ s' r',
    scan_all 1 2 5 READ_COMMITTED 2 {[5]} (mkScan (mkRid 0 0) (with_first 0 ex_table) w) = (Ok [r'], s') ∧
    GetValues r' = norm <$> ex_values ∧ GetXmin r' = 5.
Proof.
  destruct ex_table_one as (w & hist & Hs & _). exists w, hist. split; [exact Hs|].
  destruct (scan_returns_visible ex_db_of 0 1 2 hist (with_first 0 ex_table) [[ex_version1]] w 5 2
    READ_COMMITTED {[5]} Hs ltac:(simpl; lia) ltac:(simpl; lia)) as (w' & rid & records & H1 & H2 & _).
  change (entries 0 [[ex_version1]]) with [(mkRid 0 0, ex_version1)] in H2.
  rewrite filter_cons_True, filter_nil in H2 by (by vm_compute).
  inversion H2 as [|e r' es rs (Hv & Hh & _) Hrest Heq1 Heq2]. inversion Hrest. subst.
  eexists _, r'. split; [exact H1|]. split; [exact Hv|]. unfold GetXmin. by rewrite Hh.
Defined.
