(* ===== verification/Recovery.v ===== *)
(** Rollback and recovery: [Undo] and [Redo] of the records of
    [src/src/log/log_records/], and [Rollback], [Analyze], [Redo] and [Undo] of
    [src/src/log/log_manager.cpp]. They work on the buffer pool, and ask the
    catalog for the database of a table. *)
From S2P Require Import Prelude Memory Types StringUtil Disk Value Bitmap Column Record TablePage Lru LogRecord LogManager BufferPool Storage LockManager TransactionManager Table.

(** ** The interface to the catalog *)

(** [Catalog::TableExists] and [Catalog::GetDatabaseOid]; the second may read the
    system tables. *)
Class CatalogOps := {
  TableExists : Z → M (Pool LogDisk) bool;
  GetDatabaseOid : Z → M (Pool LogDisk) Z
}.

(** What recovery relies on: the tables of the current database are loaded. *)
Class CatalogSpec `{CatalogOps} (db_of : Z → Z) (loaded : Z → Prop) := {
  cat_exists : ∀ oid w, loaded oid → TableExists oid w = (Ok true, w);
  cat_db : ∀ oid w, loaded oid → GetDatabaseOid oid w = (Ok (db_of oid), w)
}.

(** ** The code *)

Section Code.
Context `{MapOrder} `{Allocator} `{CatalogOps}.

(** *** Log records *)

Definition page_of_log (oid page_id : Z) : M (Pool LogDisk) loc :=
  db_oid ← GetDatabaseOid oid; GetPage db_oid oid page_id.

Definition InsertLog_Undo (xid oid page_id slot_id : Z) : M (Pool LogDisk) unit :=
  page ← page_of_log oid page_id;
  on_page page (DeleteRecord slot_id xid).

Definition InsertLog_Redo (oid page_id slot_id page_offset record_size : Z) (record : bytes) :
    M (Pool LogDisk) unit :=
  exists_ ← TableExists oid;
  if negb exists_ then mret ()
  else
    page ← page_of_log oid page_id;
    on_page page (RedoInsertRecord slot_id record page_offset record_size).

Definition DeleteLog_Undo (oid page_id slot_id : Z) : M (Pool LogDisk) unit :=
  page ← page_of_log oid page_id;
  on_page page (UndoDeleteRecord slot_id).

Definition DeleteLog_Redo (xid oid page_id slot_id : Z) : M (Pool LogDisk) unit :=
  exists_ ← TableExists oid;
  if negb exists_ then mret ()
  else
    page ← page_of_log oid page_id;
    on_page page (DeleteRecord slot_id xid).

Definition NewPageLog_Undo (oid prev_page_id page_id : Z) : M (Pool LogDisk) unit :=
  db_oid ← GetDatabaseOid oid;
  prev_page ← GetPage db_oid oid prev_page_id;
  page ← GetPage db_oid oid page_id;
  next ← on_page page GetNextPageId;
  on_page prev_page (SetNextPageId next).

Definition NewPageLog_Redo (oid prev_page_id page_id : Z) : M (Pool LogDisk) unit :=
  exists_ ← TableExists oid;
  if negb exists_ then mret ()
  else
    db_oid ← GetDatabaseOid oid;
    if negb (prev_page_id =? NULL_PAGE_ID) then
      prev_page ← GetPage db_oid oid prev_page_id;
      page ← NewPage db_oid oid page_id;
      on_page page Init ;;
      next ← on_page prev_page GetNextPageId;
      on_page page (SetNextPageId next) ;;
      on_page prev_page (SetNextPageId page_id)
    else
      page ← GetPage db_oid oid page_id;
      on_page page Init ;;
      on_page page (SetNextPageId NULL_PAGE_ID).

(** The virtual calls; the other classes inherit the empty methods. *)
Definition Log_Undo (r : LogRecord) : M (Pool LogDisk) unit :=
  match log_body_ r with
  | InsertLog oid page_id slot_id _ _ _ => InsertLog_Undo (log_xid_ r) oid page_id slot_id
  | DeleteLog oid page_id slot_id => DeleteLog_Undo oid page_id slot_id
  | NewPageLog oid prev_page_id page_id => NewPageLog_Undo oid prev_page_id page_id
  | _ => mret ()
  end.
Definition Log_Redo (r : LogRecord) : M (Pool LogDisk) unit :=
  match log_body_ r with
  | InsertLog oid page_id slot_id page_offset record_size record =>
      InsertLog_Redo oid page_id slot_id page_offset record_size record
  | DeleteLog oid page_id slot_id => DeleteLog_Redo (log_xid_ r) oid page_id slot_id
  | NewPageLog oid prev_page_id page_id => NewPageLog_Redo oid prev_page_id page_id
  | _ => mret ()
  end.

(** *** [LogManager::Rollback] *)

(** A record is read through an array of [MAX_LOG_SIZE] bytes. *)
Definition read_log (lsn : Z) : M (Pool LogDisk) LogRecord :=
  get_log ← on_disk_ (ReadLog lsn MAX_LOG_SIZE);
  lift (LogRecord_DeserializeFrom lsn get_log).

(** The [for] loop over the buffer. *)
Definition find_log (lsn : Z) (buffer : list LogRecord) : option LogRecord :=
  snd <$> list_find (λ r, GetLSN r = lsn) buffer.

Definition does_not_end {A} : M (Pool LogDisk) A := throw (Undefined "the loop does not end").

(** A step of the [while] loop per unit of fuel; when the record is not in the
    buffer the loop starts over with the same LSN. *)
Fixpoint rollback_loop (fuel : nat) (lsn_now : Z) : M (Pool LogDisk) unit :=
  match fuel with
  | O => does_not_end
  | S fuel =>
      if lsn_now =? NULL_LSN then mret ()
      else
        w ← get;
        if flushed_lsn_ (lg (po_wal w)) <? lsn_now then
          match find_log lsn_now (log_buffer_ (lg (po_wal w))) with
          | Some it => Log_Undo it ;; rollback_loop fuel (GetPrevLSN it)
          | None => rollback_loop fuel lsn_now
          end
        else
          log_record ← read_log lsn_now;
          Log_Undo log_record ;; rollback_loop fuel (GetPrevLSN log_record)
  end.

(** [att_[xid]] inserts 0 for a transaction that is not in the table. *)
Definition att_at (xid : Z) : M (Pool LogDisk) Z :=
  w ← get;
  match att_ (lg (po_wal w)) !! xid with
  | Some lsn => mret lsn
  | None => on_wal (on_lg (λ l, set_att (<[xid := 0]> (att_ l)) l)) ;; mret 0
  end.

Definition LogManager_Rollback (fuel : nat) (xid : Z) : M (Pool LogDisk) unit :=
  last_lsn ← att_at xid; rollback_loop fuel last_lsn.

(** [LogManager::Undo]: [Rollback] leaves the table of active transactions as it
    is, so the loop over it is the one over its entries. *)
Fixpoint rollback_all (fuel : nat) (xids : list Z) : M (Pool LogDisk) unit :=
  match xids with
  | [] => mret ()
  | xid :: xids => LogManager_Rollback fuel xid ;; rollback_all fuel xids
  end.
Definition LogManager_Undo (fuel : nat) : M (Pool LogDisk) unit :=
  w ← get; rollback_all fuel (att_order (att_ (lg (po_wal w)))).*1.

(** *** [LogManager::Analyze] *)

(** The file of the checkpoint's LSN; 0 when there is none. *)
Definition read_checkpoint_lsn : M (Pool LogDisk) Z :=
  on_disk_ (d ← get; if FileExists (fs_ d) MASTER_RECORD_NAME then read_number MASTER_RECORD_NAME else mret 0).

(** [if (find(k) == end()) dpt[k] = lsn] on the copy of the table. *)
Definition dpt_first (k : TablePageid) (lsn : Z) (dpt : gmap TablePageid Z) : gmap TablePageid Z :=
  match dpt !! k with Some _ => dpt | None => <[k := lsn]> dpt end.

(** A second read of a record about a page, by the class of its type, for its
    [GetOid] and [GetPageId]. *)
Definition read_page_log (lsn : Z) (type : LogType) : M (Pool LogDisk) (option TablePageid) :=
  let reread (f : bytes → res LogRecord) : M (Pool LogDisk) (option TablePageid) :=
    get_log ← on_disk_ (ReadLog lsn MAX_LOG_SIZE);
    r ← lift (f get_log);
    mret (log_page (log_body_ r)) in
  match type with
  | INSERT => reread (λ b, InsertLog_DeserializeFrom lsn b sizeof_enum_t)
  | DELETE => reread (λ b, DeleteLog_DeserializeFrom lsn b sizeof_enum_t)
  | NEW_PAGE => reread (λ b, NewPageLog_DeserializeFrom lsn b sizeof_enum_t)
  | _ => mret None
  end.

(** The loop over the records after the checkpoint. *)
Fixpoint analyze_loop (fuel : nat) (next_lsn lsn_now : Z) (att : gmap Z Z) (dpt : gmap TablePageid Z)
    (xid_max : Z) : M (Pool LogDisk) (gmap Z Z * gmap TablePageid Z * Z) :=
  match fuel with
  | O => does_not_end
  | S fuel =>
      if lsn_now <? next_lsn then
        r ← read_log lsn_now;
        let att := if decide (GetType r = COMMIT ∨ GetType r = ROLLBACK)
                   then delete (GetXid r) att else <[GetXid r := GetLSN r]> att in
        page ← read_page_log lsn_now (GetType r);
        let dpt := match page with Some k => dpt_first k lsn_now dpt | None => dpt end in
        let xid_max := if xid_max <? GetXid r then GetXid r else xid_max in
        analyze_loop fuel next_lsn (u64 (lsn_now + Log_GetSize r)) att dpt xid_max
      else mret (att, dpt, xid_max)
  end.

(** Reading the log from the checkpoint to its end. The begin record is decoded
    from its first byte, one before its fields; only its size is used. *)
Definition read_checkpoint (checkpoint_lsn next_lsn : Z) : M (Pool LogDisk) (LogRecord * Z) :=
  begin_log ← on_disk_ (ReadLog checkpoint_lsn (u64 (next_lsn - checkpoint_lsn)));
  begin_log_record ← lift (plain_DeserializeFrom BeginLog checkpoint_lsn begin_log 0);
  let checkpoint_lsn := u64 (checkpoint_lsn + Log_GetSize begin_log_record) in
  get_log ← on_disk_ (ReadLog checkpoint_lsn (u64 (next_lsn - checkpoint_lsn)));
  log_record ← lift (EndCheckpointLog_DeserializeFrom checkpoint_lsn get_log sizeof_enum_t);
  mret (log_record, u64 (checkpoint_lsn + Log_GetSize log_record)).

(** The result is the argument of [transaction_manager_.SetNextXid]. *)
Definition Analyze (fuel : nat) : M (Pool LogDisk) Z :=
  next_lsn ← on_disk_ (d ← get; if FileExists (fs_ d) NEXT_LSN_NAME then read_number NEXT_LSN_NAME
                                else mret FIRST_LSN);
  on_wal (on_lg (set_next_lsn next_lsn)) ;;
  on_wal (on_lg (set_flushed_lsn (u64 (next_lsn - 1)))) ;;
  checkpoint_lsn ← read_checkpoint_lsn;
  '(log_record, lsn_now) ← read_checkpoint checkpoint_lsn next_lsn;
  match log_body_ log_record with
  | EndCheckpointLog checkpoint_att checkpoint_dpt =>
      '(att, dpt, xid_max) ← analyze_loop fuel next_lsn lsn_now checkpoint_att checkpoint_dpt 0;
      on_wal (on_lg (set_att att)) ;;
      on_wal (on_lg (set_dpt dpt)) ;;
      mret (u32 (xid_max + 1))
  | _ => throw (Undefined "not a checkpoint record")
  end.

(** *** [LogManager::Redo] *)

(** The page is brought in for its LSN. *)
Definition page_lsn_of (k : TablePageid) : M (Pool LogDisk) Z :=
  page ← page_of_log (table_oid_ k) (tp_page_id_ k);
  on_page page GetPageLSN.

(** The branch that reads the record from the disk. *)
Definition redo_from_disk (r : LogRecord) (lsn_now : Z) : M (Pool LogDisk) unit :=
  w ← get;
  match log_page (log_body_ r) with
  | None => mret ()
  | Some k =>
      match dpt_ (lg (po_wal w)) !! k with
      | None => mret ()
      | Some rec_lsn =>
          if GetLSN r <? rec_lsn then mret ()
          else if decide (GetType r = NEW_PAGE) then Log_Redo r
          else
            page_lsn ← page_lsn_of k;
            if lsn_now <=? page_lsn then mret () else Log_Redo r
      end
  end.

(** The branch for a record of the buffer. The pointer to a [NewPageLog] is cast
    to the wrong class and is null. *)
Definition redo_from_buffer (r : LogRecord) (lsn_now : Z) : M (Pool LogDisk) unit :=
  w ← get;
  match log_body_ r with
  | NewPageLog _ _ _ => throw (Undefined "null pointer: a NewPageLog cast to DeleteLog")
  | _ =>
      match log_page (log_body_ r) with
      | None => mret ()
      | Some k =>
          match dpt_ (lg (po_wal w)) !! k with
          | None => mret ()
          | Some rec_lsn =>
              if GetLSN r <=? rec_lsn then mret ()
              else
                page_lsn ← page_lsn_of k;
                if lsn_now <? page_lsn then mret () else Log_Redo r
          end
      end
  end.

Fixpoint redo_loop (fuel : nat) (lsn_now : Z) : M (Pool LogDisk) unit :=
  match fuel with
  | O => does_not_end
  | S fuel =>
      w ← get;
      if lsn_now <? next_lsn_ (lg (po_wal w)) then
        if flushed_lsn_ (lg (po_wal w)) <? lsn_now then
          match find_log lsn_now (log_buffer_ (lg (po_wal w))) with
          | Some it => redo_from_buffer it lsn_now ;; redo_loop fuel (u64 (lsn_now + Log_GetSize it))
          | None => redo_loop fuel lsn_now
          end
        else
          r ← read_log lsn_now;
          redo_from_disk r lsn_now ;;
          redo_loop fuel (u64 (lsn_now + Log_GetSize r))
      else mret ()
  end.

(** The smallest [rec_lsn], or [next_lsn] when none is smaller. *)
Definition min_rec_lsn (next_lsn : Z) (dpt : gmap TablePageid Z) : Z :=
  map_fold (λ _ rec_lsn min_lsn, if rec_lsn <? min_lsn then rec_lsn else min_lsn) next_lsn dpt.

Definition LogManager_Redo (fuel : nat) : M (Pool LogDisk) unit :=
  checkpoint_lsn ← read_checkpoint_lsn;
  w ← get;
  let next_lsn := next_lsn_ (lg (po_wal w)) in
  let min_lsn := min_rec_lsn next_lsn (dpt_ (lg (po_wal w))) in
  redo_loop fuel (if min_lsn =? next_lsn then checkpoint_lsn else min_lsn).

(** [LogManager::Recover], with the transaction manager. *)
Definition Recover (fuel : nat) : M (Pool LogDisk * TransactionManager) unit :=
  xid ← zoom fst (λ p s, (p, s.2)) (Analyze fuel);
  zoom snd (λ t s, (s.1, t)) (SetNextXid xid) ;;
  zoom fst (λ p s, (p, s.2)) (LogManager_Redo fuel) ;;
  zoom fst (λ p s, (p, s.2)) (LogManager_Undo fuel).

End Code.

(** ** Changes of pages *)

(** What [DeleteRecord] and [UndoDeleteRecord] do to the bytes of a record. *)
Definition mark_deleted (xid : Z) : bytes → bytes :=
  with_header (λ h, Header_SetXmax (Header_SetDeleted h true) xid).
Definition unmark : bytes → bytes :=
  with_header (λ h, Header_SetXmax (Header_SetDeleted h false) NULL_XID).

Definition set_recs (f : list bytes → list bytes) (a : APage) : APage := mkAPage (a_lsn a) (a_next a) (f (a_recs a)).
Definition set_next (next : Z) (a : APage) : APage := mkAPage (a_lsn a) next (a_recs a).

Abbreviation Pages := (gmap TablePageid APage).

(** Undoing a record. *)
Definition undo_pages (r : LogRecord) (A : Pages) : Pages :=
  match log_body_ r with
  | InsertLog oid page_id slot_id _ _ _ =>
      alter (set_recs (alter (mark_deleted (log_xid_ r)) (Z.to_nat slot_id))) (mkTPid oid page_id) A
  | DeleteLog oid page_id slot_id =>
      alter (set_recs (alter unmark (Z.to_nat slot_id))) (mkTPid oid page_id) A
  | NewPageLog oid prev_page_id page_id =>
      match A !! mkTPid oid page_id with
      | Some a => alter (set_next (a_next a)) (mkTPid oid prev_page_id) A
      | None => A
      end
  | _ => A
  end.

(** The record refers to pages and slots of [A]. *)
Definition slot_in (A : Pages) (k : TablePageid) (slot : Z) : Prop :=
  ∃ a, A !! k = Some a ∧ 0 <= slot < a_count (a_recs a).
Definition undoable (A : Pages) (r : LogRecord) : Prop :=
  match log_body_ r with
  | InsertLog oid page_id slot_id _ _ _ | DeleteLog oid page_id slot_id =>
      slot_in A (mkTPid oid page_id) slot_id
  | NewPageLog oid prev_page_id page_id =>
      is_Some (A !! mkTPid oid prev_page_id) ∧ is_Some (A !! mkTPid oid page_id)
  | _ => True
  end.

(** The same pages, with as many records. *)
Definition same_shape (A B : Pages) : Prop :=
  ∀ k, (λ a, (a_lsn a, length (a_recs a))) <$> A !! k = (λ a, (a_lsn a, length (a_recs a))) <$> B !! k.

#[export] Instance same_shape_equiv : Equivalence same_shape.
Proof. split; [done|intros A B Hs k; by rewrite Hs|intros A B C H1 H2 k; by rewrite H1, H2]. Qed.

Lemma same_shape_alter f k A :
  (∀ a, a_lsn (f a) = a_lsn a ∧ length (a_recs (f a)) = length (a_recs a)) → same_shape A (alter f k A).
Proof.
  intros Hf k'. destruct (decide (k = k')) as [->|]; [|by rewrite lookup_alter_ne].
  rewrite lookup_alter_eq. destruct (A !! k') as [a|]; [|done]. simpl. by destruct (Hf a) as [-> ->].
Qed.

Lemma undo_pages_shape r A : same_shape A (undo_pages r A).
Proof.
  unfold undo_pages. destruct (log_body_ r); try done; [..|case_match; [|done]];
    apply same_shape_alter; intros ?; simpl; by rewrite ?length_alter.
Qed.

Lemma undoable_shape A B r : same_shape A B → undoable A r → undoable B r.
Proof.
  intros Hs.
  assert (∀ k a, A !! k = Some a → ∃ b, B !! k = Some b ∧ length (a_recs b) = length (a_recs a)) as Hk.
  { intros k a Ha. specialize (Hs k). rewrite Ha in Hs. simpl in Hs.
    destruct (B !! k) as [b|]; [|done]. injection Hs. eauto. }
  assert (∀ k slot, slot_in A k slot → slot_in B k slot) as Hslot.
  { intros k slot (a & Ha & Hl). destruct (Hk _ _ Ha) as (b & Hb & He). exists b.
    split; [done|]. unfold a_count. by rewrite He. }
  unfold undoable. destruct (log_body_ r); auto.
  intros [[a Ha] [b Hb]]. split; [destruct (Hk _ _ Ha) as (?&?&_)|destruct (Hk _ _ Hb) as (?&?&_)]; eauto.
Qed.

(** ** What undoing leaves of a record *)

(** The slot a log record changed. *)
Definition log_slot (b : LogBody) : option (TablePageid * Z) :=
  match b with
  | InsertLog oid page_id slot_id _ _ _ | DeleteLog oid page_id slot_id => Some (mkTPid oid page_id, slot_id)
  | _ => None
  end.
Definition undo_bytes (r : LogRecord) : bytes → bytes :=
  match log_body_ r with InsertLog _ _ _ _ _ _ => mark_deleted (log_xid_ r) | _ => unmark end.
Definition touches (k : TablePageid) (i : nat) (r : LogRecord) : bool :=
  bool_decide (log_slot (log_body_ r) = Some (k, Z.of_nat i)).

(** The oldest change of the transaction decides: a record it inserted is
    deleted, another one is not. *)
Definition undone (rs : list LogRecord) (k : TablePageid) (i : nat) (b : bytes) : bytes :=
  match list_find (touches k i) rs with Some (_, r) => undo_bytes r b | None => b end.

Definition undo_slot (k : TablePageid) (r : LogRecord) (i : nat) (b : bytes) : bytes :=
  if touches k i r then undo_bytes r b else b.

Lemma decode_header_wf b : RECORD_HEADER_SIZE <= mem_len b → header_wf (decode_header b).
Proof.
  intros Hb. unfold decode_header. destruct (Header_DeserializeFrom_total b 0) as (h & -> & Hh); [done|lia|done].
Qed.

Lemma decode_with_header f b : header_wf (f (decode_header b)) → decode_header (with_header f b) = f (decode_header b).
Proof.
  intros Hh. unfold with_header. unfold decode_header at 1.
  rewrite (Header_DeserializeFrom_spec (f (decode_header b))); [done..|]. by apply mem_read_prefix.
Qed.

(** Of two changes of the same header the later one remains. *)
Lemma with_header_over f g b :
  RECORD_HEADER_SIZE <= mem_len b → header_wf (g (decode_header b)) →
  (∀ h, f (g h) = f h) → with_header f (with_header g b) = with_header f b.
Proof.
  intros Hb Hg Hfg. unfold with_header at 1. rewrite (decode_with_header g) by done. rewrite Hfg. unfold with_header.
  by f_equal.
Qed.

Lemma undo_bytes_over r1 r2 b :
  in_range 4 (log_xid_ r2) → RECORD_HEADER_SIZE <= mem_len b →
  undo_bytes r1 (undo_bytes r2 b) = undo_bytes r1 b.
Proof.
  intros Hx Hb. pose proof (decode_header_wf b Hb) as (? & ? & ?). unfold in_range in Hx.
  unfold undo_bytes, mark_deleted, unmark.
  destruct (log_body_ r1), (log_body_ r2); apply with_header_over; try done; by split.
Qed.

Lemma undo_bytes_len r b : RECORD_HEADER_SIZE <= mem_len b → RECORD_HEADER_SIZE <= mem_len (undo_bytes r b).
Proof. intros Hb. unfold undo_bytes, mark_deleted, unmark. destruct (log_body_ r); by rewrite with_header_len. Qed.

Lemma undone_fold rs k i b :
  Forall (λ r, in_range 4 (log_xid_ r)) rs → RECORD_HEADER_SIZE <= mem_len b →
  foldr (λ r, undo_slot k r i) b rs = undone rs k i b ∧ RECORD_HEADER_SIZE <= mem_len (undone rs k i b).
Proof.
  unfold undone. intros Hx Hb. induction Hx as [|r rs Hr Hx IH]; [done|]. cbn [foldr]. destruct IH as [-> Hl].
  unfold undo_slot. simpl. destruct (touches k i r) eqn:Ht; simpl.
  - split; [|by apply undo_bytes_len]. destruct (list_find (touches k i) rs) as [[j r']|] eqn:Hf; [|done].
    apply list_find_Some in Hf as (Hj & _). apply undo_bytes_over; [|done].
    by apply (proj1 (Forall_lookup _ _) Hx j).
  - destruct (list_find (touches k i) rs) as [[j r']|]; done.
Qed.

(** One step, seen from a page. *)
Lemma undo_pages_lookup r A k a :
  undoable A r → A !! k = Some a →
  ∃ a', undo_pages r A !! k = Some a' ∧ a_lsn a' = a_lsn a ∧ a_recs a' = imap (undo_slot k r) (a_recs a).
Proof.
  intros Hu Ha. unfold undoable, undo_pages, undo_slot, touches, undo_bytes in *.
  assert (∀ l : list bytes, imap (λ _ b, b) l = l) as Hid by (intros l; apply imap_const || (induction l; simpl; by f_equal)).
  assert (∀ (x : TablePageid * Z) (f : bytes → bytes),
    imap (λ (i : nat) b, if bool_decide (None = Some (k, Z.of_nat i)) then f b else b) (a_recs a) = a_recs a) as Hnone.
  { intros _ f. rewrite <- (Hid (a_recs a)) at 2. apply imap_ext. done. }
  assert (∀ k' slot f, slot_in A k' slot → ∃ a',
    alter (set_recs (alter f (Z.to_nat slot))) k' A !! k = Some a' ∧ a_lsn a' = a_lsn a ∧
    a_recs a' = imap (λ i b, if bool_decide (Some (k', slot) = Some (k, Z.of_nat i)) then f b else b) (a_recs a)) as Hslot.
  { intros k' slot f (a0 & Ha0 & Hs). destruct (decide (k' = k)) as [->|Hne].
    - rewrite lookup_alter_eq, Ha. eexists. split; [done|]. split; [done|]. cbn [set_recs a_recs].
      apply list_eq. intros j. rewrite list_lookup_imap. destruct (decide (j = Z.to_nat slot)) as [->|Hj].
      + rewrite list_lookup_alter_eq. destruct (a_recs a !! Z.to_nat slot); [|done]. simpl.
        rewrite bool_decide_eq_true_2; [done|]. by rewrite Z2Nat.id by lia.
      + rewrite list_lookup_alter_ne by done. destruct (a_recs a !! j); [|done]. simpl.
        rewrite bool_decide_eq_false_2; [done|]. intros [= ->]. lia.
    - rewrite lookup_alter_ne by done. exists a. split; [done|]. split; [done|].
      rewrite <- (Hid (a_recs a)) at 1. apply imap_ext. intros j b _. rewrite bool_decide_eq_false_2; [done|]. congruence. }
  destruct (log_body_ r) as [| | |oid pid slot po rs rec|oid pid slot|oid prev pid| |]; cbn [log_slot];
    try (exists a; split; [done|]; split; [done|]; symmetry; by apply (Hnone (k, 0)));
    try (by apply Hslot).
  destruct Hu as [_ [a2 ->]]. destruct (decide (mkTPid oid prev = k)) as [->|Hne].
  - rewrite lookup_alter_eq, Ha. eexists. split; [done|]. split; [done|]. symmetry. by apply (Hnone (k, 0)).
  - rewrite lookup_alter_ne by done. exists a. split; [done|]. split; [done|]. symmetry. by apply (Hnone (k, 0)).
Qed.

Lemma undo_all_lookup rs : ∀ A k a,
  Forall (undoable A) rs → A !! k = Some a →
  ∃ a', foldr undo_pages A rs !! k = Some a' ∧ a_lsn a' = a_lsn a ∧
    a_recs a' = imap (λ i b, foldr (λ r, undo_slot k r i) b rs) (a_recs a) ∧ same_shape A (foldr undo_pages A rs).
Proof.
  induction rs as [|r rs IH]; intros A k a Hu Ha; simpl.
  { exists a. split; [done|]. split; [done|]. split; [|done].
    apply list_eq. intros j. rewrite list_lookup_imap. by destruct (a_recs a !! j). }
  apply Forall_cons in Hu as [Hr Hu]. destruct (IH A k a Hu Ha) as (a1 & H1 & Hl1 & Hr1 & Hs).
  destruct (undo_pages_lookup r _ k a1 (undoable_shape _ _ _ Hs Hr) H1) as (a2 & H2 & Hl2 & Hr2).
  exists a2. split; [done|]. split; [congruence|]. split.
  - rewrite Hr2, Hr1. apply list_eq. intros j. rewrite !list_lookup_imap. by destruct (a_recs a !! j).
  - etransitivity; [exact Hs|]. apply undo_pages_shape.
Qed.

(** ** The records of a transaction *)

(** The records of [xid] since its BEGIN, oldest first. *)
Definition own_step (xid : Z) (acc : list LogRecord) (r : LogRecord) : list LogRecord :=
  if decide (GetXid r = xid) then
    match log_body_ r with
    | BeginLog => [r]
    | CommitLog | RollbackLog => []
    | InsertLog _ _ _ _ _ _ | DeleteLog _ _ _ | NewPageLog _ _ _ => acc ++ [r]
    | BeginCheckpointLog | EndCheckpointLog _ _ => acc
    end
  else acc.
Definition own (hist : list LogRecord) (xid : Z) : list LogRecord := foldl (own_step xid) [] hist.

(** Following [GetPrevLSN] from [lsn] to the end of the chain. *)
Inductive trail (hist : list LogRecord) : Z → list LogRecord → Prop :=
| trail_end : trail hist NULL_LSN []
| trail_step r rs :
    r ∈ hist → GetLSN r ≠ NULL_LSN → trail hist (GetPrevLSN r) rs → trail hist (GetLSN r) (r :: rs).

Lemma trail_app hist r lsn rs : trail hist lsn rs → trail (hist ++ [r]) lsn rs.
Proof. induction 1; constructor; auto. apply elem_of_app; by left. Qed.

Lemma prev_chain_snoc_inv m hist r :
  prev_chain m (hist ++ [r]) → prev_chain m hist ∧ prev_ok (foldl att_step m hist) r.
Proof. revert m. induction hist as [|r' hist IH]; simpl; intros m; [naive_solver|]. intros [? ?%IH]. naive_solver. Qed.

(** The chain of an active transaction is its own records, latest first. *)
Lemma own_trail hist xid :
  xid ≠ DDL_XID → prev_chain ∅ hist → Forall (λ r, GetLSN r ≠ NULL_LSN) hist →
  match att_of hist !! xid with
  | Some lsn => trail hist lsn (reverse (own hist xid))
  | None => own hist xid = []
  end.
Proof.
  intros Hx. induction hist as [|r hist IH] using rev_ind; [done|].
  intros [Hpc Hok]%prev_chain_snoc_inv [Hl Hr]%Forall_app. rewrite Forall_singleton in Hr. specialize (IH Hpc Hl).
  fold (att_of hist) in Hok. rewrite att_of_snoc. unfold own. rewrite foldl_app. cbn [foldl]. fold (own hist xid).
  assert (∀ acc, trail (hist ++ [r]) (GetPrevLSN r) (reverse acc) →
    trail (hist ++ [r]) (GetLSN r) (reverse (acc ++ [r]))) as Hadd.
  { intros acc Ht. rewrite reverse_snoc. constructor; [apply elem_of_app; right; by left|done|done]. }
  assert (match att_of hist !! xid with
    | Some lsn => trail (hist ++ [r]) lsn (reverse (own hist xid)) | None => own hist xid = [] end) as IH'.
  { destruct (att_of hist !! xid); [by apply trail_app|done]. }
  unfold own_step, att_step, prev_ok in *. destruct (decide (GetXid r = xid)) as [He|Hne].
  - rewrite He in Hok |- *. destruct (log_body_ r); try (by rewrite lookup_delete_eq); try done.
    + rewrite lookup_insert_eq. destruct Hok as [_ Hp]. apply (Hadd []). rewrite Hp. constructor.
    + rewrite lookup_insert_eq. rewrite Hok in IH'. by apply Hadd.
    + rewrite lookup_insert_eq. rewrite Hok in IH'. by apply Hadd.
    + destruct (Z.eqb_spec xid DDL_XID); [done|]. rewrite lookup_insert_eq. destruct Hok as [?|Hok]; [done|].
      rewrite Hok in IH'. by apply Hadd.
  - destruct (log_body_ r); rewrite ?lookup_insert_ne, ?lookup_delete_ne by done; try done.
    destruct (GetXid r =? DDL_XID); by rewrite ?lookup_insert_ne by done.
Qed.

Lemma own_elem hist xid r : r ∈ own hist xid → r ∈ hist ∧ GetXid r = xid.
Proof.
  unfold own. induction hist as [|r' hist IH] using rev_ind; simpl; [by intros ?%elem_of_nil|].
  rewrite foldl_app. cbn [foldl]. set (acc := foldl (own_step xid) [] hist) in *. unfold own_step. intros Hr.
  assert (r ∈ acc → r ∈ hist ++ [r'] ∧ GetXid r = xid) as Hold
    by (intros [? ?]%IH; split; [apply elem_of_app; by left|done]).
  destruct (decide (GetXid r' = xid)); [|by apply Hold].
  destruct (log_body_ r'); try (by apply Hold); try (by apply elem_of_nil in Hr);
    try apply elem_of_app in Hr as [Hr|Hr]; try (by apply Hold);
    apply list_elem_of_singleton in Hr as ->; (split; [apply elem_of_app; right; by left|done]).
Qed.

(** ** The flushed LSN *)

(** [flushed_lsn_] is not the value it has in a new database before the first
    flush. *)
Definition log_begun (l : LogDisk) : Prop := flushed_lsn_ (lg l) ≠ NULL_LSN.

Lemma flush_loop_flushed `{MapOrder} lsn : ∀ rest kept m s l,
  flushed_lsn_ (lg (flush_loop lsn kept rest m s l).2) = flushed_lsn_ (lg l).
Proof.
  induction rest as [|r rest IH]; intros kept m s l; [done|]. cbn [flush_loop].
  destruct (negb (lsn =? NULL_LSN) && (lsn <? GetLSN r)); [apply IH|].
  destruct (LogRecord_SerializeTo r _) as [[b o]|]; [|done]. rewrite (lift_step _ (b, o)) by done.
  unfold on_dk, zoom. unfold mbind at 1, M_bind at 1. cbv beta.
  destruct (WriteLog _ _ _ _) as [[?|?] d']; [|done]. unfold on_lg. rewrite modify_step. by rewrite IH.
Qed.

Lemma flush_page_begun `{MapOrder} oid page_id lsn l :
  log_begun l → log_begun (LogManager_FlushPage oid page_id lsn l).2.
Proof.
  intros Hl. unfold LogManager_FlushPage.
  assert (log_begun (Flush_upto lsn l).2) as Hf.
  { unfold Flush_upto. unfold gets at 1. rewrite (M_bind_step _ _ l l (log_buffer_ (lg l))) by done.
    unfold mbind at 1, M_bind at 1. cbv beta.
    pose proof (flush_loop_flushed lsn (log_buffer_ (lg l)) [] NULL_LSN 0 l) as Hloop.
    destruct (flush_loop lsn [] (log_buffer_ (lg l)) NULL_LSN 0 l) as [[[max_lsn size]|x] l1];
      cbn [snd] in Hloop; unfold log_begun in Hl |- *; rewrite <- Hloop in Hl; [|exact Hl].
    rewrite get_step. destruct (Z.eqb_spec max_lsn NULL_LSN) as [|Hne]; [exact Hl|].
    cbn [negb andb]. case_match; [|exact Hl].
    unfold on_lg. rewrite modify_step. unfold mbind at 1, M_bind at 1. cbv beta.
    assert (∀ (A : Type) (m : M Disk A) l0, lg (on_dk m l0).2 = lg l0) as Hdk
      by (intros A m l0; unfold on_dk, zoom; by destruct (m _)).
    set (l2 := mkLogDisk _ _).
    destruct (FileExists (fs_ (dk l1)) NEXT_LSN_NAME).
    - pose proof (Hdk _ (read_number NEXT_LSN_NAME) l2) as Hr.
      destruct (on_dk (read_number NEXT_LSN_NAME) l2) as [[next|x] l3]; cbn [snd] in Hr |- *; [|by rewrite Hr].
      cbv zeta. destruct (next <? _); [rewrite Hdk|]; cbn [snd mret M_ret]; by rewrite Hr.
    - cbn [mret M_ret]. cbv zeta. destruct (FIRST_LSN <? _); [by rewrite Hdk|exact Hne]. }
  unfold mbind, M_bind. destruct (Flush_upto lsn l) as [[?|?] l1]; exact Hf.
Qed.

(** ** Undoing a record *)

Section Spec.
Context `{MapOrder} `{Allocator} `{Hcat : CatalogSpec db_of loaded}.
Context (base : Z).

Local Notation inv := (inv db_of base).
Local Notation here := (here db_of base).
Local Notation page_is := (page_is db_of).
Local Notation effect := (effect db_of).

Definition rec_long (b : bytes) : Prop := RECORD_HEADER_SIZE <= mem_len b.

(** The pages of [A] are those of the pool, their records long enough to hold a
    header. *)
Definition holds (w : Pool LogDisk) (A : Pages) : Prop :=
  ∀ k a, A !! k = Some a →
    key_range db_of k ∧ loaded (table_oid_ k) ∧ page_is w k a ∧ Forall rec_long (a_recs a).

Lemma holds_effect (F : TablePageid → Prop) w w' A :
  holds w A → effect (λ _, False) F w w' → holds w' A.
Proof.
  intros Hh He k a Ha. destruct (Hh k a Ha) as (Hk & Hl & (b & Hb & Hp) & Hr).
  split; [done|]. split; [done|]. split; [|done].
  exists b. split; [|done]. apply (ef_view _ _ _ _ _ He); auto.
Qed.

(** The catalog and the buffer pool give the page of a record. *)
Lemma page_of_log_spec hist w A k a :
  inv hist None w → holds w A → A !! k = Some a →
  ∃ l w', page_of_log (table_oid_ k) (tp_page_id_ k) w = (Ok l, w') ∧
    here hist w' k l a ∧ holds w' A ∧ effect (λ _, False) (λ k', k' = k) w w' ∧
    (log_begun (po_wal w) → log_begun (po_wal w')) ∧
    (room_for db_of w k → lg (po_wal w') = lg (po_wal w)).
Proof using All.
  intros Hi Hh Ha. destruct (Hh k a Ha) as (Hk & Hl & Hp & _).
  destruct (here_get db_of base hist w k a Hi Hk Hp) as (l & w' & Hrun & Hhere & He).
  exists l, w'. split; [|split; [done|split; [by eapply holds_effect|split; [done|split]]]].
  - unfold page_of_log. by rewrite (M_bind_step _ _ _ _ _ (cat_db (table_oid_ k) w Hl)).
  - intros Hb. pose proof (keeps_GetPage log_begun (λ d l, id) (λ oid pid lsn l, flush_page_begun oid pid lsn l)
      (db_of (table_oid_ k)) (table_oid_ k) (tp_page_id_ k) w Hb) as Hkeep. by rewrite Hrun in Hkeep.
  - intros Hroom. destruct (@GetPage_room _ _ (LogDisk_wal_spec base hist) db_of k w Hroom) as [d Hd].
    rewrite Hrun in Hd. cbn [snd] in Hd. by rewrite Hd.
Qed.

(** An update of that page. *)
Lemma holds_update hist w w' A k l f a :
  here hist w' k l (f a) → effect (λ k', k' = k) (λ _, False) w w' → holds w A → A !! k = Some a →
  Forall rec_long (a_recs (f a)) → holds w' (alter f k A).
Proof.
  intros Hh He Hw Ha Hl k' a'. destruct (decide (k = k')) as [<-|Hne].
  - rewrite lookup_alter_eq, Ha. intros [= <-]. destruct (Hw k a Ha) as (? & ? & _).
    do 2 (split; [done|]). split; [|done]. by eapply here_view.
  - rewrite lookup_alter_ne by done. intros Ha'. destruct (Hw k' a' Ha') as (Hk & ? & (b & Hb & Hp) & ?).
    split; [done|]. split; [done|]. split; [|done]. exists b. split; [|done].
    apply (ef_view _ _ _ _ _ He); [congruence|done|done].
Qed.

(** A change of the header of a record. *)
Lemma header_step hist w A k slot f (m : M Page unit) :
  inv hist None w → holds w A → slot_in A k slot → m = update_header slot f →
  ∃ w', (page ← page_of_log (table_oid_ k) (tp_page_id_ k); on_page page m) w = (Ok (), w') ∧
    inv hist None w' ∧ holds w' (alter (set_recs (alter (with_header f) (Z.to_nat slot))) k A) ∧
    log_size (disk_of w) <= log_size (disk_of w') ∧ (log_begun (po_wal w) → log_begun (po_wal w')).
Proof using All.
  intros Hi Hw (a & Ha & Hs) ->.
  destruct (page_of_log_spec hist w A k a Hi Hw Ha) as (l & w1 & Hrun & Hh & Hw1 & He1 & Hb1 & _).
  destruct (lookup_lt_is_Some_2 (a_recs a) (Z.to_nat slot)) as [b Hb]; [unfold a_count in Hs; lia|].
  destruct (Hw1 k a Ha) as (_ & _ & _ & Hlong).
  pose proof (proj1 (Forall_lookup _ _) Hlong _ _ Hb) as Hlb.
  set (f' := set_recs (alter (with_header f) (Z.to_nat slot))).
  assert (f' a = mkAPage (a_lsn a) (a_next a) (<[Z.to_nat slot := with_header f b]> (a_recs a))) as Hf.
  { unfold f', set_recs. f_equal. apply list_eq. intros j. destruct (decide (j = Z.to_nat slot)) as [->|].
    - rewrite list_lookup_alter_eq, Hb, list_lookup_insert_eq; [done|]. by eapply lookup_lt_Some.
    - by rewrite list_lookup_alter_ne, list_lookup_insert_ne by done. }
  destruct (here_update db_of base hist w1 k l a (update_header slot f) () (f' a) Hh) as (w2 & Hupd & Hh2 & He2 & Hwal).
  { intros p Hp. destruct (update_header_repr p a (Z.to_nat slot) b f Hp Hb Hlb) as (p' & Hu & Hd & Hp').
    rewrite Z2Nat.id in Hu by lia. exists p'. by rewrite Hf. }
  exists w2. split; [by rewrite (M_bind_step _ _ _ _ _ Hrun)|]. split; [apply Hh2|]. split.
  - eapply (holds_update hist w1 w2 A k l); [done..|]. rewrite Hf. cbn [a_recs].
    apply Forall_insert; [done|]. unfold rec_long. by rewrite with_header_len.
  - pose proof (ef_log _ _ _ _ _ He1). pose proof (ef_log _ _ _ _ _ He2). rewrite Hwal. split; [lia|done].
Qed.

Lemma page_next_range p a : page_repr p a → 0 <= a_next a < 2 ^ 32.
Proof. intros Hp. by pose proof (get_uint_range _ _ _ _ (pr_next _ _ Hp)). Qed.

Lemma new_page_step hist w A oid prev_page_id page_id :
  inv hist None w → holds w A →
  is_Some (A !! mkTPid oid prev_page_id) → is_Some (A !! mkTPid oid page_id) →
  ∃ w', NewPageLog_Undo oid prev_page_id page_id w = (Ok (), w') ∧ inv hist None w' ∧
    holds w' (match A !! mkTPid oid page_id with
              | Some a => alter (set_next (a_next a)) (mkTPid oid prev_page_id) A | None => A end) ∧
    log_size (disk_of w) <= log_size (disk_of w') ∧ (log_begun (po_wal w) → log_begun (po_wal w')).
Proof using All.
  intros Hi Hw [ap Hap] [a Ha]. rewrite Ha. set (kp := mkTPid oid prev_page_id) in *. set (k := mkTPid oid page_id) in *.
  destruct (Hw kp ap Hap) as (Hkp & Hl & Hpp & _).
  destruct (here_get_recent db_of base hist w kp ap Hi Hkp Hpp) as (l1 & w1 & Hrun1 & Hh1 & He1 & Hrec & _).
  pose proof (holds_effect _ _ _ _ Hw He1) as Hw1. destruct (Hw1 k a Ha) as (Hk & _ & Hpk & _).
  destruct (here_get_recent db_of base hist w1 k a (he_inv _ _ _ _ _ _ _ Hh1) Hk Hpk) as
    (l2 & w2 & Hrun2 & Hh2 & He2 & _ & Hstay).
  specialize (Hstay kp l1 ap Hh1 Hrec). pose proof (holds_effect _ _ _ _ Hw1 He2) as Hw2.
  pose proof (here_read db_of base _ _ _ _ _ GetNextPageId _ Hh2 (λ p Hp, GetNextPageId_repr p a Hp)) as Hnext.
  assert (0 <= a_next a < 2 ^ 32) as Hrange.
  { destruct Hh2 as [_ _ (p & _ & Hp)]. by apply (page_next_range p). }
  destruct (here_update db_of base hist w2 kp l1 ap (SetNextPageId (a_next a)) () (set_next (a_next a) ap) Hstay)
    as (w3 & Hset & Hh3 & He3 & Hwal).
  { intros p Hp. destruct (SetNextPageId_repr p ap (a_next a) Hp Hrange) as (p' & ? & ? & ?). by exists p'. }
  exists w3. split; [|split; [apply Hh3|split]].
  - unfold NewPageLog_Undo. rewrite (M_bind_step _ _ _ _ _ (cat_db (loaded := loaded) oid w Hl)).
    rewrite (M_bind_step _ _ _ _ _ Hrun1), (M_bind_step _ _ _ _ _ Hrun2), (M_bind_step _ _ _ _ _ Hnext).
    exact Hset.
  - eapply (holds_update hist w2 w3 A kp l1 (set_next (a_next a)) ap); [done..|]. by destruct (Hw2 kp ap Hap) as (_ & _ & _ & ?).
  - pose proof (ef_log _ _ _ _ _ He1). pose proof (ef_log _ _ _ _ _ He2). pose proof (ef_log _ _ _ _ _ He3).
    split; [lia|]. intros Hb. rewrite Hwal.
    pose proof (λ oid pid w, keeps_GetPage log_begun (λ d l, id) (λ o p lsn l, flush_page_begun o p lsn l)
      (db_of oid) oid pid w) as Hkeep.
    pose proof (Hkeep (table_oid_ kp) (tp_page_id_ kp) w Hb) as Hb1. rewrite Hrun1 in Hb1.
    pose proof (Hkeep (table_oid_ k) (tp_page_id_ k) w1 Hb1) as Hb2. by rewrite Hrun2 in Hb2.
Qed.

(** Undoing one record of the log. *)
Lemma undo_step hist w A r :
  inv hist None w → holds w A → undoable A r →
  ∃ w', Log_Undo r w = (Ok (), w') ∧ inv hist None w' ∧ holds w' (undo_pages r A) ∧
    log_size (disk_of w) <= log_size (disk_of w') ∧ (log_begun (po_wal w) → log_begun (po_wal w')).
Proof using All.
  intros Hi Hw Hu. unfold Log_Undo, undo_pages, undoable in *.
  destruct (log_body_ r) as [| | |oid pid slot po rs rec|oid pid slot|oid prev pid| |];
    try (exists w; split; [done|]; split; [done|]; split; [done|split; [lia|done]]).
  - by apply (header_step hist w A (mkTPid oid pid) slot
      (λ h, Header_SetXmax (Header_SetDeleted h true) (log_xid_ r)) _ Hi Hw Hu).
  - by apply (header_step hist w A (mkTPid oid pid) slot
      (λ h, Header_SetXmax (Header_SetDeleted h false) NULL_XID) _ Hi Hw Hu).
  - destruct Hu. by apply new_page_step.
Qed.

(** ** Reading the records of a transaction *)

Lemma flushed_not_null hist n l : 0 < base → log_inv base hist n l → flushed_lsn_ (lg l) ≠ NULL_LSN.
Proof.
  intros Hb Hi. pose proof (li_flushed _ _ _ _ Hi) as Hf. rewrite NULL_LSN_val.
  pose proof (li_limit _ _ _ _ Hi) as Hlim. pose proof (li_chain _ _ _ _ Hi) as Hc. pose proof (span_nonneg _ _ Hc).
  unfold LOG_LIMIT in Hlim. assert (0 < LOG_SEGMENT_SIZE) by done.
  destruct (last (take n hist)) as [r|] eqn:Hl; [|rewrite Hf, u64_small; lia].
  rewrite <- (take_drop n hist), span_app in Hlim. rewrite <- (take_drop n hist), chain_app in Hc.
  pose proof (span_nonneg _ _ (proj2 Hc)). lia.
Qed.

Lemma chain_same_lsn (b : Z) recs r1 r2 : chain b recs → r1 ∈ recs → r2 ∈ recs → GetLSN r1 = GetLSN r2 → r1 = r2.
Proof.
  revert b. induction recs as [|r recs IH]; intros b; simpl; [by intros _ ?%elem_of_nil|].
  intros (Hl & Hw & _ & Hc). apply log_size_pos in Hw. assert (0 < LOG_HEADER_SIZE) by done.
  assert (∀ r', r' ∈ recs → GetLSN r' ≠ GetLSN r) as Hne.
  { intros r' Hr'. destruct (chain_lsn _ _ _ Hc Hr') as (? & _). lia. }
  intros [->|G1]%elem_of_cons [->|G2]%elem_of_cons He; [done|..].
  - by destruct (Hne r2 G2).
  - by destruct (Hne r1 G1).
  - by apply (IH (b + Log_GetSize r)).
Qed.

(** A record is in the buffer when its LSN is above the flushed one, and on the
    disk otherwise. *)
Lemma locate_log hist n l r :
  log_begun l → log_inv base hist n l → r ∈ hist →
  if flushed_lsn_ (lg l) <? GetLSN r then find_log (GetLSN r) (log_buffer_ (lg l)) = Some r else r ∈ take n hist.
Proof.
  intros Hb Hi Hr. pose proof (li_chain _ _ _ _ Hi) as Hc.
  pose proof Hc as Hsplit. rewrite <- (take_drop n hist), chain_app in Hsplit. destruct Hsplit as [Ht Hd].
  destruct (Z.ltb_spec (flushed_lsn_ (lg l)) (GetLSN r)) as [Hlt|Hge].
  - assert (r ∈ drop n hist) as Hin.
    { rewrite <- (take_drop n hist) in Hr. apply elem_of_app in Hr as [Hr|]; [exfalso|done].
      pose proof (li_flushed _ _ _ _ Hi) as Hf. destruct (last (take n hist)) as [r'|] eqn:Hl.
      - apply last_Some in Hl as [pre Hpre]. rewrite Hpre in Hr, Ht.
        apply chain_app in Ht as [Hp (Hl' & _)]. apply elem_of_app in Hr as [Hr|Hr%list_elem_of_singleton]; [|subst; lia].
        destruct (chain_lsn _ _ _ Hp Hr) as (? & ? & Hw). apply log_size_pos in Hw. assert (0 < LOG_HEADER_SIZE) by done. lia.
      - apply last_None in Hl. rewrite Hl in Hr. by apply elem_of_nil in Hr. }
    unfold find_log. rewrite (li_buffer _ _ _ _ Hi).
    destruct (list_find (λ x, GetLSN x = GetLSN r) (drop n hist)) as [[j r']|] eqn:Hf; simpl.
    + apply list_find_Some in Hf as (Hj & He & _). f_equal. apply (chain_same_lsn _ _ _ _ Hd); [|done|done].
      by eapply list_elem_of_lookup_2.
    + apply list_find_None in Hf. by destruct (proj1 (Forall_forall _ _) Hf r Hin).
  - rewrite <- (take_drop n hist) in Hr. apply elem_of_app in Hr as [|Hr]; [done|exfalso].
    destruct (chain_lsn _ _ _ Hd Hr) as (? & _).
    destruct (flushed_below base hist n l Hi) as [Hn|]; [by destruct (Hb Hn)|lia].
Qed.

(** The fixed-length read finds a stored record when the file reaches far enough. *)
Lemma read_stored_bytes hist n w r count :
  log_inv base hist n (po_wal w) → r ∈ take n hist → Log_GetSize r <= count < 2 ^ 32 →
  GetLSN r + count <= log_size (disk_of w) →
  ∃ data, on_disk_ (ReadLog (GetLSN r) count) w = (Ok data, w) ∧ log_wf r ∧ at_off data 0 (log_bytes r) ∧
    mem_len data = count.
Proof.
  intros Hi Hin Hs Hroom. destruct (li_stored _ _ _ _ Hi r Hin) as (G1 & G2 & G3).
  assert (r ∈ hist) as Hr by (rewrite <- (take_drop n hist); set_solver).
  destruct (chain_lsn _ _ _ (li_chain _ _ _ _ Hi) Hr) as (G4 & G5 & Hw).
  pose proof (log_size_pos r Hw) as Hp. pose proof (li_limit _ _ _ _ Hi) as Hl.
  assert (0 < LOG_HEADER_SIZE) by done. unfold LOG_LIMIT in Hl. assert (0 < LOG_SEGMENT_SIZE) by done.
  unfold log_size, disk_of in Hroom. cbn [wal_disk LogDisk_wal] in Hroom.
  set (data := file_read (Z.to_nat (GetLSN r)) (Z.to_nat count) (log_data (dk (po_wal w)))).
  assert (length data = Z.to_nat count) as Hld by (apply file_read_full; right; unfold mem_len in Hroom; lia).
  exists data. split; [|split; [done|split; [|unfold mem_len; lia]]].
  - assert (set_wal (wal_set_disk (disk_of w) (po_wal w)) w = w) as Hw' by (by destruct w as [[]]).
    assert (ReadLog (GetLSN r) count (disk_of w) = (Ok data, disk_of w)) as Hrd
      by (apply ReadLog_ok; [apply Hi|lia|lia|cbn; lia]).
    pose proof (on_disk_run _ _ _ w Hrd) as Hrun. by rewrite Hw' in Hrun.
  - unfold at_off. apply mem_read_Ok.
    pose proof (log_bytes_len r Hw) as Hlen. rewrite Hlen.
    split; [done|]. split; [lia|]. split; [unfold mem_len; lia|]. rewrite drop_0, <- G3. unfold data, file_read.
    rewrite take_take. f_equal. lia.
Qed.

Lemma read_MAX_stored hist n w r :
  log_inv base hist n (po_wal w) → r ∈ take n hist → Log_GetSize r <= MAX_LOG_SIZE →
  base + span hist + MAX_LOG_SIZE <= log_size (disk_of w) →
  ∃ data, on_disk_ (ReadLog (GetLSN r) MAX_LOG_SIZE) w = (Ok data, w) ∧ log_wf r ∧ at_off data 0 (log_bytes r).
Proof.
  intros Hi Hin Hs Hroom. assert (r ∈ hist) as Hr by (rewrite <- (take_drop n hist); set_solver).
  destruct (chain_lsn _ _ _ (li_chain _ _ _ _ Hi) Hr) as (_ & Hle & Hw). apply log_size_pos in Hw.
  assert (0 < LOG_HEADER_SIZE) by done.
  destruct (read_stored_bytes hist n w r MAX_LOG_SIZE Hi Hin) as (data & ? & ? & ? & _); [done|lia|].
  by exists data.
Qed.

Lemma read_log_stored hist n w r :
  log_inv base hist n (po_wal w) → r ∈ take n hist → Log_GetSize r <= MAX_LOG_SIZE →
  base + span hist + MAX_LOG_SIZE <= log_size (disk_of w) → read_log (GetLSN r) w = (Ok r, w).
Proof.
  intros Hi Hin Hs Hroom. destruct (read_MAX_stored hist n w r Hi Hin Hs Hroom) as (data & Hrd & Hw & Hat).
  unfold read_log. rewrite (M_bind_step _ _ _ _ _ Hrd).
  unfold lift. f_equal. by apply (LogRecord_DeserializeFrom_spec r).
Qed.

(** The second read of [Analyze]. *)
Lemma read_page_log_stored hist n w r :
  log_inv base hist n (po_wal w) → r ∈ take n hist → Log_GetSize r <= MAX_LOG_SIZE →
  base + span hist + MAX_LOG_SIZE <= log_size (disk_of w) →
  read_page_log (GetLSN r) (GetType r) w = (Ok (log_page (log_body_ r)), w).
Proof.
  intros Hi Hin Hs Hroom. destruct (read_MAX_stored hist n w r Hi Hin Hs Hroom) as (data & Hrd & Hw & Hat).
  pose proof (DeserializeFrom_class r data Hw Hat) as Hd. unfold read_page_log, GetType, GetLSN in *.
  destruct (log_body_ r) eqn:Hb; cbn [body_type log_page]; try done;
    rewrite (M_bind_step _ _ _ _ _ Hrd), (lift_step _ r) by exact Hd; by rewrite Hb.
Qed.

Lemma rollback_trail hist : ∀ rs lsn fuel w A,
  trail hist lsn rs → inv hist None w → holds w A →
  Forall (undoable A) rs → Forall (λ r, Log_GetSize r <= MAX_LOG_SIZE) rs →
  log_begun (po_wal w) → base + span hist + MAX_LOG_SIZE <= log_size (disk_of w) → (length rs < fuel)%nat →
  ∃ w', rollback_loop fuel lsn w = (Ok (), w') ∧ inv hist None w' ∧
    holds w' (foldl (λ A r, undo_pages r A) A rs) ∧ log_size (disk_of w) <= log_size (disk_of w') ∧
    log_begun (po_wal w').
Proof using All.
  induction rs as [|r rs IH]; intros lsn fuel w A Ht Hi Hw Hu Hs Hb Hroom Hf;
    (destruct fuel as [|fuel]; [simpl in Hf; lia|]); inversion Ht as [|r' rs' Hr Hne Ht']; subst.
  { exists w. split; [done|]. split; [done|]. split; [done|split; [lia|done]]. }
  apply Forall_cons in Hu as [Hu Hus], Hs as [Hs Hss].
  destruct (undo_step hist w A r Hi Hw Hu) as (w1 & Hundo & Hi1 & Hw1 & Hsz & Hb1).
  destruct (IH (GetPrevLSN r) fuel w1 (undo_pages r A) Ht' Hi1 Hw1) as (w' & Hrun & Hi' & Hw' & Hsz' & Hb'); try done.
  { eapply Forall_impl; [exact Hus|]. intros x. apply undoable_shape, undo_pages_shape. }
  { by apply Hb1. }
  { lia. }
  { simpl in Hf. lia. }
  exists w'. split; [|split; [done|split; [done|split; [lia|done]]]].
  cbn [rollback_loop]. destruct (Z.eqb_spec (GetLSN r) NULL_LSN) as [?|_]; [done|]. rewrite get_step.
  destruct (pi_wal _ _ _ Hi) as (n & Hlog & _). pose proof (locate_log hist n _ r Hb Hlog Hr) as Hloc.
  destruct (flushed_lsn_ (lg (po_wal w)) <? GetLSN r).
  - rewrite Hloc. by rewrite (M_bind_step _ _ _ _ _ Hundo).
  - rewrite (M_bind_step _ _ _ _ _ (read_log_stored hist n w r Hlog Hloc Hs Hroom)).
    by rewrite (M_bind_step _ _ _ _ _ Hundo).
Qed.

Lemma log_lsns hist n l : log_inv base hist n l →
  Forall (λ r, GetLSN r ≠ NULL_LSN) hist ∧ Forall (λ r, in_range 4 (log_xid_ r)) hist.
Proof.
  intros Hi. pose proof (li_limit _ _ _ _ Hi) as Hlim. unfold LOG_LIMIT in Hlim.
  assert (0 < LOG_SEGMENT_SIZE) by done. assert (0 < LOG_HEADER_SIZE) by done. pose proof NULL_LSN_val.
  split; apply Forall_forall; intros r Hr; destruct (chain_lsn _ _ _ (li_chain _ _ _ _ Hi) Hr) as (? & ? & Hw).
  - apply log_size_pos in Hw. lia.
  - apply Hw.
Qed.

(** ** Properties *)

(** [Rollback] of an active transaction, with the pages it leaves. *)
Lemma Rollback_run hist w A xid fuel :
  inv hist None w → holds w A → is_Some (att_of hist !! xid) → xid ≠ DDL_XID →
  Forall (λ r, undoable A r ∧ Log_GetSize r <= MAX_LOG_SIZE) (own hist xid) →
  log_begun (po_wal w) → base + span hist + MAX_LOG_SIZE <= log_size (disk_of w) → (length (own hist xid) < fuel)%nat →
  ∃ w', LogManager_Rollback fuel xid w = (Ok (), w') ∧ inv hist None w' ∧
    holds w' (foldr undo_pages A (own hist xid)) ∧ log_size (disk_of w) <= log_size (disk_of w') ∧
    log_begun (po_wal w').
Proof using All.
  intros Hi Hw [lsn Hat] Hx [Hu Hs]%Forall_and Hb Hroom Hf.
  destruct (pi_wal _ _ _ Hi) as (n & Hlog & Hh). destruct (log_lsns hist n _ Hlog) as [Hl _].
  pose proof (own_trail hist xid Hx (hi_prev _ _ Hh) Hl) as Ht. rewrite Hat in Ht.
  destruct (rollback_trail hist _ lsn fuel w A Ht Hi Hw) as (w' & Hrun & Hi' & Hw' & Hsz & Hb'); try done;
    [by rewrite Forall_reverse..|by rewrite length_reverse|].
  exists w'. split; [|split; [done|split; [by rewrite foldl_reverse in Hw'|done]]].
  unfold LogManager_Rollback, att_at. rewrite bind_assoc_run, get_step, (hi_att _ _ Hh), Hat. exact Hrun.
Qed.

(** The records of a page after a rollback. *)
Lemma rolled_back hist w A xid k a :
  inv hist None w → holds w A → Forall (undoable A) (own hist xid) → A !! k = Some a →
  ∃ a', foldr undo_pages A (own hist xid) !! k = Some a' ∧ a_lsn a' = a_lsn a ∧
    a_recs a' = imap (undone (own hist xid) k) (a_recs a).
Proof using All.
  intros Hi Hw Hu Ha. destruct (pi_wal _ _ _ Hi) as (n & Hlog & Hh). destruct (log_lsns hist n _ Hlog) as [_ Hxs].
  destruct (undo_all_lookup (own hist xid) A k a Hu Ha) as (a' & Ha' & Hla & Hra & _).
  exists a'. split; [done|]. split; [done|]. rewrite Hra. apply imap_ext. intros i b Hib. apply undone_fold.
  - apply Forall_forall. intros r [Hr _]%own_elem. by apply (proj1 (Forall_forall _ _) Hxs).
  - destruct (Hw k a Ha) as (_ & _ & _ & Hlong). by apply (proj1 (Forall_lookup _ _) Hlong i).
Qed.

(** A rollback that reaches the NEW_PAGE record of the first page of a table
    throws: its previous page is [NULL_PAGE_ID], which no file has. *)
Lemma rollback_of_first_page_throws hist w A xid fuel r no_page :
  inv hist None w → holds w A → att_of hist !! xid = Some (GetLSN r) → r ∈ hist → GetLSN r ≠ NULL_LSN →
  Log_GetSize r <= MAX_LOG_SIZE → log_begun (po_wal w) → base + span hist + MAX_LOG_SIZE <= log_size (disk_of w) →
  (∃ page_id, log_body_ r = NewPageLog (table_oid_ no_page) NULL_PAGE_ID page_id) → tp_page_id_ no_page = NULL_PAGE_ID →
  loaded (table_oid_ no_page) → key_range db_of no_page → key_file db_of (disk_of w) no_page →
  frame_of db_of w no_page = None → disk_page db_of (disk_of w) no_page = None →
  ∃ e, (LogManager_Rollback (S fuel) xid w).1 = Err e.
Proof using All.
  intros Hi Hw Hat Hr Hne Hs Hb Hroom [pid Hbody] Hpid Hl Hk Hf Hfr Hd.
  destruct (pi_wal _ _ _ Hi) as (n & Hlog & Hh).
  destruct (@GetPage_absent _ _ (LogDisk_wal_spec base hist) db_of no_page w Hi Hk Hf Hfr Hd) as [e He].
  assert (∀ B (f : unit → M (Pool LogDisk) B), ((Log_Undo r ≫= f) w).1 = Err e) as Hundo.
  { intros B f. unfold Log_Undo. rewrite Hbody. unfold NewPageLog_Undo.
    rewrite bind_assoc_run, (M_bind_step _ _ _ _ _ (cat_db (loaded := loaded) _ w Hl)).
    rewrite Hpid in He. unfold mbind, M_bind.
    destruct (GetPage _ _ NULL_PAGE_ID w) as [[?|?] ?]; [done|]. cbn [fst] in He |- *. congruence. }
  exists e. unfold LogManager_Rollback, att_at. rewrite bind_assoc_run, get_step, (hi_att _ _ Hh), Hat.
  change ((rollback_loop (S fuel) (GetLSN r) w).1 = Err e). cbn [rollback_loop].
  destruct (Z.eqb_spec (GetLSN r) NULL_LSN) as [?|_]; [done|]. rewrite get_step.
  pose proof (locate_log hist n _ r Hb Hlog Hr) as Hloc.
  destruct (flushed_lsn_ (lg (po_wal w)) <? GetLSN r).
  - rewrite Hloc. apply Hundo.
  - rewrite (M_bind_step _ _ _ _ _ (read_log_stored hist n w r Hlog Hloc Hs Hroom)). apply Hundo.
Qed.

(** C17: [Rollback] of an active transaction ends normally, and undoes it page by
    page: of the records it changed, those it inserted are marked deleted by it
    and those it deleted are no longer deleted; every other record of these
    pages has the bytes it had. The records of the transaction are found
    wherever they are, in the log buffer or in the log file, also when bringing
    pages in writes the buffer out in the middle of the chain. The conditions:
    - something was flushed since the database was made, or the log does not
      begin at LSN 0 ([log_begun]); otherwise the loop does not end, see
      [rollback_before_first_flush_never_ends];
    - the pages and slots of the transaction's records exist ([undoable]), which
      leaves out the NEW_PAGE record of the first page of a table, whose previous
      page is [NULL_PAGE_ID]: the code throws there, see
      [rollback_of_first_page_throws];
    - the log file reaches [MAX_LOG_SIZE] bytes past the last record, since every
      record is read with that many bytes, see [Disk.short_log_read_is_fatal]. *)
Theorem rollback_undoes_transaction hist w A xid fuel :
  inv hist None w → holds w A → is_Some (att_of hist !! xid) → xid ≠ DDL_XID →
  Forall (λ r, undoable A r ∧ Log_GetSize r <= MAX_LOG_SIZE) (own hist xid) →
  log_begun (po_wal w) → base + span hist + MAX_LOG_SIZE <= log_size (disk_of w) → (length (own hist xid) < fuel)%nat →
  ∃ w', LogManager_Rollback fuel xid w = (Ok (), w') ∧ inv hist None w' ∧
    ∀ k a, A !! k = Some a →
      ∃ a', page_is w' k a' ∧ a_lsn a' = a_lsn a ∧ a_recs a' = imap (undone (own hist xid) k) (a_recs a).
Proof using All.
  intros Hi Hw Hat Hx Hu Hb Hroom Hf.
  destruct (Rollback_run hist w A xid fuel Hi Hw Hat Hx Hu Hb Hroom Hf) as (w' & Hrun & Hi' & Hw' & _).
  apply Forall_and in Hu as [Hu _]. exists w'. split; [done|]. split; [done|]. intros k a Ha.
  destruct (rolled_back hist w A xid k a Hi Hw Hu Ha) as (a' & Ha' & Hla & Hra).
  destruct (Hw' k a' Ha') as (_ & _ & Hp & _). by exists a'.
Qed.

End Spec.

(** *** A concrete rollback *)

(** A table with one row on the disk; the log starts at LSN 100. *)
Definition ex_row_fs : Fs := WriteFile (GetFilePath 3 10001) (data_ ex_page1) Fs_empty.
Definition ex_row_bytes : bytes := record_bytes (stamp ex_record 3 1).
Definition ex_row_page : APage := mkAPage 0 NULL_PAGE_ID [ex_row_bytes].
(** Transaction 6 deletes the row. *)
Definition ex_delete_hist : list LogRecord :=
  [mkLogRecord 100 6 NULL_LSN BeginLog; mkLogRecord 113 6 100 (DeleteLog 10001 0 0)].
Definition ex_catalog : CatalogOps := {| TableExists := λ _, mret true; GetDatabaseOid := λ _, mret 3 |}.
#[local] Existing Instance ex_catalog.
#[local] Instance ex_catalog_spec : CatalogSpec ex_db_of (λ _, True).
Proof. by split. Qed.

Lemma ex_row_disk :
  ∃ d, Disk_new ex_row_fs = Ok d ∧ disk_ok d ∧ log_ok d ∧ log_size d = LOG_SEGMENT_SIZE ∧ next_file d = 0 ∧
    disk_page ex_db_of d (ex_key 0) = Some (data_ ex_page1).
Proof.
  destruct (Disk_new_ok ex_row_fs) as (d & Hnew & Hok & Hlog & Hseg & Hf).
  { apply WriteFile_wf, Fs_empty_wf. }
  { unfold ex_row_fs. rewrite WriteFile_other; [done|apply Fs_empty_wf|]. intros He. symmetry in He.
    by apply GetFilePath_not_log in He. }
  exists d. split; [exact Hnew|]. split; [done|]. split; [done|]. split; [exact (ex_log_len d Hlog Hseg)|]. split.
  - unfold next_file, FileExists. specialize (Hf NEXT_LSN_NAME ltac:(done)). unfold ex_row_fs in Hf.
    rewrite WriteFile_other in Hf by (apply Fs_empty_wf ||
      (intros He; pose proof (GetFilePath_has_slash 3 10001) as Hs; by rewrite <- He in Hs)).
    unfold file_data in Hf. destruct (fs_names (fs_ d) !! NEXT_LSN_NAME); [done|].
    by rewrite bool_decide_eq_false_2 by (by intros [? ?]).
  - unfold disk_page, page_at, key_path. cbn [table_oid_ tp_page_id_ ex_key].
    rewrite Hf by apply GetFilePath_not_log. unfold ex_row_fs, ex_db_of. by rewrite WriteFile_data.
Qed.

Lemma ex_delete_start :
  ∃ w, inv ex_db_of 100 ex_delete_hist None w ∧ log_size (disk_of w) = LOG_SEGMENT_SIZE ∧
    holds (loaded := λ _, True) (db_of := ex_db_of) w {[ex_key 0 := ex_row_page]}.
Proof.
  destruct ex_row_disk as (d & _ & Hok & Hlog & Hsz & Hnf & Hpg).
  destruct (log_inv_init 100 d) as [Hi Hh]; [done|done|done| |by rewrite Hnf|].
  { unfold log_size in Hsz. by rewrite Hsz. }
  destruct (Begin_done 100 [] 0 _ 6 Hi Hh) as (l1 & _ & Hd1 & Hi1 & Hh1); [done..|].
  destruct (Delete_done 100 _ 0 l1 6 10001 0 0 100 Hi1 Hh1) as (l2 & _ & Hd2 & Hi2 & Hh2);
    [by rewrite (hi_att _ _ Hh1)|done|done|].
  rewrite (li_next _ _ _ _ Hi1) in Hi2, Hh2.
  assert (disk_of (mkPool l2 BufferPool_new ∅ 0) = d) as Hd by (unfold disk_of; cbn; by rewrite Hd2, Hd1).
  exists (mkPool l2 BufferPool_new ∅ 0). split; [|split; [by rewrite Hd|]].
  - apply (@pool_new_inv _ _ (LogDisk_wal_spec 100 ex_delete_hist)). by exists 0%nat.
  - intros k a [<- <-]%lookup_singleton_Some. split; [done|]. split; [done|]. split.
    + exists (data_ ex_page1). split; [|apply (page_repr_data ex_page1); [done|exact ex_page1_repr]].
      unfold view, frame_of. cbn [is_sys]. rewrite Hd. exact Hpg.
    + constructor; [|constructor]. unfold rec_long. by apply record_wf_header_len.
Qed.

Lemma rollback_undoes_transaction_witness :
  ∃ w w' a', log_size (disk_of w) = LOG_SEGMENT_SIZE ∧
    LogManager_Rollback 3 6 w = (Ok (), w') ∧ page_is ex_db_of w' (ex_key 0) a' ∧ a_recs a' = [unmark ex_row_bytes].
Proof.
  destruct ex_delete_start as (w & Hi & Hsz & Hw).
  destruct (rollback_undoes_transaction (db_of := ex_db_of) (loaded := λ _, True) 100 ex_delete_hist w
    {[ex_key 0 := ex_row_page]} 6 3 Hi Hw) as (w' & Hrun & _ & Hpages).
  - by eexists.
  - done.
  - constructor; [split; [exact I|done]|]. constructor; [|constructor]. split; [|done].
    exists ex_row_page. split; [apply lookup_singleton_eq|done].
  - destruct (pi_wal _ _ _ Hi) as (n & Hlog & _). exact (flushed_not_null 100 ex_delete_hist n (po_wal w) eq_refl Hlog).
  - rewrite Hsz. by vm_compute.
  - simpl. lia.
  - destruct (Hpages (ex_key 0) ex_row_page (lookup_singleton_eq _ _)) as (a' & Hp & _ & Hr).
    exists w, w', a'. split; [exact Hsz|]. split; [exact Hrun|]. split; [exact Hp|]. exact Hr.
Defined.

(** *** A rollback that does not end *)

Section FirstFlush.
Context `{MapOrder} `{Allocator} `{CatalogOps}.

(** What the empty log file reads as: a BEGIN record whose previous record is at
    LSN 0. *)
Lemma zeros_decode :
  LogRecord_DeserializeFrom 0 (replicate (Z.to_nat MAX_LOG_SIZE) Byte.x00) = Ok (mkLogRecord 0 0 0 BeginLog).
Proof. by vm_compute. Qed.

Lemma read_zeros w :
  disk_ok (dk (po_wal w)) → MAX_LOG_SIZE <= log_size (dk (po_wal w)) →
  file_read 0 (Z.to_nat MAX_LOG_SIZE) (log_data (dk (po_wal w))) = replicate (Z.to_nat MAX_LOG_SIZE) Byte.x00 →
  read_log 0 w = (Ok (mkLogRecord 0 0 0 BeginLog), w).
Proof.
  intros Hok Hsz Hz.
  assert (ReadLog 0 MAX_LOG_SIZE (disk_of w) = (Ok (replicate (Z.to_nat MAX_LOG_SIZE) Byte.x00), disk_of w)) as Hrd.
  { rewrite <- Hz. apply ReadLog_ok; done. }
  unfold read_log. rewrite (M_bind_step _ _ _ _ _ (on_disk_run _ _ _ w Hrd)).
  assert (set_wal (wal_set_disk (disk_of w) (po_wal w)) w = w) as -> by (by destruct w as [[]]).
  unfold lift. by rewrite zeros_decode.
Qed.

(** C37: in a new database, before anything was flushed, [flushed_lsn_] is
    [NULL_LSN], which is above every LSN: [Rollback] looks for the first record,
    at LSN 0, in the log file, which is still all zeros, reads there a BEGIN
    record whose previous record is at LSN 0, and never ends. *)
Theorem rollback_before_first_flush_never_ends w xid :
  flushed_lsn_ (lg (po_wal w)) = NULL_LSN → att_ (lg (po_wal w)) !! xid = Some 0 →
  disk_ok (dk (po_wal w)) → MAX_LOG_SIZE <= log_size (dk (po_wal w)) →
  file_read 0 (Z.to_nat MAX_LOG_SIZE) (log_data (dk (po_wal w))) = replicate (Z.to_nat MAX_LOG_SIZE) Byte.x00 →
  ∀ fuel, LogManager_Rollback fuel xid w = does_not_end w.
Proof.
  intros Hf Ha Hok Hsz Hz fuel. pose proof (read_zeros w Hok Hsz Hz) as Hrd.
  unfold LogManager_Rollback, att_at. rewrite bind_assoc_run, get_step, Ha.
  change (rollback_loop fuel 0 w = does_not_end w). induction fuel as [|fuel IH]; [done|]. cbn [rollback_loop].
  change (0 =? NULL_LSN) with false. cbv iota. rewrite get_step, Hf. change (NULL_LSN <? 0) with false. cbv iota.
  rewrite (M_bind_step _ _ _ _ _ Hrd). exact IH.
Qed.

End FirstFlush.

Lemma rollback_before_first_flush_never_ends_witness :
  ∃ d l, Disk_new ex_fs = Ok d ∧ AppendBeginLog 1 (mkLogDisk (LogManager_new 0) d) = (Ok 0, l) ∧
    ∀ fuel, LogManager_Rollback fuel 1 (mkPool l BufferPool_new ∅ 0) = does_not_end (mkPool l BufferPool_new ∅ 0).
Proof.
  destruct ex_disk_exists as (d & Hd & Hok & Hlog & Hseg & Hf). exists d.
  eexists. split; [exact Hd|]. split; [by apply (AppendBeginLog_run 1)|].
  apply rollback_before_first_flush_never_ends.
  - done.
  - apply lookup_insert_eq.
  - exact Hok.
  - cbn [po_wal dk]. unfold log_size. rewrite (ex_log_len d Hlog Hseg). by vm_compute.
  - cbn [po_wal dk]. injection Hd as <-. reflexivity.
Defined.
