(* ===== verification/Restart.v ===== *)
(** Recovery after a crash, from end to end: [Recover] of
    [src/src/log/log_manager.cpp] on the disk a crash leaves. [Analyze] finds the
    transactions that were open and the pages that may be behind, [Redo] repeats
    on every page the history it has missed, and [Undo] rolls the open
    transactions back. The definitions of the code are in [Recovery.v]. *)
From S2P Require Import Prelude Memory Types StringUtil Disk Value Bitmap Column Record TablePage Lru LogRecord LogManager BufferPool Storage LockManager TransactionManager Table Recovery.

(** ** Repeating history *)

(** The record changes page [k]. *)
Definition about (k : TablePageid) (r : LogRecord) : Prop := log_page (log_body_ r) = Some k.
#[export] Instance about_dec k r : Decision (about k r).
Proof. unfold about. apply _. Defined.





(** A record [Redo] looks at: its page is in the dirty page table since then. *)
Definition redoes (D : gmap TablePageid Z) (k : TablePageid) (r : LogRecord) : Prop :=
  about k r ∧ from_option (λ rec_lsn, rec_lsn <= GetLSN r) False (D !! k).
#[export] Instance redoes_dec D k r : Decision (redoes D k r).
Proof. unfold redoes. destruct (D !! k); simpl; apply _. Defined.






(** ** The log a crash leaves *)


Section LogOnDisk.
Context `{MapOrder} (base : Z) (recs : list LogRecord).





End LogOnDisk.





(** ** Analyze *)





(** *** The open transactions *)






Section Restarting.
Context `{MapOrder} `{Allocator} `{Hcat : CatalogSpec db_of loaded}.
Context (base : Z) (recs : list LogRecord).

Local Notation inv := (inv db_of base).
Local Notation holds := (holds (db_of := db_of) (loaded := loaded)).
Local Notation page_is := (page_is db_of).
Local Notation N := (base + span recs).






(** *** The state Analyze leaves *)









(** ** Redo *)

















(** ** Undo *)






(** ** Recover *)













End Restarting.

(** *** A concrete crash *)





#[local] Existing Instance ex_catalog.
#[local] Instance ex_catalog_spec : CatalogSpec ex_db_of (λ _, True).
Proof. by split. Qed.









