(* ===== verification/Like.v ===== *)
(** The LIKE operator of [src/src/operators/expressions/comparison.h]: the SQL
    pattern is rewritten into a regular expression over wide characters. What it
    takes from the standard library is modelled here: the conversion of UTF-8
    into UTF-16 units ([wstring_convert] with [codecvt_utf8_utf16]) and the
    ECMAScript expressions made of characters, [.] and [.*]. Other expressions,
    which arise when the pattern itself holds regular-expression syntax, are
    left to the parameter [wregex]. *)
From Stdlib Require Import Ascii.
From S2P Require Import Prelude StringUtil.

(** ** The standard library *)

(** [std::wregex(pattern)] followed by [std::regex_match], for the patterns
    [parse_regex] does not read. *)
Class Ecma := { wregex : list Z → res (list Z → bool) }.

Definition cont (b : Z) : bool := (0x80 <=? b) && (b <? 0xC0).
(** One or two UTF-16 units. *)
Definition units_of (c : Z) : list Z :=
  if c <? 0x10000 then [c]
  else [0xD800 + (c - 0x10000) / 0x400; 0xDC00 + (c - 0x10000) mod 0x400].

(** [None] is a malformed sequence: too short, too long, a surrogate, or above
    U+10FFFF. *)
Fixpoint utf16 (bs : list Z) : option (list Z) :=
  match bs with
  | [] => Some []
  | b0 :: r0 =>
      if b0 <? 0x80 then cons b0 <$> utf16 r0
      else if b0 <? 0xC2 then None
      else if b0 <? 0xE0 then
        match r0 with
        | b1 :: r1 =>
            if cont b1 then app (units_of ((b0 - 0xC0) * 64 + (b1 - 0x80))) <$> utf16 r1 else None
        | _ => None
        end
      else if b0 <? 0xF0 then
        match r0 with
        | b1 :: b2 :: r2 =>
            let c := (b0 - 0xE0) * 4096 + (b1 - 0x80) * 64 + (b2 - 0x80) in
            if cont b1 && cont b2 && (0x800 <=? c) && negb ((0xD800 <=? c) && (c <? 0xE000))
            then app (units_of c) <$> utf16 r2 else None
        | _ => None
        end
      else if b0 <? 0xF5 then
        match r0 with
        | b1 :: b2 :: b3 :: r3 =>
            let c := (b0 - 0xF0) * 262144 + (b1 - 0x80) * 4096 + (b2 - 0x80) * 64 + (b3 - 0x80) in
            if cont b1 && cont b2 && cont b3 && (0x10000 <=? c) && (c <? 0x110000)
            then app (units_of c) <$> utf16 r3 else None
        | _ => None
        end
      else None
  end.

Fixpoint codes (s : string) : list Z :=
  match s with EmptyString => [] | String c s => code c :: codes s end.

(** [converter.from_bytes(s)] *)
Definition from_bytes (s : string) : res (list Z) :=
  match utf16 (codes s) with
  | Some units => Ok units
  | None => Err (StdException "wstring_convert::from_bytes")
  end.

(** Expressions as token lists. *)
Inductive token := Lit (u : Z) | Any | AnyStar.

(** ^ $ \ . * + ? ( ) [ ] { } | *)
Definition special (u : Z) : bool :=
  existsb (Z.eqb u) [94; 36; 92; 46; 42; 43; 63; 40; 41; 91; 93; 123; 125; 124].

Fixpoint parse_regex (units : list Z) : option (list token) :=
  match units with
  | [] => Some []
  | u :: rest =>
      if u =? 46 then
        match rest with
        | 42 :: rest' => cons AnyStar <$> parse_regex rest'
        | _ => cons Any <$> parse_regex rest
        end
      else if special u then None
      else cons (Lit u) <$> parse_regex rest
  end.

(** [.] matches every unit but the line terminators. *)
Definition line_terminator (u : Z) : bool := existsb (Z.eqb u) [10; 13; 0x2028; 0x2029].

(** [std::regex_match]: the whole text. *)
Fixpoint tokens_match (toks : list token) : list Z → bool :=
  match toks with
  | [] => λ text, match text with [] => true | _ => false end
  | Lit u :: toks => λ text, match text with c :: text => (c =? u) && tokens_match toks text | [] => false end
  | Any :: toks => λ text,
      match text with c :: text => negb (line_terminator c) && tokens_match toks text | [] => false end
  | AnyStar :: toks =>
      fix star (text : list Z) : bool :=
        tokens_match toks text ||
        match text with c :: text => negb (line_terminator c) && star text | [] => false end
  end.

(** ** The operator *)

(** [regex_replace(rhs, "%", ".*")] and [regex_replace(.., "_", ".")]. *)
Fixpoint replace_char (c : ascii) (by_ : string) (s : string) : string :=
  match s with
  | EmptyString => ""
  | String d s => if Ascii.eqb d c then by_ +:+ replace_char c by_ s else String d (replace_char c by_ s)
  end.
Definition pattern_string (rhs : string) : string :=
  replace_char "_" "." (replace_char "%" ".*" rhs).

Definition like_match `{Ecma} (lhs rhs : string) : res bool :=
  w_pattern_string ← from_bytes (pattern_string rhs);
  pattern ← (match parse_regex w_pattern_string with
             | Some toks => Ok (tokens_match toks)
             | None => wregex w_pattern_string
             end);
  text ← from_bytes lhs;
  Ok (pattern text).

(** ** The SQL operator *)

Inductive sql_like : list Z → list Z → Prop :=
| like_end : sql_like [] []
| like_percent p s1 s2 : sql_like p s2 → sql_like (37 :: p) (s1 ++ s2)
| like_underscore p c s : sql_like p s → sql_like (95 :: p) (c :: s)
| like_char p c s : c ≠ 37 → c ≠ 95 → sql_like p s → sql_like (c :: p) (c :: s).

Lemma star_match toks text :
  (∀ c, c ∈ text → line_terminator c = false) →
  tokens_match (AnyStar :: toks) text = true ↔ ∃ s1 s2, text = s1 ++ s2 ∧ tokens_match toks s2 = true.
Proof.
  induction text as [|c text IH]; intros Hl; cbn [tokens_match]; fold (tokens_match (AnyStar :: toks)).
  - rewrite orb_false_r. split; [by exists [], []|]. by intros (s1 & s2 & [-> ->]%(eq_sym (A := list Z))%app_nil & ?).
  - rewrite orb_true_iff, andb_true_iff, IH by (intros; apply Hl; by right). rewrite Hl by (by left). split.
    + intros [?|[_ (s1 & s2 & -> & ?)]]; [by exists [], (c :: text)|by exists (c :: s1), s2].
    + intros (s1 & s2 & Heq & Hm). destruct s1 as [|c' s1]; simpl in Heq; [left; by rewrite Heq|right].
      injection Heq as -> ->. split; [done|]. by exists s1, s2.
Qed.

(** The tokens of a SQL pattern. *)
Definition sql_token (u : Z) : token := if u =? 37 then AnyStar else if u =? 95 then Any else Lit u.
Definition sql_units (u : Z) : list Z := if u =? 37 then [46; 42] else if u =? 95 then [46] else [u].

Lemma sql_like_tokens p text :
  (∀ c, c ∈ text → line_terminator c = false) →
  tokens_match (sql_token <$> p) text = true ↔ sql_like p text.
Proof.
  revert text. induction p as [|u p IH]; intros text Hl.
  - destruct text; simpl; split; try done; [constructor|by inversion 1].
  - rewrite fmap_cons. unfold sql_token at 1. destruct (Z.eqb_spec u 37) as [->|H37].
    { rewrite star_match by done. split.
      - intros (s1 & s2 & -> & Hm). constructor. apply IH; [|done]. intros; apply Hl, elem_of_app; by right.
      - inversion 1; subst; try done. eexists _, _. split; [done|]. apply IH; [|done].
        intros; apply Hl, elem_of_app; by right. }
    destruct (Z.eqb_spec u 95) as [->|H95]; destruct text as [|c text]; cbn [tokens_match];
      try (split; [done|by inversion 1]).
    + rewrite Hl by (by left). simpl. rewrite IH by (intros; apply Hl; by right). split; [by constructor|].
      by inversion 1; subst.
    + rewrite andb_true_iff, Z.eqb_eq, IH by (intros; apply Hl; by right). split.
      * intros [-> ?]. by constructor.
      * inversion 1; subst; done.
Qed.

Lemma sql_units_head p rest : (∀ u, u ∈ p → special u = false) → concat (sql_units <$> p) ≠ 42 :: rest.
Proof.
  destruct p as [|u p]; [done|]. intros Hs. rewrite fmap_cons. cbn [concat]. unfold sql_units at 1.
  assert (special u = false) as Hu by (apply Hs; by left).
  destruct (u =? 37); [done|]. destruct (u =? 95); [done|]. simpl. intros [= -> _]. done.
Qed.

Lemma parse_sql_units p :
  (∀ u, u ∈ p → special u = false) →
  parse_regex (concat (sql_units <$> p)) = Some (sql_token <$> p).
Proof.
  induction p as [|u p IH]; intros Hs; [done|]. rewrite fmap_cons. cbn [concat].
  assert (special u = false) as Hu by (apply Hs; by left).
  assert (∀ v, v ∈ p → special v = false) as Hp by (intros; apply Hs; by right).
  specialize (IH Hp). unfold sql_units at 1. rewrite fmap_cons. unfold sql_token at 1.
  destruct (Z.eqb_spec u 37); [by cbn; rewrite IH|].
  destruct (Z.eqb_spec u 95) as [->|].
  - cbn [app parse_regex]. change (46 =? 46) with true. cbv iota. rewrite IH.
    pose proof (λ rest, sql_units_head p rest Hp) as Hh.
    destruct (concat (sql_units <$> p)) as [|v rest]; [done|].
    destruct (decide (v = 42)) as [->|Hv]; [by destruct (Hh rest)|].
    by repeat (case_match; try done).
  - cbn [app parse_regex]. destruct (Z.eqb_spec u 46) as [->|]; [done|]. by rewrite Hu, IH.
Qed.

(** *** The rewriting, seen through the encoding *)

Lemma codes_app s1 s2 : codes (s1 +:+ s2) = codes s1 ++ codes s2.
Proof. induction s1 as [|c s1 IH]; [done|]. rewrite string_app_cons. simpl. by rewrite IH. Qed.

Lemma code_inj c d : code c = code d → c = d.
Proof.
  unfold code. intros Hcd. apply N2Z.inj in Hcd.
  by rewrite <- (Ascii.ascii_N_embedding c), Hcd, Ascii.ascii_N_embedding.
Qed.

Lemma code_range c : 0 <= code c < 256.
Proof. unfold code. pose proof (Ascii.N_ascii_bounded c). lia. Qed.

Lemma codes_replace c by_ s :
  codes (replace_char c by_ s) = concat ((λ u, if u =? code c then codes by_ else [u]) <$> codes s).
Proof.
  induction s as [|d s IH]; [done|]. simpl. destruct (Ascii.eqb_spec d c) as [->|Hne].
  - by rewrite codes_app, Z.eqb_refl, IH.
  - destruct (Z.eqb_spec (code d) (code c)) as [?%code_inj|_]; [done|]. simpl. by rewrite IH.
Qed.

Lemma codes_pattern rhs : codes (pattern_string rhs) = concat (sql_units <$> codes rhs).
Proof.
  unfold pattern_string. rewrite !codes_replace. change (code "_") with 95. change (code "%") with 37.
  change (codes ".*") with [46; 42]. change (codes ".") with [46].
  induction (codes rhs) as [|u us IH]; [done|]. rewrite !fmap_cons. cbn [concat]. rewrite fmap_app, concat_app, IH.
  f_equal. unfold sql_units. destruct (Z.eqb_spec u 37) as [->|]; [done|]. simpl. by destruct (u =? 95).
Qed.

Lemma sql_units_high u : 128 <= u → sql_units u = [u].
Proof.
  intros Hu. unfold sql_units. destruct (Z.eqb_spec u 37); [lia|]. by destruct (Z.eqb_spec u 95); [lia|].
Qed.

Lemma units_of_high c : 128 <= c < 0x110000 → concat (sql_units <$> units_of c) = units_of c.
Proof.
  intros Hc. unfold units_of. destruct (Z.ltb_spec c 0x10000); cbn -[Z.div Z.modulo].
  - by rewrite sql_units_high by lia.
  - assert (0 <= (c - 65536) / 1024) by (apply Z.div_pos; lia).
    pose proof (Z.mod_pos_bound (c - 65536) 1024 ltac:(lia)).
    rewrite !sql_units_high by lia. done.
Qed.

Lemma cont_high b : cont b = true → 128 <= b < 192.
Proof. unfold cont. rewrite andb_true_iff, Z.leb_le, Z.ltb_lt. lia. Qed.

Definition rewrite_units (us : list Z) : list Z := concat (sql_units <$> us).

Lemma rewrite_cons u us : rewrite_units (u :: us) = sql_units u ++ rewrite_units us.
Proof. done. Qed.
Lemma rewrite_app us1 us2 : rewrite_units (us1 ++ us2) = rewrite_units us1 ++ rewrite_units us2.
Proof. unfold rewrite_units. by rewrite fmap_app, concat_app. Qed.

Lemma utf16_ascii b rest us :
  b < 128 → utf16 rest = Some us → utf16 (b :: rest) = Some (b :: us).
Proof. intros Hb Hr. cbn [utf16]. destruct (Z.ltb_spec b 128); [|lia]. by rewrite Hr. Qed.

Lemma utf16_sql_units n : ∀ bs us, (length bs ≤ n)%nat →
  utf16 bs = Some us → utf16 (rewrite_units bs) = Some (rewrite_units us).
Proof.
  induction n as [|n IH]; intros bs us Hn Hu; destruct bs as [|b0 r0]; simpl in Hn; try lia;
    try (by injection Hu as <-).
  destruct (Z.ltb_spec b0 128) as [Hlow|Hhigh].
  - cbn [utf16] in Hu. destruct (Z.ltb_spec b0 128); [|lia]. apply fmap_Some in Hu as (us' & Hu & ->).
    apply IH in Hu; [|lia]. rewrite !rewrite_cons. unfold sql_units.
    destruct (b0 =? 37); [by do 2 (apply utf16_ascii; [done|])|].
    destruct (b0 =? 95); by (apply utf16_ascii; [lia|]).
  - rewrite rewrite_cons, sql_units_high by lia. cbn [app].
    assert (∀ c r us', 128 <= c < 0x110000 → (length r ≤ n)%nat → utf16 r = Some us' →
      app (units_of c) <$> utf16 (rewrite_units r) = Some (rewrite_units (units_of c ++ us'))) as Hfin.
    { intros c r us' Hc Hr Hu'. rewrite (IH r us' Hr Hu'), rewrite_app. simpl. f_equal. f_equal.
      symmetry. by apply units_of_high. }
    cbn [utf16] in Hu |- *. destruct (Z.ltb_spec b0 128); [lia|].
    destruct (b0 <? 0xC2) eqn:E1; [done|]. apply Z.ltb_ge in E1.
    destruct (b0 <? 0xE0) eqn:E2; [|destruct (b0 <? 0xF0) eqn:E3; [|destruct (b0 <? 0xF5) eqn:E4; [|done]]].
    + apply Z.ltb_lt in E2. destruct r0 as [|b1 r1]; [done|]. destruct (cont b1) eqn:C1; [|done].
      pose proof (cont_high _ C1). apply fmap_Some in Hu as (us' & Hu & ->).
      rewrite rewrite_cons, sql_units_high by lia. cbn [app]. rewrite C1.
      apply Hfin; [lia|simpl in Hn; lia|done].
    + apply Z.ltb_lt in E3. apply Z.ltb_ge in E2. destruct r0 as [|b1 [|b2 r2]]; [done|done|].
      match type of Hu with (if ?b then _ else _) = _ => destruct b eqn:Hb; [|done] end.
      pose proof Hb as Hb'. rewrite !andb_true_iff, Z.leb_le in Hb'. destruct Hb' as [[[C1%cont_high C2%cont_high] ?] _].
      apply fmap_Some in Hu as (us' & Hu & ->).
      rewrite !rewrite_cons, !sql_units_high by lia. cbn [app]. rewrite Hb.
      apply Hfin; [lia|simpl in Hn; lia|done].
    + apply Z.ltb_lt in E4. apply Z.ltb_ge in E3. destruct r0 as [|b1 [|b2 [|b3 r3]]]; [done..|].
      match type of Hu with (if ?b then _ else _) = _ => destruct b eqn:Hb; [|done] end.
      pose proof Hb as Hb'. rewrite !andb_true_iff, Z.leb_le, Z.ltb_lt in Hb'.
      destruct Hb' as [[[[C1%cont_high C2%cont_high] C3%cont_high] ?] ?].
      apply fmap_Some in Hu as (us' & Hu & ->).
      rewrite !rewrite_cons, !sql_units_high by lia. cbn [app]. rewrite Hb.
      apply Hfin; [lia|simpl in Hn; lia|done].
Qed.

(** ** Properties *)

(** C28: for a text without line breaks and a pattern without regular-expression
    syntax, both valid UTF-8, LIKE is the SQL operator on UTF-16 units: [%]
    stands for any sequence of units and [_] for one unit. *)
Theorem like_is_sql_like `{Ecma} lhs rhs text p :
  from_bytes lhs = Ok text → from_bytes rhs = Ok p →
  (∀ u, u ∈ p → special u = false) → (∀ u, u ∈ text → line_terminator u = false) →
  ∃ matched, like_match lhs rhs = Ok matched ∧ (matched = true ↔ sql_like p text).
Proof.
  intros Ht Hp Hs Hl. exists (tokens_match (sql_token <$> p) text). split; [|by apply sql_like_tokens].
  unfold like_match. unfold from_bytes in Hp at 1. destruct (utf16 (codes rhs)) as [us|] eqn:Hu; [|done].
  injection Hp as ->. assert (from_bytes (pattern_string rhs) = Ok (rewrite_units p)) as ->.
  { unfold from_bytes. rewrite codes_pattern. fold (rewrite_units (codes rhs)). by rewrite (utf16_sql_units _ _ _ (le_n _) Hu). }
  rs. unfold rewrite_units. rewrite (parse_sql_units p Hs). rs. by rewrite Ht.
Qed.

#[export] Instance ex_ecma : Ecma := { wregex := λ _, Err (StdException "regex_error") }.

Lemma like_is_sql_like_witness :
  ∃ matched, like_match "database" "d_t%se" = Ok matched ∧
    (matched = true ↔ sql_like (codes "d_t%se") (codes "database")) ∧ matched = true.
Proof.
  destruct (like_is_sql_like "database" "d_t%se" (codes "database") (codes "d_t%se") eq_refl eq_refl)
    as (m & H1 & H2).
  - intros u Hu. repeat (apply elem_of_cons in Hu as [->|Hu]; [done|]). by apply elem_of_nil in Hu.
  - intros u Hu. repeat (apply elem_of_cons in Hu as [->|Hu]; [done|]). by apply elem_of_nil in Hu.
  - exists m. split; [exact H1|]. split; [exact H2|]. assert (Ok m = Ok true) as Hm; [|by injection Hm].
    rewrite <- H1. by vm_compute.
Defined.

(** Regular-expression syntax in a pattern is not quoted. *)
Lemma like_unquoted `{Ecma} : like_match "abc" "a.c" = Ok true ∧ ¬ sql_like (codes "a.c") (codes "abc").
Proof.
  split; [by vm_compute|]. intros Hl. vm_compute in Hl. inversion Hl; subst. inversion H5; subst; done.
Qed.
