(* ===== verification/Expressions.v ===== *)
(** [src/src/operators/expressions]: the expressions of a plan and their
    evaluation on a record, or on the two records a join compares. *)
From Stdlib Require Import SpecFloat.
From S2P Require Import Prelude Memory Types StringUtil Value Bitmap Column Record Like.

(** ** The classes *)

Inductive OperatorExpressionType :=
| E_AGGREGATE | E_ARITHMETIC | E_TYPE_CAST | E_COLUMN_VALUE | E_COMPARISON
| E_CONST | E_FUNC_CALL | E_LIST | E_LOGIC | E_NULL_TEST.

Inductive ComparisonType :=
| EQUAL | NOT_EQUAL | LESS | LESS_EQUAL | GREATER | GREATER_EQUAL
| BETWEEN | NOT_BETWEEN | IN | NOT_IN | LIKE | NOT_LIKE.
#[export] Instance ComparisonType_eq_dec : EqDecision ComparisonType.
Proof. solve_decision. Defined.
Inductive LogicType := AND | OR | NOT.
#[export] Instance LogicType_eq_dec : EqDecision LogicType.
Proof. solve_decision. Defined.
Inductive ArithmeticType := ADD | SUB | MUL | DIV.

(** One constructor per derived class. A [Logic] made from one argument has no
    right child. *)
Inductive OperatorExpression :=
| ColumnValue (col_idx : Z) (col_type : Type_) (name : string) (size : Z) (is_left : bool)
| Const (value : Value)
| Arithmetic (type : ArithmeticType) (left right : OperatorExpression)
| Comparison (type : ComparisonType) (left right : OperatorExpression)
| Logic (logic_type : LogicType) (left : OperatorExpression) (right : option OperatorExpression)
| NullTest (is_null : bool) (arg : OperatorExpression)
| TypeCast (cast_type : Type_) (arg : OperatorExpression)
| FuncCall (function_name : string) (args : list OperatorExpression)
| ListExpr (exprs : list OperatorExpression).

Definition GetExprType (e : OperatorExpression) : OperatorExpressionType :=
  match e with
  | ColumnValue _ _ _ _ _ => E_COLUMN_VALUE
  | Const _ => E_CONST
  | Arithmetic _ _ _ => E_ARITHMETIC
  | Comparison _ _ _ => E_COMPARISON
  | Logic _ _ _ => E_LOGIC
  | NullTest _ _ => E_NULL_TEST
  | TypeCast _ _ => E_TYPE_CAST
  | FuncCall _ _ => E_FUNC_CALL
  | ListExpr _ => E_LIST
  end.

Definition unknown_function {A} (function_name : string) : res A :=
  Err (StdException ("Unknown function name " +:+ function_name)).

(** [FuncCall::GetReturnType] *)
Definition GetReturnType (function_name : string) : res Type_ :=
  if String.eqb function_name "lower" then Ok VARCHAR
  else if String.eqb function_name "upper" then Ok VARCHAR
  else if String.eqb function_name "length" then Ok INT
  else unknown_function function_name.

(** The type each constructor passes to the base class; a [FuncCall] exists
    only when its name is known. *)
Definition GetValueType (e : OperatorExpression) : Type_ :=
  match e with
  | ColumnValue _ col_type _ _ _ => col_type
  | Const value => type_ value
  | Arithmetic _ _ _ => INT
  | Comparison _ _ _ | Logic _ _ _ | NullTest _ _ => BOOL
  | TypeCast cast_type _ => cast_type
  | FuncCall function_name _ => match GetReturnType function_name with Ok t => t | Err _ => NULL_TYPE end
  | ListExpr _ => LIST
  end.
Definition GetSize (e : OperatorExpression) : Z :=
  match e with ColumnValue _ _ _ size _ => size | Const value => size_ value | _ => 0 end.
Definition GetColumnIndex (e : OperatorExpression) : option Z :=
  match e with ColumnValue col_idx _ _ _ _ => Some col_idx | _ => None end.

(** The constructors that check their arguments. *)
Definition mk_FuncCall (function_name : string) (args : list OperatorExpression) : res OperatorExpression :=
  _ ← GetReturnType function_name;
  match args with
  | [arg] => if IsString (GetValueType arg) then Ok (FuncCall function_name args)
             else Err (DbException ("Argument mismatch for function " +:+ function_name))
  | _ => Err (DbException ("Argument mismatch for function " +:+ function_name))
  end.
Definition mk_Logic1 (logic_type : LogicType) (arg : OperatorExpression) : res OperatorExpression :=
  if decide (logic_type = NOT) then Ok (Logic logic_type arg None)
  else Err (AssertFailed "logic_type == LogicType::NOT").

(** ** Computing with two values *)

(** The six instances of [Comparison::DoOperation]: on integers, on doubles
    (an integer being converted) and on strings. *)
Definition compare_op {A} (lt eq : A → A → bool) (type : ComparisonType) (lhs rhs : A) : res bool :=
  match type with
  | EQUAL => Ok (eq lhs rhs)
  | NOT_EQUAL => Ok (negb (eq lhs rhs))
  | LESS => Ok (lt lhs rhs)
  | LESS_EQUAL => Ok (lt lhs rhs || eq lhs rhs)
  | GREATER => Ok (lt rhs lhs)
  | GREATER_EQUAL => Ok (lt rhs lhs || eq rhs lhs)
  | _ => Err (DbException "Unknown comparison type")
  end.
Definition compare_int : ComparisonType → Z → Z → res bool := compare_op Z.ltb Z.eqb.
Definition compare_double : ComparisonType → Z → Z → res bool := compare_op f64_lt f64_eq.
Definition compare_string : ComparisonType → string → string → res bool := compare_op Strings.String.ltb String.eqb.

Definition between_op (lhs : Value) (bounds : list Value) : res bool :=
  let bound (i : nat) : res Value :=
    match bounds !! i with Some v => Ok v | None => Err (Undefined "vector index out of range") end in
  match type_ lhs with
  | INT =>
      x ← GetValue_int lhs; v0 ← bound 0%nat; low ← GetValue_int v0;
      if low <=? x then v1 ← bound 1%nat; high ← GetValue_int v1; Ok (x <=? high) else Ok false
  | DOUBLE =>
      x ← GetValue_double lhs; v0 ← bound 0%nat; low ← GetValue_double v0;
      if f64_le low x then v1 ← bound 1%nat; high ← GetValue_double v1; Ok (f64_le x high) else Ok false
  | _ => Err (DbException "Type unsupported for comparison operation (between)")
  end.

(** The loop stops at the first equal value. *)
Fixpoint in_list_op (lhs : Value) (values : list Value) : res bool :=
  match values with
  | [] => Ok false
  | value :: values =>
      in_list ← match type_ lhs with
                | INT => x ← GetValue_int lhs; y ← GetValue_int value; Ok (x =? y)
                | DOUBLE => x ← GetValue_double lhs; y ← GetValue_double value; Ok (f64_eq x y)
                | CHAR | VARCHAR => x ← GetValue_string lhs; y ← GetValue_string value; Ok (String.eqb x y)
                | _ => Err (DbException "Type unsupported for comparison operation (in)")
                end;
      if in_list : bool then Ok true else in_list_op lhs values
  end.

Definition unsupported {A} : res A := Err (DbException "Type unsupported for comparison operation").

Definition Comparison_Compute `{Ecma} (type : ComparisonType) (lhs rhs : Value) : res Value :=
  if IsNull lhs || IsNull rhs then Ok Value_null
  else match type with
  | BETWEEN => b ← between_op lhs (values_ rhs); Ok (Value_bool b)
  | NOT_BETWEEN => b ← between_op lhs (values_ rhs); Ok (Value_bool (negb b))
  | IN => b ← in_list_op lhs (values_ rhs); Ok (Value_bool b)
  | NOT_IN => b ← in_list_op lhs (values_ rhs); Ok (Value_bool (negb b))
  | LIKE | NOT_LIKE =>
      if negb (IsString (type_ lhs)) || negb (IsString (type_ rhs))
      then Err (DbException "LIKE operator only supports CHAR and VARCHAR types")
      else
        pattern ← GetValue_string rhs; text ← GetValue_string lhs;
        matched ← like_match text pattern;
        Ok (Value_bool (if decide (type = LIKE) then matched else negb matched))
  | _ =>
      match type_ lhs with
      | INT =>
          if decide (type_ rhs = INT)
          then x ← GetValue_int lhs; y ← GetValue_int rhs; b ← compare_int type x y; Ok (Value_bool b)
          else if decide (type_ rhs = DOUBLE)
          then x ← GetValue_int lhs; y ← GetValue_double rhs;
               b ← compare_double type (f64_of_int x) y; Ok (Value_bool b)
          else unsupported
      | DOUBLE =>
          if decide (type_ rhs = INT)
          then x ← GetValue_double lhs; y ← GetValue_int rhs;
               b ← compare_double type x (f64_of_int y); Ok (Value_bool b)
          else if decide (type_ rhs = DOUBLE)
          then x ← GetValue_double lhs; y ← GetValue_double rhs; b ← compare_double type x y; Ok (Value_bool b)
          else unsupported
      | CHAR | VARCHAR =>
          x ← GetValue_string lhs; y ← GetValue_string rhs; b ← compare_string type x y; Ok (Value_bool b)
      | _ => unsupported
      end
  end.

Definition Logic_Compute (logic_type : LogicType) (lhs rhs : Value) : res Value :=
  if IsNull lhs || IsNull rhs then Ok Value_null
  else match type_ lhs with
  | BOOL =>
      x ← GetValue_bool lhs; y ← GetValue_bool rhs;
      match logic_type with
      | AND => Ok (Value_bool (x && y))
      | OR => Ok (Value_bool (x || y))
      | NOT => Err (DbException "Unknown logic type")
      end
  | _ => Err (DbException "Type unsupported for logic operation")
  end.

(** Signed overflow and integer division by zero are undefined. *)
Definition int_op (type : ArithmeticType) (lhs rhs : Z) : res Z :=
  match type with
  | ADD => signed (lhs + rhs)
  | SUB => signed (lhs - rhs)
  | MUL => signed (lhs * rhs)
  | DIV => if rhs =? 0 then Err (Undefined "division by zero") else signed (Z.quot lhs rhs)
  end.
Definition double_op (type : ArithmeticType) (lhs rhs : Z) : Z :=
  match type with
  | ADD => f64_add lhs rhs | SUB => f64_sub lhs rhs | MUL => f64_mul lhs rhs | DIV => f64_div lhs rhs
  end.
Definition Arithmetic_Compute (type : ArithmeticType) (lhs rhs : Value) : res Value :=
  if IsNull lhs || IsNull rhs then Ok Value_null
  else match type_ lhs with
  | INT => x ← GetValue_int lhs; y ← GetValue_int rhs; z ← int_op type x y; Ok (Value_int z)
  | DOUBLE => x ← GetValue_double lhs; y ← GetValue_double rhs; Ok (Value_double (double_op type x y))
  | _ => Err (DbException "Type unsupported for arithmetic operation")
  end.

Definition call_function (function_name : string) (arg : res Value) : res Value :=
  if String.eqb function_name "lower" then v ← arg; s ← GetValue_string v; Ok (Value_string (Lower s) VARCHAR)
  else if String.eqb function_name "upper" then v ← arg; s ← GetValue_string v; Ok (Value_string (Upper s) VARCHAR)
  else if String.eqb function_name "length" then v ← arg; s ← GetValue_string v; Ok (Value_uint (u32 (str_len s)))
  else unknown_function function_name.

Definition cast (cast_type : Type_) (value : Value) : res Value :=
  if decide (cast_type = BOOL) then CastAsBool value
  else Err (DbException "Type unsupported for cast operation").
Definition null_test (is_null : bool) (value : Value) : Value :=
  if is_null then Value_bool (IsNull value) else Value_bool (negb (IsNull value)).

(** ** Evaluation

    The method of each class, given what its children evaluate to: an argument
    is evaluated where the method calls [Evaluate] or [EvaluateJoin] on the
    child. *)

Definition no_child {A} : res A := Err (Undefined "vector index out of range").

Definition ColumnValue_EvaluateJoin (col_idx : Z) (is_left : bool) (left right : Rec) : res Value :=
  if is_left then GetValue left col_idx else GetValue right col_idx.

Definition Arithmetic_Evaluate (type : ArithmeticType) (child0 child1 : res Value) : res Value :=
  lhs ← child0; rhs ← child1; Arithmetic_Compute type lhs rhs.

Definition NullTest_Evaluate (is_null : bool) (child : res Value) : res Value :=
  value ← child; Ok (null_test is_null value).

Definition TypeCast_Evaluate (cast_type : Type_) (child : res Value) : res Value :=
  value ← child; cast cast_type value.

Definition Logic_Evaluate (logic_type : LogicType) (child0 child1 : res Value) : res Value :=
  if decide (logic_type = NOT) then v ← child0; Not v
  else lhs ← child0; rhs ← child1; Logic_Compute logic_type lhs rhs.

(** [join0] and [join1] are the children on both records, [left0] is the first
    child on the left record. *)
Definition Logic_EvaluateJoin (logic_type : LogicType) (left0 join0 join1 : res Value) : res Value :=
  if decide (logic_type = NOT) then v ← left0; Not v
  else lhs ← join0; rhs ← join1; Logic_Compute logic_type lhs rhs.

Fixpoint all_values (children : list (res Value)) : res (list Value) :=
  match children with
  | [] => Ok []
  | child :: children => v ← child; vs ← all_values children; Ok (v :: vs)
  end.
Definition List_Evaluate (children : list (res Value)) : res Value :=
  values ← all_values children; Ok (Value_list values).

Section Evaluation.
Context `{Ecma}.

Definition Comparison_Evaluate (type : ComparisonType) (child0 child1 : res Value) : res Value :=
  lhs ← child0; rhs ← child1; Comparison_Compute type lhs rhs.

(** [ColumnValue::Evaluate]; the record is a null pointer in a VALUES list. *)
Definition ColumnValue_Evaluate (col_idx : Z) (record : option Rec) : res Value :=
  match record with
  | Some record => GetValue record col_idx
  | None => Err (Undefined "null pointer")
  end.

Fixpoint Evaluate (e : OperatorExpression) (record : option Rec) : res Value :=
  match e with
  | ColumnValue col_idx _ _ _ _ => ColumnValue_Evaluate col_idx record
  | Const value => Ok value
  | Arithmetic type e0 e1 => Arithmetic_Evaluate type (Evaluate e0 record) (Evaluate e1 record)
  | Comparison type e0 e1 => Comparison_Evaluate type (Evaluate e0 record) (Evaluate e1 record)
  | Logic logic_type e0 e1 =>
      Logic_Evaluate logic_type (Evaluate e0 record)
        match e1 with Some e1 => Evaluate e1 record | None => no_child end
  | NullTest is_null arg => NullTest_Evaluate is_null (Evaluate arg record)
  | TypeCast cast_type arg => TypeCast_Evaluate cast_type (Evaluate arg record)
  | FuncCall function_name args =>
      call_function function_name match args with arg :: _ => Evaluate arg record | [] => no_child end
  | ListExpr exprs => List_Evaluate (map (λ e, Evaluate e record) exprs)
  end.

(** [NOT], [List], [NullTest] and [TypeCast] evaluate their argument on the left
    record only. *)
Fixpoint EvaluateJoin (e : OperatorExpression) (left right : Rec) : res Value :=
  match e with
  | ColumnValue col_idx _ _ _ is_left => ColumnValue_EvaluateJoin col_idx is_left left right
  | Const value => Ok value
  | Arithmetic type e0 e1 => Arithmetic_Evaluate type (EvaluateJoin e0 left right) (EvaluateJoin e1 left right)
  | Comparison type e0 e1 => Comparison_Evaluate type (EvaluateJoin e0 left right) (EvaluateJoin e1 left right)
  | Logic logic_type e0 e1 =>
      Logic_EvaluateJoin logic_type (Evaluate e0 (Some left)) (EvaluateJoin e0 left right)
        match e1 with Some e1 => EvaluateJoin e1 left right | None => no_child end
  | NullTest is_null arg => NullTest_Evaluate is_null (Evaluate arg (Some left))
  | TypeCast cast_type arg => TypeCast_Evaluate cast_type (Evaluate arg (Some left))
  | FuncCall function_name args =>
      call_function function_name match args with arg :: _ => EvaluateJoin arg left right | [] => no_child end
  | ListExpr exprs => List_Evaluate (map (λ e, Evaluate e (Some left)) exprs)
  end.

End Evaluation.

(** ** Order *)

(** The comparisons the default branch of [Compute] makes. *)
Definition order_comparison (type : ComparisonType) : bool :=
  match type with EQUAL | NOT_EQUAL | LESS | LESS_EQUAL | GREATER | GREATER_EQUAL => true | _ => false end.
(** The comparison with its operands exchanged. *)
Definition mirror (type : ComparisonType) : ComparisonType :=
  match type with
  | LESS => GREATER | LESS_EQUAL => GREATER_EQUAL | GREATER => LESS | GREATER_EQUAL => LESS_EQUAL | _ => type
  end.
Definition negation (type : ComparisonType) : ComparisonType :=
  match type with
  | EQUAL => NOT_EQUAL | NOT_EQUAL => EQUAL | LESS => GREATER_EQUAL | GREATER_EQUAL => LESS
  | GREATER => LESS_EQUAL | LESS_EQUAL => GREATER | _ => type
  end.
(** What a comparison answers about two values that compare as [o]; [None] is a
    NaN, of which only [!=] holds. *)
Definition holds (type : ComparisonType) (o : option comparison) : bool :=
  match type, o with
  | EQUAL, Some Eq | LESS, Some Lt | GREATER, Some Gt => true
  | NOT_EQUAL, (None | Some (Lt | Gt)) => true
  | LESS_EQUAL, Some (Lt | Eq) | GREATER_EQUAL, Some (Gt | Eq) => true
  | _, _ => false
  end.
Definition is_number (t : Type_) : bool := match t with INT | DOUBLE => true | _ => false end.
(** Stored values the operators accept: two numbers or two strings. *)
Definition ordered (v1 v2 : Value) : Prop :=
  value_wf v1 ∧ value_wf v2 ∧
  (is_number (type_ v1) && is_number (type_ v2)) || (IsString (type_ v1) && IsString (type_ v2)) = true.

Lemma SFcompare_antisym x y : SFcompare y x = CompOpp <$> SFcompare x y.
Proof.
  destruct x as [[]|[]| |[] m1 e1], y as [[]|[]| |[] m2 e2]; try done; simpl;
    try done; rewrite (Z.compare_antisym e1 e2); destruct (e1 ?= e2) eqn:E; try done; simpl;
    rewrite (Pos.compare_cont_antisym m1 m2 Eq); simpl; by destruct (Pos.compare_cont Eq m1 m2).
Qed.

(** [lt] and [eq] decide the order [cmp]. *)
Definition decides {A} (cmp : A → A → option comparison) (lt eq : A → A → bool) : Prop :=
  ∀ x y, cmp y x = CompOpp <$> cmp x y ∧ lt x y = holds LESS (cmp x y) ∧ eq x y = holds EQUAL (cmp x y).

Lemma decides_int : decides (λ x y, Some (x ?= y)) Z.ltb Z.eqb.
Proof.
  intros x y. rewrite (Z.compare_antisym x y). unfold Z.ltb. rewrite Z.eqb_compare.
  by destruct (x ?= y).
Qed.

Lemma decides_double : decides (λ x y, SFcompare (f64_decode x) (f64_decode y)) f64_lt f64_eq.
Proof.
  intros x y. rewrite SFcompare_antisym. unfold f64_lt, f64_eq, SFltb, SFeqb.
  by destruct (SFcompare (f64_decode x) (f64_decode y)) as [[]|].
Qed.

Lemma decides_string : decides (λ x y, Some (String.compare x y)) Strings.String.ltb String.eqb.
Proof.
  intros x y. rewrite (String.compare_antisym y x). unfold Strings.String.ltb.
  split; [done|]. split; [by destruct (x ?= y)%string|].
  destruct (String.eqb_spec x y) as [->|Hne].
  - pose proof (String.compare_antisym y y) as Ha. by destruct (y ?= y)%string.
  - destruct (x ?= y)%string eqn:E; try done. by apply String.compare_eq_iff in E.
Qed.

Lemma compare_op_holds {A} (cmp : A → A → option comparison) lt eq type x y :
  decides cmp lt eq → order_comparison type = true →
  compare_op lt eq type x y = Ok (holds type (cmp x y)) ∧
  compare_op lt eq (mirror type) y x = Ok (holds type (cmp x y)).
Proof.
  intros Hd Ht. destruct (Hd x y) as (Ha & Hl & He), (Hd y x) as (_ & Hl' & He').
  rewrite Ha in Hl', He'.
  destruct type; try done; cbn [compare_op mirror]; rewrite ?Hl, ?He, ?Hl', ?He';
    by destruct (cmp x y) as [[]|].
Qed.

Lemma holds_negation type o :
  order_comparison type = true → o ≠ None → holds (negation type) o = negb (holds type o).
Proof. by destruct type, o as [[]|]. Qed.

Lemma wf_int v : value_wf v → type_ v = INT → ∃ x, GetValue_int v = Ok x.
Proof. destruct v as [ty ? []]; intros (_ & _ & Hv) Ht; simpl in *; subst; try done. by eexists. Qed.
Lemma wf_double v : value_wf v → type_ v = DOUBLE → ∃ x, GetValue_double v = Ok x.
Proof. destruct v as [ty ? []]; intros (_ & _ & Hv) Ht; simpl in *; subst; try done. by eexists. Qed.

(** The order of two values: of integers, of doubles when one of them is a
    double, of strings. *)
Definition value_order (v1 v2 : Value) : option comparison :=
  match val_ v1, val_ v2 with
  | UInt x, UInt y => Some (x ?= y)
  | UInt x, UDouble y => SFcompare (f64_decode (f64_of_int x)) (f64_decode y)
  | UDouble x, UInt y => SFcompare (f64_decode x) (f64_decode (f64_of_int y))
  | UDouble x, UDouble y => SFcompare (f64_decode x) (f64_decode y)
  | _, _ => Some (str_ v1 ?= str_ v2)%string
  end.

(** The default branch, by the types of the operands. *)
Section Default.
Context `{Ecma} (type : ComparisonType) (Hty : order_comparison type = true).
Let done_with (b : res bool) : res Value := b ← b; Ok (Value_bool b).

Lemma Compute_int_int x y :
  Comparison_Compute type (Value_int x) (Value_int y) = done_with (compare_int type x y).
Proof. by destruct type. Qed.
Lemma Compute_int_double x y :
  Comparison_Compute type (Value_int x) (Value_double y) = done_with (compare_double type (f64_of_int x) y).
Proof. by destruct type. Qed.
Lemma Compute_double_int x y :
  Comparison_Compute type (Value_double x) (Value_int y) = done_with (compare_double type x (f64_of_int y)).
Proof. by destruct type. Qed.
Lemma Compute_double_double x y :
  Comparison_Compute type (Value_double x) (Value_double y) = done_with (compare_double type x y).
Proof. by destruct type. Qed.
Lemma Compute_string_string x y t1 t2 : IsString t1 = true → IsString t2 = true →
  Comparison_Compute type (Value_string x t1) (Value_string y t2) = done_with (compare_string type x y).
Proof. by destruct type, t1, t2. Qed.
End Default.

Lemma Compute_order `{Ecma} type v1 v2 :
  ordered v1 v2 → order_comparison type = true →
  Comparison_Compute type v1 v2 = Ok (Value_bool (holds type (value_order v1 v2))) ∧
  Comparison_Compute (mirror type) v2 v1 = Ok (Value_bool (holds type (value_order v1 v2))).
Proof.
  intros (Hv1 & Hv2 & Ht) Hty.
  apply value_wf_cases in Hv1, Hv2.
  destruct Hv1 as [[? ->]|[[x [-> _]]|[[? [-> _]]|[[x [-> _]]|(x&t1&->&Ht1&_)]]]]; try done;
  destruct Hv2 as [[? ->]|[[y [-> _]]|[[? [-> _]]|[[y [-> _]]|(y&t2&->&Ht2&_)]]]]; try done;
    try (destruct t1; done); try (destruct t2; done); unfold value_order; cbn [val_ str_ Value_int Value_double Value_string].
  - rewrite !Compute_int_int by (by destruct type). unfold compare_int.
    by destruct (compare_op_holds _ _ _ type x y decides_int Hty) as [-> ->].
  - rewrite Compute_int_double, Compute_double_int by (by destruct type). unfold compare_double.
    by destruct (compare_op_holds _ _ _ type (f64_of_int x) y decides_double Hty) as [-> ->].
  - rewrite Compute_int_double, Compute_double_int by (by destruct type). unfold compare_double.
    by destruct (compare_op_holds _ _ _ type x (f64_of_int y) decides_double Hty) as [-> ->].
  - rewrite !Compute_double_double by (by destruct type). unfold compare_double.
    by destruct (compare_op_holds _ _ _ type x y decides_double Hty) as [-> ->].
  - rewrite !Compute_string_string by (done || by destruct type). unfold compare_string.
    by destruct (compare_op_holds _ _ _ type x y decides_string Hty) as [-> ->].
Qed.

(** C32: on two stored numbers or two stored strings the comparison operators
    answer from one order ([<] on integers, on doubles as soon as one side is a
    double, bytewise on strings): exchanging the operands mirrors the operator,
    and unless a NaN is involved each operator is the negation of its
    opposite. *)
Theorem comparisons_order_values `{Ecma} type v1 v2 :
  ordered v1 v2 → order_comparison type = true →
  Comparison_Compute type v1 v2 = Ok (Value_bool (holds type (value_order v1 v2))) ∧
  Comparison_Compute (mirror type) v2 v1 = Comparison_Compute type v1 v2 ∧
  (value_order v1 v2 ≠ None →
     Comparison_Compute (negation type) v1 v2 = Ok (Value_bool (negb (holds type (value_order v1 v2))))) ∧
  (value_order v1 v2 = None → type_ v1 = DOUBLE ∨ type_ v2 = DOUBLE).
Proof.
  intros Ho Hty. destruct (Compute_order type v1 v2 Ho Hty) as [H1 H2].
  split_and!; [done|by rewrite H1| |].
  - intros Hn. rewrite <- (holds_negation type) by done.
    by destruct (Compute_order (negation type) v1 v2 Ho) as [-> _]; [by destruct type|].
  - destruct Ho as (Hv1 & Hv2 & _). destruct v1 as [t1 ? [] ?], v2 as [t2 ? [] ?]; try done;
      destruct Hv1 as (_ & _ & Hv1), Hv2 as (_ & _ & Hv2); simpl in *; destruct t1, t2; naive_solver.
Qed.

Lemma comparisons_order_values_witness :
  Comparison_Compute LESS (Value_int 2) (Value_double (f64_of_int 3)) = Ok (Value_bool true) ∧
  Comparison_Compute GREATER (Value_double (f64_of_int 3)) (Value_int 2) = Ok (Value_bool true) ∧
  Comparison_Compute GREATER_EQUAL (Value_int 2) (Value_double (f64_of_int 3)) = Ok (Value_bool false).
Proof.
  destruct (comparisons_order_values LESS (Value_int 2) (Value_double (f64_of_int 3))) as (H1 & H2 & H3 & _).
  - repeat split; by vm_compute.
  - done.
  - assert (value_order (Value_int 2) (Value_double (f64_of_int 3)) = Some Lt) as Ho by by vm_compute.
    rewrite Ho in H1, H3. split; [exact H1|]. split; [etransitivity; [exact H2|exact H1]|by apply H3].
Defined.

(** ** Joins *)

(** Induction on an expression and on the arguments of its functions. *)
Section Induction.
Variable P : OperatorExpression → Prop.
Hypothesis PColumn : ∀ i t n s l, P (ColumnValue i t n s l).
Hypothesis PConst : ∀ v, P (Const v).
Hypothesis PArithmetic : ∀ t l r, P l → P r → P (Arithmetic t l r).
Hypothesis PComparison : ∀ t l r, P l → P r → P (Comparison t l r).
Hypothesis PLogic : ∀ t l r, P l → (∀ e, r = Some e → P e) → P (Logic t l r).
Hypothesis PNullTest : ∀ b e, P e → P (NullTest b e).
Hypothesis PTypeCast : ∀ t e, P e → P (TypeCast t e).
Hypothesis PFuncCall : ∀ f args, Forall P args → P (FuncCall f args).
Hypothesis PList : ∀ es, Forall P es → P (ListExpr es).

Fixpoint expression_ind (e : OperatorExpression) : P e :=
  let all := fix all (es : list OperatorExpression) : Forall P es :=
    match es with [] => Forall_nil_2 P | e :: es => Forall_cons_2 P e es (expression_ind e) (all es) end in
  match e with
  | ColumnValue i t n s l => PColumn i t n s l
  | Const v => PConst v
  | Arithmetic t l r => PArithmetic t l r (expression_ind l) (expression_ind r)
  | Comparison t l r => PComparison t l r (expression_ind l) (expression_ind r)
  | Logic t l r =>
      PLogic t l r (expression_ind l)
        (match r with
         | Some e => λ e' Heq, eq_ind e P (expression_ind e) e' (Some_inj _ _ Heq)
         | None => λ e' Heq, match eq_ind None (λ o, match o with None => True | Some _ => False end) I _ Heq with end
         end)
  | NullTest b e => PNullTest b e (expression_ind e)
  | TypeCast t e => PTypeCast t e (expression_ind e)
  | FuncCall f args => PFuncCall f args (all args)
  | ListExpr es => PList es (all es)
  end.
End Induction.

(** The expressions a join evaluates on both of its records. *)
Fixpoint both_sides (n : Z) (e : OperatorExpression) : Prop :=
  match e with
  | ColumnValue i _ _ _ is_left => 0 <= i ∧ (is_left = true → i < n)
  | Const _ => True
  | Arithmetic _ l r | Comparison _ l r => both_sides n l ∧ both_sides n r
  | Logic t l r => t ≠ NOT ∧ both_sides n l ∧ match r with Some r => both_sides n r | None => True end
  | FuncCall _ args => match args with arg :: _ => both_sides n arg | [] => True end
  | NullTest _ _ | TypeCast _ _ | ListExpr _ => False
  end.

(** The expression over the joined record: the columns of the right record
    follow the [n] columns of the left one. *)
Fixpoint joined (n : Z) (e : OperatorExpression) : OperatorExpression :=
  match e with
  | ColumnValue i t name size is_left => ColumnValue (if is_left then i else n + i) t name size true
  | Const v => Const v
  | Arithmetic t l r => Arithmetic t (joined n l) (joined n r)
  | Comparison t l r => Comparison t (joined n l) (joined n r)
  | Logic t l r => Logic t (joined n l) (match r with Some r => Some (joined n r) | None => None end)
  | NullTest b e => NullTest b (joined n e)
  | TypeCast t e => TypeCast t (joined n e)
  | FuncCall f args => FuncCall f (joined n <$> args)
  | ListExpr es => ListExpr (joined n <$> es)
  end.

Lemma append_step_values vs : ∀ b vs0 b' vs',
  fold_left append_step vs (Ok (b, vs0)) = Ok (b', vs') → vs' = vs0 ++ vs.
Proof.
  assert (∀ vs e, fold_left append_step vs (Err e) = Err e) as He by (intros l; by induction l).
  induction vs as [|v vs IH]; intros b vs0 b' vs' Hf; simpl in Hf; [injection Hf as -> ->; by rewrite app_nil_r|].
  match type of Hf with context [?x ≫= _] => destruct x as [b1|e] end; simpl in Hf; [|by rewrite He in Hf].
  apply IH in Hf as ->. by rewrite <- app_assoc.
Qed.

Lemma Append_values r1 r2 r : Append r1 r2 = Ok r → rvalues_ r = rvalues_ r1 ++ rvalues_ r2.
Proof.
  unfold Append. intros ([b vs] & Hf & Hr)%bind_Ok. injection Hr as <-. simpl. by eapply append_step_values.
Qed.

Section Join.
Context `{Ecma} (l r lr : Rec).
Hypothesis Hvalues : rvalues_ lr = rvalues_ l ++ rvalues_ r.
Let n : Z := Z.of_nat (length (rvalues_ l)).

Lemma GetValue_left i : 0 <= i < n → GetValue lr i = GetValue l i.
Proof.
  intros Hi. unfold GetValue. rewrite Hvalues. destruct (Z.leb_spec 0 i); [|lia].
  by rewrite lookup_app_l by lia.
Qed.
Lemma GetValue_right i : 0 <= i → GetValue lr (n + i) = GetValue r i.
Proof.
  intros Hi. unfold GetValue. rewrite Hvalues.
  destruct (Z.leb_spec 0 i); [|lia]. destruct (Z.leb_spec 0 (n + i)); [|lia].
  rewrite lookup_app_r by lia. by replace (Z.to_nat (n + i) - length (rvalues_ l))%nat with (Z.to_nat i) by lia.
Qed.

Lemma joined_Evaluate e : both_sides n e → Evaluate (joined n e) (Some lr) = EvaluateJoin e l r.
Proof using All.
  induction e as [i t name s []| |t e1 e2 IH1 IH2|t e1 e2 IH1 IH2|t e1 o IH1 IH2| | |f args IH|] using expression_ind;
    cbn [both_sides]; try done.
  - intros [Hi Hl]. cbn. by rewrite GetValue_left by auto.
  - intros [Hi _]. cbn. by rewrite GetValue_right.
  - intros [H1 H2]. cbn. by rewrite IH1, IH2.
  - intros [H1 H2]. cbn. by rewrite IH1, IH2.
  - intros (Ht & H1 & H2). destruct o as [e2|]; destruct t; try done; cbn; rewrite IH1 by done;
      try (rewrite (IH2 e2) by done); done.
  - intros Ha. destruct args as [|arg args]; [done|]. cbn. apply Forall_cons in IH as [IH _]. by rewrite IH.
Qed.
End Join.

(** C33: evaluated on the two records of a join, a condition means what its
    translation means on the record [Append] makes of them, for every condition
    without NOT, lists, null tests and casts. *)
Theorem join_evaluates_on_both `{Ecma} e l r lr :
  Append l r = Ok lr → both_sides (Z.of_nat (length (rvalues_ l))) e →
  EvaluateJoin e l r = Evaluate (joined (Z.of_nat (length (rvalues_ l))) e) (Some lr).
Proof. intros Ha He. symmetry. apply joined_Evaluate; [by apply Append_values|done]. Qed.

(** Left column 0 less than right column 0. *)
Definition ex_condition : OperatorExpression :=
  Comparison LESS (ColumnValue 0 INT "a" 4 true) (ColumnValue 0 INT "b" 4 false).
Definition ex_row (z : Z) : Rec :=
  match mk_Record [Value_int z] (mkRid 0 0) with Ok r => r | Err _ => Record_default end.

Lemma join_evaluates_on_both_witness :
  ∃ lr, Append (ex_row 1) (ex_row 2) = Ok lr ∧
    EvaluateJoin ex_condition (ex_row 1) (ex_row 2) = Evaluate (joined 1 ex_condition) (Some lr) ∧
    EvaluateJoin ex_condition (ex_row 1) (ex_row 2) = Ok (Value_bool true).
Proof.
  destruct (Append (ex_row 1) (ex_row 2)) as [lr|] eqn:Hlr; [|by vm_compute in Hlr].
  exists lr. split; [done|]. split; [|by vm_compute].
  apply (join_evaluates_on_both ex_condition _ _ _ Hlr). by vm_compute.
Defined.

(** NOT looks at the left record only: [not (a < b)] fails, or answers from a
    left column, when [b] belongs to the right record. *)
Lemma join_not_is_left_only `{Ecma} e l r1 r2 :
  EvaluateJoin (Logic NOT e None) l r1 = EvaluateJoin (Logic NOT e None) l r2.
Proof. done. Qed.
Example join_not_wrong :
  EvaluateJoin ex_condition (ex_row 1) (ex_row 2) = Ok (Value_bool true) ∧
  EvaluateJoin (Logic NOT ex_condition None) (ex_row 1) (ex_row 2) = Ok (Value_bool true).
Proof. by vm_compute. Qed.
