(* ===== verification/Executor.v ===== *)
(** [src/src/executors/executor.h]: the interface of the executors. An executor
    is initialised and then asked for one record at a time until it returns
    null. [delivers] says which records its consumer gets, and how they end. *)
From S2P Require Import Prelude Memory Types Value Record.

(** ** The interface *)

(** An executor with the state [E] over the shared system [Sys] (storage, lock
    table, transactions, catalog). [None] is the null pointer. *)
Class Executor (Sys E : Type) := {
  Init : M (E * Sys) unit;
  Next : M (E * Sys) (option Rec)
}.

#[global] Hint Mode Executor - ! : typeclass_instances.

(** A call on a child, whose state is a part of the executor's. *)
Definition on_child {Sys E F A} (child : F → E) (set_child : E → F → F) : M (E * Sys) A → M (F * Sys) A :=
  zoom (λ σ, (child σ.1, σ.2)) (λ τ σ, (set_child τ.1 σ.1, τ.2)).
(** An operation on the executor's own members. *)
Definition on_self {Sys F A} : M F A → M (F * Sys) A := zoom fst (λ f σ, (f, σ.2)).
(** An operation on the shared system. *)
Definition on_sys {Sys F A} : M Sys A → M (F * Sys) A := zoom snd (λ s σ, (σ.1, s)).

(** [while (auto record = child->Next()) records.push_back(record);] *)
Fixpoint drain {Sys E} `{Executor Sys E} (fuel : nat) : M (E * Sys) (list Rec) :=
  match fuel with
  | O => throw (Undefined "the loop does not end")
  | S fuel =>
      record ← Next;
      match record with
      | None => mret []
      | Some record => records ← drain fuel; mret (record :: records)
      end
  end.

Section Steps.
Context {Sys E F : Type}.

Section Child.
Context (child : F → E) (set_child : E → F → F) (f : F) {A : Type} (m : M (E * Sys) A).

Lemma on_child_run r s e' s' :
  m (child f, s) = (r, (e', s')) → on_child child set_child m (f, s) = (r, (set_child e' f, s')).
Proof. unfold on_child, zoom. simpl. by intros ->. Qed.
Lemma on_child_step {B} a (k : A → M (F * Sys) B) s e' s' :
  m (child f, s) = (Ok a, (e', s')) → (on_child child set_child m ≫= k) (f, s) = k a (set_child e' f, s').
Proof. intros Hm. exact (M_bind_step _ _ _ _ _ (on_child_run _ _ _ _ Hm)). Qed.
Lemma on_child_err {B} x (k : A → M (F * Sys) B) s σ' :
  m (child f, s) = (Err x, σ') → ∃ σ'', (on_child child set_child m ≫= k) (f, s) = (Err x, σ'').
Proof. destruct σ' as [e' s']. intros Hm. eexists. exact (M_bind_err _ _ _ _ _ (on_child_run _ _ _ _ Hm)). Qed.
End Child.

Lemma self_get_step {B} (k : F → M (F * Sys) B) f s : (on_self get ≫= k) (f, s) = k f (f, s).
Proof. done. Qed.
Lemma self_modify_step {B} (g : F → F) (k : unit → M (F * Sys) B) f s :
  (on_self (modify g) ≫= k) (f, s) = k () (g f, s).
Proof. done. Qed.
Lemma on_sys_step {A B} (m : M Sys A) a (k : A → M (F * Sys) B) f s s' :
  m s = (Ok a, s') → (on_sys m ≫= k) (f, s) = k a (f, s').
Proof. intros Hm. unfold mbind, M_bind, on_sys, zoom. simpl. by rewrite Hm. Qed.
Lemma on_sys_err {A B} (m : M Sys A) x (k : A → M (F * Sys) B) f s s' :
  m s = (Err x, s') → (on_sys m ≫= k) (f, s) = (Err x, (f, s')).
Proof. intros Hm. unfold mbind, M_bind, on_sys, zoom. simpl. by rewrite Hm. Qed.
End Steps.

(** A call on a child at the head of the program, given what the child answers. *)
Ltac child_step H :=
  match goal with
  | |- context [(on_child ?c ?sc ?m ≫= ?k) (?f, ?s)] => rewrite (on_child_step c sc f m _ k s _ _ H)
  end.
Ltac child_err H :=
  match goal with
  | |- context [(on_child ?c ?sc ?m ≫= ?k) (?f, ?s)] => exact (on_child_err c sc f m _ k s _ H)
  end.

(** ** What an executor delivers *)

(** The answers to successive calls: records, and then null or an exception. *)
Inductive rows :=
| Done
| Fail (e : exn)
| Row (r : Rec) (rest : rows).

Fixpoint rows_of (rs : list Rec) : rows :=
  match rs with [] => Done | r :: rs => Row r (rows_of rs) end.
(** What a loop over all records sees. *)
Fixpoint all_rows (t : rows) : res (list Rec) :=
  match t with
  | Done => Ok []
  | Fail e => Err e
  | Row r rest => rs ← all_rows rest; Ok (r :: rs)
  end.
Fixpoint rows_len (t : rows) : nat := match t with Row _ rest => S (rows_len rest) | _ => O end.

Lemma all_rows_of rs : all_rows (rows_of rs) = Ok rs.
Proof. induction rs as [|r rs IH]; [done|]. simpl. by rewrite IH. Qed.
Lemma rows_len_of rs : rows_len (rows_of rs) = length rs.
Proof. induction rs as [|r rs IH]; [done|]. simpl. by rewrite IH. Qed.

Section Delivers.
Context {Sys E : Type} `{Executor Sys E}.
(** The invariant of the system. Between two calls anything may happen to the
    system that keeps it. *)
Variable I : Sys → Prop.

(** Every further call returns null, whatever it changes in the executor. *)
Definition only_null (P : E → Prop) : Prop :=
  ∀ e s, P e → I s → ∃ e' s', Next (e, s) = (Ok None, (e', s')) ∧ I s' ∧ P e'.
Definition exhausted (e : E) : Prop := ∃ P, only_null P ∧ P e.

Lemma exhausted_next e s : exhausted e → I s →
  ∃ e' s', Next (e, s) = (Ok None, (e', s')) ∧ I s' ∧ exhausted e'.
Proof.
  intros (P & HP & He) Hs. destruct (HP e s He Hs) as (e' & s' & Hn & Hs' & He').
  exists e', s'. repeat split; try done. by exists P.
Qed.

Fixpoint delivers (e : E) (t : rows) : Prop :=
  match t with
  | Done => ∀ s, I s → ∃ e' s', Next (e, s) = (Ok None, (e', s')) ∧ I s' ∧ exhausted e'
  | Fail x => ∀ s, I s → ∃ σ', Next (e, s) = (Err x, σ')
  | Row r rest => ∀ s, I s → ∃ e' s', Next (e, s) = (Ok (Some r), (e', s')) ∧ I s' ∧ delivers e' rest
  end.

Lemma exhausted_delivers e : exhausted e → delivers e Done.
Proof. intros He s Hs. by apply exhausted_next. Qed.

(** What an executor delivers, from a state in which the first call answers as
    in [e]. *)
Lemma delivers_via e t :
  (∀ s, I s → (∃ e' s', Next (e, s) = Next (e', s') ∧ I s' ∧ delivers e' t) ∨
              (∃ x σ', t = Fail x ∧ Next (e, s) = (Err x, σ'))) → delivers e t.
Proof.
  intros Hv. destruct t as [|x|r t]; intros s Hs; destruct (Hv s Hs) as [(e' & s' & -> & Hs' & Hd)|(y & σ' & ? & Hn)];
    simplify_eq; try apply (Hd s' Hs'). eauto.
Qed.

(** An executor that returns collected records by their index, after the first. *)
Fixpoint rows_map (f : Rec → res Rec) (rs : list Rec) : rows :=
  match rs with
  | [] => Done
  | r :: rs => match f r with Ok r => Row r (rows_map f rs) | Err x => Fail x end
  end.

Lemma delivers_collected (state : nat → E) (rs : list Rec) (out : Rec → res Rec) :
  (∀ k s, (0 < k)%nat → I s → match out <$> rs !! k with
                | Some (Ok r) => Next (state k, s) = (Ok (Some r), (state (S k), s))
                | Some (Err x) => ∃ σ', Next (state k, s) = (Err x, σ')
                | None => Next (state k, s) = (Ok None, (state k, s))
                end) →
  ∀ k, (0 < k)%nat → delivers (state k) (rows_map out (drop k rs)).
Proof.
  intros Hn k. remember (drop k rs) as rest eqn:Hr. revert k Hr. induction rest as [|r rest IH]; intros k Hr Hpos.
  - assert (rs !! k = None) as Hk.
    { apply lookup_ge_None. pose proof (f_equal length Hr) as Hl. rewrite length_drop in Hl. simpl in Hl. lia. }
    apply exhausted_delivers. exists (λ e, e = state k). split; [|done].
    intros ? s -> Hs. specialize (Hn k s Hpos Hs). rewrite Hk in Hn. exists (state k), s. auto.
  - assert (rs !! k = Some r) as Hk by (rewrite <- (Nat.add_0_r k), <- lookup_drop, <- Hr; done).
    cbn [rows_map]. destruct (out r) as [r'|x] eqn:Ho; intros s Hs; specialize (Hn k s Hpos Hs); rewrite Hk in Hn; simpl in Hn;
      rewrite Ho in Hn; [|done].
    exists (state (S k)), s. split; [done|]. split; [done|]. apply IH; [|lia].
    by rewrite (drop_S _ _ _ Hk) in Hr; injection Hr.
Qed.

(** A loop over all records ends after at most one call more than records. *)
Lemma drain_run fuel t : ∀ e s, delivers e t → (rows_len t < fuel)%nat → I s →
  match all_rows t with
  | Ok rs => ∃ e' s', drain fuel (e, s) = (Ok rs, (e', s')) ∧ I s' ∧ exhausted e'
  | Err x => ∃ σ', drain fuel (e, s) = (Err x, σ')
  end.
Proof.
  revert fuel. induction t as [|x|r t IH]; intros [|fuel] e s Hd Hf Hs; simpl in Hf; try lia; cbn [drain all_rows].
  - destruct (Hd s Hs) as (e' & s' & Hn & Hs' & He). rewrite (M_bind_step _ _ _ _ _ Hn). by exists e', s'.
  - destruct (Hd s Hs) as (σ' & Hn). rewrite (M_bind_err _ _ _ _ _ Hn). eauto.
  - destruct (Hd s Hs) as (e1 & s1 & Hn & Hs1 & Hr). rewrite (M_bind_step _ _ _ _ _ Hn).
    specialize (IH fuel e1 s1 Hr ltac:(lia) Hs1). destruct (all_rows t) as [rs|x]; simpl.
    + destruct IH as (e' & s' & Hd' & IH). rewrite (M_bind_step _ _ _ _ _ Hd'). by exists e', s'.
    + destruct IH as (σ' & Hd'). rewrite (M_bind_err _ _ _ _ _ Hd'). eauto.
Qed.

End Delivers.
#[global] Arguments delivers {Sys E _} I e t.
#[global] Arguments exhausted {Sys E _} I e.
#[global] Arguments only_null {Sys E _} I P.
