(* ===== verification/Pipeline.v ===== *)
(** [src/src/executors]: the executors that take the records of their child one
    by one: filter, projection and limit, and the source of a VALUES list. *)
From S2P Require Import Prelude Memory Types Value Bitmap Record Like Expressions Executor.

(** ** [FilterExecutor] *)

Section Filter.
Context {Sys E : Type} `{Executor Sys E} `{Ecma} (fuel : nat).

Record FilterExecutor := mkFilter { filter_predicate_ : OperatorExpression; filter_child_ : E }.
Definition set_filter_child (c : E) (f : FilterExecutor) : FilterExecutor := mkFilter (filter_predicate_ f) c.

(** [!value.IsNull() && value.GetValue<bool>()] *)
Definition keeps (predicate : OperatorExpression) (record : Rec) : res bool :=
  value ← Evaluate predicate (Some record);
  if IsNull value then Ok false else GetValue_bool value.

Fixpoint filter_loop (fuel : nat) : M (FilterExecutor * Sys) (option Rec) :=
  match fuel with
  | O => throw (Undefined "the loop does not end")
  | S fuel =>
      record ← on_child filter_child_ set_filter_child Next;
      match record with
      | None => mret None
      | Some record =>
          f ← on_self get;
          kept ← lift (keeps (filter_predicate_ f) record);
          if kept : bool then mret (Some record) else filter_loop fuel
      end
  end.

#[export] Instance FilterExecutor_ : Executor Sys FilterExecutor := {
  Init := on_child filter_child_ set_filter_child Init;
  Next := filter_loop fuel
}.

(** What a filter delivers: the records on which the predicate is true. *)
Fixpoint filter_rows (predicate : OperatorExpression) (t : rows) : rows :=
  match t with
  | Row r rest =>
      match keeps predicate r with
      | Ok true => Row r (filter_rows predicate rest)
      | Ok false => filter_rows predicate rest
      | Err x => Fail x
      end
  | _ => t
  end.

Variable I : Sys → Prop.

Lemma filter_loop_run n p : ∀ t c s, delivers I c t → (rows_len t < n)%nat → I s →
  match filter_rows p t with
  | Done => ∃ c' s', filter_loop n (mkFilter p c, s) = (Ok None, (mkFilter p c', s')) ∧ I s' ∧ exhausted I c'
  | Fail x => ∃ σ', filter_loop n (mkFilter p c, s) = (Err x, σ')
  | Row r rest => ∃ c' s' t', filter_loop n (mkFilter p c, s) = (Ok (Some r), (mkFilter p c', s')) ∧ I s' ∧
      delivers I c' t' ∧ rest = filter_rows p t' ∧ (rows_len t' < rows_len t)%nat
  end.
Proof.
  induction n as [|n IH]; intros t c s Hd Hn Hs; [lia|].
  destruct t as [|x|r t]; cbn [filter_rows filter_loop].
  - destruct (Hd s Hs) as (c' & s' & Hx & Hs' & He).
    child_step Hx. by exists c', s'.
  - destruct (Hd s Hs) as (σ' & Hx). child_err Hx.
  - destruct (Hd s Hs) as (c1 & s1 & Hx & Hs1 & Hr). simpl in Hn.
    child_step Hx. rewrite self_get_step. cbn [set_filter_child filter_predicate_].
    destruct (keeps p r) as [[]|x]; [by exists c1, s1, t; auto 6 with lia| |by eexists].
    specialize (IH t c1 s1 Hr ltac:(lia) Hs1). rewrite (lift_step (Ok false) false) by done.
    destruct (filter_rows p t); [done|done|]. destruct IH as (c' & s' & t' & ? & ? & ? & ? & ?).
    exists c', s', t'. simpl. auto 6 with lia.
Qed.

Lemma filter_exhausted p c : exhausted I c → (0 < fuel)%nat → exhausted I (mkFilter p c).
Proof.
  intros Hc Hf. exists (λ f, exhausted I (filter_child_ f)). split; [|done]. clear c p Hc.
  intros [p c] s He Hs. destruct (exhausted_next I c s He Hs) as (c' & s' & Hn & Hs' & Hc').
  exists (mkFilter p c'), s'. cbn [Next FilterExecutor_]. rewrite <- (Nat.succ_pred_pos fuel) by done.
  cbn [filter_loop]. by child_step Hn.
Qed.

(** A filter delivers the records of its child on which the predicate is true;
    a NULL predicate is not, and an error of the predicate ends the query. *)
Lemma filter_delivers p t c : delivers I c t → (rows_len t < fuel)%nat →
  delivers I (mkFilter p c) (filter_rows p t).
Proof.
  remember (rows_len t) as n eqn:Hn. revert t c Hn. induction (lt_wf n) as [n _ IH]. intros t c -> Hd Hf.
  pose proof (λ s, filter_loop_run fuel p t c s Hd Hf) as Hrun. destruct (filter_rows p t) as [|x|r rest].
  - intros s Hs. destruct (Hrun s Hs) as (c' & s' & Hl & Hs' & He). exists (mkFilter p c'), s'.
    repeat split; try done. apply filter_exhausted; [done|lia].
  - exact Hrun.
  - intros s Hs. destruct (Hrun s Hs) as (c' & s' & t' & Hl & Hs' & Hd' & -> & Hlen).
    exists (mkFilter p c'), s'. repeat split; try done. eapply IH; [exact Hlen|done|done|lia].
Qed.
End Filter.
#[global] Arguments FilterExecutor E : clear implicits.
#[global] Arguments mkFilter {E} _ _.

(** ** [ProjectionExecutor] *)

Section Projection.
Context {Sys E : Type} `{Executor Sys E} `{Ecma}.

Record ProjectionExecutor := mkProjection { proj_exprs_ : list OperatorExpression; proj_child_ : E }.
Definition set_proj_child (c : E) (f : ProjectionExecutor) : ProjectionExecutor := mkProjection (proj_exprs_ f) c.

(** The loop over the expressions; the values of a record or, for a VALUES list,
    of no record. *)
Fixpoint evaluate_all (exprs : list OperatorExpression) (record : option Rec) : res (list Value) :=
  match exprs with
  | [] => Ok []
  | expr :: exprs => v ← Evaluate expr record; vs ← evaluate_all exprs record; Ok (v :: vs)
  end.
Definition project (exprs : list OperatorExpression) (record : Rec) : res Rec :=
  values ← evaluate_all exprs (Some record); mk_Record values (GetRid record).

#[export] Instance ProjectionExecutor_ : Executor Sys ProjectionExecutor := {
  Init := on_child proj_child_ set_proj_child Init;
  Next := record ← on_child proj_child_ set_proj_child Next;
          match record with
          | None => mret None
          | Some record => f ← on_self get; record ← lift (project (proj_exprs_ f) record); mret (Some record)
          end
}.

Fixpoint project_rows (exprs : list OperatorExpression) (t : rows) : rows :=
  match t with
  | Row r rest => match project exprs r with Ok r => Row r (project_rows exprs rest) | Err x => Fail x end
  | _ => t
  end.

Variable I : Sys → Prop.

Lemma projection_delivers es t : ∀ c, delivers I c t → delivers I (mkProjection es c) (project_rows es t).
Proof.
  induction t as [|x|r t IH]; intros c Hd; cbn [project_rows].
  - intros s Hs. destruct (Hd s Hs) as (c' & s' & Hn & Hs' & Hc'). exists (mkProjection es c'), s'. cbn [Next ProjectionExecutor_].
    child_step Hn. repeat split; try done. exists (λ f, exhausted I (proj_child_ f)). split; [|done].
    clear. intros [es c] s He Hs. destruct (exhausted_next I c s He Hs) as (c' & s' & Hn & Hs' & Hc').
    exists (mkProjection es c'), s'. cbn [Next ProjectionExecutor_]. by child_step Hn.
  - intros s Hs. destruct (Hd s Hs) as (σ' & Hn). cbn [Next ProjectionExecutor_]. child_err Hn.
  - destruct (project es r) as [r'|x] eqn:Hp; intros s Hs; destruct (Hd s Hs) as (c' & s' & Hn & Hs' & Hr);
      cbn [Next ProjectionExecutor_]; child_step Hn; rewrite self_get_step; cbn [proj_exprs_ set_proj_child]; rewrite Hp.
    + exists (mkProjection es c'), s'. auto.
    + by eexists.
Qed.
End Projection.
#[global] Arguments ProjectionExecutor E : clear implicits.
#[global] Arguments mkProjection {E} _ _.

(** ** [LimitExecutor] *)

Section Limit.
Context {Sys E : Type} `{Executor Sys E}.

(** [count] and [offset] are [int]s, which [<] converts to [uint32_t]. *)
Record LimitExecutor := mkLimit {
  count_ : Z; offset_ : Z; limit_count_ : option Z; limit_offset_ : option Z; limit_child_ : E
}.
Definition LimitExecutor_new (limit_count limit_offset : option Z) (c : E) : LimitExecutor :=
  mkLimit 0 0 limit_count limit_offset c.
Definition set_limit_child (c : E) (f : LimitExecutor) : LimitExecutor :=
  mkLimit (count_ f) (offset_ f) (limit_count_ f) (limit_offset_ f) c.

Definition incr_offset : M (LimitExecutor * Sys) unit :=
  f ← on_self get; z ← lift (signed (offset_ f + 1));
  on_self (modify (λ f, mkLimit (count_ f) z (limit_count_ f) (limit_offset_ f) (limit_child_ f))).
Definition incr_count : M (LimitExecutor * Sys) unit :=
  f ← on_self get; z ← lift (signed (count_ f + 1));
  on_self (modify (λ f, mkLimit z (offset_ f) (limit_count_ f) (limit_offset_ f) (limit_child_ f))).

(** The loop runs [limit_offset] times in all. *)
Fixpoint offset_loop (fuel : nat) : M (LimitExecutor * Sys) unit :=
  match fuel with
  | O => throw (Undefined "the loop does not end")
  | S fuel =>
      f ← on_self get;
      if u32 (offset_ f) <? default 0 (limit_offset_ f) then
        incr_offset ;;
        on_child limit_child_ set_limit_child Next ;;
        offset_loop fuel
      else mret ()
  end.

Definition limit_take : M (LimitExecutor * Sys) (option Rec) :=
  f ← on_self get;
  match limit_count_ f with
  | Some limit_count =>
      if u32 (count_ f) <? limit_count
      then incr_count ;; on_child limit_child_ set_limit_child Next
      else mret None
  | None => on_child limit_child_ set_limit_child Next
  end.

Definition limit_next : M (LimitExecutor * Sys) (option Rec) :=
  f ← on_self get;
  offset_loop (S (Z.to_nat (default 0 (limit_offset_ f)))) ;;
  limit_take.

#[export] Instance LimitExecutor_ : Executor Sys LimitExecutor := {
  Init := on_child limit_child_ set_limit_child Init;
  Next := limit_next
}.

(** The skipped calls fail when one of them does, whatever the limit. *)
Fixpoint skip_rows (n : nat) (t : rows) : res rows :=
  match n, t with
  | S n, Row _ rest => skip_rows n rest
  | S _, Fail x => Err x
  | _, _ => Ok t
  end.
Fixpoint take_rows (n : nat) (t : rows) : rows :=
  match n, t with
  | O, _ => Done
  | S n, Row r rest => Row r (take_rows n rest)
  | _, _ => t
  end.
Definition limit_rows (limit_count limit_offset : option Z) (t : rows) : rows :=
  match skip_rows (Z.to_nat (default 0 limit_offset)) t with
  | Ok t => match limit_count with Some n => take_rows (Z.to_nat n) t | None => t end
  | Err x => Fail x
  end.

Variable I : Sys → Prop.
Context (limit_count limit_offset : option Z).
Let o : Z := default 0 limit_offset.
Hypothesis Hcount : ∀ n, limit_count = Some n → 0 <= n < 2 ^ 31.
Hypothesis Hoffset : 0 <= o < 2 ^ 31.

Let post (j : Z) (c : E) : LimitExecutor := mkLimit j o limit_count limit_offset c.

Lemma skip_done n : skip_rows n Done = Ok Done.
Proof. by destruct n. Qed.

(** The loop skips what is left of the offset. *)
Lemma offset_loop_run n : ∀ k j t c s, delivers I c t → I s → (n < k)%nat → 0 <= j → j + Z.of_nat n = o →
  let run := offset_loop k (mkLimit 0 j limit_count limit_offset c, s) in
  match skip_rows n t with
  | Ok t' => ∃ c' s', run = (Ok (), (post 0 c', s')) ∧ I s' ∧ delivers I c' t'
  | Err x => ∃ σ', run = (Err x, σ')
  end.
Proof using All.
  induction n as [|n IH]; intros [|k] j t c s Hd Hs Hk Hj Ho; try lia; cbn [offset_loop skip_rows]; rewrite self_get_step;
    cbn [offset_ limit_offset_]; fold o; destruct (signed_ok j ltac:(lia)) as [_ ->].
  - assert (j = o) as -> by lia. rewrite Z.ltb_irrefl. by exists c, s.
  - destruct (Z.ltb_spec j o); [|lia]. unfold incr_offset. rewrite !bind_assoc_run, self_get_step. cbn [offset_].
    destruct (signed_ok (j + 1) ltac:(lia)) as [-> _]. rewrite bind_assoc_run, (lift_step _ _ _ _ eq_refl), self_modify_step.
    cbn [count_ limit_count_ limit_offset_ limit_child_].
    destruct t as [|x|r t].
    + destruct (Hd s Hs) as (c' & s' & Hn & Hs' & He). child_step Hn.
      specialize (IH k (j + 1) Done c' s'). rewrite skip_done in IH. apply IH; first [done|by apply exhausted_delivers|cbn [offset_]; lia].
    + destruct (Hd s Hs) as (σ' & Hn). child_err Hn.
    + destruct (Hd s Hs) as (c' & s' & Hn & Hs' & Hr). child_step Hn. apply IH; first [done|cbn [offset_]; lia].
Qed.

(** After the offset: one call of the child as long as the count is not reached. *)
Definition room (j : Z) : bool := match limit_count with Some n => j <? n | None => true end.
Definition counted (j : Z) : Z := match limit_count with Some _ => j + 1 | None => j end.

Lemma post_loop k j c s : offset_loop (S k) (post j c, s) = (Ok (), (post j c, s)).
Proof using All.
  cbn [offset_loop]. rewrite self_get_step. cbn [offset_ limit_offset_ post]. fold o.
  destruct (signed_ok o Hoffset) as [_ ->]. by rewrite Z.ltb_irrefl.
Qed.

Lemma post_next j c s : 0 <= j → (∀ n, limit_count = Some n → j <= n) →
  limit_next (post j c, s) =
  if room j then on_child limit_child_ set_limit_child Next (post (counted j) c, s) else (Ok None, (post j c, s)).
Proof using All.
  intros Hj Hn. unfold limit_next. rewrite self_get_step, (M_bind_step _ _ _ _ _ (post_loop _ j c s)).
  unfold limit_take. rewrite self_get_step. change (limit_count_ (post j c)) with limit_count.
  change (count_ (post j c)) with j. unfold room, counted.
  destruct limit_count as [n|]; [|done]. specialize (Hn n eq_refl). specialize (Hcount n eq_refl).
  destruct (signed_ok j) as [_ ->]; [lia|]. destruct (Z.ltb_spec j n); [|done].
  unfold incr_count. rewrite bind_assoc_run, self_get_step. change (count_ (post j c)) with j.
  destruct (signed_ok (j + 1)) as [-> _]; [lia|]. rewrite bind_assoc_run, (lift_step _ _ _ _ eq_refl). done.
Qed.

Lemma child_next j c s u c' s' : Next (c, s) = (u, (c', s')) →
  on_child limit_child_ set_limit_child Next (post j c, s) = (u, (post j c', s')).
Proof. exact (on_child_run limit_child_ set_limit_child (post j c) Next u s c' s'). Qed.

Lemma counted_ok j : 0 <= j → (∀ n, limit_count = Some n → j <= n) → room j = true →
  0 <= counted j ∧ ∀ n, limit_count = Some n → counted j <= n.
Proof using All.
  unfold room, counted. destruct limit_count; intros ? Hn Hr; [|done]. specialize (Hn z eq_refl).
  apply Z.ltb_lt in Hr. split; [lia|]. intros ? [= <-]. lia.
Qed.

Lemma post_exhausted j c : 0 <= j → (∀ n, limit_count = Some n → j <= n) → exhausted I c ∨ room j = false →
  exhausted I (post j c).
Proof using All.
  intros Hj Hn Hc.
  exists (λ f, ∃ j c, f = post j c ∧ 0 <= j ∧ (∀ n, limit_count = Some n → j <= n) ∧ (exhausted I c ∨ room j = false)).
  split; [|by exists j, c]. clear j c Hj Hn Hc.
  intros f s (j & c & -> & Hj & Hn & Hc) Hs. cbn [Next LimitExecutor_]. rewrite post_next by done.
  destruct (room j) eqn:Hr; [|by exists (post j c), s; eauto 10].
  destruct Hc as [Hc|]; [|done]. destruct (exhausted_next I c s Hc Hs) as (c' & s' & Hx & Hs' & Hc').
  rewrite (child_next _ _ _ _ _ _ Hx). exists (post (counted j) c'), s'. split; [done|]. split; [done|].
  exists (counted j), c'. destruct (counted_ok j Hj Hn Hr). auto.
Qed.

(** What is left to deliver after [j] records. *)
Definition left_over (j : Z) (t : rows) : rows :=
  match limit_count with Some n => take_rows (Z.to_nat (n - j)) t | None => t end.

Lemma left_over_room j t : 0 <= j → (∀ n, limit_count = Some n → j <= n) →
  left_over j t = if room j then match t with Row r t => Row r (left_over (counted j) t) | _ => t end else Done.
Proof using All.
  intros Hj Hn. unfold left_over, room, counted. destruct limit_count as [n|]; [|by destruct t].
  specialize (Hn n eq_refl). destruct (Z.ltb_spec j n).
  - replace (Z.to_nat (n - j)) with (S (Z.to_nat (n - (j + 1)))) by lia. by destruct t.
  - replace (Z.to_nat (n - j)) with 0%nat by lia. by destruct t.
Qed.

Lemma post_delivers t : ∀ j c, delivers I c t → 0 <= j → (∀ n, limit_count = Some n → j <= n) →
  delivers I (post j c) (left_over j t).
Proof using All.
  induction t as [|x|r t IH]; intros j c Hd Hj Hn; rewrite left_over_room by done; destruct (room j) eqn:Hr;
    try (apply exhausted_delivers, post_exhausted; [done|done|by right]);
    pose proof (counted_ok j Hj Hn Hr) as [Hj' Hn']; intros s Hs; cbn [Next LimitExecutor_]; rewrite post_next, Hr by done.
  - destruct (Hd s Hs) as (c' & s' & Hx & Hs' & He). rewrite (child_next _ _ _ _ _ _ Hx).
    exists (post (counted j) c'), s'. split; [done|]. split; [done|]. apply post_exhausted; auto.
  - destruct (Hd s Hs) as ([c' s'] & Hx). rewrite (child_next _ _ _ _ _ _ Hx). eauto.
  - destruct (Hd s Hs) as (c' & s' & Hx & Hs' & Hd'). rewrite (child_next _ _ _ _ _ _ Hx).
    exists (post (counted j) c'), s'. auto.
Qed.

(** LIMIT and OFFSET deliver that part of the records. *)
Lemma limit_delivers c t : delivers I c t →
  delivers I (LimitExecutor_new limit_count limit_offset c) (limit_rows limit_count limit_offset t).
Proof using All.
  intros Hd. apply delivers_via. intros s Hs. cbn [Next LimitExecutor_]. unfold limit_next at 1 3. rewrite self_get_step.
  cbn [limit_offset_ LimitExecutor_new]. unfold limit_rows. fold o.
  assert (∀ n, limit_count = Some n → 0 <= n) as Hn by (intros n Hl; specialize (Hcount n Hl); lia).
  pose proof (offset_loop_run (Z.to_nat o) (S (Z.to_nat o)) 0 t c s Hd Hs ltac:(lia) ltac:(lia) ltac:(lia)) as Hx.
  cbv zeta in Hx. destruct (skip_rows (Z.to_nat o) t) as [t'|x].
  - left. destruct Hx as (c' & s' & Hx & Hs' & Hd'). exists (post 0 c'), s'. split; [|split; [done|]].
    + rewrite (M_bind_step _ _ _ _ _ Hx). unfold limit_next. rewrite self_get_step.
      by rewrite (M_bind_step _ _ _ _ _ (post_loop _ 0 c' s')).
    + pose proof (post_delivers t' 0 c' Hd' ltac:(lia) Hn) as Hp. unfold left_over in Hp.
      destruct limit_count; [by rewrite Z.sub_0_r in Hp|done].
  - right. destruct Hx as (σ' & Hx). exists x, σ'. split; [done|]. exact (M_bind_err _ _ _ _ _ Hx).
Qed.
End Limit.
#[global] Arguments LimitExecutor E : clear implicits.

(** ** [ValuesExecutor] *)

Section Values.
Context {Sys : Type} `{Ecma}.

Record ValuesExecutor := mkValues { value_lists_ : list (list OperatorExpression); cursor_ : nat }.
Definition ValuesExecutor_new (values : list (list OperatorExpression)) : ValuesExecutor := mkValues values 0.

Definition values_record (exprs : list OperatorExpression) : res Rec :=
  values ← evaluate_all exprs None; mk_Record values (mkRid 0 0).

#[export] Instance ValuesExecutor_ : Executor Sys ValuesExecutor := {
  Init := mret ();
  Next := f ← on_self get;
          match value_lists_ f !! cursor_ f with
          | None => mret None
          | Some exprs =>
              record ← lift (values_record exprs);
              on_self (modify (λ f, mkValues (value_lists_ f) (S (cursor_ f)))) ;;
              mret (Some record)
          end
}.

Fixpoint values_rows (values : list (list OperatorExpression)) : rows :=
  match values with
  | [] => Done
  | exprs :: values => match values_record exprs with Ok r => Row r (values_rows values) | Err x => Fail x end
  end.

Variable I : Sys → Prop.

(** A VALUES list delivers its records in order. *)
Lemma values_delivers values : ∀ done_,
  delivers I (mkValues (done_ ++ values) (length done_)) (values_rows values).
Proof.
  assert (∀ l n, l !! n = None → only_null I (λ f, f = mkValues l n)) as Hend.
  { intros l n Hl ? s -> Hs. exists (mkValues l n), s. cbn [Next ValuesExecutor_]. rewrite self_get_step.
    cbn [value_lists_ cursor_]. by rewrite Hl. }
  induction values as [|es values IH]; intros done_; cbn [values_rows].
  - apply exhausted_delivers. exists (λ f, f = mkValues (done_ ++ []) (length done_)). split; [|done].
    apply Hend. rewrite app_nil_r. by apply lookup_ge_None.
  - assert (∀ s, Next (mkValues (done_ ++ es :: values) (length done_), s) =
      (record ← lift (values_record es);
       on_self (modify (λ f, mkValues (value_lists_ f) (S (cursor_ f)))) ;; mret (Some record))
        (mkValues (done_ ++ es :: values) (length done_), s)) as Hn.
    { intros s. cbn [Next ValuesExecutor_]. rewrite self_get_step. cbn [value_lists_ cursor_]. by rewrite list_lookup_middle. }
    destruct (values_record es) as [r|x]; intros s Hs; rewrite Hn; [|by eexists].
    exists (mkValues (done_ ++ es :: values) (S (length done_))), s. split; [done|]. split; [done|].
    specialize (IH (done_ ++ [es])). rewrite <- app_assoc, length_app, Nat.add_1_r in IH. exact IH.
Qed.
End Values.
