(* ===== verification/OrderBy.v ===== *)
(** [src/src/executors/orderby_executor.h] and [.cpp]: ORDER BY collects the
    records of its child and sorts them with [std::sort], once per key and the
    first key last. *)
From Stdlib Require Import Sorted.
From S2P Require Import Prelude Memory Types Value Bitmap Record Like Expressions Executor Pipeline.

(** ** [std::sort] *)

(** The comparison may throw. Equivalent elements may end in any order. *)
Class StdSort := std_sort : ∀ {A : Type}, (A → A → res bool) → list A → res (list A).

Section Order.
Context {A : Type} (lt : A → A → bool).

(** A strict weak order on the elements of a list. *)
Record strict_weak_order (l : list A) : Prop := {
  swo_irreflexive : ∀ x, x ∈ l → lt x x = false;
  swo_transitive : ∀ x y z, x ∈ l → y ∈ l → z ∈ l → lt x y = true → lt y z = true → lt x z = true;
  swo_incomparable : ∀ x y z, x ∈ l → y ∈ l → z ∈ l →
    lt x y = false → lt y x = false → lt y z = false → lt z y = false → lt x z = false
}.

(** No element is less than an earlier one. *)
Definition ordered_by : list A → Prop := StronglySorted (λ x y, lt y x = false).

Lemma swo_negative l x y z : strict_weak_order l → x ∈ l → y ∈ l → z ∈ l →
  lt x y = false → lt y z = false → lt x z = false.
Proof.
  intros Ho Hx Hy Hz Hxy Hyz. destruct (lt x z) eqn:Hxz; [|done].
  destruct (lt z y) eqn:Hzy; [by rewrite (swo_transitive l Ho x z y) in Hxy|].
  destruct (lt y x) eqn:Hyx; [by rewrite (swo_transitive l Ho y x z) in Hyz|].
  by rewrite (swo_incomparable l Ho x y z) in Hxz.
Qed.

Lemma swo_subset l l' : (∀ x, x ∈ l' → x ∈ l) → strict_weak_order l → strict_weak_order l'.
Proof. intros Hs []. split; eauto 10. Qed.
End Order.

(** What the standard promises: the elements are only moved, and they end sorted
    when the comparison is a strict weak order (otherwise the behaviour is
    undefined). *)
Class StdSortSpec `{StdSort} := {
  std_sort_moves : ∀ A (cmp : A → A → res bool) l l', std_sort cmp l = Ok l' → l' ≡ₚ l;
  std_sort_sorts : ∀ A (cmp : A → A → res bool) (lt : A → A → bool) l,
    (∀ x y, x ∈ l → y ∈ l → cmp x y = Ok (lt x y)) → strict_weak_order lt l →
    ∃ l', std_sort cmp l = Ok l' ∧ ordered_by lt l'
}.

(** *** Two sorts that keep the promise *)

Section Insertion.
Context {A : Type} (cmp : A → A → res bool).

Fixpoint insert_in (x : A) (l : list A) : res (list A) :=
  match l with
  | [] => Ok [x]
  | y :: l => less ← cmp x y; if less : bool then Ok (x :: y :: l) else l' ← insert_in x l; Ok (y :: l')
  end.
(** Sorting the elements of [l] one after the other into [sorted]. *)
Fixpoint insert_each (l sorted : list A) : res (list A) :=
  match l with
  | [] => Ok sorted
  | x :: l => sorted ← insert_in x sorted; insert_each l sorted
  end.

Variable lt : A → A → bool.
Variable all : list A.
Hypothesis Hcmp : ∀ x y, x ∈ all → y ∈ all → cmp x y = Ok (lt x y).
Hypothesis Hlt : strict_weak_order lt all.

Lemma insert_in_run x l : x ∈ all → Forall (.∈ all) l → ordered_by lt l →
  ∃ l', insert_in x l = Ok l' ∧ l' ≡ₚ x :: l ∧ ordered_by lt l'.
Proof using All.
  intros Hx Hl Ho. induction Ho as [|y l Ho IH Hy].
  - exists [x]. repeat constructor.
  - apply Forall_cons in Hl as [Hya Hl]. cbn [insert_in]. rewrite Hcmp by done. simpl.
    destruct (lt x y) eqn:Hxy.
    + exists (x :: y :: l). split; [done|]. split; [done|].
      assert (lt y x = false) as Hyx.
      { destruct (lt y x) eqn:Hyx; [|done]. pose proof (swo_irreflexive lt all Hlt x Hx) as Hxx.
        by rewrite (swo_transitive lt all Hlt x y x) in Hxx. }
      repeat constructor; try done. apply Forall_forall. intros z Hz.
      apply (swo_negative lt all z y x); try done; [by apply (proj1 (Forall_forall _ _) Hl)|by apply (proj1 (Forall_forall _ _) Hy)].
    + destruct (IH Hl) as (l' & -> & Hp & Ho'). exists (y :: l'). split; [done|].
      split; [by rewrite Hp, Permutation_swap|]. constructor; [done|]. rewrite Hp. by constructor.
Qed.

Lemma insert_each_run l : ∀ sorted, Forall (.∈ all) l → Forall (.∈ all) sorted → ordered_by lt sorted →
  ∃ l', insert_each l sorted = Ok l' ∧ l' ≡ₚ l ++ sorted ∧ ordered_by lt l'.
Proof using All.
  induction l as [|x l IH]; intros sorted Hl Hs Ho; cbn [insert_each]; [by exists sorted|].
  apply Forall_cons in Hl as [Hx Hl]. destruct (insert_in_run x sorted Hx Hs Ho) as (s' & -> & Hp & Ho').
  simpl. destruct (IH s' Hl) as (l' & -> & Hp' & Ho''); [rewrite Hp; by constructor|done|].
  exists l'. split; [done|]. split; [|done]. by rewrite Hp', Hp, Permutation_middle.
Qed.
End Insertion.

Definition insertion_sort : StdSort := λ _ cmp l, insert_each cmp l [].
(** The same on the reversed list, which exchanges equivalent elements. *)
Definition reversing_sort : StdSort := λ _ cmp l, insert_each cmp (reverse l) [].

Lemma insert_in_moves {A} (cmp : A → A → res bool) x l : ∀ l', insert_in cmp x l = Ok l' → l' ≡ₚ x :: l.
Proof.
  induction l as [|y l IH]; cbn [insert_in]; intros l' Hl; [by injection Hl as <-|].
  apply bind_Ok in Hl as ([] & _ & Hl); [by injection Hl as <-|]. apply bind_Ok in Hl as (l1 & H1 & [= <-]).
  by rewrite (IH _ H1), Permutation_swap.
Qed.
Lemma insert_each_moves {A} (cmp : A → A → res bool) l : ∀ sorted l', insert_each cmp l sorted = Ok l' → l' ≡ₚ l ++ sorted.
Proof.
  induction l as [|x l IH]; cbn [insert_each]; intros sorted l' Hl; [by injection Hl as <-|].
  apply bind_Ok in Hl as (s & H1 & H2). rewrite (IH _ _ H2), (insert_in_moves _ _ _ _ H1). symmetry. apply Permutation_middle.
Qed.

Lemma insertion_sort_spec : @StdSortSpec insertion_sort.
Proof.
  split.
  - intros A cmp l l' Hl. by rewrite (insert_each_moves _ _ _ _ Hl), app_nil_r.
  - intros A cmp lt l Hc Ho. destruct (insert_each_run cmp lt l Hc Ho l []) as (l' & Hl' & _ & Ho'); [|done|constructor|eauto].
    by apply Forall_forall.
Qed.
Lemma reversing_sort_spec : @StdSortSpec reversing_sort.
Proof.
  split.
  - intros A cmp l l' Hl. by rewrite (insert_each_moves _ _ _ _ Hl), app_nil_r, reverse_Permutation.
  - intros A cmp lt l Hc Ho. destruct (insert_each_run cmp lt l Hc Ho (reverse l) []) as (l' & Hl' & _ & Ho');
      [|done|constructor|eauto]. apply Forall_forall. intros x. by rewrite elem_of_reverse.
Qed.

(** ** [OrderByExecutor] *)

(** [enum class OrderByType] *)
Inductive OrderByType := DEFAULT | ASC | DESC.

Section Code.
Context {Sys E : Type} `{Executor Sys E} `{Ecma} `{StdSort} (fuel : nat).

Record OrderByExecutor := mkOrderBy {
  order_bys_ : list (OrderByType * OperatorExpression); ob_records_ : list Rec; ob_cnt_ : Z; ob_child_ : E
}.
Definition OrderByExecutor_new (order_bys : list (OrderByType * OperatorExpression)) (c : E) : OrderByExecutor :=
  mkOrderBy order_bys [] 0 c.
Definition set_ob_child (c : E) (f : OrderByExecutor) : OrderByExecutor :=
  mkOrderBy (order_bys_ f) (ob_records_ f) (ob_cnt_ f) c.
Definition set_ob_records (records : list Rec) : M (OrderByExecutor * Sys) unit :=
  on_self (modify (λ f, mkOrderBy (order_bys_ f) records (ob_cnt_ f) (ob_child_ f))).

(** The lambda [cmp]. *)
Definition order_cmp (it : OrderByType * OperatorExpression) (a b : Rec) : res bool :=
  x ← Evaluate it.2 (Some a); y ← Evaluate it.2 (Some b);
  match it.1 with DEFAULT | ASC => Less x y | DESC => Greater x y end.

(** The loop from [rbegin] to [rend]. *)
Fixpoint sort_all (order_bys : list (OrderByType * OperatorExpression)) (records : list Rec) : res (list Rec) :=
  match order_bys with
  | [] => Ok records
  | it :: order_bys => records ← sort_all order_bys records; std_sort (order_cmp it) records
  end.

(** [cnt++; return records[cnt - 1];] *)
Definition ob_take : M (OrderByExecutor * Sys) (option Rec) :=
  f ← on_self get;
  cnt ← lift (signed (ob_cnt_ f + 1));
  on_self (modify (λ f, mkOrderBy (order_bys_ f) (ob_records_ f) cnt (ob_child_ f))) ;;
  match ob_records_ f !! Z.to_nat (ob_cnt_ f) with
  | Some r => mret (Some r)
  | None => throw (Undefined "vector index out of range")
  end.

Definition ob_next : M (OrderByExecutor * Sys) (option Rec) :=
  f ← on_self get;
  if ob_cnt_ f =? 0 then
    records ← on_child ob_child_ set_ob_child (drain fuel);
    set_ob_records (ob_records_ f ++ records) ;;
    if decide (ob_records_ f ++ records = []) then mret None
    else
      records ← lift (sort_all (order_bys_ f) (ob_records_ f ++ records));
      set_ob_records records ;;
      ob_take
  else if ob_cnt_ f <? Z.of_nat (length (ob_records_ f)) then ob_take
  else mret None.

#[export] Instance OrderByExecutor_ : Executor Sys OrderByExecutor := {
  Init := on_child ob_child_ set_ob_child Init;
  Next := ob_next
}.

(** ** What it delivers *)

Definition order_rows (order_bys : list (OrderByType * OperatorExpression)) (t : rows) : rows :=
  match (rs ← all_rows t; if decide (rs = []) then Ok [] else sort_all order_bys rs) with
  | Ok rs => rows_of rs
  | Err x => Fail x
  end.

Variable I : Sys → Prop.
Context (its : list (OrderByType * OperatorExpression)).

(** [j] records were returned. *)
Lemma ob_take_run rs j c s r : 0 <= j < 2 ^ 31 - 1 → rs !! Z.to_nat j = Some r →
  ob_take (mkOrderBy its rs j c, s) = (Ok (Some r), (mkOrderBy its rs (j + 1) c, s)).
Proof.
  intros Hj Hr. unfold ob_take. rewrite self_get_step. cbn [ob_cnt_].
  destruct (signed_ok (j + 1)) as [-> _]; [lia|]. rewrite (lift_step _ _ _ _ eq_refl), self_modify_step.
  cbn [ob_records_ order_bys_ ob_child_ ob_cnt_]. by rewrite Hr.
Qed.

Lemma ob_returning rs c k : Z.of_nat (length rs) < 2 ^ 31 → (0 < k ≤ length rs)%nat →
  delivers I (mkOrderBy its rs (Z.of_nat k) c) (rows_of (drop k rs)).
Proof.
  intros Hlen. remember (length rs - k)%nat as n eqn:Hn. revert k Hn. induction n as [|n IH]; intros k Hn Hk.
  - rewrite drop_ge by lia. apply exhausted_delivers. exists (λ f, f = mkOrderBy its rs (Z.of_nat k) c). split; [|done].
    intros ? s -> Hs. exists (mkOrderBy its rs (Z.of_nat k) c), s. cbn [Next OrderByExecutor_]. unfold ob_next.
    rewrite self_get_step. cbn [ob_cnt_ ob_records_]. destruct (Z.eqb_spec (Z.of_nat k) 0) as [?|_]; [lia|].
    by destruct (Z.ltb_spec (Z.of_nat k) (Z.of_nat (length rs))) as [?|_]; [lia|].
  - destruct (lookup_lt_is_Some_2 rs k) as [r Hr]; [lia|]. rewrite (drop_S _ _ _ Hr).
    intros s Hs. exists (mkOrderBy its rs (Z.of_nat k + 1) c), s. cbn [Next OrderByExecutor_]. unfold ob_next.
    rewrite self_get_step. cbn [ob_cnt_ ob_records_]. destruct (Z.eqb_spec (Z.of_nat k) 0) as [?|_]; [lia|].
    destruct (Z.ltb_spec (Z.of_nat k) (Z.of_nat (length rs))) as [_|?]; [|lia].
    rewrite (ob_take_run _ _ _ _ r); [|lia|by rewrite Nat2Z.id]. split; [done|]. split; [done|].
    replace (Z.of_nat k + 1) with (Z.of_nat (S k)) by lia. apply IH; lia.
Qed.

Lemma ob_empty_exhausted c : exhausted I c → (0 < fuel)%nat → exhausted I (mkOrderBy its [] 0 c).
Proof.
  intros Hc Hf. exists (λ f, ∃ c, f = mkOrderBy its [] 0 c ∧ exhausted I c). split; [|by exists c]. clear c Hc.
  intros ? s (c & -> & Hc) Hs. cbn [Next OrderByExecutor_]. unfold ob_next. rewrite self_get_step. cbn [ob_cnt_].
  change (0 =? 0) with true. cbv iota.
  destruct (drain_run I fuel Done c s (exhausted_delivers I c Hc) Hf Hs) as (c' & s' & Hd & Hs' & Hc').
  child_step Hd. exists (mkOrderBy its [] 0 c'), s'. eauto.
Qed.

Lemma sort_all_moves `{!StdSortSpec} rs : ∀ rs', sort_all its rs = Ok rs' → rs' ≡ₚ rs.
Proof.
  induction its as [|it its' IH]; intros rs' Hs; [by injection Hs as <-|].
  apply bind_Ok in Hs as (rs1 & G1 & G2). by rewrite (std_sort_moves _ _ _ _ G2), (IH _ G1).
Qed.

(** ORDER BY delivers the sorted records of its child. *)
Lemma order_by_delivers `{!StdSortSpec} c t : delivers I c t → (rows_len t < fuel)%nat → Z.of_nat (rows_len t) < 2 ^ 31 →
  delivers I (OrderByExecutor_new its c) (order_rows its t).
Proof.
  intros Hd Hf Hlen.
  assert (∀ s, I s → Next (OrderByExecutor_new its c, s) =
    (records ← on_child ob_child_ set_ob_child (drain fuel); set_ob_records records ;;
     if decide (records = []) then mret None
     else records ← lift (sort_all its records); set_ob_records records ;; ob_take) (OrderByExecutor_new its c, s)) as Hn.
  { intros s Hs. cbn [Next OrderByExecutor_]. unfold ob_next. by rewrite self_get_step. }
  pose proof (λ s, drain_run I fuel t c s Hd Hf) as Hx. unfold order_rows.
  assert (length (match all_rows t with Ok rs => rs | _ => [] end) ≤ rows_len t)%nat as Hl.
  { clear. induction t as [| |r t IH]; simpl; try lia. destruct (all_rows t); simpl in *; lia. }
  destruct (all_rows t) as [rs|x]; cbn [mbind res_bind].
  2: { intros s Hs. rewrite Hn by done. destruct (Hx s Hs) as (σ' & Hd'). child_err Hd'. }
  destruct (decide (rs = [])) as [->|Hne].
  - intros s Hs. rewrite Hn by done. destruct (Hx s Hs) as (c' & s' & Hd' & Hs' & Hc'). child_step Hd'.
    exists (mkOrderBy its [] 0 c'), s'. split; [done|]. split; [done|]. apply ob_empty_exhausted; [done|lia].
  - pose proof (sort_all_moves rs) as Hm. destruct (sort_all its rs) as [rs'|x] eqn:Hsort.
    + specialize (Hm rs' eq_refl). pose proof (Permutation_length Hm) as Hlen'.
      destruct rs' as [|r rs']; [by apply Permutation_nil_l in Hm|].
      intros s Hs. rewrite Hn by done. destruct (Hx s Hs) as (c' & s' & Hd' & Hs' & Hc'). child_step Hd'.
      unfold set_ob_records. rewrite self_modify_step. rewrite decide_False by done. rewrite Hsort, (lift_step _ _ _ _ eq_refl).
      rewrite self_modify_step. exists (mkOrderBy its (r :: rs') 1 c'), s'.
      split; [by apply (ob_take_run (r :: rs') 0 c' s')|]. split; [done|].
      apply (ob_returning (r :: rs') c' 1); simpl in *; lia.
    + intros s Hs. rewrite Hn by done. destruct (Hx s Hs) as (c' & s' & Hd' & Hs' & Hc'). child_step Hd'.
      unfold set_ob_records. rewrite self_modify_step. rewrite decide_False by done. rewrite Hsort. by eexists.
Qed.
End Code.

(** ** Sorted by the keys *)

Lemma string_compare_trans x : ∀ y z, (x ?= y)%string = Lt → (y ?= z)%string = Lt → (x ?= z)%string = Lt.
Proof.
  induction x as [|a x IH]; intros [|b y] [|c z]; simpl; try done. unfold Ascii.compare.
  destruct (N.compare_spec (Ascii.N_of_ascii a) (Ascii.N_of_ascii b)) as [Hab|Hab|Hab]; try done;
  destruct (N.compare_spec (Ascii.N_of_ascii b) (Ascii.N_of_ascii c)) as [Hbc|Hbc|Hbc]; try done;
  destruct (N.compare_spec (Ascii.N_of_ascii a) (Ascii.N_of_ascii c)) as [Hac|Hac|Hac]; try done; try lia. apply IH.
Qed.
Lemma string_compare_refl x : (x ?= x)%string = Eq.
Proof. pose proof (String.compare_antisym x x) as Ha. by destruct (x ?= x)%string. Qed.

(** The stored values of one type that ORDER BY sorts: integers, or strings. *)
Definition key_of (t : Type_) (v : Value) : Prop := value_wf v ∧ type_ v = t ∧ (t = INT ∨ IsString t = true).

(** Their order. *)
Definition compare_keys (v w : Value) : comparison := default Eq (value_order v w).

Lemma key_cases t v : key_of t v → (t = INT ∧ ∃ z, v = Value_int z) ∨ (IsString t = true ∧ ∃ s, v = Value_string s t).
Proof.
  intros (Hv & Ht & Hk). apply value_wf_cases in Hv.
  destruct Hv as [[? ->]|[[x [-> _]]|[[? [-> _]]|[[x [-> _]]|(x&t1&->&Ht1&_)]]]]; simpl in Ht; subst t;
    destruct Hk; simplify_eq; eauto.
Qed.

Section Keys.
Context (t : Type_) (v w : Value) (Hv : key_of t v) (Hw : key_of t w).

Lemma compare_keys_antisym : compare_keys w v = CompOpp (compare_keys v w).
Proof using All.
  destruct (key_cases t v Hv) as [[? (x & ->)]|[? (x & ->)]], (key_cases t w Hw) as [[? (y & ->)]|[? (y & ->)]]; simplify_eq; try done.
  - unfold compare_keys. simpl. apply Z.compare_antisym.
  - unfold compare_keys. simpl. apply String.compare_antisym.
Qed.
Lemma Less_keys : Less v w = Ok (bool_decide (compare_keys v w = Lt)).
Proof using All.
  destruct (key_cases t v Hv) as [[? (x & ->)]|[Ht (x & ->)]], (key_cases t w Hw) as [[? (y & ->)]|[? (y & ->)]]; simplify_eq; try done.
  - unfold Less, compare_keys. simpl. unfold Z.ltb. by destruct (x ?= y).
  - unfold Less, compare_keys. simpl. rewrite decide_True by done. unfold Strings.String.ltb.
    destruct t; try done; by destruct (x ?= y)%string.
Qed.
Lemma Greater_keys : Greater v w = Ok (bool_decide (compare_keys v w = Gt)).
Proof using All.
  destruct (key_cases t v Hv) as [[? (x & ->)]|[Ht (x & ->)]], (key_cases t w Hw) as [[? (y & ->)]|[? (y & ->)]]; simplify_eq; try done.
  - unfold Greater, compare_keys. simpl. unfold Z.ltb. rewrite (Z.compare_antisym x y). by destruct (x ?= y).
  - unfold Greater, compare_keys. simpl. rewrite decide_True by done. unfold Strings.String.ltb.
    rewrite (String.compare_antisym y x). destruct t; try done; by destruct (x ?= y)%string.
Qed.
End Keys.

Lemma compare_keys_refl t v : key_of t v → compare_keys v v = Eq.
Proof.
  intros Hv. destruct (key_cases t v Hv) as [[? (x & ->)]|[Ht (x & ->)]]; unfold compare_keys; simpl.
  - apply Z.compare_refl.
  - apply string_compare_refl.
Qed.
Lemma compare_keys_trans t u v w : key_of t u → key_of t v → key_of t w →
  compare_keys u v = Lt → compare_keys v w = Lt → compare_keys u w = Lt.
Proof.
  intros Hu Hv Hw. destruct (key_cases t u Hu) as [[? (x & ->)]|[? (x & ->)]], (key_cases t v Hv) as [[? (y & ->)]|[? (y & ->)]],
    (key_cases t w Hw) as [[? (z & ->)]|[? (z & ->)]]; simplify_eq; try done; unfold compare_keys; simpl.
  - rewrite !Z.compare_lt_iff. lia.
  - apply string_compare_trans.
Qed.
Lemma compare_keys_eq t u v : key_of t u → key_of t v → compare_keys u v = Eq → u = v.
Proof.
  intros Hu Hv. destruct (key_cases t u Hu) as [[? (x & ->)]|[? (x & ->)]], (key_cases t v Hv) as [[? (y & ->)]|[? (y & ->)]];
    simplify_eq; try done; unfold compare_keys; simpl.
  - by intros ->%Z.compare_eq_iff.
  - by intros ->%String.compare_eq_iff.
Qed.

(** The keys give a strict weak order in both directions. *)
Lemma keys_strict_weak {A} t (k : A → Value) (down : bool) l : (∀ x, x ∈ l → key_of t (k x)) →
  strict_weak_order (λ x y, bool_decide (compare_keys (k x) (k y) = if down then Gt else Lt)) l.
Proof.
  intros Hk. set (o := if down then Gt else Lt : comparison).
  assert (∀ x y, x ∈ l → y ∈ l → compare_keys (k x) (k y) = o ↔
    (if down then compare_keys (k y) (k x) else compare_keys (k x) (k y)) = Lt) as Ho.
  { intros x y Hx Hy. unfold o. destruct down; [|done].
    rewrite (compare_keys_antisym t (k x) (k y)) by auto. by destruct (compare_keys (k x) (k y)). }
  split.
  - intros x Hx. apply bool_decide_eq_false_2. rewrite (compare_keys_refl t) by auto. unfold o. by destruct down.
  - intros x y z Hx Hy Hz. rewrite !bool_decide_eq_true, !Ho by done. destruct down; intros G1 G2;
      [apply (compare_keys_trans t _ (k y))|apply (compare_keys_trans t _ (k y))]; auto.
  - intros x y z Hx Hy Hz. rewrite !bool_decide_eq_false, !Ho by done.
    assert (∀ x y, x ∈ l → y ∈ l → compare_keys (k x) (k y) ≠ Lt → compare_keys (k y) (k x) ≠ Lt → k x = k y) as Heq.
    { clear x y z Hx Hy Hz. intros x y Hx Hy. rewrite (compare_keys_antisym t (k x) (k y)) by auto.
      intros G1 G2. apply (compare_keys_eq t); auto. by destruct (compare_keys (k x) (k y)). }
    intros G1 G2 G3 G4. assert (k x = k y) as -> by (destruct down; auto). exact G3.
Qed.

(** [a] may come before [b] in the order of [it]. *)
Definition in_order `{Ecma} (it : OrderByType * OperatorExpression) (a b : Rec) : Prop :=
  ∀ v w, Evaluate it.2 (Some a) = Ok v → Evaluate it.2 (Some b) = Ok w →
    compare_keys v w ≠ match it.1 with DESC => Lt | _ => Gt end.

(** The keys of the records are stored integers, or stored strings of one type. *)
Definition sortable `{Ecma} (rs : list Rec) (it : OrderByType * OperatorExpression) : Prop :=
  ∃ t, ∀ r, r ∈ rs → ∃ v, Evaluate it.2 (Some r) = Ok v ∧ key_of t v.

Section Sorted.
Context `{Ecma} `{StdSortSpec}.

Lemma sort_one it rs : sortable rs it →
  ∃ rs', std_sort (order_cmp it) rs = Ok rs' ∧ rs' ≡ₚ rs ∧ StronglySorted (in_order it) rs'.
Proof.
  intros (t & Hk). set (k r := match Evaluate it.2 (Some r) with Ok v => v | Err _ => Value_null end).
  assert (∀ r, r ∈ rs → Evaluate it.2 (Some r) = Ok (k r) ∧ key_of t (k r)) as Hkey.
  { intros r Hr. destruct (Hk r Hr) as (v & Hv & Hkv). unfold k. by rewrite Hv. }
  set (down := match it.1 with DESC => true | _ => false end).
  set (lt x y := bool_decide (compare_keys (k x) (k y) = if down then Gt else Lt)).
  destruct (std_sort_sorts _ (order_cmp it) lt rs) as (rs' & Hs & Ho).
  - intros x y Hx Hy. unfold order_cmp. destruct (Hkey x Hx) as [-> Kx], (Hkey y Hy) as [-> Ky]. simpl.
    unfold lt, down. destruct it.1; [apply (Less_keys t)|apply (Less_keys t)|apply (Greater_keys t)]; done.
  - apply (keys_strict_weak t). intros x Hx. by apply Hkey.
  - pose proof (std_sort_moves _ _ _ _ Hs) as Hp. exists rs'. split; [done|]. split; [done|].
    assert (∀ x, x ∈ rs' → x ∈ rs) as Hin by (intros x; by rewrite Hp). clear Hs Hp.
    induction Ho as [|x l Ho IH Hx]; constructor; [apply IH; intros; apply Hin; by constructor|].
    apply Forall_forall. intros y Hy v w Hv Hw. apply (proj1 (Forall_forall _ _) Hx) in Hy as Hlt.
    destruct (Hkey x) as [Kx Kx']; [apply Hin; constructor|]. destruct (Hkey y) as [Ky Ky']; [apply Hin; by constructor|].
    rewrite Kx in Hv. rewrite Ky in Hw. injection Hv as <-. injection Hw as <-.
    apply bool_decide_eq_false in Hlt. rewrite (compare_keys_antisym t (k x) (k y)) in Hlt by done.
    unfold down in Hlt. destruct it.1, (compare_keys (k x) (k y)); done.
Qed.

Lemma sort_every its rs : Forall (sortable rs) its → ∃ rs', sort_all its rs = Ok rs' ∧ rs' ≡ₚ rs ∧
  match its with it :: _ => StronglySorted (in_order it) rs' | [] => rs' = rs end.
Proof.
  induction its as [|it its IH]; [by exists rs|]. intros [Hit Hits]%Forall_cons.
  destruct (IH Hits) as (rs1 & Hs1 & Hp1 & _). destruct (sort_one it rs1) as (rs' & Hs' & Hp' & Ho).
  { destruct Hit as (t & Hk). exists t. intros r. rewrite Hp1. apply Hk. }
  exists rs'. cbn [sort_all]. rewrite Hs1. simpl. split; [done|]. split; [by rewrite Hp', Hp1|done].
Qed.

(** C31: ORDER BY on integer or string keys ends and delivers the records of its
    child, each as often as the child delivered it, sorted by the first key:
    ascending by default, descending for DESC. *)
Theorem order_by_sorts {Sys E} `{Executor Sys E} (I : Sys → Prop) fuel (c : E) rs it its :
  delivers I c (rows_of rs) → (length rs < fuel)%nat → Z.of_nat (length rs) < 2 ^ 31 → Forall (sortable rs) (it :: its) →
  ∃ rs', @delivers Sys _ (OrderByExecutor_ fuel) I (OrderByExecutor_new (it :: its) c) (rows_of rs') ∧
    rs' ≡ₚ rs ∧ StronglySorted (in_order it) rs'.
Proof.
  intros Hd Hf Hlen Hs. destruct (sort_every _ _ Hs) as (rs' & Hrun & Hp & Ho). exists rs'. split; [|done].
  pose proof (order_by_delivers fuel I (it :: its) c (rows_of rs) Hd) as Hob. rewrite rows_len_of in Hob.
  unfold order_rows in Hob. rewrite all_rows_of in Hob. cbn [mbind res_bind] in Hob.
  destruct (decide (rs = [])) as [->|Hne]; [apply Permutation_nil_r in Hp as ->; by apply Hob|].
  rewrite Hrun in Hob. by apply Hob.
Qed.
End Sorted.

Definition ex_column (i : Z) : OperatorExpression := ColumnValue i INT "c" 4 true.
Definition ex_values2 (a b : Z) : list OperatorExpression := [Const (Value_int a); Const (Value_int b)].
Definition ex_rows `{Ecma} (l : list (Z * Z)) : list Rec :=
  (λ p, match values_record (ex_values2 p.1 p.2) with Ok r => r | Err _ => Record_default end) <$> l.

Lemma ex_values_deliver `{Ecma} (l : list (Z * Z)) :
  delivers (λ _ : unit, True) (ValuesExecutor_new ((λ p, ex_values2 p.1 p.2) <$> l)) (rows_of (ex_rows l)).
Proof.
  assert (values_rows ((λ p, ex_values2 p.1 p.2) <$> l) = rows_of (ex_rows l)) as <-.
  { induction l as [|p l IH]; [done|]. simpl. f_equal. exact IH. }
  apply (values_delivers _ _ []).
Qed.

Lemma ex_sortable `{Ecma} l i : i = 0 ∨ i = 1 → Forall (λ p, - 2 ^ 31 <= p.1 < 2 ^ 31 ∧ - 2 ^ 31 <= p.2 < 2 ^ 31) l →
  sortable (ex_rows l) (ASC, ex_column i).
Proof.
  intros Hi Hl. exists INT. intros r (p & -> & Hp)%list_elem_of_fmap. apply (proj1 (Forall_forall _ _) Hl) in Hp as [? ?].
  destruct Hi as [-> | ->]; [exists (Value_int p.1)|exists (Value_int p.2)]; repeat split; simpl; first [done|lia|by left].
Qed.

Lemma order_by_sorts_witness :
  ∃ rs', @delivers unit _ (@OrderByExecutor_ _ _ (@ValuesExecutor_ unit ex_ecma) ex_ecma insertion_sort 5) (λ _, True)
      (OrderByExecutor_new [(ASC, ex_column 0)] (ValuesExecutor_new ((λ p, ex_values2 p.1 p.2) <$> [(2, 1); (1, 2)])))
      (rows_of rs') ∧
    rs' ≡ₚ @ex_rows ex_ecma [(2, 1); (1, 2)] ∧ StronglySorted (@in_order ex_ecma (ASC, ex_column 0)) rs'.
Proof.
  refine (@order_by_sorts ex_ecma insertion_sort insertion_sort_spec _ _ _ _ 5 _ (@ex_rows ex_ecma [(2, 1); (1, 2)])
    (ASC, ex_column 0) [] _ _ _ _).
  - exact (@ex_values_deliver ex_ecma [(2, 1); (1, 2)]).
  - simpl. lia.
  - simpl. lia.
  - constructor; [|constructor]. apply (@ex_sortable ex_ecma); [by left|]. repeat constructor; simpl; lia.
Defined.

(** The second key is lost when [std::sort] exchanges the records the last sort
    finds equal, which it may: ORDER BY a, b then delivers (1, 2) before (1, 1). *)
Lemma order_by_second_key_lost `{Ecma} :
  ∃ sort : StdSort, @StdSortSpec sort ∧
    sort_all [(ASC, ex_column 0); (ASC, ex_column 1)] (ex_rows [(1, 1); (1, 2)]) = Ok (ex_rows [(1, 2); (1, 1)]).
Proof. exists reversing_sort. split; [apply reversing_sort_spec|by vm_compute]. Qed.
