(* ===== verification/Join.v ===== *)
(** [src/src/executors/nested_loop_join_executor.cpp] and
    [merge_join_executor.cpp]: both joins collect the records of their children,
    join them in memory and return the joined records one by one. *)
From Stdlib Require Import Sorted.
From S2P Require Import Prelude Memory Types Value Bitmap Record Like Expressions Executor Pipeline OrderBy.

Section Code.
Context {Sys E0 E1 : Type} `{Executor Sys E0} `{Executor Sys E1} `{Ecma} (fuel : nat).

(** The members of both classes; the plan is the condition or the two keys. *)
Record JoinExecutor (P : Type) := mkJoin {
  join_plan_ : P; join_cnt_ : Z; join_records_ : list Rec; join_left_ : E0; join_right_ : E1
}.
Arguments mkJoin {P} _ _ _ _ _.
Arguments join_plan_ {P} _. Arguments join_cnt_ {P} _. Arguments join_records_ {P} _.
Arguments join_left_ {P} _. Arguments join_right_ {P} _.
Definition JoinExecutor_new {P} (plan : P) (left : E0) (right : E1) : JoinExecutor P := mkJoin plan 0 [] left right.
Definition set_join_left {P} (c : E0) (f : JoinExecutor P) : JoinExecutor P :=
  mkJoin (join_plan_ f) (join_cnt_ f) (join_records_ f) c (join_right_ f).
Definition set_join_right {P} (c : E1) (f : JoinExecutor P) : JoinExecutor P :=
  mkJoin (join_plan_ f) (join_cnt_ f) (join_records_ f) (join_left_ f) c.

(** [r_now = *r0; r_now.Append( *r1)], and the record that is returned for it. *)
Definition copy_out (r : Rec) : res Rec :=
  record ← mk_Record (GetValues r) (GetRid r);
  Ok (SetXmin (SetXmax (SetCid (SetDeleted record (IsDeleted r)) (GetCid r)) (GetXmax r)) (GetXmin r)).

(** [cnt++; return records[cnt - 1]] *)
Definition join_take {P} : M (JoinExecutor P * Sys) (option Rec) :=
  f ← on_self get;
  cnt ← lift (signed (join_cnt_ f + 1));
  on_self (modify (λ f, mkJoin (join_plan_ f) cnt (join_records_ f) (join_left_ f) (join_right_ f))) ;;
  match join_records_ f !! Z.to_nat (join_cnt_ f) with
  | Some r => r ← lift (copy_out r); mret (Some r)
  | None => throw (Undefined "vector index out of range")
  end.
Definition set_join_records {P} (records : list Rec) : M (JoinExecutor P * Sys) unit :=
  on_self (modify (λ f, mkJoin (join_plan_ f) (join_cnt_ f) records (join_left_ f) (join_right_ f))).

Definition join_Init {P} : M (JoinExecutor P * Sys) unit :=
  on_child join_left_ set_join_left Init ;; on_child join_right_ set_join_right Init.

(** *** [NestedLoopJoinExecutor] *)

Fixpoint join_with (condition : OperatorExpression) (r0 : Rec) (records1 : list Rec) : res (list Rec) :=
  match records1 with
  | [] => Ok []
  | r1 :: records1 =>
      value ← EvaluateJoin condition r0 r1;
      joined ← GetValue_bool value;
      if joined : bool then r_now ← Append r0 r1; rest ← join_with condition r0 records1; Ok (r_now :: rest)
      else join_with condition r0 records1
  end.
Fixpoint join_all (condition : OperatorExpression) (records0 records1 : list Rec) : res (list Rec) :=
  match records0 with
  | [] => Ok []
  | r0 :: records0 =>
      first ← join_with condition r0 records1; rest ← join_all condition records0 records1; Ok (first ++ rest)
  end.

Definition nested_next : M (JoinExecutor OperatorExpression * Sys) (option Rec) :=
  f ← on_self get;
  if join_cnt_ f =? 0 then
    records0 ← on_child join_left_ set_join_left (drain fuel);
    records1 ← on_child join_right_ set_join_right (drain fuel);
    if decide (records0 = [] ∨ records1 = []) then mret None
    else
      records ← lift (join_all (join_plan_ f) records0 records1);
      set_join_records (join_records_ f ++ records) ;;
      if decide (join_records_ f ++ records = [])
      then
        cnt ← lift (signed (join_cnt_ f + 1));
        on_self (modify (λ f, mkJoin (join_plan_ f) cnt (join_records_ f) (join_left_ f) (join_right_ f))) ;;
        mret None
      else join_take
  else if join_cnt_ f <? Z.of_nat (length (join_records_ f)) then join_take
  else mret None.

#[export] Instance NestedLoopJoinExecutor : Executor Sys (JoinExecutor OperatorExpression) := {
  Init := join_Init; Next := nested_next
}.

(** *** [MergeJoinExecutor] *)

(** An iterator of the right records: a position, or the singular value an
    iterator has before it is assigned. *)
Definition right_iter : Type := option nat.
Definition singular {A} : res A := Err (Undefined "use of a singular iterator").
(** [*it]; the end cannot be dereferenced. *)
Definition deref (records : list Rec) (i : nat) : res Rec :=
  match records !! i with Some r => Ok r | None => Err (Undefined "dereference of the end iterator") end.

Section Merge.
Context (left_key right_key : OperatorExpression) (records0 records1 : list Rec).

Definition compare_at (op : Value → Value → res bool) (r s : nat) : res bool :=
  x ← deref records0 r; v ← Evaluate left_key (Some x);
  y ← deref records1 s; w ← Evaluate right_key (Some y);
  op v w.

(** [while (s != end && left_key( *r).Greater(right_key( *s))) s++;] *)
Fixpoint skip_right (fuel : nat) (r s : nat) : res nat :=
  match fuel with
  | O => Err (Undefined "the loop does not end")
  | S fuel =>
      if decide (s = length records1) then Ok s
      else greater ← compare_at Greater r s; if greater : bool then skip_right fuel r (S s) else Ok s
  end.
(** [while (r != end && left_key( *r).Less(right_key( *s))) r++;] *)
Fixpoint skip_left (fuel : nat) (r s : nat) : res nat :=
  match fuel with
  | O => Err (Undefined "the loop does not end")
  | S fuel =>
      if decide (r = length records0) then Ok r
      else less ← compare_at Less r s; if less : bool then skip_left fuel (S r) s else Ok r
  end.
(** The innermost loop, over [s_]. *)
Fixpoint match_right (fuel : nat) (r s_ : nat) : res (list Rec * nat) :=
  match fuel with
  | O => Err (Undefined "the loop does not end")
  | S fuel =>
      if decide (s_ = length records1) then Ok ([], s_)
      else
        equal ← compare_at Equal r s_;
        if equal : bool then
          r0 ← deref records0 r; r1 ← deref records1 s_; r_now ← Append r0 r1;
          '(records, s_) ← match_right fuel r (S s_); Ok (r_now :: records, s_)
        else Ok ([], s_)
  end.
(** The loop over the left records that are equal to [*s]. *)
Fixpoint match_left (fuel : nat) (r s : nat) (s_ : right_iter) : res (list Rec * nat * right_iter) :=
  match fuel with
  | O => Err (Undefined "the loop does not end")
  | S fuel =>
      if decide (s = length records1) then Ok ([], r, s_)
      else if decide (r = length records0) then Ok ([], r, s_)
      else
        equal ← compare_at Equal r s;
        if equal : bool then
          '(first, i) ← match_right (S (length records1)) r s;
          '(rest, r, s_) ← match_left fuel (S r) s (Some i);
          Ok (first ++ rest, r, s_)
        else Ok ([], r, s_)
  end.
(** The outer loop. *)
Fixpoint merge_loop (fuel : nat) (r : nat) (s : right_iter) : res (list Rec) :=
  match fuel with
  | O => Err (Undefined "the loop does not end")
  | S fuel =>
      if decide (r = length records0) then Ok []
      else match s with
      | None => singular
      | Some s =>
          if decide (s = length records1) then Ok []
          else
            s ← skip_right (S (length records1)) r s;
            r ← skip_left (S (length records0)) r s;
            '(records, r, s_) ← match_left (S (length records0)) r s None;
            rest ← merge_loop fuel r s_;
            Ok (records ++ rest)
      end
  end.
End Merge.

Definition merge (keys : OperatorExpression * OperatorExpression) (records0 records1 : list Rec) : res (list Rec) :=
  merge_loop keys.1 keys.2 records0 records1 (S (length records0 + length records1)) 0 (Some 0%nat).

Definition merge_next : M (JoinExecutor (OperatorExpression * OperatorExpression) * Sys) (option Rec) :=
  f ← on_self get;
  if join_cnt_ f =? 0 then
    records0 ← on_child join_left_ set_join_left (drain fuel);
    records1 ← on_child join_right_ set_join_right (drain fuel);
    records ← lift (merge (join_plan_ f) records0 records1);
    set_join_records (join_records_ f ++ records) ;;
    if decide (join_records_ f ++ records = []) then mret None else join_take
  else if join_cnt_ f <? Z.of_nat (length (join_records_ f)) then join_take
  else mret None.

#[export] Instance MergeJoinExecutor : Executor Sys (JoinExecutor (OperatorExpression * OperatorExpression)) := {
  Init := join_Init; Next := merge_next
}.
End Code.
#[global] Arguments JoinExecutor E0 E1 P : clear implicits.
#[global] Arguments mkJoin {E0 E1 P} _ _ _ _ _.
#[global] Arguments join_plan_ {E0 E1 P} _.
#[global] Arguments join_cnt_ {E0 E1 P} _.
#[global] Arguments join_records_ {E0 E1 P} _.
#[global] Arguments join_left_ {E0 E1 P} _.
#[global] Arguments join_right_ {E0 E1 P} _.

(** ** Joined records *)

(** [r] is [r0] followed by [r1]: their values, and the header and rid of [r0]. *)
Definition joins (r0 r1 r : Rec) : Prop :=
  rvalues_ r = rvalues_ r0 ++ rvalues_ r1 ∧ header_ r = header_ r0 ∧ rid_ r = rid_ r0.

(** Records that can be appended: the bitmap has the size of the record, and
    the 16-bit sizes suffice. *)
Definition appendable (r0 r1 : Rec) : Prop :=
  Bitmap_GetSize (null_bitmap_ r0) = Z.of_nat (length (rvalues_ r0)) ∧
  Z.of_nat (length (rvalues_ r0)) + Z.of_nat (length (rvalues_ r1)) < 2 ^ 16.

Lemma append_steps vs : ∀ b vs0 n, mem_len (bits_ b) = (n + 7) / 8 → n < 2 ^ 16 →
  Z.of_nat (length vs0) + Z.of_nat (length vs) <= n →
  ∃ b', fold_left append_step vs (Ok (b, vs0)) = Ok (b', vs0 ++ vs).
Proof.
  induction vs as [|v vs IH]; intros b vs0 n Hb Hn Hl; simpl in *; [exists b; by rewrite app_nil_r|].
  assert (in_range b (Z.of_nat (length vs0))) as Hr by (apply (in_range_size b _ n); [done|lia]).
  rewrite u16_small by lia.
  assert (∃ b1, (if IsNull v then Set_ b (Z.of_nat (length vs0)) else Clear b (Z.of_nat (length vs0))) = Ok b1 ∧
    mem_len (bits_ b1) = mem_len (bits_ b)) as (b1 & -> & Hb1).
  { destruct (IsNull v); [destruct (Set_bit b _ Hr) as (b1 & ? & _ & ? & _)|destruct (Clear_bit b _ Hr) as (b1 & ? & _ & ? & _)]; eauto. }
  simpl. destruct (IH b1 (vs0 ++ [v]) n) as (b' & Hb'); [by rewrite Hb1|done|rewrite length_app; simpl; lia|].
  exists b'. by rewrite Hb', <- app_assoc.
Qed.

Lemma Append_joins r0 r1 : appendable r0 r1 → ∃ r, Append r0 r1 = Ok r ∧ joins r0 r1 r.
Proof.
  intros [Hb Hl]. unfold Append. rewrite Hb, u16_small by lia.
  destruct (append_steps (rvalues_ r1) (Resize (null_bitmap_ r0) (Z.of_nat (length (rvalues_ r0)) + Z.of_nat (length (rvalues_ r1))))
    (rvalues_ r0) (Z.of_nat (length (rvalues_ r0)) + Z.of_nat (length (rvalues_ r1)))) as (b' & ->); [apply mem_len_Resize; lia|lia|lia|].
  eexists. split; [done|]. done.
Qed.

(** The returned copy has the same values, header and rid. *)
Lemma copy_out_joins r0 r1 r : appendable r0 r1 → joins r0 r1 r → ∃ r', copy_out r = Ok r' ∧ joins r0 r1 r'.
Proof.
  intros [_ Hl] (Hv & Hh & Hr). unfold copy_out, mk_Record, GetValues.
  assert (Z.of_nat (length (rvalues_ r)) < 2 ^ 16) as Hlen by (rewrite Hv, length_app; lia).
  destruct (set_nulls_spec (rvalues_ r) (mk_Bitmap (u16 (Z.of_nat (length (rvalues_ r))))) 0) as (b & Hb & _); [lia..| |].
  { rewrite u16_small by lia. apply mem_len_Resize. lia. }
  rewrite Hb. eexists. split; [done|]. unfold joins. rewrite <- Hv, <- Hh, <- Hr. by destruct r as [? ? [] ? ?].
Qed.

Lemma copy_out_all ps rs : Forall (λ p, appendable p.1 p.2) ps → Forall2 (λ p r, joins p.1 p.2 r) ps rs →
  ∃ rs', rows_map copy_out rs = rows_of rs' ∧ Forall2 (λ p r, joins p.1 p.2 r) ps rs'.
Proof.
  intros Ha Hj. induction Hj as [|p r ps rs Hp Hj IH]; [by exists []|]. apply Forall_cons in Ha as [Hap Ha].
  destruct (IH Ha) as (rs' & Hrs & Hj'). destruct (copy_out_joins _ _ _ Hap Hp) as (r' & Hr & Hp').
  exists (r' :: rs'). cbn [rows_map rows_of]. rewrite Hr, Hrs. split; [done|by constructor].
Qed.

(** ** What the joins deliver *)

Section Deliver.
Context {Sys E0 E1 : Type} `{Executor Sys E0} `{Executor Sys E1} `{Ecma} (fuel : nat) (I : Sys → Prop).

Lemma join_take_run {P} (plan : P) rs j c0 c1 (s : Sys) r : 0 <= j < 2 ^ 31 - 1 → rs !! Z.to_nat j = Some r →
  match copy_out r with
  | Ok r => join_take (mkJoin plan j rs c0 c1 : JoinExecutor E0 E1 P, s) = (Ok (Some r), (mkJoin plan (j + 1) rs c0 c1, s))
  | Err x => ∃ σ', join_take (mkJoin plan j rs c0 c1 : JoinExecutor E0 E1 P, s) = (Err x, σ')
  end.
Proof.
  intros Hj Hr. unfold join_take. rewrite self_get_step. cbn [join_cnt_].
  destruct (signed_ok (j + 1)) as [-> _]; [lia|]. rewrite (lift_step _ _ _ _ eq_refl), self_modify_step.
  cbn [join_records_ join_plan_ join_cnt_ join_left_ join_right_]. rewrite Hr. destruct (copy_out r); [done|]. by eexists.
Qed.

(** Once the records are collected, both joins return them one by one. *)
Lemma join_returning {P} `{Executor Sys (JoinExecutor E0 E1 P)} (plan : P) rs c0 c1 :
  (∀ k (s : Sys), (0 < k)%nat → Next (mkJoin plan (Z.of_nat k) rs c0 c1, s) =
     (if Z.of_nat k <? Z.of_nat (length rs) then join_take else mret None) (mkJoin plan (Z.of_nat k) rs c0 c1, s)) →
  Z.of_nat (length rs) < 2 ^ 31 - 1 →
  ∀ k, (0 < k)%nat → delivers I (mkJoin plan (Z.of_nat k) rs c0 c1) (rows_map copy_out (drop k rs)).
Proof.
  intros Hn Hlen. apply (delivers_collected I (λ k, mkJoin plan (Z.of_nat k) rs c0 c1)). intros k s Hk Hs. rewrite Hn by done.
  destruct (Z.ltb_spec (Z.of_nat k) (Z.of_nat (length rs))) as [Hi|Hi].
  - destruct (lookup_lt_is_Some_2 rs k) as [r Hr]; [lia|]. rewrite Hr. simpl.
    pose proof (join_take_run plan rs (Z.of_nat k) c0 c1 s r ltac:(lia)) as Ht. rewrite Nat2Z.id in Ht. specialize (Ht Hr).
    destruct (copy_out r); [|exact Ht]. by replace (Z.of_nat (S k)) with (Z.of_nat k + 1) by lia.
  - by rewrite (lookup_ge_None_2 rs k) by lia.
Qed.

(** The first call, once the joined records [rs] are known. *)
Lemma join_first {P} `{Executor Sys (JoinExecutor E0 E1 P)} (plan : P) rs e c0 c1 (s' : Sys) :
  (∀ k (s : Sys), (0 < k)%nat → Next (mkJoin plan (Z.of_nat k) rs c0 c1, s) =
     (if Z.of_nat k <? Z.of_nat (length rs) then join_take else mret None) (mkJoin plan (Z.of_nat k) rs c0 c1, s)) →
  Z.of_nat (length rs) < 2 ^ 31 - 1 → rs ≠ [] → I s' →
  ∀ s, Next (e, s) = join_take (mkJoin plan 0 rs c0 c1, s') →
  match rows_map copy_out rs with
  | Done => False
  | Fail x => ∃ σ', Next (e, s) = (Err x, σ')
  | Row r rest => ∃ e' s', Next (e, s) = (Ok (Some r), (e', s')) ∧ I s' ∧ delivers I e' rest
  end.
Proof.
  intros Hn Hlen Hne Hs' s Hx. destruct rs as [|r rs]; [done|]. cbn [rows_map].
  pose proof (join_take_run plan (r :: rs) 0 c0 c1 s' r ltac:(lia) eq_refl) as Ht.
  destruct (copy_out r) as [r'|x]; rewrite Hx; [|exact Ht].
  exists (mkJoin plan 1 (r :: rs) c0 c1), s'. split; [exact Ht|]. split; [done|].
  pose proof (join_returning plan (r :: rs) c0 c1 Hn Hlen 1 ltac:(lia)) as Hd. exact Hd.
Qed.

(** What both joins deliver, when [collect] joins the records. *)
Definition join_rows (collect : list Rec → list Rec → res (list Rec)) (t0 t1 : rows) : rows :=
  match (rs0 ← all_rows t0; rs1 ← all_rows t1; collect rs0 rs1) with
  | Ok rs => rows_map copy_out rs
  | Err x => Fail x
  end.

Section Both.
Context {P : Type} `{Executor Sys (JoinExecutor E0 E1 P)} (plan : P) (collect : list Rec → list Rec → res (list Rec)).
Hypothesis Hfuel : (0 < fuel)%nat.
Hypothesis Hrest : ∀ rs (c0 : E0) (c1 : E1) k (s : Sys), (0 < k)%nat → Next (mkJoin plan (Z.of_nat k) rs c0 c1, s) =
  (if Z.of_nat k <? Z.of_nat (length rs) then join_take else mret None) (mkJoin plan (Z.of_nat k) rs c0 c1, s).
(** The first call, by what the children deliver. *)
Hypothesis Hdrain0 : ∀ (c0 : E0) (c1 : E1) (s : Sys) x σ', drain fuel (c0, s) = (Err x, σ') → ∃ σ', Next (mkJoin plan 0 [] c0 c1, s) = (Err x, σ').
Hypothesis Hdrain1 : ∀ (c0 : E0) (c1 : E1) (s : Sys) rs0 c0' s1 x σ', drain fuel (c0, s) = (Ok rs0, (c0', s1)) → drain fuel (c1, s1) = (Err x, σ') →
  ∃ σ', Next (mkJoin plan 0 [] c0 c1, s) = (Err x, σ').
Hypothesis Hjoin : ∀ (c0 : E0) (c1 : E1) (s : Sys) rs0 c0' s1 rs1 c1' s2,
  drain fuel (c0, s) = (Ok rs0, (c0', s1)) → drain fuel (c1, s1) = (Ok rs1, (c1', s2)) →
  match collect rs0 rs1 with
  | Err x => ∃ σ', Next (mkJoin plan 0 [] c0 c1, s) = (Err x, σ')
  | Ok [] => Next (mkJoin plan 0 [] c0 c1, s) = (Ok None, (mkJoin plan 0 [] c0' c1', s2)) ∨
             Next (mkJoin plan 0 [] c0 c1, s) = (Ok None, (mkJoin plan 1 [] c0' c1', s2))
  | Ok rs => Next (mkJoin plan 0 [] c0 c1, s) = join_take (mkJoin plan 0 rs c0' c1', s2)
  end.
Hypothesis Hempty : collect [] [] = Ok [].

Lemma join_empty_exhausted c0 c1 j : exhausted I c0 → exhausted I c1 → j = 0 ∨ j = 1 → exhausted I (mkJoin plan j [] c0 c1).
Proof using All.
  intros He0 He1 Hj.
  exists (λ f, ∃ j c0 c1, f = mkJoin plan j [] c0 c1 ∧ (j = 0 ∨ j = 1) ∧ exhausted I c0 ∧ exhausted I c1).
  split; [|by exists j, c0, c1]. clear j c0 c1 He0 He1 Hj. intros ? s (j & c0 & c1 & -> & [->| ->] & He0 & He1) Hs.
  - destruct (drain_run I fuel Done c0 s (exhausted_delivers I c0 He0) Hfuel Hs) as (c0' & s1 & Hd0 & Hs1 & He0').
    destruct (drain_run I fuel Done c1 s1 (exhausted_delivers I c1 He1) Hfuel Hs1) as (c1' & s2 & Hd1 & Hs2 & He1').
    pose proof (Hjoin _ c1 _ _ _ _ _ _ _ Hd0 Hd1) as Hj. rewrite Hempty in Hj.
    destruct Hj as [Hj|Hj]; rewrite Hj; do 2 eexists; (split; [done|]); eauto 10.
  - exists (mkJoin plan 1 [] c0 c1), s. split; [exact (Hrest [] c0 c1 1%nat s ltac:(lia))|eauto 10].
Qed.

Lemma join_delivers (c0 : E0) (c1 : E1) t0 t1 : delivers I c0 t0 → delivers I c1 t1 →
  (rows_len t0 < fuel)%nat → (rows_len t1 < fuel)%nat →
  (∀ rs0 rs1 rs, all_rows t0 = Ok rs0 → all_rows t1 = Ok rs1 → collect rs0 rs1 = Ok rs → Z.of_nat (length rs) < 2 ^ 31 - 1) →
  delivers I (JoinExecutor_new plan c0 c1) (join_rows collect t0 t1).
Proof using All.
  intros Hd0 Hd1 Hf0 Hf1 Hlen. unfold JoinExecutor_new, join_rows.
  pose proof (λ s, drain_run I fuel t0 c0 s Hd0 Hf0) as Hx0. pose proof (λ s, drain_run I fuel t1 c1 s Hd1 Hf1) as Hx1.
  destruct (all_rows t0) as [rs0|x]; cbn [mbind res_bind].
  2: { intros s Hs. destruct (Hx0 s Hs) as (σ' & Hx). by eapply Hdrain0. }
  destruct (all_rows t1) as [rs1|x]; cbn [mbind res_bind].
  2: { intros s Hs. destruct (Hx0 s Hs) as (c0' & s1 & Hx & Hs1 & _). destruct (Hx1 s1 Hs1) as (σ' & Hx'). by eapply Hdrain1. }
  specialize (Hlen rs0 rs1). destruct (collect rs0 rs1) as [rs|x] eqn:Hc.
  2: { intros s Hs. destruct (Hx0 s Hs) as (c0' & s1 & G0 & Hs1 & _). destruct (Hx1 s1 Hs1) as (c1' & s2 & G1 & _).
       pose proof (Hjoin _ c1 _ _ _ _ _ _ _ G0 G1) as Hj. by rewrite Hc in Hj. }
  destruct rs as [|r rs].
  - intros s Hs. destruct (Hx0 s Hs) as (c0' & s1 & G0 & Hs1 & He0). destruct (Hx1 s1 Hs1) as (c1' & s2 & G1 & Hs2 & He1).
    pose proof (Hjoin _ c1 _ _ _ _ _ _ _ G0 G1) as Hj. rewrite Hc in Hj.
    destruct Hj as [Hj|Hj]; rewrite Hj; do 2 eexists; (split; [done|]; split; [done|]; apply join_empty_exhausted; auto).
  - specialize (Hlen (r :: rs) eq_refl eq_refl eq_refl).
    assert (∀ s, I s → match rows_map copy_out (r :: rs) with
      | Done => False
      | Fail x => ∃ σ', Next (mkJoin plan 0 [] c0 c1, s) = (Err x, σ')
      | Row r rest => ∃ e' s', Next (mkJoin plan 0 [] c0 c1, s) = (Ok (Some r), (e', s')) ∧ I s' ∧ delivers I e' rest end) as Hfirst.
    { intros s Hs. destruct (Hx0 s Hs) as (c0' & s1 & G0 & Hs1 & He0). destruct (Hx1 s1 Hs1) as (c1' & s2 & G1 & Hs2 & He1).
      pose proof (Hjoin _ c1 _ _ _ _ _ _ _ G0 G1) as Hj. rewrite Hc in Hj.
      exact (join_first plan (r :: rs) _ c0' c1' s2 (Hrest (r :: rs) c0' c1') Hlen ltac:(done) Hs2 s Hj). }
    destruct (rows_map copy_out (r :: rs)); [|exact Hfirst..].
    intros s Hs. destruct (Hfirst s Hs).
Qed.
End Both.

(** The nested loop joins nothing when a side is empty. *)
Definition nested_collect (condition : OperatorExpression) (rs0 rs1 : list Rec) : res (list Rec) :=
  if decide (rs0 = [] ∨ rs1 = []) then Ok [] else join_all condition rs0 rs1.

Lemma nested_delivers condition (c0 : E0) (c1 : E1) t0 t1 : delivers I c0 t0 → delivers I c1 t1 →
  (rows_len t0 < fuel)%nat → (rows_len t1 < fuel)%nat →
  (∀ rs0 rs1 rs, all_rows t0 = Ok rs0 → all_rows t1 = Ok rs1 → nested_collect condition rs0 rs1 = Ok rs →
     Z.of_nat (length rs) < 2 ^ 31 - 1) →
  @delivers Sys _ (NestedLoopJoinExecutor fuel) I (JoinExecutor_new condition c0 c1) (join_rows (nested_collect condition) t0 t1).
Proof.
  intros Hd0 Hd1 Hf0 Hf1. apply (@join_delivers _ (NestedLoopJoinExecutor fuel)); try done; try lia.
  - intros rs d0 d1 k s Hk. cbn [Next NestedLoopJoinExecutor]. unfold nested_next. rewrite self_get_step. cbn [join_cnt_ join_records_].
    destruct (Z.eqb_spec (Z.of_nat k) 0); [lia|]. by destruct (Z.ltb_spec (Z.of_nat k) (Z.of_nat (length rs))).
  - intros d0 d1 s x σ' Hx. cbn [Next NestedLoopJoinExecutor]. unfold nested_next. rewrite self_get_step. cbn [join_cnt_].
    change (0 =? 0) with true. cbv iota. child_err Hx.
  - intros d0 d1 s rs0 d0' s1 x σ' G0 G1. cbn [Next NestedLoopJoinExecutor]. unfold nested_next. rewrite self_get_step.
    cbn [join_cnt_]. change (0 =? 0) with true. cbv iota. child_step G0. child_err G1.
  - intros d0 d1 s rs0 d0' s1 rs1 d1' s2 G0 G1. unfold nested_collect.
    assert (Next (mkJoin condition 0 [] d0 d1, s) =
      (if decide (rs0 = [] ∨ rs1 = []) then mret None
       else records ← lift (join_all condition rs0 rs1); set_join_records records ;;
         if decide (records = [])
         then cnt ← lift (signed (0 + 1));
              on_self (modify (λ f, mkJoin (join_plan_ f) cnt (join_records_ f) (join_left_ f) (join_right_ f))) ;; mret None
         else join_take) (mkJoin condition 0 [] d0' d1', s2)) as ->.
    { cbn [Next NestedLoopJoinExecutor]. unfold nested_next. rewrite self_get_step. cbn [join_cnt_].
      change (0 =? 0) with true. cbv iota. child_step G0. child_step G1. done. }
    destruct (decide (rs0 = [] ∨ rs1 = [])); [by left|].
    destruct (join_all condition rs0 rs1) as [[|r rs]|x]; [by right|done|by eexists].
Qed.

Lemma merge_delivers keys (c0 : E0) (c1 : E1) t0 t1 : delivers I c0 t0 → delivers I c1 t1 →
  (rows_len t0 < fuel)%nat → (rows_len t1 < fuel)%nat →
  (∀ rs0 rs1 rs, all_rows t0 = Ok rs0 → all_rows t1 = Ok rs1 → merge keys rs0 rs1 = Ok rs →
     Z.of_nat (length rs) < 2 ^ 31 - 1) →
  @delivers Sys _ (MergeJoinExecutor fuel) I (JoinExecutor_new keys c0 c1) (join_rows (merge keys) t0 t1).
Proof.
  intros Hd0 Hd1 Hf0 Hf1. apply (@join_delivers _ (MergeJoinExecutor fuel)); try done; try lia.
  - intros rs d0 d1 k s Hk. cbn [Next MergeJoinExecutor]. unfold merge_next. rewrite self_get_step. cbn [join_cnt_ join_records_].
    destruct (Z.eqb_spec (Z.of_nat k) 0); [lia|]. by destruct (Z.ltb_spec (Z.of_nat k) (Z.of_nat (length rs))).
  - intros d0 d1 s x σ' Hx. cbn [Next MergeJoinExecutor]. unfold merge_next. rewrite self_get_step. cbn [join_cnt_].
    change (0 =? 0) with true. cbv iota. child_err Hx.
  - intros d0 d1 s rs0 d0' s1 x σ' G0 G1. cbn [Next MergeJoinExecutor]. unfold merge_next. rewrite self_get_step.
    cbn [join_cnt_]. change (0 =? 0) with true. cbv iota. child_step G0. child_err G1.
  - intros d0 d1 s rs0 d0' s1 rs1 d1' s2 G0 G1.
    assert (Next (mkJoin keys 0 [] d0 d1, s) =
      (records ← lift (merge keys rs0 rs1); set_join_records records ;;
       if decide (records = []) then mret None else join_take) (mkJoin keys 0 [] d0' d1', s2)) as ->.
    { cbn [Next MergeJoinExecutor]. unfold merge_next. rewrite self_get_step. cbn [join_cnt_].
      change (0 =? 0) with true. cbv iota. child_step G0. child_step G1. done. }
    destruct (merge keys rs0 rs1) as [[|r rs]|x]; [by left|done|by eexists].
Qed.
End Deliver.

(** ** The joined pairs *)

(** The pairs of records that match, in the order of the nested loops. *)
Definition matching (matches : Rec → Rec → bool) (rs0 rs1 : list Rec) : list (Rec * Rec) :=
  rs0 ≫= λ r0, pair r0 <$> filter (λ r1, matches r0 r1 = true) rs1.
Definition joined_pairs (ps : list (Rec * Rec)) (rs : list Rec) : Prop := Forall2 (λ p r, joins p.1 p.2 r) ps rs.
Definition all_appendable (rs0 rs1 : list Rec) : Prop := ∀ r0 r1, r0 ∈ rs0 → r1 ∈ rs1 → appendable r0 r1.

Lemma matching_elem m rs0 rs1 p : p ∈ matching m rs0 rs1 → p.1 ∈ rs0 ∧ p.2 ∈ rs1.
Proof.
  unfold matching. intros (r0 & Hp & Hr0)%list_elem_of_bind. apply list_elem_of_fmap in Hp as (r1 & -> & Hr1).
  by apply list_elem_of_filter in Hr1 as [_ Hr1].
Qed.
Lemma matching_appendable m rs0 rs1 : all_appendable rs0 rs1 → Forall (λ p, appendable p.1 p.2) (matching m rs0 rs1).
Proof. intros Ha. apply Forall_forall. intros p [H0 H1]%matching_elem. by apply Ha. Qed.
Lemma matching_length m rs0 rs1 : (length (matching m rs0 rs1) ≤ length rs0 * length rs1)%nat.
Proof.
  unfold matching. induction rs0 as [|r0 rs0 IH]; [done|]. rewrite bind_cons, length_app, length_fmap.
  pose proof (length_filter (λ r1, m r0 r1 = true) rs1). cbn [length]. lia.
Qed.

Section Nested.
Context `{Ecma} (condition : OperatorExpression) (matches : Rec → Rec → bool).

Lemma join_with_run r0 rs1 :
  (∀ r1, r1 ∈ rs1 → EvaluateJoin condition r0 r1 = Ok (Value_bool (matches r0 r1))) →
  (∀ r1, r1 ∈ rs1 → appendable r0 r1) →
  ∃ js, join_with condition r0 rs1 = Ok js ∧ joined_pairs (pair r0 <$> filter (λ r1, matches r0 r1 = true) rs1) js.
Proof.
  induction rs1 as [|r1 rs1 IH]; intros He Ha; [exists []; split; [done|constructor]|].
  destruct IH as (js & Hjs & Hj); [intros; apply He; by constructor|intros; apply Ha; by constructor|].
  cbn [join_with]. rewrite He by constructor. rs. unfold GetValue_bool. rewrite decide_True by done. cbn [get_bool val_ Value_bool]. rs.
  destruct (matches r0 r1) eqn:Hm.
  - destruct (Append_joins r0 r1) as (r & -> & Hr); [apply Ha; constructor|]. rs. rewrite Hjs. rs. exists (r :: js). split; [done|].
    rewrite filter_cons_True by done. by constructor.
  - exists js. split; [done|]. by rewrite filter_cons_False by congruence.
Qed.

Lemma nested_collect_run rs0 rs1 :
  (∀ r0 r1, r0 ∈ rs0 → r1 ∈ rs1 → EvaluateJoin condition r0 r1 = Ok (Value_bool (matches r0 r1))) → all_appendable rs0 rs1 →
  ∃ js, nested_collect condition rs0 rs1 = Ok js ∧ joined_pairs (matching matches rs0 rs1) js.
Proof.
  intros He Ha. unfold nested_collect. destruct (decide (rs0 = [] ∨ rs1 = [])) as [[->| ->]|_].
  - exists []. split; [done|constructor].
  - exists []. split; [done|]. assert (matching matches rs0 [] = []) as -> by (clear; by induction rs0). constructor.
  - induction rs0 as [|r0 rs0 IH]; [exists []; split; [done|constructor]|].
    destruct IH as (js & Hjs & Hj); [intros; apply He; [by constructor|done]|intros ????; apply Ha; [by constructor|done]|].
    destruct (join_with_run r0 rs1) as (js0 & Hjs0 & Hj0);
      [intros; apply He; [constructor|done]|intros; apply Ha; [constructor|done]|].
    cbn [join_all]. rewrite Hjs0. rs. rewrite Hjs. rs. exists (js0 ++ js). split; [done|]. by apply Forall2_app.
Qed.
End Nested.

(** C29: the nested loop join ends and delivers, in the order of the two loops,
    one record for each pair of records of its children on which the condition
    is true: the values of both, with the header and place of the left one. *)
Theorem nested_loop_join_joins {Sys E0 E1} `{Executor Sys E0, Executor Sys E1, Ecma} (I : Sys → Prop) fuel
    (c0 : E0) (c1 : E1) rs0 rs1 condition matches :
  delivers I c0 (rows_of rs0) → delivers I c1 (rows_of rs1) → (length rs0 < fuel)%nat → (length rs1 < fuel)%nat →
  Z.of_nat (length rs0 * length rs1) < 2 ^ 31 - 1 → all_appendable rs0 rs1 →
  (∀ r0 r1, r0 ∈ rs0 → r1 ∈ rs1 → EvaluateJoin condition r0 r1 = Ok (Value_bool (matches r0 r1))) →
  ∃ js, @delivers Sys _ (NestedLoopJoinExecutor fuel) I (JoinExecutor_new condition c0 c1) (rows_of js) ∧
    joined_pairs (matching matches rs0 rs1) js.
Proof.
  intros Hd0 Hd1 Hf0 Hf1 Hlen Ha He. destruct (nested_collect_run condition matches rs0 rs1 He Ha) as (js & Hjs & Hj).
  destruct (copy_out_all _ js (matching_appendable matches rs0 rs1 Ha) Hj) as (js' & Hjs' & Hj').
  exists js'. split; [|done]. rewrite <- Hjs'.
  pose proof (nested_delivers fuel I condition c0 c1 _ _ Hd0 Hd1) as Hd. rewrite !rows_len_of in Hd. unfold join_rows in Hd.
  rewrite !all_rows_of in Hd. cbn [mbind res_bind] in Hd. rewrite Hjs in Hd. apply Hd; [done|done|].
  intros ? ? rs [= <-] [= <-]. rewrite Hjs. intros [= <-]. apply Forall2_length in Hj.
  pose proof (matching_length matches rs0 rs1). lia.
Qed.

(** ** The merge join *)

Section Merge.
Context `{Ecma} (left_key right_key : OperatorExpression) (rs0 rs1 : list Rec) (t : Type_) (k0 k1 : Rec → Value).
Hypothesis Hk0 : ∀ r, r ∈ rs0 → Evaluate left_key (Some r) = Ok (k0 r) ∧ key_of t (k0 r).
Hypothesis Hk1 : ∀ r, r ∈ rs1 → Evaluate right_key (Some r) = Ok (k1 r) ∧ key_of t (k1 r).
Hypothesis Hs0 : StronglySorted (λ a b, compare_keys (k0 a) (k0 b) ≠ Gt) rs0.
Hypothesis Hs1 : StronglySorted (λ a b, compare_keys (k1 a) (k1 b) ≠ Gt) rs1.
(** Every left key has a partner. *)
Hypothesis Hall : ∀ r0, r0 ∈ rs0 → ∃ r1, r1 ∈ rs1 ∧ k1 r1 = k0 r0.
Hypothesis Happ : all_appendable rs0 rs1.

Definition equal_keys (r0 r1 : Rec) : bool := bool_decide (compare_keys (k0 r0) (k1 r1) = Eq).

Lemma compare_at_run op r s x y : rs0 !! r = Some x → rs1 !! s = Some y →
  compare_at left_key right_key rs0 rs1 op r s = op (k0 x) (k1 y).
Proof using All.
  intros Hr Hs. unfold compare_at, deref. rewrite Hr, Hs. rs.
  destruct (Hk0 x) as [-> _]; [by eapply list_elem_of_lookup_2|]. destruct (Hk1 y) as [-> _]; [by eapply list_elem_of_lookup_2|]. done.
Qed.

Lemma Equal_keys v w : key_of t v → key_of t w → Equal v w = Ok (bool_decide (compare_keys v w = Eq)).
Proof using All.
  intros Hv Hw. destruct (key_cases t v Hv) as [[? (x & ->)]|[Ht (x & ->)]], (key_cases t w Hw) as [[? (y & ->)]|[? (y & ->)]];
    simplify_eq; try done; unfold Equal, compare_keys; simpl.
  - rewrite Z.eqb_compare. by destruct (x ?= y).
  - rewrite decide_True by done.
    assert (String.eqb x y = bool_decide ((x ?= y)%string = Eq)) as ->; [|by destruct t].
    destruct (String.eqb_spec x y) as [->|Hne]; [by rewrite string_compare_refl|].
    symmetry. apply bool_decide_eq_false. by intros ?%String.compare_eq_iff.
Qed.

Lemma in0 r x : rs0 !! r = Some x → key_of t (k0 x).
Proof using All. intros Hr. apply Hk0. by eapply list_elem_of_lookup_2. Qed.
Lemma in1 s y : rs1 !! s = Some y → key_of t (k1 y).
Proof using All. intros Hr. apply Hk1. by eapply list_elem_of_lookup_2. Qed.

(** Later keys are not smaller. *)
Lemma later {k : Rec → Value} {rs : list Rec} i j x y : StronglySorted (λ a b, compare_keys (k a) (k b) ≠ Gt) rs →
  (i < j)%nat → rs !! i = Some x → rs !! j = Some y → compare_keys (k x) (k y) ≠ Gt.
Proof using All.
  intros Hs. revert i j. induction Hs as [|a l Hs IH Ha]; intros [|i] [|j] Hij Hx Hy; try lia; try done; simpl in *.
  - injection Hx as ->. by apply (proj1 (Forall_lookup _ _) Ha j).
  - by apply (IH i j); [lia|..].
Qed.

(** The partners of [x] begin at [s]. *)
Definition first_partner (x : Rec) (s : nat) : Prop :=
  (∃ y, rs1 !! s = Some y ∧ k1 y = k0 x) ∧ ∀ j y, (j < s)%nat → rs1 !! j = Some y → k1 y ≠ k0 x.

Lemma skip_right_run r x : rs0 !! r = Some x → ∀ fuel s,
  (length rs1 - s < fuel)%nat → (∀ j y, (j < s)%nat → rs1 !! j = Some y → k1 y ≠ k0 x) →
  ∃ s', skip_right left_key right_key rs0 rs1 fuel r s = Ok s' ∧ first_partner x s'.
Proof using All.
  intros Hx fuel. induction fuel as [|fuel IH]; intros s Hf Hlt; [lia|]. cbn [skip_right].
  destruct (Hall x) as (y & Hy & Hyx); [by eapply list_elem_of_lookup_2|]. apply list_elem_of_lookup_1 in Hy as [j Hj].
  assert (s ≤ j)%nat by (destruct (decide (j < s)%nat); [by destruct (Hlt j y)|lia]).
  pose proof (lookup_lt_Some _ _ _ Hj). destruct (decide (s = length rs1)); [lia|].
  destruct (lookup_lt_is_Some_2 rs1 s) as [z Hz]; [lia|]. pose proof (in0 r x Hx) as Kx. pose proof (in1 s z Hz) as Kz.
  rewrite (compare_at_run _ _ _ _ _ Hx Hz), (Greater_keys t) by done. rs.
  destruct (bool_decide_reflect (compare_keys (k0 x) (k1 z) = Gt)) as [Hg|Hg].
  - apply IH; [lia|]. intros i w Hi Hw. destruct (decide (i = s)) as [->|]; [|apply (Hlt i); [lia|done]].
    simplify_eq. intros He. rewrite He, (compare_keys_refl t) in Hg by done. done.
  - exists s. split; [done|]. split; [|done]. exists z. split; [done|].
    destruct (decide (s = j)) as [->|]; [by simplify_eq|].
    pose proof (later s j z y Hs1 ltac:(lia) Hz Hj) as Hn. rewrite Hyx in Hn.
    rewrite (compare_keys_antisym t (k1 z) (k0 x)) in Hg by done.
    apply (compare_keys_eq t); try done. by destruct (compare_keys (k1 z) (k0 x)).
Qed.

Lemma skip_left_run r x s y fuel : rs0 !! r = Some x → rs1 !! s = Some y → k1 y = k0 x → (0 < fuel)%nat →
  skip_left left_key right_key rs0 rs1 fuel r s = Ok r.
Proof using All.
  intros Hx Hy He Hf. destruct fuel as [|fuel]; [lia|]. cbn [skip_left]. pose proof (lookup_lt_Some _ _ _ Hx).
  rewrite decide_False by lia. rewrite (compare_at_run _ _ _ _ _ Hx Hy), (Less_keys t); [|by eapply in0|by eapply in1]. rs.
  rewrite He, (compare_keys_refl t) by (by eapply in0). done.
Qed.

(** The records from [s] to [e] are the partners of [x]. *)
Definition partners (x : Rec) (s e : nat) : Prop :=
  (s ≤ e ≤ length rs1)%nat ∧ filter (λ y, equal_keys x y = true) (drop s rs1) = take (e - s) (drop s rs1) ∧
  ∀ j y, (e ≤ j)%nat → rs1 !! j = Some y → compare_keys (k0 x) (k1 y) = Lt.

Lemma match_right_run r x : rs0 !! r = Some x → ∀ fuel s, (length rs1 - s < fuel)%nat → (s ≤ length rs1)%nat →
  (∀ y, rs1 !! s = Some y → compare_keys (k0 x) (k1 y) ≠ Gt) →
  ∃ js e, match_right left_key right_key rs0 rs1 fuel r s = Ok (js, e) ∧ partners x s e ∧
    joined_pairs (pair x <$> take (e - s) (drop s rs1)) js.
Proof using All.
  intros Hx fuel. induction fuel as [|fuel IH]; intros s Hf Hle Hs; [lia|]. cbn [match_right].
  destruct (decide (s = length rs1)) as [->|].
  { exists [], (length rs1). rewrite drop_ge by lia. split; [done|]. split; [|rewrite take_nil; constructor].
    split; [lia|]. rewrite drop_ge by lia. split; [by rewrite take_nil|]. intros j y Hj Hy%lookup_lt_Some. lia. }
  destruct (lookup_lt_is_Some_2 rs1 s) as [z Hz]; [lia|]. pose proof (in0 r x Hx) as Kx. pose proof (in1 s z Hz) as Kz.
  rewrite (compare_at_run _ _ _ _ _ Hx Hz), Equal_keys by done. rs. specialize (Hs z Hz).
  assert (∀ j y, (s ≤ j)%nat → rs1 !! j = Some y → compare_keys (k1 z) (k1 y) ≠ Gt) as Hlater.
  { intros j y Hj Hy. destruct (decide (s = j)) as [->|]; [simplify_eq; by rewrite (compare_keys_refl t)|].
    apply (later s j z y Hs1); [lia|done|done]. }
  rewrite (drop_S _ _ _ Hz). destruct (bool_decide_reflect (compare_keys (k0 x) (k1 z) = Eq)) as [He|He].
  - unfold deref. rewrite Hx, Hz. rs.
    destruct (Append_joins x z) as (j & -> & Hj); [apply Happ; by eapply list_elem_of_lookup_2|]. rs.
    destruct (IH (S s)) as (js & e & Hm & ((Hle1 & Hle2) & Hfil & Hafter) & Hjs); [lia|lia| |].
    { intros y Hy. rewrite (compare_keys_eq t (k0 x) (k1 z)) by done. apply (Hlater (S s)); [lia|done]. }
    rewrite Hm. rs. exists (j :: js), e. split; [done|]. replace (e - s)%nat with (S (e - S s)) by lia. split.
    + split; [lia|]. rewrite (drop_S _ _ _ Hz), filter_cons_True by (by apply bool_decide_eq_true).
      replace (e - s)%nat with (S (e - S s)) by lia. cbn [take]. by rewrite Hfil.
    + cbn [take]. rewrite fmap_cons. by constructor.
  - exists [], s. split; [done|]. rewrite Nat.sub_diag. split; [|constructor].
    assert (compare_keys (k0 x) (k1 z) = Lt) as Hlt by (by destruct (compare_keys (k0 x) (k1 z))).
    assert (∀ j y, (s ≤ j)%nat → rs1 !! j = Some y → compare_keys (k0 x) (k1 y) = Lt) as Hafter.
    { intros j y Hj Hy. specialize (Hlater j y Hj Hy). destruct (compare_keys (k1 z) (k1 y)) eqn:Hzy; try done.
      - by rewrite <- (compare_keys_eq t (k1 z) (k1 y)) by (done || by eapply in1).
      - apply (compare_keys_trans t _ (k1 z)); try done. by eapply in1. }
    split; [lia|]. split; [|done]. rewrite Nat.sub_diag, take_0.
    assert (∀ l, (∀ y, y ∈ l → compare_keys (k0 x) (k1 y) = Lt) → filter (λ y, equal_keys x y = true) l = []) as Hnone.
    { induction l as [|y l IHl]; intros Hl; [done|]. rewrite filter_cons_False.
      - apply IHl. intros; apply Hl; by constructor.
      - unfold equal_keys. rewrite (Hl y) by constructor. done. }
    apply Hnone. intros y Hy. apply list_elem_of_lookup_1 in Hy as [i Hi]. rewrite lookup_drop in Hi.
    by apply (Hafter (s + i)%nat); [lia|].
Qed.

Lemma equal_keys_iff x y : key_of t (k0 x) → key_of t (k1 y) → equal_keys x y = true ↔ k1 y = k0 x.
Proof using All.
  intros Kx Ky. unfold equal_keys. rewrite bool_decide_eq_true. split.
  - intros He. symmetry. by apply (compare_keys_eq t).
  - intros ->. by apply (compare_keys_refl t).
Qed.

Lemma filter_none_equal x l : key_of t (k0 x) → (∀ y, y ∈ l → key_of t (k1 y) ∧ k1 y ≠ k0 x) →
  filter (λ y, equal_keys x y = true) l = [].
Proof using All.
  intros Kx. induction l as [|y l IH]; intros Hl; [done|]. destruct (Hl y) as [Ky Hne]; [constructor|].
  rewrite filter_cons_False by (by rewrite equal_keys_iff). apply IH. intros; apply Hl; by constructor.
Qed.

(** The loop over the left records with the key of [rs1 !! s]. *)
Lemma match_left_run s z : rs1 !! s = Some z → ∀ fuel r s_, (length rs0 - r < fuel)%nat → (r ≤ length rs0)%nat →
  ∃ js r' s', match_left left_key right_key rs0 rs1 fuel r s s_ = Ok (js, r', s') ∧ (r ≤ r' ≤ length rs0)%nat ∧
    (∀ x, rs0 !! r' = Some x → k0 x ≠ k1 z) ∧
    joined_pairs (matching equal_keys (take (r' - r) (drop r rs0)) (drop s rs1)) js ∧
    (∀ i x, (r ≤ i < r')%nat → rs0 !! i = Some x → k0 x = k1 z) ∧
    (if decide (r' = r) then s' = s_ else
       ∃ e, s' = Some e ∧ (s ≤ e ≤ length rs1)%nat ∧ ∀ j y, (j < e)%nat → rs1 !! j = Some y → compare_keys (k1 y) (k1 z) ≠ Gt).
Proof using All.
  intros Hz fuel. pose proof (in1 s z Hz) as Kz. pose proof (lookup_lt_Some _ _ _ Hz) as Hsl.
  induction fuel as [|fuel IH]; intros r s_ Hf Hle; [lia|]. cbn [match_left]. rewrite decide_False by lia.
  assert (∀ r, (r ≤ length rs0)%nat → (∀ x, rs0 !! r = Some x → k0 x ≠ k1 z) →
    ∃ js r' s', Ok (@nil Rec, r, s_) = Ok (js, r', s') ∧ (r ≤ r' ≤ length rs0)%nat ∧
    (∀ x, rs0 !! r' = Some x → k0 x ≠ k1 z) ∧
    joined_pairs (matching equal_keys (take (r' - r) (drop r rs0)) (drop s rs1)) js ∧
    (∀ i x, (r ≤ i < r')%nat → rs0 !! i = Some x → k0 x = k1 z) ∧
    (if decide (r' = r) then s' = s_ else
       ∃ e, s' = Some e ∧ (s ≤ e ≤ length rs1)%nat ∧ ∀ j y, (j < e)%nat → rs1 !! j = Some y → compare_keys (k1 y) (k1 z) ≠ Gt)) as Hstop.
  { intros i Hi Hne. exists [], i, s_. rewrite Nat.sub_diag, take_0, decide_True by done. split; [done|]. split; [lia|].
    split; [done|]. split; [constructor|]. split; [lia|done]. }
  destruct (decide (r = length rs0)) as [Hr|Hr].
  { apply Hstop; [lia|]. intros x Hx%lookup_lt_Some. lia. }
  destruct (lookup_lt_is_Some_2 rs0 r) as [x Hx]; [lia|]. pose proof (in0 r x Hx) as Kx.
  rewrite (compare_at_run _ _ _ _ _ Hx Hz), Equal_keys by done. rs.
  destruct (bool_decide_reflect (compare_keys (k0 x) (k1 z) = Eq)) as [He|He].
  2: { apply Hstop; [lia|]. intros ? ?. simplify_eq. intros Hk. by rewrite Hk, (compare_keys_refl t) in He. }
  clear Hstop. apply (compare_keys_eq t) in He; [|done|done].
  destruct (match_right_run r x Hx (S (length rs1)) s) as (js0 & e & -> & Hp & Hj0); [lia|lia| |].
  { intros y Hy. simplify_eq. by rewrite He, (compare_keys_refl t). }
  rs. destruct (IH (S r) (Some e)) as (js & r' & s' & -> & Hr' & Hne & Hj & Heq & Hs'); [lia|lia|]. rs.
  exists (js0 ++ js), r', s'. split; [done|]. split; [lia|]. split; [done|]. destruct Hp as (Hse & Hfil & Hafter). split; [|split].
  - replace (r' - r)%nat with (S (r' - S r)) by lia. rewrite (drop_S _ _ _ Hx). cbn [take].
    unfold matching. rewrite bind_cons. apply Forall2_app; [|exact Hj]. by rewrite Hfil.
  - intros i w Hi Hw. destruct (decide (i = r)) as [->|]; [by simplify_eq|]. apply (Heq i); [lia|done].
  - rewrite decide_False by lia.
    assert (∀ j y, (j < e)%nat → rs1 !! j = Some y → compare_keys (k1 y) (k1 z) ≠ Gt) as Hbefore.
    { intros j y Hj' Hy. destruct (decide (s ≤ j)%nat) as [Hsj|Hsj].
      - assert (y ∈ filter (λ y, equal_keys x y = true) (drop s rs1)) as Hin.
        { rewrite Hfil. apply (list_elem_of_lookup_2 _ (j - s)). rewrite lookup_take_lt, lookup_drop by lia.
          by replace (s + (j - s))%nat with j by lia. }
        apply list_elem_of_filter in Hin as [Hin _]. apply equal_keys_iff in Hin; [|done|by eapply in1].
        rewrite Hin, He, (compare_keys_refl t) by done. done.
      - apply (later j s y z Hs1); [lia|done|done]. }
    destruct (decide (r' = S r)) as [Hd|Hd]; [subst s'; eauto|]. exact Hs'.
Qed.

Lemma merge_loop_run fuel : ∀ r s, (length rs0 - r < fuel)%nat → (r ≤ length rs0)%nat →
  (∀ i x j y, (r ≤ i)%nat → rs0 !! i = Some x → (j < s)%nat → rs1 !! j = Some y → k1 y ≠ k0 x) →
  ∃ js, merge_loop left_key right_key rs0 rs1 fuel r (Some s) = Ok js ∧
    joined_pairs (matching equal_keys (drop r rs0) rs1) js.
Proof using All.
  induction fuel as [|fuel IH]; intros r s Hf Hle Hno; [lia|]. cbn [merge_loop].
  destruct (decide (r = length rs0)) as [->|Hr].
  { exists []. rewrite drop_ge by lia. split; [done|constructor]. }
  destruct (lookup_lt_is_Some_2 rs0 r) as [x Hx]; [lia|]. pose proof (in0 r x Hx) as Kx.
  destruct (Hall x) as (y & Hy & Hyx); [by eapply list_elem_of_lookup_2|]. apply list_elem_of_lookup_1 in Hy as [j0 Hj0].
  assert (s ≤ j0)%nat by (destruct (decide (j0 < s)%nat); [by destruct (Hno r x j0 y)|lia]).
  pose proof (lookup_lt_Some _ _ _ Hj0). rewrite decide_False by lia.
  destruct (skip_right_run r x Hx (S (length rs1)) s) as (s' & -> & (z & Hz & Hzx) & Hfirst); [lia|intros; by eapply (Hno r)|].
  rs. rewrite (skip_left_run r x s' z) by (done || lia). rs.
  destruct (match_left_run s' z Hz (S (length rs0)) r None) as (js0 & r' & s'' & -> & Hr' & Hne & Hj & Heq & Hs''); [lia|lia|]. rs.
  assert (r' ≠ r) as Hadv by (intros ->; by destruct (Hne x)). rewrite decide_False in Hs'' by done.
  destruct Hs'' as (e & -> & He & Hbefore).
  destruct (IH r' e) as (js & -> & Hjs); [lia|lia| |].
  { intros i w j v Hi Hw Hjlt Hv Hvw. pose proof (Hbefore j v Hjlt Hv) as Hng.
    destruct (lookup_lt_is_Some_2 rs0 r') as [x' Hx']; [apply lookup_lt_Some in Hw; lia|].
    pose proof (in0 i w Hw) as Kw. pose proof (in0 r' x' Hx') as Kx'. pose proof (in1 s' z Hz) as Kz. specialize (Hne x' Hx').
    assert (compare_keys (k0 x) (k0 x') = Lt) as Hlt.
    { pose proof (later r r' x x' Hs0 ltac:(lia) Hx Hx') as Hng'. destruct (compare_keys (k0 x) (k0 x')) eqn:Hc; try done.
      apply (compare_keys_eq t) in Hc; [|done|done]. by rewrite Hzx in Hne. }
    assert (compare_keys (k0 x) (k0 w) = Lt) as Hlt'.
    { destruct (decide (i = r')) as [->|]; [by simplify_eq|].
      pose proof (later r' i x' w Hs0 ltac:(lia) Hx' Hw) as Hng'. destruct (compare_keys (k0 x') (k0 w)) eqn:Hc; try done.
      - apply (compare_keys_eq t) in Hc; [|done|done]. by rewrite <- Hc.
      - by apply (compare_keys_trans t _ (k0 x')). }
    rewrite Hvw, Hzx, (compare_keys_antisym t (k0 x) (k0 w)), Hlt' in Hng by done. done. }
  rs. exists (js0 ++ js). split; [done|].
  assert (drop r rs0 = take (r' - r) (drop r rs0) ++ drop r' rs0) as ->.
  { rewrite <- (take_drop (r' - r) (drop r rs0)) at 1. by rewrite drop_drop, Nat.add_comm, Nat.sub_add by lia. }
  unfold matching. rewrite bind_app. apply Forall2_app; [|exact Hjs].
  assert (matching equal_keys (take (r' - r) (drop r rs0)) rs1 = matching equal_keys (take (r' - r) (drop r rs0)) (drop s' rs1)) as Hm;
    [|unfold matching in Hm; by rewrite Hm].
  unfold matching. apply Forall_bind_ext, Forall_forall. intros w [i Hi]%list_elem_of_lookup_1.
  apply lookup_take_Some in Hi as [Hi Hlt]. rewrite lookup_drop in Hi. f_equal.
  assert (k0 w = k0 x) as Hwx by (rewrite <- Hzx; apply (Heq (r + i)%nat); [lia|done]).
  rewrite <- (take_drop s' rs1) at 1. rewrite filter_app, filter_none_equal; [done|by eapply in0|].
  intros v [j Hjy]%list_elem_of_lookup_1. apply lookup_take_Some in Hjy as [Hjy Hjlt].
  rewrite Hwx. split; [by eapply in1|by eapply Hfirst].
Qed.
End Merge.

Lemma sorted_by `{Ecma} key rs (k : Rec → Value) t : (∀ r, r ∈ rs → Evaluate key (Some r) = Ok (k r) ∧ key_of t (k r)) →
  StronglySorted (in_order (ASC, key)) rs → StronglySorted (λ a b, compare_keys (k a) (k b) ≠ Gt) rs.
Proof.
  intros Hk Hs. induction Hs as [|r rs Hs IH Hr]; constructor; [apply IH; intros; apply Hk; by constructor|].
  apply Forall_forall. intros x Hx. apply (proj1 (Forall_forall _ _) Hr x Hx); apply Hk; by constructor.
Qed.

(** C30: the merge join of children that deliver records sorted by their join
    keys ends and delivers what the nested loop join on the equality of the keys
    delivers, provided every left record has a partner; keys are integers, or
    strings of one type. *)
Theorem merge_join_joins {Sys E0 E1} `{Executor Sys E0, Executor Sys E1, Ecma} (I : Sys → Prop) fuel
    (c0 : E0) (c1 : E1) rs0 rs1 left_key right_key t k0 k1 :
  delivers I c0 (rows_of rs0) → delivers I c1 (rows_of rs1) → (length rs0 < fuel)%nat → (length rs1 < fuel)%nat →
  Z.of_nat (length rs0 * length rs1) < 2 ^ 31 - 1 → all_appendable rs0 rs1 →
  (∀ r, r ∈ rs0 → Evaluate left_key (Some r) = Ok (k0 r) ∧ key_of t (k0 r)) →
  (∀ r, r ∈ rs1 → Evaluate right_key (Some r) = Ok (k1 r) ∧ key_of t (k1 r)) →
  StronglySorted (in_order (ASC, left_key)) rs0 → StronglySorted (in_order (ASC, right_key)) rs1 →
  (∀ r0, r0 ∈ rs0 → ∃ r1, r1 ∈ rs1 ∧ k1 r1 = k0 r0) →
  ∃ js, @delivers Sys _ (MergeJoinExecutor fuel) I (JoinExecutor_new (left_key, right_key) c0 c1) (rows_of js) ∧
    joined_pairs (matching (equal_keys k0 k1) rs0 rs1) js.
Proof.
  intros Hd0 Hd1 Hf0 Hf1 Hlen Ha Hk0 Hk1 Hs0 Hs1 Hall.
  destruct (merge_loop_run left_key right_key rs0 rs1 t k0 k1 Hk0 Hk1 (sorted_by _ _ _ t Hk0 Hs0) (sorted_by _ _ _ t Hk1 Hs1)
    Hall Ha (S (length rs0 + length rs1)) 0 0) as (js & Hjs & Hj); [lia|lia|intros; lia|].
  rewrite drop_0 in Hj. destruct (copy_out_all _ js (matching_appendable (equal_keys k0 k1) rs0 rs1 Ha) Hj) as (js' & Hjs' & Hj').
  exists js'. split; [|done]. rewrite <- Hjs'.
  pose proof (merge_delivers fuel I (left_key, right_key) c0 c1 _ _ Hd0 Hd1) as Hd. rewrite !rows_len_of in Hd.
  unfold join_rows in Hd. rewrite !all_rows_of in Hd. cbn [mbind res_bind] in Hd. unfold merge in Hd at 2. cbn [fst snd] in Hd.
  rewrite Hjs in Hd. apply Hd; [done|done|]. intros ? ? rs [= <-] [= <-]. unfold merge. cbn [fst snd]. rewrite Hjs. intros [= <-].
  apply Forall2_length in Hj. pose proof (matching_length (equal_keys k0 k1) rs0 rs1). lia.
Qed.

(** *** Concrete joins of two VALUES lists *)

Definition ex_left : list (Z * Z) := [(1, 10); (2, 20)].
Definition ex_right : list (Z * Z) := [(1, 5); (2, 6); (3, 7)].
Definition ex_equal : OperatorExpression :=
  Comparison EQUAL (ColumnValue 0 INT "a" 4 true) (ColumnValue 0 INT "b" 4 false).
Definition ex_list (l : list (Z * Z)) : ValuesExecutor := ValuesExecutor_new ((λ p, ex_values2 p.1 p.2) <$> l).
Definition ex_matches (r0 r1 : Rec) : bool :=
  match EvaluateJoin ex_equal r0 r1 with Ok v => match val_ v with UBool b => b | _ => false end | Err _ => false end.
Definition ex_key (r : Rec) : Value := default Value_null (rvalues_ r !! 0%nat).

Lemma all_pairs (P : Rec → Rec → Prop) rs0 rs1 : Forall (λ r0, Forall (P r0) rs1) rs0 →
  ∀ r0 r1, r0 ∈ rs0 → r1 ∈ rs1 → P r0 r1.
Proof. intros Hp r0 r1 G0 G1. apply (proj1 (Forall_forall _ _) Hp) in G0. by apply (proj1 (Forall_forall _ _) G0). Qed.

Lemma ex_appendable : all_appendable (ex_rows ex_left) (ex_rows ex_right).
Proof. refine (all_pairs appendable (ex_rows ex_left) (ex_rows ex_right) _). vm_compute. repeat constructor. Qed.

Lemma nested_loop_join_joins_witness :
  ∃ js, @delivers unit _ (NestedLoopJoinExecutor 9) (λ _, True) (JoinExecutor_new ex_equal (ex_list ex_left) (ex_list ex_right))
      (rows_of js) ∧
    joined_pairs (matching ex_matches (ex_rows ex_left) (ex_rows ex_right)) js ∧ length js = 2%nat.
Proof.
  destruct (nested_loop_join_joins (λ _ : unit, True) 9 (ex_list ex_left) (ex_list ex_right) (ex_rows ex_left) (ex_rows ex_right)
    ex_equal ex_matches) as (js & Hd & Hj).
  - apply ex_values_deliver.
  - apply ex_values_deliver.
  - simpl. lia.
  - simpl. lia.
  - simpl. lia.
  - apply ex_appendable.
  - refine (all_pairs (λ r0 r1, EvaluateJoin ex_equal r0 r1 = Ok (Value_bool (ex_matches r0 r1))) _ _ _).
    unfold ex_rows, ex_left, ex_right. cbn [fmap list_fmap].
    repeat (apply Forall_cons_2 || apply Forall_nil_2); vm_compute; reflexivity.
  - exists js. split; [exact Hd|]. split; [exact Hj|]. apply Forall2_length in Hj. by vm_compute in Hj.
Defined.

Lemma ex_keys l : Forall (λ p, - 2 ^ 31 <= p.1 < 2 ^ 31) l →
  ∀ r, r ∈ ex_rows l → Evaluate (ex_column 0) (Some r) = Ok (ex_key r) ∧ key_of INT (ex_key r).
Proof.
  intros Hl r (p & -> & Hp)%list_elem_of_fmap. apply (proj1 (Forall_forall _ _) Hl) in Hp.
  split; [done|]. repeat split; simpl; first [done|lia|by left].
Qed.

Ltac sorted_example :=
  unfold ex_rows, ex_left, ex_right; cbn [fmap list_fmap];
  repeat (apply SSorted_cons || apply SSorted_nil || apply Forall_cons_2 || apply Forall_nil_2);
  intros v w Hv Hw; vm_compute in Hv; vm_compute in Hw; injection Hv as <-; injection Hw as <-; done.

Lemma merge_join_joins_witness :
  ∃ js, @delivers unit _ (MergeJoinExecutor 9) (λ _, True)
      (JoinExecutor_new (ex_column 0, ex_column 0) (ex_list ex_left) (ex_list ex_right)) (rows_of js) ∧
    joined_pairs (matching (equal_keys ex_key ex_key) (ex_rows ex_left) (ex_rows ex_right)) js ∧ length js = 2%nat.
Proof.
  destruct (merge_join_joins (λ _ : unit, True) 9 (ex_list ex_left) (ex_list ex_right) (ex_rows ex_left) (ex_rows ex_right)
    (ex_column 0) (ex_column 0) INT ex_key ex_key) as (js & Hd & Hj).
  - apply ex_values_deliver.
  - apply ex_values_deliver.
  - simpl. lia.
  - simpl. lia.
  - simpl. lia.
  - apply ex_appendable.
  - apply ex_keys. repeat constructor; simpl; lia.
  - apply ex_keys. repeat constructor; simpl; lia.
  - sorted_example.
  - sorted_example.
  - intros r0 Hr0. apply Exists_exists.
    refine (proj1 (Forall_forall (λ r0, Exists (λ r1, ex_key r1 = ex_key r0) (ex_rows ex_right)) (ex_rows ex_left)) _ r0 Hr0).
    unfold ex_rows, ex_left, ex_right. cbn [fmap list_fmap].
    repeat (apply Forall_cons_2 || apply Forall_nil_2); [apply Exists_cons_hd|apply Exists_cons_tl, Exists_cons_hd];
      vm_compute; reflexivity.
  - exists js. split; [exact Hd|]. split; [exact Hj|]. apply Forall2_length in Hj. by vm_compute in Hj.
Defined.

(** Without partners the iterator [s_] is used before it is assigned, or the end
    of the right records is dereferenced. *)
Lemma merge_join_undefined :
  merge (ex_column 0, ex_column 0) (ex_rows [(1, 0); (3, 0)]) (ex_rows [(2, 0); (3, 0)]) = singular ∧
  merge (ex_column 0, ex_column 0) (ex_rows [(2, 0)]) (ex_rows [(1, 0)]) =
    Err (Undefined "dereference of the end iterator").
Proof. by vm_compute. Qed.

(** A NULL join key makes the condition NULL, which is not a [bool]: the nested
    loop join fails instead of skipping the pair. *)
Lemma nested_loop_join_null `{Ecma} condition r0 r1 rs1 : EvaluateJoin condition r0 r1 = Ok Value_null →
  join_with condition r0 (r1 :: rs1) = Err (DbException "Type mismatch (expected bool)").
Proof. intros He. cbn [join_with]. by rewrite He. Qed.
