(* ===== verification/OidManager.v ===== *)
(** [src/src/catalog/oid_manager.h] and [oid_manager.cpp]: the object ids of the
    databases and tables and their names. *)
From S2P Require Import Prelude Types.

(** [enum class OidType] *)
Inductive OidType := DATABASE | TABLE | INDEX.
#[export] Instance OidType_eq_dec : EqDecision OidType.
Proof. solve_decision. Defined.

(** The class; [next_oid_] is atomic. *)
Record OidManager := mkOids { next_oid_ : Z; name2oid_ : gmap string Z; oid2name_ : gmap Z string }.

Definition OidManager_new (next_oid : Z) : OidManager := mkOids next_oid ∅ ∅.

Definition GetEntryPrefix (type : OidType) : res string :=
  match type with
  | TABLE => Ok "TABLE."
  | DATABASE => Ok "DATABASE."
  | INDEX => Err (DbException "Unsupported object in oid system")
  end.

(** [GetEntryPrefix(type) + name] *)
Definition entry_name (type : OidType) (name : string) : res string :=
  prefix ← GetEntryPrefix type; Ok (prefix +:+ name).

Definition CreateEntry (type : OidType) (name : string) : M OidManager Z :=
  oid ← gets next_oid_;
  modify (λ m, mkOids (u32 (next_oid_ m + 1)) (name2oid_ m) (<[oid := name]> (oid2name_ m))) ;;
  entry ← lift (entry_name type name);
  modify (λ m, mkOids (next_oid_ m) (<[entry := oid]> (name2oid_ m)) (oid2name_ m)) ;;
  mret oid.

Definition SetEntryOid (type : OidType) (name : string) (oid : Z) : M OidManager unit :=
  entry ← lift (entry_name type name);
  modify (λ m, mkOids (next_oid_ m) (<[entry := oid]> (name2oid_ m)) (<[oid := name]> (oid2name_ m))).

Definition GetEntryName (m : OidManager) (oid : Z) : res string :=
  match oid2name_ m !! oid with
  | Some name => Ok name
  | None => Err (DbException ("Entry with oid " +:+ pretty oid +:+ " does not exist."))
  end.

Definition GetEntryOid (m : OidManager) (type : OidType) (name : string) : res Z :=
  entry ← entry_name type name;
  match name2oid_ m !! entry with
  | Some oid => Ok oid
  | None => Err (DbException (name +:+ " not found in oid manager"))
  end.

Definition DropEntry (type : OidType) (name : string) : M OidManager Z :=
  m ← get;
  oid ← lift (GetEntryOid m type name);
  modify (λ m, mkOids (next_oid_ m) (name2oid_ m) (delete oid (oid2name_ m))) ;;
  entry ← lift (entry_name type name);
  modify (λ m, mkOids (next_oid_ m) (delete entry (name2oid_ m)) (oid2name_ m)) ;;
  mret oid.

Definition EntryExists (m : OidManager) (type : OidType) (name : string) : res bool :=
  entry ← entry_name type name; Ok (bool_decide (is_Some (name2oid_ m !! entry))).

Definition OidExists (m : OidManager) (oid : Z) : bool := bool_decide (is_Some (oid2name_ m !! oid)).

Definition GetNextOid (m : OidManager) : Z := next_oid_ m.

(** ** The entries *)

(** The oid of an entry. *)
Definition oid_of (m : OidManager) (type : OidType) (name : string) : option Z :=
  match entry_name type name with Ok entry => name2oid_ m !! entry | Err _ => None end.

(** Two names of entries are equal only for the same entry. *)
Lemma entry_name_inj t1 n1 t2 n2 e : entry_name t1 n1 = Ok e → entry_name t2 n2 = Ok e → t1 = t2 ∧ n1 = n2.
Proof. destruct t1, t2; try done; intros G1 G2; simpl in *; injection G1 as <-; injection G2; intros; by subst. Qed.
Lemma entry_name_Ok type name : type ≠ INDEX → ∃ e, entry_name type name = Ok e.
Proof. destruct type; [by eexists..|done]. Qed.

Lemma oid_of_INDEX m name : oid_of m INDEX name = None.
Proof. done. Qed.

(** What the operations do to the entries. *)
Lemma oid_of_insert next names names' e type name oid t n :
  entry_name type name = Ok e →
  oid_of (mkOids next (<[e := oid]> names) names') t n =
    if decide (t = type ∧ n = name) then Some oid else oid_of (mkOids next names names') t n.
Proof.
  intros He. unfold oid_of. simpl. destruct (entry_name t n) as [e'|x] eqn:He'.
  - case_decide as Hd; [destruct Hd as [-> ->]; rewrite He in He'; injection He' as ->; apply lookup_insert_eq|].
    apply lookup_insert_ne. intros ->. destruct Hd. by eapply entry_name_inj.
  - rewrite decide_False; [done|]. intros [-> ->]. by rewrite He in He'.
Qed.
Lemma oid_of_delete next names names' e type name t n :
  entry_name type name = Ok e →
  oid_of (mkOids next (delete e names) names') t n =
    if decide (t = type ∧ n = name) then None else oid_of (mkOids next names names') t n.
Proof.
  intros He. unfold oid_of. simpl. destruct (entry_name t n) as [e'|x] eqn:He'; [|by destruct (decide _)].
  case_decide as Hd; [destruct Hd as [-> ->]; rewrite He in He'; injection He' as ->; apply lookup_delete_eq|].
  apply lookup_delete_ne. intros ->. destruct Hd. by eapply entry_name_inj.
Qed.

(** The two maps are inverse to each other, and the next oid is fresh. *)
Record oids_wf (m : OidManager) : Prop := {
  ow_name : ∀ t n oid, oid_of m t n = Some oid → oid2name_ m !! oid = Some n;
  ow_entry : ∀ oid n, oid2name_ m !! oid = Some n → ∃ t, oid_of m t n = Some oid;
  ow_inj : ∀ t1 n1 t2 n2 oid, oid_of m t1 n1 = Some oid → oid_of m t2 n2 = Some oid → t1 = t2 ∧ n1 = n2;
  ow_fresh : ∀ oid, is_Some (oid2name_ m !! oid) → 0 <= oid < next_oid_ m;
  ow_next : 0 <= next_oid_ m
}.

Lemma EntryExists_oid m type name : type ≠ INDEX → EntryExists m type name = Ok (bool_decide (is_Some (oid_of m type name))).
Proof. intros Ht. destruct (entry_name_Ok type name Ht) as [e He]. unfold EntryExists, oid_of. by rewrite He. Qed.
Lemma GetEntryOid_oid m type name oid : oid_of m type name = Some oid → GetEntryOid m type name = Ok oid.
Proof. unfold oid_of, GetEntryOid. destruct (entry_name type name); [|done]. simpl. by intros ->. Qed.

(** An entry with a new name and a new oid keeps the maps inverse. *)
Lemma add_entry_wf m e type name oid next : oids_wf m → entry_name type name = Ok e →
  oid_of m type name = None → oid2name_ m !! oid = None → 0 <= oid < next → next_oid_ m <= next →
  oids_wf (mkOids next (<[e := oid]> (name2oid_ m)) (<[oid := name]> (oid2name_ m))).
Proof.
  intros [Hn He Hi Hf Hx] Hname Hno Hoid Hr Hnext.
  assert (∀ t n, oid_of (mkOids next (<[e := oid]> (name2oid_ m)) (<[oid := name]> (oid2name_ m))) t n =
    if decide (t = type ∧ n = name) then Some oid else oid_of m t n) as Hof by (intros; by rewrite (oid_of_insert _ _ _ _ type name)).
  split; simpl.
  - intros t n o. rewrite Hof. case_decide as Hd; [intros [= <-]; destruct Hd as [_ ->]; apply lookup_insert_eq|].
    intros Ho. rewrite lookup_insert_ne; [by eapply Hn|]. intros <-. by rewrite (Hn _ _ _ Ho) in Hoid.
  - intros o n Ho. destruct (decide (o = oid)) as [->|Hne].
    + rewrite lookup_insert_eq in Ho. injection Ho as <-. exists type. by rewrite Hof, decide_True.
    + rewrite lookup_insert_ne in Ho by done. destruct (He o n Ho) as [t Ht]. exists t. rewrite Hof.
      rewrite decide_False; [done|]. intros [-> ->]. congruence.
  - assert (∀ t n, oid_of m t n ≠ Some oid) as Hnone by (intros t n Ho; by rewrite (Hn _ _ _ Ho) in Hoid).
    intros t1 n1 t2 n2 o. rewrite !Hof. case_decide as Hd; case_decide as Hd'; intros G1 G2; simplify_eq.
    + by destruct Hd as [-> ->], Hd' as [-> ->].
    + by destruct (Hnone t2 n2).
    + by destruct (Hnone t1 n1).
    + by eapply Hi.
  - intros o Ho. destruct (decide (o = oid)) as [->|Hne]; [done|]. rewrite lookup_insert_ne in Ho by done.
    specialize (Hf o Ho). lia.
  - lia.
Qed.

Lemma CreateEntry_run m type name : oids_wf m → type ≠ INDEX → next_oid_ m < 2 ^ 32 - 1 → oid_of m type name = None →
  ∃ m', CreateEntry type name m = (Ok (next_oid_ m), m') ∧ oids_wf m' ∧ next_oid_ m' = next_oid_ m + 1 ∧
    oid2name_ m' = <[next_oid_ m := name]> (oid2name_ m) ∧
    ∀ t n, oid_of m' t n = if decide (t = type ∧ n = name) then Some (next_oid_ m) else oid_of m t n.
Proof.
  intros Hwf Ht Hmax Hno. destruct (entry_name_Ok type name Ht) as [e He]. pose proof (ow_next _ Hwf).
  exists (mkOids (next_oid_ m + 1) (<[e := next_oid_ m]> (name2oid_ m)) (<[next_oid_ m := name]> (oid2name_ m))).
  split.
  { unfold CreateEntry. rewrite gets_step, modify_step, He, (lift_step _ _ _ _ eq_refl), modify_step. simpl.
    by rewrite u32_small by lia. }
  assert (oid2name_ m !! next_oid_ m = None) as Hfresh.
  { apply eq_None_not_Some. intros Hs. apply (ow_fresh _ Hwf) in Hs. lia. }
  split; [by apply (add_entry_wf m e type); try done; lia|]. split; [done|]. split; [done|].
  intros. by rewrite (oid_of_insert _ _ _ _ type name).
Qed.

Lemma SetEntryOid_run m type name oid : oids_wf m → type ≠ INDEX → oid_of m type name = None →
  oid2name_ m !! oid = None → 0 <= oid < next_oid_ m →
  ∃ m', SetEntryOid type name oid m = (Ok (), m') ∧ oids_wf m' ∧ next_oid_ m' = next_oid_ m ∧
    oid2name_ m' = <[oid := name]> (oid2name_ m) ∧
    ∀ t n, oid_of m' t n = if decide (t = type ∧ n = name) then Some oid else oid_of m t n.
Proof.
  intros Hwf Ht Hno Hoid Hr. destruct (entry_name_Ok type name Ht) as [e He].
  exists (mkOids (next_oid_ m) (<[e := oid]> (name2oid_ m)) (<[oid := name]> (oid2name_ m))).
  split; [unfold SetEntryOid; by rewrite He|]. split; [apply (add_entry_wf m e type); try done; lia|]. split; [done|].
  split; [done|]. intros. by rewrite (oid_of_insert _ _ _ _ type name).
Qed.

Lemma DropEntry_run m type name oid : oids_wf m → oid_of m type name = Some oid →
  ∃ m', DropEntry type name m = (Ok oid, m') ∧ oids_wf m' ∧ next_oid_ m' = next_oid_ m ∧
    oid2name_ m' = delete oid (oid2name_ m) ∧
    ∀ t n, oid_of m' t n = if decide (t = type ∧ n = name) then None else oid_of m t n.
Proof.
  intros Hwf Ho. assert (type ≠ INDEX) as Ht by (intros ->; done). destruct (entry_name_Ok type name Ht) as [e He].
  exists (mkOids (next_oid_ m) (delete e (name2oid_ m)) (delete oid (oid2name_ m))).
  assert (∀ t n, oid_of (mkOids (next_oid_ m) (delete e (name2oid_ m)) (delete oid (oid2name_ m))) t n =
    if decide (t = type ∧ n = name) then None else oid_of m t n) as Hof by (intros; by rewrite (oid_of_delete _ _ _ _ type name)).
  split.
  { unfold DropEntry. rewrite get_step, (GetEntryOid_oid _ _ _ _ Ho), (lift_step _ _ _ _ eq_refl), modify_step, He.
    by rewrite (lift_step _ _ _ _ eq_refl), modify_step. }
  split; [|done]. destruct Hwf as [Hn Hent Hi Hf Hx]. split; simpl.
  - intros t n o. rewrite Hof. case_decide as Hd; [done|]. intros Ho'. rewrite lookup_delete_ne; [by eapply Hn|].
    intros <-. destruct Hd. by eapply Hi.
  - intros o n Hd. apply lookup_delete_Some in Hd as [Hne Hd]. destruct (Hent o n Hd) as [t Ht']. exists t. rewrite Hof.
    rewrite decide_False; [done|]. intros [-> ->]. congruence.
  - intros t1 n1 t2 n2 o. rewrite !Hof. do 2 (case_decide; [done|]). apply Hi.
  - intros o Hs. destruct (decide (o = oid)) as [->|Hne]; [by rewrite lookup_delete_eq in Hs; destruct Hs|].
    rewrite lookup_delete_ne in Hs by done. by apply Hf.
  - done.
Qed.

(** ** Reachable states *)

(** The operations the way the catalog calls them: a new entry only for a name
    that does not exist, a given oid only if it is unused. *)
Inductive oids_reached : OidManager → Prop :=
| or_new next : 0 <= next → oids_reached (OidManager_new next)
| or_create m type name r m' : oids_reached m → EntryExists m type name = Ok false → next_oid_ m < 2 ^ 32 - 1 →
    CreateEntry type name m = (r, m') → oids_reached m'
| or_set m type name oid r m' : oids_reached m → EntryExists m type name = Ok false → OidExists m oid = false →
    0 <= oid < next_oid_ m → SetEntryOid type name oid m = (r, m') → oids_reached m'
| or_drop m type name r m' : oids_reached m → DropEntry type name m = (r, m') → oids_reached m'.

Lemma not_exists m type name : EntryExists m type name = Ok false → type ≠ INDEX ∧ oid_of m type name = None.
Proof.
  intros He. assert (type ≠ INDEX) as Ht by (intros ->; done). split; [done|].
  rewrite (EntryExists_oid m type name Ht) in He. injection He as He. apply bool_decide_eq_false in He. by apply eq_None_not_Some.
Qed.

Lemma reached_wf m : oids_reached m → oids_wf m.
Proof.
  induction 1 as [next Hn|m type name r m' _ IH He Hmax Hrun|m type name oid r m' _ IH He Hoid Hr Hrun|m type name r m' _ IH Hrun].
  - assert (∀ t n, oid_of (OidManager_new next) t n = None) as Hno.
    { intros t n. unfold oid_of. destruct (entry_name t n); [apply lookup_empty|done]. }
    split; simpl; try done.
    + intros t n oid. by rewrite Hno.
    + intros t1 n1 t2 n2 oid. by rewrite Hno.
    + intros oid [n Hs]. by rewrite lookup_empty in Hs.
  - apply not_exists in He as [Ht He]. destruct (CreateEntry_run m type name IH Ht Hmax He) as (m1 & Hrun' & Hwf & _).
    rewrite Hrun in Hrun'. by injection Hrun' as -> ->.
  - apply not_exists in He as [Ht He]. apply bool_decide_eq_false in Hoid. apply eq_None_not_Some in Hoid.
    destruct (SetEntryOid_run m type name oid IH Ht He Hoid Hr) as (m1 & Hrun' & Hwf & _).
    rewrite Hrun in Hrun'. by injection Hrun' as -> ->.
  - destruct (oid_of m type name) as [oid|] eqn:Ho.
    + destruct (DropEntry_run m type name oid IH Ho) as (m1 & Hrun' & Hwf & _). rewrite Hrun in Hrun'. by injection Hrun' as -> ->.
    + assert (m' = m) as ->; [|done]. unfold DropEntry in Hrun. rewrite get_step in Hrun. unfold GetEntryOid in Hrun.
      unfold oid_of in Ho. destruct (entry_name type name) as [e|x]; simpl in Hrun; [rewrite Ho in Hrun|]; by injection Hrun.
Qed.

(** In every reachable state the names of databases and tables and the oids
    are in bijection: [GetEntryOid] and [GetEntryName] invert each other, and
    [CreateEntry] for a new name returns an oid no entry has, which is then the
    one of this name and of no other. *)
Theorem oids_name_entries m :
  oids_reached m →
  (∀ type name oid, GetEntryOid m type name = Ok oid →
     GetEntryName m oid = Ok name ∧ OidExists m oid = true ∧
     ∀ type' name', GetEntryOid m type' name' = Ok oid → type' = type ∧ name' = name) ∧
  (∀ type name, EntryExists m type name = Ok false → next_oid_ m < 2 ^ 32 - 1 →
     ∃ m', CreateEntry type name m = (Ok (next_oid_ m), m') ∧ OidExists m (next_oid_ m) = false ∧
       GetEntryOid m' type name = Ok (next_oid_ m) ∧
       ∀ type' name', type' ≠ type ∨ name' ≠ name → GetEntryOid m' type' name' = GetEntryOid m type' name').
Proof.
  intros Hwf%reached_wf. split.
  - intros type name oid Ho.
    assert (∀ t n, GetEntryOid m t n = Ok oid → oid_of m t n = Some oid) as Hof.
    { intros t n. unfold GetEntryOid, oid_of. destruct (entry_name t n) as [e|x]; [|done]. simpl.
      destruct (name2oid_ m !! e); [|done]. by intros [= ->]. }
    apply Hof in Ho as Ho'. pose proof (ow_name _ Hwf _ _ _ Ho') as Hn. split; [unfold GetEntryName; by rewrite Hn|].
    split; [unfold OidExists; apply bool_decide_eq_true; eauto|]. intros t n Hq. apply Hof in Hq. by apply (ow_inj _ Hwf t n type name oid).
  - intros type name [Ht He]%not_exists Hmax. destruct (CreateEntry_run m type name Hwf Ht Hmax He) as (m' & Hrun & _ & _ & _ & Hof).
    exists m'. split; [done|]. split.
    + apply bool_decide_eq_false. intros Hs. apply (ow_fresh _ Hwf) in Hs. lia.
    + split; [apply GetEntryOid_oid; by rewrite Hof, decide_True|]. intros t n Hne. specialize (Hof t n).
      rewrite decide_False in Hof by (intros [-> ->]; by destruct Hne). unfold GetEntryOid, oid_of in *.
      destruct (entry_name t n); [|done]. simpl. by rewrite Hof.
Qed.

Lemma oids_name_entries_witness :
  let m := mkOids 10001 {[ "TABLE.t" := 10000 ]} {[ 10000 := "t" ]} in
  GetEntryName m 10000 = Ok "t" ∧
  ∃ m', CreateEntry DATABASE "t" m = (Ok 10001, m') ∧ OidExists m 10001 = false ∧ GetEntryOid m' DATABASE "t" = Ok 10001.
Proof.
  destruct (oids_name_entries (mkOids 10001 {[ "TABLE.t" := 10000 ]} {[ 10000 := "t" ]})) as [Hent Hnew].
  - apply (or_create (OidManager_new 10000) TABLE "t" (Ok 10000)); [by apply or_new|reflexivity|by vm_compute|reflexivity].
  - split; [by apply (Hent TABLE "t" 10000)|]. destruct (Hnew DATABASE "t") as (m' & Hrun & Hf & Ho & _); [reflexivity|by vm_compute|].
    exists m'. auto.
Defined.

(** The counter is not saved when it changes: after a crash it starts again at
    the value of the last clean shutdown, and [CreateEntry] gives the oid of a
    table that was loaded to a new one. *)
Lemma oid_given_twice m name old : GetEntryOid m TABLE old = Ok (next_oid_ m) → name ≠ old →
  ∃ m', CreateEntry TABLE name m = (Ok (next_oid_ m), m') ∧
    GetEntryOid m' TABLE old = Ok (next_oid_ m) ∧ GetEntryOid m' TABLE name = Ok (next_oid_ m) ∧
    GetEntryName m' (next_oid_ m) = Ok name.
Proof.
  intros Ho Hne. eexists. split; [reflexivity|]. unfold GetEntryOid, GetEntryName in *. simpl in *.
  rewrite !lookup_insert_eq. split; [|done]. rewrite lookup_insert_ne; [exact Ho|]. intros G. by injection G.
Qed.
