(* ===== verification/Schema.v ===== *)
(** [ColumnList::FromString] of [src/src/catalog/column_list.cpp]: the schema of a
    table comes back from the text the system tables keep. *)
From Stdlib Require Import Ascii.
From S2P Require Import Prelude Types StringUtil Value Column.

(** ** [std::istringstream] *)

(** What is left to read; nothing after a failure. *)
Definition istream : Type := option string.

Fixpoint take_word (str : string) : string * string :=
  match str with
  | EmptyString => ("", "")
  | String c rest => if isspace c then ("", str) else let '(word, rest) := take_word rest in (String c word, rest)
  end.

(** [in >> str] and [in >> n] for an unsigned [n] of [w] bits: also the value stored, if any.
    No digits store 0, an overflow the largest value, and both fail; a minus sign
    negates in the unsigned type. *)
Definition read_word (in_ : istream) : option string * istream :=
  match skip_space <$> in_ with
  | None | Some "" => (None, None)
  | Some str => let '(word, rest) := take_word str in (Some word, Some rest)
  end.
Definition read_uint (w : Z) (in_ : istream) : option Z * istream :=
  match skip_space <$> in_ with
  | None | Some "" => (None, None)
  | Some str =>
      let '(neg, str) := read_sign str in
      let '(v, n, rest) := take_digits 0 0 str in
      if n =? 0 then (Some 0, None)
      else if 2 ^ w <=? v then (Some (2 ^ w - 1), None)
      else (Some (if neg : bool then (- v) mod 2 ^ w else v), Some rest)
  end.
Definition read_u16 : istream → option Z * istream := read_uint 16.

(** ** [FromString] *)

(** A value-initialised column. *)
Definition ColumnDefinition_zero : ColumnDefinition := mkColumn "" BOOL 0.

Fixpoint read_columns (columns : list ColumnDefinition) (in_ : istream) : res (list ColumnDefinition) :=
  match columns with
  | [] => Ok []
  | column :: columns =>
      let '(name, in_) := read_word in_ in
      let '(type, in_) := read_word in_ in
      type ← String2Type (default "" type);
      let '(max_size, in_) := read_u16 in_ in
      columns ← read_columns columns in_;
      Ok (mkColumn (default (name_ column) name) type (default (max_size_ column) max_size) :: columns)
  end.

(** [col2idx_[columns_[i].name_] = i] *)
Fixpoint index_from (i : Z) (columns : list ColumnDefinition) (col2idx : gmap string Z) : gmap string Z :=
  match columns with
  | [] => col2idx
  | column :: columns => index_from (i + 1) columns (<[name_ column := i]> col2idx)
  end.

Definition FromString (cl : ColumnList) (str : string) : res ColumnList :=
  let '(size, in_) := read_u16 (Some str) in
  size ← match size with Some size => Ok size | None => Err (Undefined "uninitialised size") end;
  columns ← read_columns (list.resize (Z.to_nat size) ColumnDefinition_zero (columns_ cl)) in_;
  Ok (mkColumnList columns (index_from 0 columns (col2idx_ cl))).

(** ** Reading back what was written *)

Definition space : string := String (chr 32) "".

Fixpoint plain_word (str : string) : bool :=
  match str with EmptyString => true | String c rest => negb (isspace c) && plain_word rest end.
(** What the text keeps of a column: a name of one word, a type with a name and a
    16-bit size. *)
Record printable (c : ColumnDefinition) : Prop := {
  pr_name : name_ c ≠ "" ∧ plain_word (name_ c) = true;
  pr_type : ctype_ c ≠ LIST;
  pr_size : 0 <= max_size_ c < 2 ^ 16
}.

(** Text that starts with a space, or is at its end. *)
Definition separated (rest : string) : Prop := match rest with "" => True | String c _ => isspace c = true end.

Lemma take_word_plain w rest : plain_word w = true → separated rest → take_word (w +:+ rest) = (w, rest).
Proof.
  intros Hw Hr. induction w as [|c w IH]; simpl in *.
  - destruct rest as [|c rest]; [done|]. simpl in *. by rewrite Hr.
  - apply andb_prop in Hw as [Hc Hw]. apply negb_true_iff in Hc. by rewrite Hc, IH.
Qed.
Lemma skip_space_word w rest : w ≠ "" → plain_word w = true → skip_space (w +:+ rest) = w +:+ rest.
Proof. destruct w as [|c w]; [done|]. simpl. intros _ Hw. apply andb_prop in Hw as [Hc _]. apply negb_true_iff in Hc. by rewrite Hc. Qed.

(** A word or a number behind one space. *)
Lemma read_word_printed c w rest : isspace c = true → w ≠ "" → plain_word w = true → separated rest →
  read_word (Some (String c (w +:+ rest))) = (Some w, Some rest).
Proof.
  intros Hc Hne Hw Hr. unfold read_word. simpl. rewrite Hc, skip_space_word by done.
  destruct (w +:+ rest) eqn:Heq; [by destruct w|]. by rewrite <- Heq, take_word_plain.
Qed.

Lemma take_digits_all s rest acc n : all_digits s = true → match rest with String c _ => isdigit c = false | "" => True end →
  take_digits acc n (s +:+ rest) = (read_digits acc s, n + Z.of_nat (String.length s), rest).
Proof.
  revert acc n. induction s as [|c s IH]; intros acc n Hs Hr; cbn [all_digits] in *.
  - simpl. rewrite Z.add_0_r. destruct rest as [|c rest]; [done|]. simpl. by rewrite Hr.
  - apply andb_prop in Hs as [Hc Hs]. rewrite string_app_cons. cbn [take_digits read_digits String.length]. rewrite Hc.
    rewrite IH by done. f_equal. f_equal. lia.
Qed.

Lemma space_no_digit c : isspace c = true → isdigit c = false.
Proof. intros Hs. destruct (isdigit c) eqn:Hd; [|done]. apply isdigit_plain in Hd as [Hd _]. congruence. Qed.

Lemma read_uint_printed w z rest : 0 <= z < 2 ^ w → separated rest →
  read_uint w (Some (pretty z +:+ rest)) = (Some z, Some rest) ∧
  (∀ c, isspace c = true → read_uint w (Some (String c (pretty z +:+ rest))) = (Some z, Some rest)).
Proof.
  intros Hz Hr. destruct (pretty_digits z) as (H1 & H2 & H3); [lia|].
  assert (∃ c s, pretty z = String c s ∧ isdigit c = true) as (d & s & Hp & Hd) by (destruct (pretty z) as [|d s]; [done|by exists d, s]).
  assert (skip_space (pretty z +:+ rest) = pretty z +:+ rest) as Hskip.
  { rewrite Hp. simpl. by rewrite (proj1 (isdigit_plain d Hd)). }
  assert (read_sign (pretty z +:+ rest) = (false, pretty z +:+ rest)) as Hsign.
  { destruct (isdigit_plain d Hd) as (_ & D1 & D2). rewrite Hp. simpl. by rewrite D1, D2. }
  assert (match pretty z +:+ rest with "" => False | _ => True end) as Hne by (by rewrite Hp).
  assert (∀ x, x = pretty z +:+ rest → match Some x with None | Some "" => (None, None)
    | Some str => let '(neg, str) := read_sign str in let '(v, n, rest) := take_digits 0 0 str in
      if n =? 0 then (Some 0, None) else if 2 ^ w <=? v then (Some (2 ^ w - 1), None)
      else (Some (if neg : bool then (- v) mod 2 ^ w else v), Some rest) end = (Some z, Some rest)) as Hread.
  { intros x ->. destruct (pretty z +:+ rest) as [|d' s'] eqn:Heq; [done|]. rewrite <- Heq in *. rewrite Hsign.
    rewrite take_digits_all; [|done|destruct rest; [done|by apply space_no_digit]]. rewrite H1.
    destruct (Z.eqb_spec (0 + Z.of_nat (String.length (pretty z))) 0) as [Hl|_]; [rewrite Hp in Hl; simpl in Hl; lia|].
    by destruct (Z.leb_spec (2 ^ w) z); [lia|]. }
  split; [|intros c Hc]; unfold read_uint; cbn [fmap option_fmap option_map]; apply Hread; [done|]. simpl. by rewrite Hc.
Qed.

Lemma read_u16_printed z rest : 0 <= z < 2 ^ 16 → separated rest →
  read_u16 (Some (pretty z +:+ rest)) = (Some z, Some rest) ∧
  (∀ c, isspace c = true → read_u16 (Some (String c (pretty z +:+ rest))) = (Some z, Some rest)).
Proof. apply read_uint_printed. Qed.

Lemma type_printed t : t ≠ LIST → ∃ tn, Type2String t = Ok tn ∧ String2Type tn = Ok t ∧ tn ≠ "" ∧ plain_word tn = true.
Proof. destruct t; [eexists; by split_and!..|done]. Qed.

Lemma column_printed c rest : printable c → ∃ tn, Type2String (ctype_ c) = Ok tn ∧ String2Type tn = Ok (ctype_ c) ∧
  Column_ToString c = Ok (name_ c +:+ " " +:+ tn +:+ " " +:+ pretty (max_size_ c)) ∧
  ∀ b, isspace b = true → separated rest →
    read_word (Some (String b ((name_ c +:+ " " +:+ tn +:+ " " +:+ pretty (max_size_ c)) +:+ rest))) =
      (Some (name_ c), Some (" " +:+ tn +:+ " " +:+ pretty (max_size_ c) +:+ rest)) ∧
    read_word (Some (" " +:+ tn +:+ " " +:+ pretty (max_size_ c) +:+ rest)) = (Some tn, Some (" " +:+ pretty (max_size_ c) +:+ rest)) ∧
    read_u16 (Some (" " +:+ pretty (max_size_ c) +:+ rest)) = (Some (max_size_ c), Some rest).
Proof.
  intros [[Hne Hw] Ht Hs]. destruct (type_printed _ Ht) as (tn & H1 & H2 & H3 & H4). exists tn. split; [done|]. split; [done|].
  split; [unfold Column_ToString; by rewrite H1|]. intros b Hb Hr. split_and!.
  - rewrite !string_app_assoc. by apply read_word_printed.
  - by apply (read_word_printed (Ascii.ascii_of_nat 32) tn (" " +:+ pretty (max_size_ c) +:+ rest)).
  - by apply (proj2 (read_u16_printed _ rest Hs Hr) (Ascii.ascii_of_nat 32)).
Qed.

Lemma columns_printed columns : Forall printable columns → ∃ s, columns_ToString columns = Ok s ∧
  ∀ b olds, isspace b = true → length olds = length columns → read_columns olds (Some (String b s)) = Ok columns.
Proof.
  induction 1 as [|c columns Hc Hcs IH]; [by exists ""; split; [done|]; intros b [|] _ Hl|].
  destruct IH as (s & Hs & IH). destruct (column_printed c (newline +:+ s) Hc) as (tn & H1 & H2 & H3 & H4).
  exists ((name_ c +:+ " " +:+ tn +:+ " " +:+ pretty (max_size_ c)) +:+ newline +:+ s).
  split; [simpl; by rewrite H3, Hs|]. intros b [|old olds] Hb Hl; [done|]. injection Hl as Hl.
  destruct (H4 b Hb ltac:(done)) as (R1 & R2 & R3). cbn [read_columns]. rewrite R1, R2. change (default "" (Some tn)) with tn.
  rewrite H2. rs. rewrite R3.
  change (newline +:+ s) with (String (Ascii.ascii_of_nat 10) s). rewrite (IH (Ascii.ascii_of_nat 10) olds eq_refl Hl). by destruct c.
Qed.

Lemma index_from_fold columns : ∀ cl, NoDup (name_ <$> columns) → (∀ c, c ∈ columns → col2idx_ cl !! name_ c = None) →
  col2idx_ (fold_left AddColumn columns cl) = index_from (Z.of_nat (size (col2idx_ cl))) columns (col2idx_ cl).
Proof.
  induction columns as [|c columns IH]; intros cl Hn Hf; [done|]. apply NoDup_cons in Hn as [Hc Hn]. simpl. rewrite IH; [|done|].
  - simpl. rewrite map_size_insert_None by (apply Hf; left). f_equal. lia.
  - intros c' Hc'. simpl. rewrite lookup_insert_ne; [apply Hf; by right|]. intros Heq. apply Hc. rewrite Heq. by apply list_elem_of_fmap_2.
Qed.

(** What [FromString] makes of the columns it has read. *)
Lemma mk_ColumnList_index columns : NoDup (name_ <$> columns) →
  mkColumnList columns (index_from 0 columns (col2idx_ ColumnList_empty)) = mk_ColumnList columns.
Proof.
  intros Hn. destruct (mk_ColumnList_gen columns ColumnList_empty indexed_empty Hn) as [_ Hcols].
  fold (mk_ColumnList columns) in Hcols. simpl in Hcols.
  pose proof (index_from_fold columns ColumnList_empty Hn ltac:(intros; by apply lookup_empty)) as Hi. simpl in Hi.
  destruct (mk_ColumnList columns) as [cs m] eqn:Heq. simpl in Hcols. subst cs. unfold mk_ColumnList in Heq. by rewrite Heq in Hi; simpl in Hi; rewrite Hi.
Qed.

(** ** Properties *)

(** The schema of a table survives the system tables: what [ToString] writes
    for a list of columns with different names, each of one word, with 16-bit sizes,
    [FromString] reads back as the same list with the same index of names. *)
Theorem schema_roundtrip columns : Forall printable columns → NoDup (name_ <$> columns) → Z.of_nat (length columns) < 2 ^ 16 →
  ∃ str, ColumnList_ToString (mk_ColumnList columns) = Ok str ∧ FromString ColumnList_empty str = Ok (mk_ColumnList columns).
Proof.
  intros Hp Hn Hl. destruct (mk_ColumnList_gen columns ColumnList_empty indexed_empty Hn) as [_ Hcols].
  fold (mk_ColumnList columns) in Hcols. simpl in Hcols. destruct (columns_printed columns Hp) as (s & Hs & Hread).
  unfold ColumnList_ToString, Length. rewrite Hcols, Hs. eexists. split; [reflexivity|]. unfold FromString.
  destruct (read_u16_printed (Z.of_nat (length columns)) (newline +:+ s) ltac:(lia) ltac:(done)) as [-> _]. rs.
  change (newline +:+ s) with (String (Ascii.ascii_of_nat 10) s). rewrite (Hread (Ascii.ascii_of_nat 10)); [|done|by rewrite length_resize, Nat2Z.id]. rs. f_equal.
  by rewrite mk_ColumnList_index.
Qed.

Lemma schema_roundtrip_witness : ∃ str,
  ColumnList_ToString (mk_ColumnList [mkColumn "a" INT 4; mkColumn "name" VARCHAR 32]) = Ok str ∧
  FromString ColumnList_empty str = Ok (mk_ColumnList [mkColumn "a" INT 4; mkColumn "name" VARCHAR 32]).
Proof.
  apply schema_roundtrip; [|repeat constructor; set_solver|done].
  repeat constructor; done.
Defined.
