(* ===== verification/Query.v ===== *)
(** [src/src/executors]: the executors that read and change the tables:
    [seqscan_executor.cpp], [lock_rows_executor.cpp], [insert_executor.cpp],
    [delete_executor.cpp] and [update_executor.cpp], over the system their
    [ExecutorContext] gives them. What they deliver is in [Select.v], what they
    change in [Dml.v]. *)
From S2P Require Import Prelude Memory Types StringUtil Disk Value Bitmap Column Record TablePage Lru LogRecord LogManager BufferPool Storage LockManager TransactionManager Visibility Table TableScan Like Expressions Executor Pipeline.

(** ** The system *)

(** What the members of [ExecutorContext] refer to. Of the catalog the executors
    use the loaded tables [oid2table_]; a [shared_ptr] to a table is its oid. *)
Record System := mkSystem {
  sys_pool : Pool LogDisk;
  sys_tm : TransactionManager;
  sys_tables : gmap Z Table
}.

(** The values of the context; [is_modification_sql_] is read by nothing. *)
Record ExecutorContext := mkContext {
  context_xid : Z;
  context_level : IsolationLevel;
  context_cid : Z
}.

Definition set_sys_tm (tm : TransactionManager) (s : System) : System := mkSystem (sys_pool s) tm (sys_tables s).
Definition on_tm {A} (m : M TransactionManager A) : M System A := zoom sys_tm set_sys_tm m.
Definition on_lock_manager {A} (m : M LockManager A) : M System A := on_tm (on_locks m).

(** [Catalog::GetTable] *)
Definition GetTable (oid : Z) : M System Z :=
  s ← get;
  match sys_tables s !! oid with
  | None => throw (DbException ("Table with oid " +:+ pretty oid +:+ " does not exist"))
  | Some _ => mret oid
  end.

(** A call of a method of the table. *)
Definition on_table_obj {A} (table : Z) (m : M TableState A) : M System A := λ s,
  match sys_tables s !! table with
  | None => (Err (Undefined "use of a null table"), s)
  | Some t =>
      let '(r, ts) := m (mkTS t (sys_pool s)) in
      (r, mkSystem (ts_pool ts) (sys_tm s) (<[table := ts_table ts]> (sys_tables s)))
  end.

(** A call of a method of a scan of the table from [rid] on; also the new
    position. *)
Definition on_scan {A} (table : Z) (rid : Rid) (m : M TableScan A) : M System (A * Rid) := λ s,
  match sys_tables s !! table with
  | None => (Err (Undefined "use of a null table"), s)
  | Some t =>
      let '(r, sc) := m (mkScan rid t (sys_pool s)) in
      ((λ a, (a, scan_rid_ sc)) <$> r, mkSystem (scan_pool_ sc) (sys_tm s) (sys_tables s))
  end.

(** ** [SeqScanExecutor] *)

Section SeqScan.
Context `{MapOrder} `{Allocator} (fuel : nat) (ctx : ExecutorContext).

(** [scan_] is the table and the position. *)
Record SeqScanExecutor := mkSeqScan { scan_oid_ : Z; scan_ : option (Z * Rid) }.
Definition SeqScanExecutor_new (table_oid : Z) : SeqScanExecutor := mkSeqScan table_oid None.

Definition seqscan_init : M (SeqScanExecutor * System) unit :=
  f ← on_self get;
  table ← on_sys (GetTable (scan_oid_ f));
  s ← on_sys get;
  t ← lift (match sys_tables s !! table with Some t => Ok t | None => Err (Undefined "use of a null table") end);
  on_self (modify (λ f, mkSeqScan (scan_oid_ f) (Some (table, mkRid (GetFirstPageId t) 0)))).

Definition seqscan_next : M (SeqScanExecutor * System) (option Rec) :=
  f ← on_self get;
  active_xids ← on_sys (on_tm (scan_active (context_level ctx) (context_xid ctx)));
  lock_flag ← on_sys (on_lock_manager (LockTable (context_xid ctx) IS (scan_oid_ f)));
  if negb lock_flag then throw (DbException "seq scan failed")
  else
    match scan_ f with
    | None => throw (Undefined "the scan was not initialised")
    | Some (table, rid) =>
        '(record, rid) ← on_sys (on_scan table rid
          (GetNextRecord fuel (context_xid ctx) (context_level ctx) (context_cid ctx) active_xids));
        on_self (modify (λ f, mkSeqScan (scan_oid_ f) (Some (table, rid)))) ;;
        mret record
    end.

#[export] Instance SeqScanExecutor_ : Executor System SeqScanExecutor := {
  Init := seqscan_init;
  Next := seqscan_next
}.
End SeqScan.

(** ** [LockRowsExecutor] *)

(** [enum class SelectLockType] *)
Inductive SelectLockType := NOLOCK | SL_SHARE | SL_UPDATE.

Section LockRows.
Context {E : Type} `{Executor System E} (ctx : ExecutorContext).

Record LockRowsExecutor := mkLockRows { lr_oid_ : Z; lr_lock_type_ : SelectLockType; lr_child_ : E }.
Definition set_lr_child (c : E) (f : LockRowsExecutor) : LockRowsExecutor := mkLockRows (lr_oid_ f) (lr_lock_type_ f) c.

Definition lock_rows_next : M (LockRowsExecutor * System) (option Rec) :=
  record ← on_child lr_child_ set_lr_child Next;
  match record with
  | None => mret None
  | Some record =>
      f ← on_self get;
      lock_flag ← (match lr_lock_type_ f with
        | SL_SHARE => on_sys (on_lock_manager (LockRow (context_xid ctx) LS (lr_oid_ f) (GetRid record)))
        | SL_UPDATE => on_sys (on_lock_manager (LockRow (context_xid ctx) LX (lr_oid_ f) (GetRid record)))
        | NOLOCK => mret true
        end);
      if negb lock_flag then throw (DbException "lock row failed!") else mret (Some record)
  end.

#[export] Instance LockRowsExecutor_ : Executor System LockRowsExecutor := {
  Init := on_child lr_child_ set_lr_child Init;
  Next := lock_rows_next
}.
End LockRows.
#[global] Arguments LockRowsExecutor E : clear implicits.
#[global] Arguments mkLockRows {E} _ _ _.

(** ** The executors that change tables *)

(** All three return one record with the number of rows, and then null. The
    member [table_] is null until it is set. *)
Section Changes.
Context `{MapOrder} `{Allocator} {E : Type} `{Executor System E} `{Ecma}.
Context (fuel insert_fuel : nat) (ctx : ExecutorContext).

Record ChangeExecutor (P : Type) := mkChange {
  ch_plan_ : P; ch_table_ : option Z; ch_columns_ : ColumnList; ch_finished_ : bool; ch_child_ : E
}.
#[global] Arguments mkChange {P} _ _ _ _ _.
#[global] Arguments ch_plan_ {P} _.
#[global] Arguments ch_table_ {P} _.
#[global] Arguments ch_columns_ {P} _.
#[global] Arguments ch_finished_ {P} _.
#[global] Arguments ch_child_ {P} _.

Section Common.
Context {P : Type}.

Definition set_ch_child (c : E) (f : ChangeExecutor P) : ChangeExecutor P :=
  mkChange (ch_plan_ f) (ch_table_ f) (ch_columns_ f) (ch_finished_ f) c.
Definition set_ch_table (table : Z) : M (ChangeExecutor P * System) unit :=
  on_self (modify (λ f, mkChange (ch_plan_ f) (Some table) (ch_columns_ f) (ch_finished_ f) (ch_child_ f))).
Definition set_ch_columns (cl : ColumnList) : M (ChangeExecutor P * System) unit :=
  on_self (modify (λ f, mkChange (ch_plan_ f) (ch_table_ f) cl (ch_finished_ f) (ch_child_ f))).
Definition set_ch_finished : M (ChangeExecutor P * System) unit :=
  on_self (modify (λ f, mkChange (ch_plan_ f) (ch_table_ f) (ch_columns_ f) true (ch_child_ f))).

(** [table_->...] *)
Definition on_member_table {A} (m : M TableState A) : M (ChangeExecutor P * System) A :=
  f ← on_self get;
  match ch_table_ f with
  | None => throw (Undefined "use of a null table")
  | Some table => on_sys (on_table_obj table m)
  end.

(** [if (!LockRow(xid, LockType::X, oid, rid)) throw DbException(message);] *)
Definition lock_row_or_throw (oid : Z) (rid : Rid) (message : string) : M (ChangeExecutor P * System) unit :=
  lock_flag ← on_sys (on_lock_manager (LockRow (context_xid ctx) LX oid rid));
  if negb lock_flag then throw (DbException message) else mret ().

(** [while (auto record = children_[0]->Next()) { body; count++; }], and the
    record with the count. *)
Fixpoint change_loop (body : Rec → M (ChangeExecutor P * System) unit) (fuel : nat) (count : Z) :
    M (ChangeExecutor P * System) Z :=
  match fuel with
  | O => throw (Undefined "the loop does not end")
  | S fuel =>
      record ← on_child ch_child_ set_ch_child Next;
      match record with
      | None => mret count
      | Some record => body record ;; change_loop body fuel (u32 (count + 1))
      end
  end.

Definition change_next (body : Rec → M (ChangeExecutor P * System) unit) : M (ChangeExecutor P * System) (option Rec) :=
  f ← on_self get;
  if ch_finished_ f then mret None
  else
    count ← change_loop body fuel 0;
    set_ch_finished ;;
    record ← lift (mk_Record [Value_uint count] (mkRid 0 0));
    mret (Some record).
End Common.

(** *** [InsertExecutor] *)

Record InsertPlan := mkInsertPlan { ins_oid_ : Z; insert_columns_ : ColumnList }.

(** [values[column_index] = record->GetValue(i)] for every inserted column. *)
Fixpoint place_values (column_list : ColumnList) (columns : list ColumnDefinition) (i : Z) (record : Rec)
    (values : list Value) : res (list Value) :=
  match columns with
  | [] => Ok values
  | column :: columns =>
      column_index ← Column.GetColumnIndex column_list (name_ column);
      value ← GetValue record i;
      if column_index <? Z.of_nat (length values)
      then place_values column_list columns (i + 1) record (<[Z.to_nat column_index := value]> values)
      else Err (Undefined "write past the end of the values")
  end.

Definition insert_record (column_list : ColumnList) (plan : InsertPlan) (record : Rec) : res Rec :=
  values ← place_values column_list (columns_ (insert_columns_ plan)) 0 record
             (replicate (Z.to_nat (Length column_list)) Value_null);
  mk_Record values (mkRid 0 0).

Definition insert_row (record : Rec) : M (ChangeExecutor InsertPlan * System) unit :=
  f ← on_self get;
  let oid := ins_oid_ (ch_plan_ f) in
  table_record ← lift (insert_record (ch_columns_ f) (ch_plan_ f) record);
  table_lock_flag ← on_sys (on_lock_manager (LockTable (context_xid ctx) IX oid));
  if negb table_lock_flag then throw (DbException "insert table lock failed!")
  else
    '(rid, _) ← on_member_table (Table_InsertRecord insert_fuel table_record (context_xid ctx) (context_cid ctx) true);
    lock_row_or_throw oid rid "insert lock failed!".

Definition insert_init : M (ChangeExecutor InsertPlan * System) unit :=
  on_child ch_child_ set_ch_child Init ;;
  f ← on_self get;
  table ← on_sys (GetTable (ins_oid_ (ch_plan_ f)));
  set_ch_table table ;;
  table ← on_sys (GetTable (ins_oid_ (ch_plan_ f)));
  s ← on_sys get;
  t ← lift (match sys_tables s !! table with Some t => Ok t | None => Err (Undefined "use of a null table") end);
  set_ch_columns (GetColumnList t).

Definition InsertExecutor_new (plan : InsertPlan) (c : E) : ChangeExecutor InsertPlan :=
  mkChange plan None ColumnList_empty false c.

#[export] Instance InsertExecutor : Executor System (ChangeExecutor InsertPlan) := {
  Init := insert_init;
  Next := change_next insert_row
}.

(** *** [DeleteExecutor] *)

Record DeletePlan := mkDeletePlan { del_oid_ : Z }.

Definition delete_body (record : Rec) : M (ChangeExecutor DeletePlan * System) unit :=
  f ← on_self get;
  lock_row_or_throw (del_oid_ (ch_plan_ f)) (GetRid record) "delete lock failed!" ;;
  on_member_table (Table_DeleteRecord (GetRid record) (context_xid ctx) true).

(** The constructor looks the table up. *)
Definition DeleteExecutor_new (plan : DeletePlan) (c : E) : M System (ChangeExecutor DeletePlan) :=
  table ← GetTable (del_oid_ plan);
  mret (mkChange plan (Some table) ColumnList_empty false c).

#[export] Instance DeleteExecutor : Executor System (ChangeExecutor DeletePlan) := {
  Init := on_child ch_child_ set_ch_child Init;
  Next := change_next delete_body
}.

(** *** [UpdateExecutor] *)

Record UpdatePlan := mkUpdatePlan { upd_oid_ : Z; update_exprs_ : list OperatorExpression }.

Definition updated_record (exprs : list OperatorExpression) (record : Rec) : res Rec :=
  values ← evaluate_all exprs (Some record); mk_Record values (mkRid 0 0).

Definition update_body (record : Rec) : M (ChangeExecutor UpdatePlan * System) unit :=
  f ← on_self get;
  let oid := upd_oid_ (ch_plan_ f) in
  new_record ← lift (updated_record (update_exprs_ (ch_plan_ f)) record);
  lock_row_or_throw oid (GetRid record) "update lock failed!" ;;
  '(rid, _) ← on_member_table
    (UpdateRecord insert_fuel (GetRid record) (context_xid ctx) (context_cid ctx) new_record true);
  lock_row_or_throw oid rid "update lock failed!".

Definition update_init : M (ChangeExecutor UpdatePlan * System) unit :=
  on_child ch_child_ set_ch_child Init ;;
  f ← on_self get;
  table ← on_sys (GetTable (upd_oid_ (ch_plan_ f)));
  set_ch_table table.

Definition UpdateExecutor_new (plan : UpdatePlan) (c : E) : ChangeExecutor UpdatePlan :=
  mkChange plan None ColumnList_empty false c.

#[export] Instance UpdateExecutor : Executor System (ChangeExecutor UpdatePlan) := {
  Init := update_init;
  Next := change_next update_body
}.
End Changes.
#[global] Arguments ChangeExecutor E P : clear implicits.
