(* ===== verification/SystemCatalog.v ===== *)
(** [src/src/catalog/system_catalog.h], [system_catalog.cpp] and
    [system_schema.h]: the databases and tables, kept in three tables of the
    database [system]. The loaded tables [oid2table_] are those of [Query.v]'s
    [System], of which the catalog changes the pool, the file system and the tables. *)
From S2P Require Import Prelude Memory Types StringUtil Disk Value Bitmap Column Record TablePage Lru LogRecord LogManager BufferPool Storage LockManager TransactionManager Visibility Table TableScan Like Expressions Executor OidManager Schema Query.

Definition table_meta_schema : ColumnList :=
  mk_ColumnList [mkColumn "table_oid" UINT 4; mkColumn "db_oid" UINT 4; mkColumn "table_name" VARCHAR 32;
                 mkColumn "schema" VARCHAR 1024; mkColumn "cardinality" UINT 4].
Definition database_meta_schema : ColumnList := mk_ColumnList [mkColumn "db_oid" UINT 4; mkColumn "db_name" VARCHAR 32].
Definition statistic_schema : ColumnList :=
  mk_ColumnList [mkColumn "table_name" VARCHAR 32; mkColumn "db_oid" UINT 4; mkColumn "column_name" VARCHAR 32;
                 mkColumn "n_distinct" UINT 4].

(** The members but [oid2table_], and the directories of the file system, which
    nothing else looks at. *)
Record SystemCatalog := mkCatalog {
  oid_manager_ : OidManager;
  table2cardinality_ : gmap string Z;
  col2distinct_ : gmap string Z;
  current_database_oid_ : Z;
  directories : gset string
}.
Definition SystemCatalog_new (next_oid : Z) (directories : gset string) : SystemCatalog :=
  mkCatalog (OidManager_new next_oid) ∅ ∅ INVALID_OID directories.

Definition set_oids (oids : OidManager) (c : SystemCatalog) : SystemCatalog :=
  mkCatalog oids (table2cardinality_ c) (col2distinct_ c) (current_database_oid_ c) (directories c).
Definition set_cardinalities (m : gmap string Z) (c : SystemCatalog) : SystemCatalog :=
  mkCatalog (oid_manager_ c) m (col2distinct_ c) (current_database_oid_ c) (directories c).
Definition set_distincts (m : gmap string Z) (c : SystemCatalog) : SystemCatalog :=
  mkCatalog (oid_manager_ c) (table2cardinality_ c) m (current_database_oid_ c) (directories c).
Definition set_database (oid : Z) (c : SystemCatalog) : SystemCatalog :=
  mkCatalog (oid_manager_ c) (table2cardinality_ c) (col2distinct_ c) oid (directories c).
Definition set_directories (d : gset string) (c : SystemCatalog) : SystemCatalog :=
  mkCatalog (oid_manager_ c) (table2cardinality_ c) (col2distinct_ c) (current_database_oid_ c) d.

(** The order in which a loop over [oid2table_] meets the oids. *)
Class OidOrder := { oid_order : gset Z → list Z; oid_order_perm : ∀ s, oid_order s ≡ₚ elements s }.

Section Code.
Context `{MapOrder} `{Allocator} `{OidOrder} (fuel : nat).
Abbreviation MC := (M (SystemCatalog * System)).

Definition on_cat {A} (m : M SystemCatalog A) : MC A := zoom fst (λ c σ, (c, σ.2)) m.
Definition on_system_ {A} (m : M System A) : MC A := zoom snd (λ s σ, (σ.1, s)) m.
Definition on_oids {A} (m : M OidManager A) : MC A := on_cat (zoom oid_manager_ set_oids m).
Definition on_pool_ {A} (m : M (Pool LogDisk) A) : M System A := zoom sys_pool (λ w s, mkSystem w (sys_tm s) (sys_tables s)) m.
Definition on_fs (f : Fs → Fs) : MC unit := on_system_ (on_pool_ (on_disk_ (modify (λ d, set_fs (f (fs_ d)) d)))).
Definition fs_of (s : System) : Fs := fs_ (dk (po_wal (sys_pool s))).

(** [std::filesystem::create_directory] and [remove_all]. *)
Definition CreateDirectory (path : string) : MC unit := on_cat (modify (λ c, set_directories ({[path]} ∪ directories c) c)).
Definition in_directory (path file : string) : bool := String.prefix (path +:+ "/") file.
Definition RemoveDirectory (path : string) : MC unit :=
  on_cat (modify (λ c, set_directories (directories c ∖ {[path]}) c)) ;;
  on_fs (λ fs, mkFs (filter (λ kv, in_directory path kv.1 = false) (fs_names fs)) (fs_data fs) (fs_next fs)).
(** [Disk::CreateFile(Disk::GetFilePath(db_oid, oid))]: a stream that cannot be
    opened, because the directory does not exist, is ignored. *)
Definition create_table_file (db_oid oid : Z) : MC unit :=
  σ ← get;
  if decide (pretty db_oid ∈ directories σ.1) then on_fs (CreateFile (GetFilePath db_oid oid)) else mret ().

(** *** Reading the system tables *)

(** The table [oid2table_.at(oid)]. *)
Definition the_table (tables : gmap Z Table) (oid : Z) : res Table :=
  match tables !! oid with
  | Some t => Ok t
  | None => Err (DbException ("Table with oid " +:+ pretty oid +:+ " does not exist"))
  end.

(** [scan->GetNextRecord()] of a scan that has come to [rid]. *)
Definition next_record (t : Table) (rid : Rid) : M (Pool LogDisk) (option Rec * Rid) := λ w,
  let '(r, s) := GetNextRecord fuel NULL_XID DEFAULT_ISOLATION_LEVEL NULL_CID ∅ (mkScan rid t w) in
  ((λ x, (x, scan_rid_ s)) <$> r, scan_pool_ s).

(** [while (auto record = scan->GetNextRecord())]; the body says whether to go on. *)
Fixpoint while_records {S A} (next : Rid → M S (option Rec * Rid)) (body : Rec → A → M S (bool * A)) (calls : nat) (rid : Rid)
    (a : A) : M S A :=
  match calls with
  | O => throw (Undefined "the loop does not end")
  | Datatypes.S calls =>
      x ← next rid;
      match x with
      | (None, _) => mret a
      | (Some record, rid) =>
          y ← body record a;
          if y.1 : bool then while_records next body calls rid y.2 else mret y.2
      end
  end.

Definition for_records {A} (table_oid : Z) (body : Rec → A → MC (bool * A)) (a : A) : MC A :=
  σ ← get;
  t ← lift (the_table (sys_tables σ.2) table_oid);
  while_records (λ rid, on_system_ (on_pool_ (next_record t rid))) body fuel (mkRid (GetFirstPageId t) 0) a.

(** [record->GetValue(schema.GetColumnIndex(name)).GetValue<T>()] *)
Definition uint_of (schema : ColumnList) (name : string) (record : Rec) : res Z :=
  i ← Column.GetColumnIndex schema name; v ← GetValue record i; GetValue_uint v.
Definition string_of (schema : ColumnList) (name : string) (record : Rec) : res string :=
  i ← Column.GetColumnIndex schema name; v ← GetValue record i; GetValue_string v.

(** The insertion of a record of these values into a system table. *)
Definition insert_values (table_oid : Z) (values : list Value) : MC unit :=
  record ← lift (mk_Record values (mkRid NULL_PAGE_ID 0));
  σ ← get;
  lift (the_table (sys_tables σ.2) table_oid) ;;
  on_system_ (on_table_obj table_oid (Table_InsertRecord fuel record DDL_XID DDL_CID false)) ;;
  mret ().
Definition delete_from (table_oid : Z) (record : Rec) : MC unit :=
  on_system_ (on_table_obj table_oid (Table_DeleteRecord (GetRid record) DDL_XID false)).

Definition CheckUsingDatabase : MC unit :=
  σ ← get;
  if current_database_oid_ σ.1 =? INVALID_OID then throw (DbException "Not using databases") else mret ().
Definition DatabaseExists (c : SystemCatalog) (database_name : string) : res bool := EntryExists (oid_manager_ c) DATABASE database_name.
Definition quoted (what name rest : string) : string :=
  let quote := String.String (chr 34) "" in what +:+ quote +:+ name +:+ quote +:+ rest.

(** *** Tables *)

Definition GetTableOid (c : SystemCatalog) (table_name : string) : res Z :=
  b ← EntryExists (oid_manager_ c) TABLE table_name;
  if negb b then Err (DbException (quoted "Table " table_name " does not exist"))
  else GetEntryOid (oid_manager_ c) TABLE table_name.
Definition GetTableColumnList (σ : SystemCatalog * System) (table_name : string) : res ColumnList :=
  oid ← GetTableOid σ.1 table_name; t ← the_table (sys_tables σ.2) oid; Ok (GetColumnList t).
Definition TableExists (c : SystemCatalog) (oid : Z) : bool := OidExists (oid_manager_ c) oid.

(** [GetDatabaseOid], which only reads: with the catalog and its tables given. *)
Definition GetDatabaseOid (c : SystemCatalog) (tables : gmap Z Table) (table_oid : Z) : M (Pool LogDisk) Z :=
  if bool_decide (is_Some (tables !! table_oid)) then mret (current_database_oid_ c)
  else
    t ← lift (the_table tables TABLE_META_OID);
    found ← while_records (next_record t) (λ record _,
        oid ← lift (uint_of table_meta_schema "table_oid" record);
        if oid =? table_oid then db_oid ← lift (uint_of table_meta_schema "db_oid" record); mret (false, Some db_oid)
        else mret (true, None)) fuel (mkRid (GetFirstPageId t) 0) None;
    match found with
    | Some db_oid => mret db_oid
    | None => throw (DbException ("Table with oid " +:+ pretty table_oid +:+ " does not exist"))
    end.

(** [oid2table_[oid] = std::make_shared<Table>(.., Disk::EmptyFile(path))] *)
Definition load_table (oid db_oid : Z) (column_list : ColumnList) (new_table : bool) (path : string) : MC unit :=
  σ ← get;
  is_empty ← lift (EmptyFile (fs_of σ.2) path);
  on_system_ (modify (λ s, mkSystem (sys_pool s) (sys_tm s) (<[oid := Table_new oid db_oid column_list new_table is_empty]> (sys_tables s)))).

(** [INVALID_OID] stands for a number to be chosen. *)
Definition CreateTable (table_name : string) (column_list : ColumnList) (oid db_oid : Z) (new_table : bool) : MC unit :=
  db_oid ← (if db_oid =? INVALID_OID then CheckUsingDatabase ;; σ ← get; mret (current_database_oid_ σ.1) else mret db_oid);
  σ ← get;
  b ← lift (EntryExists (oid_manager_ σ.1) TABLE table_name);
  if b : bool then throw (DbException (quoted "Table " table_name " already exists"))
  else
    oid ← (if oid =? INVALID_OID then on_oids (CreateEntry TABLE table_name)
           else on_oids (SetEntryOid TABLE table_name oid) ;; mret oid);
    if (PRESERVED_OID <? oid) && (db_oid =? SYSTEM_DATABASE_OID) then throw (DbException "Cannot create table in system database")
    else
      (if new_table then create_table_file db_oid oid else mret ()) ;;
      load_table oid db_oid column_list new_table (GetFilePath db_oid oid) ;;
      if negb new_table then mret ()
      else
        schema ← lift (ColumnList_ToString column_list);
        insert_values TABLE_META_OID [Value_uint oid; Value_uint db_oid; Value_string table_name VARCHAR; Value_string schema VARCHAR;
                                      Value_uint INVALID_CARDINALITY].

Definition DropTable (table_name : string) : MC unit :=
  CheckUsingDatabase ;;
  σ ← get;
  if current_database_oid_ σ.1 =? SYSTEM_DATABASE_OID then throw (AssertFailed "current_database_oid_ != SYSTEM_DATABASE_OID")
  else
    table_oid ← lift (GetTableOid σ.1 table_name);
    on_fs (RemoveFile (GetFilePath (current_database_oid_ σ.1) table_oid)) ;;
    on_system_ (modify (λ s, mkSystem (sys_pool s) (sys_tm s) (delete table_oid (sys_tables s)))) ;;
    on_oids (DropEntry TABLE table_name) ;;
    deleted ← for_records TABLE_META_OID (λ record _,
      oid ← lift (uint_of table_meta_schema "table_oid" record);
      if oid =? table_oid then delete_from TABLE_META_OID record ;; mret (false, true) else mret (true, false)) false;
    if deleted : bool then mret () else throw (DbException (quoted "Table " table_name " does not exist in table_meta")).

Definition GetTableNames : MC (list string) :=
  σ ← get;
  if current_database_oid_ σ.1 =? INVALID_OID then throw (DbException "Invalid database oid in GetDatabaseTableNames")
  else
    for_records TABLE_META_OID (λ record table_names,
      db_oid ← lift (uint_of table_meta_schema "db_oid" record);
      if db_oid =? current_database_oid_ σ.1 then
        name ← lift (string_of table_meta_schema "table_name" record); mret (true, table_names ++ [name])
      else mret (true, table_names)) [].

(** *** Statistics *)

Definition GetCardinality (c : SystemCatalog) (table_name : string) : Z := default INVALID_CARDINALITY (table2cardinality_ c !! table_name).
Definition column_key (table_name column_name : string) : string := table_name +:+ "." +:+ column_name.
Definition GetDistinct (c : SystemCatalog) (table_name column_name : string) : Z :=
  default INVALID_DISTINCT (col2distinct_ c !! column_key table_name column_name).

(** [record->SetValue(idx, Value(n))] and [UpdateRecordInPlace]. *)
Definition update_uint (table_oid : Z) (schema : ColumnList) (name : string) (n : Z) (record : Rec) : MC unit :=
  record ← lift (i ← Column.GetColumnIndex schema name; SetValue record i (Value_uint n));
  on_system_ (on_table_obj table_oid (Table_UpdateRecordInPlace record)).

Definition SetCardinality (table_name : string) (cardinality : Z) : MC unit :=
  σ ← get;
  found ← for_records TABLE_META_OID (λ record found,
    db_oid ← lift (uint_of table_meta_schema "db_oid" record);
    name ← (if db_oid =? current_database_oid_ σ.1 then lift (string_of table_meta_schema "table_name" record ≫= λ s, Ok (Some s)) else mret None);
    if decide (name = Some table_name) then
      if found : bool then throw (DbException (table_name +:+ " has more than one record in table_meta"))
      else
        update_uint TABLE_META_OID table_meta_schema "cardinality" cardinality record ;;
        on_cat (modify (λ c, set_cardinalities (<[table_name := cardinality]> (table2cardinality_ c)) c)) ;;
        mret (true, true)
    else mret (true, found)) false;
  if found : bool then mret () else throw (DbException (quoted "Table" table_name " does not exist in table_meta")).

Definition set_distinct (table_name column_name : string) (distinct : Z) : MC unit :=
  on_cat (modify (λ c, set_distincts (<[column_key table_name column_name := distinct]> (col2distinct_ c)) c)).
(** [db_oid == .. && table_name == .. && column_name == ..] *)
Definition is_statistic (c : SystemCatalog) (table_name column_name : string) (record : Rec) : res bool :=
  db_oid ← uint_of statistic_schema "db_oid" record;
  if negb (db_oid =? current_database_oid_ c) then Ok false
  else
    name ← string_of statistic_schema "table_name" record;
    if negb (String.eqb name table_name) then Ok false
    else column ← string_of statistic_schema "column_name" record; Ok (String.eqb column column_name).
Definition SetDistinct (table_name column_name : string) (distinct : Z) : MC unit :=
  σ ← get;
  found ← for_records STATISTIC_META_OID (λ record found,
    b ← lift (is_statistic σ.1 table_name column_name record);
    if b : bool then
      if found : bool then throw (DbException (column_key table_name column_name +:+ " has more than one record in statistic_meta"))
      else
        update_uint STATISTIC_META_OID statistic_schema "n_distinct" distinct record ;;
        set_distinct table_name column_name distinct ;;
        mret (true, true)
    else mret (true, found)) false;
  if found : bool then mret ()
  else
    insert_values STATISTIC_META_OID [Value_string table_name VARCHAR; Value_uint (current_database_oid_ σ.1);
                                      Value_string column_name VARCHAR; Value_uint distinct] ;;
    set_distinct table_name column_name distinct.

(** *** Loading *)

Definition LoadDatabaseMeta : MC unit :=
  σ ← get;
  if bool_decide (sys_tables σ.2 !! DATABASE_META_OID = None) then throw (AssertFailed "oid2table_.find(DATABASE_META_OID) != oid2table_.end()")
  else
    for_records DATABASE_META_OID (λ record _,
      db_oid ← lift (uint_of database_meta_schema "db_oid" record);
      db_name ← lift (string_of database_meta_schema "db_name" record);
      on_oids (SetEntryOid DATABASE db_name db_oid) ;; mret (true, ())) ().

Definition load_table_meta (record : Rec) : MC unit :=
  oid ← lift (uint_of table_meta_schema "table_oid" record);
  table_name ← lift (string_of table_meta_schema "table_name" record);
  column_list_string ← lift (string_of table_meta_schema "schema" record);
  cardinality ← lift (uint_of table_meta_schema "cardinality" record);
  column_list ← lift (FromString ColumnList_empty column_list_string);
  on_oids (SetEntryOid TABLE table_name oid) ;;
  σ ← get;
  db_oid ← on_system_ (on_pool_ (GetDatabaseOid σ.1 (sys_tables σ.2) oid));
  load_table oid (current_database_oid_ σ.1) column_list false (GetFilePath db_oid oid) ;;
  on_cat (modify (λ c, set_cardinalities (<[table_name := cardinality]> (table2cardinality_ c)) c)).
Definition LoadTableMeta : MC unit :=
  for_records TABLE_META_OID (λ record _,
    db_oid ← lift (uint_of table_meta_schema "db_oid" record);
    σ ← get;
    (if db_oid =? current_database_oid_ σ.1 then load_table_meta record else mret ()) ;; mret (true, ())) ().

Definition LoadStatistics : MC unit :=
  for_records STATISTIC_META_OID (λ record _,
    db_oid ← lift (uint_of statistic_schema "db_oid" record);
    σ ← get;
    (if db_oid =? current_database_oid_ σ.1 then
       table_name ← lift (string_of statistic_schema "table_name" record);
       column_name ← lift (string_of statistic_schema "column_name" record);
       n_distinct ← lift (uint_of statistic_schema "n_distinct" record);
       set_distinct table_name column_name n_distinct
     else mret ()) ;; mret (true, ())) ().

(** *** Databases *)

(** The loop over [deleted_oids]. *)
Fixpoint unload (oids : list Z) : MC unit :=
  match oids with
  | [] => mret ()
  | oid :: oids =>
      σ ← get;
      table_name ← lift (GetEntryName (oid_manager_ σ.1) oid);
      on_oids (DropEntry TABLE table_name) ;;
      on_system_ (modify (λ s, mkSystem (sys_pool s) (sys_tm s) (delete oid (sys_tables s)))) ;;
      unload oids
  end.
Definition ExitDatabase : MC unit :=
  σ ← get;
  if current_database_oid_ σ.1 =? INVALID_OID then throw (AssertFailed "current_database_oid_ != INVALID_OID")
  else if current_database_oid_ σ.1 =? SYSTEM_DATABASE_OID then mret ()
  else
    on_system_ (on_pool_ (BufferPool_Flush true)) ;;
    σ ← get;
    unload (filter (λ oid, PRESERVED_OID < oid) (oid_order (dom (sys_tables σ.2)))) ;;
    on_cat (modify (set_database INVALID_OID)).

Definition ChangeDatabase (database_name : string) : MC unit :=
  σ ← get;
  b ← lift (DatabaseExists σ.1 database_name);
  if negb b then throw (DbException (quoted "Database " database_name " does not exist"))
  else
    db_oid ← lift (GetEntryOid (oid_manager_ σ.1) DATABASE database_name);
    if db_oid =? current_database_oid_ σ.1 then mret ()
    else
      (if current_database_oid_ σ.1 =? INVALID_OID then mret () else ExitDatabase) ;;
      on_cat (modify (set_database db_oid)) ;;
      if db_oid =? SYSTEM_DATABASE_OID then mret () else LoadTableMeta ;; LoadStatistics.

Definition CreateDatabase (database_name : string) (exists_ok : bool) (db_oid : Z) : MC unit :=
  σ ← get;
  b ← (if exists_ok then mret false else lift (DatabaseExists σ.1 database_name));
  if b : bool then throw (DbException (quoted "Database " database_name " already exists"))
  else
    db_oid ← (if db_oid =? INVALID_OID then on_oids (CreateEntry DATABASE database_name)
              else on_oids (SetEntryOid DATABASE database_name db_oid) ;; mret db_oid);
    insert_values DATABASE_META_OID [Value_uint db_oid; Value_string database_name VARCHAR] ;;
    σ ← get;
    if decide (pretty db_oid ∈ directories σ.1) then mret () else CreateDirectory (pretty db_oid).

Definition DropDatabase (database_name : string) (missing_ok : bool) : MC unit :=
  σ ← get;
  b ← lift (DatabaseExists σ.1 database_name);
  if negb b then
    if missing_ok then mret () else throw (DbException (quoted "Database " database_name " does not exist"))
  else
    db_oid ← lift (GetEntryOid (oid_manager_ σ.1) DATABASE database_name);
    if db_oid =? current_database_oid_ σ.1 then throw (DbException "Cannot drop the currently open database")
    else
      for_records TABLE_META_OID (λ record _,
        oid ← lift (uint_of table_meta_schema "db_oid" record);
        (if oid =? db_oid then delete_from TABLE_META_OID record ;; lift (string_of table_meta_schema "table_name" record) ;; mret ()
         else mret ()) ;; mret (true, ())) () ;;
      deleted ← for_records DATABASE_META_OID (λ record _,
        oid ← lift (uint_of database_meta_schema "db_oid" record);
        if oid =? db_oid then delete_from DATABASE_META_OID record ;; mret (false, true) else mret (true, false)) false;
      if negb deleted then throw (DbException (quoted "Database " database_name " does not exist in Database Meta"))
      else
        on_oids (DropEntry DATABASE database_name) ;;
        σ ← get;
        if decide (pretty db_oid ∈ directories σ.1) then RemoveDirectory (pretty db_oid) else mret ().

Definition GetDatabaseNames : MC (list string) :=
  σ ← get;
  if bool_decide (sys_tables σ.2 !! DATABASE_META_OID = None) then throw (AssertFailed "oid2table_.find(DATABASE_META_OID) != oid2table_.end()")
  else
    for_records DATABASE_META_OID (λ record db_names,
      db_name ← lift (string_of database_meta_schema "db_name" record); mret (true, db_names ++ [db_name])) [].

(** *** The system tables *)

(** [CreateTable] for the three of them. *)
Definition system_tables (new_table : bool) : MC unit :=
  CreateTable TABLE_META_NAME table_meta_schema TABLE_META_OID SYSTEM_DATABASE_OID new_table ;;
  CreateTable DATABASE_META_NAME database_meta_schema DATABASE_META_OID SYSTEM_DATABASE_OID new_table ;;
  CreateTable STATISTIC_META_NAME statistic_schema STATISTIC_META_OID SYSTEM_DATABASE_OID new_table.
Definition CreateSystemTables : MC unit :=
  CreateDirectory (pretty SYSTEM_DATABASE_OID) ;;
  system_tables true ;;
  CreateDatabase SYSTEM_DATABASE_NAME false SYSTEM_DATABASE_OID ;;
  CreateDatabase DEFAULT_DATABASE_NAME false INVALID_OID ;;
  ChangeDatabase DEFAULT_DATABASE_NAME.
Definition LoadSystemTables : MC unit :=
  system_tables false ;;
  LoadDatabaseMeta ;;
  ChangeDatabase DEFAULT_DATABASE_NAME.
End Code.
