(* ===== verification/SimpleCatalog.v ===== *)
(** [src/src/catalog/simple_catalog.h] and [simple_catalog.cpp]: the catalog of a
    single database in text files, which the macro [SIMPLE_CATALOG] chooses. The
    file [tables] is a journal of the tables created and, behind a tilde, dropped;
    each table has a file with its object id and schema. *)
From Stdlib Require Import Ascii.
From S2P Require Import Prelude Memory Types StringUtil Disk Value Bitmap Column Record TablePage Lru LogRecord LogManager BufferPool Storage LockManager TransactionManager Visibility Table TableScan Like Expressions Executor OidManager Schema Query SystemCatalog.

(** The members in use; the directories of the file system are the catalog's, as in
    [SystemCatalog.v]. *)
Record SimpleCatalog := mkSimple {
  sc_oid_manager_ : OidManager;
  sc_name2oid_ : gmap string Z;
  sc_current_database_oid_ : Z;
  sc_directories : gset string
}.
Definition SimpleCatalog_new (next_oid : Z) (directories : gset string) : SimpleCatalog :=
  mkSimple (OidManager_new next_oid) ∅ INVALID_OID directories.
Definition sc_set_oids (oids : OidManager) (c : SimpleCatalog) : SimpleCatalog :=
  mkSimple oids (sc_name2oid_ c) (sc_current_database_oid_ c) (sc_directories c).
Definition sc_set_names (m : gmap string Z) (c : SimpleCatalog) : SimpleCatalog :=
  mkSimple (sc_oid_manager_ c) m (sc_current_database_oid_ c) (sc_directories c).
Definition sc_set_database (oid : Z) (c : SimpleCatalog) : SimpleCatalog :=
  mkSimple (sc_oid_manager_ c) (sc_name2oid_ c) oid (sc_directories c).
Definition sc_set_directories (d : gset string) (c : SimpleCatalog) : SimpleCatalog :=
  mkSimple (sc_oid_manager_ c) (sc_name2oid_ c) (sc_current_database_oid_ c) d.

(** The order in which a loop over an unordered set of names meets them. *)
Class NameOrder := { name_order : gset string → list string; name_order_perm : ∀ s, name_order s ≡ₚ elements s }.

(** ** The texts *)

Definition tilde : ascii := "~"%char.

(** [while (!db_in.eof()) { db_in >> table_name; .. }]: the words of the journal, as
    long as there are any. *)
Fixpoint table_words (n : nat) (str : string) : list string :=
  match n with
  | O => []
  | S n => match read_word (Some str) with (Some word, Some rest) => word :: table_words n rest | _ => [] end
  end.
Definition journal_step (table_names : gset string) (word : string) : gset string :=
  match word with
  | String c rest => if Ascii.eqb c tilde then table_names ∖ {[rest]} else {[word]} ∪ table_names
  | "" => table_names
  end.
Definition live_names (journal : string) : gset string := fold_left journal_step (table_words (S (String.length journal)) journal) ∅.

(** What [.meta] starts with, and then the schema. *)
Definition meta_head (oid db_oid : Z) (name : string) : string := pretty oid +:+ " " +:+ pretty db_oid +:+ " " +:+ name +:+ " ".

(** [while (!table_in.eof()) { table_in >> tmp; desc += " "; desc += tmp; }] *)
Fixpoint respaced (n : nat) (str : string) : string :=
  match n, str with
  | O, _ | _, "" => ""
  | S n, _ => match read_word (Some str) with (Some word, Some rest) => " " +:+ word +:+ respaced n rest | _ => " " end
  end.
(** When a number or the name cannot be read, the variables stay uninitialised or
    the loop does not reach the end of the file. *)
Definition read_meta (text : string) : res (Z * Z * string * string) :=
  let '(oid, in_) := read_uint 32 (Some text) in
  let '(db_oid, in_) := read_uint 32 in_ in
  let '(name, in_) := read_word in_ in
  match oid, db_oid, name, in_ with
  | Some oid, Some db_oid, Some name, Some rest => Ok (oid, db_oid, name, respaced (S (String.length rest)) rest)
  | _, _, _, _ => Err (Undefined "uninitialised variable")
  end.

(** The directory of a path: what precedes the last slash. *)
Fixpoint parent (path : string) : option string :=
  match path with
  | "" => None
  | String c rest => match parent rest with Some p => Some (String c p) | None => if Ascii.eqb c "/" then Some "" else None end
  end.

Definition file_text (fs : Fs) (path : string) : option string := String.string_of_list_byte <$> file_data fs path.

(** ** The operations *)

Section Code.
Context `{MapOrder} `{Allocator} `{NameOrder}.
Abbreviation MC := (M (SimpleCatalog * System)).

Definition sc_on_cat {A} (m : M SimpleCatalog A) : MC A := zoom fst (λ c σ, (c, σ.2)) m.
Definition sc_on_sys {A} (m : M System A) : MC A := zoom snd (λ s σ, (σ.1, s)) m.
Definition sc_on_oids {A} (m : M OidManager A) : MC A := sc_on_cat (zoom sc_oid_manager_ sc_set_oids m).
Definition sc_on_fs (f : Fs → Fs) : MC unit := sc_on_sys (on_pool_ (on_disk_ (modify (λ d, set_fs (f (fs_ d)) d)))).

Definition sc_path (c : SimpleCatalog) (file : string) : string := pretty (sc_current_database_oid_ c) +:+ "/" +:+ file.
(** An [ofstream] whose directory does not exist writes nothing. *)
Definition write_in (c : SimpleCatalog) (path : string) (f : string → Fs → Fs) : MC unit :=
  if decide (default "" (parent path) ∈ sc_directories c) then sc_on_fs (f path) else mret ().
Definition write_string (text path : string) (fs : Fs) : Fs := WriteFile path (String.list_byte_of_string text) fs.
(** [std::ios::app] *)
Definition append_string (text path : string) (fs : Fs) : Fs :=
  WriteFile path (default [] (file_data fs path) ++ String.list_byte_of_string text) fs.
Definition journal (c : SimpleCatalog) (text : string) : MC unit :=
  write_in c (sc_path c "tables") (append_string text).

Definition GetTableOid (c : SimpleCatalog) (table_name : string) : res Z :=
  b ← EntryExists (sc_oid_manager_ c) TABLE table_name;
  if negb b then Err (DbException (quoted "Table " table_name " does not exist"))
  else GetEntryOid (sc_oid_manager_ c) TABLE table_name.
Definition GetTableColumnList (σ : SimpleCatalog * System) (table_name : string) : res ColumnList :=
  oid ← GetTableOid σ.1 table_name; t ← the_table (sys_tables σ.2) oid; Ok (GetColumnList t).
Definition TableExists (c : SimpleCatalog) (oid : Z) : bool := OidExists (sc_oid_manager_ c) oid.
Definition GetDatabaseOid (table_oid : Z) : Z := TEMP_DATABASE_OID.
Definition GetTableNames (c : SimpleCatalog) : list string := name_order (dom (sc_name2oid_ c)).
Definition GetDatabaseNames : list string := ["tmp"].
Definition GetCardinality (table_name : string) : Z := INVALID_CARDINALITY.
Definition GetDistinct (table_name column_name : string) : Z := INVALID_DISTINCT.
Definition SetCardinality (table_name : string) (cardinality : Z) : MC unit := mret ().
Definition SetDistinct (table_name column_name : string) (distinct : Z) : MC unit := mret ().
Definition CreateDatabase (database_name : string) (exists_ok : bool) (db_oid : Z) : MC unit :=
  throw (DbException "CreateDatabase not implemented in SimpleCatalog").
Definition DropDatabase (database_name : string) (missing_ok : bool) : MC unit :=
  throw (DbException "DropDatabase not implemented in SimpleCatalog").
Definition ChangeDatabase (database_name : string) : MC unit :=
  throw (DbException "ChangeDatabase not implemented in SimpleCatalog").

(** The file of a table with its schema: what precedes the schema is written also
    when the schema has no text. *)
Definition write_meta (oid : Z) (table_name : string) (column_list : ColumnList) : MC unit :=
  σ ← get;
  let head := meta_head oid (sc_current_database_oid_ σ.1) table_name in
  let write text := write_in σ.1 (sc_path σ.1 (table_name +:+ ".meta")) (write_string text) in
  match ColumnList_ToString column_list with
  | Ok schema => write (head +:+ schema)
  | Err x => write head ;; throw x
  end.

(** [oid2table_[oid] = std::make_shared<Table>(.., Disk::EmptyFile(path))] *)
Definition sc_load_table (oid db_oid : Z) (column_list : ColumnList) (new_table : bool) : MC unit :=
  σ ← get;
  is_empty ← lift (EmptyFile (fs_of σ.2) (GetFilePath db_oid oid));
  sc_on_sys (modify (λ s, mkSystem (sys_pool s) (sys_tm s) (<[oid := Table_new oid db_oid column_list new_table is_empty]> (sys_tables s)))).

Definition CreateTable (table_name : string) (column_list : ColumnList) (oid db_oid : Z) (new_table : bool) : MC unit :=
  σ ← get;
  let db_oid := if db_oid =? INVALID_OID then sc_current_database_oid_ σ.1 else db_oid in
  b ← lift (EntryExists (sc_oid_manager_ σ.1) TABLE table_name);
  if b : bool then throw (DbException (quoted "Table " table_name " already exists"))
  else
    oid ← (if oid =? INVALID_OID then sc_on_oids (CreateEntry TABLE table_name)
           else sc_on_oids (SetEntryOid TABLE table_name oid) ;; mret oid);
    if (PRESERVED_OID <? oid) && (db_oid =? SYSTEM_DATABASE_OID) then throw (AssertFailed "db_oid != SYSTEM_DATABASE_OID")
    else
      (if new_table then write_in σ.1 (GetFilePath db_oid oid) CreateFile else mret ()) ;;
      sc_on_cat (modify (λ c, sc_set_names (<[table_name := oid]> (sc_name2oid_ c)) c)) ;;
      sc_load_table oid db_oid column_list new_table ;;
      if negb new_table then mret ()
      else
        write_meta oid table_name column_list ;;
        σ ← get;
        journal σ.1 (table_name +:+ " ").

Definition DropTable (table_name : string) : MC unit :=
  σ ← get;
  if sc_current_database_oid_ σ.1 =? SYSTEM_DATABASE_OID then throw (AssertFailed "current_database_oid_ != SYSTEM_DATABASE_OID")
  else
    table_oid ← lift (GetTableOid σ.1 table_name);
    sc_on_fs (RemoveFile (GetFilePath (sc_current_database_oid_ σ.1) table_oid)) ;;
    sc_on_cat (modify (λ c, sc_set_names (delete table_name (sc_name2oid_ c)) c)) ;;
    sc_on_sys (modify (λ s, mkSystem (sys_pool s) (sys_tm s) (delete table_oid (sys_tables s)))) ;;
    sc_on_oids (DropEntry TABLE table_name) ;;
    sc_on_fs (RemoveFile (sc_path σ.1 (table_name +:+ ".meta"))) ;;
    σ ← get;
    journal σ.1 (String tilde table_name +:+ " ").

Definition CreateSystemTables : MC unit :=
  sc_on_cat (modify (λ c, sc_set_directories ({[pretty TEMP_DATABASE_OID]} ∪ sc_directories c) c)) ;;
  sc_on_cat (modify (sc_set_database TEMP_DATABASE_OID)).

(** One turn of the loop over [table_names]; a file that is not there is never at
    its end. *)
Definition load_meta (table_name : string) : MC unit :=
  σ ← get;
  text ← lift (from_option Ok (Err (Undefined "the loop does not end"))
                 (file_text (fs_of σ.2) (sc_path σ.1 (table_name +:+ ".meta"))));
  m ← lift (read_meta text);
  let '(oid, db_oid, name, desc) := m in
  column_list ← lift (FromString ColumnList_empty desc);
  CreateTable name column_list oid db_oid false.
Fixpoint load_all (table_names : list string) : MC unit :=
  match table_names with [] => mret () | name :: table_names => load_meta name ;; load_all table_names end.
Definition LoadSystemTables : MC unit :=
  sc_on_cat (modify (sc_set_database TEMP_DATABASE_OID)) ;;
  σ ← get;
  load_all (name_order (live_names (default "" (file_text (fs_of σ.2) (sc_path σ.1 "tables"))))).
End Code.

(** ** What the journal and the files of the tables say *)

Definition entry (word : string) : Prop := word ≠ "" ∧ plain_word word = true.
(** A name that the journal and a path can hold: one word, no tilde in front, no
    slash. *)
Definition table_word (name : string) : Prop :=
  entry name ∧ (∀ rest, name ≠ String tilde rest) ∧ has_char "/" name = false.

Fixpoint journal_text (words : list string) : string :=
  match words with [] => "" | word :: words => word +:+ " " +:+ journal_text words end.

Lemma journal_text_app ws w : journal_text ws +:+ w +:+ " " = journal_text (ws ++ [w]).
Proof. induction ws as [|w' ws IH]; [done|]. simpl. by rewrite !string_app_assoc, IH. Qed.

Lemma string_length_app (a b : string) : String.length (a +:+ b) = (String.length a + String.length b)%nat.
Proof. induction a as [|c a IH]; simpl; [done|]. by rewrite <- IH. Qed.

Lemma read_word_first w rest : entry w → separated rest → read_word (Some (w +:+ rest)) = (Some w, Some rest).
Proof.
  intros [Hne Hw] Hr. unfold read_word. cbn [fmap option_fmap option_map]. rewrite skip_space_word by done.
  destruct (w +:+ rest) eqn:Heq; [by destruct w|]. by rewrite <- Heq, take_word_plain.
Qed.

Lemma table_words_space n str : table_words n (" " +:+ str) = table_words n str.
Proof. by destruct n. Qed.
Lemma table_words_text ws : ∀ n, Forall entry ws → (String.length (journal_text ws) < n)%nat → table_words n (journal_text ws) = ws.
Proof.
  induction ws as [|w ws IH]; intros n Hws Hn; [by destruct n|]. apply Forall_cons in Hws as [Hw Hws].
  destruct n as [|n]; [lia|]. cbn [journal_text] in *. rewrite !string_length_app in Hn. cbn [table_words].
  rewrite (read_word_first w (" " +:+ journal_text ws) Hw ltac:(done)), table_words_space, IH; [done..|simpl in Hn; lia].
Qed.

Lemma live_names_text ws : Forall entry ws → live_names (journal_text ws) = fold_left journal_step ws ∅.
Proof. intros Hws. unfold live_names. by rewrite table_words_text by (done || lia). Qed.

Lemma journal_created s name : table_word name → journal_step s name = {[name]} ∪ s.
Proof.
  intros ([Hne _] & Ht & _). destruct name as [|c rest]; [done|]. simpl.
  destruct (Ascii.eqb_spec c tilde) as [->|]; [by destruct (Ht rest)|done].
Qed.
Lemma journal_dropped s name : journal_step s (String tilde name) = s ∖ {[name]}.
Proof. done. Qed.

(** *** A schema, spaced out anew *)

Lemma respaced_word n c w rest : isspace c = true → entry w → separated rest →
  respaced (S n) (String c (w +:+ rest)) = " " +:+ w +:+ respaced n rest.
Proof. intros Hc [Hne Hw] Hr. cbn [respaced]. by rewrite (read_word_printed c w rest Hc Hne Hw Hr). Qed.

Lemma pretty_entry z : 0 <= z → entry (pretty z).
Proof.
  intros Hz. destruct (pretty_digits z Hz) as (_ & H2 & H3). split; [by intros He; rewrite He in H3|].
  clear H3. induction (pretty z) as [|c s IH]; [done|]. simpl in *. apply andb_prop in H2 as [Hc Hs].
  rewrite IH by done. by rewrite (proj1 (isdigit_plain c Hc)).
Qed.

(** The words of the columns behind single spaces, and the one space that the end
    of the text gives. *)
Fixpoint columns_desc (columns : list ColumnDefinition) : string :=
  match columns with
  | [] => " "
  | c :: columns => " " +:+ name_ c +:+ " " +:+ from_option id "" (match Type2String (ctype_ c) with Ok t => Some t | Err _ => None end)
                    +:+ " " +:+ pretty (max_size_ c) +:+ columns_desc columns
  end.
Lemma columns_desc_separated columns : separated (columns_desc columns).
Proof. by destruct columns. Qed.

Lemma columns_respaced columns s : Forall printable columns → columns_ToString columns = Ok s →
  ∀ n, (String.length s < n)%nat → respaced n (newline +:+ s) = columns_desc columns.
Proof.
  intros Hp. revert s. induction Hp as [|c columns Hc Hcs IH]; intros s Hs n Hn.
  - injection Hs as <-. by destruct n as [|[]]; [simpl in Hn; lia|..].
  - simpl in Hs. destruct (column_printed c "" Hc) as (tn & H1 & _ & H3 & _).
    destruct (type_printed _ (pr_type _ Hc)) as (tn' & G1 & _ & G3 & G4). assert (tn' = tn) as -> by congruence.
    rewrite H3 in Hs. cbn [mbind res_bind] in Hs. destruct (columns_ToString columns) as [rest|]; [|done]. injection Hs as <-.
    rewrite !string_length_app in Hn. simpl in Hn. destruct n as [|[|[|n]]]; [lia..|].
    assert (entry (name_ c)) as Hname by (split; apply (pr_name _ Hc)).
    pose proof (pretty_entry (max_size_ c) ltac:(destruct (pr_size _ Hc); lia)) as Hsize.
    rewrite !string_app_assoc. cbn [columns_desc]. rewrite H1. cbn [from_option id].
    change (newline +:+ ?x) with (String (Ascii.ascii_of_nat 10) x) at 1. rewrite respaced_word by done.
    change (" " +:+ tn +:+ ?x) with (String (Ascii.ascii_of_nat 32) (tn +:+ x)) at 1. rewrite respaced_word by done.
    change (" " +:+ pretty (max_size_ c) +:+ ?x) with (String (Ascii.ascii_of_nat 32) (pretty (max_size_ c) +:+ x)) at 1.
    rewrite respaced_word by done. rewrite (IH rest eq_refl); [done|].
    assert (pretty (max_size_ c) ≠ "") as Hpz by apply Hsize. destruct (pretty (max_size_ c)); [done|]. simpl in Hn. lia.
Qed.

Lemma columns_desc_read columns : Forall printable columns → ∀ olds, length olds = length columns →
  read_columns olds (Some (columns_desc columns)) = Ok columns.
Proof.
  induction 1 as [|c columns Hc Hcs IH]; intros olds Hl; [by destruct olds|]. destruct olds as [|old olds]; [done|]. injection Hl as Hl.
  destruct (column_printed c (columns_desc columns) Hc) as (tn & H1 & H2 & _ & H4).
  destruct (H4 (Ascii.ascii_of_nat 32) eq_refl (columns_desc_separated columns)) as (R1 & R2 & R3).
  cbn [columns_desc read_columns]. rewrite H1. cbn [from_option id].
  rewrite !string_app_assoc in R1. change (" " +:+ name_ c +:+ ?x) with (String (Ascii.ascii_of_nat 32) (name_ c +:+ x)).
  rewrite R1, R2. change (default "" (Some tn)) with tn. rewrite H2. cbn [mbind res_bind]. rewrite R3, (IH olds Hl). by destruct c.
Qed.

(** The schemas that survive. *)
Definition storable_schema (cl : ColumnList) : Prop :=
  ∃ columns, cl = mk_ColumnList columns ∧ Forall printable columns ∧ NoDup (name_ <$> columns) ∧ Z.of_nat (length columns) < 2 ^ 16.

(** The file of a table is read back. *)
Lemma read_meta_text oid db_oid name cl : 0 <= oid < 2 ^ 32 → 0 <= db_oid < 2 ^ 32 → entry name → storable_schema cl →
  ∃ schema desc, ColumnList_ToString cl = Ok schema ∧
    read_meta (meta_head oid db_oid name +:+ schema) = Ok (oid, db_oid, name, desc) ∧ FromString ColumnList_empty desc = Ok cl.
Proof.
  intros Ho Hd Hn (columns & -> & Hp & Hnd & Hl). destruct (columns_printed columns Hp) as (s & Hs & _).
  destruct (mk_ColumnList_gen columns ColumnList_empty indexed_empty Hnd) as [_ Hcols]. fold (mk_ColumnList columns) in Hcols. simpl in Hcols.
  exists (pretty (Z.of_nat (length columns)) +:+ newline +:+ s), (" " +:+ pretty (Z.of_nat (length columns)) +:+ columns_desc columns).
  split; [unfold ColumnList_ToString, Length; by rewrite Hcols, Hs|].
  set (schema := pretty (Z.of_nat (length columns)) +:+ newline +:+ s). split.
  - unfold read_meta, meta_head. rewrite !string_app_assoc.
    rewrite (proj1 (read_uint_printed 32 oid (" " +:+ _) Ho ltac:(done))).
    change (" " +:+ pretty db_oid +:+ ?x) with (String (Ascii.ascii_of_nat 32) (pretty db_oid +:+ x)).
    rewrite (proj2 (read_uint_printed 32 db_oid (" " +:+ _) Hd ltac:(done))) by done.
    change (" " +:+ name +:+ ?x) with (String (Ascii.ascii_of_nat 32) (name +:+ x)).
    rewrite read_word_printed by (done || apply Hn). do 2 f_equal.
    change (" " +:+ schema) with (String (Ascii.ascii_of_nat 32) (pretty (Z.of_nat (length columns)) +:+ newline +:+ s)).
    rewrite respaced_word; [|done|by apply pretty_entry; lia|done]. rewrite (columns_respaced columns s Hp Hs); [done|].
    simpl. rewrite !string_length_app. simpl. lia.
  - unfold FromString. change (" " +:+ pretty ?z +:+ ?x) with (String (Ascii.ascii_of_nat 32) (pretty z +:+ x)).
    rewrite (proj2 (read_u16_printed (Z.of_nat (length columns)) (columns_desc columns) ltac:(lia) (columns_desc_separated columns))) by done.
    cbn [mbind res_bind]. rewrite columns_desc_read; [|done|by rewrite length_resize, Nat2Z.id].
    cbn [mbind res_bind]. by rewrite mk_ColumnList_index.
Qed.

(** ** The files *)

Lemma file_text_write path text fs : file_text (write_string text path fs) path = Some text.
Proof. unfold file_text, write_string. rewrite WriteFile_data. simpl. by rewrite String.string_of_list_byte_of_string. Qed.
Lemma file_text_append path text fs : file_text (append_string text path fs) path = Some (default "" (file_text fs path) +:+ text).
Proof.
  unfold file_text, append_string. rewrite WriteFile_data. simpl. f_equal. set (b := file_data fs path).
  assert (∀ l, String.string_of_list_byte (l ++ String.list_byte_of_string text) = String.string_of_list_byte l +:+ text) as Happ.
  { intros l. induction l as [|x l IH]; [apply String.string_of_list_byte_of_string|]. exact (f_equal (String (Ascii.ascii_of_byte x)) IH). }
  destruct b; apply Happ.
Qed.
Lemma RemoveFile_wf path fs : fs_wf fs → fs_wf (RemoveFile path fs).
Proof.
  intros [H1 H2]. split; simpl.
  - intros p1 p2 i [_ Hp1]%lookup_delete_Some [_ Hp2]%lookup_delete_Some. by eapply H1.
  - intros p i [_ Hp]%lookup_delete_Some. by eapply H2.
Qed.
Lemma RemoveFile_other path path' fs : path' ≠ path → file_data (RemoveFile path fs) path' = file_data fs path'.
Proof. intros Hne. unfold file_data. simpl. by rewrite lookup_delete_ne. Qed.

(** A change of the file system at one path. *)
Definition changes_only (path : string) (f : Fs → Fs) : Prop :=
  ∀ fs, fs_wf fs → fs_wf (f fs) ∧ ∀ path', path' ≠ path → file_data (f fs) path' = file_data fs path'.
Lemma changes_write path b : changes_only path (WriteFile path b).
Proof. intros fs Hw. split; [by apply WriteFile_wf|intros; by apply WriteFile_other]. Qed.
Lemma changes_string path text : changes_only path (write_string text path).
Proof. apply changes_write. Qed.
Lemma changes_append path text : changes_only path (append_string text path).
Proof. intros fs Hw. by apply changes_write. Qed.
Lemma changes_remove path : changes_only path (RemoveFile path).
Proof. intros fs Hw. split; [by apply RemoveFile_wf|intros; by apply RemoveFile_other]. Qed.
#[local] Hint Resolve changes_write changes_string changes_append changes_remove : core.

(** The paths of the catalog. *)
Definition in_tmp (file : string) : string := pretty TEMP_DATABASE_OID +:+ "/" +:+ file.
Lemma in_tmp_inj f1 f2 : in_tmp f1 = in_tmp f2 → f1 = f2.
Proof. unfold in_tmp. intros Heq. by do 2 apply (inj _) in Heq. Qed.
Lemma string_app_inv_r (a b s : string) : a +:+ s = b +:+ s → a = b.
Proof.
  revert b. induction a as [|c a IH]; intros [|d b] Heq; [done|exfalso|exfalso|].
  1, 2: apply (f_equal String.length) in Heq; rewrite !string_length_app in Heq; simpl in Heq; lia.
  simpl in Heq. injection Heq as -> Heq. by rewrite (IH b).
Qed.
Lemma has_char_app c a b : has_char c (a +:+ b) = has_char c a || has_char c b.
Proof. induction a as [|d a IH]; simpl; [done|]. by rewrite IH, orb_assoc. Qed.

Lemma parent_no_slash s : has_char "/" s = false → parent s = None.
Proof. induction s as [|c s IH]; [done|]. simpl. intros [Hc Hs]%orb_false_iff. by rewrite IH, Hc. Qed.
Lemma parent_in_tmp file : has_char "/" file = false → parent (in_tmp file) = Some (pretty TEMP_DATABASE_OID).
Proof. intros Hf. unfold in_tmp. change (pretty TEMP_DATABASE_OID) with "2". simpl. by rewrite parent_no_slash. Qed.

Definition meta_of (name : string) : string := in_tmp (name +:+ ".meta").
Definition data_of (oid : Z) : string := GetFilePath TEMP_DATABASE_OID oid.
Definition journal_file : string := in_tmp "tables".
Definition dot : ascii := ".".

Lemma meta_of_inj n1 n2 : meta_of n1 = meta_of n2 → n1 = n2.
Proof. intros Heq%in_tmp_inj. by eapply string_app_inv_r. Qed.
Lemma data_of_inj o1 o2 : data_of o1 = data_of o2 → o1 = o2.
Proof. intros Heq. unfold data_of, GetFilePath in Heq. do 2 apply (inj _) in Heq. by apply (inj pretty) in Heq. Qed.
Lemma pretty_no_char c z : isdigit c = false → 0 <= z → has_char c (pretty z) = false.
Proof. intros Hc Hz. apply all_digits_no_char; [done|]. by apply pretty_digits. Qed.
Lemma meta_not_journal name : meta_of name ≠ journal_file.
Proof. intros Heq%in_tmp_inj. apply (f_equal (has_char dot)) in Heq. by rewrite has_char_app, orb_true_r in Heq. Qed.
Lemma meta_not_data name oid : 0 <= oid → meta_of name ≠ data_of oid.
Proof.
  intros Ho Heq. apply (in_tmp_inj (name +:+ ".meta") (pretty oid)) in Heq. apply (f_equal (has_char dot)) in Heq.
  by rewrite has_char_app, orb_true_r, pretty_no_char in Heq.
Qed.
Lemma journal_not_data oid : 0 <= oid → journal_file ≠ data_of oid.
Proof.
  intros Ho Heq. apply (in_tmp_inj "tables" (pretty oid)) in Heq. apply (f_equal (has_char "t"%char)) in Heq.
  by rewrite pretty_no_char in Heq.
Qed.

(** ** The invariant *)

(** What the files say of a table. *)
Record stored_table (fs : Fs) (name : string) (oid : Z) (cl : ColumnList) : Prop := {
  sd_name : table_word name;
  sd_oid : 0 <= oid < 2 ^ 32 - 1;
  sd_schema : storable_schema cl;
  sd_meta : ∃ schema, ColumnList_ToString cl = Ok schema ∧
              file_text fs (meta_of name) = Some (meta_head oid TEMP_DATABASE_OID name +:+ schema);
  sd_data : is_Some (file_data fs (data_of oid))
}.
(** The oids of the tables, and no other entry. *)
Definition oids_are (m : OidManager) (names : gmap string Z) : Prop :=
  oids_wf m ∧ ∀ t n, oid_of m t n = if decide (t = TABLE) then names !! n else None.
(** The state and the files agree. *)
Record stored (σ : SimpleCatalog * System) : Prop := {
  st_database : sc_current_database_oid_ σ.1 = TEMP_DATABASE_OID;
  st_directory : pretty TEMP_DATABASE_OID ∈ sc_directories σ.1;
  st_fs : fs_wf (fs_of σ.2);
  st_oids : oids_are (sc_oid_manager_ σ.1) (sc_name2oid_ σ.1);
  st_tables : ∀ name oid, sc_name2oid_ σ.1 !! name = Some oid →
    ∃ t, sys_tables σ.2 !! oid = Some t ∧ stored_table (fs_of σ.2) name oid (GetColumnList t);
  st_journal : ∃ words, Forall entry words ∧ default "" (file_text (fs_of σ.2) journal_file) = journal_text words ∧
    fold_left journal_step words ∅ = dom (sc_name2oid_ σ.1)
}.

Lemma oids_are_inj m names n1 n2 oid : oids_are m names → names !! n1 = Some oid → names !! n2 = Some oid → n1 = n2.
Proof. intros [Hwf Hn] H1 H2. apply (ow_inj _ Hwf TABLE n1 TABLE n2 oid); by rewrite Hn. Qed.
Lemma oids_are_range m names n oid : oids_are m names → names !! n = Some oid → 0 <= oid < next_oid_ m.
Proof. intros [Hwf Hn] H1. apply (ow_fresh _ Hwf). exists n. apply (ow_name _ Hwf TABLE). by rewrite Hn. Qed.
Lemma oids_are_exists m names n : oids_are m names → EntryExists m TABLE n = Ok (bool_decide (is_Some (names !! n))).
Proof. intros [_ Hn]. by rewrite EntryExists_oid, Hn. Qed.

(** Changes to other files do not matter. *)
Lemma stored_table_fs fs fs' name oid cl : stored_table fs name oid cl →
  file_data fs' (meta_of name) = file_data fs (meta_of name) → (is_Some (file_data fs (data_of oid)) → is_Some (file_data fs' (data_of oid))) →
  stored_table fs' name oid cl.
Proof. intros [H1 H2 H3 H4 H5] Hm Hd. split; [done..| |by apply Hd]. unfold file_text in *. by rewrite Hm. Qed.

Section Runs.
Context `{NameOrder}.

Definition with_fs (f : Fs → Fs) (s : System) : System := (on_pool_ (on_disk_ (modify (λ d, set_fs (f (fs_ d)) d))) s).2.
Definition with_table (oid : Z) (t : Table) (s : System) : System := mkSystem (sys_pool s) (sys_tm s) (<[oid := t]> (sys_tables s)).
Definition without_table (oid : Z) (s : System) : System := mkSystem (sys_pool s) (sys_tm s) (delete oid (sys_tables s)).

Lemma fs_of_with f s : fs_of (with_fs f s) = f (fs_of s).
Proof. done. Qed.
Lemma on_fs_step {B} f (k : unit → M (SimpleCatalog * System) B) c s : (sc_on_fs f ≫= k) (c, s) = k () (c, with_fs f s).
Proof. done. Qed.
Lemma write_in_run c0 file f c s : pretty TEMP_DATABASE_OID ∈ sc_directories c0 → has_char "/" file = false →
  write_in c0 (in_tmp file) f (c, s) = (Ok (), (c, with_fs (f (in_tmp file)) s)).
Proof. intros Hd Hf. unfold write_in. by rewrite parent_in_tmp, decide_True. Qed.
Lemma write_in_step {B} c0 file f (k : unit → M (SimpleCatalog * System) B) c s : pretty TEMP_DATABASE_OID ∈ sc_directories c0 → has_char "/" file = false →
  (write_in c0 (in_tmp file) f ≫= k) (c, s) = k () (c, with_fs (f (in_tmp file)) s).
Proof. intros Hd Hf. by apply M_bind_step, write_in_run. Qed.
Lemma on_cat_step {B} f (k : unit → M (SimpleCatalog * System) B) c s : (sc_on_cat (modify f) ≫= k) (c, s) = k () (f c, s).
Proof. done. Qed.
Lemma on_oids_step {A B} (m : M OidManager A) (k : A → M (SimpleCatalog * System) B) a m' c s :
  m (sc_oid_manager_ c) = (Ok a, m') → (sc_on_oids m ≫= k) (c, s) = k a (sc_set_oids m' c, s).
Proof. intros Hm. unfold sc_on_oids, sc_on_cat, zoom, mbind, M_bind. simpl. by rewrite Hm. Qed.

Lemma without_table_step {B} oid (k : unit → M (SimpleCatalog * System) B) c s :
  (sc_on_sys (modify (λ s, mkSystem (sys_pool s) (sys_tm s) (delete oid (sys_tables s)))) ≫= k) (c, s) = k () (c, without_table oid s).
Proof. done. Qed.

(** A table put into the map of the tables when its file is there. *)
Lemma load_table_step {B} oid db cl new (k : unit → M (SimpleCatalog * System) B) c s b : file_data (fs_of s) (GetFilePath db oid) = Some b →
  (sc_load_table oid db cl new ≫= k) (c, s) = k () (c, with_table oid (Table_new oid db cl new (bool_decide (b = []))) s).
Proof.
  intros Hb. unfold sc_load_table. rewrite bind_assoc_run, get_step, bind_assoc_run. unfold EmptyFile. cbn [snd]. by rewrite Hb.
Qed.

Lemma storable_text cl : storable_schema cl → ∃ schema, ColumnList_ToString cl = Ok schema.
Proof.
  intros (columns & -> & Hp & Hnd & _). destruct (columns_printed columns Hp) as (s & Hs & _).
  destruct (mk_ColumnList_gen columns ColumnList_empty indexed_empty Hnd) as [_ Hcols]. fold (mk_ColumnList columns) in Hcols. simpl in Hcols.
  eexists. unfold ColumnList_ToString. by rewrite Hcols, Hs.
Qed.

(** The whole of [CreateTable] for a new name. *)
Lemma CreateTable_run name cl σ : stored σ → table_word name → storable_schema cl → sc_name2oid_ σ.1 !! name = None → next_oid_ (sc_oid_manager_ σ.1) < 2 ^ 32 - 1 →
  ∃ schema m', ColumnList_ToString cl = Ok schema ∧
    let oid := next_oid_ (sc_oid_manager_ σ.1) in
    CreateEntry TABLE name (sc_oid_manager_ σ.1) = (Ok oid, m') ∧
    CreateTable name cl INVALID_OID INVALID_OID true σ =
      (Ok (), (sc_set_names (<[name := oid]> (sc_name2oid_ σ.1)) (sc_set_oids m' σ.1),
               with_fs (append_string (name +:+ " ") journal_file)
                 (with_fs (write_string (meta_head oid TEMP_DATABASE_OID name +:+ schema) (meta_of name))
                   (with_table oid (Table_new oid TEMP_DATABASE_OID cl true true) (with_fs (CreateFile (data_of oid)) σ.2))))).
Proof.
  intros [Hdb Hdir Hfs Hoids Htabs _] Hword Hcl Hno Hmax. destruct σ as [c s]. simpl in *. destruct (storable_text cl Hcl) as [schema Hs].
  destruct Hoids as [Hwf Hnames]. destruct (CreateEntry_run (sc_oid_manager_ c) TABLE name Hwf ltac:(done) Hmax) as (m' & Hrun & _); [by rewrite Hnames|].
  exists schema, m'. split; [done|]. split; [done|]. unfold CreateTable. rewrite get_step.
  rewrite (lift_step _ false); [|cbn [fst]; by rewrite (oids_are_exists _ _ name (conj Hwf Hnames)), Hno].
  change (INVALID_OID =? INVALID_OID) with true. cbn iota. rewrite (on_oids_step _ _ _ _ _ _ Hrun). cbn [fst]. rewrite Hdb.
  change (TEMP_DATABASE_OID =? SYSTEM_DATABASE_OID) with false. rewrite andb_false_r. cbn iota.
  change (GetFilePath TEMP_DATABASE_OID ?o) with (in_tmp (pretty o)).
  rewrite write_in_step by first [done|apply pretty_no_char; [done|by apply ow_next]]. rewrite on_cat_step.
  rewrite (load_table_step _ _ _ _ _ _ _ []) by apply WriteFile_data. cbn [negb]. unfold write_meta.
  rewrite bind_assoc_run, get_step, Hs. unfold sc_path. cbn [fst sc_current_database_oid_ sc_set_names sc_set_oids]. rewrite Hdb.
  change (pretty TEMP_DATABASE_OID +:+ "/" +:+ ?f) with (in_tmp f).
  rewrite write_in_step by (done || by rewrite has_char_app, (proj2 (proj2 Hword))). rewrite get_step. unfold journal, sc_path.
  cbn [fst sc_current_database_oid_ sc_set_names sc_set_oids]. rewrite Hdb. by rewrite (write_in_run _ "tables").
Qed.

Lemma DropTable_run name oid σ : stored σ → sc_name2oid_ σ.1 !! name = Some oid →
  ∃ m', DropEntry TABLE name (sc_oid_manager_ σ.1) = (Ok oid, m') ∧
    DropTable name σ =
      (Ok (), (sc_set_oids m' (sc_set_names (delete name (sc_name2oid_ σ.1)) σ.1),
               with_fs (append_string (String tilde name +:+ " ") journal_file)
                 (with_fs (RemoveFile (meta_of name)) (without_table oid (with_fs (RemoveFile (data_of oid)) σ.2))))).
Proof.
  intros [Hdb Hdir Hfs Hoids Htabs _] Ho. destruct σ as [c s]. cbn [fst snd] in *.
  pose proof (oids_are_exists _ _ name Hoids) as Hex. destruct Hoids as [Hwf Hnames].
  assert (oid_of (sc_oid_manager_ c) TABLE name = Some oid) as Hoid by by rewrite Hnames.
  destruct (DropEntry_run (sc_oid_manager_ c) TABLE name oid Hwf Hoid) as (m' & Hrun & _).
  exists m'. split; [done|]. unfold DropTable. rewrite get_step. cbn [fst]. rewrite Hdb.
  change (TEMP_DATABASE_OID =? SYSTEM_DATABASE_OID) with false. cbn iota.
  rewrite (lift_step _ oid).
  2:{ unfold GetTableOid. rewrite Hex, Ho. rs. by apply GetEntryOid_oid. }
  rewrite on_fs_step, on_cat_step.
  rewrite (without_table_step oid).
  rewrite (on_oids_step _ _ oid m') by done. rewrite on_fs_step, get_step. unfold journal, sc_path.
  cbn [fst sc_current_database_oid_ sc_set_names sc_set_oids]. rewrite Hdb. by rewrite (write_in_run _ "tables").
Qed.

(** *** The operations keep the invariant *)

Definition changes_at (paths : list string) (fs fs' : Fs) : Prop :=
  fs_wf fs' ∧ ∀ path, path ∉ paths → file_data fs' path = file_data fs path.
Lemma changes_at_step paths path f fs fs' : changes_at paths fs fs' → changes_only path f → path ∈ paths → changes_at paths fs (f fs').
Proof.
  intros [Hw Hd] Hf Hp. destruct (Hf fs' Hw) as [Hw' Hd']. split; [done|]. intros q Hq. rewrite Hd'; [by apply Hd|]. by intros ->.
Qed.

(** The other tables keep their files. *)
Lemma stored_table_kept fs fs' name oid n o cl : changes_at [journal_file; meta_of name; data_of oid] fs fs' → 0 <= oid → n ≠ name → o ≠ oid →
  stored_table fs n o cl → stored_table fs' n o cl.
Proof.
  intros [_ Hd] Ho Hn Hoid Hst. pose proof (sd_oid _ _ _ _ Hst). apply (stored_table_fs fs); [done|..].
  - apply Hd. rewrite !elem_of_cons, elem_of_nil. intros [?%meta_not_journal|[?%meta_of_inj|[?%meta_not_data|[]]]]; done.
  - rewrite Hd; [done|]. rewrite !elem_of_cons, elem_of_nil.
    intros [?%eq_sym%journal_not_data|[?%eq_sym%meta_not_data|[?%data_of_inj|[]]]]; (done || lia).
Qed.

Lemma journal_appended fs word words : default "" (file_text fs journal_file) = journal_text words →
  file_text (append_string (word +:+ " ") journal_file fs) journal_file = Some (journal_text (words ++ [word])).
Proof. intros Ht. by rewrite file_text_append, Ht, journal_text_app. Qed.

Lemma stored_create name cl σ : stored σ → table_word name → storable_schema cl → sc_name2oid_ σ.1 !! name = None →
  next_oid_ (sc_oid_manager_ σ.1) < 2 ^ 32 - 1 → ∃ σ', CreateTable name cl INVALID_OID INVALID_OID true σ = (Ok (), σ') ∧ stored σ' ∧
    sc_name2oid_ σ'.1 = <[name := next_oid_ (sc_oid_manager_ σ.1)]> (sc_name2oid_ σ.1).
Proof.
  intros Hst Hword Hcl Hno Hmax. destruct (CreateTable_run name cl σ Hst Hword Hcl Hno Hmax) as (schema & m' & Hs & Hrun & ->).
  eexists. split; [reflexivity|]. split; [|done]. destruct Hst as [Hdb Hdir Hfs Hoids Htabs Hj]. destruct σ as [c s]. cbn [fst snd] in *.
  pose proof (fun n o => oids_are_range _ _ n o Hoids) as Hrange. destruct Hoids as [Hwf Hnames].
  destruct (CreateEntry_run (sc_oid_manager_ c) TABLE name Hwf ltac:(done) Hmax) as (m'' & Hrun' & Hwf' & Hnext & _ & Hof); [by rewrite Hnames|].
  rewrite Hrun in Hrun'. injection Hrun' as <-. set (oid := next_oid_ (sc_oid_manager_ c)) in *. pose proof (ow_next _ Hwf) as H0next. fold oid in H0next.
  set (s' := with_fs _ _). assert (changes_at [journal_file; meta_of name; data_of oid] (fs_of s) (fs_of s')) as Hch.
  { subst s'. rewrite !fs_of_with. apply changes_at_step with journal_file; [|by auto|set_solver].
    apply changes_at_step with (meta_of name); [|by auto|set_solver]. change (fs_of (with_table ?o ?t ?x)) with (fs_of x). rewrite fs_of_with.
    apply changes_at_step with (data_of oid); [|apply changes_write|set_solver]. by split. }
  split; cbn [fst snd]; [done|done|apply Hch| | |].
  - split; [done|]. intros t n. cbn [sc_oid_manager_ sc_set_names sc_set_oids sc_name2oid_]. rewrite Hof, Hnames.
    destruct (decide (t = TABLE)) as [->|]; [|by rewrite decide_False by naive_solver].
    destruct (decide (n = name)) as [->|]; [by rewrite decide_True, lookup_insert_eq|]. by rewrite decide_False, lookup_insert_ne by naive_solver.
  - cbn [sc_name2oid_ sc_set_names]. intros n o [[<- <-]|[Hne Ho]]%lookup_insert_Some.
    + exists (Table_new oid TEMP_DATABASE_OID cl true true). split; [apply lookup_insert_eq|]. split; [done|lia|done| |].
      * exists schema. split; [done|]. subst s'. rewrite fs_of_with. unfold file_text, append_string.
        rewrite WriteFile_other; [apply file_text_write|by apply changes_string, changes_write|apply meta_not_journal].
      * subst s'. rewrite fs_of_with. unfold append_string. rewrite WriteFile_other; [|by apply changes_string, changes_write|by apply not_eq_sym, journal_not_data].
        rewrite fs_of_with. unfold write_string. rewrite WriteFile_other; [|by apply changes_write|by apply not_eq_sym, meta_not_data].
        change (fs_of (with_table ?o ?t ?x)) with (fs_of x). rewrite fs_of_with. unfold CreateFile. rewrite WriteFile_data. by eexists.
    + specialize (Hrange n o Ho). destruct (Htabs n o Ho) as (t & Ht & Hst). exists t. split.
      * change (sys_tables s') with (<[oid := Table_new oid TEMP_DATABASE_OID cl true true]> (sys_tables s)). rewrite lookup_insert_ne; [done|]. lia.
      * apply (stored_table_kept (fs_of s) _ name oid); try done. lia.
  - destruct Hj as (words & Hw & Ht & Hl). exists (words ++ [name]). split; [apply Forall_app; split; [done|]; constructor; [apply Hword|done]|]. split.
    + subst s'. rewrite fs_of_with. rewrite (journal_appended _ name words); [done|]. rewrite <- Ht. f_equal. unfold file_text. f_equal.
      rewrite fs_of_with. unfold write_string. rewrite WriteFile_other; [|by apply changes_write|by apply not_eq_sym, meta_not_journal].
      change (fs_of (with_table ?o ?t ?x)) with (fs_of x). rewrite fs_of_with. unfold CreateFile. apply WriteFile_other; [done|by apply journal_not_data].
    + rewrite fold_left_app. simpl. rewrite Hl, journal_created by done. by rewrite dom_insert_L.
Qed.

Lemma stored_drop name oid σ : stored σ → sc_name2oid_ σ.1 !! name = Some oid →
  ∃ σ', DropTable name σ = (Ok (), σ') ∧ stored σ' ∧ sc_name2oid_ σ'.1 = delete name (sc_name2oid_ σ.1).
Proof.
  intros Hst Ho. destruct (DropTable_run name oid σ Hst Ho) as (m' & Hrun & ->).
  eexists. split; [reflexivity|]. split; [|done]. destruct Hst as [Hdb Hdir Hfs Hoids Htabs Hj]. destruct σ as [c s]. cbn [fst snd] in *.
  pose proof (fun n H => oids_are_inj _ _ n name oid Hoids H Ho) as Hinj. pose proof (oids_are_range _ _ _ _ Hoids Ho) as Hrange. destruct Hoids as [Hwf Hnames].
  assert (oid_of (sc_oid_manager_ c) TABLE name = Some oid) as Hoid by by rewrite Hnames.
  destruct (DropEntry_run (sc_oid_manager_ c) TABLE name oid Hwf Hoid) as (m'' & Hrun' & Hwf' & _ & _ & Hof).
  rewrite Hrun in Hrun'. injection Hrun' as <-. destruct (Htabs name oid Ho) as (t0 & _ & Hname%sd_name).
  set (s' := with_fs _ _). assert (changes_at [journal_file; meta_of name; data_of oid] (fs_of s) (fs_of s')) as Hch.
  { subst s'. rewrite !fs_of_with. apply changes_at_step with journal_file; [|by auto|set_solver].
    apply changes_at_step with (meta_of name); [|by auto|set_solver]. change (fs_of (without_table ?o ?x)) with (fs_of x). rewrite fs_of_with.
    apply changes_at_step with (data_of oid); [|by auto|set_solver]. by split. }
  split; cbn [fst snd]; [done|done|apply Hch| | |].
  - split; [done|]. intros t n. cbn [sc_oid_manager_ sc_set_names sc_set_oids sc_name2oid_]. rewrite Hof, Hnames.
    destruct (decide (t = TABLE)) as [->|]; [|by destruct (decide _)].
    destruct (decide (n = name)) as [->|]; [by rewrite decide_True, lookup_delete_eq|]. by rewrite decide_False, lookup_delete_ne by naive_solver.
  - cbn [sc_name2oid_ sc_set_names sc_set_oids]. intros n o [Hne Hno]%lookup_delete_Some. destruct (Htabs n o Hno) as (t & Ht & Hst).
    assert (o ≠ oid) as Hneo by (intros ->; by destruct Hne; rewrite (Hinj n)). exists t. split.
    + change (sys_tables s') with (delete oid (sys_tables s)). by rewrite lookup_delete_ne.
    + apply (stored_table_kept (fs_of s) _ name oid); try done. lia.
  - destruct Hj as (words & Hw & Ht & Hl). exists (words ++ [String tilde name]).
    split; [apply Forall_app; split; [done|]; constructor; [split; [done|]; apply Hname|done]|]. split.
    + subst s'. rewrite fs_of_with. rewrite (journal_appended _ (String tilde name) words); [done|]. rewrite <- Ht. f_equal. unfold file_text. f_equal.
      rewrite fs_of_with, RemoveFile_other by apply not_eq_sym, meta_not_journal.
      change (fs_of (without_table ?o ?x)) with (fs_of x). rewrite fs_of_with. apply RemoveFile_other, journal_not_data. lia.
    + rewrite fold_left_app. cbn [fold_left]. rewrite Hl, journal_dropped. cbn [sc_name2oid_ sc_set_names sc_set_oids]. by rewrite dom_delete_L.
Qed.

(** *** Loading *)

(** The catalog with the tables of [names] loaded, of those that [σ0] has. *)
Record loaded (σ0 : SimpleCatalog * System) (names : list string) (σ : SimpleCatalog * System) : Prop := {
  ld_database : sc_current_database_oid_ σ.1 = TEMP_DATABASE_OID;
  ld_directories : sc_directories σ.1 = sc_directories σ0.1;
  ld_fs : fs_of σ.2 = fs_of σ0.2;
  ld_next : next_oid_ (sc_oid_manager_ σ.1) = next_oid_ (sc_oid_manager_ σ0.1);
  ld_oids : oids_are (sc_oid_manager_ σ.1) (sc_name2oid_ σ.1);
  ld_names : ∀ n, sc_name2oid_ σ.1 !! n = if decide (n ∈ names) then sc_name2oid_ σ0.1 !! n else None;
  ld_tables : ∀ n oid, sc_name2oid_ σ.1 !! n = Some oid →
    GetColumnList <$> sys_tables σ.2 !! oid = GetColumnList <$> sys_tables σ0.2 !! oid
}.

Lemma load_meta_run σ0 names name σ : stored σ0 → loaded σ0 names σ → name ∉ names → is_Some (sc_name2oid_ σ0.1 !! name) →
  ∃ σ', load_meta name σ = (Ok (), σ') ∧ loaded σ0 (name :: names) σ'.
Proof.
  intros Hst0 [Hdb Hdir Hfs Hnext Hoids Hnames Htabs] Hnew [oid Ho]. destruct σ as [c s]. cbn [fst snd] in *.
  destruct (st_tables _ Hst0 name oid Ho) as (t & Ht & [Hword Hr Hcl (schema & Hs & Hmeta) [data Hdata]]).
  destruct (read_meta_text oid TEMP_DATABASE_OID name (GetColumnList t) ltac:(lia) ltac:(done) (proj1 Hword) Hcl) as (schema' & desc & Hs' & Hread & Hcols).
  rewrite Hs in Hs'. injection Hs' as <-.
  pose proof (oids_are_range _ _ _ _ (st_oids _ Hst0) Ho) as Hrange.
  assert (sc_name2oid_ c !! name = None) as Hno by by rewrite Hnames, decide_False.
  pose proof (oids_are_exists _ _ name Hoids) as Hex. rewrite Hno in Hex.
  assert (∀ n, sc_name2oid_ c !! n ≠ Some oid) as Hfree.
  { intros n Hn. rewrite Hnames in Hn. case_decide as Hin; [|done]. by rewrite (oids_are_inj _ _ _ _ _ (st_oids _ Hst0) Hn Ho) in Hin. }
  destruct Hoids as [Hwf Hof].
  destruct (SetEntryOid_run (sc_oid_manager_ c) TABLE name oid Hwf ltac:(done)) as (m' & Hrun & Hwf' & Hnext' & _ & Hof'); [by rewrite Hof| |lia|].
  { destruct (oid2name_ (sc_oid_manager_ c) !! oid) as [n|] eqn:Hn; [|done]. destruct (ow_entry _ Hwf _ _ Hn) as [ty Hty].
    rewrite Hof in Hty. case_decide; [|done]. by destruct (Hfree n). }
  eexists. split.
  - unfold load_meta. rewrite get_step. unfold sc_path. cbn [fst snd]. rewrite Hdb.
    change (pretty TEMP_DATABASE_OID +:+ "/" +:+ name +:+ ".meta") with (meta_of name). rewrite Hfs, Hmeta.
    cbn [from_option]. rewrite (lift_step _ _ _ _ eq_refl), Hread, (lift_step _ _ _ _ eq_refl). cbn beta iota.
    rewrite Hcols, (lift_step _ _ _ _ eq_refl).
    unfold CreateTable. rewrite get_step. change (TEMP_DATABASE_OID =? INVALID_OID) with false. cbn [fst]. rewrite Hex, (lift_step _ _ _ _ eq_refl).
    cbn [bool_decide]. change (bool_decide (is_Some None)) with false. destruct (Z.eqb_spec oid INVALID_OID) as [->|_]; [by destruct Hr|]. cbn iota.
    rewrite bind_assoc_run, (on_oids_step _ _ _ _ _ _ Hrun). cbn [mret M_ret].
    rewrite (M_bind_step _ _ _ (sc_set_oids m' c, s) oid eq_refl). change (TEMP_DATABASE_OID =? SYSTEM_DATABASE_OID) with false. rewrite andb_false_r. cbn iota.
    rewrite (M_bind_step _ _ _ (sc_set_oids m' c, s) () eq_refl), on_cat_step.
    rewrite (load_table_step _ _ _ _ _ _ _ data) by (rewrite Hfs; exact Hdata). reflexivity.
  - split; cbn [fst snd sc_current_database_oid_ sc_directories sc_oid_manager_ sc_name2oid_ sc_set_names sc_set_oids]; try done.
    + by rewrite Hnext'.
    + split; [done|]. intros ty n. rewrite Hof', Hof. destruct (decide (ty = TABLE)) as [->|]; [|by rewrite decide_False by naive_solver].
      destruct (decide (n = name)) as [->|]; [by rewrite decide_True, lookup_insert_eq|]. by rewrite decide_False, lookup_insert_ne by naive_solver.
    + intros n. destruct (decide (n = name)) as [->|Hne]; [rewrite lookup_insert_eq, decide_True by left; by rewrite Ho|].
      rewrite lookup_insert_ne, Hnames by done. destruct (decide (n ∈ names)); [by rewrite decide_True by by right|].
      rewrite decide_False; [done|]. by intros [|]%elem_of_cons.
    + intros n o [[<- <-]|[Hne Hn]]%lookup_insert_Some; cbn [sys_tables with_table]; [by rewrite lookup_insert_eq, Ht|].
      rewrite lookup_insert_ne by (intros <-; by destruct (Hfree n)). by eapply Htabs.
Qed.

Lemma load_all_run σ0 todo : stored σ0 → ∀ names σ, loaded σ0 names σ → NoDup todo → (∀ n, n ∈ todo → n ∉ names ∧ is_Some (sc_name2oid_ σ0.1 !! n)) →
  ∃ names' σ', load_all todo σ = (Ok (), σ') ∧ loaded σ0 names' σ' ∧ ∀ n, n ∈ names' ↔ n ∈ todo ∨ n ∈ names.
Proof.
  intros Hst. induction todo as [|name todo IH]; intros names σ Hl Hnd Htodo; [exists names, σ; split_and!; [done..|]; set_solver|].
  apply NoDup_cons in Hnd as [Hname Hnd]. destruct (Htodo name ltac:(left)) as [Hnew Hin].
  destruct (load_meta_run σ0 names name σ Hst Hl Hnew Hin) as (σ1 & Hrun & Hl1).
  destruct (IH (name :: names) σ1 Hl1 Hnd) as (names' & σ' & Hrun' & Hl' & Hn).
  { intros n Hn. destruct (Htodo n) as [Hni Hs]; [by right|]. split; [|done]. intros [->|]%elem_of_cons; done. }
  exists names', σ'. split; [cbn [load_all]; by rewrite (M_bind_step _ _ _ _ _ Hrun)|]. split; [done|]. set_solver.
Qed.

Lemma LoadSystemTables_run σ0 s : stored σ0 → fs_of s = fs_of σ0.2 →
  ∃ σ', LoadSystemTables (SimpleCatalog_new (GetNextOid (sc_oid_manager_ σ0.1)) (sc_directories σ0.1), s) = (Ok (), σ') ∧
    stored σ' ∧ sc_name2oid_ σ'.1 = sc_name2oid_ σ0.1 ∧ fs_of σ'.2 = fs_of σ0.2 ∧
    next_oid_ (sc_oid_manager_ σ'.1) = next_oid_ (sc_oid_manager_ σ0.1) ∧
    ∀ name oid, sc_name2oid_ σ0.1 !! name = Some oid →
      GetColumnList <$> sys_tables σ'.2 !! oid = GetColumnList <$> sys_tables σ0.2 !! oid.
Proof.
  intros Hst Hfs. destruct (st_journal _ Hst) as (words & Hw & Ht & Hl).
  set (c := sc_set_database TEMP_DATABASE_OID (SimpleCatalog_new (GetNextOid (sc_oid_manager_ σ0.1)) (sc_directories σ0.1))).
  assert (loaded σ0 [] (c, s)) as Hl0.
  { split; try done; cbn. split; [|intros t n; unfold oid_of; destruct (entry_name t n); simpl; by destruct (decide _)].
    pose proof (ow_next _ (proj1 (st_oids _ Hst))) as Hnext. apply reached_wf. by constructor. }
  destruct (load_all_run σ0 (name_order (dom (sc_name2oid_ σ0.1))) Hst [] (c, s) Hl0) as (names & σ' & Hrun & Hl' & Hnames).
  { rewrite name_order_perm. apply NoDup_elements. }
  { intros n Hn. split; [by apply not_elem_of_nil|]. apply elem_of_dom, elem_of_elements. by rewrite <- name_order_perm. }
  assert (sc_name2oid_ σ'.1 = sc_name2oid_ σ0.1) as Hall.
  { apply map_eq. intros n. rewrite (ld_names _ _ _ Hl'). case_decide as Hin; [done|]. symmetry. apply eq_None_not_Some. intros Hs.
    apply Hin, Hnames. left. rewrite name_order_perm. by apply elem_of_elements, elem_of_dom. }
  exists σ'. split.
  { unfold LoadSystemTables. rewrite on_cat_step, get_step. fold c. cbn [fst snd]. unfold sc_path. cbn [sc_current_database_oid_ c sc_set_database].
    change (pretty TEMP_DATABASE_OID +:+ "/" +:+ "tables") with journal_file. by rewrite Hfs, Ht, live_names_text, Hl. }
  destruct Hl' as [Hdb Hdir Hfs' Hnext Hoids _ Htabs]. split; [|split_and!; try done; intros name oid Ho; apply (Htabs name); by rewrite Hall].
  split; [done|rewrite Hdir; apply Hst|rewrite Hfs'; apply Hst|done| |rewrite Hfs', Hall; by apply Hst].
  intros name oid Ho. pose proof (Htabs name oid Ho) as Hcl. rewrite Hall in Ho. destruct (st_tables _ Hst name oid Ho) as (t0 & Ht0 & Hst0).
  rewrite Ht0 in Hcl. destruct (sys_tables σ'.2 !! oid) as [t|]; [|done]. injection Hcl as Hcl. exists t. split; [done|]. by rewrite Hfs', Hcl.
Qed.

(** *** The states of a database *)

(** A new database; tables created and dropped, with or without success; whatever
    the rest of the program does to the pages and the other files; and a restart
    from the files, with the next oid of the control file. *)
Inductive sc_reached : SimpleCatalog * System → Prop :=
| sr_new next dirs s r σ : 0 <= next → fs_wf (fs_of s) → file_data (fs_of s) journal_file = None →
    CreateSystemTables (SimpleCatalog_new next dirs, s) = (r, σ) → sc_reached σ
| sr_create σ name cl r σ' : sc_reached σ → table_word name → storable_schema cl → next_oid_ (sc_oid_manager_ σ.1) < 2 ^ 32 - 1 →
    CreateTable name cl INVALID_OID INVALID_OID true σ = (r, σ') → sc_reached σ'
| sr_drop σ name r σ' : sc_reached σ → DropTable name σ = (r, σ') → sc_reached σ'
| sr_other σ s' : sc_reached σ → fs_wf (fs_of s') →
    file_data (fs_of s') journal_file = file_data (fs_of σ.2) journal_file →
    (∀ name, file_data (fs_of s') (meta_of name) = file_data (fs_of σ.2) (meta_of name)) →
    (∀ oid, is_Some (file_data (fs_of σ.2) (data_of oid)) → is_Some (file_data (fs_of s') (data_of oid))) →
    (∀ oid, GetColumnList <$> sys_tables s' !! oid = GetColumnList <$> sys_tables σ.2 !! oid) → sc_reached (σ.1, s')
| sr_restart σ s r σ' : sc_reached σ → fs_of s = fs_of σ.2 →
    LoadSystemTables (SimpleCatalog_new (GetNextOid (sc_oid_manager_ σ.1)) (sc_directories σ.1), s) = (r, σ') → sc_reached σ'.

Lemma sc_reached_stored σ : sc_reached σ → stored σ.
Proof.
  induction 1 as [next dirs s r σ Hn Hfs Hj Hrun|σ name cl r σ' _ IH Hword Hcl Hmax Hrun|σ name r σ' _ IH Hrun|σ s' _ IH Hfs Hj Hm Hd Ht|σ s r σ' _ IH Hs Hrun].
  - unfold CreateSystemTables in Hrun. rewrite on_cat_step in Hrun. injection Hrun as _ <-. split; cbn; [done|set_solver|done| |done|].
    + split; [apply reached_wf; by constructor|]. intros t n. unfold oid_of. destruct (entry_name t n); simpl; by destruct (decide _).
    + exists []. split; [done|]. split; [|done]. unfold file_text. by rewrite Hj.
  - destruct (sc_name2oid_ σ.1 !! name) as [oid|] eqn:Ho.
    + assert (σ' = σ) as ->; [|done]. unfold CreateTable in Hrun. rewrite get_step, (oids_are_exists _ _ name (st_oids _ IH)), Ho in Hrun.
      rewrite (lift_step _ true) in Hrun by by rewrite bool_decide_eq_true_2. by injection Hrun.
    + destruct (stored_create name cl σ IH Hword Hcl Ho Hmax) as (σ1 & Hrun' & Hst & _). rewrite Hrun in Hrun'. by injection Hrun' as _ ->.
  - destruct (sc_name2oid_ σ.1 !! name) as [oid|] eqn:Ho.
    + destruct (stored_drop name oid σ IH Ho) as (σ1 & Hrun' & Hst & _). rewrite Hrun in Hrun'. by injection Hrun' as _ ->.
    + assert (σ' = σ) as ->; [|done]. unfold DropTable in Hrun. rewrite get_step, (st_database _ IH) in Hrun.
      change (TEMP_DATABASE_OID =? SYSTEM_DATABASE_OID) with false in Hrun. cbn iota in Hrun. unfold GetTableOid in Hrun.
      rewrite (oids_are_exists _ _ name (st_oids _ IH)), Ho in Hrun. by injection Hrun.
  - destruct IH as [H1 H2 H3 H4 H5 (words & H6 & H7 & H8)]. split; cbn [fst snd]; try done.
    + intros name oid Ho. destruct (H5 name oid Ho) as (t & Hlook & Hst). specialize (Ht oid). rewrite Hlook in Ht.
      destruct (sys_tables s' !! oid) as [t'|]; [|done]. injection Ht as Ht. exists t'. split; [done|]. rewrite Ht. by apply (stored_table_fs (fs_of σ.2)); auto.
    + exists words. split; [done|]. split; [|done]. unfold file_text. rewrite Hj. exact H7.
  - destruct (LoadSystemTables_run σ s IH Hs) as (σ1 & Hrun' & Hst & _). rewrite Hrun in Hrun'. by injection Hrun' as _ ->.
Qed.

(** ** Properties *)

(** C10: the tables survive a restart. From every state that a new database reaches
    by creating and dropping tables, by whatever leaves the text files alone and by
    earlier restarts, loading the system tables from the files succeeds in any order
    of the names, changes no file, and gives the names, the oids and the columns of
    the tables as they were, also the errors for the names that have no table. *)
Theorem tables_survive σ s : sc_reached σ → fs_of s = fs_of σ.2 →
  ∃ σ', LoadSystemTables (SimpleCatalog_new (GetNextOid (sc_oid_manager_ σ.1)) (sc_directories σ.1), s) = (Ok (), σ') ∧
    fs_of σ'.2 = fs_of σ.2 ∧ GetTableNames σ'.1 = GetTableNames σ.1 ∧
    ∀ name, GetTableOid σ'.1 name = GetTableOid σ.1 name ∧ GetTableColumnList σ' name = GetTableColumnList σ name.
Proof.
  intros Hst%sc_reached_stored Hfs. destruct (LoadSystemTables_run σ s Hst Hfs) as (σ' & Hrun & Hst' & Hnames & Hfs' & Hnext & Htabs).
  exists σ'. split; [done|]. split; [done|]. split; [unfold GetTableNames; by rewrite Hnames|]. intros name.
  assert (∀ σ, stored σ → GetTableOid σ.1 name = match sc_name2oid_ σ.1 !! name with Some oid => Ok oid
    | None => Err (DbException (quoted "Table " name " does not exist")) end) as Hoid.
  { intros σ1 H1. unfold GetTableOid. pose proof (oids_are_exists _ _ name (st_oids _ H1)) as ->. destruct (st_oids _ H1) as [_ Hof].
    destruct (sc_name2oid_ σ1.1 !! name) as [oid|] eqn:Ho; [|done]. rs. rewrite bool_decide_eq_true_2 by done. simpl. apply GetEntryOid_oid. by rewrite Hof. }
  assert (GetTableOid σ'.1 name = GetTableOid σ.1 name) as Heq by (rewrite !Hoid by done; by rewrite Hnames). split; [done|].
  unfold GetTableColumnList. rewrite Heq, Hoid by done. destruct (sc_name2oid_ σ.1 !! name) as [oid|] eqn:Ho; [|done]. rs.
  specialize (Htabs name oid Ho). destruct (st_tables _ Hst name oid Ho) as (t & Ht & _). rewrite Ht in Htabs. unfold the_table.
  destruct (sys_tables σ'.2 !! oid) as [t'|]; [|done]. injection Htabs as Htabs. rewrite Ht. simpl. by rewrite Htabs.
Qed.
End Runs.

(** A database with a table created, another created and dropped. *)
#[local] Instance ex_names : NameOrder := {| name_order := λ s, elements s; name_order_perm := λ s, reflexivity _ |}.
Definition ex_simple_disk : Disk := match Disk_new Fs_empty with Ok d => d | Err _ => mkDisk Fs_empty ∅ (mkStream None false) 0 0 end.
Definition ex_simple_system : System :=
  mkSystem (mkPool (mkLogDisk (LogManager_new FIRST_LSN) ex_simple_disk) BufferPool_new ∅ 0) (TransactionManager_new LockManager_new FIRST_XID) ∅.
Definition ex_simple : SimpleCatalog * System := (CreateSystemTables (SimpleCatalog_new 10001 ∅, ex_simple_system)).2.
Definition ex_simple_columns : ColumnList := mk_ColumnList [mkColumn "a" INT 4; mkColumn "name" VARCHAR 32].
Definition ex_create (name : string) (σ : SimpleCatalog * System) : SimpleCatalog * System :=
  (CreateTable name ex_simple_columns INVALID_OID INVALID_OID true σ).2.
Definition ex_restart (σ : SimpleCatalog * System) : res unit * (SimpleCatalog * System) :=
  LoadSystemTables (SimpleCatalog_new (GetNextOid (sc_oid_manager_ σ.1)) (sc_directories σ.1),
                    with_fs (λ _, fs_of σ.2) ex_simple_system).
Definition ex_simple_tables : SimpleCatalog * System := (DropTable "old" (ex_create "kept" (ex_create "old" ex_simple))).2.

Lemma ex_simple_disk_wf : fs_wf (fs_ ex_simple_disk).
Proof. destruct (Disk_new_ok Fs_empty Fs_empty_wf eq_refl) as (d & Hd & Hok & _). unfold ex_simple_disk. rewrite Hd. by apply disk_fs_wf. Qed.
Lemma ex_simple_columns_storable : storable_schema ex_simple_columns.
Proof.
  exists [mkColumn "a" INT 4; mkColumn "name" VARCHAR 32]. split; [done|]. split; [repeat constructor; done|].
  split; [repeat constructor; set_solver|done].
Qed.
Lemma ex_create_reached name σ : sc_reached σ → table_word name → next_oid_ (sc_oid_manager_ σ.1) < 2 ^ 32 - 1 → sc_reached (ex_create name σ).
Proof. intros. eapply (sr_create σ name ex_simple_columns); [done..|apply ex_simple_columns_storable|done|apply surjective_pairing]. Qed.
Lemma ex_simple_reached : sc_reached ex_simple_tables.
Proof.
  assert (∀ name, name = "old" ∨ name = "kept" → table_word name) as Hword.
  { intros name [-> | ->]; (split; [done|]; split; [by intros rest|done]). }
  eapply (sr_drop _ "old"); [|apply surjective_pairing].
  apply ex_create_reached; [apply ex_create_reached; [|by apply Hword; left|by vm_compute]|by apply Hword; right|by vm_compute].
  eapply (sr_new 10001 ∅ ex_simple_system); [lia|apply ex_simple_disk_wf|by vm_compute|apply surjective_pairing].
Qed.

(** The names, the oid and the columns after a restart. *)
Example ex_simple_restarted :
  let σ := (ex_restart ex_simple_tables).2 in
  (ex_restart ex_simple_tables).1 = Ok () ∧ GetTableNames σ.1 = ["kept"] ∧ GetTableOid σ.1 "kept" = Ok 10002 ∧
  GetTableColumnList σ "kept" = Ok ex_simple_columns.
Proof. vm_compute. split_and!; reflexivity. Qed.

(** A quoted name may start with a tilde: the journal then says that another table
    was dropped, and a restart forgets both. *)
Example tilde_forgets_a_table :
  let σ := ex_create "~t" (ex_create "t" ex_simple) in
  GetTableNames σ.1 = ["~t"; "t"] ∧ GetTableNames (ex_restart σ).2.1 = [].
Proof. vm_compute. split; reflexivity. Qed.

(** A name of two words is two names in the journal, and the file of the first is
    not there. *)
Example two_words_hang : (ex_restart (ex_create "two words" ex_simple)).1 = Err (Undefined "the loop does not end").
Proof. vm_compute. reflexivity. Qed.

Lemma tables_survive_witness :
  ∃ σ', LoadSystemTables (SimpleCatalog_new (GetNextOid (sc_oid_manager_ ex_simple_tables.1)) (sc_directories ex_simple_tables.1),
                          with_fs (λ _, fs_of ex_simple_tables.2) ex_simple_system) = (Ok (), σ') ∧
    fs_of σ'.2 = fs_of ex_simple_tables.2 ∧ GetTableNames σ'.1 = GetTableNames ex_simple_tables.1 ∧
    ∀ name, GetTableOid σ'.1 name = GetTableOid ex_simple_tables.1 name ∧
      GetTableColumnList σ' name = GetTableColumnList ex_simple_tables name.
Proof.
  exact (tables_survive ex_simple_tables (with_fs (λ _, fs_of ex_simple_tables.2) ex_simple_system) ex_simple_reached
           (fs_of_with (λ _, fs_of ex_simple_tables.2) ex_simple_system)).
Defined.
