(* ===== verification/Select.v ===== *)
(** The scan and the row locks of [Query.v] in a query that changes no table:
    what they deliver to their consumer, whatever the other executors of the
    query do between two calls. *)
From S2P Require Import Prelude Memory Types StringUtil Disk Value Bitmap Column Record TablePage Lru LogRecord LogManager BufferPool Storage LockManager TransactionManager Visibility Table TableScan Like Expressions Executor Pipeline Query.

(** ** The locks of the others *)

(** The lock a query asks for on a table when it asks for [want] on its rows. *)
Definition table_lock (want : option LockType) : LockType :=
  match want with Some t => intention t | None => IS end.

Lemma table_lock_IS u want : Compatible u (table_lock want) = true → Compatible u IS = true.
Proof. destruct want as [[]|], u; done. Qed.

(** What the other transactions hold on the tables [P] leaves [xid] its locks. *)
Record locks_allow (P : Z → Prop) (want : option LockType) (xid : Z) (lm : LockManager) : Prop := {
  la_wf : lm_wf lm;
  la_free : conflict_free lm;
  la_table : ∀ other oid u, other ≠ xid → P oid → held lm other (RTable oid) = Some u →
    Compatible u (table_lock want) = true;
  la_row : ∀ other oid rid u t, want = Some t → other ≠ xid → P oid →
    held lm other (RRow oid (Some rid)) = Some u → Compatible u t = true
}.

Lemma locks_allow_granted P want xid lm lm' : locks_allow P want xid lm → granted_to xid lm lm' → locks_allow P want xid lm'.
Proof.
  intros [Hw Hc Ht Hr] [Hw' Hc' Hf]. split; [done..| |].
  - intros other oid u Hne Hp. rewrite Hf by done. by apply Ht.
  - intros other oid rid u t ? Hne Hp. rewrite Hf by done. by eapply Hr.
Qed.

Lemma granted_to_trans xid lm1 lm2 lm3 : granted_to xid lm1 lm2 → granted_to xid lm2 lm3 → granted_to xid lm1 lm3.
Proof. intros [_ _ H1] [? ? H2]. split; [done..|]. intros. by rewrite H2, H1. Qed.

(** Requests of a query whose locks the others allow. *)
Lemma allowed_IS P want xid lm oid : locks_allow P want xid lm → P oid →
  ∃ lm', LockTable xid IS oid lm = (Ok true, lm') ∧ granted_to xid lm lm'.
Proof.
  intros [Hw Hc Ht _] Hp. apply LockTable_granted; [done..|]. intros other u Hne Hu.
  eapply table_lock_IS. by eapply Ht.
Qed.
Lemma allowed_table P t xid lm oid : locks_allow P (Some t) xid lm → P oid →
  ∃ lm', LockTable xid (intention t) oid lm = (Ok true, lm') ∧ granted_to xid lm lm'.
Proof.
  intros [Hw Hc Ht _] Hp. apply LockTable_granted; [done..|]. intros other u Hne Hu. by apply (Ht other oid u).
Qed.
Lemma allowed_row P t xid lm oid rid : locks_allow P (Some t) xid lm → P oid →
  ∃ lm', LockRow xid t oid rid lm = (Ok true, lm') ∧ granted_to xid lm lm'.
Proof.
  intros [Hw Hc Ht Hr] Hp. apply LockRow_granted; [done..| |]; intros other u Hne Hu.
  - by apply (Ht other oid u).
  - by apply (Hr other oid rid u t).
Qed.

Lemma on_lock_manager_run {A} (m : M LockManager A) r lm' s :
  m (lock_manager_ (sys_tm s)) = (r, lm') →
  on_lock_manager m s = (r, mkSystem (sys_pool s) (set_lock_manager lm' (sys_tm s)) (sys_tables s)).
Proof. intros Hm. unfold on_lock_manager, on_tm, on_locks, zoom. by rewrite Hm. Qed.

(** The transactions a scan sees running do not depend on the locks. *)
Lemma scan_active_locks level xid tm active lm :
  scan_active level xid tm = (Ok active, tm) →
  scan_active level xid (set_lock_manager lm tm) = (Ok active, set_lock_manager lm tm).
Proof.
  destruct level; [by intros [= <-]| |by intros [= <-]].
  unfold scan_active, GetSnapshot, GetActiveTransactions, gets, mbind, M_bind, get. simpl.
  destruct (xid2active_set_ tm !! xid); [|done]. simpl. by intros [= ->].
Qed.

(** ** One call of the scan *)

Section Scan.
Context `{MapOrder} `{Allocator} (db_of : Z → Z) (base : Z) (fuel : nat) (ctx : ExecutorContext) (active : gset Z).
#[local] Notation xid := (context_xid ctx).
#[local] Notation level := (context_level ctx).
#[local] Notation cid := (context_cid ctx).

Definition versions_seen (es : list (Rid * Rec)) : list Rec := (λ e, read_version e.1 e.2) <$> es.

(** The state of the executor. *)
Definition scanning (oid : Z) (rid : Rid) : SeqScanExecutor := mkSeqScan oid (Some (oid, rid)).

Lemma reads_seen x out : reads_option x out → out = (λ e, read_version e.1 e.2) <$> x.
Proof. destruct x as [[rid r]|], out as [r'|]; try done. intros [_ _ _ _ ->]. done. Qed.

Lemma seqscan_call P want oid s t pages hist rid todo :
  sys_tables s !! oid = Some t → scannable db_of base hist t pages (sys_pool s) →
  scan_active level xid (sys_tm s) = (Ok active, sys_tm s) →
  locks_allow P want xid (lock_manager_ (sys_tm s)) → P oid →
  scan_at pages rid todo → (length todo ≤ fuel)%nat →
  let next := scan_next xid cid level active todo in
  ∃ rid' w' lm',
    seqscan_next fuel ctx (scanning oid rid, s) =
      (Ok ((λ e, read_version e.1 e.2) <$> next.1),
       (scanning oid rid', mkSystem w' (set_lock_manager lm' (sys_tm s)) (sys_tables s))) ∧
    table_effect db_of t (sys_pool s) w' ∧ scannable db_of base hist t pages w' ∧
    granted_to xid (lock_manager_ (sys_tm s)) lm' ∧ scan_at pages rid' next.2.
Proof.
  intros Ht Hs Ha Hl Hp Hat Hfuel next. destruct (allowed_IS _ _ _ _ _ Hl Hp) as (lm' & Hlock & Hg).
  destruct (GetNextRecord_run db_of base hist t pages xid cid level active fuel _ rid todo Hs Hat Hfuel)
    as (w' & rid' & out & He & Hs' & Hrun & Hout & Hat').
  exists rid', w', lm'. split; [|done]. unfold seqscan_next. rewrite self_get_step.
  assert (on_tm (scan_active level xid) s = (Ok active, s)) as Hact.
  { unfold on_tm, zoom. rewrite Ha. by destruct s. }
  rewrite (on_sys_step _ _ _ _ _ _ Hact). cbn [scan_oid_ scanning].
  rewrite (on_sys_step _ _ _ _ _ _ (on_lock_manager_run _ _ _ _ Hlock)). cbn [negb scan_ scanning].
  set (s1 := mkSystem _ _ _).
  assert (on_scan oid rid (GetNextRecord fuel xid level cid active) s1 =
    (Ok (out, rid'), mkSystem w' (sys_tm s1) (sys_tables s1))) as Hscan.
  { unfold on_scan, s1. cbn [sys_tables sys_pool sys_tm]. by rewrite Ht, Hrun. }
  rewrite (on_sys_step _ _ _ _ _ _ Hscan), self_modify_step. cbv beta iota. by rewrite (reads_seen _ _ Hout).
Qed.

(** ** A query that changes no table *)

Context (hist : list LogRecord) (tabs : gmap Z (Table * list (list Rec))) (want : option LockType).

(** The tables of the query hold [tabs], and the query gets its locks. *)
Record sys_is (s : System) : Prop := {
  si_table : ∀ oid t pages, tabs !! oid = Some (t, pages) →
    sys_tables s !! oid = Some t ∧ oid_ t = oid ∧ scannable db_of base hist t pages (sys_pool s);
  si_active : scan_active level xid (sys_tm s) = (Ok active, sys_tm s);
  si_locks : locks_allow (λ oid, is_Some (tabs !! oid)) want xid (lock_manager_ (sys_tm s))
}.

Lemma scannable_other t pages t' w w' :
  scannable db_of base hist t pages w → table_effect db_of t' w w' → inv db_of base hist None w' → oid_ t ≠ oid_ t' →
  scannable db_of base hist t pages w'.
Proof.
  intros Hs He Hi Hne. eapply scannable_keep; [exact Hs|exact Hi|].
  eapply pages_keep; [apply Hs|exact He|by intros..].
Qed.

Lemma sys_is_scanned s oid t pages w' lm' :
  sys_is s → tabs !! oid = Some (t, pages) → table_effect db_of t (sys_pool s) w' →
  scannable db_of base hist t pages w' → granted_to xid (lock_manager_ (sys_tm s)) lm' →
  sys_is (mkSystem w' (set_lock_manager lm' (sys_tm s)) (sys_tables s)).
Proof.
  intros [Ht Ha Hl] Ho He Hs Hg. split; cbn [sys_tables sys_pool sys_tm].
  - intros oid' t' pages' Ho'. destruct (Ht _ _ _ Ho') as (H1 & H2 & H3). split; [done|]. split; [done|].
    destruct (Ht _ _ _ Ho) as (_ & H5 & _). destruct (decide (oid' = oid)) as [->|Hne]; [by simplify_eq|].
    eapply scannable_other; [exact H3|exact He|apply Hs|congruence].
  - by apply scan_active_locks.
  - by eapply locks_allow_granted.
Qed.

(** The versions the transaction sees. *)
Definition visible_entries (pages : list (list Rec)) : list (Rid * Rec) :=
  filter (is_visible xid cid level active) (entries 0 pages).

#[local] Existing Instance SeqScanExecutor_.

Lemma seqscan_next_run oid t pages s rid todo :
  tabs !! oid = Some (t, pages) → sys_is s → scan_at pages rid todo → (length todo ≤ fuel)%nat →
  let next := scan_next xid cid level active todo in
  ∃ rid' s', seqscan_next fuel ctx (scanning oid rid, s) =
      (Ok ((λ e, read_version e.1 e.2) <$> next.1), (scanning oid rid', s')) ∧
    sys_is s' ∧ scan_at pages rid' next.2.
Proof.
  intros Ho Hs Hat Hfuel next. destruct (si_table _ Hs _ _ _ Ho) as (H1 & H2 & H3).
  destruct (seqscan_call _ want oid s t pages hist rid todo H1 H3 (si_active _ Hs) (si_locks _ Hs)) as
    (rid' & w' & lm' & Hrun & He & Hs' & Hg & Hat'); [by eexists|done|done|].
  do 2 eexists. split; [exact Hrun|]. split; [|done]. by eapply sys_is_scanned.
Qed.

Lemma seqscan_from oid t pages todo : tabs !! oid = Some (t, pages) → (length todo ≤ fuel)%nat → ∀ rid,
  scan_at pages rid todo →
  delivers (H := SeqScanExecutor_ fuel ctx) sys_is (scanning oid rid) (rows_of (versions_seen (filter (is_visible xid cid level active) todo))).
Proof.
  intros Ho. remember (length todo) as n eqn:Hn. revert todo Hn. induction (lt_wf n) as [n _ IH].
  intros todo -> Hf rid Hat. pose proof (λ s Hs, seqscan_next_run oid t pages s rid todo Ho Hs Hat Hf) as Hrun.
  pose proof (scan_next_filter xid cid level active todo) as Hfil. cbv zeta in Hrun.
  destruct (scan_next xid cid level active todo) as [[e|] rest]; cbn [fst snd fmap option_fmap option_map] in Hrun.
  - destruct Hfil as [-> Hlen]. cbn [versions_seen fmap list_fmap rows_of]. intros s Hs.
    destruct (Hrun s Hs) as (rid' & s' & Hr & Hs' & Hat'). exists (scanning oid rid'), s'. split; [exact Hr|].
    split; [done|]. eapply IH; [exact Hlen|done|lia|exact Hat'].
  - destruct Hfil as [-> ->]. intros s Hs. destruct (Hrun s Hs) as (rid' & s' & Hr & Hs' & Hat').
    exists (scanning oid rid'), s'. split; [exact Hr|]. split; [done|].
    exists (λ e, ∃ rid, e = scanning oid rid ∧ scan_at pages rid []). split; [|by exists rid'].
    intros ? s1 (rid1 & -> & Hat1) Hs1.
    destruct (seqscan_next_run oid t pages s1 rid1 [] Ho Hs1 Hat1) as (rid2 & s2 & Hr2 & Hs2 & Hat2); [simpl; lia|].
    exists (scanning oid rid2), s2. split; [exact Hr2|]. split; [done|]. by exists rid2.
Qed.

(** [Init] puts the scan before the first version. *)
Lemma seqscan_init_run oid t pages s : tabs !! oid = Some (t, pages) → sys_is s →
  seqscan_init (SeqScanExecutor_new oid, s) = (Ok (), (scanning oid (mkRid (GetFirstPageId t) 0), s)).
Proof.
  intros Ho Hs. destruct (si_table _ Hs _ _ _ Ho) as (H1 & _). unfold seqscan_init. rewrite self_get_step.
  cbn [scan_oid_ SeqScanExecutor_new].
  assert (GetTable oid s = (Ok oid, s)) as Hg by (unfold GetTable; rewrite get_step; by rewrite H1).
  rewrite (on_sys_step _ _ _ _ _ _ Hg).
  assert (@get System s = (Ok s, s)) as Hget by done.
  rewrite (on_sys_step _ _ _ _ _ _ Hget), H1. by rewrite (lift_step _ _ _ _ eq_refl).
Qed.

(** A sequential scan delivers the versions the transaction sees. *)
Lemma seqscan_delivers oid t pages s : tabs !! oid = Some (t, pages) → sys_is s →
  (length (entries 0 pages) ≤ fuel)%nat →
  delivers (H := SeqScanExecutor_ fuel ctx) sys_is (scanning oid (mkRid (GetFirstPageId t) 0))
    (rows_of (versions_seen (visible_entries pages))).
Proof.
  intros Ho Hs Hf. apply (seqscan_from oid t pages); [done..|]. destruct (si_table _ Hs _ _ _ Ho) as (_ & _ & H3).
  unfold GetFirstPageId. rewrite (proj1 (sc_table _ _ _ _ _ _ H3)). apply entries_start, H3.
Qed.

(** ** Row locks *)

(** The lock type of the rows. *)
Definition select_lock (lock_type : SelectLockType) : option LockType :=
  match lock_type with NOLOCK => None | SL_SHARE => Some LS | SL_UPDATE => Some LX end.

(** Locking the rows delivers the same records. *)
Lemma lock_rows_delivers {E} `{Executor System E} oid lock_type t : want = select_lock lock_type → is_Some (tabs !! oid) →
  ∀ c : E, delivers sys_is c t → delivers (H := LockRowsExecutor_ ctx) sys_is (mkLockRows oid lock_type c) t.
Proof.
  intros Hw Ho. induction t as [|x|r t IH]; intros c Hd s Hs; destruct (Hd s Hs) as [c' Hd'].
  - destruct Hd' as (s' & Hn & Hs' & He). exists (mkLockRows oid lock_type c'), s'. cbn [Next LockRowsExecutor_]. unfold lock_rows_next.
    child_step Hn. split; [done|]. split; [done|]. exists (λ f, exhausted sys_is (lr_child_ f)). split; [|done].
    clear - ctx. intros [o l c] s He Hs. destruct (exhausted_next sys_is c s He Hs) as (c' & s' & Hn & Hs' & Hc').
    exists (mkLockRows o l c'), s'. cbn [Next LockRowsExecutor_]. unfold lock_rows_next. by child_step Hn.
  - cbn [Next LockRowsExecutor_]. unfold lock_rows_next. child_err Hd'.
  - destruct Hd' as (s1 & Hn & Hs1 & Hr). cbn [Next LockRowsExecutor_]. unfold lock_rows_next. child_step Hn.
    rewrite self_get_step. cbn [lr_lock_type_ lr_oid_ set_lr_child].
    assert (∀ l, want = Some l → ∃ s2, on_lock_manager (LockRow xid l oid (GetRid r)) s1 = (Ok true, s2) ∧ sys_is s2) as Hlock.
    { intros l Hl. pose proof (si_locks _ Hs1) as Hk. rewrite Hl in Hk.
      destruct (allowed_row _ _ _ _ oid (GetRid r) Hk Ho) as (lm' & Hrun & Hg).
      eexists. split; [exact (on_lock_manager_run _ _ _ _ Hrun)|]. destruct Hs1 as [Ht Ha Hlk].
      split; cbn [sys_tables sys_pool sys_tm]; [done|by apply scan_active_locks|by eapply locks_allow_granted]. }
    destruct lock_type; simpl in Hw.
    + exists (mkLockRows oid NOLOCK c'), s1. auto.
    + destruct (Hlock LS Hw) as (s2 & Hrun & Hs2). rewrite (on_sys_step _ _ _ _ _ _ Hrun).
      exists (mkLockRows oid SL_SHARE c'), s2. auto.
    + destruct (Hlock LX Hw) as (s2 & Hrun & Hs2). rewrite (on_sys_step _ _ _ _ _ _ Hrun).
      exists (mkLockRows oid SL_UPDATE c'), s2. auto.
Qed.
End Scan.
