(* ===== verification/Plan.v ===== *)
(** [src/src/operators]: the operators of a query plan, and
    [src/src/executors/executor_factory.h], which builds the executor of a plan;
    the two executors that are stubs in the source; the loop of
    [DatabaseEngine::ExecuteSql] that runs a query. Its theorem: running the plan
    of a SELECT gives the records the plan denotes. *)
From S2P Require Import Prelude Memory Types StringUtil Disk Value Bitmap Column Record TablePage Lru LogRecord LogManager BufferPool Storage LockManager TransactionManager Visibility Table TableScan Like Expressions Executor Pipeline OrderBy Join Query Select.

(** ** Operators *)

(** [enum class JoinType] *)
Inductive JoinType := INNER | LEFT | RIGHT | FULL.
(** [enum class AggregateType] *)
Inductive AggregateType := AVG | COUNT_STAR | COUNT | SUM | MIN | MAX.

(** One constructor per derived class: its output columns, its children and its
    other members. *)
Inductive Operator :=
| AggregateOperator (column_list : ColumnList) (child : Operator) (group_bys aggregates : list OperatorExpression)
    (is_distincts : list bool) (aggregate_types : list AggregateType)
| DeleteOperator (column_list : ColumnList) (child : Operator) (oid : Z)
| FilterOperator (column_list : ColumnList) (child : Operator) (predicate : OperatorExpression)
| HashJoinOperator (column_list : ColumnList) (left right : Operator) (left_key right_key : OperatorExpression)
    (join_type : JoinType)
| InsertOperator (column_list : ColumnList) (child : Operator) (insert_columns : ColumnList) (oid : Z)
| LimitOperator (column_list : ColumnList) (child : Operator) (limit_count limit_offset : option Z)
| LockRowsOperator (column_list : ColumnList) (child : Operator) (oid : Z) (lock_type : SelectLockType)
| MergeJoinOperator (column_list : ColumnList) (left right : Operator) (left_key right_key : OperatorExpression)
    (join_type : JoinType)
| NestedLoopJoinOperator (column_list : ColumnList) (left right : Operator) (join_condition : OperatorExpression)
    (join_type : JoinType)
| OrderByOperator (column_list : ColumnList) (child : Operator) (order_bys : list (OrderByType * OperatorExpression))
| ProjectionOperator (column_list : ColumnList) (child : Operator) (exprs : list OperatorExpression)
| SeqScanOperator (column_list : ColumnList) (table_oid : Z) (table_name : string) (alias : option string) (has_lock : bool)
| UpdateOperator (column_list : ColumnList) (child : Operator) (oid : Z) (update_exprs : list OperatorExpression)
| ValuesOperator (column_list : ColumnList) (values : list (list OperatorExpression)).

Definition OutputColumns (p : Operator) : ColumnList :=
  match p with
  | AggregateOperator cl _ _ _ _ _ | DeleteOperator cl _ _ | FilterOperator cl _ _ | HashJoinOperator cl _ _ _ _ _
  | InsertOperator cl _ _ _ | LimitOperator cl _ _ _ | LockRowsOperator cl _ _ _ | MergeJoinOperator cl _ _ _ _ _
  | NestedLoopJoinOperator cl _ _ _ _ | OrderByOperator cl _ _ | ProjectionOperator cl _ _
  | SeqScanOperator cl _ _ _ _ | UpdateOperator cl _ _ _ | ValuesOperator cl _ => cl
  end.

(** ** The executors that do nothing *)

(** [AggregateExecutor] and [HashJoinExecutor] return null. *)
Section Stubs.
Context {E E1 : Type} `{Executor System E} `{Executor System E1}.

Record AggregateExecutor := mkAggregate { agg_child_ : E }.
#[export] Instance AggregateExecutor_ : Executor System AggregateExecutor := {
  Init := mret ();
  Next := mret None
}.

Record HashJoinExecutor := mkHashJoin { hash_left_ : E; hash_right_ : E1 }.
#[export] Instance HashJoinExecutor_ : Executor System HashJoinExecutor := {
  Init := on_child hash_left_ (λ c f, mkHashJoin c (hash_right_ f)) Init ;;
          on_child hash_right_ (λ c f, mkHashJoin (hash_left_ f) c) Init;
  Next := mret None
}.
End Stubs.
#[global] Arguments AggregateExecutor E : clear implicits.
#[global] Arguments HashJoinExecutor E E1 : clear implicits.

(** ** [ExecutorFactory] *)

(** The class of the executor of a plan, by its tree of operators. *)
Fixpoint exec_type (p : Operator) : Type :=
  match p with
  | AggregateOperator _ c _ _ _ _ => AggregateExecutor (exec_type c)
  | DeleteOperator _ c _ => ChangeExecutor (exec_type c) DeletePlan
  | FilterOperator _ c _ => FilterExecutor (exec_type c)
  | HashJoinOperator _ l r _ _ _ => HashJoinExecutor (exec_type l) (exec_type r)
  | InsertOperator _ c _ _ => ChangeExecutor (exec_type c) InsertPlan
  | LimitOperator _ c _ _ => LimitExecutor (exec_type c)
  | LockRowsOperator _ c _ _ => LockRowsExecutor (exec_type c)
  | MergeJoinOperator _ l r _ _ _ => JoinExecutor (exec_type l) (exec_type r) (OperatorExpression * OperatorExpression)
  | NestedLoopJoinOperator _ l r _ _ => JoinExecutor (exec_type l) (exec_type r) OperatorExpression
  | OrderByOperator _ c _ => @OrderByExecutor (exec_type c)
  | ProjectionOperator _ c _ => ProjectionExecutor (exec_type c)
  | SeqScanOperator _ _ _ _ _ => SeqScanExecutor
  | UpdateOperator _ c _ _ => ChangeExecutor (exec_type c) UpdatePlan
  | ValuesOperator _ _ => ValuesExecutor
  end.

Section Factory.
Context `{MapOrder} `{Allocator} `{Ecma} `{StdSort} (fuel : nat) (ctx : ExecutorContext).

(** The virtual functions of that class. *)
Fixpoint executor (p : Operator) : Executor System (exec_type p) :=
  match p with
  | AggregateOperator _ c _ _ _ _ => AggregateExecutor_
  | DeleteOperator _ c _ => let _ := executor c in DeleteExecutor fuel ctx
  | FilterOperator _ c _ => let _ := executor c in FilterExecutor_ fuel
  | HashJoinOperator _ l r _ _ _ => let _ := executor l in let _ := executor r in HashJoinExecutor_
  | InsertOperator _ c _ _ => let _ := executor c in InsertExecutor fuel fuel ctx
  | LimitOperator _ c _ _ => let _ := executor c in LimitExecutor_
  | LockRowsOperator _ c _ _ => let _ := executor c in LockRowsExecutor_ ctx
  | MergeJoinOperator _ l r _ _ _ => let _ := executor l in let _ := executor r in MergeJoinExecutor fuel
  | NestedLoopJoinOperator _ l r _ _ => let _ := executor l in let _ := executor r in NestedLoopJoinExecutor fuel
  | OrderByOperator _ c _ => let _ := executor c in OrderByExecutor_ fuel
  | ProjectionOperator _ c _ => let _ := executor c in ProjectionExecutor_
  | SeqScanOperator _ _ _ _ _ => SeqScanExecutor_ fuel ctx
  | UpdateOperator _ c _ _ => let _ := executor c in UpdateExecutor fuel fuel ctx
  | ValuesOperator _ _ => ValuesExecutor_
  end.

(** [CreateExecutor]: the constructor of [DeleteExecutor] may throw. *)
Fixpoint CreateExecutor (p : Operator) : M System (exec_type p) :=
  match p with
  | AggregateOperator _ c _ _ _ _ => child ← CreateExecutor c; mret (mkAggregate child)
  | DeleteOperator _ c oid => child ← CreateExecutor c; DeleteExecutor_new (mkDeletePlan oid) child
  | FilterOperator _ c predicate => child ← CreateExecutor c; mret (mkFilter predicate child)
  | HashJoinOperator _ l r _ _ _ => left ← CreateExecutor l; right ← CreateExecutor r; mret (mkHashJoin left right)
  | InsertOperator _ c insert_columns oid =>
      child ← CreateExecutor c; mret (InsertExecutor_new (mkInsertPlan oid insert_columns) child)
  | LimitOperator _ c limit_count limit_offset =>
      child ← CreateExecutor c; mret (LimitExecutor_new limit_count limit_offset child)
  | LockRowsOperator _ c oid lock_type => child ← CreateExecutor c; mret (mkLockRows oid lock_type child)
  | MergeJoinOperator _ l r left_key right_key _ =>
      left ← CreateExecutor l; right ← CreateExecutor r; mret (JoinExecutor_new (left_key, right_key) left right)
  | NestedLoopJoinOperator _ l r join_condition _ =>
      left ← CreateExecutor l; right ← CreateExecutor r; mret (JoinExecutor_new join_condition left right)
  | OrderByOperator _ c order_bys => child ← CreateExecutor c; mret (OrderByExecutor_new order_bys child)
  | ProjectionOperator _ c exprs => child ← CreateExecutor c; mret (mkProjection exprs child)
  | SeqScanOperator _ oid _ _ _ => mret (SeqScanExecutor_new oid)
  | UpdateOperator _ c oid update_exprs =>
      child ← CreateExecutor c; mret (UpdateExecutor_new (mkUpdatePlan oid update_exprs) child)
  | ValuesOperator _ values => mret (ValuesExecutor_new values)
  end.

(** [CreateExecutor], [Init], and [Next] until it returns null: the rows that
    are written to the client. *)
Definition run_plan (p : Operator) : M System (list Rec) := λ s,
  match CreateExecutor p s with
  | (Ok e, s) => let '(r, σ) := (let _ := executor p in Init ;; drain fuel) (e, s) in (r, σ.2)
  | (Err x, s) => (Err x, s)
  end.
End Factory.

(** ** What a plan denotes *)

Section Denotation.
Context `{Ecma} `{StdSort} (ctx : ExecutorContext) (active : gset Z) (tabs : gmap Z (Table * list (list Rec))).

(** The answers of the executor of a plan, in terms of those of its children.
    The plans that change tables denote nothing here. *)
Fixpoint plan_rows (p : Operator) : rows :=
  match p with
  | AggregateOperator _ _ _ _ _ _ | HashJoinOperator _ _ _ _ _ _ => Done
  | FilterOperator _ c predicate => filter_rows predicate (plan_rows c)
  | LimitOperator _ c limit_count limit_offset => limit_rows limit_count limit_offset (plan_rows c)
  | LockRowsOperator _ c _ _ => plan_rows c
  | MergeJoinOperator _ l r left_key right_key _ => join_rows (merge (left_key, right_key)) (plan_rows l) (plan_rows r)
  | NestedLoopJoinOperator _ l r join_condition _ =>
      join_rows (nested_collect join_condition) (plan_rows l) (plan_rows r)
  | OrderByOperator _ c order_bys => order_rows order_bys (plan_rows c)
  | ProjectionOperator _ c exprs => project_rows exprs (plan_rows c)
  | SeqScanOperator _ oid _ _ _ =>
      match tabs !! oid with
      | Some (_, pages) => rows_of (versions_seen (visible_entries ctx active pages))
      | None => Fail (DbException ("Table with oid " +:+ pretty oid +:+ " does not exist"))
      end
  | ValuesOperator _ values => values_rows values
  | DeleteOperator _ _ _ | InsertOperator _ _ _ _ | UpdateOperator _ _ _ _ => Fail (Undefined "not a query")
  end.

(** What running a query needs: loaded tables, numbers of rows in the range of
    the counters, and the locks it asks for. *)
Fixpoint plan_ok (fuel : nat) (want : option LockType) (p : Operator) : Prop :=
  match p with
  | AggregateOperator _ c _ _ _ _ => plan_ok fuel want c
  | HashJoinOperator _ l r _ _ _ => plan_ok fuel want l ∧ plan_ok fuel want r
  | FilterOperator _ c _ => plan_ok fuel want c ∧ (rows_len (plan_rows c) < fuel)%nat
  | LimitOperator _ c limit_count limit_offset =>
      plan_ok fuel want c ∧ (∀ n, limit_count = Some n → 0 <= n < 2 ^ 31) ∧ 0 <= default 0 limit_offset < 2 ^ 31
  | LockRowsOperator _ c oid lock_type => plan_ok fuel want c ∧ want = select_lock lock_type ∧ is_Some (tabs !! oid)
  | MergeJoinOperator _ l r left_key right_key _ =>
      plan_ok fuel want l ∧ plan_ok fuel want r ∧
      (rows_len (plan_rows l) < fuel)%nat ∧ (rows_len (plan_rows r) < fuel)%nat ∧
      ∀ rs0 rs1 rs, all_rows (plan_rows l) = Ok rs0 → all_rows (plan_rows r) = Ok rs1 →
        merge (left_key, right_key) rs0 rs1 = Ok rs → Z.of_nat (length rs) < 2 ^ 31 - 1
  | NestedLoopJoinOperator _ l r join_condition _ =>
      plan_ok fuel want l ∧ plan_ok fuel want r ∧
      (rows_len (plan_rows l) < fuel)%nat ∧ (rows_len (plan_rows r) < fuel)%nat ∧
      ∀ rs0 rs1 rs, all_rows (plan_rows l) = Ok rs0 → all_rows (plan_rows r) = Ok rs1 →
        nested_collect join_condition rs0 rs1 = Ok rs → Z.of_nat (length rs) < 2 ^ 31 - 1
  | OrderByOperator _ c _ =>
      plan_ok fuel want c ∧ (rows_len (plan_rows c) < fuel)%nat ∧ Z.of_nat (rows_len (plan_rows c)) < 2 ^ 31
  | ProjectionOperator _ c _ => plan_ok fuel want c
  | SeqScanOperator _ oid _ _ _ => ∃ t pages, tabs !! oid = Some (t, pages) ∧ (length (entries 0 pages) ≤ fuel)%nat
  | ValuesOperator _ _ => True
  | DeleteOperator _ _ _ | InsertOperator _ _ _ _ | UpdateOperator _ _ _ _ => False
  end.
End Denotation.

(** ** The executor of a plan delivers what the plan denotes *)

Section Correct.
Context `{MapOrder} `{Allocator} `{Ecma} `{StdSortSpec}.
Context (db_of : Z → Z) (base : Z) (fuel : nat) (ctx : ExecutorContext) (active : gset Z) (hist : list LogRecord)
  (tabs : gmap Z (Table * list (list Rec))) (want : option LockType).

#[local] Notation sys_is := (sys_is db_of base ctx active hist tabs want).

(** The executor after its constructor and [Init]. *)
Definition ready (p : Operator) (s : System) : Prop :=
  ∃ e0 e, CreateExecutor p s = (Ok e0, s) ∧ Init (Executor := executor fuel ctx p) (e0, s) = (Ok (), (e, s)) ∧
    delivers (H := executor fuel ctx p) sys_is e (plan_rows ctx active tabs p).

(** The constructor of an operator with one child. *)
Lemma ready_child c (s : System) {F} (new : exec_type c → F) c0 :
  CreateExecutor c s = (Ok c0, s) → (child ← CreateExecutor c; mret (new child)) s = (Ok (new c0), s).
Proof. intros Hc. by rewrite (M_bind_step _ _ _ _ _ Hc). Qed.
Lemma ready_children l r (s : System) {F} (new : exec_type l → exec_type r → F) l0 r0 :
  CreateExecutor l s = (Ok l0, s) → CreateExecutor r s = (Ok r0, s) →
  (left ← CreateExecutor l; right ← CreateExecutor r; mret (new left right)) s = (Ok (new l0 r0), s).
Proof. intros Hl Hr. rewrite (M_bind_step _ _ _ _ _ Hl). by rewrite (M_bind_step _ _ _ _ _ Hr). Qed.

Lemma plan_ready p : plan_ok ctx active tabs fuel want p → ∀ s, sys_is s → ready p s.
Proof using All.
  induction p as [cl c IH|cl c IH|cl c IH predicate|cl l IHl r IHr lk rk jt|cl c IH|cl c IH limit_count limit_offset|
    cl c IH oid lock_type|cl l IHl r IHr lk rk jt|cl l IHl r IHr cond jt|cl c IH order_bys|cl c IH exprs|
    cl oid name alias lock|cl c IH|cl values];
    cbn [plan_ok]; try done; intros Hok s Hs.
  - (* aggregate *) destruct (IH Hok s Hs) as (c0 & c1 & Hc & _ & _). exists (mkAggregate c0), (mkAggregate c0).
    split; [exact (ready_child c s mkAggregate c0 Hc)|]. split; [done|]. apply exhausted_delivers.
    exists (λ _, True). split; [|done]. intros e s' _ Hs'. by exists e, s'.
  - (* filter *) destruct Hok as [Hok Hf]. destruct (IH Hok s Hs) as (c0 & c1 & Hc & Hi & Hd).
    exists (mkFilter predicate c0), (mkFilter predicate c1). split; [exact (ready_child c s (mkFilter predicate) c0 Hc)|].
    split; [exact (on_child_run _ _ (mkFilter predicate c0) _ _ _ _ _ Hi)|].
    exact (@filter_delivers _ _ (executor fuel ctx c) _ fuel _ predicate _ c1 Hd Hf).
  - (* hash join *) destruct Hok as [Hl Hr]. destruct (IHl Hl s Hs) as (l0 & l1 & Hcl & Hil & _).
    destruct (IHr Hr s Hs) as (r0 & r1 & Hcr & Hir & _). exists (mkHashJoin l0 r0), (mkHashJoin l1 r1).
    split; [exact (ready_children l r s mkHashJoin l0 r0 Hcl Hcr)|]. split.
    + cbn [Init executor HashJoinExecutor_].
      rewrite (M_bind_step _ _ _ _ _ (on_child_run hash_left_ _ (mkHashJoin l0 r0) _ _ _ _ _ Hil)).
      exact (on_child_run hash_right_ _ (mkHashJoin l1 r0) _ _ _ _ _ Hir).
    + apply exhausted_delivers. exists (λ _, True). split; [|done]. intros e s' _ Hs'. by exists e, s'.
  - (* limit *) destruct Hok as (Hok & Hn & Ho). destruct (IH Hok s Hs) as (c0 & c1 & Hc & Hi & Hd).
    exists (LimitExecutor_new limit_count limit_offset c0), (LimitExecutor_new limit_count limit_offset c1).
    split; [exact (ready_child c s (LimitExecutor_new limit_count limit_offset) c0 Hc)|].
    split; [exact (on_child_run _ _ (LimitExecutor_new limit_count limit_offset c0) _ _ _ _ _ Hi)|].
    exact (@limit_delivers _ _ (executor fuel ctx c) _ limit_count limit_offset Hn Ho c1 _ Hd).
  - (* lock rows *) destruct Hok as (Hok & Hw & Ho). destruct (IH Hok s Hs) as (c0 & c1 & Hc & Hi & Hd).
    exists (mkLockRows oid lock_type c0), (mkLockRows oid lock_type c1).
    split; [exact (ready_child c s (mkLockRows oid lock_type) c0 Hc)|].
    split; [exact (on_child_run _ _ (mkLockRows oid lock_type c0) _ _ _ _ _ Hi)|].
    exact (@lock_rows_delivers _ db_of base ctx active hist tabs want _ (executor fuel ctx c) oid lock_type _ Hw Ho c1 Hd).
  - (* merge join *) destruct Hok as (Hl & Hr & Hfl & Hfr & Hlen). destruct (IHl Hl s Hs) as (l0 & l1 & Hcl & Hil & Hdl).
    destruct (IHr Hr s Hs) as (r0 & r1 & Hcr & Hir & Hdr).
    exists (JoinExecutor_new (lk, rk) l0 r0), (JoinExecutor_new (lk, rk) l1 r1).
    split; [exact (ready_children l r s (JoinExecutor_new (lk, rk)) l0 r0 Hcl Hcr)|]. split.
    + cbn [Init executor MergeJoinExecutor]. unfold join_Init.
      rewrite (M_bind_step _ _ _ _ _ (on_child_run join_left_ _ (JoinExecutor_new (lk, rk) l0 r0) _ _ _ _ _ Hil)).
      exact (on_child_run join_right_ _ (JoinExecutor_new (lk, rk) l1 r0) _ _ _ _ _ Hir).
    + exact (@merge_delivers _ _ _ (executor fuel ctx l) (executor fuel ctx r) _ fuel _ (lk, rk) l1 r1 _ _ Hdl Hdr Hfl Hfr Hlen).
  - (* nested loop join *) destruct Hok as (Hl & Hr & Hfl & Hfr & Hlen). destruct (IHl Hl s Hs) as (l0 & l1 & Hcl & Hil & Hdl).
    destruct (IHr Hr s Hs) as (r0 & r1 & Hcr & Hir & Hdr).
    exists (JoinExecutor_new cond l0 r0), (JoinExecutor_new cond l1 r1).
    split; [exact (ready_children l r s (JoinExecutor_new cond) l0 r0 Hcl Hcr)|]. split.
    + cbn [Init executor NestedLoopJoinExecutor]. unfold join_Init.
      rewrite (M_bind_step _ _ _ _ _ (on_child_run join_left_ _ (JoinExecutor_new cond l0 r0) _ _ _ _ _ Hil)).
      exact (on_child_run join_right_ _ (JoinExecutor_new cond l1 r0) _ _ _ _ _ Hir).
    + exact (@nested_delivers _ _ _ (executor fuel ctx l) (executor fuel ctx r) _ fuel _ cond l1 r1 _ _ Hdl Hdr Hfl Hfr Hlen).
  - (* order by *) destruct Hok as (Hok & Hf & Hlen). destruct (IH Hok s Hs) as (c0 & c1 & Hc & Hi & Hd).
    exists (OrderByExecutor_new order_bys c0), (OrderByExecutor_new order_bys c1).
    split; [exact (ready_child c s (OrderByExecutor_new order_bys) c0 Hc)|].
    split; [exact (on_child_run _ _ (OrderByExecutor_new order_bys c0) _ _ _ _ _ Hi)|].
    exact (@order_by_delivers _ _ (executor fuel ctx c) _ _ fuel _ order_bys _ c1 _ Hd Hf Hlen).
  - (* projection *) destruct (IH Hok s Hs) as (c0 & c1 & Hc & Hi & Hd).
    exists (mkProjection exprs c0), (mkProjection exprs c1). split; [exact (ready_child c s (mkProjection exprs) c0 Hc)|].
    split; [exact (on_child_run _ _ (mkProjection exprs c0) _ _ _ _ _ Hi)|].
    exact (@projection_delivers _ _ (executor fuel ctx c) _ _ exprs _ c1 Hd).
  - (* scan *) destruct Hok as (t & pages & Ho & Hf).
    exists (SeqScanExecutor_new oid), (scanning oid (mkRid (GetFirstPageId t) 0)). split; [done|].
    split; [exact (seqscan_init_run db_of base ctx active hist tabs want oid t pages s Ho Hs)|].
    cbn [plan_rows]. rewrite Ho. exact (seqscan_delivers db_of base fuel ctx active hist tabs want oid t pages s Ho Hs Hf).
  - (* values *) exists (ValuesExecutor_new values), (ValuesExecutor_new values). split; [done|]. split; [done|].
    exact (values_delivers sys_is values []).
Qed.

(** Running a plan is draining its executor, which delivers what the plan denotes. *)
Lemma run_plan_drain p s : plan_ok ctx active tabs fuel want p → sys_is s → ∃ e,
  run_plan fuel ctx p s = (let '(r, σ) := drain (H := executor fuel ctx p) fuel (e, s) in (r, σ.2)) ∧
  delivers (H := executor fuel ctx p) sys_is e (plan_rows ctx active tabs p).
Proof using All.
  intros Hok Hs. destruct (plan_ready p Hok s Hs) as (e0 & e & Hc & Hi & Hd). exists e. split; [|done].
  unfold run_plan. rewrite Hc. by rewrite (M_bind_step _ _ _ _ _ Hi).
Qed.
End Correct.

(** ** Properties *)

(** C1: running the plan of a query (any tree of scans, filters, projections,
    joins, sorts, limits, row locks and VALUES lists) ends and returns exactly
    the records the plan denotes on the versions the transaction sees, or fails
    with the exception the plan denotes; the tables and the log are as before. *)
Theorem query_returns_denotation `{MapOrder} `{Allocator} `{Ecma} `{StdSortSpec} db_of base fuel ctx active hist tabs want p s :
  plan_ok ctx active tabs fuel want p → sys_is db_of base ctx active hist tabs want s →
  (rows_len (plan_rows ctx active tabs p) < fuel)%nat →
  match all_rows (plan_rows ctx active tabs p) with
  | Ok records => ∃ s', run_plan fuel ctx p s = (Ok records, s') ∧ sys_is db_of base ctx active hist tabs want s'
  | Err x => ∃ s', run_plan fuel ctx p s = (Err x, s')
  end.
Proof.
  intros Hok Hs Hf. destruct (run_plan_drain db_of base fuel ctx active hist tabs want p s Hok Hs) as (e & -> & Hd).
  pose proof (drain_run (H := executor fuel ctx p) _ fuel _ e s Hd Hf Hs) as Hdr. destruct (all_rows _) as [rs|x].
  - destruct Hdr as (e' & s' & -> & Hs' & _). by exists s'.
  - destruct Hdr as ([e' s'] & ->). by exists s'.
Qed.

(** *** A concrete query *)

(** Transaction 5, running alone, selects [a, c] where [a < 0] from the table
    with one version. *)
Definition ex_ctx : ExecutorContext := mkContext 5 READ_COMMITTED 2.
Definition ex_tm5 : TransactionManager := mkTM LockManager_new 6 {[5 := 3]} {[5 := ∅]}.
Definition ex_system (w : Pool LogDisk) : System :=
  mkSystem w ex_tm5 {[10001 := with_first 0 ex_table]}.
Definition ex_tabs : gmap Z (Table * list (list Rec)) := {[10001 := (with_first 0 ex_table, [[ex_version1]])]}.
Definition ex_col_a : OperatorExpression := ColumnValue 0 INT "t.a" 4 true.
Definition ex_scan : Operator := SeqScanOperator ex_schema 10001 "t" None false.
Definition ex_query : Operator :=
  ProjectionOperator ColumnList_empty
    (FilterOperator ex_schema ex_scan (Comparison LESS ex_col_a (Const (Value_int 0))))
    [ex_col_a; ColumnValue 2 VARCHAR "t.c" 10 true].

Lemma no_locks_allow P want xid : locks_allow P want xid LockManager_new.
Proof. split; [apply lm_wf_new|by intros ????|by intros|by intros]. Qed.

Lemma ex_sys_is w hist want : scannable ex_db_of 0 hist (with_first 0 ex_table) [[ex_version1]] w →
  sys_is ex_db_of 0 ex_ctx {[5]} hist ex_tabs want (ex_system w).
Proof.
  intros Hs. split.
  - intros oid t pages Ho. unfold ex_tabs in Ho. apply lookup_singleton_Some in Ho as [<- [= <- <-]].
    split; [apply lookup_singleton_eq|done].
  - by vm_compute.
  - apply no_locks_allow.
Qed.

Lemma query_returns_denotation_witness :
  ∃ w hist, sys_is ex_db_of 0 ex_ctx {[5]} hist ex_tabs None (ex_system w) ∧ ∃ r s',
    run_plan (H2 := insertion_sort) 3 ex_ctx ex_query (ex_system w) = (Ok [r], s') ∧
    GetValues r = [Value_int (-7); Value_string "ab" VARCHAR].
Proof.
  destruct ex_table_one as (w & hist & Hs & _). exists w, hist. pose proof (ex_sys_is w hist None Hs) as Hsys.
  split; [exact Hsys|].
  assert (∃ r, plan_rows (H0 := insertion_sort) ex_ctx {[5]} ex_tabs ex_query = Row r Done ∧
    GetValues r = [Value_int (-7); Value_string "ab" VARCHAR]) as (r & Hr & Hv).
  { eexists. split; [vm_compute; reflexivity|by vm_compute]. }
  assert (plan_ok (H0 := insertion_sort) ex_ctx {[5]} ex_tabs 3 None ex_query) as Hok.
  { cbn [plan_ok ex_query ex_scan]. split; [|vm_compute; lia]. exists (with_first 0 ex_table), [[ex_version1]].
    split; [apply lookup_singleton_eq|]. simpl. lia. }
  pose proof (query_returns_denotation (H2 := insertion_sort) (H3 := insertion_sort_spec) ex_db_of 0 3 ex_ctx {[5]} hist ex_tabs None ex_query
    (ex_system w) Hok Hsys) as Hrun.
  rewrite Hr in Hrun. destruct (Hrun ltac:(simpl; lia)) as (s' & Hrun' & _). exists r, s'. split; [exact Hrun'|exact Hv].
Defined.
