(* ===== verification/Texts.v ===== *)
(** The texts of expressions and plans: [ToString] of
    [src/src/operators/expressions] and of [src/src/operators]. The optimizer
    reads column names from them, EXPLAIN shows them. *)
From S2P Require Import Prelude Types Value Column LockManager Like Expressions OrderBy Query Plan.

(** The formatting library: the text of a double, and of a vector by the texts of
    its elements. *)
Class Fmt := { fmt_double : Z → string; fmt_vector : list string → string }.

Section Texts.
Context `{Fmt}.

Definition Arithmetic_text (type : ArithmeticType) : string :=
  match type with ADD => "+" | SUB => "-" | MUL => "*" | DIV => "/" end.
Definition Comparison_text (type : ComparisonType) : string :=
  match type with
  | EQUAL => "=" | NOT_EQUAL => "!=" | LESS => "<" | LESS_EQUAL => "<=" | GREATER => ">" | GREATER_EQUAL => ">="
  | BETWEEN => "between" | NOT_BETWEEN => "not between" | IN => "in" | NOT_IN => "not_in" | LIKE => "~~" | NOT_LIKE => "!~~"
  end.
Definition Logic_text (type : LogicType) : string := match type with AND => "and" | OR => "or" | NOT => "not" end.

(** [fmt::format("{} {} {}", ..)] *)
Definition infix (left : res string) (op : string) (right : res string) : res string :=
  l ← left; r ← right; Ok (l +:+ " " +:+ op +:+ " " +:+ r).

Fixpoint Expression_ToString (e : OperatorExpression) : res string :=
  match e with
  | ColumnValue _ _ name _ _ => Ok name
  | Const value => Value_ToString fmt_double value
  | Arithmetic type e0 e1 => infix (Expression_ToString e0) (Arithmetic_text type) (Expression_ToString e1)
  | Comparison type e0 e1 => infix (Expression_ToString e0) (Comparison_text type) (Expression_ToString e1)
  | Logic NOT e0 _ => s ← Expression_ToString e0; Ok (Logic_text NOT +:+ " " +:+ s)
  | Logic type e0 e1 =>
      infix (Expression_ToString e0) (Logic_text type)
        match e1 with Some e1 => Expression_ToString e1 | None => Err (Undefined "vector index out of range") end
  | NullTest _ arg | TypeCast _ arg => Expression_ToString arg
  | FuncCall function_name args =>
      texts ← seqR (map Expression_ToString args); Ok (function_name +:+ "(" +:+ fmt_vector texts +:+ ")")
  | ListExpr exprs => texts ← seqR (map Expression_ToString exprs); Ok (fmt_vector texts)
  end.

(** [std::string(n, ' ')] *)
Fixpoint spaces (n : nat) : string := match n with 0%nat => "" | S n => " " +:+ spaces n end.

(** A line for the operator, then its children, two more spaces in. *)
Definition indented (indent_num : nat) (line : string) : string := spaces (indent_num * 2) +:+ line.
Definition over (line : res string) (child : res string) : res string :=
  l ← line; c ← child; Ok (l +:+ newline +:+ c).

Fixpoint Operator_ToString (p : Operator) (indent_num : nat) : res string :=
  match p with
  | AggregateOperator _ c _ _ _ _ => over (Ok (indented indent_num "Aggregate:")) (Operator_ToString c (S indent_num))
  | DeleteOperator _ c _ => over (Ok (indented indent_num "DeleteOperator:")) (Operator_ToString c (S indent_num))
  | FilterOperator _ c predicate =>
      over (s ← Expression_ToString predicate; Ok (indented indent_num ("Filter: " +:+ s))) (Operator_ToString c (S indent_num))
  | HashJoinOperator _ l r left_key right_key _ =>
      over (over (k0 ← Expression_ToString left_key; k1 ← Expression_ToString right_key;
                  Ok (indented indent_num ("HashJoin: left=" +:+ k0 +:+ " right=" +:+ k1)))
              (Operator_ToString l (S indent_num))) (Operator_ToString r (S indent_num))
  | InsertOperator _ c _ _ => over (Ok (indented indent_num "InsertOperator")) (Operator_ToString c (S indent_num))
  | LimitOperator _ c _ _ => over (Ok (indented indent_num "LimitOperator:")) (Operator_ToString c (S indent_num))
  | LockRowsOperator _ c _ _ => over (Ok (indented indent_num "LockRowsOperator:")) (Operator_ToString c (S indent_num))
  | MergeJoinOperator _ l r left_key right_key _ =>
      over (over (k0 ← Expression_ToString left_key; k1 ← Expression_ToString right_key;
                  Ok (indented indent_num ("MergeJoin: left=" +:+ k0 +:+ " right=" +:+ k1)))
              (Operator_ToString l (S indent_num))) (Operator_ToString r (S indent_num))
  | NestedLoopJoinOperator _ l r join_condition _ =>
      over (over (s ← Expression_ToString join_condition; Ok (indented indent_num ("NestedLoopJoin: " +:+ s)))
              (Operator_ToString l (S indent_num))) (Operator_ToString r (S indent_num))
  | OrderByOperator _ c _ => over (Ok (indented indent_num "Order:")) (Operator_ToString c (S indent_num))
  | ProjectionOperator _ c exprs =>
      over (texts ← seqR (map Expression_ToString exprs); Ok (indented indent_num ("Projection: " +:+ fmt_vector texts)))
        (Operator_ToString c (S indent_num))
  | SeqScanOperator _ _ table_name (Some alias) _ => Ok (indented indent_num ("SeqScan: " +:+ table_name +:+ " " +:+ alias))
  | SeqScanOperator _ _ table_name None _ => Ok (indented indent_num ("SeqScan: " +:+ table_name))
  | UpdateOperator _ c _ _ => over (Ok (indented indent_num "UpdateOperator:")) (Operator_ToString c (S indent_num))
  | ValuesOperator _ _ => Ok (indented indent_num "ValuesOperator")
  end.
End Texts.
