(* ===== verification/NodeTags.v ===== *)
(** [src/src/binder/node_tag_to_string.cpp]: the tags of the nodes of a parse
    tree ([enum PGNodeTag] of the parser's [nodes.hpp]) and their names, for the
    messages of the binder. *)
From S2P Require Import Prelude.

Inductive PGNodeTag :=
| T_PGInvalid | T_PGIndexInfo | T_PGExprContext | T_PGProjectionInfo | T_PGJunkFilter | T_PGResultRelInfo | T_PGEState
| T_PGTupleTableSlot | T_PGPlan | T_PGResult | T_PGProjectSet | T_PGModifyTable | T_PGAppend | T_PGMergeAppend
| T_PGRecursiveUnion | T_PGBitmapAnd | T_PGBitmapOr | T_PGScan | T_PGSeqScan | T_PGSampleScan | T_PGIndexScan
| T_PGIndexOnlyScan | T_PGBitmapIndexScan | T_PGBitmapHeapScan | T_PGTidScan | T_PGSubqueryScan | T_PGFunctionScan
| T_PGValuesScan | T_PGTableFuncScan | T_PGCteScan | T_PGNamedTuplestoreScan | T_PGWorkTableScan | T_PGForeignScan
| T_PGCustomScan | T_PGJoin | T_PGNestLoop | T_PGMergeJoin | T_PGHashJoin | T_PGMaterial | T_PGSort | T_PGGroup | T_PGAgg
| T_PGWindowAgg | T_PGUnique | T_PGGather | T_PGGatherMerge | T_PGHash | T_PGSetOp | T_PGLockRows | T_PGLimit
| T_PGNestLoopParam | T_PGPlanRowMark | T_PGPlanInvalItem | T_PGPlanState | T_PGResultState | T_PGProjectSetState
| T_PGModifyTableState | T_PGAppendState | T_PGMergeAppendState | T_PGRecursiveUnionState | T_PGBitmapAndState
| T_PGBitmapOrState | T_PGScanState | T_PGSeqScanState | T_PGSampleScanState | T_PGIndexScanState | T_PGIndexOnlyScanState
| T_PGBitmapIndexScanState | T_PGBitmapHeapScanState | T_PGTidScanState | T_PGSubqueryScanState | T_PGFunctionScanState
| T_PGTableFuncScanState | T_PGValuesScanState | T_PGCteScanState | T_PGNamedTuplestoreScanState | T_PGWorkTableScanState
| T_PGForeignScanState | T_PGCustomScanState | T_PGJoinState | T_PGNestLoopState | T_PGMergeJoinState | T_PGHashJoinState
| T_PGMaterialState | T_PGSortState | T_PGGroupState | T_PGAggState | T_PGWindowAggState | T_PGUniqueState | T_PGGatherState
| T_PGGatherMergeState | T_PGHashState | T_PGSetOpState | T_PGLockRowsState | T_PGLimitState | T_PGAlias | T_PGRangeVar
| T_PGTableFunc | T_PGExpr | T_PGVar | T_PGConst | T_PGParam | T_PGAggref | T_PGGroupingFunc | T_PGWindowFunc | T_PGArrayRef
| T_PGFuncExpr | T_PGNamedArgExpr | T_PGOpExpr | T_PGDistinctExpr | T_PGNullIfExpr | T_PGScalarArrayOpExpr | T_PGBoolExpr
| T_PGSubLink | T_PGSubPlan | T_PGAlternativeSubPlan | T_PGFieldSelect | T_PGFieldStore | T_PGRelabelType | T_PGCoerceViaIO
| T_PGArrayCoerceExpr | T_PGConvertRowtypeExpr | T_PGCollateExpr | T_PGCaseExpr | T_PGCaseWhen | T_PGCaseTestExpr
| T_PGArrayExpr | T_PGRowExpr | T_PGRowCompareExpr | T_PGCoalesceExpr | T_PGMinMaxExpr | T_PGSQLValueFunction | T_PGXmlExpr
| T_PGNullTest | T_PGBooleanTest | T_PGCoerceToDomain | T_PGCoerceToDomainValue | T_PGSetToDefault | T_PGCurrentOfExpr
| T_PGNextValueExpr | T_PGInferenceElem | T_PGTargetEntry | T_PGRangeTblRef | T_PGJoinExpr | T_PGFromExpr
| T_PGOnConflictExpr | T_PGIntoClause | T_PGLambdaFunction | T_PGExprState | T_PGAggrefExprState | T_PGWindowFuncExprState
| T_PGSetExprState | T_PGSubPlanState | T_PGAlternativeSubPlanState | T_PGDomainConstraintState | T_PGPlannerInfo
| T_PGPlannerGlobal | T_PGRelOptInfo | T_PGIndexOptInfo | T_PGForeignKeyOptInfo | T_PGParamPathInfo | T_PGPath
| T_PGIndexPath | T_PGBitmapHeapPath | T_PGBitmapAndPath | T_PGBitmapOrPath | T_PGTidPath | T_PGSubqueryScanPath
| T_PGForeignPath | T_PGCustomPath | T_PGNestPath | T_PGMergePath | T_PGHashPath | T_PGAppendPath | T_PGMergeAppendPath
| T_PGResultPath | T_PGMaterialPath | T_PGUniquePath | T_PGGatherPath | T_PGGatherMergePath | T_PGProjectionPath
| T_PGProjectSetPath | T_PGSortPath | T_PGGroupPath | T_PGUpperUniquePath | T_PGAggPath | T_PGGroupingSetsPath
| T_PGMinMaxAggPath | T_PGWindowAggPath | T_PGSetOpPath | T_PGRecursiveUnionPath | T_PGLockRowsPath | T_PGModifyTablePath
| T_PGLimitPath | T_PGEquivalenceClass | T_PGEquivalenceMember | T_PGPathKey | T_PGPathTarget | T_PGRestrictInfo
| T_PGPlaceHolderVar | T_PGSpecialJoinInfo | T_PGAppendRelInfo | T_PGPartitionedChildRelInfo | T_PGPlaceHolderInfo
| T_PGMinMaxAggInfo | T_PGPlannerParamItem | T_PGRollupData | T_PGGroupingSetData | T_PGStatisticExtInfo
| T_PGMemoryContext | T_PGAllocSetContext | T_PGSlabContext | T_PGValue | T_PGInteger | T_PGFloat | T_PGString
| T_PGBitString | T_PGNull | T_PGList | T_PGIntList | T_PGOidList | T_PGExtensibleNode | T_PGRawStmt | T_PGQuery
| T_PGPlannedStmt | T_PGInsertStmt | T_PGDeleteStmt | T_PGUpdateStmt | T_PGSelectStmt | T_PGAlterTableStmt
| T_PGAlterTableCmd | T_PGAlterDomainStmt | T_PGSetOperationStmt | T_PGGrantStmt | T_PGGrantRoleStmt
| T_PGAlterDefaultPrivilegesStmt | T_PGClosePortalStmt | T_PGClusterStmt | T_PGCopyStmt | T_PGCreateStmt | T_PGDefineStmt
| T_PGDropStmt | T_PGTruncateStmt | T_PGCommentStmt | T_PGFetchStmt | T_PGIndexStmt | T_PGCreateFunctionStmt
| T_PGAlterFunctionStmt | T_PGDoStmt | T_PGRenameStmt | T_PGRuleStmt | T_PGNotifyStmt | T_PGListenStmt | T_PGUnlistenStmt
| T_PGTransactionStmt | T_PGViewStmt | T_PGLoadStmt | T_PGCreateDomainStmt | T_PGCreatedbStmt | T_PGDropdbStmt
| T_PGVacuumStmt | T_PGExplainStmt | T_PGCreateTableAsStmt | T_PGCreateSeqStmt | T_PGAlterSeqStmt | T_PGVariableSetStmt
| T_PGVariableShowStmt | T_PGVariableShowSelectStmt | T_PGDiscardStmt | T_PGCreateTrigStmt | T_PGCreatePLangStmt
| T_PGCreateRoleStmt | T_PGAlterRoleStmt | T_PGDropRoleStmt | T_PGLockStmt | T_PGConstraintsSetStmt | T_PGReindexStmt
| T_PGCheckPointStmt | T_PGCreateSchemaStmt | T_PGAlterDatabaseStmt | T_PGAlterDatabaseSetStmt | T_PGAlterRoleSetStmt
| T_PGCreateConversionStmt | T_PGCreateCastStmt | T_PGCreateOpClassStmt | T_PGCreateOpFamilyStmt | T_PGAlterOpFamilyStmt
| T_PGPrepareStmt | T_PGExecuteStmt | T_PGCallStmt | T_PGDeallocateStmt | T_PGDeclareCursorStmt | T_PGCreateTableSpaceStmt
| T_PGDropTableSpaceStmt | T_PGAlterObjectDependsStmt | T_PGAlterObjectSchemaStmt | T_PGAlterOwnerStmt
| T_PGAlterOperatorStmt | T_PGDropOwnedStmt | T_PGReassignOwnedStmt | T_PGCompositeTypeStmt | T_PGCreateTypeStmt
| T_PGCreateRangeStmt | T_PGAlterEnumStmt | T_PGAlterTSDictionaryStmt | T_PGAlterTSConfigurationStmt | T_PGCreateFdwStmt
| T_PGAlterFdwStmt | T_PGCreateForeignServerStmt | T_PGAlterForeignServerStmt | T_PGCreateUserMappingStmt
| T_PGAlterUserMappingStmt | T_PGDropUserMappingStmt | T_PGAlterTableSpaceOptionsStmt | T_PGAlterTableMoveAllStmt
| T_PGSecLabelStmt | T_PGCreateForeignTableStmt | T_PGImportForeignSchemaStmt | T_PGCreateExtensionStmt
| T_PGAlterExtensionStmt | T_PGAlterExtensionContentsStmt | T_PGCreateEventTrigStmt | T_PGAlterEventTrigStmt
| T_PGRefreshMatViewStmt | T_PGReplicaIdentityStmt | T_PGAlterSystemStmt | T_PGCreatePolicyStmt | T_PGAlterPolicyStmt
| T_PGCreateTransformStmt | T_PGCreateAmStmt | T_PGCreatePublicationStmt | T_PGAlterPublicationStmt
| T_PGCreateSubscriptionStmt | T_PGAlterSubscriptionStmt | T_PGDropSubscriptionStmt | T_PGCreateStatsStmt
| T_PGAlterCollationStmt | T_PGPragmaStmt | T_PGExportStmt | T_PGImportStmt | T_PGAttachStmt | T_PGDetachStmt
| T_PGCreateDatabaseStmt | T_PGUseStmt | T_PGAExpr | T_PGColumnRef | T_PGParamRef | T_PGAConst | T_PGFuncCall | T_PGAStar
| T_PGAIndices | T_PGAIndirection | T_PGAArrayExpr | T_PGResTarget | T_PGMultiAssignRef | T_PGTypeCast | T_PGCollateClause
| T_PGSortBy | T_PGWindowDef | T_PGRangeSubselect | T_PGRangeFunction | T_PGRangeTableSample | T_PGRangeTableFunc
| T_PGRangeTableFuncCol | T_PGTypeName | T_PGColumnDef | T_PGIndexElem | T_PGConstraint | T_PGDefElem | T_PGRangeTblEntry
| T_PGRangeTblFunction | T_PGTableSampleClause | T_PGWithCheckOption | T_PGSortGroupClause | T_PGGroupingSet
| T_PGWindowClause | T_PGObjectWithArgs | T_PGAccessPriv | T_PGCreateOpClassItem | T_PGTableLikeClause
| T_PGFunctionParameter | T_PGLockingClause | T_PGRowMarkClause | T_PGXmlSerialize | T_PGWithClause | T_PGInferClause
| T_PGOnConflictClause | T_PGCommonTableExpr | T_PGRoleSpec | T_PGTriggerTransition | T_PGPartitionElem | T_PGPartitionSpec
| T_PGPartitionBoundSpec | T_PGPartitionRangeDatum | T_PGPartitionCmd | T_PGIntervalConstant | T_PGSampleSize
| T_PGSampleOptions | T_PGLimitPercent | T_PGPositionalReference | T_PGIdentifySystemCmd | T_PGBaseBackupCmd
| T_PGCreateReplicationSlotCmd | T_PGDropReplicationSlotCmd | T_PGStartReplicationCmd | T_PGTimeLineHistoryCmd
| T_PGSQLCmd | T_PGTriggerData | T_PGEventTriggerData | T_PGReturnSetInfo | T_PGWindowObjectData | T_PGTIDBitmap
| T_PGInlineCodeBlock | T_PGFdwRoutine | T_PGIndexAmRoutine | T_PGTsmRoutine | T_PGForeignKeyCacheInfo.

Definition NodeTagToString (tag : PGNodeTag) : string :=
  match tag with
  | T_PGInvalid => "T_PGInvalid" | T_PGIndexInfo => "T_PGIndexInfo" | T_PGExprContext => "T_PGExprContext"
  | T_PGProjectionInfo => "T_PGProjectionInfo" | T_PGJunkFilter => "T_PGJunkFilter"
  | T_PGResultRelInfo => "T_PGResultRelInfo" | T_PGEState => "T_PGEState" | T_PGTupleTableSlot => "T_PGTupleTableSlot"
  | T_PGPlan => "T_PGPlan" | T_PGResult => "T_PGResult" | T_PGProjectSet => "T_PGProjectSet"
  | T_PGModifyTable => "T_PGModifyTable" | T_PGAppend => "T_PGAppend" | T_PGMergeAppend => "T_PGMergeAppend"
  | T_PGRecursiveUnion => "T_PGRecursiveUnion" | T_PGBitmapAnd => "T_PGBitmapAnd" | T_PGBitmapOr => "T_PGBitmapOr"
  | T_PGScan => "T_PGScan" | T_PGSeqScan => "T_PGSeqScan" | T_PGSampleScan => "T_PGSampleScan"
  | T_PGIndexScan => "T_PGIndexScan" | T_PGIndexOnlyScan => "T_PGIndexOnlyScan"
  | T_PGBitmapIndexScan => "T_PGBitmapIndexScan" | T_PGBitmapHeapScan => "T_PGBitmapHeapScan"
  | T_PGTidScan => "T_PGTidScan" | T_PGSubqueryScan => "T_PGSubqueryScan" | T_PGFunctionScan => "T_PGFunctionScan"
  | T_PGValuesScan => "T_PGValuesScan" | T_PGTableFuncScan => "T_PGTableFuncScan" | T_PGCteScan => "T_PGCteScan"
  | T_PGNamedTuplestoreScan => "T_PGNamedTuplestoreScan" | T_PGWorkTableScan => "T_PGWorkTableScan"
  | T_PGForeignScan => "T_PGForeignScan" | T_PGCustomScan => "T_PGCustomScan" | T_PGJoin => "T_PGJoin"
  | T_PGNestLoop => "T_PGNestLoop" | T_PGMergeJoin => "T_PGMergeJoin" | T_PGHashJoin => "T_PGHashJoin"
  | T_PGMaterial => "T_PGMaterial" | T_PGSort => "T_PGSort" | T_PGGroup => "T_PGGroup" | T_PGAgg => "T_PGAgg"
  | T_PGWindowAgg => "T_PGWindowAgg" | T_PGUnique => "T_PGUnique" | T_PGGather => "T_PGGather"
  | T_PGGatherMerge => "T_PGGatherMerge" | T_PGHash => "T_PGHash" | T_PGSetOp => "T_PGSetOp"
  | T_PGLockRows => "T_PGLockRows" | T_PGLimit => "T_PGLimit" | T_PGNestLoopParam => "T_PGNestLoopParam"
  | T_PGPlanRowMark => "T_PGPlanRowMark" | T_PGPlanInvalItem => "T_PGPlanInvalItem" | T_PGPlanState => "T_PGPlanState"
  | T_PGResultState => "T_PGResultState" | T_PGProjectSetState => "T_PGProjectSetState"
  | T_PGModifyTableState => "T_PGModifyTableState" | T_PGAppendState => "T_PGAppendState"
  | T_PGMergeAppendState => "T_PGMergeAppendState" | T_PGRecursiveUnionState => "T_PGRecursiveUnionState"
  | T_PGBitmapAndState => "T_PGBitmapAndState" | T_PGBitmapOrState => "T_PGBitmapOrState"
  | T_PGScanState => "T_PGScanState" | T_PGSeqScanState => "T_PGSeqScanState"
  | T_PGSampleScanState => "T_PGSampleScanState" | T_PGIndexScanState => "T_PGIndexScanState"
  | T_PGIndexOnlyScanState => "T_PGIndexOnlyScanState" | T_PGBitmapIndexScanState => "T_PGBitmapIndexScanState"
  | T_PGBitmapHeapScanState => "T_PGBitmapHeapScanState" | T_PGTidScanState => "T_PGTidScanState"
  | T_PGSubqueryScanState => "T_PGSubqueryScanState" | T_PGFunctionScanState => "T_PGFunctionScanState"
  | T_PGTableFuncScanState => "T_PGTableFuncScanState" | T_PGValuesScanState => "T_PGValuesScanState"
  | T_PGCteScanState => "T_PGCteScanState" | T_PGNamedTuplestoreScanState => "T_PGNamedTuplestoreScanState"
  | T_PGWorkTableScanState => "T_PGWorkTableScanState" | T_PGForeignScanState => "T_PGForeignScanState"
  | T_PGCustomScanState => "T_PGCustomScanState" | T_PGJoinState => "T_PGJoinState"
  | T_PGNestLoopState => "T_PGNestLoopState" | T_PGMergeJoinState => "T_PGMergeJoinState"
  | T_PGHashJoinState => "T_PGHashJoinState" | T_PGMaterialState => "T_PGMaterialState"
  | T_PGSortState => "T_PGSortState" | T_PGGroupState => "T_PGGroupState" | T_PGAggState => "T_PGAggState"
  | T_PGWindowAggState => "T_PGWindowAggState" | T_PGUniqueState => "T_PGUniqueState"
  | T_PGGatherState => "T_PGGatherState" | T_PGGatherMergeState => "T_PGGatherMergeState"
  | T_PGHashState => "T_PGHashState" | T_PGSetOpState => "T_PGSetOpState" | T_PGLockRowsState => "T_PGLockRowsState"
  | T_PGLimitState => "T_PGLimitState" | T_PGAlias => "T_PGAlias" | T_PGRangeVar => "T_PGRangeVar"
  | T_PGTableFunc => "T_PGTableFunc" | T_PGExpr => "T_PGExpr" | T_PGVar => "T_PGVar" | T_PGConst => "T_PGConst"
  | T_PGParam => "T_PGParam" | T_PGAggref => "T_PGAggref" | T_PGGroupingFunc => "T_PGGroupingFunc"
  | T_PGWindowFunc => "T_PGWindowFunc" | T_PGArrayRef => "T_PGArrayRef" | T_PGFuncExpr => "T_PGFuncExpr"
  | T_PGNamedArgExpr => "T_PGNamedArgExpr" | T_PGOpExpr => "T_PGOpExpr" | T_PGDistinctExpr => "T_PGDistinctExpr"
  | T_PGNullIfExpr => "T_PGNullIfExpr" | T_PGScalarArrayOpExpr => "T_PGScalarArrayOpExpr"
  | T_PGBoolExpr => "T_PGBoolExpr" | T_PGSubLink => "T_PGSubLink" | T_PGSubPlan => "T_PGSubPlan"
  | T_PGAlternativeSubPlan => "T_PGAlternativeSubPlan" | T_PGFieldSelect => "T_PGFieldSelect"
  | T_PGFieldStore => "T_PGFieldStore" | T_PGRelabelType => "T_PGRelabelType" | T_PGCoerceViaIO => "T_PGCoerceViaIO"
  | T_PGArrayCoerceExpr => "T_PGArrayCoerceExpr" | T_PGConvertRowtypeExpr => "T_PGConvertRowtypeExpr"
  | T_PGCollateExpr => "T_PGCollateExpr" | T_PGCaseExpr => "T_PGCaseExpr" | T_PGCaseWhen => "T_PGCaseWhen"
  | T_PGCaseTestExpr => "T_PGCaseTestExpr" | T_PGArrayExpr => "T_PGArrayExpr" | T_PGRowExpr => "T_PGRowExpr"
  | T_PGRowCompareExpr => "T_PGRowCompareExpr" | T_PGCoalesceExpr => "T_PGCoalesceExpr"
  | T_PGMinMaxExpr => "T_PGMinMaxExpr" | T_PGSQLValueFunction => "T_PGSQLValueFunction" | T_PGXmlExpr => "T_PGXmlExpr"
  | T_PGNullTest => "T_PGNullTest" | T_PGBooleanTest => "T_PGBooleanTest" | T_PGCoerceToDomain => "T_PGCoerceToDomain"
  | T_PGCoerceToDomainValue => "T_PGCoerceToDomainValue" | T_PGSetToDefault => "T_PGSetToDefault"
  | T_PGCurrentOfExpr => "T_PGCurrentOfExpr" | T_PGNextValueExpr => "T_PGNextValueExpr"
  | T_PGInferenceElem => "T_PGInferenceElem" | T_PGTargetEntry => "T_PGTargetEntry"
  | T_PGRangeTblRef => "T_PGRangeTblRef" | T_PGJoinExpr => "T_PGJoinExpr" | T_PGFromExpr => "T_PGFromExpr"
  | T_PGOnConflictExpr => "T_PGOnConflictExpr" | T_PGIntoClause => "T_PGIntoClause"
  | T_PGLambdaFunction => "T_PGLambdaFunction" | T_PGExprState => "T_PGExprState"
  | T_PGAggrefExprState => "T_PGAggrefExprState" | T_PGWindowFuncExprState => "T_PGWindowFuncExprState"
  | T_PGSetExprState => "T_PGSetExprState" | T_PGSubPlanState => "T_PGSubPlanState"
  | T_PGAlternativeSubPlanState => "T_PGAlternativeSubPlanState"
  | T_PGDomainConstraintState => "T_PGDomainConstraintState" | T_PGPlannerInfo => "T_PGPlannerInfo"
  | T_PGPlannerGlobal => "T_PGPlannerGlobal" | T_PGRelOptInfo => "T_PGRelOptInfo"
  | T_PGIndexOptInfo => "T_PGIndexOptInfo" | T_PGForeignKeyOptInfo => "T_PGForeignKeyOptInfo"
  | T_PGParamPathInfo => "T_PGParamPathInfo" | T_PGPath => "T_PGPath" | T_PGIndexPath => "T_PGIndexPath"
  | T_PGBitmapHeapPath => "T_PGBitmapHeapPath" | T_PGBitmapAndPath => "T_PGBitmapAndPath"
  | T_PGBitmapOrPath => "T_PGBitmapOrPath" | T_PGTidPath => "T_PGTidPath"
  | T_PGSubqueryScanPath => "T_PGSubqueryScanPath" | T_PGForeignPath => "T_PGForeignPath"
  | T_PGCustomPath => "T_PGCustomPath" | T_PGNestPath => "T_PGNestPath" | T_PGMergePath => "T_PGMergePath"
  | T_PGHashPath => "T_PGHashPath" | T_PGAppendPath => "T_PGAppendPath" | T_PGMergeAppendPath => "T_PGMergeAppendPath"
  | T_PGResultPath => "T_PGResultPath" | T_PGMaterialPath => "T_PGMaterialPath" | T_PGUniquePath => "T_PGUniquePath"
  | T_PGGatherPath => "T_PGGatherPath" | T_PGGatherMergePath => "T_PGGatherMergePath"
  | T_PGProjectionPath => "T_PGProjectionPath" | T_PGProjectSetPath => "T_PGProjectSetPath"
  | T_PGSortPath => "T_PGSortPath" | T_PGGroupPath => "T_PGGroupPath" | T_PGUpperUniquePath => "T_PGUpperUniquePath"
  | T_PGAggPath => "T_PGAggPath" | T_PGGroupingSetsPath => "T_PGGroupingSetsPath"
  | T_PGMinMaxAggPath => "T_PGMinMaxAggPath" | T_PGWindowAggPath => "T_PGWindowAggPath"
  | T_PGSetOpPath => "T_PGSetOpPath" | T_PGRecursiveUnionPath => "T_PGRecursiveUnionPath"
  | T_PGLockRowsPath => "T_PGLockRowsPath" | T_PGModifyTablePath => "T_PGModifyTablePath"
  | T_PGLimitPath => "T_PGLimitPath" | T_PGEquivalenceClass => "T_PGEquivalenceClass"
  | T_PGEquivalenceMember => "T_PGEquivalenceMember" | T_PGPathKey => "T_PGPathKey"
  | T_PGPathTarget => "T_PGPathTarget" | T_PGRestrictInfo => "T_PGRestrictInfo"
  | T_PGPlaceHolderVar => "T_PGPlaceHolderVar" | T_PGSpecialJoinInfo => "T_PGSpecialJoinInfo"
  | T_PGAppendRelInfo => "T_PGAppendRelInfo" | T_PGPartitionedChildRelInfo => "T_PGPartitionedChildRelInfo"
  | T_PGPlaceHolderInfo => "T_PGPlaceHolderInfo" | T_PGMinMaxAggInfo => "T_PGMinMaxAggInfo"
  | T_PGPlannerParamItem => "T_PGPlannerParamItem" | T_PGRollupData => "T_PGRollupData"
  | T_PGGroupingSetData => "T_PGGroupingSetData" | T_PGStatisticExtInfo => "T_PGStatisticExtInfo"
  | T_PGMemoryContext => "T_PGMemoryContext" | T_PGAllocSetContext => "T_PGAllocSetContext"
  | T_PGSlabContext => "T_PGSlabContext" | T_PGValue => "T_PGValue" | T_PGInteger => "T_PGInteger"
  | T_PGFloat => "T_PGFloat" | T_PGString => "T_PGString" | T_PGBitString => "T_PGBitString" | T_PGNull => "T_PGNull"
  | T_PGList => "T_PGList" | T_PGIntList => "T_PGIntList" | T_PGOidList => "T_PGOidList"
  | T_PGExtensibleNode => "T_PGExtensibleNode" | T_PGRawStmt => "T_PGRawStmt" | T_PGQuery => "T_PGQuery"
  | T_PGPlannedStmt => "T_PGPlannedStmt" | T_PGInsertStmt => "T_PGInsertStmt" | T_PGDeleteStmt => "T_PGDeleteStmt"
  | T_PGUpdateStmt => "T_PGUpdateStmt" | T_PGSelectStmt => "T_PGSelectStmt"
  | T_PGAlterTableStmt => "T_PGAlterTableStmt" | T_PGAlterTableCmd => "T_PGAlterTableCmd"
  | T_PGAlterDomainStmt => "T_PGAlterDomainStmt" | T_PGSetOperationStmt => "T_PGSetOperationStmt"
  | T_PGGrantStmt => "T_PGGrantStmt" | T_PGGrantRoleStmt => "T_PGGrantRoleStmt"
  | T_PGAlterDefaultPrivilegesStmt => "T_PGAlterDefaultPrivilegesStmt" | T_PGClosePortalStmt => "T_PGClosePortalStmt"
  | T_PGClusterStmt => "T_PGClusterStmt" | T_PGCopyStmt => "T_PGCopyStmt" | T_PGCreateStmt => "T_PGCreateStmt"
  | T_PGDefineStmt => "T_PGDefineStmt" | T_PGDropStmt => "T_PGDropStmt" | T_PGTruncateStmt => "T_PGTruncateStmt"
  | T_PGCommentStmt => "T_PGCommentStmt" | T_PGFetchStmt => "T_PGFetchStmt" | T_PGIndexStmt => "T_PGIndexStmt"
  | T_PGCreateFunctionStmt => "T_PGCreateFunctionStmt" | T_PGAlterFunctionStmt => "T_PGAlterFunctionStmt"
  | T_PGDoStmt => "T_PGDoStmt" | T_PGRenameStmt => "T_PGRenameStmt" | T_PGRuleStmt => "T_PGRuleStmt"
  | T_PGNotifyStmt => "T_PGNotifyStmt" | T_PGListenStmt => "T_PGListenStmt" | T_PGUnlistenStmt => "T_PGUnlistenStmt"
  | T_PGTransactionStmt => "T_PGTransactionStmt" | T_PGViewStmt => "T_PGViewStmt" | T_PGLoadStmt => "T_PGLoadStmt"
  | T_PGCreateDomainStmt => "T_PGCreateDomainStmt" | T_PGCreatedbStmt => "T_PGCreatedbStmt"
  | T_PGDropdbStmt => "T_PGDropdbStmt" | T_PGVacuumStmt => "T_PGVacuumStmt" | T_PGExplainStmt => "T_PGExplainStmt"
  | T_PGCreateTableAsStmt => "T_PGCreateTableAsStmt" | T_PGCreateSeqStmt => "T_PGCreateSeqStmt"
  | T_PGAlterSeqStmt => "T_PGAlterSeqStmt" | T_PGVariableSetStmt => "T_PGVariableSetStmt"
  | T_PGVariableShowStmt => "T_PGVariableShowStmt" | T_PGVariableShowSelectStmt => "T_PGVariableShowSelectStmt"
  | T_PGDiscardStmt => "T_PGDiscardStmt" | T_PGCreateTrigStmt => "T_PGCreateTrigStmt"
  | T_PGCreatePLangStmt => "T_PGCreatePLangStmt" | T_PGCreateRoleStmt => "T_PGCreateRoleStmt"
  | T_PGAlterRoleStmt => "T_PGAlterRoleStmt" | T_PGDropRoleStmt => "T_PGDropRoleStmt" | T_PGLockStmt => "T_PGLockStmt"
  | T_PGConstraintsSetStmt => "T_PGConstraintsSetStmt" | T_PGReindexStmt => "T_PGReindexStmt"
  | T_PGCheckPointStmt => "T_PGCheckPointStmt" | T_PGCreateSchemaStmt => "T_PGCreateSchemaStmt"
  | T_PGAlterDatabaseStmt => "T_PGAlterDatabaseStmt" | T_PGAlterDatabaseSetStmt => "T_PGAlterDatabaseSetStmt"
  | T_PGAlterRoleSetStmt => "T_PGAlterRoleSetStmt" | T_PGCreateConversionStmt => "T_PGCreateConversionStmt"
  | T_PGCreateCastStmt => "T_PGCreateCastStmt" | T_PGCreateOpClassStmt => "T_PGCreateOpClassStmt"
  | T_PGCreateOpFamilyStmt => "T_PGCreateOpFamilyStmt" | T_PGAlterOpFamilyStmt => "T_PGAlterOpFamilyStmt"
  | T_PGPrepareStmt => "T_PGPrepareStmt" | T_PGExecuteStmt => "T_PGExecuteStmt" | T_PGCallStmt => "T_PGCallStmt"
  | T_PGDeallocateStmt => "T_PGDeallocateStmt" | T_PGDeclareCursorStmt => "T_PGDeclareCursorStmt"
  | T_PGCreateTableSpaceStmt => "T_PGCreateTableSpaceStmt" | T_PGDropTableSpaceStmt => "T_PGDropTableSpaceStmt"
  | T_PGAlterObjectDependsStmt => "T_PGAlterObjectDependsStmt"
  | T_PGAlterObjectSchemaStmt => "T_PGAlterObjectSchemaStmt" | T_PGAlterOwnerStmt => "T_PGAlterOwnerStmt"
  | T_PGAlterOperatorStmt => "T_PGAlterOperatorStmt" | T_PGDropOwnedStmt => "T_PGDropOwnedStmt"
  | T_PGReassignOwnedStmt => "T_PGReassignOwnedStmt" | T_PGCompositeTypeStmt => "T_PGCompositeTypeStmt"
  | T_PGCreateTypeStmt => "T_PGCreateTypeStmt" | T_PGCreateRangeStmt => "T_PGCreateRangeStmt"
  | T_PGAlterEnumStmt => "T_PGAlterEnumStmt" | T_PGAlterTSDictionaryStmt => "T_PGAlterTSDictionaryStmt"
  | T_PGAlterTSConfigurationStmt => "T_PGAlterTSConfigurationStmt" | T_PGCreateFdwStmt => "T_PGCreateFdwStmt"
  | T_PGAlterFdwStmt => "T_PGAlterFdwStmt" | T_PGCreateForeignServerStmt => "T_PGCreateForeignServerStmt"
  | T_PGAlterForeignServerStmt => "T_PGAlterForeignServerStmt"
  | T_PGCreateUserMappingStmt => "T_PGCreateUserMappingStmt" | T_PGAlterUserMappingStmt => "T_PGAlterUserMappingStmt"
  | T_PGDropUserMappingStmt => "T_PGDropUserMappingStmt"
  | T_PGAlterTableSpaceOptionsStmt => "T_PGAlterTableSpaceOptionsStmt"
  | T_PGAlterTableMoveAllStmt => "T_PGAlterTableMoveAllStmt" | T_PGSecLabelStmt => "T_PGSecLabelStmt"
  | T_PGCreateForeignTableStmt => "T_PGCreateForeignTableStmt"
  | T_PGImportForeignSchemaStmt => "T_PGImportForeignSchemaStmt"
  | T_PGCreateExtensionStmt => "T_PGCreateExtensionStmt" | T_PGAlterExtensionStmt => "T_PGAlterExtensionStmt"
  | T_PGAlterExtensionContentsStmt => "T_PGAlterExtensionContentsStmt"
  | T_PGCreateEventTrigStmt => "T_PGCreateEventTrigStmt" | T_PGAlterEventTrigStmt => "T_PGAlterEventTrigStmt"
  | T_PGRefreshMatViewStmt => "T_PGRefreshMatViewStmt" | T_PGReplicaIdentityStmt => "T_PGReplicaIdentityStmt"
  | T_PGAlterSystemStmt => "T_PGAlterSystemStmt" | T_PGCreatePolicyStmt => "T_PGCreatePolicyStmt"
  | T_PGAlterPolicyStmt => "T_PGAlterPolicyStmt" | T_PGCreateTransformStmt => "T_PGCreateTransformStmt"
  | T_PGCreateAmStmt => "T_PGCreateAmStmt" | T_PGCreatePublicationStmt => "T_PGCreatePublicationStmt"
  | T_PGAlterPublicationStmt => "T_PGAlterPublicationStmt"
  | T_PGCreateSubscriptionStmt => "T_PGCreateSubscriptionStmt"
  | T_PGAlterSubscriptionStmt => "T_PGAlterSubscriptionStmt" | T_PGDropSubscriptionStmt => "T_PGDropSubscriptionStmt"
  | T_PGCreateStatsStmt => "T_PGCreateStatsStmt" | T_PGAlterCollationStmt => "T_PGAlterCollationStmt"
  | T_PGPragmaStmt => "T_PGPragmaStmt" | T_PGExportStmt => "T_PGExportStmt" | T_PGImportStmt => "T_PGImportStmt"
  | T_PGAttachStmt => "T_PGAttachStmt" | T_PGDetachStmt => "T_PGDetachStmt"
  | T_PGCreateDatabaseStmt => "T_PGCreateDatabaseStmt" | T_PGUseStmt => "T_PGUseStmt" | T_PGAExpr => "T_PGAExpr"
  | T_PGColumnRef => "T_PGColumnRef" | T_PGParamRef => "T_PGParamRef" | T_PGAConst => "T_PGAConst"
  | T_PGFuncCall => "T_PGFuncCall" | T_PGAStar => "T_PGAStar" | T_PGAIndices => "T_PGAIndices"
  | T_PGAIndirection => "T_PGAIndirection" | T_PGAArrayExpr => "T_PGAArrayExpr" | T_PGResTarget => "T_PGResTarget"
  | T_PGMultiAssignRef => "T_PGMultiAssignRef" | T_PGTypeCast => "T_PGTypeCast"
  | T_PGCollateClause => "T_PGCollateClause" | T_PGSortBy => "T_PGSortBy" | T_PGWindowDef => "T_PGWindowDef"
  | T_PGRangeSubselect => "T_PGRangeSubselect" | T_PGRangeFunction => "T_PGRangeFunction"
  | T_PGRangeTableSample => "T_PGRangeTableSample" | T_PGRangeTableFunc => "T_PGRangeTableFunc"
  | T_PGRangeTableFuncCol => "T_PGRangeTableFuncCol" | T_PGTypeName => "T_PGTypeName"
  | T_PGColumnDef => "T_PGColumnDef" | T_PGIndexElem => "T_PGIndexElem" | T_PGConstraint => "T_PGConstraint"
  | T_PGDefElem => "T_PGDefElem" | T_PGRangeTblEntry => "T_PGRangeTblEntry"
  | T_PGRangeTblFunction => "T_PGRangeTblFunction" | T_PGTableSampleClause => "T_PGTableSampleClause"
  | T_PGWithCheckOption => "T_PGWithCheckOption" | T_PGSortGroupClause => "T_PGSortGroupClause"
  | T_PGGroupingSet => "T_PGGroupingSet" | T_PGWindowClause => "T_PGWindowClause"
  | T_PGObjectWithArgs => "T_PGObjectWithArgs" | T_PGAccessPriv => "T_PGAccessPriv"
  | T_PGCreateOpClassItem => "T_PGCreateOpClassItem" | T_PGTableLikeClause => "T_PGTableLikeClause"
  | T_PGFunctionParameter => "T_PGFunctionParameter" | T_PGLockingClause => "T_PGLockingClause"
  | T_PGRowMarkClause => "T_PGRowMarkClause" | T_PGXmlSerialize => "T_PGXmlSerialize"
  | T_PGWithClause => "T_PGWithClause" | T_PGInferClause => "T_PGInferClause"
  | T_PGOnConflictClause => "T_PGOnConflictClause" | T_PGCommonTableExpr => "T_PGCommonTableExpr"
  | T_PGRoleSpec => "T_PGRoleSpec" | T_PGTriggerTransition => "T_PGTriggerTransition"
  | T_PGPartitionElem => "T_PGPartitionElem" | T_PGPartitionSpec => "T_PGPartitionSpec"
  | T_PGPartitionBoundSpec => "T_PGPartitionBoundSpec" | T_PGPartitionRangeDatum => "T_PGPartitionRangeDatum"
  | T_PGPartitionCmd => "T_PGPartitionCmd" | T_PGIntervalConstant => "T_PGIntervalConstant"
  | T_PGSampleSize => "T_PGSampleSize" | T_PGSampleOptions => "T_PGSampleOptions"
  | T_PGLimitPercent => "T_PGLimitPercent" | T_PGPositionalReference => "T_PGPositionalReference"
  | T_PGIdentifySystemCmd => "T_PGIdentifySystemCmd" | T_PGBaseBackupCmd => "T_PGBaseBackupCmd"
  | T_PGCreateReplicationSlotCmd => "T_PGCreateReplicationSlotCmd"
  | T_PGDropReplicationSlotCmd => "T_PGDropReplicationSlotCmd" | T_PGStartReplicationCmd => "T_PGStartReplicationCmd"
  | T_PGTimeLineHistoryCmd => "T_PGTimeLineHistoryCmd" | T_PGSQLCmd => "T_PGSQLCmd"
  | T_PGTriggerData => "T_PGTriggerData" | T_PGEventTriggerData => "T_PGEventTriggerData"
  | T_PGReturnSetInfo => "T_PGReturnSetInfo" | T_PGWindowObjectData => "T_PGWindowObjectData"
  | T_PGTIDBitmap => "T_PGTIDBitmap" | T_PGInlineCodeBlock => "T_PGInlineCodeBlock"
  | T_PGFdwRoutine => "T_PGFdwRoutine" | T_PGIndexAmRoutine => "T_PGIndexAmRoutine"
  | T_PGTsmRoutine => "T_PGTsmRoutine" | T_PGForeignKeyCacheInfo => "T_PGForeignKeyCacheInfo"
  end.
