(* ===== verification/Bound.v ===== *)
(** What the binder hands to the planner and the engine: [src/src/binder]
    [expression.h], [table_ref.h], [statement.h] and the headers of
    [expressions/], [table_refs/] and [statements/], with the texts EXPLAIN shows. *)
From S2P Require Import Prelude Types Value Column LockManager Like Expressions OrderBy Query Plan Texts.

(** ** Expressions *)

(** One constructor per derived class; [NoExpression] is a null [unique_ptr]. *)
Inductive Expression :=
| AggregateExpression (function_name : string) (is_distinct : bool) (args : list Expression)
| AliasExpression (name : string) (expr : Expression)
| BinaryOpExpression (op_name : string) (left right : Expression)
| TypeCastExpression (cast_type : Type_) (arg : Expression)
| ColumnRefExpression (col_name : list string)
| ConstExpression (value : Value)
| FuncCallExpression (function_name : string) (args : list Expression)
| ListExpression (exprs : list Expression)
| NullTestExpression (is_null : bool) (arg : Expression)
| StarExpression
| UnaryOpExpression (op_name : string) (arg : Expression)
| NoExpression.

Definition null_expression {A} : res A := Err (Undefined "null expression").

(** [fmt::join(names, ".")] *)
Definition join_names (names : list string) : string := String.concat "." names.

(** [||] of C++ *)
Definition orR (a b : res bool) : res bool := x ← a; if x : bool then Ok true else b.
Fixpoint anyR (l : list (res bool)) : res bool := match l with [] => Ok false | x :: l => orR x (anyR l) end.

Fixpoint HasAggregation (e : Expression) : res bool :=
  match e with
  | AggregateExpression _ _ _ => Ok true
  | AliasExpression _ expr => HasAggregation expr
  | BinaryOpExpression _ e0 e1 => orR (HasAggregation e0) (HasAggregation e1)
  | FuncCallExpression _ args => anyR (map HasAggregation args)
  | UnaryOpExpression _ arg => HasAggregation arg
  | TypeCastExpression _ _ | ColumnRefExpression _ | ConstExpression _ | ListExpression _ | NullTestExpression _ _
  | StarExpression => Ok false
  | NoExpression => null_expression
  end.

(** ** Tables and queries *)

Record BaseTableRef := mkBaseTable {
  bt_table_ : string; bt_alias_ : option string; bt_oid_ : Z; bt_column_list_ : ColumnList
}.
Definition GetTableName (t : BaseTableRef) : string := default (bt_table_ t) (bt_alias_ t).

Inductive TableRef :=
| BaseTable (table : BaseTableRef)
| CrossJoinRef (left right : TableRef)
| EmptyRef
| ExpressionListRef (values_list : list (list Expression))
| JoinRef (join_type : JoinType) (left right : TableRef) (condition : Expression).

(** An absent clause is a null pointer. *)
Record SelectStatement := mkSelect {
  sel_table_ : TableRef;
  select_list_ : list Expression;
  where_ : option Expression;
  group_by_ : list Expression;
  having_ : option Expression;
  order_by_ : list (OrderByType * Expression);
  limit_count_ : option Expression;
  limit_offset_ : option Expression;
  lock_type_ : SelectLockType;
  distinct_ : bool
}.
(** The constructor with two arguments *)
Definition mk_SelectStatement (table : TableRef) (select_list : list Expression) : SelectStatement :=
  mkSelect table select_list None [] None [] None None NOLOCK false.

(** ** Statements *)

(** [enum class ForceJoin], [JoinOrderAlgorithm], [TransactionType] and
    [TableLockType] *)
Inductive ForceJoin := FJ_NONE | FJ_MERGE | FJ_HASH.
Inductive JoinOrderAlgorithm := JO_NONE | JO_DP | JO_GREEDY.
Inductive TransactionType := TT_BEGIN | TT_COMMIT | TT_ROLLBACK.
Inductive TableLockType := TL_SHARE | TL_EXCLUSIVE.

(** [enum ExplainOptions] *)
Definition EO_BINDER : Z := 1.
Definition EO_PLANNER : Z := 2.
Definition EO_OPTIMIZER : Z := 4.

(** The columns of INSERT, ANALYZE and UPDATE are column references, the last two
    possibly null. *)
Inductive Statement :=
| AnalyzeStatement (table : option BaseTableRef) (columns : list (option (list string)))
| CheckpointStatement
| CreateDatabaseStatement (database : string)
| CreateIndexStatement (index_name table_name : string) (column_names : list string)
| CreateTableStatement (table : string) (columns : list ColumnDefinition)
| DeleteStatement (table : BaseTableRef) (filter : Expression)
| DropDatabaseStatement (database : string) (missing_ok : bool)
| DropIndexStatement (index_name : string) (missing_ok : bool)
| DropTableStatement (table : string) (missing_ok : bool)
| ExplainStatement (statement : Statement) (options : Z)
| InsertStatement (table : BaseTableRef) (columns : list (list string)) (select_stmt : SelectStatement)
| LockStatement (table : BaseTableRef) (lock_type : TableLockType)
| QuerySelect (select_stmt : SelectStatement)
| TransactionStatement (type : TransactionType)
| UpdateStatement (table : BaseTableRef) (filter : Expression) (update_exprs : list (option (list string) * Expression))
| VacuumStatement (table : option BaseTableRef)
| VariableSetStatement (variable value : string)
| VariableShowStatement (variable : string).

(** ** Texts *)

Section Texts.
Context `{Fmt}.

(** The text of a column reference is its name. *)
Fixpoint Bound_ToString (e : Expression) : res string :=
  match e with
  | AggregateExpression function_name _ args | FuncCallExpression function_name args =>
      texts ← seqR (map Bound_ToString args); Ok (function_name +:+ "(" +:+ fmt_vector texts +:+ ")")
  | AliasExpression name expr => s ← Bound_ToString expr; Ok (s +:+ " as " +:+ name)
  | BinaryOpExpression op_name e0 e1 => infix (Bound_ToString e0) op_name (Bound_ToString e1)
  | TypeCastExpression cast_type arg =>
      t ← Type2String cast_type; s ← Bound_ToString arg; Ok ("Cast " +:+ t +:+ ": " +:+ s)
  | ColumnRefExpression col_name => Ok (join_names col_name)
  | ConstExpression value => Value_ToString fmt_double value
  | ListExpression exprs => texts ← seqR (map Bound_ToString exprs); Ok (fmt_vector texts)
  | NullTestExpression _ arg => Bound_ToString arg
  | StarExpression => Ok "*"
  | UnaryOpExpression op_name arg => s ← Bound_ToString arg; Ok (op_name +:+ " " +:+ s)
  | NoExpression => Ok ""
  end.

Definition optional_text {A} (text : A → res string) (x : option A) : res string := from_option text (Ok "") x.

Definition BaseTable_ToString (t : BaseTableRef) : string := "name=" +:+ bt_table_ t +:+ ", oid=" +:+ pretty (bt_oid_ t).
Definition JoinType_text (t : JoinType) : string :=
  match t with INNER => "inner" | LEFT => "left" | RIGHT => "right" | FULL => "full" end.

Fixpoint TableRef_ToString (t : TableRef) : res string :=
  match t with
  | BaseTable table => Ok (BaseTable_ToString table)
  | CrossJoinRef t0 t1 =>
      l ← TableRef_ToString t0; r ← TableRef_ToString t1; Ok ("left=(" +:+ l +:+ "), right=(" +:+ r +:+ ")")
  | EmptyRef => Ok "<empty>"
  | ExpressionListRef _ => Ok "ExpressionListRef: values="
  | JoinRef join_type t0 t1 condition =>
      l ← TableRef_ToString t0; r ← TableRef_ToString t1; c ← Bound_ToString condition;
      Ok ("left=(" +:+ l +:+ "), right=(" +:+ r +:+ "), type=" +:+ JoinType_text join_type +:+ ", condition=" +:+ c)
  end.

Definition OrderByType_text (t : OrderByType) : string :=
  match t with DEFAULT => "Default" | ASC => "Ascending" | DESC => "Descending" end.
Definition OrderBy_ToString (o : OrderByType * Expression) : res string :=
  s ← Bound_ToString o.2; Ok ("(type=" +:+ OrderByType_text o.1 +:+ ", expr=" +:+ s +:+ ")").

(** [fmt] prints a bool as a word. *)
Definition bool_text (b : bool) : string := if b then "true" else "false".

Definition Select_ToString (s : SelectStatement) : res string :=
  table ← TableRef_ToString (sel_table_ s);
  select_list ← seqR (map Bound_ToString (select_list_ s));
  where_text ← optional_text Bound_ToString (where_ s);
  order_by ← seqR (map OrderBy_ToString (order_by_ s));
  limit ← optional_text Bound_ToString (limit_count_ s);
  offset ← optional_text Bound_ToString (limit_offset_ s);
  Ok ("SelectStatement:" +:+ newline +:+ "  table: " +:+ table +:+ "," +:+ newline +:+
      "  select_list: " +:+ fmt_vector select_list +:+ "," +:+ newline +:+
      "  where: " +:+ where_text +:+ "," +:+ newline +:+
      "  order_by: " +:+ fmt_vector order_by +:+ "," +:+ newline +:+
      "  limit: " +:+ limit +:+ "," +:+ newline +:+ "  offset: " +:+ offset +:+ "," +:+ newline +:+
      "  distinct: " +:+ bool_text (distinct_ s) +:+ newline).

Definition TransactionType_text (t : TransactionType) : string :=
  match t with TT_BEGIN => "begin" | TT_COMMIT => "commit" | TT_ROLLBACK => "rollback" end.
Definition TableLockType_text (t : TableLockType) : string :=
  match t with TL_SHARE => "share" | TL_EXCLUSIVE => "exclusive" end.

Fixpoint Statement_ToString (s : Statement) : res string :=
  match s with
  | AnalyzeStatement table _ => Ok ("AnalyzeStatement: " +:+ from_option BaseTable_ToString "" table +:+ newline)
  | CheckpointStatement => Ok ("CheckpointStatement" +:+ newline)
  | CreateDatabaseStatement database => Ok ("CreateDatabaseStatement: database=" +:+ database +:+ newline)
  | CreateIndexStatement index_name _ _ => Ok ("CreateIndexStatement: name=" +:+ index_name +:+ newline)
  | CreateTableStatement table columns =>
      texts ← seqR (map Column_ToString columns);
      Ok ("CreateTableStatement: table=" +:+ table +:+ " columns=" +:+ fmt_vector texts +:+ newline)
  | DeleteStatement table filter =>
      s ← Bound_ToString filter; Ok ("DeleteStatement: table=" +:+ BaseTable_ToString table +:+ " filter=" +:+ s)
  | DropDatabaseStatement database _ => Ok ("DropDatabaseStatement" +:+ database +:+ newline)
  | DropIndexStatement index_name _ => Ok ("DropIndexStatement: index_name=" +:+ index_name +:+ newline)
  | DropTableStatement table _ => Ok ("DropTableStatement: table=" +:+ table +:+ newline)
  | ExplainStatement statement _ =>
      s ← Statement_ToString statement; Ok ("ExplainStatement:" +:+ newline +:+ " statement=" +:+ s +:+ newline)
  | InsertStatement table _ select_stmt =>
      s ← Select_ToString select_stmt;
      Ok ("InsertStatement: table=" +:+ BaseTable_ToString table +:+ ", select=" +:+ newline +:+ s)
  | LockStatement table lock_type =>
      Ok ("LockStatement: " +:+ BaseTable_ToString table +:+ " " +:+ TableLockType_text lock_type +:+ newline)
  | QuerySelect select_stmt => Select_ToString select_stmt
  | TransactionStatement type => Ok ("TransactionStatement: " +:+ TransactionType_text type +:+ newline)
  | UpdateStatement table filter _ =>
      s ← Bound_ToString filter;
      Ok ("UpdateStatement: table=" +:+ BaseTable_ToString table +:+ ", filter=" +:+ s +:+ newline)
  | VacuumStatement table => Ok ("VacuumStatement: " +:+ from_option BaseTable_ToString "" table +:+ newline)
  | VariableSetStatement variable value =>
      Ok ("VariableSetStatement: variable=" +:+ variable +:+ ", value=" +:+ value +:+ newline)
  | VariableShowStatement variable => Ok ("VariableShowStatement: variable: " +:+ variable +:+ newline)
  end.
End Texts.
