(* ===== verification/Binder.v ===== *)
(** [src/src/binder/binder.h] and [binder.cpp]: from a parse tree to a bound
    statement. Names of tables become tables of the catalog, names of columns are
    completed by the name of their table. *)
From Stdlib Require Import Ascii SpecFloat.
From S2P Require Import Prelude Types StringUtil Value Column LockManager Like Expressions OrderBy Query Plan Texts NodeTags Bound.

(** ** The parse tree

    The nodes of the parser (its headers [nodes/parsenodes.hpp], [primnodes.hpp]
    and [value.hpp]), with the fields the binder reads. A null pointer is [None],
    the null list is [[]]: the parser has no other empty list. *)

Inductive PGValue :=
| PGInteger (ival : Z)
| PGFloat (str : string)
| PGString (str : string)
| PGNull
| PGOtherValue (tag : PGNodeTag).

Inductive PGAExpr_Kind :=
| PG_AEXPR_OP | PG_AEXPR_OP_ANY | PG_AEXPR_OP_ALL | PG_AEXPR_DISTINCT | PG_AEXPR_NOT_DISTINCT | PG_AEXPR_NULLIF
| PG_AEXPR_OF | PG_AEXPR_IN | PG_AEXPR_LIKE | PG_AEXPR_ILIKE | PG_AEXPR_GLOB | PG_AEXPR_SIMILAR | PG_AEXPR_BETWEEN
| PG_AEXPR_NOT_BETWEEN | PG_AEXPR_BETWEEN_SYM | PG_AEXPR_NOT_BETWEEN_SYM | AEXPR_PAREN.
Inductive PGBoolExprType := PG_AND_EXPR | PG_OR_EXPR | PG_NOT_EXPR.
Inductive PGNullTestType := PG_IS_NULL | IS_NOT_NULL.
Inductive PGSortByDir := PG_SORTBY_DEFAULT | PG_SORTBY_ASC | PG_SORTBY_DESC | SORTBY_USING.
Inductive PGLockClauseStrength := PG_LCS_NONE | PG_LCS_FORKEYSHARE | PG_LCS_FORSHARE | PG_LCS_FORNOKEYUPDATE | LCS_FORUPDATE.
Inductive PGTransactionStmtKind :=
| PG_TRANS_STMT_BEGIN | PG_TRANS_STMT_START | PG_TRANS_STMT_COMMIT | PG_TRANS_STMT_ROLLBACK | PG_TRANS_STMT_OTHER.
Inductive PGJoinType := PG_JOIN_INNER | PG_JOIN_LEFT | PG_JOIN_FULL | PG_JOIN_RIGHT | PG_JOIN_OTHER.
Inductive PGObjectType := PG_OBJECT_DATABASE | PG_OBJECT_INDEX | PG_OBJECT_TABLE | PG_OBJECT_OTHER.

(** A [PGRangeVar *] of a statement is its name, a [PGTypeName] its two lists. *)
Inductive PGNode :=
| PGAConst (val : PGValue)
| PGResTarget (name : option string) (val : option PGNode)
| PGColumnRef (fields : list PGNode)
| PGAExpr (kind : PGAExpr_Kind) (name : list PGNode) (lexpr rexpr : option PGNode)
| PGAStar
| PGFuncCall (funcname args : list PGNode) (agg_distinct : bool)
| PGBoolExpr (boolop : PGBoolExprType) (args : list PGNode)
| PGNullTest (nulltesttype : PGNullTestType) (arg : PGNode)
| PGList (elements : list PGNode)
| PGTypeCast (type_names : list PGNode) (arg : PGNode)
| PGValueNode (val : PGValue)
| PGSortBy (sortby_dir : PGSortByDir) (node : PGNode)
| PGRangeVar (relname : string) (aliasname : option string)
| PGJoinExpr (jointype : PGJoinType) (larg rarg : PGNode) (quals : option PGNode) (usingClause : list PGNode)
| PGLockingClause (strength : PGLockClauseStrength)
| PGColumnDef (colname : string) (type_names typmods : list PGNode)
| PGIndexElem (name : option string)
| PGRawStmt (stmt : PGNode)
| PGCreateDatabaseStmt (name : string)
| PGCreateStmt (relation : string) (tableElts : list PGNode)
| PGIndexStmt (idxname : option string) (relation : string) (indexParams : list PGNode)
| PGDropStmt (objects : list PGNode) (removeType : PGObjectType) (missing_ok : bool)
| PGInsertStmt (relation : string) (cols : list PGNode) (selectStmt : option PGNode)
| PGDeleteStmt (relation : string) (whereClause : option PGNode)
| PGUpdateStmt (relation : string) (targetList : list PGNode) (whereClause : option PGNode)
| PGSelectStmt (valuesLists fromClause : list PGNode) (distinctClause : bool) (whereClause : option PGNode)
    (targetList groupClause : list PGNode) (havingClause : option PGNode) (sortClause : list PGNode)
    (limitCount limitOffset : option PGNode) (lockingClause : list PGNode)
| PGExplainStmt (query : PGNode) (options : list string)
| PGTransactionStmt (kind : PGTransactionStmtKind)
| PGCheckPointStmt
| PGLockStmt (relation : string) (mode : PGLockClauseStrength)
| PGVariableSetStmt (name : string) (args : list PGNode)
| PGVariableShowStmt (name : string)
| PGCopyStmt
| PGVacuumStmt (options : Z) (relation : option string) (va_cols : list PGNode)
| PGOther (tag : PGNodeTag).

Definition value_tag (v : PGValue) : PGNodeTag :=
  match v with
  | PGInteger _ => T_PGInteger | PGFloat _ => T_PGFloat | PGString _ => T_PGString | PGNull => T_PGNull
  | PGOtherValue tag => tag
  end.

(** The field [type]. *)
Definition node_type (n : PGNode) : PGNodeTag :=
  match n with
  | PGAConst _ => T_PGAConst | PGResTarget _ _ => T_PGResTarget | PGColumnRef _ => T_PGColumnRef
  | PGAExpr _ _ _ _ => T_PGAExpr | PGAStar => T_PGAStar | PGFuncCall _ _ _ => T_PGFuncCall
  | PGBoolExpr _ _ => T_PGBoolExpr | PGNullTest _ _ => T_PGNullTest | PGList _ => T_PGList
  | PGTypeCast _ _ => T_PGTypeCast | PGValueNode v => value_tag v | PGSortBy _ _ => T_PGSortBy
  | PGRangeVar _ _ => T_PGRangeVar | PGJoinExpr _ _ _ _ _ => T_PGJoinExpr | PGLockingClause _ => T_PGLockingClause
  | PGColumnDef _ _ _ => T_PGColumnDef | PGIndexElem _ => T_PGIndexElem | PGRawStmt _ => T_PGRawStmt
  | PGCreateDatabaseStmt _ => T_PGCreateDatabaseStmt | PGCreateStmt _ _ => T_PGCreateStmt
  | PGIndexStmt _ _ _ => T_PGIndexStmt | PGDropStmt _ _ _ => T_PGDropStmt | PGInsertStmt _ _ _ => T_PGInsertStmt
  | PGDeleteStmt _ _ => T_PGDeleteStmt | PGUpdateStmt _ _ _ => T_PGUpdateStmt
  | PGSelectStmt _ _ _ _ _ _ _ _ _ _ _ => T_PGSelectStmt | PGExplainStmt _ _ => T_PGExplainStmt
  | PGTransactionStmt _ => T_PGTransactionStmt | PGCheckPointStmt => T_PGCheckPointStmt | PGLockStmt _ _ => T_PGLockStmt
  | PGVariableSetStmt _ _ => T_PGVariableSetStmt | PGVariableShowStmt _ => T_PGVariableShowStmt
  | PGCopyStmt => T_PGCopyStmt | PGVacuumStmt _ _ _ => T_PGVacuumStmt | PGOther tag => tag
  end.

Definition null_pointer {A} : res A := Err (Undefined "null pointer").
(** [list->head], [list->tail], a pointer that is followed, and the [val.str] of a
    node taken for a value. *)
Definition head_of (l : list PGNode) : res PGNode := from_option Ok null_pointer (head l).
Definition tail_of (l : list PGNode) : res PGNode := from_option Ok null_pointer (last l).
Definition node_str (n : PGNode) : res string :=
  match n with
  | PGValueNode (PGString str) | PGValueNode (PGFloat str) => Ok str
  | _ => Err (Undefined "not a value with a string")
  end.
Definition unsupported_node {A} (what : string) (n : PGNode) : res A := Err (DbException (what +:+ NodeTagToString (node_type n))).

(** ** [std::stod] on the float literals of the parser, decimal numbers *)

Definition stod_range : res Z := Err (StdException "stod: out of range").

(** The double nearest to [m / 10 ^ e] or [m * 10 ^ - e], where [m] is positive.
    The quotient has more than 53 bits, and its last bit is set when there is a
    rest: it rounds as the fraction does. Too large, or too small to be exact, is an
    error. *)
Definition nearest (neg : bool) (m e : Z) : res Z :=
  let sign x := if neg then - x else x in
  if 0 <=? e then
    match binary_normalize 53 1024 (sign (m * 10 ^ e)) 0 neg with S754_infinity _ => stod_range | f => Ok (f64_encode f) end
  else
    let k := 10 ^ (- e) in
    let shift := Z.max 0 (60 + Z.log2 k - Z.log2 m) in
    let q := Z.shiftl m shift / k in
    let rest := Z.shiftl m shift mod k in
    let bits := f64_encode (binary_normalize 53 1024 (sign (2 * q + (if rest =? 0 then 0 else 1))) (- shift - 1) neg) in
    let tiny := Z.land bits (2 ^ 63 - 1) <? 2 ^ 52 in
    let exact := (rest =? 0) && ((shift <=? 1074) || (q mod 2 ^ (shift - 1074) =? 0)) in
    if tiny && negb exact then stod_range else Ok bits.

Definition stod (str : string) : res Z :=
  let '(neg, s) := read_sign (skip_space str) in
  let '(m, n1, s) := take_digits 0 0 s in
  let '(m, n2, s) := match s with
                     | String c rest => if Ascii.eqb c "."%char then take_digits m 0 rest else (m, 0, s)
                     | EmptyString => (m, 0, s)
                     end in
  if n1 + n2 =? 0 then Err (StdException "stod: invalid argument")
  else
    let e := match s with
             | String c rest =>
                 if Ascii.eqb (tolower c) "e"%char then
                   let '(eneg, s) := read_sign rest in let '(x, _, _) := take_digits 0 0 s in if eneg : bool then - x else x
                 else 0
             | EmptyString => 0
             end - n2 in
    if m =? 0 then Ok (f64_encode (S754_zero neg))
    else if (400 <? e) || (e <? - (400 + n1 + n2)) then stod_range
    else nearest neg m e.

Example stod_values : stod "1.5" = Ok 0x3FF8000000000000 ∧ stod "0.1" = Ok 0x3FB999999999999A ∧
  stod "1e23" = Ok 0x44B52D02C7E14AF6 ∧ stod "4294967296" = Ok 0x41F0000000000000 ∧ stod "1e400" = stod_range ∧
  stod "1e-400" = stod_range ∧ stod "5e-324" = stod_range ∧ stod ".5E1" = Ok 0x4014000000000000.
Proof. by vm_compute. Qed.

(** ** The binder *)

(** The double quote. *)
Definition quote : string := String.String (chr 34) "".

(** [table_] is a pointer into the statement being bound: null before, dangling
    when a statement is gone. [aliases_] is a multimap. *)
Record Binder := mkBinder {
  table_ : option TableRef;
  b_aliases_ : list (string * string);
  table_names_ : gset string;
  adding_alias_ : bool
}.
Definition Binder_new : Binder := mkBinder None [] ∅ true.
Definition set_table (t : option TableRef) (b : Binder) : Binder := mkBinder t (b_aliases_ b) (table_names_ b) (adding_alias_ b).
Definition add_alias (name text : string) (b : Binder) : Binder :=
  mkBinder (table_ b) (b_aliases_ b ++ [(name, text)]) (table_names_ b) (adding_alias_ b).
Definition add_table_name (name : string) (b : Binder) : Binder :=
  mkBinder (table_ b) (b_aliases_ b) ({[name]} ∪ table_names_ b) (adding_alias_ b).
Definition stop_adding (b : Binder) : Binder := mkBinder (table_ b) (b_aliases_ b) (table_names_ b) false.

(** [aliases_.equal_range(name)] *)
Definition texts_of (name : string) (b : Binder) : list string := snd <$> filter (λ a, a.1 = name) (b_aliases_ b).

(** *** Columns *)

Definition ResolveColumnFromBaseTable (base_table : BaseTableRef) (column_name : list string) : res (option (list string)) :=
  match column_name with
  | [] => Err (DbException "Empty column name")
  | [name] =>
      Ok match TryGetColumnIndex (bt_column_list_ base_table) name with
         | Some _ => Some [GetTableName base_table; name]
         | None => None
         end
  | table :: _ => Ok (if decide (table = GetTableName base_table) then Some column_name else None)
  end.

Definition ambiguous {A} (column_name : list string) (n : string) : res A :=
  Err (DbException ("Column reference " +:+ join_names column_name +:+ " is ambiguous " +:+ n)).

(** What the two sides of a join found. *)
Definition one_side (column_name : list string) (n : string) (left right : option (list string)) : res (option (list string)) :=
  match left, right with
  | Some _, Some _ => ambiguous column_name n
  | Some c, None => Ok (Some c)
  | None, _ => Ok right
  end.

Fixpoint ResolveColumnInternal (table : TableRef) (column_name : list string) : res (option (list string)) :=
  match table with
  | BaseTable base_table => ResolveColumnFromBaseTable base_table column_name
  | CrossJoinRef t0 t1 =>
      left ← ResolveColumnInternal t0 column_name; right ← ResolveColumnInternal t1 column_name;
      one_side column_name "3" left right
  | JoinRef _ t0 t1 _ =>
      left ← ResolveColumnInternal t0 column_name; right ← ResolveColumnInternal t1 column_name;
      one_side column_name "4" left right
  | EmptyRef | ExpressionListRef _ => Err (DbException "Unsupported table ref type in ResolveColumn")
  end.

Fixpoint GetAllColumns (table : TableRef) : res (list Expression) :=
  match table with
  | BaseTable base_table =>
      Ok ((λ column, ColumnRefExpression [GetTableName base_table; name_ column]) <$> columns_ (bt_column_list_ base_table))
  | CrossJoinRef t0 t1 | JoinRef _ t0 t1 _ => left ← GetAllColumns t0; right ← GetAllColumns t1; Ok (left ++ right)
  | EmptyRef | ExpressionListRef _ => Err (DbException "Unsupported table type in GetAllColumns")
  end.

(** [*table_] *)
Definition current_table : M Binder TableRef :=
  b ← get; lift (from_option Ok null_pointer (table_ b)).

Definition ResolveColumn (column_name : list string) : M Binder Expression :=
  table ← current_table;
  column ← lift (ResolveColumnInternal table column_name);
  b ← get;
  lift match column, column_name with
       | Some c, [name] =>
           if negb (adding_alias_ b) && negb (bool_decide (texts_of name b = [])) then ambiguous column_name "1"
           else Ok (ColumnRefExpression c)
       | Some c, _ => Ok (ColumnRefExpression c)
       | None, [name] =>
           match texts_of name b with
           | [] => Err (DbException ("Column " +:+ name +:+ " not found"))
           | [_] => Ok (ColumnRefExpression [name])
           | _ => ambiguous column_name "2"
           end
       | None, _ => Err (DbException ("Column " +:+ join_names column_name +:+ " not found"))
       end.

Section Code.
Context `{Fmt}.

(** *** Expressions *)

Definition BindConstExpression (val : PGValue) : res Expression :=
  match val with
  | PGInteger ival => Ok (ConstExpression (Value_int (i32 ival)))
  | PGFloat str => d ← stod str; Ok (ConstExpression (Value_double d))
  | PGString str => Ok (ConstExpression (Value_string str VARCHAR))
  | PGNull => Ok (ConstExpression Value_null)
  | PGOtherValue tag => Err (DbException ("Unsupported constant type: " +:+ NodeTagToString tag))
  end.

(** The target with its bound expression: the alias is stored once for a text. *)
Definition BindResTargetExpression (name : option string) (bound_expr : Expression) : M Binder Expression :=
  match name with
  | None => mret bound_expr
  | Some name =>
      b ← get;
      text ← lift (Bound_ToString bound_expr);
      (if decide (text ∈ texts_of name b) then mret () else modify (add_alias name text)) ;;
      mret (AliasExpression name bound_expr)
  end.

Definition BindColumnRefExpression (fields : list PGNode) : M Binder Expression :=
  head ← lift (head_of fields);
  match head with
  | PGValueNode (PGString _) => column_name ← lift (seqR (map node_str fields)); ResolveColumn column_name
  | PGAStar => mret StarExpression
  | _ => lift (unsupported_node "Unsupported column ref type " head)
  end.

Definition BindExprExpression (kind : PGAExpr_Kind) (name : string) (left_expr right_expr : M Binder (option Expression)) : M Binder Expression :=
  match kind with
  | PG_AEXPR_OP | PG_AEXPR_BETWEEN | PG_AEXPR_NOT_BETWEEN | PG_AEXPR_IN | PG_AEXPR_LIKE =>
      l ← left_expr;
      r ← right_expr;
      match l, r with
      | Some l, Some r => mret (BinaryOpExpression name l r)
      | _, _ => throw (DbException "Unreachable code in BindExprExpression")
      end
  | _ => throw (DbException ("Unsupported PGAExpr expression type in BindExprExpression: " +:+ name))
  end.

Definition BindFuncCallExpression (function_name : string) (args : list Expression) (agg_distinct : bool) : res Expression :=
  if decide (function_name ∈ ["avg"; "count"; "sum"; "min"; "max"]) then Ok (AggregateExpression function_name agg_distinct args)
  else if decide (function_name ∈ ["lower"; "upper"; "length"]) then
    if agg_distinct then Err (DbException ("DISTINCT specified, but " +:+ function_name +:+ " is not an aggregate function"))
    else Ok (FuncCallExpression function_name args)
  else Err (DbException ("Unsupported function call: " +:+ function_name)).

Definition BindBoolExpression (boolop : PGBoolExprType) (exprs : list Expression) : res Expression :=
  let binary op_name :=
    match exprs with
    | e0 :: e1 :: rest => Ok (fold_left (BinaryOpExpression op_name) rest (BinaryOpExpression op_name e0 e1))
    | _ => Err (DbException "Too few arguments in BindBoolExpression")
    end in
  match boolop with
  | PG_AND_EXPR => binary "and"
  | PG_OR_EXPR => binary "or"
  | PG_NOT_EXPR =>
      match exprs with
      | [e] => Ok (UnaryOpExpression "not" e)
      | _ => Err (DbException "Not Expr should have only one argument")
      end
  end.

Definition BindNullTestExpression (nulltesttype : PGNullTestType) (arg : Expression) : Expression :=
  NullTestExpression (match nulltesttype with PG_IS_NULL => true | IS_NOT_NULL => false end) arg.

Fixpoint BindExpression (expr : PGNode) : M Binder Expression :=
  match expr with
  | PGAConst val => lift (BindConstExpression val)
  | PGResTarget name val =>
      bound_expr ← match val with Some val => BindExpression val | None => lift null_pointer end;
      BindResTargetExpression name bound_expr
  | PGColumnRef fields => BindColumnRefExpression fields
  | PGAExpr kind names lexpr rexpr =>
      name ← lift (n ← head_of names; node_str n);
      BindExprExpression kind name
        match lexpr with Some e => e ← BindExpression e; mret (Some e) | None => mret None end
        match rexpr with Some e => e ← BindExpression e; mret (Some e) | None => mret None end
  | PGAStar => mret StarExpression
  | PGFuncCall funcname args agg_distinct =>
      name ← lift (n ← head_of funcname; node_str n);
      args ← seqM (map BindExpression args);
      lift (BindFuncCallExpression (Lower name) args agg_distinct)
  | PGBoolExpr boolop args =>
      exprs ← (if bool_decide (args = []) then lift null_pointer else seqM (map BindExpression args));
      lift (BindBoolExpression boolop exprs)
  | PGNullTest nulltesttype arg => arg ← BindExpression arg; mret (BindNullTestExpression nulltesttype arg)
  | PGList elements => exprs ← seqM (map BindExpression elements); mret (ListExpression exprs)
  | PGTypeCast type_names arg =>
      type_name ← lift (n ← tail_of type_names; node_str n);
      arg ← BindExpression arg;
      lift (t ← String2Type type_name; Ok (TypeCastExpression t arg))
  | _ => lift (unsupported_node "Unsupported expression type: " expr)
  end.

Definition BindExpressionList (nodes : list PGNode) : M Binder (list Expression) :=
  match nodes with [] => lift null_pointer | _ => seqM (map BindExpression nodes) end.

(** [if (node != nullptr)] *)
Definition bind_optional (node : option PGNode) : M Binder (option Expression) :=
  match node with Some node => e ← BindExpression node; mret (Some e) | None => mret None end.

Definition sort_type (dir : PGSortByDir) : res OrderByType :=
  match dir with
  | PG_SORTBY_DEFAULT => Ok DEFAULT
  | PG_SORTBY_ASC => Ok ASC
  | PG_SORTBY_DESC => Ok DESC
  | SORTBY_USING => Err (DbException "Unknown sort by type")
  end.
Definition bind_sort (item : PGNode) : M Binder (OrderByType * Expression) :=
  match item with
  | PGSortBy dir node => type ← lift (sort_type dir); e ← BindExpression node; mret (type, e)
  | _ => lift (unsupported_node "Unsupported order by type: " item)
  end.
Definition BindOrderBy (nodes : list PGNode) : M Binder (list (OrderByType * Expression)) := seqM (map bind_sort nodes).

(** *** Tables, looked up in the catalog *)

Section Tables.
Context (GetTableOid : string → res Z) (GetTableColumnList : string → res ColumnList).

Definition BindBaseTableRef (table_name : string) (alias : option string) : M Binder BaseTableRef :=
  let name := default table_name alias in
  b ← get;
  if decide (name ∈ table_names_ b) then
    throw (DbException ("Table name " +:+ quote +:+ name +:+ quote +:+ " specified more than once"))
  else
    modify (add_table_name name) ;;
    oid ← lift (GetTableOid table_name);
    column_list ← lift (GetTableColumnList table_name);
    mret (mkBaseTable table_name alias oid column_list).

Definition join_type_of (jointype : PGJoinType) : res JoinType :=
  match jointype with
  | PG_JOIN_INNER => Ok INNER
  | PG_JOIN_LEFT => Ok LEFT
  | PG_JOIN_FULL => Ok FULL
  | PG_JOIN_RIGHT => Ok RIGHT
  | PG_JOIN_OTHER => Err (DbException "Unsupported join type")
  end.

(** An operand that was not found is a null pointer. *)
Definition using_operand (column : option (list string)) : Expression := from_option ColumnRefExpression NoExpression column.

Definition BindJoinCondition (left right : TableRef) (quals : option PGNode) (usingClause : list PGNode) : M Binder Expression :=
  match quals, usingClause with
  | Some quals, _ => BindExpression quals
  | None, [] => throw (DbException "Join condition is not specified")
  | None, [column] =>
      column_name ← lift (node_str column);
      l ← lift (ResolveColumnInternal left [column_name]);
      r ← lift (ResolveColumnInternal right [column_name]);
      mret (BinaryOpExpression "=" (using_operand l) (using_operand r))
  | None, _ => throw (DbException "Using clause only support one column now")
  end.

Fixpoint BindTableRef (ref : PGNode) : M Binder TableRef :=
  match ref with
  | PGRangeVar relname aliasname => table ← BindBaseTableRef relname aliasname; mret (BaseTable table)
  | PGJoinExpr jointype larg rarg quals usingClause =>
      join_type ← lift (join_type_of jointype);
      left ← BindTableRef larg;
      right ← BindTableRef rarg;
      modify (set_table (Some (JoinRef join_type left right NoExpression))) ;;
      condition ← BindJoinCondition left right quals usingClause;
      mret (JoinRef join_type left right condition)
  | _ => lift (unsupported_node "Unsupported table reference type: " ref)
  end.

Fixpoint cross_joins (result : TableRef) (nodes : list PGNode) : M Binder TableRef :=
  match nodes with
  | [] => mret result
  | node :: nodes => table ← BindTableRef node; cross_joins (CrossJoinRef result table) nodes
  end.
Definition BindFrom (nodes : list PGNode) : M Binder TableRef :=
  match nodes with
  | [] => mret EmptyRef
  | node :: nodes => table ← BindTableRef node; cross_joins table nodes
  end.

(** A star takes the place of everything before it. *)
Fixpoint select_items (exprs : list Expression) (nodes : list PGNode) : M Binder (list Expression) :=
  match nodes with
  | [] => mret exprs
  | node :: nodes =>
      bound_expr ← BindExpression node;
      exprs ← match bound_expr with
              | StarExpression => table ← current_table; lift (GetAllColumns table)
              | _ => mret (exprs ++ [bound_expr])
              end;
      select_items exprs nodes
  end.
Definition BindSelectList (nodes : list PGNode) : M Binder (list Expression) :=
  match nodes with [] => throw (DbException "Select list is empty") | _ => select_items [] nodes end.

Definition bind_values (node : PGNode) : M Binder (list Expression) :=
  match node with PGList elements => BindExpressionList elements | _ => throw (Undefined "not a list") end.
Definition BindValuesList (nodes : list PGNode) : M Binder (list (list Expression)) := seqM (map bind_values nodes).

(** *** SELECT *)

Definition lock_strength (lockingClause : list PGNode) : res SelectLockType :=
  match lockingClause with
  | [] => Ok NOLOCK
  | [PGLockingClause PG_LCS_FORSHARE] => Ok SL_SHARE
  | [PGLockingClause LCS_FORUPDATE] => Ok SL_UPDATE
  | [PGLockingClause _] => Err (DbException "Unknown lock clause strength")
  | [node] => unsupported_node "Unknown node type " node
  | _ => Err (DbException "Multiple locking clauses are not supported")
  end.

(** The columns ["#1"], ["#2"] and so on of a list of values. *)
Definition values_columns (values : list Expression) : list Expression :=
  imap (λ i _, ColumnRefExpression ["#" +:+ pretty (Z.of_nat (S i))]) values.

Definition BindSelectStatement (stmt : PGNode) : M Binder SelectStatement :=
  match stmt with
  | PGSelectStmt ((_ :: _) as valuesLists) _ _ _ _ _ _ _ _ _ _ =>
      values_list ← BindValuesList valuesLists;
      mret (mk_SelectStatement (ExpressionListRef values_list) (values_columns (hd [] values_list)))
  | PGSelectStmt [] fromClause distinctClause whereClause targetList groupClause havingClause sortClause limitCount
      limitOffset lockingClause =>
      table ← BindFrom fromClause;
      modify (set_table (Some table)) ;;
      where_clause ← bind_optional whereClause;
      select_list ← BindSelectList targetList;
      modify stop_adding ;;
      group_by ← (if bool_decide (groupClause = []) then mret [] else BindExpressionList groupClause);
      having ← bind_optional havingClause;
      order_by ← BindOrderBy sortClause;
      limit_count ← bind_optional limitCount;
      limit_offset ← bind_optional limitOffset;
      lock_type ← lift (lock_strength lockingClause);
      mret (mkSelect table select_list where_clause group_by having order_by limit_count limit_offset lock_type distinctClause)
  | _ => throw (Undefined "not a select statement")
  end.

(** *** The other statements *)

Definition BindColumnDefinition (colname : string) (type_names typmods : list PGNode) : M Binder ColumnDefinition :=
  type_name ← lift (n ← tail_of type_names; node_str n);
  if decide (type_name = "int4") then lift (mk_ColumnDefinition colname INT)
  else if decide (type_name = "double") then lift (mk_ColumnDefinition colname DOUBLE)
  else
    col_type ← lift (if decide (type_name = "bpchar") then Ok CHAR
                     else if decide (type_name = "varchar") then Ok VARCHAR
                     else Err (DbException ("Unknown column type " +:+ type_name)));
    if bool_decide (typmods = []) then throw (DbException "Column length is not specified")
    else
      exprs ← BindExpressionList typmods;
      value ← lift match exprs with ConstExpression value :: _ => Ok value | _ => Err (StdException "bad_cast") end;
      length ← lift (text ← Value_ToString fmt_double value; stoi text);
      let max_size := u16 length in
      if max_size <=? 0 then throw (DbException "length must be at least 1")
      else mret (mkColumn colname col_type max_size).

Fixpoint bind_columns (columns : list ColumnDefinition) (nodes : list PGNode) : M Binder (list ColumnDefinition) :=
  match nodes with
  | [] => mret columns
  | PGColumnDef colname type_names typmods :: nodes =>
      column ← BindColumnDefinition colname type_names typmods;
      if decide (name_ column ∈ name_ <$> columns) then throw (DbException ("Duplicate column name: " +:+ name_ column))
      else bind_columns (columns ++ [column]) nodes
  | node :: _ => lift (unsupported_node "Unsupported node type: " node)
  end.
Definition BindCreateTableStatement (relation : string) (tableElts : list PGNode) : M Binder Statement :=
  columns ← (if bool_decide (tableElts = []) then lift null_pointer else bind_columns [] tableElts);
  mret (CreateTableStatement relation columns).

Fixpoint index_columns (nodes : list PGNode) : res (list string) :=
  match nodes with
  | [] => Ok []
  | PGIndexElem name :: nodes => names ← index_columns nodes; Ok (option_list name ++ names)
  | node :: _ => unsupported_node "Unknown node type in index statement: " node
  end.
Definition BindCreateIndexStatement (idxname : option string) (relation : string) (indexParams : list PGNode) : res Statement :=
  columns ← (if bool_decide (indexParams = []) then null_pointer else index_columns indexParams);
  Ok (CreateIndexStatement (default "index" idxname) relation columns).

Definition BindDropStatement (objects : list PGNode) (removeType : PGObjectType) (missing_ok : bool) : res Statement :=
  name_list ← head_of objects;
  name ← match name_list with
         | PGList [name] => node_str name
         | PGList _ => Err (DbException (quote +:+ "schema.name" +:+ quote +:+ " is not supported"))
         | _ => Err (Undefined "not a list")
         end;
  match removeType with
  | PG_OBJECT_DATABASE => Ok (DropDatabaseStatement name missing_ok)
  | PG_OBJECT_INDEX => Ok (DropIndexStatement name missing_ok)
  | PG_OBJECT_TABLE => Ok (DropTableStatement name missing_ok)
  | PG_OBJECT_OTHER => Err (DbException "Unknown catalog type")
  end.

Fixpoint insert_targets (table : BaseTableRef) (nodes : list PGNode) : res (list (list string)) :=
  match nodes with
  | [] => Ok []
  | PGResTarget name _ :: nodes =>
      name ← from_option Ok null_pointer name;
      column ← ResolveColumnFromBaseTable table [name];
      match column with
      | Some column => columns ← insert_targets table nodes; Ok (column :: columns)
      | None => Err (DbException ("Column " +:+ name +:+ " not found"))
      end
  | node :: _ => unsupported_node "Unknown node type in insert statement: " node
  end.
Definition BindInsertStatement (relation : string) (cols : list PGNode) (selectStmt : option PGNode) : M Binder Statement :=
  table ← BindBaseTableRef relation None;
  columns ← lift (insert_targets table cols);
  select ← lift (from_option Ok null_pointer selectStmt);
  select_stmt ← BindSelectStatement select;
  mret (InsertStatement table columns select_stmt).

(** The filter of DELETE and UPDATE. *)
Definition bind_filter (whereClause : option PGNode) : M Binder Expression :=
  match whereClause with Some e => BindExpression e | None => mret (ConstExpression (Value_bool true)) end.

Definition BindDeleteStatement (relation : string) (whereClause : option PGNode) : M Binder Statement :=
  table ← BindBaseTableRef relation None;
  modify (set_table (Some (BaseTable table))) ;;
  filter ← bind_filter whereClause;
  mret (DeleteStatement table filter).

Definition bind_update (table : BaseTableRef) (node : PGNode) : M Binder (option (list string) * Expression) :=
  match node with
  | PGResTarget name val =>
      name ← lift (from_option Ok null_pointer name);
      column ← lift (ResolveColumnFromBaseTable table [name]);
      val ← lift (from_option Ok null_pointer val);
      e ← BindExpression val;
      mret (column, e)
  | _ => throw (Undefined "not a target")
  end.
Definition BindUpdateStatement (relation : string) (targetList : list PGNode) (whereClause : option PGNode) : M Binder Statement :=
  table ← BindBaseTableRef relation None;
  modify (set_table (Some (BaseTable table))) ;;
  filter ← bind_filter whereClause;
  update_exprs ← (if bool_decide (targetList = []) then lift null_pointer else seqM (map (bind_update table) targetList));
  mret (UpdateStatement table filter update_exprs).

(** [strcasecmp] *)
Definition explain_bit (defname : string) : res Z :=
  let name := Lower defname in
  if decide (name = "binder") then Ok EO_BINDER
  else if decide (name = "planner") then Ok EO_PLANNER
  else if decide (name = "optimizer") then Ok EO_OPTIMIZER
  else Err (DbException ("Unknown explain option: " +:+ defname)).
Definition explain_options (options : list string) : res Z :=
  match options with
  | [] => Ok (Z.lor EO_BINDER (Z.lor EO_PLANNER EO_OPTIMIZER))
  | _ => bits ← seqR (map explain_bit options); Ok (u8 (fold_left Z.lor bits 0))
  end.

Definition BindTransactionStatement (kind : PGTransactionStmtKind) : res Statement :=
  match kind with
  | PG_TRANS_STMT_BEGIN | PG_TRANS_STMT_START => Ok (TransactionStatement TT_BEGIN)
  | PG_TRANS_STMT_COMMIT => Ok (TransactionStatement TT_COMMIT)
  | PG_TRANS_STMT_ROLLBACK => Ok (TransactionStatement TT_ROLLBACK)
  | PG_TRANS_STMT_OTHER => Err (DbException "Unknown transaction type")
  end.

Definition BindLockStatement (relation : string) (mode : PGLockClauseStrength) : M Binder Statement :=
  table ← BindBaseTableRef relation None;
  lift match mode with
       | PG_LCS_FORSHARE => Ok (LockStatement table TL_SHARE)
       | LCS_FORUPDATE => Ok (LockStatement table TL_EXCLUSIVE)
       | _ => Err (DbException "Unknown lock mode")
       end.

Definition BindVariableSetStatement (name : string) (args : list PGNode) : M Binder Statement :=
  expr ← BindExpressionList args;
  lift match expr with
       | [ConstExpression value] => text ← Value_ToString fmt_double value; Ok (VariableSetStatement name text)
       | [_] => Err (DbException "Only const is supoorted in SET")
       | _ => Err (DbException "SET takes only one argument")
       end.

Definition BindVariableShowStatement (name : string) : res Statement :=
  if bool_decide (String.length name ≤ 2)%nat then Err (AssertFailed "name.size() > 2")
  else Ok (VariableShowStatement (String.substring 1 (String.length name - 2) name)).

Definition analyze_target (table : BaseTableRef) (node : PGNode) : res (option (list string)) :=
  match node with
  | PGValueNode (PGString str) => ResolveColumnFromBaseTable table [str]
  | _ => unsupported_node "Unknown node type in vacuum statement: " node
  end.
Definition bind_relation (relation : option string) : M Binder (option BaseTableRef) :=
  match relation with Some relname => table ← BindBaseTableRef relname None; mret (Some table) | None => mret None end.

Definition PG_VACOPT_VACUUM : Z := 1.
Definition PG_VACOPT_ANALYZE : Z := 2.
Definition BindVacuumStatement (options : Z) (relation : option string) (va_cols : list PGNode) : M Binder Statement :=
  if decide (options = PG_VACOPT_VACUUM) then table ← bind_relation relation; mret (VacuumStatement table)
  else if decide (options = PG_VACOPT_ANALYZE) then
    table ← bind_relation relation;
    columns ← lift match table with Some table => seqR (map (analyze_target table) va_cols) | None => Ok [] end;
    mret (AnalyzeStatement table columns)
  else throw (DbException "Only Analyze and Vacuum statement is supported now").

Fixpoint BindStatement (stmt : PGNode) : M Binder Statement :=
  match stmt with
  | PGRawStmt stmt => BindStatement stmt
  | PGCreateDatabaseStmt name => mret (CreateDatabaseStatement name)
  | PGCreateStmt relation tableElts => BindCreateTableStatement relation tableElts
  | PGIndexStmt idxname relation indexParams => lift (BindCreateIndexStatement idxname relation indexParams)
  | PGDropStmt objects removeType missing_ok => lift (BindDropStatement objects removeType missing_ok)
  | PGInsertStmt relation cols selectStmt => BindInsertStatement relation cols selectStmt
  | PGDeleteStmt relation whereClause => BindDeleteStatement relation whereClause
  | PGUpdateStmt relation targetList whereClause => BindUpdateStatement relation targetList whereClause
  | PGSelectStmt _ _ _ _ _ _ _ _ _ _ _ => select_stmt ← BindSelectStatement stmt; mret (QuerySelect select_stmt)
  | PGExplainStmt query options =>
      explain_options ← lift (explain_options options);
      statement ← BindStatement query;
      mret (ExplainStatement statement explain_options)
  | PGTransactionStmt kind => lift (BindTransactionStatement kind)
  | PGCheckPointStmt => mret CheckpointStatement
  | PGLockStmt relation mode => BindLockStatement relation mode
  | PGVariableSetStmt name args => BindVariableSetStatement name args
  | PGVariableShowStmt name => lift (BindVariableShowStatement name)
  | PGCopyStmt => throw (DbException "BindCopyStatement not implemented")
  | PGVacuumStmt options relation va_cols => BindVacuumStatement options relation va_cols
  | _ => lift (unsupported_node "Unsupported statement type: " stmt)
  end.
End Tables.
End Code.
