(* ===== verification/Planner.v ===== *)
(** [src/src/planner/planner.h] and [planner.cpp]: from a bound query to a plan.
    Column names become positions in the output of the operator below. *)
From Stdlib Require Import Ascii.
From S2P Require Import Prelude Types StringUtil Value Column Record LockManager Like Expressions OrderBy Query Plan Texts Bound.

(** ** Expressions under construction *)

(** A [shared_ptr<OperatorExpression>]: what it points to, its [name_], and which
    object it is when the alias table has it too. The text of an expression reads
    the name of a [ColumnValue] only, which [pl_expr] has as well. An alias that is
    renamed keeps its old name inside the expressions that were built with it
    before: they show it in EXPLAIN only. *)
Record Planned := mkPlanned { pl_expr : OperatorExpression; pl_name : string; pl_id : option nat }.

(** The name the constructors give. *)
Definition given_name (e : OperatorExpression) : string :=
  match e with ColumnValue _ _ name _ _ => name | FuncCall function_name _ => function_name | _ => "<no_name>" end.
Definition fresh_expr (e : OperatorExpression) : Planned := mkPlanned e (given_name e) None.

Definition SetName (name : string) (p : Planned) : Planned :=
  mkPlanned
    match pl_expr p with
    | ColumnValue col_idx col_type _ size is_left => ColumnValue col_idx col_type name size is_left
    | e => e
    end name (pl_id p).

(** [aliases_] is a multimap to objects, the n-th of which is [alias_objects_ !! n]. *)
Record Planner := mkPlanner {
  aggregates_ : list (string * bool * list Expression);
  aggregate_exprs_ : list OperatorExpression;
  next_aggregate_ : nat;
  aliases_ : list (string * nat);
  alias_objects_ : list Planned;
  alias2colname_ : gmap string string
}.
Definition Planner_new : Planner := mkPlanner [] [] 0 [] [] ∅.

Definition named (name : string) (st : Planner) : list nat :=
  snd <$> filter (λ a, a.1 = name) (aliases_ st).
Definition set_next (n : nat) (st : Planner) : Planner :=
  mkPlanner (aggregates_ st) (aggregate_exprs_ st) n (aliases_ st) (alias_objects_ st) (alias2colname_ st).
Definition add_aggregates (l : list (string * bool * list Expression)) (st : Planner) : Planner :=
  mkPlanner (aggregates_ st ++ l) (aggregate_exprs_ st) (next_aggregate_ st) (aliases_ st) (alias_objects_ st) (alias2colname_ st).
Definition add_aggregate_expr (e : OperatorExpression) (st : Planner) : Planner :=
  mkPlanner (aggregates_ st) (aggregate_exprs_ st ++ [e]) (next_aggregate_ st) (aliases_ st) (alias_objects_ st) (alias2colname_ st).
Definition set_aliases (aliases : list (string * nat)) (objects : list Planned) (colnames : gmap string string) (st : Planner) : Planner :=
  mkPlanner (aggregates_ st) (aggregate_exprs_ st) (next_aggregate_ st) aliases objects colnames.

(** ** Column lists *)

Definition GetColumnList (table : BaseTableRef) : ColumnList :=
  fold_left AddColumn
    ((λ column, mkColumn (GetTableName table +:+ "." +:+ name_ column) (ctype_ column) (max_size_ column))
       <$> columns_ (bt_column_list_ table)) ColumnList_empty.

Definition GetJoinColumnList (left right : ColumnList) : ColumnList :=
  fold_left AddColumn (columns_ right) (fold_left AddColumn (columns_ left) ColumnList_empty).

#[export] Instance OperatorExpressionType_eq_dec : EqDecision OperatorExpressionType.
Proof. solve_decision. Defined.

(** One column for each expression; strings must be of the kinds of expression
    that know a size. *)
Definition infer_column (name : string) (kinds : list OperatorExpressionType) (e : OperatorExpression) : res ColumnDefinition :=
  if IsString (GetValueType e) then
    if bool_decide (GetExprType e ∈ kinds) then Ok (mkColumn name (GetValueType e) (u16 (GetSize e)))
    else Err (AssertFailed "expr->GetExprType()")
  else mk_ColumnDefinition name (GetValueType e).

Definition number_name (idx : nat) : string := "#" +:+ pretty (Z.of_nat idx).

Fixpoint infer_numbered (kinds : list OperatorExpressionType) (idx : nat) (exprs : list OperatorExpression) (cl : ColumnList) : res ColumnList :=
  match exprs with
  | [] => Ok cl
  | e :: exprs => column ← infer_column (number_name idx) kinds e; infer_numbered kinds (S idx) exprs (AddColumn cl column)
  end.
Definition InferColumnList (exprs : list OperatorExpression) : res ColumnList :=
  infer_numbered [E_COLUMN_VALUE; E_CONST; E_FUNC_CALL] 1 exprs ColumnList_empty.

Fixpoint infer_named (exprs : list (string * OperatorExpression)) (cl : ColumnList) : res ColumnList :=
  match exprs with
  | [] => Ok cl
  | (name, e) :: exprs => column ← infer_column name [E_COLUMN_VALUE; E_CONST] e; infer_named exprs (AddColumn cl column)
  end.
Definition InferAggregateColumnList (group_bys : list Planned) (aggregates : list OperatorExpression) : res ColumnList :=
  infer_named (((λ p, (pl_name p, pl_expr p)) <$> group_bys) ++ ((λ e, ("no_name", e)) <$> aggregates)) ColumnList_empty.

Fixpoint rename_columns (columns : list ColumnDefinition) (col_names : list string) (cl : ColumnList) : res ColumnList :=
  match columns, col_names with
  | [], _ => Ok cl
  | column :: columns, name :: col_names => rename_columns columns col_names (AddColumn cl (mkColumn name (ctype_ column) (max_size_ column)))
  | _ :: _, [] => Err (Undefined "vector index out of range")
  end.
Definition RenameColumnList (column_list : ColumnList) (col_names : list string) : res ColumnList :=
  rename_columns (columns_ column_list) col_names ColumnList_empty.

(** ** Expressions *)

Definition is_list (e : OperatorExpression) : bool := match e with ListExpr _ => true | _ => false end.

Definition BinaryFactory (op_name : string) (l r : OperatorExpression) : res OperatorExpression :=
  if decide (op_name = "+") then Ok (Arithmetic ADD l r)
  else if decide (op_name = "-") then Ok (Arithmetic SUB l r)
  else if decide (op_name = "*") then Ok (Arithmetic MUL l r)
  else if decide (op_name = "/") then Ok (Arithmetic DIV l r)
  else if decide (op_name = "=" ∧ is_list r = true) then Ok (Comparison IN l r)
  else if decide (op_name = "=") then Ok (Comparison EQUAL l r)
  else if decide ((op_name = "!=" ∨ op_name = "<>") ∧ is_list r = true) then Ok (Comparison NOT_IN l r)
  else if decide (op_name = "!=" ∨ op_name = "<>") then Ok (Comparison NOT_EQUAL l r)
  else if decide (op_name = "<") then Ok (Comparison LESS l r)
  else if decide (op_name = "<=") then Ok (Comparison LESS_EQUAL l r)
  else if decide (op_name = ">") then Ok (Comparison GREATER l r)
  else if decide (op_name = ">=") then Ok (Comparison GREATER_EQUAL l r)
  else if decide (op_name = "BETWEEN") then Ok (Comparison BETWEEN l r)
  else if decide (op_name = "NOT BETWEEN") then Ok (Comparison NOT_BETWEEN l r)
  else if decide (op_name = "~~") then Ok (Comparison LIKE l r)
  else if decide (op_name = "!~~") then Ok (Comparison NOT_LIKE l r)
  else if decide (op_name = "and") then Ok (Logic AND l (Some r))
  else if decide (op_name = "or") then Ok (Logic OR l (Some r))
  else Err (DbException ("Unsupported binary operator in BinaryFactory: " +:+ op_name)).

(** A column of the only child. *)
Definition child_column (cl : ColumnList) (col_idx : Z) (col_name : string) : res OperatorExpression :=
  c ← GetColumn cl col_idx; Ok (ColumnValue col_idx (ctype_ c) col_name (max_size_ c) true).

(** [children] are the output columns of the operators below. The size of a column
    of the right one is read from the left one, as the code has it. *)
Definition PlanColumnRef (col_name : string) (children : list ColumnList) : M Planner Planned :=
  match children with
  | [] => throw (DbException "No children in PlanColumnRef")
  | [column_list] =>
      st ← get;
      match TryGetColumnIndex column_list col_name with
      | Some col_idx => e ← lift (child_column column_list col_idx col_name); mret (fresh_expr e)
      | None =>
          match named col_name st with
          | _ :: _ :: _ => throw (DbException ("Column name " +:+ col_name +:+ " is ambiguous in PlanColumnRef"))
          | [n] =>
              match alias_objects_ st !! n with
              | Some (mkPlanned (ColumnValue _ _ _ _ _) _ _ as p) => mret p
              | _ => throw (DbException ("Column " +:+ col_name +:+ " not found in planner"))
              end
          | [] => throw (DbException ("Column " +:+ col_name +:+ " not found in planner"))
          end
      end
  | [column_list_left; column_list_right] =>
      match TryGetColumnIndex column_list_left col_name, TryGetColumnIndex column_list_right col_name with
      | Some _, Some _ => throw (DbException ("Ambiguous column name " +:+ col_name +:+ " in PlanColumnRef"))
      | Some i, None => e ← lift (child_column column_list_left i col_name); mret (fresh_expr e)
      | None, Some i =>
          c ← lift (GetColumn column_list_right i); s ← lift (GetColumn column_list_left i);
          mret (fresh_expr (ColumnValue i (ctype_ c) col_name (max_size_ s) false))
      | None, None => throw (DbException (col_name +:+ " not found in PlanColumnRef"))
      end
  | _ => throw (DbException "Too many children in PlanColumnRef")
  end.

Section Code.
Context `{Fmt}.

(** The case [ALIAS], on the planned expression: it is stored and renamed. The
    name of a stored object changes in the table as well. *)
Definition PlanAlias (name : string) (p : Planned) : M Planner Planned :=
  st ← get;
  add_to_alias ← lift match alias2colname_ st !! name with
                      | Some colname => s ← Expression_ToString (pl_expr p); Ok (negb (String.eqb colname s))
                      | None => Ok true
                      end;
  p ← (if add_to_alias : bool then
         let n := default (length (alias_objects_ st)) (pl_id p) in
         let p := mkPlanned (pl_expr p) (pl_name p) (Some n) in
         modify (set_aliases (aliases_ st ++ [(name, n)])
                   (if bool_decide (n = length (alias_objects_ st)) then alias_objects_ st ++ [p] else alias_objects_ st)
                   (<[name := pl_name p]> (alias2colname_ st))) ;;
         mret p
       else mret p);
  let p := SetName name p in
  match pl_id p with
  | Some n => modify (λ st, set_aliases (aliases_ st) (<[n := p]> (alias_objects_ st)) (alias2colname_ st) st)
  | None => mret ()
  end ;;
  mret p.

Fixpoint PlanExpression (expr : Expression) (children : list ColumnList) : M Planner Planned :=
  match expr with
  | ConstExpression value => mret (fresh_expr (Const value))
  | UnaryOpExpression op_name arg =>
      p ← PlanExpression arg children;
      if decide (op_name = "not") then e ← lift (mk_Logic1 NOT (pl_expr p)); mret (fresh_expr e)
      else throw (DbException ("Unknown unary operator " +:+ op_name))
  | BinaryOpExpression op_name e0 e1 =>
      p0 ← PlanExpression e0 children;
      p1 ← PlanExpression e1 children;
      e ← lift (BinaryFactory op_name (pl_expr p0) (pl_expr p1)); mret (fresh_expr e)
  | ColumnRefExpression col_name => PlanColumnRef (join_names col_name) children
  | AliasExpression name e => p ← PlanExpression e children; PlanAlias name p
  | AggregateExpression _ _ _ =>
      st ← get;
      match aggregate_exprs_ st !! next_aggregate_ st with
      | Some e => modify (set_next (S (next_aggregate_ st))) ;; mret (fresh_expr e)
      | None => throw (DbException "Too many aggregate calls in PlanExpression")
      end
  | ListExpression exprs =>
      ps ← seqM (map (λ e, PlanExpression e children) exprs); mret (fresh_expr (ListExpr (pl_expr <$> ps)))
  | TypeCastExpression cast_type arg =>
      p ← PlanExpression arg children; mret (fresh_expr (TypeCast cast_type (pl_expr p)))
  | NullTestExpression is_null arg =>
      p ← PlanExpression arg children; mret (fresh_expr (NullTest is_null (pl_expr p)))
  | FuncCallExpression function_name args =>
      ps ← seqM (map (λ e, PlanExpression e children) args);
      e ← lift (mk_FuncCall function_name (pl_expr <$> ps)); mret (fresh_expr e)
  | StarExpression => throw (DbException "Unsupported expression type in PlanExpression")
  | NoExpression => throw (Undefined "null expression")
  end.

(** ** Tables *)

(** The kind of join an equality of two columns gets under [force_join]. *)
Definition equal_keys (join_condition : OperatorExpression) : option (OperatorExpression * OperatorExpression) :=
  match join_condition with
  | Comparison EQUAL (ColumnValue _ _ _ _ _ as l) (ColumnValue _ _ _ _ _ as r) => Some (l, r)
  | _ => None
  end.

Definition join_operator (force_join : ForceJoin) (left right : Operator) (join_condition : OperatorExpression)
    (join_type : JoinType) : Operator :=
  let column_list := GetJoinColumnList (OutputColumns left) (OutputColumns right) in
  match force_join, equal_keys join_condition with
  | FJ_MERGE, Some (left_key, right_key) =>
      MergeJoinOperator column_list (OrderByOperator (OutputColumns left) left [(ASC, left_key)])
        (OrderByOperator (OutputColumns right) right [(ASC, right_key)]) left_key right_key join_type
  | FJ_HASH, Some (left_key, right_key) => HashJoinOperator column_list left right left_key right_key join_type
  | _, _ => NestedLoopJoinOperator column_list left right join_condition join_type
  end.

Definition PlanExpressionList (values_list : list (list Expression)) : M Planner Operator :=
  exprs_list ← seqM (map (λ values, seqM (map (λ value, PlanExpression value []) values)) values_list);
  let exprs_list := map (map pl_expr) exprs_list in
  match exprs_list with
  | [] => throw (Undefined "vector index out of range")
  | exprs :: _ => column_list ← lift (infer_numbered [E_CONST] 1 exprs ColumnList_empty); mret (ValuesOperator column_list exprs_list)
  end.

Fixpoint PlanTableRef (force_join : ForceJoin) (ref : TableRef) (has_lock : bool) : M Planner Operator :=
  match ref with
  | BaseTable table => mret (SeqScanOperator (GetColumnList table) (bt_oid_ table) (bt_table_ table) (bt_alias_ table) has_lock)
  | ExpressionListRef values_list => PlanExpressionList values_list
  | CrossJoinRef t0 t1 =>
      left ← PlanTableRef force_join t0 false;
      right ← PlanTableRef force_join t1 false;
      mret (NestedLoopJoinOperator (GetJoinColumnList (OutputColumns left) (OutputColumns right)) left right
              (Const (Value_bool true)) INNER)
  | JoinRef join_type t0 t1 condition =>
      left ← PlanTableRef force_join t0 false;
      right ← PlanTableRef force_join t1 false;
      p ← PlanExpression condition [OutputColumns left; OutputColumns right];
      mret (join_operator force_join left right (pl_expr p) join_type)
  | EmptyRef => throw (DbException "TableRef type not supported in PlanTableRef")
  end.

(** ** Aggregates *)

(** The aggregate calls of an expression, and the expression without the arguments
    that [std::exchange] moved away. *)
Fixpoint AddAggregateExpression (e : Expression) : res (list (string * bool * list Expression) * Expression) :=
  match e with
  | AggregateExpression function_name is_distinct args =>
      Ok ([(function_name, is_distinct, args)], AggregateExpression function_name is_distinct [])
  | BinaryOpExpression op_name e0 e1 =>
      a0 ← AddAggregateExpression e0; a1 ← AddAggregateExpression e1;
      Ok (a0.1 ++ a1.1, BinaryOpExpression op_name a0.2 a1.2)
  | AliasExpression name e => a ← AddAggregateExpression e; Ok (a.1, AliasExpression name a.2)
  | ColumnRefExpression _ | ConstExpression _ => Ok ([], e)
  | NoExpression => null_expression
  | _ => Err (DbException "Unknown Expression type in agg")
  end.

(** The same on a list, and on [having_]. *)
Fixpoint add_all (l : list Expression) : res (list (string * bool * list Expression) * list Expression) :=
  match l with
  | [] => Ok ([], [])
  | e :: l => a ← AddAggregateExpression e; b ← add_all l; Ok (a.1 ++ b.1, a.2 :: b.2)
  end.

Definition must_appear {A} (name : string) : res A :=
  Err (DbException (name +:+ " must appear in the GROUP BY clause or be used in an aggregate function")).

Fixpoint CheckAggregate (e : Expression) (group_by_names : gset string) : res unit :=
  match e with
  | AggregateExpression _ _ _ | ConstExpression _ => Ok ()
  | ColumnRefExpression col_name =>
      if decide (join_names col_name ∈ group_by_names) then Ok () else must_appear (join_names col_name)
  | BinaryOpExpression _ e0 e1 => CheckAggregate e0 group_by_names ;; CheckAggregate e1 group_by_names
  | AliasExpression name (AggregateExpression _ _ _) => Ok ()
  | AliasExpression name e =>
      s ← Bound_ToString e;
      if decide (s ∈ group_by_names ∨ name ∈ group_by_names) then Ok () else must_appear name
  | NoExpression => null_expression
  | _ => Err (DbException "Unknown Expression type in CheckAggregate")
  end.

(** [COUNT_STAR] comes without an argument. *)
Definition GetAggregateType (aggregate : string * bool * list Expression) (children : list ColumnList)
    : M Planner (AggregateType * option OperatorExpression) :=
  let '(function_name, _, args) := aggregate in
  match args with
  | [] => mret (COUNT_STAR, None)
  | [arg] =>
      p ← PlanExpression arg children;
      let e := Some (pl_expr p) in
      if decide (function_name = "avg") then mret (AVG, e)
      else if decide (function_name = "count") then mret (COUNT, e)
      else if decide (function_name = "sum") then mret (SUM, e)
      else if decide (function_name = "max") then mret (MAX, e)
      else if decide (function_name = "min") then mret (MIN, e)
      else throw (DbException ("Unknown function name " +:+ function_name))
  | _ => throw (DbException "Too many arguments in aggregate function")
  end.

(** One turn of the loop over [group_by_]: the expression, and the name of its
    output column. *)
Definition plan_group_by (child : ColumnList) (item : Expression) : M Planner (Planned * string) :=
  p ← PlanExpression item [child];
  st ← get;
  mret (p, if decide (named (pl_name p) st = []) then pl_name p else default "" (alias2colname_ st !! pl_name p)).

(** One turn of the loop over [aggregates_]. *)
Definition plan_aggregate (child : ColumnList) (index : nat) (aggregate : string * bool * list Expression)
    : M Planner (AggregateType * OperatorExpression) :=
  t ← GetAggregateType aggregate [child];
  modify (add_aggregate_expr (ColumnValue (Z.of_nat index) INT aggregate.1.1 4 true)) ;;
  mret (t.1, default (Const (Value_int 1)) t.2).
Fixpoint plan_aggregates (child : ColumnList) (index : nat) (aggregates : list (string * bool * list Expression))
    : M Planner (list (AggregateType * OperatorExpression)) :=
  match aggregates with
  | [] => mret []
  | aggregate :: aggregates =>
      t ← plan_aggregate child index aggregate; ts ← plan_aggregates child (S index) aggregates; mret (t :: ts)
  end.

Definition set_clauses (select_list : list Expression) (having : option Expression) (order_by : list (OrderByType * Expression))
    (s : SelectStatement) : SelectStatement :=
  mkSelect (sel_table_ s) select_list (where_ s) (group_by_ s) having order_by (limit_count_ s) (limit_offset_ s)
    (lock_type_ s) (distinct_ s).

(** The plan and the statement as the call leaves it. *)
Definition PlanAggregate (stmt : SelectStatement) (child : Operator) : M Planner (Operator * SelectStatement) :=
  gs ← seqM (map (plan_group_by (OutputColumns child)) (group_by_ stmt));
  let group_bys := gs.*1 in
  let group_by_names := list_to_set (pl_name <$> group_bys) : gset string in
  ah ← lift match having_ stmt with Some e => a ← AddAggregateExpression e; Ok (a.1, Some a.2) | None => Ok ([], None) end;
  asl ← lift (add_all (select_list_ stmt));
  ao ← lift (add_all (order_by_ stmt).*2);
  modify (add_aggregates (ah.1 ++ asl.1 ++ ao.1)) ;;
  let stmt := set_clauses asl.2 ah.2 (zip (order_by_ stmt).*1 ao.2) stmt in
  st ← get;
  ts ← plan_aggregates (OutputColumns child) (length group_bys) (aggregates_ st);
  lift (seqR (map (λ item, CheckAggregate item group_by_names) (select_list_ stmt))) ;;
  inferred ← lift (InferAggregateColumnList group_bys ts.*2);
  column_list ← lift (RenameColumnList inferred (gs.*2 ++ ((λ a, a.1.1) <$> aggregates_ st)));
  let plan := AggregateOperator column_list child (pl_expr <$> group_bys) ts.*2 ((λ a, a.1.2) <$> aggregates_ st) ts.*1 in
  match having_ stmt with
  | Some e => p ← PlanExpression e [column_list]; mret (FilterOperator column_list plan (pl_expr p), stmt)
  | None => mret (plan, stmt)
  end.

(** ** Queries *)

(** The loop that adds the aliases and answers [has_agg]. *)
Fixpoint add_select_aliases (items : list Expression) (cl : ColumnList) : M Planner bool :=
  match items with
  | [] => mret false
  | item :: items =>
      match item with
      | AliasExpression _ (AggregateExpression _ _ _) => mret ()
      | AliasExpression _ _ => PlanExpression item [cl] ;; mret ()
      | _ => mret ()
      end ;;
      b ← lift (HasAggregation item);
      has_agg ← add_select_aliases items cl;
      mret (b || has_agg)
  end.

(** LIMIT and OFFSET are evaluated on an empty record. *)
Definition plan_count `{Ecma} (clause : option Expression) (cl : ColumnList) (message : string) : M Planner (option Z) :=
  match clause with
  | None => mret None
  | Some e =>
      p ← PlanExpression e [cl];
      v ← lift (Evaluate (pl_expr p) (Some Record_default));
      n ← lift (GetValue_int v);
      if n <? 0 then throw (DbException message) else mret (Some n)
  end.

Definition is_some {A} (x : option A) : bool := match x with Some _ => true | None => false end.

Fixpoint distinct_columns (col_idx : Z) (cols : list ColumnDefinition) : list OperatorExpression :=
  match cols with
  | [] => []
  | col :: cols => ColumnValue col_idx (ctype_ col) (name_ col) (max_size_ col) true :: distinct_columns (col_idx + 1) cols
  end.

Section Queries.
Context `{Ecma} (force_join : ForceJoin).

(** The parts of [PlanSelect], in its order. *)
Definition plan_from (stmt : SelectStatement) : M Planner Operator :=
  match sel_table_ stmt with
  | EmptyRef => mret (ValuesOperator ColumnList_empty [[]])
  | table => PlanTableRef force_join table (match lock_type_ stmt with NOLOCK => false | _ => true end)
  end.

Definition plan_where (stmt : SelectStatement) (plan : Operator) : M Planner Operator :=
  match where_ stmt with
  | Some e => p ← PlanExpression e [OutputColumns plan]; mret (FilterOperator (OutputColumns plan) plan (pl_expr p))
  | None => mret plan
  end.

Definition plan_order_by (stmt : SelectStatement) (plan : Operator) : M Planner Operator :=
  if bool_decide (order_by_ stmt = []) then mret plan
  else
    order_bys ← seqM (map (λ o, p ← PlanExpression o.2 [OutputColumns plan]; mret (o.1, pl_expr p)) (order_by_ stmt));
    mret (OrderByOperator (OutputColumns plan) plan order_bys).

Definition plan_limit (stmt : SelectStatement) (plan : Operator) : M Planner Operator :=
  if is_some (limit_count_ stmt) || is_some (limit_offset_ stmt) then
    limit_count ← plan_count (limit_count_ stmt) (OutputColumns plan) "LIMIT must not be negative";
    limit_offset ← plan_count (limit_offset_ stmt) (OutputColumns plan) "OFFSET must not be negative";
    mret (LimitOperator (OutputColumns plan) plan limit_count limit_offset)
  else mret plan.

Definition plan_lock (stmt : SelectStatement) (plan : Operator) : M Planner Operator :=
  match lock_type_ stmt with
  | NOLOCK => mret plan
  | lock_type =>
      match sel_table_ stmt with
      | BaseTable table => mret (LockRowsOperator (OutputColumns plan) plan (bt_oid_ table) lock_type)
      | _ => throw (DbException "Locking only supports for base table")
      end
  end.

Definition plan_projection (stmt : SelectStatement) (exprs : list Planned) (plan : Operator) : M Planner Operator :=
  inferred ← lift (InferColumnList (pl_expr <$> exprs));
  column_list ← lift (RenameColumnList inferred (pl_name <$> exprs));
  let plan := ProjectionOperator column_list plan (pl_expr <$> exprs) in
  mret (if distinct_ stmt
        then AggregateOperator column_list plan (distinct_columns 0 (columns_ column_list)) [] [] []
        else plan).

Definition PlanSelect (stmt : SelectStatement) : M Planner Operator :=
  plan ← plan_from stmt;
  plan ← plan_where stmt plan;
  has_agg ← add_select_aliases (select_list_ stmt) (OutputColumns plan);
  ps ← (if has_agg || negb (bool_decide (group_by_ stmt = [])) then PlanAggregate stmt plan else mret (plan, stmt));
  let '(plan, stmt) := ps in
  exprs ← seqM (map (λ item, PlanExpression item [OutputColumns plan]) (select_list_ stmt));
  plan ← plan_order_by stmt plan;
  plan ← plan_limit stmt plan;
  plan ← plan_lock stmt plan;
  plan_projection stmt exprs plan.

(** The type and size of a value against those of its column. *)
Definition check_insert (c t : ColumnDefinition) : res unit :=
  (if decide (ctype_ c ≠ ctype_ t ∧ ctype_ c ≠ NULL_TYPE ∧ ¬ (ctype_ c = VARCHAR ∧ ctype_ t = CHAR))
   then Err (DbException "Insert column type does not match table column type") else Ok ()) ;;
  if IsString (ctype_ c) && IsString (ctype_ t) && (max_size_ t <? max_size_ c)
  then Err (DbException "Insert value too long") else Ok ().

(** The columns an INSERT names, found by the part of their name after the dot. *)
Fixpoint insert_columns (all_columns : ColumnList) (columns : list (list string)) (cl : ColumnList) : res ColumnList :=
  match columns with
  | [] => Ok cl
  | column :: columns =>
      name ← match Split (join_names column) "."%char !! 1%nat with
             | Some name => Ok name
             | None => Err (Undefined "vector index out of range")
             end;
      col_idx ← Column.GetColumnIndex all_columns name;
      c ← GetColumn all_columns col_idx;
      insert_columns all_columns columns (AddColumn cl c)
  end.

Definition one_int (name : string) : ColumnList := AddColumn ColumnList_empty (mkColumn name INT 4).

Definition PlanInsert (table : BaseTableRef) (columns : list (list string)) (select_stmt : SelectStatement) : M Planner Operator :=
  select ← PlanSelect select_stmt;
  let child_columns := OutputColumns select in
  table_columns ← lift (if bool_decide (columns = []) then Ok (bt_column_list_ table)
                        else insert_columns (bt_column_list_ table) columns ColumnList_empty);
  if negb (Length child_columns =? Length table_columns)
  then throw (DbException "Insert column number does not match table column number")
  else
    lift (seqR (zip_with check_insert (columns_ child_columns) (columns_ table_columns))) ;;
    mret (InsertOperator (one_int "insert") select table_columns (bt_oid_ table)).

(** The scan of the table below its filter. *)
Definition filtered_table (table : BaseTableRef) (filter : Expression) : M Planner Operator :=
  scan ← PlanTableRef force_join (BaseTable table) false;
  p ← PlanExpression filter [OutputColumns scan];
  mret (FilterOperator (OutputColumns scan) scan (pl_expr p)).

Definition PlanDelete (table : BaseTableRef) (filter : Expression) : M Planner Operator :=
  filter_node ← filtered_table table filter;
  mret (DeleteOperator (one_int "delete") filter_node (bt_oid_ table)).

(** The vector starts full of null pointers. *)
Fixpoint plan_updates (cl : ColumnList) (updates : list (option (list string) * Expression))
    (update_exprs : list (option OperatorExpression)) : M Planner (list (option OperatorExpression)) :=
  match updates with
  | [] => mret update_exprs
  | (None, _) :: _ => throw (Undefined "null pointer")
  | (Some col_name, e) :: updates =>
      column ← PlanColumnRef (join_names col_name) [cl];
      p ← PlanExpression e [cl];
      i ← lift match GetColumnIndex (pl_expr column) with Some i => Ok i | None => Err (Undefined "not a column") end;
      if Z.of_nat (length update_exprs) <=? i then throw (Undefined "vector index out of range")
      else plan_updates cl updates (<[Z.to_nat i := Some (pl_expr p)]> update_exprs)
  end.

(** The columns without a value keep theirs. *)
Fixpoint keep_columns (i : Z) (cols : list ColumnDefinition) (update_exprs : list (option OperatorExpression)) : list OperatorExpression :=
  match cols, update_exprs with
  | col :: cols, e :: update_exprs =>
      default (ColumnValue i (ctype_ col) (name_ col) (max_size_ col) true) e :: keep_columns (i + 1) cols update_exprs
  | _, _ => []
  end.

Definition PlanUpdate (table : BaseTableRef) (filter : Expression) (updates : list (option (list string) * Expression)) : M Planner Operator :=
  filter_node ← filtered_table table filter;
  let cols := columns_ (OutputColumns filter_node) in
  update_exprs ← plan_updates (OutputColumns filter_node) updates (replicate (length cols) None);
  mret (UpdateOperator (one_int "update") filter_node (bt_oid_ table) (keep_columns 0 cols update_exprs)).

Definition PlanQuery (stmt : Statement) : res Operator :=
  (match stmt with
   | InsertStatement table columns select_stmt => PlanInsert table columns select_stmt
   | DeleteStatement table filter => PlanDelete table filter
   | UpdateStatement table filter updates => PlanUpdate table filter updates
   | QuerySelect select_stmt => PlanSelect select_stmt
   | _ => throw (DbException "Statement Type not implemented in planner")
   end Planner_new).1.
End Queries.
End Code.
