(* ===== verification/Meaning.v ===== *)
(** What bound queries mean, with columns by name, and that the planner keeps the
    meaning: a planned expression computes on a record what the bound expression
    means on the columns of the record, and the plan of a SELECT answers what its
    clauses say. *)
From Stdlib Require Import FunctionalExtensionality.
From S2P Require Import Prelude Types StringUtil Value Column Record TablePage LockManager Visibility Table TableScan Like Expressions Executor Pipeline OrderBy Join Query Select Plan Texts Bound Planner.

(** ** Expressions *)

Section Expression_ind.
Variable P : Expression → Prop.
Hypothesis HAggregate : ∀ f d args, Forall P args → P (AggregateExpression f d args).
Hypothesis HAlias : ∀ n e, P e → P (AliasExpression n e).
Hypothesis HBinary : ∀ op e0 e1, P e0 → P e1 → P (BinaryOpExpression op e0 e1).
Hypothesis HCast : ∀ t e, P e → P (TypeCastExpression t e).
Hypothesis HColumn : ∀ c, P (ColumnRefExpression c).
Hypothesis HConst : ∀ v, P (ConstExpression v).
Hypothesis HCall : ∀ f args, Forall P args → P (FuncCallExpression f args).
Hypothesis HList : ∀ es, Forall P es → P (ListExpression es).
Hypothesis HNull : ∀ b e, P e → P (NullTestExpression b e).
Hypothesis HStar : P StarExpression.
Hypothesis HUnary : ∀ op e, P e → P (UnaryOpExpression op e).
Hypothesis HNone : P NoExpression.

Definition Expression_induction : ∀ e, P e :=
  fix go e :=
    let all := fix all (l : list Expression) : Forall P l :=
      match l with [] => Forall_nil_2 P | x :: l => Forall_cons_2 P x l (go x) (all l) end in
    match e with
    | AggregateExpression f d args => HAggregate f d args (all args)
    | AliasExpression n e => HAlias n e (go e)
    | BinaryOpExpression op e0 e1 => HBinary op e0 e1 (go e0) (go e1)
    | TypeCastExpression t e => HCast t e (go e)
    | ColumnRefExpression c => HColumn c
    | ConstExpression v => HConst v
    | FuncCallExpression f args => HCall f args (all args)
    | ListExpression es => HList es (all es)
    | NullTestExpression b e => HNull b e (go e)
    | StarExpression => HStar
    | UnaryOpExpression op e => HUnary op e (go e)
    | NoExpression => HNone
    end.
End Expression_ind.

Section Meaning.
Context `{Ecma}.

(** What an operator computes; [=] and [<>] are membership when the right operand
    is a list. *)
Definition binary_value (op : string) (in_list : bool) : option (Value → Value → res Value) :=
  match op with
  | "+" => Some (Arithmetic_Compute ADD) | "-" => Some (Arithmetic_Compute SUB)
  | "*" => Some (Arithmetic_Compute MUL) | "/" => Some (Arithmetic_Compute DIV)
  | "=" => Some (Comparison_Compute (if in_list then IN else EQUAL))
  | "!=" | "<>" => Some (Comparison_Compute (if in_list then NOT_IN else NOT_EQUAL))
  | "<" => Some (Comparison_Compute LESS) | "<=" => Some (Comparison_Compute LESS_EQUAL)
  | ">" => Some (Comparison_Compute GREATER) | ">=" => Some (Comparison_Compute GREATER_EQUAL)
  | "BETWEEN" => Some (Comparison_Compute BETWEEN) | "NOT BETWEEN" => Some (Comparison_Compute NOT_BETWEEN)
  | "~~" => Some (Comparison_Compute LIKE) | "!~~" => Some (Comparison_Compute NOT_LIKE)
  | "and" => Some (Logic_Compute AND) | "or" => Some (Logic_Compute OR)
  | _ => None
  end%string.

Definition is_list_expression (e : Expression) : bool := match e with ListExpression _ => true | _ => false end.
Definition no_meaning {A} : res A := Err (DbException "no meaning").

(** The value of an expression, given those of the columns. *)
Fixpoint Bound_Evaluate (column : string → res Value) (e : Expression) : res Value :=
  match e with
  | ConstExpression value => Ok value
  | ColumnRefExpression col_name => column (join_names col_name)
  | AliasExpression _ e => Bound_Evaluate column e
  | BinaryOpExpression op e0 e1 =>
      v0 ← Bound_Evaluate column e0; v1 ← Bound_Evaluate column e1;
      match binary_value op (is_list_expression e1) with Some f => f v0 v1 | None => no_meaning end
  | UnaryOpExpression _ e => v ← Bound_Evaluate column e; Not v
  | TypeCastExpression cast_type e => v ← Bound_Evaluate column e; cast cast_type v
  | NullTestExpression is_null e => v ← Bound_Evaluate column e; Ok (null_test is_null v)
  | FuncCallExpression function_name [e] => call_function function_name (Bound_Evaluate column e)
  | ListExpression es => vs ← seqR (map (Bound_Evaluate column) es); Ok (Value_list vs)
  | AggregateExpression _ _ _ | StarExpression | FuncCallExpression _ _ | NoExpression => no_meaning
  end.

(** Expressions without aggregates, stars and aliases, over the columns [ok]; with
    [full] unset also without what [EvaluateJoin] evaluates on one record only. *)
Fixpoint plain (ok : string → bool) (full : bool) (e : Expression) : bool :=
  match e with
  | ConstExpression _ => true
  | ColumnRefExpression col_name => ok (join_names col_name)
  | BinaryOpExpression _ e0 e1 => plain ok full e0 && plain ok full e1
  | UnaryOpExpression _ e | TypeCastExpression _ e | NullTestExpression _ e => full && plain ok full e
  | FuncCallExpression _ es => forallb (plain ok full) es
  | ListExpression es => full && forallb (plain ok full) es
  | AggregateExpression _ _ _ | AliasExpression _ _ | StarExpression | NoExpression => false
  end.
End Meaning.

(** ** Planned expressions *)

Lemma binary_factory `{Ecma} op l r e (in_list : bool) : BinaryFactory op l r = Ok e → is_list r = in_list →
  is_list e = false ∧
  ∃ f, binary_value op in_list = Some f ∧
    ((∃ t, e = Arithmetic t l r ∧ f = Arithmetic_Compute t) ∨ (∃ t, e = Comparison t l r ∧ f = Comparison_Compute t) ∨
     (∃ t, t ≠ NOT ∧ e = Logic t l (Some r) ∧ f = Logic_Compute t)).
Proof.
  intros He <-. unfold BinaryFactory in He.
  repeat (match type of He with context [decide ?P] => destruct (decide P) as [?Hd|?Hd] end;
    [|try done]); try done; injection He as <-; (split; [done|]); destruct_and?; destruct_or?; subst;
    try (eexists; split; [reflexivity|]); eauto 10.
  all: destruct (is_list r) eqn:Hl; naive_solver.
Qed.

(** Take apart a successful run. *)
Lemma lift_Ok {S A} (x : res A) (s s' : S) a : lift x s = (Ok a, s') → x = Ok a ∧ s' = s.
Proof. unfold lift. naive_solver. Qed.
Lemma mret_Ok {S A} (x : A) (s s' : S) a : (mret x : M S A) s = (Ok a, s') → x = a ∧ s' = s.
Proof. intros Hr. by injection Hr. Qed.
Lemma get_Ok {S} (s s' : S) a : get s = (Ok a, s') → a = s ∧ s' = s.
Proof. unfold get. naive_solver. Qed.
Lemma throw_Ok {S A} x (s s' : S) (a : A) : throw x s ≠ (Ok a, s').
Proof. done. Qed.
Ltac inv_run :=
  repeat match goal with
  | H : (_ ≫= _) _ = (Ok _, _) |- _ =>
      let a := fresh "a" in let s := fresh "s" in let Ha := fresh "Hr" in
      apply M_bind_Ok in H as (a & s & Ha & H)
  | H : lift _ _ = (Ok _, _) |- _ => apply lift_Ok in H as [H ->]
  | H : mret _ _ = (Ok _, _) |- _ => apply mret_Ok in H as [<- ->]
  | H : get _ = (Ok _, _) |- _ => apply get_Ok in H as [-> ->]
  | H : throw _ _ = (Ok _, _) |- _ => by destruct (throw_Ok _ _ _ _ H)
  end.

Lemma seqM_inv {S A B} (f : A → M S B) (I : S → Prop) (Q : A → B → Prop) l :
  Forall (λ a, ∀ s b s', I s → f a s = (Ok b, s') → s' = s ∧ Q a b) l →
  ∀ s bs s', I s → seqM (map f l) s = (Ok bs, s') → s' = s ∧ Forall2 Q l bs.
Proof.
  induction 1 as [|a l Ha Hl IH]; intros s bs s' Hs Hm; [by injection Hm as <- <-|].
  apply M_bind_Ok in Hm as (b & s1 & Hb & Hm). apply M_bind_Ok in Hm as (bs' & s2 & Hb0 & Hm). injection Hm as <- <-.
  destruct (Ha _ _ _ Hs Hb) as [-> Hq]. destruct (IH _ _ _ Hs Hb0) as [-> Hqs]. split; [done|by constructor].
Qed.

Section Sound.
Context `{Fmt} `{Ecma} (children : list ColumnList) (full : bool).
(** [look x] gives the columns at [x] their values and [ev x] evaluates at [x]: a
    record, or two records. The columns [ok] are planned as [look] has them,
    in the states [I]. *)
Context {X : Type} (look : X → string → res Value) (ev : X → OperatorExpression → res Value).
Context (ok : string → bool) (I : Planner → Prop).
Hypothesis ev_const : ∀ x v, ev x (Const v) = Ok v.
Hypothesis ev_arithmetic : ∀ x t e0 e1, ev x (Arithmetic t e0 e1) = Arithmetic_Evaluate t (ev x e0) (ev x e1).
Hypothesis ev_comparison : ∀ x t e0 e1, ev x (Comparison t e0 e1) = Comparison_Evaluate t (ev x e0) (ev x e1).
Hypothesis ev_logic : ∀ x t e0 e1, t ≠ NOT →
  ev x (Logic t e0 (Some e1)) = (v0 ← ev x e0; v1 ← ev x e1; Logic_Compute t v0 v1).
Hypothesis ev_call : ∀ x f e es, ev x (FuncCall f (e :: es)) = call_function f (ev x e).
Hypothesis ev_not : ∀ x e, full = true → ev x (Logic NOT e None) = (v ← ev x e; Not v).
Hypothesis ev_null : ∀ x b e, full = true → ev x (NullTest b e) = NullTest_Evaluate b (ev x e).
Hypothesis ev_cast : ∀ x t e, full = true → ev x (TypeCast t e) = TypeCast_Evaluate t (ev x e).
Hypothesis ev_list : ∀ x es, full = true → ev x (ListExpr es) = List_Evaluate (map (ev x) es).

(** The planned expression computes the meaning. *)
Definition means (e : Expression) (p : OperatorExpression) : Prop :=
  is_list p = is_list_expression e ∧ ∀ x, ev x p = Bound_Evaluate (look x) e.

Hypothesis column_means : ∀ name st p st', ok name = true → I st → PlanColumnRef name children st = (Ok p, st') →
  st' = st ∧ is_list (pl_expr p) = false ∧ ∀ x, ev x (pl_expr p) = look x name.

Lemma means_all es ps x : Forall2 (λ e p, means e (pl_expr p)) es ps →
  all_values (map (ev x) (pl_expr <$> ps)) = seqR (map (Bound_Evaluate (look x)) es).
Proof using Type. induction 1 as [|e p es ps [_ He] Hes IH]; [done|]. rewrite fmap_cons. cbn [map all_values seqR]. by rewrite He, IH. Qed.

Definition planned (e : Expression) : Prop :=
  plain ok full e = true → ∀ st p st', I st → PlanExpression e children st = (Ok p, st') → st' = st ∧ means e (pl_expr p).
Lemma planned_all es : Forall planned es → forallb (plain ok full) es = true →
  ∀ st ps st', I st → seqM (map (λ e, PlanExpression e children) es) st = (Ok ps, st') →
  st' = st ∧ Forall2 (λ e p, means e (pl_expr p)) es ps.
Proof using All.
  intros IH Hp. apply seqM_inv with (I := I). induction IH; simpl in Hp; [constructor|].
  apply andb_prop in Hp as [He Hp]. constructor; [|by apply IHIH]. intros st p st' Hst. by apply H1.
Qed.

Lemma planned_means e : plain ok full e = true →
  ∀ st p st', I st → PlanExpression e children st = (Ok p, st') → st' = st ∧ means e (pl_expr p).
Proof using All.
  induction e as [| |op e0 e1 IH0 IH1|t e IH|c|v|f es IH|es IH|b e IH| |op e IH|] using Expression_induction;
    intros Hp st p st' Hst He; simpl in Hp, He; try done.
  - apply andb_prop in Hp as [H0' H1']. inv_run.
    destruct (IH0 H0' _ _ _ Hst Hr) as [-> M0]. destruct (IH1 H1' _ _ _ Hst Hr0) as [-> M1]. split; [done|].
    destruct (binary_factory _ _ _ _ _ Hr1 (proj1 M1)) as (Hl & f & Hf & Hc).
    split; [done|]. intros x. simpl. rewrite Hf, <- (proj2 M0), <- (proj2 M1).
    destruct Hc as [(t & -> & ->)|[(t & -> & ->)|(t & Ht & -> & ->)]]; [apply ev_arithmetic|apply ev_comparison|by apply ev_logic].
  - apply andb_prop in Hp as [Hf Hp]. inv_run. destruct (IH Hp _ _ _ Hst Hr) as [-> M]. split; [done|]. split; [done|].
    intros x. simpl. by rewrite ev_cast, (proj2 M).
  - destruct (column_means _ _ _ _ Hp Hst He) as (-> & Hl & Hx). by repeat split.
  - inv_run. split; [done|]. split; [done|]. intros x. apply ev_const.
  - inv_run. destruct (planned_all es) with (3 := Hst) (4 := Hr) as [-> Hes]; [done|done|]. split; [done|].
    unfold mk_FuncCall in Hr0. inv_bind. destruct Hes as [|e q es' ps' M [|]]; simpl in Hr0; try done.
    case_match; [|done]. simplify_eq. split; [done|]. intros x. by rewrite ev_call, (proj2 M).
  - apply andb_prop in Hp as [Hf Hp]. inv_run. destruct (planned_all es) with (3 := Hst) (4 := Hr) as [-> Hes]; [done|done|].
    split; [done|]. split; [done|]. intros x. simpl. rewrite ev_list by done. unfold List_Evaluate. by rewrite (means_all _ _ _ Hes).
  - apply andb_prop in Hp as [Hf Hp]. inv_run. destruct (IH Hp _ _ _ Hst Hr) as [-> M]. split; [done|]. split; [done|].
    intros x. simpl. by rewrite ev_null, (proj2 M).
  - apply andb_prop in Hp as [Hf Hp]. inv_run. destruct (IH Hp _ _ _ Hst Hr) as [-> M]. case_decide; [|done]. inv_run.
    unfold mk_Logic1 in Hr0. simpl in Hr0. simplify_eq. split; [done|]. split; [done|].
    intros x. simpl. by rewrite ev_not, (proj2 M).
Qed.
End Sound.

(** ** Columns and aliases of a SELECT *)

Definition column_value (cl : ColumnList) (r : Rec) (name : string) : res Value :=
  match TryGetColumnIndex cl name with Some i => GetValue r i | None => no_meaning end.
Definition in_columns (cl : ColumnList) (name : string) : bool := is_some (TryGetColumnIndex cl name).

(** What the first item with the alias stands for. *)
Fixpoint first_alias (items : list Expression) (name : string) : option Expression :=
  match items with
  | [] => None
  | AliasExpression n e :: items => if decide (n = name) then Some e else first_alias items name
  | _ :: items => first_alias items name
  end.
(** A name in ORDER BY: a column, or else an alias. *)
Definition named_value `{Ecma} (items : list Expression) (cl : ColumnList) (r : Rec) (name : string) : res Value :=
  match TryGetColumnIndex cl name with
  | Some i => GetValue r i
  | None => match first_alias items name with Some e => Bound_Evaluate (column_value cl r) e | None => no_meaning end
  end.

Section Aliases.
Context `{Fmt} `{Ecma} (cl : ColumnList).

Definition computes (e : Expression) (p : OperatorExpression) : Prop :=
  ∀ r, Evaluate p (Some r) = Bound_Evaluate (column_value cl r) e.

(** The first object of a name is what the first item with the alias means; a name
    without an object has no text. *)
Record aliases_sound (items : list Expression) (st : Planner) : Prop := {
  as_first : ∀ name n rest, named name st = n :: rest →
    ∃ p e, alias_objects_ st !! n = Some p ∧ first_alias items name = Some e ∧ computes e (pl_expr p);
  as_text : ∀ name, named name st = [] → alias2colname_ st !! name = None
}.

Lemma child_column_computes i name e col_name : TryGetColumnIndex cl name = Some i → child_column cl i col_name = Ok e →
  is_list e = false ∧ ∀ r, Evaluate e (Some r) = GetValue r i.
Proof. intros Hi He. unfold child_column in He. apply bind_Ok in He as (c & _ & [= <-]). done. Qed.

Lemma column_in name st p st' : in_columns cl name = true → PlanColumnRef name [cl] st = (Ok p, st') →
  st' = st ∧ pl_id p = None ∧ pl_name p = name ∧ is_list (pl_expr p) = false ∧ ∀ r, Evaluate (pl_expr p) (Some r) = column_value cl r name.
Proof.
  unfold in_columns, column_value. intros Hin Hp. simpl in Hp. rewrite get_step in Hp.
  destruct (TryGetColumnIndex cl name) as [i|] eqn:Hi; [|done]. inv_run.
  destruct (child_column_computes _ _ _ _ Hi Hr). split; [done|]. split; [done|]. split; [|done].
  unfold child_column in Hr. apply bind_Ok in Hr as (c & _ & [= <-]). done.
Qed.

Lemma column_named items name st p st' : aliases_sound items st → PlanColumnRef name [cl] st = (Ok p, st') →
  st' = st ∧ is_list (pl_expr p) = false ∧ ∀ r, Evaluate (pl_expr p) (Some r) = named_value items cl r name.
Proof.
  intros [Hfirst _] Hp. destruct (TryGetColumnIndex cl name) as [i|] eqn:Hi.
  - destruct (column_in name st p st') as (-> & _ & _ & Hl & He); [unfold in_columns; by rewrite Hi|done|].
    split; [done|]. split; [done|]. intros r. rewrite He. unfold column_value, named_value. by rewrite Hi.
  - simpl in Hp. rewrite get_step, Hi in Hp. destruct (named name st) as [|n [|]] eqn:Hn; [done| |done].
    destruct (Hfirst _ _ _ Hn) as (q & e & Hq & He & Hc). rewrite Hq in Hp.
    destruct q as [[] nm id]; try done. inv_run. split; [done|]. split; [done|].
    intros r. unfold named_value. rewrite Hi, He. apply Hc.
Qed.

(** *** Expressions over one record *)

Lemma record_means (look : Rec → string → res Value) ok (I : Planner → Prop) e st p st' :
  (∀ name st p st', ok name = true → I st → PlanColumnRef name [cl] st = (Ok p, st') →
    st' = st ∧ is_list (pl_expr p) = false ∧ ∀ r, Evaluate (pl_expr p) (Some r) = look r name) →
  plain ok true e = true → I st → PlanExpression e [cl] st = (Ok p, st') →
  st' = st ∧ ∀ r, Evaluate (pl_expr p) (Some r) = Bound_Evaluate (look r) e.
Proof.
  intros Hcol He Hst Hp.
  assert (st' = st ∧ means look (λ r p, Evaluate p (Some r)) e (pl_expr p)) as [-> [_ Hm]]; [|done].
  apply (planned_means [cl] true look (λ r p, Evaluate p (Some r)) ok I) with (st := st); try done.
  intros x t e0 e1 Ht. simpl. unfold Logic_Evaluate. by rewrite decide_False.
Qed.

Lemma plain_computes e : plain (in_columns cl) true e = true →
  ∀ st p st', PlanExpression e [cl] st = (Ok p, st') → st' = st ∧ computes e (pl_expr p).
Proof.
  intros He st p st' Hp. apply (record_means (column_value cl) (in_columns cl) (λ _, True) e st p st'); [|done..].
  intros name s q s' Hn _ Hq. destruct (column_in _ _ _ _ Hn Hq) as (?&_&_&?&?). auto.
Qed.

Lemma order_computes items e : plain (λ _, true) true e = true →
  ∀ st p st', aliases_sound items st → PlanExpression e [cl] st = (Ok p, st') →
  st' = st ∧ ∀ r, Evaluate (pl_expr p) (Some r) = Bound_Evaluate (named_value items cl r) e.
Proof.
  intros He st p st' Hst Hp. apply (record_means (named_value items cl) (λ _, true) (aliases_sound items) e st p st'); [|done..].
  intros name s q s' _ Hs Hq. by eapply column_named.
Qed.

(** *** The items of a select list *)

Definition item_expression (item : Expression) : Expression := match item with AliasExpression _ e => e | e => e end.
Definition item_name (item : Expression) : string :=
  match item with
  | AliasExpression name _ => name
  | ColumnRefExpression col_name => join_names col_name
  | FuncCallExpression function_name _ => function_name
  | _ => "<no_name>"
  end.

Lemma given_names e st p st' : plain (in_columns cl) true e = true → PlanExpression e [cl] st = (Ok p, st') →
  pl_id p = None ∧ pl_name p = item_name e.
Proof.
  destruct e; simpl; intros He Hp; try done; try (inv_run; done).
  - inv_run. split; [done|]. destruct (binary_factory _ _ _ _ _ Hr1 eq_refl) as (_ & f & _ & [(?&->&_)|[(?&->&_)|(?&_&->&_)]]); done.
  - by destruct (column_in _ _ _ _ He Hp) as (_&?&?&_).
  - inv_run. split; [done|]. unfold mk_FuncCall in Hr0. inv_bind. case_match; [done|]. case_match; [|done]. case_match; [|done]. by simplify_eq.
  - inv_run. case_decide; [|done]. inv_run. unfold mk_Logic1 in Hr0. simpl in Hr0. by simplify_eq.
Qed.

Lemma SetName_Evaluate name p r : Evaluate (pl_expr (SetName name p)) r = Evaluate (pl_expr p) r.
Proof. destruct p as [[] ? ?]; done. Qed.

Lemma named_app name n k l st : aliases_ st = l ++ [(n, k)] →
  named name st = (snd <$> filter (λ a : string * nat, a.1 = name) l) ++ (if decide (n = name) then [k] else []).
Proof.
  intros Hl. unfold named. rewrite Hl, filter_app, fmap_app. f_equal.
  destruct (decide (n = name)); [by rewrite filter_cons_True|by rewrite filter_cons_False].
Qed.

(** The object that [PlanAlias] adds is the last one. *)
Lemma PlanAlias_run n p st p' st' : pl_id p = None → PlanAlias n p st = (Ok p', st') →
  pl_expr p' = pl_expr (SetName n p) ∧ pl_name p' = n ∧
  ((st' = st ∧ is_Some (alias2colname_ st !! n)) ∨
   ∃ q, pl_expr q = pl_expr (SetName n p) ∧
     st' = set_aliases (aliases_ st ++ [(n, length (alias_objects_ st))]) (alias_objects_ st ++ [q])
             (<[n := pl_name p]> (alias2colname_ st)) st).
Proof.
  intros Hid Hp. unfold PlanAlias in Hp. rewrite get_step in Hp. apply M_bind_Ok in Hp as (add & s & Hadd & Hp).
  apply lift_Ok in Hadd as [Hadd ->]. destruct add.
  - rewrite Hid in Hp. simpl in Hp. rewrite bool_decide_eq_true_2 in Hp by done.
    unfold modify, mbind, M_bind, mret, M_ret in Hp. simpl in Hp. injection Hp as <- <-. split; [done|]. split; [done|]. right.
    eexists. split; [|unfold set_aliases; simpl; f_equal; rewrite insert_app_r_alt, Nat.sub_diag by done; reflexivity].
    by destruct p as [[] ? ?].
  - rewrite M_bind_step with (s' := st) (a := p) in Hp by done. simpl in Hp. rewrite Hid in Hp. injection Hp as <- <-.
    split; [done|]. split; [done|]. left. split; [done|]. by destruct (alias2colname_ st !! n).
Qed.

Lemma PlanAlias_sound items n e p st p' st' : aliases_sound items st → computes e (pl_expr p) → pl_id p = None →
  (named n st = [] → first_alias items n = Some e) → PlanAlias n p st = (Ok p', st') →
  aliases_sound items st' ∧ computes e (pl_expr p') ∧ pl_name p' = n ∧ named n st' ≠ [] ∧ (∀ m, named m st ≠ [] → named m st' ≠ []).
Proof.
  intros [Hfirst Htext] Hc Hid Hn Hp. destruct (PlanAlias_run _ _ _ _ _ Hid Hp) as (He & Hname & Hst).
  split_and!; [|intros r; rewrite He, SetName_Evaluate; apply Hc|done| |].
  - destruct Hst as [[-> _]|(q & Hq & ->)]; [done|].
    assert (computes e (pl_expr q)) as Hcq by (intros r; rewrite Hq, SetName_Evaluate; apply Hc). split.
    + intros name k rest. rewrite (named_app name n (length (alias_objects_ st)) (aliases_ st)) by done.
      fold (named name st). destruct (named name st) as [|k' rest'] eqn:Hk; simpl.
      * case_decide; [|done]. intros [= <- <-]. subst. exists q, e. split; [by apply list_lookup_middle|]. by split; [apply Hn|].
      * intros [= -> <-]. destruct (Hfirst _ _ _ Hk) as (q' & e' & Hq' & ? & ?). exists q', e'. split; [|done].
        by apply lookup_app_l_Some.
    + intros name. rewrite (named_app name n (length (alias_objects_ st)) (aliases_ st)) by done.
      fold (named name st). intros [Hk Hd]%app_eq_nil. simpl. case_decide; [done|]. rewrite lookup_insert_ne by done. by apply Htext.
  - destruct Hst as [[-> Hs]|(q & Hq & ->)].
    + intros Hk. apply Htext in Hk. rewrite Hk in Hs. by destruct Hs.
    + rewrite (named_app n n (length (alias_objects_ st)) (aliases_ st)) by done. rewrite decide_True by done.
      by intros [_ ?]%app_eq_nil.
  - intros m Hm. destruct Hst as [[-> Hs]|(q & Hq & ->)]; [done|].
    rewrite (named_app m n (length (alias_objects_ st)) (aliases_ st)) by done. fold (named m st). by intros [? _]%app_eq_nil.
Qed.

Lemma plain_no_aggregate ok full e : plain ok full e = true → HasAggregation e = Ok false.
Proof.
  induction e as [| |op e0 e1 IH0 IH1|t e IH|c|v|f es IH|es IH|b e IH| |op e IH|] using Expression_induction; simpl; intros Hp; try done.
  - apply andb_prop in Hp as [H0' H1']. by rewrite IH0, IH1.
  - induction IH as [|e es He _ IHes]; [done|]. simpl in *. apply andb_prop in Hp as [Hp Hps]. rewrite He by done. simpl. auto.
  - apply andb_prop in Hp as [_ Hp]. auto.
Qed.

Context (items : list Expression).
Definition item_ok (item : Expression) : Prop := plain (in_columns cl) true (item_expression item) = true.
(** Every alias of the list has an object. *)
Definition entered (l : list Expression) (st : Planner) : Prop := ∀ n, first_alias l n ≠ None → named n st ≠ [].

Lemma plan_item item st p st' : item_ok item → aliases_sound items st →
  (∀ n e, item = AliasExpression n e → named n st = [] → first_alias items n = Some e) →
  PlanExpression item [cl] st = (Ok p, st') →
  aliases_sound items st' ∧ computes (item_expression item) (pl_expr p) ∧ pl_name p = item_name item ∧
  (∀ n e, item = AliasExpression n e → named n st' ≠ []) ∧ (∀ m, named m st ≠ [] → named m st' ≠ []).
Proof.
  unfold item_ok. intros Hok Hs Hfirst Hp. destruct (match item with AliasExpression _ _ => true | _ => false end) eqn:Ha.
  - destruct item as [|n e| | | | | | | | | |]; try done. simpl in Hok, Hp. inv_run.
    destruct (plain_computes e Hok _ _ _ Hr) as [-> Hc]. destruct (given_names _ _ _ _ Hok Hr) as [Hid _].
    destruct (PlanAlias_sound _ _ _ _ _ _ _ Hs Hc Hid (Hfirst n e eq_refl) Hp) as (?&?&?&?&?).
    split_and!; [done..| |done]. by intros ? ? [= <- <-].
  - assert (item_expression item = item) as Hi by by destruct item. rewrite Hi in *.
    destruct (plain_computes item Hok _ _ _ Hp) as [-> Hc]. destruct (given_names _ _ _ _ Hok Hp) as [_ Hn].
    split_and!; [done..| |done]. by intros n e ->.
Qed.

Lemma first_alias_app l1 l2 n : first_alias (l1 ++ l2) n = match first_alias l1 n with Some e => Some e | None => first_alias l2 n end.
Proof. induction l1 as [|[] l1 IH]; simpl; try done. by case_decide. Qed.

Lemma has_aggregation_item item : item_ok item → HasAggregation item = Ok false.
Proof. intros Hi. destruct item; exact (plain_no_aggregate _ _ _ Hi). Qed.

(** The first loop over the items. *)
Lemma add_aliases_sound rest : ∀ pre st b st', items = pre ++ rest → Forall item_ok items → aliases_sound items st →
  entered pre st → add_select_aliases rest cl st = (Ok b, st') →
  b = false ∧ aliases_sound items st' ∧ entered items st'.
Proof.
  induction rest as [|item rest IH]; intros pre st b st' Hi Hok Hs He Hp.
  - rewrite app_nil_r in Hi. subst. simpl in Hp. inv_run. done.
  - cbn [add_select_aliases] in Hp. apply M_bind_Ok in Hp as (u & s & Hu & Hp). apply M_bind_Ok in Hp as (agg & s1 & Hagg & Hp).
    assert (item_ok item) as Hitem by (rewrite Hi in Hok; by apply Forall_app in Hok as [_ [? _]%Forall_cons]).
    rewrite (has_aggregation_item _ Hitem) in Hagg. apply lift_Ok in Hagg as [[= <-] ->].
    apply M_bind_Ok in Hp as (b' & s2 & Hb & Hp). injection Hp as <- <-.
    assert (aliases_sound items s ∧ entered (pre ++ [item]) s) as [Hs' He'].
    { destruct (match item with AliasExpression _ _ => true | _ => false end) eqn:Ha.
      - destruct item as [|n e| | | | | | | | | |]; try done.
        assert (PlanExpression (AliasExpression n e) [cl] ≫= (λ _, mret ()) = match e with AggregateExpression _ _ _ => mret () | _ => PlanExpression (AliasExpression n e) [cl] ≫= (λ _, mret ()) end) as Hx
          by by destruct e.
        rewrite <- Hx in Hu. clear Hx. apply M_bind_Ok in Hu as (p & s' & Hp & Hu). injection Hu as <- <-.
        destruct (plan_item (AliasExpression n e) st p s' Hitem Hs) as (Hs1 & _ & _ & Hn & Hm); [|done|].
        + intros n' e' [= <- <-] Hno. rewrite Hi, first_alias_app. destruct (first_alias pre n) eqn:Hf; [by destruct (He n); rewrite ?Hf|].
          simpl. by rewrite decide_True.
        + split; [done|]. intros n'. rewrite first_alias_app. destruct (first_alias pre n') eqn:Hf; intros Hx; [apply Hm, He; by rewrite Hf|].
          simpl in Hx. destruct (decide (n = n')) as [->|]; [by eapply Hn|done].
      - assert (u = () ∧ s = st) as [_ ->] by (destruct item; try done; by apply mret_Ok in Hu as [<- ->]).
        split; [done|]. intros n'. rewrite first_alias_app. intros Hn'. apply He. destruct (first_alias pre n'); [done|]. by destruct item. }
    apply (IH (pre ++ [item]) s b' s2); [by rewrite <- app_assoc|done..].
Qed.

(** The second one. *)
Lemma plan_items_sound l : ∀ st ps st', l ⊆ items → Forall item_ok l → aliases_sound items st → entered items st →
  seqM (map (λ item, PlanExpression item [cl]) l) st = (Ok ps, st') →
  aliases_sound items st' ∧ Forall2 (λ item p, computes (item_expression item) (pl_expr p) ∧ pl_name p = item_name item) l ps.
Proof.
  assert (∀ n e, AliasExpression n e ∈ items → first_alias items n ≠ None) as Hin.
  { intros n e. induction items as [|x l' IH]; [by intros ?%elem_of_nil|]. intros [<-|Hl]%elem_of_cons; simpl.
    - by rewrite decide_True.
    - destruct x; simpl; try by apply IH. case_decide; [done|by apply IH]. }
  induction l as [|item l IH]; intros st ps st' Hl Hok Hs He Hp; [by injection Hp as <- <-|].
  simpl in Hp. inv_run. apply Forall_cons in Hok as [Hitem Hok].
  destruct (plan_item item st a s Hitem Hs) as (Hs1 & Hc & Hn & _ & Hm); [|done|].
  { intros n e -> Hno. destruct (He n); [|done]. apply (Hin n e). apply Hl. by left. }
  apply IH in Hr0 as [Hs2 Hps]; [split; [done|by constructor]| |done|done|].
  - intros x Hx. apply Hl. by right.
  - intros n Hf. by apply Hm, He.
Qed.
End Aliases.

(** ** The meaning of a SELECT without aggregates *)

Fixpoint filterR {A} (f : A → res bool) (l : list A) : res (list A) :=
  match l with [] => Ok [] | x :: l => b ← f x; rest ← filterR f l; Ok (if b : bool then x :: rest else rest) end.
(** OFFSET, then LIMIT *)
Definition slice {A} (count offset : option Z) (l : list A) : list A :=
  let l := drop (Z.to_nat (default 0 offset)) l in
  match count with Some n => take (Z.to_nat n) l | None => l end.

Section Select.
Context `{Ecma} `{StdSort}.

Definition where_keeps (s : SelectStatement) (cl : ColumnList) (r : Rec) : res bool :=
  match where_ s with
  | None => Ok true
  | Some e => v ← Bound_Evaluate (column_value cl r) e; if IsNull v then Ok false else GetValue_bool v
  end.

(** The keys are compared by what they mean, from the last one to the first. *)
Definition bound_cmp (items : list Expression) (cl : ColumnList) (o : OrderByType * Expression) (a b : Rec) : res bool :=
  x ← Bound_Evaluate (named_value items cl a) o.2; y ← Bound_Evaluate (named_value items cl b) o.2;
  match o.1 with DEFAULT | ASC => Less x y | DESC => Greater x y end.
Fixpoint bound_sort (items : list Expression) (cl : ColumnList) (order_by : list (OrderByType * Expression)) (rs : list Rec) : res (list Rec) :=
  match order_by with
  | [] => Ok rs
  | o :: order_by => rs ← bound_sort items cl order_by rs; std_sort (bound_cmp items cl o) rs
  end.

(** LIMIT and OFFSET may name columns, which the empty record does not have. *)
Definition count_value (cl : ColumnList) (clause : option Expression) : res (option Z) :=
  match clause with
  | None => Ok None
  | Some e => v ← Bound_Evaluate (column_value cl Record_default) e; n ← GetValue_int v; Ok (Some n)
  end.

Definition bound_project (items : list Expression) (cl : ColumnList) (r : Rec) : res Rec :=
  vs ← seqR (map (Bound_Evaluate (column_value cl r)) items); mk_Record vs (GetRid r).

(** The answers to a SELECT over the rows of its FROM clause. *)
Definition select_meaning (s : SelectStatement) (cl : ColumnList) (rows : list Rec) : res (list Rec) :=
  rows ← filterR (where_keeps s cl) rows;
  rows ← (if decide (rows = []) then Ok [] else bound_sort (select_list_ s) cl (order_by_ s) rows);
  count ← count_value cl (limit_count_ s);
  offset ← count_value cl (limit_offset_ s);
  seqR (map (bound_project (select_list_ s) cl) (slice count offset rows)).

Lemma all_rows_inv t rs : all_rows t = Ok rs → t = rows_of rs.
Proof. revert rs. induction t as [| |r t IH]; intros rs Ht; simpl in Ht; [by simplify_eq|done|]. inv_bind. by erewrite <- IH. Qed.

Lemma filter_rows_of p f rs ks : (∀ r, keeps p r = f r) → filterR f rs = Ok ks → filter_rows p (rows_of rs) = rows_of ks.
Proof.
  intros Hp. revert ks. induction rs as [|r rs IH]; intros ks Hk; simpl in *; [by simplify_eq|]. inv_bind.
  rewrite Hp, Hb, (IH _ Hb0). by destruct a.
Qed.

Lemma skip_rows_of n rs : skip_rows n (rows_of rs) = Ok (rows_of (drop n rs)).
Proof. revert rs. induction n as [|n IH]; intros [|r rs]; simpl; try done. Qed.
Lemma take_rows_of n rs : take_rows n (rows_of rs) = rows_of (take n rs).
Proof. revert rs. induction n as [|n IH]; intros [|r rs]; simpl; try done. by rewrite IH. Qed.
Lemma limit_rows_of c o rs : limit_rows c o (rows_of rs) = rows_of (slice c o rs).
Proof. unfold limit_rows, slice. rewrite skip_rows_of. destruct c; [apply take_rows_of|done]. Qed.

Lemma project_rows_of es f rs ks : (∀ r, project es r = f r) → seqR (map f rs) = Ok ks → project_rows es (rows_of rs) = rows_of ks.
Proof.
  intros Hp. revert ks. induction rs as [|r rs IH]; intros ks Hk; simpl in *; [by simplify_eq|]. inv_bind.
  by rewrite Hp, Hb, (IH _ Hb0).
Qed.

Lemma evaluate_all_means cl items ps r : Forall2 (λ item p, computes cl item p) items ps →
  evaluate_all ps (Some r) = seqR (map (Bound_Evaluate (column_value cl r)) items).
Proof. induction 1 as [|item p items ps Hc _ IH]; [done|]. simpl. by rewrite Hc, IH. Qed.

Lemma sort_all_means items cl order_by its rs :
  Forall2 (λ o it, o.1 = it.1 ∧ ∀ r, Evaluate it.2 (Some r) = Bound_Evaluate (named_value items cl r) o.2) order_by its →
  sort_all its rs = bound_sort items cl order_by rs.
Proof.
  induction 1 as [|[t e] [t' p] order_by its [Ht Hp] _ IH]; [done|]. simpl in *. subst. rewrite IH.
  assert (order_cmp (t', p) = bound_cmp items cl (t', e)) as -> ; [|done].
  extensionality a. extensionality b. unfold order_cmp, bound_cmp. simpl. by rewrite !Hp.
Qed.
End Select.

(** ** The names of the output *)

Lemma infer_length kinds exprs : ∀ idx cl cl', infer_numbered kinds idx exprs cl = Ok cl' →
  length (columns_ cl') = (length (columns_ cl) + length exprs)%nat.
Proof.
  induction exprs as [|e exprs IH]; intros idx cl cl' Hi; simpl in Hi; [simplify_eq; simpl; lia|].
  apply bind_Ok in Hi as (c & _ & Hi). rewrite (IH _ _ _ Hi). simpl. rewrite length_app. simpl. lia.
Qed.
Lemma rename_names cols : ∀ ns cl cl', rename_columns cols ns cl = Ok cl' → length ns = length cols →
  names cl' = names cl ++ ns.
Proof.
  induction cols as [|c cols IH]; intros [|n ns] cl cl' Hr Hl; simpl in *; try done; [simplify_eq; by rewrite app_nil_r|].
  injection Hl as Hl. rewrite (IH _ _ _ Hr Hl). unfold names, AddColumn. simpl. by rewrite fmap_app, <- app_assoc.
Qed.
Lemma output_names exprs ns inferred cl : length ns = length exprs → InferColumnList exprs = Ok inferred →
  RenameColumnList inferred ns = Ok cl → names cl = ns.
Proof.
  intros Hl Hi Hr. rewrite (rename_names _ _ _ _ Hr); [done|]. by rewrite Hl, (infer_length _ _ _ _ _ Hi).
Qed.

(** ** The plan of a SELECT *)

(** No aggregates, the columns are those of the tables, and ORDER BY may name
    aliases. *)
Record select_ok (s : SelectStatement) (cl : ColumnList) : Prop := {
  so_where : ∀ e, where_ s = Some e → plain (in_columns cl) true e = true;
  so_items : Forall (item_ok cl) (select_list_ s);
  so_order : Forall (λ o, plain (λ _, true) true o.2 = true) (order_by_ s);
  so_count : ∀ e, limit_count_ s = Some e → plain (in_columns cl) true e = true;
  so_offset : ∀ e, limit_offset_ s = Some e → plain (in_columns cl) true e = true;
  so_group : group_by_ s = [];
  so_distinct : distinct_ s = false
}.

Section Steps.
Context `{Fmt} `{Ecma} `{StdSort} (s : SelectStatement) (cl : ColumnList).
Hypothesis Hok : select_ok s cl.

(** The new plan has the columns [cl] too and delivers what [f] makes of the rows of
    the old one. *)
Definition step (f : list Rec → res (list Rec)) (plan plan' : Operator) : Prop :=
  OutputColumns plan' = cl ∧
  ∀ ctx active tabs rs ks, plan_rows ctx active tabs plan = rows_of rs → f rs = Ok ks → plan_rows ctx active tabs plan' = rows_of ks.

Definition order_meaning (rs : list Rec) : res (list Rec) :=
  if decide (rs = []) then Ok [] else bound_sort (select_list_ s) cl (order_by_ s) rs.
Definition limit_meaning (rs : list Rec) : res (list Rec) :=
  count ← count_value cl (limit_count_ s); offset ← count_value cl (limit_offset_ s); Ok (slice count offset rs).

Lemma where_step plan st plan' st' : OutputColumns plan = cl → plan_where s plan st = (Ok plan', st') →
  st' = st ∧ step (filterR (where_keeps s cl)) plan plan'.
Proof using Hok.
  intros Hcl Hp. unfold plan_where, where_keeps in *. destruct (where_ s) as [e|] eqn:He.
  - inv_run. rewrite Hcl in *. destruct (plain_computes cl e (so_where _ _ Hok _ He) _ _ _ Hr) as [-> Hc].
    split; [done|]. split; [done|]. intros ctx active tabs rs ks Hrs Hks. simpl. rewrite Hrs. eapply filter_rows_of; [|exact Hks].
    intros r. unfold keeps. by rewrite Hc.
  - inv_run. split; [done|]. split; [done|]. intros ctx active tabs rs ks Hrs Hks. rewrite Hrs. f_equal.
    clear -Hks. revert ks Hks. induction rs as [|r rs IH]; intros ks Hks; simpl in Hks; [by simplify_eq|].
    inv_bind. f_equal. by apply IH.
Qed.

Lemma order_step plan st plan' st' : aliases_sound cl (select_list_ s) st → OutputColumns plan = cl →
  plan_order_by s plan st = (Ok plan', st') → st' = st ∧ step order_meaning plan plan'.
Proof using Hok.
  intros Hs Hcl Hp. unfold plan_order_by in Hp. case_bool_decide as Ho.
  - inv_run. split; [done|]. split; [done|]. intros ctx active tabs rs ks Hrs Hks. unfold order_meaning in Hks.
    rewrite Ho in Hks. simpl in Hks. case_decide; simplify_eq; done.
  - inv_run. rewrite Hcl in *.
    destruct (seqM_inv (λ o, p ← PlanExpression o.2 [cl]; mret (o.1, pl_expr p)) (aliases_sound cl (select_list_ s))
      (λ o it, o.1 = it.1 ∧ ∀ r, Evaluate it.2 (Some r) = Bound_Evaluate (named_value (select_list_ s) cl r) o.2) (order_by_ s)) with (3 := Hr)
      as [-> Hits]; [|done|].
    { eapply Forall_impl; [exact (so_order _ _ Hok)|]. intros o Hpl st0 b st1 Hst Hb. inv_run.
      by destruct (order_computes cl _ _ Hpl _ _ _ Hst Hr0) as [-> Hc]. }
    split; [done|]. split; [done|]. intros ctx active tabs rs ks Hrs Hks. simpl. unfold order_rows. rewrite Hrs, all_rows_of. simpl.
    unfold order_meaning in Hks. by rewrite (sort_all_means _ _ _ _ _ Hits), Hks.
Qed.

Lemma count_step clause st o st' message : (∀ e, clause = Some e → plain (in_columns cl) true e = true) →
  plan_count clause cl message st = (Ok o, st') → st' = st ∧ count_value cl clause = Ok o.
Proof.
  intros Hpl Hp. unfold plan_count in Hp. destruct clause as [e|]; [|by inv_run]. inv_run.
  destruct (plain_computes cl e (Hpl _ eq_refl) _ _ _ Hr) as [-> Hc]. unfold count_value. rewrite <- Hc, Hr0. simpl.
  rewrite Hr1. simpl. destruct (_ <? 0); [done|]. inv_run. done.
Qed.

Lemma limit_step plan st plan' st' : OutputColumns plan = cl → plan_limit s plan st = (Ok plan', st') →
  st' = st ∧ step limit_meaning plan plan'.
Proof using Hok.
  intros Hcl Hp. unfold plan_limit in Hp. rewrite Hcl in Hp. unfold step, limit_meaning. destruct (is_some _ || is_some _) eqn:Hl.
  - inv_run. destruct (count_step _ _ _ _ _ (so_count _ _ Hok) Hr) as [-> Hc].
    destruct (count_step _ _ _ _ _ (so_offset _ _ Hok) Hr0) as [-> Ho].
    split; [done|]. split; [done|]. intros ctx active tabs rs ks Hrs Hks. rewrite Hc, Ho in Hks. injection Hks as <-.
    simpl. rewrite Hrs. apply limit_rows_of.
  - inv_run. apply orb_false_iff in Hl as [Hl Hm]. split; [done|]. split; [done|].
    intros ctx active tabs rs ks Hrs Hks. destruct (limit_count_ s), (limit_offset_ s); try done. injection Hks as <-. done.
Qed.

Lemma lock_step plan st plan' st' : OutputColumns plan = cl → plan_lock s plan st = (Ok plan', st') → st' = st ∧ step Ok plan plan'.
Proof.
  intros Hcl Hp. unfold plan_lock in Hp.
  assert (∀ ctx active tabs rs ks, plan_rows ctx active tabs plan = rows_of rs → Ok rs = Ok ks → plan_rows ctx active tabs plan = rows_of ks)
    as Hsame by (by intros ctx active tabs rs ks ? [= <-]).
  destruct (lock_type_ s), (sel_table_ s); try (inv_run; done).
Qed.

(** The select list on what is left. *)
Lemma projection_step ps plan st plan' st' :
  Forall2 (λ item p, computes cl (item_expression item) (pl_expr p) ∧ pl_name p = item_name item) (select_list_ s) ps →
  OutputColumns plan = cl → plan_projection s ps plan st = (Ok plan', st') →
  names (OutputColumns plan') = item_name <$> select_list_ s ∧
  ∀ ctx active tabs rs ks, plan_rows ctx active tabs plan = rows_of rs → seqR (map (bound_project (select_list_ s) cl) rs) = Ok ks →
    plan_rows ctx active tabs plan' = rows_of ks.
Proof using Hok.
  intros Hps Hcl Hp. unfold plan_projection in Hp. inv_run. rewrite (so_distinct _ _ Hok). split.
  - simpl. assert (length (pl_name <$> ps) = length (pl_expr <$> ps)) as Hl by by rewrite !length_fmap.
    rewrite (output_names _ _ _ _ Hl Hr Hr0).
    clear -Hps. induction Hps as [|item p items ps [_ Hn] _ IH]; [done|]. rewrite !fmap_cons. by rewrite Hn, IH.
  - intros ctx active tabs rs ks Hrs Hks. simpl. rewrite Hrs. eapply project_rows_of; [|exact Hks].
    intros r. unfold project, bound_project. f_equal. clear -Hps.
    induction Hps as [|item p items ps [Hc _] _ IH]; [done|]. rewrite fmap_cons. cbn [evaluate_all map seqR].
    rewrite Hc, IH. by destruct item.
Qed.
End Steps.

Lemma aliases_sound_new `{Ecma} cl items : aliases_sound cl items Planner_new.
Proof. by split. Qed.

(** C2: the plan of a SELECT without aggregates answers what the clauses say, by
    column names: it keeps the rows of FROM on which WHERE is true, sorts them by the
    meanings of the ORDER BY keys, an alias being what the first item with it stands
    for, cuts out OFFSET and LIMIT and computes the select list on what is left; its
    output columns have the names of the items. *)
Theorem select_plan_answers `{Fmt} `{Ecma} `{StdSort} force_join s scan plan st :
  plan_from force_join s Planner_new = (Ok scan, Planner_new) → select_ok s (OutputColumns scan) →
  PlanSelect force_join s Planner_new = (Ok plan, st) →
  names (OutputColumns plan) = item_name <$> select_list_ s ∧
  ∀ ctx active tabs rows answers, all_rows (plan_rows ctx active tabs scan) = Ok rows →
    select_meaning s (OutputColumns scan) rows = Ok answers → all_rows (plan_rows ctx active tabs plan) = Ok answers.
Proof.
  intros Hfrom Hok Hp. unfold PlanSelect in Hp. rewrite (M_bind_step _ _ _ _ _ Hfrom) in Hp. set (cl := OutputColumns scan) in *.
  apply M_bind_Ok in Hp as (p1 & s1 & H1' & Hp). destruct (where_step s cl Hok _ _ _ _ eq_refl H1') as [-> [Hc1 Hw]].
  apply M_bind_Ok in Hp as (agg & s2 & H2' & Hp). rewrite Hc1 in H2'.
  destruct (add_aliases_sound cl (select_list_ s) (select_list_ s) [] _ _ _ eq_refl (so_items _ _ Hok) (aliases_sound_new _ _) (λ n Hn, False_ind _ (Hn eq_refl)) H2') as (-> & Hs2 & He2).
  rewrite bool_decide_eq_true_2 in Hp by apply (so_group _ _ Hok). cbn [orb negb] in Hp.
  rewrite (M_bind_step _ _ s2 s2 (p1, s)), Hc1 in Hp by done.
  apply M_bind_Ok in Hp as (ps & s3 & H3' & Hp).
  destruct (plan_items_sound cl (select_list_ s) (select_list_ s) _ _ _ ltac:(reflexivity) (so_items _ _ Hok) Hs2 He2 H3') as [Hs3 Hps].
  apply M_bind_Ok in Hp as (p4 & s4 & H4' & Hp). destruct (order_step s cl Hok _ _ _ _ Hs3 Hc1 H4') as [-> [Hc4 Ho]].
  apply M_bind_Ok in Hp as (p5 & s5 & H5' & Hp). destruct (limit_step s cl Hok _ _ _ _ Hc4 H5') as [-> [Hc5 Hl]].
  apply M_bind_Ok in Hp as (p6 & s6 & H6' & Hp). destruct (lock_step s cl _ _ _ _ Hc5 H6') as [-> [Hc6 Hk]].
  destruct (projection_step s cl Hok _ _ _ _ _ Hps Hc6 Hp) as [Hn Hj]. split; [done|].
  intros ctx active tabs rows answers Hrows Hm. apply all_rows_inv in Hrows. unfold select_meaning in Hm.
  apply bind_Ok in Hm as (ks & Hks & Hm). apply bind_Ok in Hm as (os & Hos & Hm). apply bind_Ok in Hm as (n & Hn' & Hm).
  apply bind_Ok in Hm as (m & Hm' & Hm). rewrite (Hj _ _ _ _ _ (Hk _ _ _ _ _ (Hl _ _ _ _ (slice n m os) (Ho _ _ _ _ _ (Hw _ _ _ _ _ Hrows Hks) Hos) ltac:(unfold limit_meaning; by rewrite Hn', Hm')) eq_refl) Hm).
  apply all_rows_of.
Qed.

(** ** Examples *)

#[local] Instance ex_fmt : Fmt := { fmt_double := λ _, ""; fmt_vector := String.concat ", " }.
Definition ex_ref : BaseTableRef := mkBaseTable "t" None 10001 ex_schema.
Definition ex_column_ref (name : string) : Expression := ColumnRefExpression ["t"; name].
Definition ex_int (z : Z) : Expression := ConstExpression (Value_int z).
(** SELECT c AS x, a + 1 FROM t WHERE a > 1 ORDER BY x DESC LIMIT 1 *)
Definition ex_select : SelectStatement :=
  mkSelect (BaseTable ex_ref) [AliasExpression "x" (ex_column_ref "c"); BinaryOpExpression "+" (ex_column_ref "a") (ex_int 1)]
    (Some (BinaryOpExpression ">" (ex_column_ref "a") (ex_int 1))) [] None [(DESC, ColumnRefExpression ["x"])]
    (Some (ex_int 1)) None NOLOCK false.
Definition ex_stored (a : Z) (c : string) : Rec :=
  match mk_Record [Value_int a; Value_null; Value_string c VARCHAR; Value_bool true] (mkRid 0 0) with
  | Ok r => stamp r 5 1
  | Err _ => Record_default
  end.
Definition ex_rows3 : gmap Z (Table * list (list Rec)) := {[10001 := (ex_table, [[ex_stored 1 "p"; ex_stored 2 "q"; ex_stored 3 "r"]])]}.

Lemma select_plan_answers_witness :
  ∃ plan st r, PlanSelect FJ_NONE ex_select Planner_new = (Ok plan, st) ∧
    names (OutputColumns plan) = ["x"; "<no_name>"]%string ∧
    all_rows (plan_rows (H0 := insertion_sort) ex_ctx {[5]} ex_rows3 plan) = Ok [r] ∧
    rvalues_ r = [Value_string "r" VARCHAR; Value_int 4].
Proof.
  destruct (PlanSelect FJ_NONE ex_select Planner_new) as [[plan|x] st] eqn:Hp; [|vm_compute in Hp; discriminate].
  destruct (plan_from FJ_NONE ex_select Planner_new) as [[scan|x] st0] eqn:Hf; [|vm_compute in Hf; discriminate].
  assert (st0 = Planner_new) as -> by (vm_compute in Hf; injection Hf as _ <-; reflexivity).
  assert (select_ok ex_select (OutputColumns scan)) as Hok.
  { vm_compute in Hf. injection Hf as <-. split; try (by intros e [= <-]); repeat constructor. }
  destruct (select_plan_answers (H1 := insertion_sort) FJ_NONE ex_select scan plan st Hf Hok Hp) as [Hn Ha].
  assert (∃ rows r, all_rows (plan_rows (H0 := insertion_sort) ex_ctx {[5]} ex_rows3 scan) = Ok rows ∧
    select_meaning (H0 := insertion_sort) ex_select (OutputColumns scan) rows = Ok [r] ∧ rvalues_ r = [Value_string "r" VARCHAR; Value_int 4])
    as (rows & r & Hrows & Hm & Hv).
  { vm_compute in Hf. injection Hf as <-. do 2 eexists. split; [vm_compute; reflexivity|]. split; [vm_compute; reflexivity|reflexivity]. }
  exists plan, st, r. split; [reflexivity|]. split; [exact Hn|]. split; [exact (Ha _ _ _ _ _ Hrows Hm)|exact Hv].
Defined.
