(* ===== verification/Optimizer.v ===== *)
(** [src/src/optimizer/optimizer.h] and [optimizer.cpp]: conjunctions are split
    into filters, comparisons move down to scans and joins, joins are reordered. *)
From Stdlib Require Import Ascii.
From S2P Require Import Prelude Types Value Column Record LockManager Visibility Table TableScan Like Expressions Executor Pipeline OrderBy Join Query Select Plan Texts Bound.

(** What the optimizer asks the catalog, whose state is [S]. *)
Class CatalogStatistics (S : Type) := {
  GetTableNames : M S (list string);
  GetTableColumnList : S → string → res ColumnList;
  GetCardinality : S → string → Z;
  GetDistinct : S → string → string → Z
}.

(** ** Splitting predicates *)

(** What [split] makes of a child that is a filter: [x and y] becomes the filter
    [y] over the filter [x], which is split again; [y] is not. *)
Fixpoint split_filter (column_list : ColumnList) (predicate : OperatorExpression) (child : Operator) : Operator :=
  match predicate with
  | Logic AND e0 (Some e1) => FilterOperator column_list (split_filter column_list e0 child) e1
  | _ => FilterOperator column_list child predicate
  end.

(** A child after the loop of [split], with its own children split. *)
Fixpoint split_child (child : Operator) : Operator :=
  match child with
  | FilterOperator cl c predicate => split_filter cl predicate (split_child c)
  | AggregateOperator cl c g a d t => AggregateOperator cl (split_child c) g a d t
  | DeleteOperator cl c oid => DeleteOperator cl (split_child c) oid
  | HashJoinOperator cl l r k0 k1 t => HashJoinOperator cl (split_child l) (split_child r) k0 k1 t
  | InsertOperator cl c cols oid => InsertOperator cl (split_child c) cols oid
  | LimitOperator cl c n m => LimitOperator cl (split_child c) n m
  | LockRowsOperator cl c oid t => LockRowsOperator cl (split_child c) oid t
  | MergeJoinOperator cl l r k0 k1 t => MergeJoinOperator cl (split_child l) (split_child r) k0 k1 t
  | NestedLoopJoinOperator cl l r condition t => NestedLoopJoinOperator cl (split_child l) (split_child r) condition t
  | OrderByOperator cl c order_bys => OrderByOperator cl (split_child c) order_bys
  | ProjectionOperator cl c exprs => ProjectionOperator cl (split_child c) exprs
  | SeqScanOperator _ _ _ _ _ | ValuesOperator _ _ => child
  | UpdateOperator cl c oid exprs => UpdateOperator cl (split_child c) oid exprs
  end.

(** [split]: the root itself stays, also when it is a filter. *)
Definition split (plan : Operator) : Operator :=
  match plan with
  | FilterOperator cl c predicate => FilterOperator cl (split_child c) predicate
  | _ => split_child plan
  end.
Definition SplitPredicates (plan : Operator) : Operator := split plan.

(** The loop body, as the code has it: the conjunction is taken apart, then the
    child is split like a root. *)
Definition take_apart (child : Operator) : Operator :=
  match child with
  | FilterOperator cl c (Logic AND e0 (Some e1)) => FilterOperator cl (FilterOperator cl c e0) e1
  | _ => child
  end.
Lemma split_child_loop child : split_child child = split (take_apart child).
Proof.
  destruct child as [| |cl c p| | | | | | | | | | |]; try done. simpl.
  destruct p as [| | | |[] e0 [e1|]| | | |]; done.
Qed.

(** ** Pushing predicates down *)

(** The members; [name_1] and [name_2] hold names only from one line to the next. *)
Record Optimizer := mkOptimizer {
  is_connected : list bool;
  filter_predicate : list OperatorExpression;
  success : bool
}.
Definition Optimizer_new : Optimizer := mkOptimizer [] [] false.
Definition set_success (b : bool) (o : Optimizer) : Optimizer := mkOptimizer (is_connected o) (filter_predicate o) b.

Definition is_column (e : OperatorExpression) : bool := match e with ColumnValue _ _ _ _ _ => true | _ => false end.
Definition is_connect (predicate : OperatorExpression) : bool :=
  match predicate with Comparison _ e0 e1 => is_column e0 && is_column e1 | _ => false end.
Definition is_comparison (e : OperatorExpression) : bool := match e with Comparison _ _ _ => true | _ => false end.

(** A comparison is remembered, and whether it joins for every predicate: after
    one that is no comparison the two vectors are out of step. *)
Definition remember (predicate : OperatorExpression) (o : Optimizer) : Optimizer :=
  mkOptimizer (is_connected o ++ [is_connect predicate])
    (if is_comparison predicate then filter_predicate o ++ [predicate] else filter_predicate o) false.

(** [filter_pred->children_[i]->ToString()] *)
Definition operand_text `{Fmt} (right : bool) (predicate : OperatorExpression) : res string :=
  match predicate with
  | Comparison _ e0 e1 => Expression_ToString (if right then e1 else e0)
  | _ => Err (Undefined "vector index out of range")
  end.

(** The part of a name before the first dot, nothing without a dot. *)
Fixpoint before_dot (s : string) : option string :=
  match s with
  | "" => None
  | String c s => if decide (c = "."%char) then Some "" else String c <$> before_dot s
  end%string.

Section Code.
Context `{Fmt}.

(** The loops over the remembered predicates. *)
Fixpoint find_join (column_names : list string) (l : list (OperatorExpression * bool)) : res (option OperatorExpression) :=
  match l with
  | [] => Ok None
  | (filter_pred, connect) :: l =>
      name_1 ← operand_text false filter_pred; name_2 ← operand_text true filter_pred;
      if (connect : bool) && bool_decide (name_1 ∈ column_names) && bool_decide (name_2 ∈ column_names)
      then Ok (Some filter_pred) else find_join column_names l
  end.
Fixpoint find_scan (table : string) (l : list (OperatorExpression * bool)) : res (option OperatorExpression) :=
  match l with
  | [] => Ok None
  | (filter_pred, connect) :: l =>
      name_1 ← operand_text false filter_pred;
      if negb connect && bool_decide (default "" (before_dot name_1) = table) then Ok (Some filter_pred) else find_scan table l
  end.
Definition predicates (o : Optimizer) : list (OperatorExpression * bool) := zip (filter_predicate o) (is_connected o).

Definition GetTableNameOrAlias (table_name : string) (alias : option string) : string := default table_name alias.

Fixpoint PushDown (plan : Operator) : M Optimizer Operator :=
  match plan with
  | FilterOperator cl c predicate =>
      modify (remember predicate) ;;
      c ← PushDown c;
      o ← get;
      mret (if success o then c else FilterOperator cl c predicate)
  | ProjectionOperator cl c exprs => c ← PushDown c; mret (ProjectionOperator cl c exprs)
  | NestedLoopJoinOperator cl l r join_condition join_type =>
      o ← get;
      found ← lift (find_join (name_ <$> columns_ cl) (predicates o));
      match found with Some _ => modify (set_success true) | None => mret () end ;;
      l ← PushDown l;
      r ← PushDown r;
      mret (NestedLoopJoinOperator cl l r (default join_condition found) join_type)
  | SeqScanOperator cl _ table_name alias _ =>
      o ← get;
      found ← lift (find_scan (GetTableNameOrAlias table_name alias) (predicates o));
      match found with
      | Some filter_pred => modify (set_success true) ;; mret (FilterOperator cl plan filter_pred)
      | None => mret plan
      end
  | AggregateOperator cl c g a d t => mret (AggregateOperator cl (SplitPredicates c) g a d t)
  | DeleteOperator cl c oid => mret (DeleteOperator cl (SplitPredicates c) oid)
  | HashJoinOperator cl l r k0 k1 t => mret (HashJoinOperator cl (SplitPredicates l) (SplitPredicates r) k0 k1 t)
  | InsertOperator cl c cols oid => mret (InsertOperator cl (SplitPredicates c) cols oid)
  | LimitOperator cl c n m => mret (LimitOperator cl (SplitPredicates c) n m)
  | LockRowsOperator cl c oid t => mret (LockRowsOperator cl (SplitPredicates c) oid t)
  | MergeJoinOperator cl l r k0 k1 t => mret (MergeJoinOperator cl (SplitPredicates l) (SplitPredicates r) k0 k1 t)
  | OrderByOperator cl c order_bys => mret (OrderByOperator cl (SplitPredicates c) order_bys)
  | UpdateOperator cl c oid exprs => mret (UpdateOperator cl (SplitPredicates c) oid exprs)
  | ValuesOperator _ _ => mret plan
  end.

(** ** Reordering joins *)

(** Is there a nested loop join? The root does not count. *)
Fixpoint has_join (plan : Operator) : bool :=
  match plan with
  | NestedLoopJoinOperator _ _ _ _ _ => true
  | FilterOperator _ c _ | AggregateOperator _ c _ _ _ _ | DeleteOperator _ c _ | InsertOperator _ c _ _
  | LimitOperator _ c _ _ | LockRowsOperator _ c _ _ | OrderByOperator _ c _ | ProjectionOperator _ c _
  | UpdateOperator _ c _ _ => has_join c
  | HashJoinOperator _ l r _ _ _ | MergeJoinOperator _ l r _ _ _ => has_join l || has_join r
  | SeqScanOperator _ _ _ _ _ | ValuesOperator _ _ => false
  end.
Definition has_join_below (plan : Operator) : bool :=
  match plan with NestedLoopJoinOperator _ l r _ _ => has_join l || has_join r | _ => has_join plan end.

Context {S : Type} `{CatalogStatistics S}.

(** GREEDY reads the statistics, and at the first join it compares an iterator of
    [tables] with the end of [table_names], which is undefined. *)
Definition ReorderJoin (join_order_algorithm : JoinOrderAlgorithm) (plan : Operator) : M S Operator :=
  match join_order_algorithm with
  | JO_GREEDY =>
      table_names ← GetTableNames;
      s ← get;
      lift (seqR (map (GetTableColumnList s) table_names)) ;;
      if has_join_below plan then throw (Undefined "comparison of iterators of different vectors") else mret plan
  | _ => mret plan
  end.

Definition Optimize (join_order_algorithm : JoinOrderAlgorithm) (enable_projection_pushdown : bool) (plan : Operator) : M S Operator :=
  plan ← lift (PushDown (SplitPredicates plan) Optimizer_new).1;
  ReorderJoin join_order_algorithm plan.
End Code.

(** ** Splitting keeps the answers *)

(** [u] answers what [t] answers, as long as [t] does not fail. *)
Inductive refines : rows → rows → Prop :=
| refines_fail x u : refines (Fail x) u
| refines_done : refines Done Done
| refines_row r t u : refines t u → refines (Row r t) (Row r u).
#[export] Hint Constructors refines : core.

#[export] Instance refines_refl : Reflexive refines.
Proof. intros t. induction t; auto. Qed.
#[export] Instance refines_trans : Transitive refines.
Proof.
  intros t u v Htu. revert v. induction Htu; intros v Huv; [auto|by inversion Huv|].
  inversion Huv; subst; auto.
Qed.

Lemma refines_all t u rs : refines t u → all_rows t = Ok rs → all_rows u = Ok rs.
Proof.
  intros Htu. revert rs. induction Htu as [| |r t u Htu IH]; intros rs Ht; [done|done|].
  simpl in *. apply bind_Ok in Ht as (rs' & Ht & [= <-]). by rewrite (IH _ Ht).
Qed.

(** Where all records are read first. *)
Lemma refines_after_all {A} (f : list Rec → res A) (g : A → rows) t u : refines t u →
  refines match (rs ← all_rows t; f rs) with Ok a => g a | Err x => Fail x end
          match (rs ← all_rows u; f rs) with Ok a => g a | Err x => Fail x end.
Proof.
  intros Htu. destruct (all_rows t) as [rs|] eqn:Ht; simpl; [|done]. by rewrite (refines_all _ _ _ Htu Ht).
Qed.

Section Monotone.
Context `{Ecma} `{StdSort}.

Lemma refines_filter p t u : refines t u → refines (filter_rows p t) (filter_rows p u).
Proof. intros Htu. induction Htu; simpl; [done|done|]. destruct (keeps p r) as [[]|]; auto. Qed.
Lemma refines_project es t u : refines t u → refines (project_rows es t) (project_rows es u).
Proof. intros Htu. induction Htu; simpl; [done|done|]. destruct (project es r); auto. Qed.
Lemma refines_take n t u : refines t u → refines (take_rows n t) (take_rows n u).
Proof. intros Htu. revert n. induction Htu; intros [|n]; simpl; auto. Qed.
Lemma refines_skip n t u : refines t u →
  match skip_rows n t with Ok t' => ∃ u', skip_rows n u = Ok u' ∧ refines t' u' | Err _ => True end.
Proof.
  intros Htu. revert n. induction Htu; intros [|n]; simpl; eauto.
  exact (IHHtu n).
Qed.
Lemma refines_limit n m t u : refines t u → refines (limit_rows n m t) (limit_rows n m u).
Proof.
  intros Htu. unfold limit_rows. pose proof (refines_skip (Z.to_nat (default 0 m)) _ _ Htu) as Hs.
  destruct (skip_rows _ t) as [t'|x]; [|done]. destruct Hs as (u' & -> & Hu). destruct n; [by apply refines_take|done].
Qed.
Lemma refines_order its t u : refines t u → refines (order_rows its t) (order_rows its u).
Proof. intros Htu. unfold order_rows. by apply (refines_after_all _ rows_of). Qed.
Lemma refines_join collect t t' u u' : refines t t' → refines u u' → refines (join_rows collect t u) (join_rows collect t' u').
Proof.
  intros Ht Hu. unfold join_rows. destruct (all_rows t) as [rs0|] eqn:G0; simpl; [|done].
  rewrite (refines_all _ _ _ Ht G0). simpl. destruct (all_rows u) as [rs1|] eqn:G1; simpl; [|done].
  by rewrite (refines_all _ _ _ Hu G1).
Qed.

(** *** Conjunctions *)

(** Expressions whose values are booleans or NULL. *)
Definition boolean (e : OperatorExpression) : bool :=
  match e with
  | Comparison _ _ _ | Logic _ _ _ | NullTest _ _ => true
  | TypeCast cast_type _ => bool_decide (cast_type = BOOL)
  | _ => false
  end.
Definition truth (v : Value) : Prop := IsNull v = true ∨ ∃ b, v = Value_bool b.

Definition truths (x : res Value) : Prop := ∀ v, x = Ok v → truth v.

Lemma truths_bind {A} (x : res A) f : (∀ a, truths (f a)) → truths (x ≫= f).
Proof. intros Hf v Hv. apply bind_Ok in Hv as (a & _ & Hv). by eapply Hf. Qed.
Lemma truths_bool b : truths (Ok (Value_bool b)).
Proof. intros v [= <-]. right. by eexists. Qed.
Lemma truths_null : truths (Ok Value_null).
Proof. intros v [= <-]. by left. Qed.
Lemma truths_err x : truths (Err x).
Proof. intros v [=]. Qed.
Ltac truths := repeat first
  [apply truths_bool|apply truths_null|apply truths_err|apply truths_bind; intros|case_match|case_decide|unfold unsupported].

Lemma boolean_truth e r v : boolean e = true → Evaluate e r = Ok v → truth v.
Proof.
  intros Hb. revert v. change (truths (Evaluate e r)). destruct e; try done; simpl in *.
  - unfold Comparison_Evaluate, Comparison_Compute. truths.
  - unfold Logic_Evaluate, Logic_Compute, Not. truths.
  - unfold NullTest_Evaluate, null_test. truths.
  - apply bool_decide_eq_true in Hb as ->. unfold TypeCast_Evaluate, cast, CastAsBool. truths.
Qed.

(** A record kept by a conjunction is kept by both sides, and the other way round. *)
Lemma keeps_and e0 e1 r b : boolean e0 = true → keeps (Logic AND e0 (Some e1)) r = Ok b →
  ∃ b0, keeps e0 r = Ok b0 ∧ if b0 : bool then keeps e1 r = Ok b else b = false.
Proof.
  intros Hb Hk. unfold keeps in *. simpl in Hk. apply bind_Ok in Hk as (v & Hv & Hk).
  unfold Logic_Evaluate in Hv. rewrite decide_False in Hv by done.
  apply bind_Ok in Hv as (v0 & H0' & Hv). apply bind_Ok in Hv as (v1 & H1' & Hv). rewrite H0'. simpl.
  destruct (boolean_truth _ _ _ Hb H0') as [Hn|[b0 ->]].
  - rewrite Hn. exists false. split; [done|]. unfold Logic_Compute in Hv. rewrite Hn in Hv. simpl in Hv. simplify_eq. simpl in Hk. by inversion Hk.
  - exists b0. split; [done|]. change (Logic_Compute AND (Value_bool b0) v1) with
      (if IsNull v1 then Ok Value_null else y ← GetValue_bool v1; Ok (Value_bool (b0 && y))) in Hv.
    rewrite H1'. simpl. destruct (IsNull v1); [injection Hv as <-; injection Hk as <-; by destruct b0|].
    apply bind_Ok in Hv as (b1 & Hb1 & [= <-]). injection Hk as <-. by destruct b0.
Qed.

Lemma refines_conjunction e0 e1 t : boolean e0 = true →
  refines (filter_rows (Logic AND e0 (Some e1)) t) (filter_rows e1 (filter_rows e0 t)).
Proof.
  intros Hb. induction t as [|x|r t IH]; simpl; [done|done|].
  destruct (keeps (Logic AND e0 (Some e1)) r) as [b|x] eqn:Hk; [|done].
  destruct (keeps_and _ _ _ _ Hb Hk) as (b0 & -> & Hb0). destruct b0; simpl; [rewrite Hb0; destruct b; auto|by subst].
Qed.

(** The first operands of the conjunctions that are taken apart. *)
Fixpoint conjuncts_boolean (p : OperatorExpression) : bool :=
  match p with Logic AND e0 (Some _) => boolean e0 && conjuncts_boolean e0 | _ => true end.
Fixpoint filters_boolean (p : Operator) : bool :=
  match p with
  | FilterOperator _ c predicate => conjuncts_boolean predicate && filters_boolean c
  | AggregateOperator _ c _ _ _ _ | DeleteOperator _ c _ | InsertOperator _ c _ _ | LimitOperator _ c _ _
  | LockRowsOperator _ c _ _ | OrderByOperator _ c _ | ProjectionOperator _ c _ | UpdateOperator _ c _ _ => filters_boolean c
  | HashJoinOperator _ l r _ _ _ | MergeJoinOperator _ l r _ _ _ | NestedLoopJoinOperator _ l r _ _ =>
      filters_boolean l && filters_boolean r
  | SeqScanOperator _ _ _ _ _ | ValuesOperator _ _ => true
  end.

Context (ctx : ExecutorContext) (active : gset Z) (tabs : gmap Z (Table * list (list Rec))).
#[local] Notation plan_rows := (plan_rows ctx active tabs).

Lemma split_filter_refines cl p c t : conjuncts_boolean p = true → refines t (plan_rows c) →
  refines (filter_rows p t) (plan_rows (split_filter cl p c)).
Proof.
  intros Hp Ht. induction p; try by apply refines_filter.
  destruct logic_type; try by apply refines_filter. destruct right; [|by apply refines_filter].
  simpl in Hp. apply andb_prop in Hp as [Hb Hp]. simpl. etrans; [by apply refines_conjunction|].
  apply refines_filter. auto.
Qed.
Lemma split_child_refines p : filters_boolean p = true → refines (plan_rows p) (plan_rows (split_child p)).
Proof.
  induction p; simpl; intros Hp; rewrite ?andb_true_iff in Hp; try done; destruct_and?;
    auto using refines_limit, refines_join, refines_order, refines_project.
  apply split_filter_refines; auto.
Qed.
End Monotone.

(** C38: SplitPredicates keeps the answers of a query: wherever the plan answers,
    the plan with its conjunctions taken apart into filters gives the same answers in
    the same order, when the taken-apart conditions are comparisons and the like,
    whose values are booleans or NULL. *)
Theorem split_keeps_answers `{Ecma} `{StdSort} ctx active tabs plan : filters_boolean plan = true →
  refines (plan_rows ctx active tabs plan) (plan_rows ctx active tabs (SplitPredicates plan)).
Proof.
  intros Hp. destruct plan; try by apply split_child_refines.
  simpl in *. apply andb_prop in Hp as [_ Hp]. by apply refines_filter, split_child_refines.
Qed.

(** ** What is left of the filters over a scan *)

(** Filters over a scan, the outermost first. *)
Definition filter_chain (cl : ColumnList) (ps : list OperatorExpression) (c : Operator) : Operator :=
  foldr (λ p c, FilterOperator cl c p) c ps.
Definition is_and (p : OperatorExpression) : bool := match p with Logic AND _ (Some _) => true | _ => false end.
Definition remember_all (ps : list OperatorExpression) (o : Optimizer) : Optimizer := fold_left (λ o p, remember p o) ps o.

Lemma split_chain cl ps c : Forall (λ p, is_and p = false) ps → split_child c = c →
  split_child (filter_chain cl ps c) = filter_chain cl ps c.
Proof.
  intros Hps Hc. induction Hps as [|p ps Hp Hps IH]; [done|]. simpl. rewrite IH.
  destruct p as [| | | |[] ? []| | | |]; done.
Qed.

Section Chain.
Context `{Fmt} (fcl scl : ColumnList) (oid : Z) (table_name : string) (alias : option string) (has_lock : bool).
Let scan : Operator := SeqScanOperator scl oid table_name alias has_lock.
#[local] Notation found o := (find_scan (GetTableNameOrAlias table_name alias) (predicates o)).

Lemma push_chain ps : ∀ o, success (remember_all ps o) = false →
  match found (remember_all ps o) with
  | Ok None => PushDown (filter_chain fcl ps scan) o = (Ok (filter_chain fcl ps scan), remember_all ps o)
  | Ok (Some p) => PushDown (filter_chain fcl ps scan) o = (Ok (FilterOperator scl scan p), set_success true (remember_all ps o))
  | Err x => PushDown (filter_chain fcl ps scan) o = (Err x, remember_all ps o)
  end.
Proof using All.
  induction ps as [|p ps IH]; intros o Ho.
  - cbn [remember_all fold_left filter_chain foldr PushDown scan]. unfold scan. cbn [PushDown]. rewrite get_step.
    destruct (found o) as [[p|]|x]; [by rewrite (lift_step _ _ _ _ eq_refl)..|done].
  - cbn [filter_chain foldr PushDown remember_all fold_left] in *. rewrite modify_step.
    specialize (IH (remember p o) Ho). unfold remember_all in IH.
    change (foldr (λ p c, FilterOperator fcl c p) scan ps) with (filter_chain fcl ps scan).
    destruct (found (fold_left _ ps (remember p o))) as [[q|]|x].
    + rewrite (M_bind_step _ _ _ _ _ IH), get_step. done.
    + rewrite (M_bind_step _ _ _ _ _ IH), get_step, Ho. done.
    + by rewrite (M_bind_err _ _ _ _ _ IH).
Qed.
End Chain.

Lemma remember_all_fails ps : success (remember_all ps Optimizer_new) = false.
Proof.
  unfold remember_all. generalize (eq_refl : success Optimizer_new = false). generalize Optimizer_new.
  induction ps as [|p ps IH]; intros o Ho; [done|]. simpl. by apply IH.
Qed.

(** C39: of the filters over the scan of a table the optimizer keeps one: when a
    remembered comparison names the table, the first of them becomes the only filter,
    and every other condition of the query is dropped; when none does, the plan stays. *)
Theorem one_filter_survives `{Fmt} {S} `{CatalogStatistics S} (s : S) push pcl exprs fcl ps scl oid table_name alias has_lock :
  Forall (λ p, is_and p = false) ps →
  let scan := SeqScanOperator scl oid table_name alias has_lock in
  let plan := ProjectionOperator pcl (filter_chain fcl ps scan) exprs in
  (Optimize JO_NONE push plan s).1 =
  match find_scan (GetTableNameOrAlias table_name alias) (predicates (remember_all ps Optimizer_new)) with
  | Ok None => Ok plan
  | Ok (Some p) => Ok (ProjectionOperator pcl (FilterOperator scl scan p) exprs)
  | Err x => Err x
  end.
Proof.
  intros Hps scan plan. unfold Optimize, plan, SplitPredicates, split. cbn [split_child]. rewrite (split_chain _ _ scan Hps eq_refl).
  cbn [PushDown]. pose proof (push_chain fcl scl oid table_name alias has_lock ps Optimizer_new (remember_all_fails ps)) as Hpush.
  fold scan in Hpush. destruct (find_scan _ _) as [[p|]|x].
  - by rewrite (M_bind_step _ _ _ _ _ Hpush).
  - by rewrite (M_bind_step _ _ _ _ _ Hpush).
  - by rewrite (M_bind_err _ _ _ _ _ Hpush).
Qed.

(** *** Concrete plans *)

Definition ex_a : OperatorExpression := ColumnValue 0 INT "t.a" 4 true.
Definition ex_b : OperatorExpression := ColumnValue 1 INT "t.b" 4 true.
Definition ex_and (e0 e1 : OperatorExpression) : OperatorExpression := Logic AND e0 (Some e1).
Definition ex_below (e : OperatorExpression) (n : Z) : OperatorExpression := Comparison LESS e (Const (Value_int n)).

(** SELECT a FROM (VALUES (1, 5), (3, 4)) WHERE a < 3 AND b < 9. *)
Definition ex_split : Operator :=
  ProjectionOperator ColumnList_empty
    (FilterOperator ColumnList_empty (ValuesOperator ColumnList_empty [ex_values2 1 5; ex_values2 3 4]) (ex_and (ex_below ex_a 3) (ex_below ex_b 9)))
    [ex_a].
Lemma split_keeps_answers_witness : ∃ rs,
  all_rows (plan_rows (H0 := insertion_sort) ex_ctx ∅ ∅ ex_split) = Ok rs ∧ length rs = 1%nat ∧
  refines (plan_rows (H0 := insertion_sort) ex_ctx ∅ ∅ ex_split) (plan_rows (H0 := insertion_sort) ex_ctx ∅ ∅ (SplitPredicates ex_split)).
Proof.
  eexists. split; [reflexivity|]. split; [done|].
  exact (split_keeps_answers (H0 := insertion_sort) ex_ctx ∅ ∅ ex_split eq_refl).
Defined.

(** SELECT a FROM t WHERE t.a < 1 AND t.b < 2 loses its first condition. *)
Definition ex_statistics : CatalogStatistics unit :=
  {| GetTableNames := mret ["t"]; GetTableColumnList := λ _ _, Ok ColumnList_empty;
     GetCardinality := λ _ _, INVALID_CARDINALITY; GetDistinct := λ _ _ _, INVALID_DISTINCT |}.
Definition ex_texts : Fmt := {| fmt_double := λ _, "?"; fmt_vector := String.concat ", " |}.
Definition ex_t_scan : Operator := SeqScanOperator ColumnList_empty 10001 "t" None false.
Definition ex_selection (predicates : list OperatorExpression) : Operator :=
  ProjectionOperator ColumnList_empty (filter_chain ColumnList_empty predicates ex_t_scan) [ex_a].
Lemma one_filter_survives_witness :
  (Optimize (H := ex_texts) (H0 := ex_statistics) JO_NONE false (ex_selection [ex_below ex_b 2; ex_below ex_a 1]) ()).1 =
  Ok (ex_selection [ex_below ex_b 2]).
Proof.
  exact (one_filter_survives (H := ex_texts) (H0 := ex_statistics) () false ColumnList_empty [ex_a] ColumnList_empty
    [ex_below ex_b 2; ex_below ex_a 1] ColumnList_empty 10001 "t" None false ltac:(repeat constructor)).
Defined.
