(* ===== verification/Dml.v ===== *)
(** The executors of [Query.v] that change tables: DELETE and UPDATE visit every
    version the transaction saw when the statement began exactly once, although
    they change the table while its scan runs, and INSERT adds one version per
    record. *)
From S2P Require Import Prelude Memory Types StringUtil Disk Value Bitmap Column Record TablePage Lru LogRecord LogManager BufferPool Storage LockManager TransactionManager Visibility Table TableScan Like Expressions Executor Pipeline Query Select.

(** ** The entries of a changed table *)

(** Replacing the version at [rid]. *)
Definition replace_at (rid : Rid) (r : Rec) (e : Rid * Rec) : Rid * Rec :=
  if decide (e.1 = rid) then (e.1, r) else e.

Lemma replace_at_other rid r (es : list (Rid * Rec)) : (∀ e, e ∈ es → e.1 ≠ rid) → replace_at rid r <$> es = es.
Proof.
  intros Hne. etrans; [|apply list_fmap_id]. apply list_fmap_ext. intros i e Hi. unfold replace_at.
  rewrite decide_False; [done|]. apply Hne. by eapply list_elem_of_lookup_2.
Qed.

Lemma page_entries_lookup i recs n :
  page_entries i recs !! n = (λ r, (mkRid (Z.of_nat i) (Z.of_nat n), r)) <$> recs !! n.
Proof. unfold page_entries. by rewrite list_lookup_imap. Qed.

Lemma page_entries_insert i recs j r' : page_entries i (<[j := r']> recs) =
  replace_at (mkRid (Z.of_nat i) (Z.of_nat j)) r' <$> page_entries i recs.
Proof.
  apply list_eq. intros n. rewrite list_lookup_fmap, !page_entries_lookup.
  destruct (decide (n = j)) as [->|Hne].
  - destruct (recs !! j) as [r|] eqn:Hr; simpl.
    + rewrite list_lookup_insert_eq by (by eapply lookup_lt_Some). simpl. unfold replace_at. by rewrite decide_True.
    + assert (<[j:=r']> recs !! j = None) as ->; [|done]. apply lookup_ge_None. rewrite length_insert. by apply lookup_ge_None.
  - rewrite list_lookup_insert_ne by done. destruct (recs !! n); [|done]. simpl. unfold replace_at.
    rewrite decide_False; [done|]. simpl. intros [= ?]. lia.
Qed.

Lemma elem_of_page_entries i recs e : e ∈ page_entries i recs →
  ∃ j, e.1 = mkRid (Z.of_nat i) (Z.of_nat j) ∧ recs !! j = Some e.2.
Proof.
  intros [n Hn]%list_elem_of_lookup_1. rewrite page_entries_lookup in Hn. destruct (recs !! n) as [r|] eqn:Hr; [|done].
  injection Hn as <-. by exists n.
Qed.

Lemma elem_of_entries k pages e : e ∈ entries k pages →
  ∃ i j recs, e.1 = mkRid (Z.of_nat (k + i)) (Z.of_nat j) ∧ pages !! i = Some recs ∧ recs !! j = Some e.2.
Proof.
  revert k. induction pages as [|recs pages IH]; intros k; simpl; [by intros ?%not_elem_of_nil|].
  intros [Hp|Hp]%elem_of_app.
  - destruct (elem_of_page_entries _ _ _ Hp) as (j & H1 & H2). exists 0%nat, j, recs. by rewrite Nat.add_0_r.
  - destruct (IH (S k) Hp) as (i & j & recs' & H1 & H2 & H3). exists (S i), j, recs'.
    split; [rewrite H1; do 2 f_equal; lia|done].
Qed.

(** The rids are all different. *)
Lemma page_entries_NoDup i recs : NoDup (page_entries i recs).*1.
Proof.
  apply NoDup_alt. intros n m rid. rewrite !list_lookup_fmap, !page_entries_lookup.
  destruct (recs !! n), (recs !! m); try done. simpl. intros [= <-] [= ?]. lia.
Qed.
Lemma entries_NoDup k pages : NoDup (entries k pages).*1.
Proof.
  revert k. induction pages as [|recs pages IH]; intros k; simpl; [constructor|].
  rewrite fmap_app. apply NoDup_app. split; [apply page_entries_NoDup|]. split; [|done].
  intros rid (e & -> & He)%list_elem_of_fmap (e' & Heq & He')%list_elem_of_fmap.
  apply elem_of_page_entries in He as (j & H1 & _). apply elem_of_entries in He' as (i & j' & recs' & H1' & _).
  rewrite Heq, H1' in H1. injection H1. lia.
Qed.

Lemma entries_replace k pages m j recs r' : pages !! m = Some recs →
  entries k (<[m := <[j := r']> recs]> pages) =
    replace_at (mkRid (Z.of_nat (k + m)) (Z.of_nat j)) r' <$> entries k pages.
Proof.
  revert k m. induction pages as [|recs0 pages IH]; intros k m Hm; [done|]. destruct m as [|m]; simpl in *.
  - injection Hm as ->. rewrite page_entries_insert, fmap_app, Nat.add_0_r. f_equal. symmetry. apply replace_at_other.
    intros e (i & j' & recs' & -> & _)%elem_of_entries. intros [= ?]. lia.
  - rewrite (IH (S k) m Hm), fmap_app. f_equal; [|do 2 f_equal; f_equal; lia]. symmetry. apply replace_at_other.
    intros e (j' & -> & _)%elem_of_page_entries. intros [= ?]. lia.
Qed.

(** The position of a scan when a version is replaced. *)
Lemma scan_at_replace pages rid todo m j recs r' : pages !! m = Some recs → scan_at pages rid todo →
  scan_at (<[m := <[j := r']> recs]> pages) rid (replace_at (mkRid (Z.of_nat m) (Z.of_nat j)) r' <$> todo).
Proof.
  intros Hm Hat. destruct Hat as [slot|i n recs' Hi Hn]; [apply at_end|].
  pose proof (lookup_lt_Some _ _ _ Hm) as Hlt. rewrite fmap_app, fmap_drop.
  assert (entries (S i) (drop (S i) (<[m:=<[j:=r']> recs]> pages)) =
    replace_at (mkRid (Z.of_nat m) (Z.of_nat j)) r' <$> entries (S i) (drop (S i) pages)) as <-.
  { destruct (decide (m < S i)%nat).
    - rewrite drop_insert_lt by lia. symmetry. apply replace_at_other.
      intros e (i' & j' & recs0 & -> & _)%elem_of_entries. intros [= ?]. lia.
    - rewrite drop_insert_ge by lia. rewrite (entries_replace (S i) _ (m - S i) j recs).
      + do 2 f_equal. f_equal. lia.
      + rewrite lookup_drop, <- Hm. f_equal. lia. }
  destruct (decide (i = m)) as [->|Hne].
  - simplify_eq. rewrite <- page_entries_insert. apply at_slot; [by apply list_lookup_insert_eq|by rewrite length_insert].
  - rewrite (replace_at_other _ _ (page_entries i recs')).
    + apply at_slot; [by rewrite list_lookup_insert_ne|done].
    + intros e (j' & -> & _)%elem_of_page_entries. intros [= ?]. lia.
Qed.

(** [l'] has one more element than [l]. *)
Definition one_more {A} (x : A) (l l' : list A) : Prop := ∃ l1 l2, l = l1 ++ l2 ∧ l' = l1 ++ x :: l2.

Lemma one_more_app {A} (x : A) l0 l l' l3 : one_more x l l' → one_more x (l0 ++ l ++ l3) (l0 ++ l' ++ l3).
Proof. intros (l1 & l2 & -> & ->). exists (l0 ++ l1), (l2 ++ l3). by rewrite <- !app_assoc. Qed.
Lemma one_more_snoc {A} (x : A) l : one_more x l (l ++ [x]).
Proof. exists l, []. by rewrite app_nil_r. Qed.
Lemma one_more_filter {A} (P : A → Prop) `{!∀ x, Decision (P x)} x l l' : one_more x l l' → ¬ P x → filter P l' = filter P l.
Proof. intros (l1 & l2 & -> & ->) Hx. by rewrite !filter_app, filter_cons_False. Qed.

Lemma entries_append k pages m recs v : pages !! m = Some recs →
  one_more (mkRid (Z.of_nat (k + m)) (Z.of_nat (length recs)), v) (entries k pages) (entries k (<[m := recs ++ [v]]> pages)).
Proof.
  revert k m. induction pages as [|recs0 pages IH]; intros k m Hm; [done|]. destruct m as [|m]; simpl in *.
  - injection Hm as ->. rewrite Nat.add_0_r, page_entries_snoc. apply (one_more_app _ []), one_more_snoc.
  - specialize (IH (S k) m Hm). rewrite Nat.add_succ_comm in IH. apply (one_more_app _ (page_entries k recs0) _ _ []) in IH.
    by rewrite !app_nil_r in IH.
Qed.

(** The position of a scan when a version is added. *)
Lemma scan_at_insert pages rid todo v : scan_at pages rid todo →
  ∃ todo', scan_at (versions_insert v pages) rid todo' ∧
    (todo' = todo ∨ one_more (insert_rid (mem_len (record_bytes v)) (encode_pages pages), v) todo todo').
Proof.
  intros Hat. destruct Hat as [slot|i j recs' Hi Hj]; [exists []; split; [apply at_end|by left]|].
  pose proof (lookup_lt_Some _ _ _ Hi) as Hlt. unfold versions_insert, insert_rid. set (m := place _ _).
  assert (m ≤ length pages)%nat as Hle.
  { unfold m. pose proof (place_le (mem_len (record_bytes v)) (encode_pages pages)) as Hp.
    unfold encode_pages in Hp at 2. by rewrite length_fmap in Hp. }
  assert (encode_pages pages !! m = (λ recs : list Rec, record_bytes <$> recs) <$> pages !! m) as -> by apply list_lookup_fmap.
  destruct (pages !! m) as [recs|] eqn:Hm; simpl; unfold a_count; rewrite ?length_fmap.
  - destruct (decide (m < i)%nat) as [Hmi|Hmi]; [|destruct (decide (m = i)) as [He|Hne]].
    + eexists. split; [apply (at_slot _ i j recs'); [by rewrite list_lookup_insert_ne by lia|done]|].
      left. by rewrite drop_insert_lt by lia.
    + rewrite He in Hm |- *. assert (recs' = recs) as -> by congruence. eexists.
      split; [apply (at_slot _ i j (recs ++ [v])); [by apply list_lookup_insert_eq|rewrite length_app; simpl; lia]|].
      right. rewrite drop_insert_lt by lia. rewrite page_entries_snoc, drop_app_le by (unfold page_entries; rewrite length_imap; lia).
      apply (one_more_app _ []), one_more_snoc.
    + eexists. split; [apply (at_slot _ i j recs'); [by rewrite list_lookup_insert_ne by lia|done]|].
      right. rewrite drop_insert_ge by lia. pose proof (entries_append (S i) (drop (S i) pages) (m - S i) recs v) as Ha.
      rewrite lookup_drop in Ha. replace (S i + (m - S i))%nat with m in Ha by lia. specialize (Ha Hm).
      apply (one_more_app _ (drop j (page_entries i recs')) _ _ []) in Ha. by rewrite !app_nil_r in Ha.
  - apply lookup_ge_None in Hm. assert (m = length pages) as -> by lia.
    eexists. split; [apply (at_slot _ i j recs'); [by rewrite lookup_app_l by lia|done]|].
    right. rewrite drop_app_le by lia. rewrite entries_app. rewrite length_drop. simpl.
    replace (S (i + (length pages - S i)))%nat with (length pages) by lia. unfold page_entries at 2. simpl.
    rewrite app_assoc. apply one_more_snoc.
Qed.

(** What is read for a stored version. *)
Lemma read_version_reads rid r : record_wf r → reads rid r (read_version rid r).
Proof.
  intros [Hv Hc Hb Hh Hs Hf].
  assert (record_len (norm <$> rvalues_ r) = record_len (rvalues_ r)) as Hln.
  { unfold record_len. by rewrite length_fmap, values_bytes_norm. }
  assert (mem_len (record_bytes r) = record_len (rvalues_ r)) as Hlen by (by apply record_bytes_len).
  destruct (mk_Record_spec (norm <$> rvalues_ r) rid) as (r2 & Hr2 & Hw2 & Hv2 & Hrid2 & _ & _).
  { by apply norm_storable. }
  { by rewrite length_fmap. }
  { by rewrite Hln, <- Hlen. }
  unfold read_version. rewrite Hr2. split; try done; simpl; [|unfold read_version; by rewrite Hr2].
  rewrite (rw_size _ Hw2), record_bytes_len, Hv2, Hln by apply Hw2. by rewrite Hs.
Qed.

(** ** A statement that changes one table *)

Section Changing.
Context `{MapOrder} `{Allocator} `{Ecma}.
Context (db_of : Z → Z) (base : Z) (fuel insert_fuel : nat) (ctx : ExecutorContext) (active : gset Z) (oid : Z).
#[local] Notation xid := (context_xid ctx).
#[local] Notation level := (context_level ctx).
#[local] Notation cid := (context_cid ctx).
#[local] Notation seen := (is_visible xid cid level active).

(** The table holds [pages], and the transaction gets exclusive locks on its
    rows. *)
Record table_is (hist : list LogRecord) (t : Table) (pages : list (list Rec)) (s : System) : Prop := {
  ti_table : sys_tables s !! oid = Some t;
  ti_oid : oid_ t = oid;
  ti_scan : scannable db_of base hist t pages (sys_pool s);
  ti_active : scan_active level xid (sys_tm s) = (Ok active, sys_tm s);
  ti_locks : locks_allow (λ o, o = oid) (Some LX) xid (lock_manager_ (sys_tm s))
}.

(** What a statement may change: the table, and the locks of the transaction. *)
Record statement_effect (s s' : System) : Prop := {
  se_tables : ∀ o, o ≠ oid → sys_tables s' !! o = sys_tables s !! o;
  se_pages : ∀ k b, table_oid_ k ≠ oid → key_range db_of k → view db_of (sys_pool s) k = Some b →
    view db_of (sys_pool s') k = Some b;
  se_locks : ∃ lm, sys_tm s' = set_lock_manager lm (sys_tm s) ∧
    ∀ other r, other ≠ xid → held lm other r = held (lock_manager_ (sys_tm s)) other r
}.

#[export] Instance statement_effect_preorder : PreOrder statement_effect.
Proof.
  split.
  - intros s. split; [done..|]. exists (lock_manager_ (sys_tm s)). split; [by destruct s as [? []]|done].
  - intros s1 s2 s3 [T1 P1 (lm1 & L1 & F1)] [T2 P2 (lm2 & L2 & F2)]. split.
    + intros o Ho. by rewrite T2, T1.
    + auto.
    + exists lm2. rewrite L2, L1. split; [done|]. intros other r Hne. rewrite F2, L1 by done. simpl. by apply F1.
Qed.

(** The steps a statement is made of. *)
Lemma locked_step hist t pages s lm' : table_is hist t pages s → granted_to xid (lock_manager_ (sys_tm s)) lm' →
  let s' := mkSystem (sys_pool s) (set_lock_manager lm' (sys_tm s)) (sys_tables s) in
  table_is hist t pages s' ∧ statement_effect s s'.
Proof.
  intros [? ? ? ? Hl] Hg. split.
  - split; cbn [sys_tables sys_pool sys_tm]; [done..|by apply scan_active_locks|by eapply locks_allow_granted].
  - split; cbn [sys_tables sys_pool sys_tm]; [done..|]. exists lm'. split; [done|]. apply Hg.
Qed.
Lemma table_step hist t pages s hist' t' pages' w' : table_is hist t pages s → oid_ t' = oid →
  scannable db_of base hist' t' pages' w' → table_effect db_of t (sys_pool s) w' →
  let s' := mkSystem w' (sys_tm s) (<[oid := t']> (sys_tables s)) in
  table_is hist' t' pages' s' ∧ statement_effect s s'.
Proof.
  intros [? Ho ? ? ?] Ho' Hs He. split.
  - split; cbn [sys_tables sys_pool sys_tm]; [by apply lookup_insert_eq|done..].
  - split; cbn [sys_tables sys_pool sys_tm].
    + intros o Hne. by apply lookup_insert_ne.
    + intros k b Hk. rewrite <- Ho in Hk. by apply (table_effect_others _ _ _ _ He).
    + exists (lock_manager_ (sys_tm s)). split; [by destruct (sys_tm s)|done].
Qed.

(** ** Cursors *)

(** An executor that returns, one by one, the versions [vis] of the table, while
    its consumer deletes versions and adds versions the transaction does not
    see. *)
Class Cursor {E} (X : Executor System E) (P : E → list (list Rec) → list (Rid * Rec) → Prop) : Prop := {
  cur_sound : ∀ e pages vis, P e pages vis → NoDup vis.*1 ∧ ∀ x, x ∈ vis → x ∈ entries 0 pages ∧ seen x;
  cur_next : ∀ e pages vis hist t s, P e pages vis → table_is hist t pages s → (length (entries 0 pages) < fuel)%nat →
    ∃ e' s', Next (e, s) = (Ok ((λ x, read_version x.1 x.2) <$> head vis), (e', s')) ∧
      table_is hist t pages s' ∧ statement_effect s s' ∧ P e' pages (tail vis);
  cur_delete : ∀ e pages vis m j recs r, P e pages vis → pages !! m = Some recs → recs !! j = Some r →
    P e (versions_delete m j xid recs r pages) (filter (λ x, x.1 ≠ mkRid (Z.of_nat m) (Z.of_nat j)) vis);
  cur_insert : ∀ e pages vis v, P e pages vis → GetXmin v = xid → GetCid v = cid → P e (versions_insert v pages) vis
}.

Context (Hxid : 0 <= xid < NULL_XID) (Hcid : in_range 4 cid) (Hown : level = REPEATABLE_READ → xid ∉ active).

(** A transaction sees neither what it deleted nor what the running command
    created. *)
Lemma deleted_unseen rid r : ¬ seen (rid, delete_version xid r).
Proof using Hxid Hown.
  unfold is_visible. cbn [fst snd]. rewrite CanGet_visible by (done || lia).
  destruct level; intros [_ Hd]; apply Hd; by left.
Qed.
Lemma created_unseen rid v : GetXmin v = xid → GetCid v = cid → ¬ seen (rid, v).
Proof using Hxid Hown.
  intros Hx Hc. unfold is_visible. cbn [fst snd]. rewrite CanGet_visible by (done || lia).
  destruct level; intros [[[_ Hn]|[Hn ?]] _]; try congruence. lia.
Qed.

Lemma scan_at_suffix pages rid todo : scan_at pages rid todo → todo `suffix_of` entries 0 pages.
Proof.
  intros [slot|i j recs Hi Hj]; [apply suffix_nil|].
  rewrite <- (take_drop_middle _ _ _ Hi) at 2. rewrite entries_app. simpl.
  apply suffix_app_r. rewrite length_take_le by (apply lookup_lt_Some in Hi; lia).
  apply suffix_app. apply suffix_drop.
Qed.

Lemma visible_sound pages todo : todo `suffix_of` entries 0 pages →
  NoDup (filter seen todo).*1 ∧ ∀ x, x ∈ filter seen todo → x ∈ entries 0 pages ∧ seen x.
Proof.
  intros [l Hl]. pose proof (entries_NoDup 0 pages) as Hn. rewrite Hl, fmap_app in Hn. apply NoDup_app in Hn as (_ & _ & Hn).
  split.
  - eapply sublist_NoDup; [exact Hn|]. apply fmap_sublist, sublist_filter.
  - intros x [Hx Hin]%list_elem_of_filter. split; [|done]. rewrite Hl. apply elem_of_app. by right.
Qed.

(** *** The scan is a cursor *)

Definition scan_cursor_at (e : SeqScanExecutor) (pages : list (list Rec)) (vis : list (Rid * Rec)) : Prop :=
  ∃ rid todo, e = scanning oid rid ∧ scan_at pages rid todo ∧ vis = filter seen todo.

Lemma filter_replace_unseen rid r (l : list (Rid * Rec)) : (∀ rid, ¬ seen (rid, r)) →
  filter seen (replace_at rid r <$> l) = filter (λ x, x.1 ≠ rid) (filter seen l).
Proof.
  intros Hr. induction l as [|[rid' r'] l IH]; [done|]. rewrite fmap_cons. unfold replace_at at 1. cbn [fst].
  case_decide as Hd.
  - rewrite filter_cons_False by apply Hr. rewrite IH. rewrite !filter_cons. case_decide; [|done].
    rewrite filter_cons_False by (by intros Hx; apply Hx). done.
  - rewrite !filter_cons. case_decide; [|done]. by rewrite filter_cons_True, IH.
Qed.

#[export] Instance scan_cursor : Cursor (SeqScanExecutor_ fuel ctx) scan_cursor_at.
Proof using Hxid Hown.
  split.
  - intros e pages vis (rid & todo & -> & Hat & ->). apply visible_sound. by eapply scan_at_suffix.
  - intros e pages vis hist t s (rid & todo & -> & Hat & ->) [Ht Ho Hs Ha Hl] Hf.
    pose proof (suffix_length _ _ (scan_at_suffix _ _ _ Hat)) as Hlen.
    destruct (seqscan_call db_of base fuel ctx active _ (Some LX) oid s t pages hist rid todo Ht Hs Ha Hl eq_refl Hat)
      as (rid' & w' & lm' & Hrun & He & Hs' & Hg & Hat'); [lia|].
    pose proof (scan_next_filter xid cid level active todo) as Hfil.
    destruct (locked_step hist t pages s lm') as [Ht1 He1]; [done..|].
    destruct (table_step hist t pages _ hist t pages w' Ht1 Ho Hs' He) as [Ht2 He2].
    exists (scanning oid rid'), (mkSystem w' (set_lock_manager lm' (sys_tm s)) (sys_tables s)).
    cbn [sys_tm sys_tables] in Ht2, He2. rewrite insert_id in Ht2, He2 by done.
    assert ((scan_next xid cid level active todo).1 = head (filter seen todo) ∧
      filter seen (scan_next xid cid level active todo).2 = tail (filter seen todo)) as [Hh Htl].
    { destruct (scan_next xid cid level active todo) as [[x|] rest]; [by destruct Hfil as [-> _]|by destruct Hfil as [-> ->]]. }
    split; [|split; [done|split; [by etrans|]]].
    + cbn [Next SeqScanExecutor_]. rewrite Hrun. by rewrite Hh.
    + exists rid', (scan_next xid cid level active todo).2. by rewrite Htl.
  - intros e pages vis m j recs r (rid & todo & -> & Hat & ->) Hm Hj. exists rid, (replace_at (mkRid (Z.of_nat m) (Z.of_nat j)) (delete_version xid r) <$> todo). split; [done|].
    split; [exact (scan_at_replace pages rid todo m j recs (delete_version xid r) Hm Hat)|].
    symmetry. apply filter_replace_unseen. intros. apply deleted_unseen.
  - intros e pages vis v (rid & todo & -> & Hat & ->) Hx Hc. destruct (scan_at_insert _ _ _ v Hat) as (todo' & Hat' & Hor).
    exists rid, todo'. split; [done|]. split; [done|]. destruct Hor as [->|Hor]; [done|]. symmetry.
    eapply one_more_filter; [exact Hor|]. by apply created_unseen.
Qed.

(** *** A filter of a cursor is a cursor *)

(** The predicate is true on what is read for the version. *)
Definition kept (predicate : OperatorExpression) (x : Rid * Rec) : Prop := keeps predicate (read_version x.1 x.2) = Ok true.
#[export] Instance kept_dec predicate x : Decision (kept predicate x).
Proof. unfold kept. destruct (keeps predicate (read_version x.1 x.2)) as [[]|]; [by left|by right..]. Defined.
(** The predicate does not fail. *)
Definition decides (predicate : OperatorExpression) (x : Rid * Rec) : Prop :=
  ∃ b, keeps predicate (read_version x.1 x.2) = Ok b.

Section Filtered.
Context {E} (X : Executor System E) (P : E → list (list Rec) → list (Rid * Rec) → Prop) `{!Cursor X P}.
Context (predicate : OperatorExpression).

Definition filter_cursor_at (e : FilterExecutor E) (pages : list (list Rec)) (vis : list (Rid * Rec)) : Prop :=
  ∃ c all, e = mkFilter predicate c ∧ P c pages all ∧ Forall (decides predicate) all ∧ vis = filter (kept predicate) all.

Lemma filter_loop_cursor n : ∀ all c pages hist t s, P c pages all → table_is hist t pages s → Forall (decides predicate) all →
  (length (entries 0 pages) < fuel)%nat → (length all < n)%nat →
  ∃ c' s' rest, filter_loop n (mkFilter predicate c, s) =
      (Ok ((λ x, read_version x.1 x.2) <$> head (filter (kept predicate) all)), (mkFilter predicate c', s')) ∧
    table_is hist t pages s' ∧ statement_effect s s' ∧ P c' pages rest ∧ Forall (decides predicate) rest ∧
    filter (kept predicate) rest = tail (filter (kept predicate) all).
Proof using Cursor0.
  induction n as [|n IH]; intros all c pages hist t s Hp Ht Hall Hf Hn; [lia|]. cbn [filter_loop].
  destruct (cur_next c pages all hist t s Hp Ht Hf) as (c1 & s1 & Hrun & Ht1 & He1 & Hp1).
  destruct all as [|x all]; cbn [head tail fmap option_fmap option_map] in Hrun, Hp1.
  - child_step Hrun. exists c1, s1, []. split_and!; done || constructor.
  - child_step Hrun. rewrite self_get_step. cbn [set_filter_child filter_predicate_].
    apply Forall_cons in Hall as [[b Hb] Hall]. rewrite Hb, (lift_step _ _ _ _ eq_refl). destruct b.
    + exists c1, s1, all. rewrite filter_cons_True by done. by split_and!.
    + rewrite filter_cons_False by (unfold kept; congruence). simpl in Hn.
      destruct (IH all c1 pages hist t s1 Hp1 Ht1 Hall Hf ltac:(lia)) as (c' & s' & rest & Hrun' & Ht' & He' & Hp' & Hr').
      exists c', s', rest. split; [exact Hrun'|]. split; [done|]. split; [by etrans|done].
Qed.

#[export] Instance filter_cursor : Cursor (FilterExecutor_ fuel) filter_cursor_at.
Proof using Cursor0 Hxid.
  split.
  - intros e pages vis (c & all & -> & Hp & _ & ->). destruct (cur_sound c pages all Hp) as [Hn Hs]. split.
    + eapply sublist_NoDup; [exact Hn|]. apply fmap_sublist, sublist_filter.
    + intros x [_ Hx]%list_elem_of_filter. by apply Hs.
  - intros e pages vis hist t s (c & all & -> & Hp & Hall & ->) Ht Hf.
    destruct (filter_loop_cursor fuel all c pages hist t s Hp Ht Hall Hf) as (c' & s' & rest & Hrun & Ht' & He & Hp' & Hr & Hf').
    { destruct (cur_sound c pages all Hp) as [Hn Hs]. apply NoDup_fmap_1 in Hn.
      pose proof (submseteq_length _ _ (NoDup_submseteq all (entries 0 pages) Hn (λ x Hx, proj1 (Hs x Hx)))). lia. }
    exists (mkFilter predicate c'), s'. split; [exact Hrun|]. split; [done|]. split; [done|]. by exists c', rest.
  - intros e pages vis m j recs r (c & all & -> & Hp & Hall & ->) Hm Hj.
    exists c, (filter (λ x, x.1 ≠ mkRid (Z.of_nat m) (Z.of_nat j)) all). split; [done|].
    split; [by apply (cur_delete c pages all m j recs r)|]. split.
    + apply Forall_forall. intros x [_ Hx]%list_elem_of_filter. by eapply Forall_forall in Hall.
    + rewrite !list_filter_filter. apply list_filter_iff. tauto.
  - intros e pages vis v (c & all & -> & Hp & Hall & ->) Hx Hc. exists c, all. split; [done|].
    split; [by apply cur_insert|done].
Qed.
End Filtered.

(** ** The loop of a statement over a cursor *)

Lemma filter_all {A} (Q : A → Prop) `{!∀ x, Decision (Q x)} (l : list A) : (∀ x, x ∈ l → Q x) → filter Q l = l.
Proof.
  induction l as [|x l IH]; intros Hl; [done|]. rewrite filter_cons_True by (apply Hl; by left).
  by rewrite IH by (intros; apply Hl; by right).
Qed.

(** [pages'] is [pages] with the version [x] deleted and, perhaps, a version
    added that the statement does not see. *)
Definition touched (x : Rid * Rec) (pages pages' : list (list Rec)) : Prop :=
  ∃ m j recs, x.1 = mkRid (Z.of_nat m) (Z.of_nat j) ∧ pages !! m = Some recs ∧ recs !! j = Some x.2 ∧
    let deleted := versions_delete m j xid recs x.2 pages in
    pages' = deleted ∨ ∃ v, GetXmin v = xid ∧ GetCid v = cid ∧ pages' = versions_insert v deleted.

Lemma touched_cursor {E} {X : Executor System E} {P} `{!Cursor X P} c pages pages' x rest :
  touched x pages pages' → P c pages rest → x.1 ∉ rest.*1 → P c pages' rest.
Proof.
  intros (m & j & recs & Hx & Hm & Hj & Hp) Hc Hn.
  assert (P c (versions_delete m j xid recs x.2 pages) rest) as Hd.
  { pose proof (cur_delete c pages rest m j recs x.2 Hc Hm Hj) as Hd.
    rewrite filter_all in Hd; [done|]. intros e He Heq. apply Hn. rewrite Hx, <- Heq. by apply list_elem_of_fmap_2. }
  destruct Hp as [->|(v & Hv & Hvc & ->)]; [done|]. by apply cur_insert.
Qed.

(** [count++], [n] times. *)
Definition counted (count : Z) (n : nat) : Z := Nat.iter n (λ c, u32 (c + 1)) count.
Lemma counted_S count n : counted (u32 (count + 1)) n = counted count (S n).
Proof. unfold counted. by rewrite Nat.iter_succ_r. Qed.
Lemma counted_small n : Z.of_nat n < 2 ^ 32 → counted 0 n = Z.of_nat n.
Proof.
  induction n as [|n IH]; intros Hn; [done|]. unfold counted in *. rewrite Nat.iter_succ, IH, u32_small by lia. lia.
Qed.

(** The end of [Next]: the record with the count. *)
Lemma change_next_done {E Plan} `{!Executor System E} (body : Rec → M (ChangeExecutor E Plan * System) unit) f count f' s s' :
  ch_finished_ f = false → change_loop body fuel 0 (f, s) = (Ok count, (f', s')) →
  ∃ r f1, change_next fuel body (f, s) = (Ok (Some r), (f1, s')) ∧ GetValues r = [Value_uint count] ∧ ch_finished_ f1 = true.
Proof using.
  clear - ctx. intros Hfin Hl. unfold change_next. rewrite self_get_step, Hfin. rewrite (M_bind_step _ _ _ _ _ Hl).
  unfold set_ch_finished. rewrite self_modify_step. eexists _, _. by split.
Qed.

Section Loop.
Context {E Plan : Type} (X : Executor System E) (P : E → list (list Rec) → list (Rid * Rec) → Prop) `{!Cursor X P}.
Context (plan : Plan) (columns : ColumnList) (body : Rec → M (ChangeExecutor E Plan * System) unit).
(** What holds between two iterations, when [rest] is still to come. *)
Context (J : list (Rid * Rec) → list LogRecord → Table → list (list Rec) → Prop).

Definition running (c : E) : ChangeExecutor E Plan := mkChange plan (Some oid) columns false c.

Hypothesis body_step : ∀ x rest hist t pages c s, J (x :: rest) hist t pages → table_is hist t pages s →
  x ∈ entries 0 pages → seen x →
  ∃ hist' t' pages' s', body (read_version x.1 x.2) (running c, s) = (Ok (), (running c, s')) ∧
    table_is hist' t' pages' s' ∧ statement_effect s s' ∧ touched x pages pages' ∧ J rest hist' t' pages'.
Hypothesis J_fuel : ∀ rest hist t pages, J rest hist t pages → (length (entries 0 pages) < fuel)%nat.

Lemma change_loop_run vis : ∀ n count c hist t pages s, (length vis < n)%nat →
  P c pages vis → J vis hist t pages → table_is hist t pages s →
  ∃ c' hist' t' pages' s', change_loop body n count (running c, s) = (Ok (counted count (length vis)), (running c', s')) ∧
    table_is hist' t' pages' s' ∧ statement_effect s s' ∧ J [] hist' t' pages'.
Proof using Cursor0 body_step J_fuel.
  induction vis as [|x rest IH]; intros [|n] count c hist t pages s Hn Hc HJ Ht; simpl in Hn; try lia; cbn [change_loop].
  - destruct (cur_next c pages [] hist t s Hc Ht (J_fuel _ _ _ _ HJ)) as (c' & s' & Hrun & Ht' & He & Hc').
    child_step Hrun. by exists c', hist, t, pages, s'.
  - destruct (cur_next c pages (x :: rest) hist t s Hc Ht (J_fuel _ _ _ _ HJ)) as (c1 & s1 & Hrun & Ht1 & He1 & Hc1).
    cbn [head tail fmap option_fmap option_map] in Hrun, Hc1. child_step Hrun.
    destruct (cur_sound c pages (x :: rest) Hc) as [Hnd Hs]. rewrite fmap_cons in Hnd. apply NoDup_cons in Hnd as [Hx _].
    destruct (Hs x) as [Hin Hseen]; [by left|].
    destruct (body_step x rest hist t pages c1 s1 HJ Ht1 Hin Hseen) as (hist2 & t2 & pages2 & s2 & Hb & Ht2 & He2 & Htc & HJ2).
    change (set_ch_child c1 (running c)) with (running c1). rewrite (M_bind_step _ _ _ _ _ Hb).
    destruct (IH n (u32 (count + 1)) c1 hist2 t2 pages2 s2) as (c' & hist' & t' & pages' & s' & Hl & Ht' & He' & HJ');
      [lia|by eapply touched_cursor|done..|].
    exists c', hist', t', pages', s'. rewrite Hl, counted_S. split; [done|]. split; [done|]. split; [|done].
    etrans; [exact He1|]. by etrans.
Qed.

(** The statement: one record with the number of rows. *)
Lemma change_next_run vis c hist t pages s : (length vis < fuel)%nat → P c pages vis → J vis hist t pages → table_is hist t pages s →
  ∃ f' hist' t' pages' s' r, change_next fuel body (running c, s) = (Ok (Some r), (f', s')) ∧
    GetValues r = [Value_uint (counted 0 (length vis))] ∧ ch_finished_ f' = true ∧
    table_is hist' t' pages' s' ∧ statement_effect s s' ∧ J [] hist' t' pages'.
Proof using Cursor0 body_step J_fuel.
  intros Hn Hc HJ Ht. destruct (change_loop_run vis fuel 0 c hist t pages s Hn Hc HJ Ht) as
    (c' & hist' & t' & pages' & s' & Hl & Ht' & He' & HJ').
  destruct (change_next_done _ (running c) _ _ _ _ eq_refl Hl) as (r & f' & Hrun & Hr & Hfin).
  by exists f', hist', t', pages', s', r.
Qed.
End Loop.

(** ** The steps of the bodies *)

Section Steps.
Context {E Plan : Type} (f : ChangeExecutor E Plan).

Lemma lock_row_step hist t pages s rid message : table_is hist t pages s →
  ∃ s', lock_row_or_throw ctx oid rid message (f, s) = (Ok (), (f, s')) ∧ table_is hist t pages s' ∧ statement_effect s s'.
Proof using.
  intros Ht. destruct (allowed_row _ _ _ _ oid rid (ti_locks _ _ _ _ Ht) eq_refl) as (lm' & Hrun & Hg).
  destruct (locked_step hist t pages s lm' Ht Hg) as [Ht' He]. eexists. split; [|split; [exact Ht'|exact He]].
  unfold lock_row_or_throw. by rewrite (on_sys_step _ _ _ _ _ _ (on_lock_manager_run _ _ _ _ Hrun)).
Qed.

Lemma member_table_run {A} (m : M TableState A) a t t' w' s : ch_table_ f = Some oid → sys_tables s !! oid = Some t →
  m (mkTS t (sys_pool s)) = (Ok a, mkTS t' w') →
  on_member_table m (f, s) = (Ok a, (f, mkSystem w' (sys_tm s) (<[oid := t']> (sys_tables s)))).
Proof using.
  intros Hf Ht Hm. unfold on_member_table. rewrite self_get_step, Hf. unfold on_sys, zoom, on_table_obj. simpl.
  by rewrite Ht, Hm.
Qed.
End Steps.

Lemma entry_place pages x : x ∈ entries 0 pages →
  ∃ m j recs, x.1 = mkRid (Z.of_nat m) (Z.of_nat j) ∧ pages !! m = Some recs ∧ recs !! j = Some x.2.
Proof. intros (m & j & recs & H2 & H3 & H4)%elem_of_entries. by exists m, j, recs. Qed.

Lemma entry_wf hist t pages s x : table_is hist t pages s → x ∈ entries 0 pages → record_wf x.2.
Proof.
  intros Ht (m & j & recs & _ & Hm & Hj)%entry_place. pose proof (sc_records _ _ _ _ _ _ (ti_scan _ _ _ _ Ht)) as Hr.
  by destruct (Forall_lookup_1 _ _ _ _ (Forall_lookup_1 _ _ _ _ Hr Hm) Hj).
Qed.

Lemma xid_range : in_range 4 xid.
Proof using Hxid. unfold in_range. pose proof NULL_PAGE_ID_val. change NULL_XID with (2 ^ 32 - 1) in Hxid. lia. Qed.

(** Deleting the version a cursor returned. *)
Lemma delete_at_step hist t pages s x room : table_is hist t pages s → x ∈ entries 0 pages → log_ready base hist xid (23 + room) →
  0 <= room →
  ∃ m j recs w', x.1 = mkRid (Z.of_nat m) (Z.of_nat j) ∧ pages !! m = Some recs ∧ recs !! j = Some x.2 ∧
    let hist' := deleted_hist base true hist xid (table_key t m) (Z.of_nat j) in
    Table_DeleteRecord x.1 xid true (mkTS t (sys_pool s)) = (Ok (), mkTS t w') ∧
    scannable db_of base hist' t (versions_delete m j xid recs x.2 pages) w' ∧
    table_effect db_of t (sys_pool s) w' ∧ log_ready base hist' xid room.
Proof using Hxid.
  intros Ht Hin Hlog Hroom. destruct (entry_place _ _ Hin) as (m & j & recs & Hx & Hm & Hj).
  destruct (DeleteRecord_versions db_of base hist t pages (sys_pool s) m j recs x.2 xid true (ti_scan _ _ _ _ Ht) Hm Hj xid_range)
    as (w' & Hrun & Hs & He & _); [intros _; eapply log_ready_less; [exact Hlog|lia]|].
  exists m, j, recs, w'. rewrite Hx. split; [done|]. split; [done|]. split; [done|]. split; [exact Hrun|].
  split; [exact Hs|]. split; [exact He|]. by eapply deleted_log_ready.
Qed.

Lemma chain_last_wf b hist r : chain b (hist ++ [r]) → log_wf r.
Proof. intros Hc. apply chain_app in Hc as [_ Hc]. apply Hc. Qed.

Lemma inserted_log_ready hist t t' pages0 pages w v room :
  scannable db_of base (inserted_hist base true hist xid t pages0 (record_bytes v)) t' pages w →
  log_ready base hist xid (52 + mem_len (record_bytes v) + room) →
  log_ready base (inserted_hist base true hist xid t pages0 (record_bytes v)) xid room.
Proof using Hxid.
  intros [[(n & Hi & _) _ _ _ _ _ _ _] _ _ _] [[prev Hat] Hroom]. pose proof (li_chain _ _ _ _ Hi) as Hc. clear Hi.
  unfold inserted_hist in *. destruct (pages0 !! _) as [recs|].
  - split.
    + rewrite att_of_snoc. unfold att_step, insert_log. cbn. rewrite lookup_insert_eq. eauto.
    + rewrite span_app. cbn [span]. rewrite Log_GetSize_wf by (by eapply chain_last_wf).
      cbn [body_size insert_log log_body_]. log_sizes. lia.
  - set (r1 := new_page_log _ _ _ _ _) in *. set (r2 := insert_log _ _ _ _ _ _ _) in *. split.
    + rewrite att_of_snoc. unfold att_step, r2, insert_log. cbn. rewrite lookup_insert_eq. eauto.
    + pose proof (chain_last_wf _ _ _ Hc) as H2. apply chain_app in Hc as [Hc _]. pose proof (chain_last_wf _ _ _ Hc) as H1'.
      rewrite !span_app. cbn [span]. rewrite !Log_GetSize_wf by done.
      cbn [body_size insert_log new_page_log log_body_ r1 r2]. log_sizes. lia.
Qed.

Lemma inserted_prefix hist t pages0 b : hist `prefix_of` inserted_hist base true hist xid t pages0 b.
Proof using. clear - ctx. unfold inserted_hist. destruct (pages0 !! _); [by eexists|]. rewrite <- app_assoc. by eexists. Qed.

(** ** DELETE *)

(** The versions [rids], deleted by the transaction. *)
Definition mark (rids : list Rid) (es : list (Rid * Rec)) : list (Rid * Rec) :=
  (λ e, if decide (e.1 ∈ rids) then (e.1, delete_version xid e.2) else e) <$> es.

Lemma mark_nil es : mark [] es = es.
Proof. unfold mark. etrans; [|apply list_fmap_id]. apply list_fmap_ext. intros i e _. by rewrite decide_False by apply not_elem_of_nil. Qed.
Lemma mark_fst rids es : (mark rids es).*1 = es.*1.
Proof. unfold mark. rewrite <- list_fmap_compose. apply list_fmap_ext. intros i e _. simpl. by case_decide. Qed.

(** Deleting one more version, which the transaction still saw. *)
Lemma mark_elem rids es x : x ∈ mark rids es → seen x → x ∈ es ∧ x.1 ∉ rids.
Proof using Hxid Hown.
  intros (e & -> & He)%list_elem_of_fmap. case_decide; [intros Hs; by apply deleted_unseen in Hs|done].
Qed.
Lemma mark_snoc rids es x : NoDup es.*1 → x ∈ es → x.1 ∉ rids →
  replace_at x.1 (delete_version xid x.2) <$> mark rids es = mark (rids ++ [x.1]) es.
Proof using.
  clear - ctx. intros Hn Hx Hr. unfold mark. rewrite <- list_fmap_compose. apply list_fmap_ext. intros i e He.
  apply list_elem_of_lookup_2 in He. simpl. unfold replace_at. destruct (decide (e.1 = x.1)) as [Heq|Hne].
  - assert (e = x) as ->.
    { apply list_elem_of_lookup_1 in He as [n1 G1], Hx as [n2 G2]. rewrite NoDup_alt in Hn.
      assert (n1 = n2) as ->; [|by simplify_eq]. apply (Hn n1 n2 x.1); rewrite list_lookup_fmap, ?G1, ?G2; simpl; by rewrite ?Heq. }
    rewrite (decide_False (P := x.1 ∈ rids)) by done. rewrite decide_True by done.
    by rewrite decide_True by (apply elem_of_app; right; by left).
  - assert (e.1 ∈ rids ++ [x.1] ↔ e.1 ∈ rids) as Hiff.
    { rewrite elem_of_app, list_elem_of_singleton. naive_solver. }
    destruct (decide (e.1 ∈ rids)) as [Hin|Hin].
    + cbn [fst]. rewrite decide_False by done. by rewrite decide_True by (by apply Hiff).
    + rewrite decide_False by done. by rewrite decide_False by (by rewrite Hiff).
Qed.

Lemma entries_delete m j recs pages x : x.1 = mkRid (Z.of_nat m) (Z.of_nat j) → pages !! m = Some recs →
  entries 0 (versions_delete m j xid recs x.2 pages) = replace_at x.1 (delete_version xid x.2) <$> entries 0 pages.
Proof using. intros Hx Hm. unfold versions_delete. rewrite (entries_replace 0 _ m j recs) by done. by rewrite Hx. Qed.

Section Delete.
Context {E : Type} (X : Executor System E) (P : E → list (list Rec) → list (Rid * Rec) → Prop) `{!Cursor X P}.
Context (hist0 : list LogRecord) (pages0 : list (list Rec)) (t0 : Table) (vis0 : list (Rid * Rec)).
(** What the log must still have room for when the statement is done. *)
Context (room : Z) (Hroom0 : 0 <= room).

(** The versions before [rest] are deleted. *)
Record delete_state (rest : list (Rid * Rec)) (hist : list LogRecord) (t : Table) (pages : list (list Rec)) : Prop := {
  ds_table : t = t0;
  ds_log : log_ready base hist xid (23 * Z.of_nat (length rest) + room);
  ds_hist : hist0 `prefix_of` hist;
  ds_pages : ∃ done_, vis0.*1 = done_ ++ rest.*1 ∧ entries 0 pages = mark done_ (entries 0 pages0)
}.

Lemma delete_step x rest hist t pages (c : E) s : delete_state (x :: rest) hist t pages → table_is hist t pages s →
  x ∈ entries 0 pages → seen x →
  ∃ hist' t' pages' s', delete_body (E := E) ctx (read_version x.1 x.2) (running (mkDeletePlan oid) ColumnList_empty c, s) =
      (Ok (), (running (mkDeletePlan oid) ColumnList_empty c, s')) ∧
    table_is hist' t' pages' s' ∧ statement_effect s s' ∧ touched x pages pages' ∧ delete_state rest hist' t' pages'.
Proof using Hxid Hown E Hroom0.
  intros [-> Hlog Hh (done_ & Hvis & Hp)] Ht Hin Hseen. cbn [length] in Hlog.
  set (f := running (mkDeletePlan oid) ColumnList_empty c).
  destruct (lock_row_step f hist t0 pages s x.1 "delete lock failed!" Ht) as (s1 & Hlock & Ht1 & He1).
  destruct (delete_at_step hist t0 pages s1 x (23 * Z.of_nat (length rest) + room) Ht1 Hin) as (m & j & recs & w' & Hx & Hm & Hj & Hrun & Hs & He & Hl);
    [eapply log_ready_less; [exact Hlog|lia]|lia|].
  destruct (table_step _ _ _ _ _ _ _ _ Ht1 (ti_oid _ _ _ _ Ht1) Hs He) as [Ht2 He2].
  do 4 eexists. split; [|split; [exact Ht2|split; [by etrans|split]]].
  - unfold delete_body. rewrite self_get_step. cbn [ch_plan_ f running del_oid_]. fold f. unfold GetRid.
    rewrite (rd_rid _ _ _ (read_version_reads x.1 x.2 (entry_wf _ _ _ _ _ Ht Hin))).
    rewrite (M_bind_step _ _ _ _ _ Hlock). exact (member_table_run f _ _ _ _ _ _ eq_refl (ti_table _ _ _ _ Ht1) Hrun).
  - exists m, j, recs. split; [done|]. split; [done|]. split; [done|]. by left.
  - split; [done|exact Hl| |].
    + etrans; [exact Hh|]. by eexists.
    + exists (done_ ++ [x.1]). split; [rewrite Hvis; simpl; by rewrite <- app_assoc|].
      rewrite (entries_delete m j recs pages x Hx Hm), Hp. rewrite Hp in Hin.
      destruct (mark_elem _ _ _ Hin Hseen) as [He0 Hn0]. by apply mark_snoc; [apply entries_NoDup|..].
Qed.

(** A DELETE over a cursor. *)
Lemma delete_run (c : E) s : table_is hist0 t0 pages0 s → P c pages0 vis0 → (length (entries 0 pages0) < fuel)%nat →
  log_ready base hist0 xid (23 * Z.of_nat (length vis0) + room) →
  ∃ f' hist' pages' s' r, Next (Executor := DeleteExecutor fuel ctx) (running (mkDeletePlan oid) ColumnList_empty c, s) = (Ok (Some r), (f', s')) ∧
    GetValues r = [Value_uint (counted 0 (length vis0))] ∧ ch_finished_ f' = true ∧
    table_is hist' t0 pages' s' ∧ statement_effect s s' ∧ hist0 `prefix_of` hist' ∧
    entries 0 pages' = mark vis0.*1 (entries 0 pages0) ∧ log_ready base hist' xid room.
Proof using Hxid Hown Cursor0 Hroom0.
  intros Ht Hc Hf Hlog.
  assert (length vis0 < fuel)%nat as Hlen.
  { destruct (cur_sound c pages0 vis0 Hc) as [Hn Hs]. apply NoDup_fmap_1 in Hn.
    pose proof (submseteq_length _ _ (NoDup_submseteq vis0 (entries 0 pages0) Hn (λ x Hx, proj1 (Hs x Hx)))). lia. }
  destruct (change_next_run X P (mkDeletePlan oid) ColumnList_empty (delete_body (E := E) ctx) delete_state) with
    (vis := vis0) (c := c) (hist := hist0) (t := t0) (pages := pages0) (s := s) as (f' & hist' & t' & pages' & s' & r & Hrun & Hr & Hfin & Ht' & He & [-> Hl Hh (done_ & Hv & Hp)]); try done.
  - intros. by eapply delete_step.
  - intros rest hist t pages [_ _ _ (done_ & _ & Hp)]. pose proof (f_equal length Hp) as Hle.
    unfold mark in Hle. rewrite length_fmap in Hle. lia.
  - split; [done|done|done|]. exists []. by rewrite mark_nil.
  - exists f', hist', pages', s', r. rewrite app_nil_r in Hv. rewrite Hv. by split_and!.
Qed.
End Delete.

(** ** UPDATE *)

(** The log records of an updated row take at most this much. *)
Definition ROW_LOG : Z := 23 + 52 + MAX_RECORD_SIZE.
Lemma row_log_nonneg n : 0 <= ROW_LOG * Z.of_nat n.
Proof using. clear - ctx. apply Z.mul_nonneg_nonneg; [done|lia]. Qed.
Lemma row_log_S size n : size <= MAX_RECORD_SIZE → 23 + (52 + size + ROW_LOG * Z.of_nat n) <= ROW_LOG * Z.of_nat (S n).
Proof using. clear - ctx. intros Hs. rewrite Nat2Z.inj_succ, Z.mul_succ_r. unfold ROW_LOG at 3. lia. Qed.

Lemma versions_insert_length v pages : (length (versions_insert v pages) ≤ S (length pages))%nat.
Proof. unfold versions_insert. destruct (pages !! _); rewrite ?length_insert, ?length_app; simpl; lia. Qed.
Lemma versions_insert_count v pages : length (entries 0 (versions_insert v pages)) = S (length (entries 0 pages)).
Proof. by rewrite (Permutation_length (versions_insert_entries v pages)). Qed.

(** The updated row of a version fits the table. *)
Definition updatable (exprs : list OperatorExpression) (t : Table) (x : Rid * Rec) : Prop :=
  ∃ new, updated_record exprs (read_version x.1 x.2) = Ok new ∧ record_wf new ∧
    schema_ok (column_list_ t) (rvalues_ new) ∧ rsize_ new <= MAX_RECORD_SIZE.
(** The version that replaces [x]. *)
Definition replaces (exprs : list OperatorExpression) (x e : Rid * Rec) : Prop :=
  ∃ new, updated_record exprs (read_version x.1 x.2) = Ok new ∧ e.2 = stamp new xid cid.

Lemma replaced_unseen exprs x e : replaces exprs x e → ¬ seen e.
Proof using Hxid Hown. destruct e as [rid v]. intros (new & _ & Hv). simpl in Hv. subst v. by apply created_unseen. Qed.

(** A version of the table the transaction sees is one of those that were there
    before the statement, and is not deleted yet. *)
Lemma seen_remains exprs done_ placed es0 es x : es ≡ₚ mark done_.*1 es0 ++ placed → Forall2 (replaces exprs) done_ placed →
  NoDup es.*1 → x ∈ es → seen x → x ∈ es0 ∧ x.1 ∉ done_.*1 ∧ x.1 ∉ placed.*1.
Proof using Hxid Hown.
  intros Hp Hpl Hn Hx Hs. rewrite Hp in Hx. apply elem_of_app in Hx as [Hx|Hx].
  - destruct (mark_elem _ _ _ Hx Hs) as [H2 H3]. split; [done|]. split; [done|].
    assert (NoDup (mark done_.*1 es0 ++ placed).*1) as Hn2 by (by rewrite <- Hp).
    rewrite fmap_app in Hn2. apply NoDup_app in Hn2 as (_ & Hd & _). apply Hd. by apply list_elem_of_fmap_2.
  - apply list_elem_of_lookup_1 in Hx as [n Hx].
    destruct (Forall2_lookup_r _ _ _ _ _ Hpl Hx) as (y & _ & Hr). by apply replaced_unseen in Hr.
Qed.

Section Update.
Context {E : Type} (X : Executor System E) (P : E → list (list Rec) → list (Rid * Rec) → Prop) `{!Cursor X P}.
Context (exprs : list OperatorExpression).
Context (hist0 : list LogRecord) (pages0 : list (list Rec)) (t0 : Table) (vis0 : list (Rid * Rec)).
Context (room : Z) (Hroom0 : 0 <= room).

(** The versions before [rest] are replaced. *)
Record update_state (rest : list (Rid * Rec)) (hist : list LogRecord) (t : Table) (pages : list (list Rec)) : Prop := {
  us_table : t = t0 ∨ t = with_first 0 t0;
  us_log : log_ready base hist xid (ROW_LOG * Z.of_nat (length rest) + room);
  us_hist : hist0 `prefix_of` hist;
  us_rows : (length (entries 0 pages) + length rest < fuel)%nat;
  us_pages : (length pages + length rest < insert_fuel)%nat ∧ Z.of_nat (length pages + length rest) < NULL_PAGE_ID;
  us_rest : Forall (updatable exprs t0) rest;
  us_versions : ∃ done_ placed, vis0 = done_ ++ rest ∧ entries 0 pages ≡ₚ mark done_.*1 (entries 0 pages0) ++ placed ∧
    Forall2 (replaces exprs) done_ placed
}.

Lemma with_first_idem t : t = t0 ∨ t = with_first 0 t0 → with_first 0 t = with_first 0 t0 ∧ column_list_ t = column_list_ t0.
Proof. by intros [-> | ->]. Qed.

(** The versions after [x] is replaced. *)
Lemma replaced_versions x rest m j recs pages new done_ placed : entries 0 pages ≡ₚ mark done_.*1 (entries 0 pages0) ++ placed →
  Forall2 (replaces exprs) done_ placed → x ∈ entries 0 pages → seen x →
  x.1 = mkRid (Z.of_nat m) (Z.of_nat j) → pages !! m = Some recs →
  vis0 = done_ ++ x :: rest → updated_record exprs (read_version x.1 x.2) = Ok new →
  ∃ done_ placed, vis0 = done_ ++ rest ∧
    entries 0 (versions_insert (stamp new xid cid) (versions_delete m j xid recs x.2 pages)) ≡ₚ
      mark done_.*1 (entries 0 pages0) ++ placed ∧ Forall2 (replaces exprs) done_ placed.
Proof using Hxid Hown.
  intros Hp Hpl Hin Hseen Hx Hm Hvis Hnew.
  destruct (seen_remains exprs done_ placed _ _ x Hp Hpl (entries_NoDup 0 pages) Hin Hseen) as (H2 & H3 & H4).
  set (rid := insert_rid (mem_len (record_bytes (stamp new xid cid))) (encode_pages (versions_delete m j xid recs x.2 pages))).
  exists (done_ ++ [x]), (placed ++ [(rid, stamp new xid cid)]). split; [rewrite Hvis; by rewrite <- app_assoc|]. split.
  - rewrite versions_insert_entries. fold rid. rewrite (entries_delete m j recs pages x Hx Hm).
    rewrite Hp, fmap_app, fmap_app. cbn [fmap list_fmap]. rewrite (mark_snoc _ _ x (entries_NoDup 0 pages0) H2 H3).
    rewrite (replace_at_other _ _ placed).
    + rewrite app_assoc. apply Permutation_cons_append.
    + intros e He Heq. apply H4. rewrite <- Heq. by apply list_elem_of_fmap_2.
  - apply Forall2_app; [done|]. constructor; [|constructor]. by exists new.
Qed.
Lemma update_step x rest hist t pages (c : E) s : update_state (x :: rest) hist t pages → table_is hist t pages s →
  x ∈ entries 0 pages → seen x →
  ∃ hist' t' pages' s', update_body (E := E) insert_fuel ctx (read_version x.1 x.2) (running (mkUpdatePlan oid exprs) ColumnList_empty c, s) =
      (Ok (), (running (mkUpdatePlan oid exprs) ColumnList_empty c, s')) ∧
    table_is hist' t' pages' s' ∧ statement_effect s s' ∧ touched x pages pages' ∧ update_state rest hist' t' pages'.
Proof using Hxid Hown E Hcid Hroom0.
  intros [Htab Hlog Hh Hrows [Hpg Hpg2] Hrest (done_ & placed & Hvis & Hp & Hpl)] Ht Hin Hseen. cbn [length] in *.
  destruct (with_first_idem t Htab) as [Hwf Hcl].
  apply Forall_cons in Hrest as [(new & Hnew & Hnwf & Hsch & Hsz) Hrest].
  set (f := running (mkUpdatePlan oid exprs) ColumnList_empty c).
  destruct (lock_row_step f hist t pages s x.1 "update lock failed!" Ht) as (s1 & Hlock & Ht1 & He1).
  assert (0 <= rsize_ new) as Hsize by (rewrite (rw_size _ Hnwf); auto). pose proof (row_log_nonneg (length rest)) as Hrl.
  destruct (delete_at_step hist t pages s1 x (52 + rsize_ new + (ROW_LOG * Z.of_nat (length rest) + room)) Ht1 Hin) as (m & j & recs & w1 & Hx & Hm & Hj & Hdel & Hs1 & Hte1 & Hl1);
    [eapply log_ready_less; [exact Hlog|pose proof (row_log_S _ (length rest) Hsz); lia]|lia|].
  set (del := versions_delete m j xid recs x.2 pages) in *.
  assert (length del = length pages) as Hdl by apply length_insert.
  destruct (InsertRecord_versions db_of base insert_fuel _ t del w1 new xid cid true Hs1 Hnwf) as (w2 & Hins & Hs2 & Hte2 & _);
    [by rewrite Hcl|apply xid_range|done|done|lia|lia|intros _; eapply log_ready_less; [exact Hl1|lia]|].
  set (v := stamp new xid cid) in *.
  pose proof (stamp_bytes_len new xid cid) as Hvl. rewrite <- (rw_size _ Hnwf) in Hvl.
  assert (UpdateRecord insert_fuel x.1 xid cid new true (mkTS t (sys_pool s1)) =
    (Ok (insert_rid (mem_len (record_bytes v)) (encode_pages del), SetRid v (insert_rid (mem_len (record_bytes v)) (encode_pages del))), mkTS (with_first 0 t) w2)) as Hupd.
  { unfold UpdateRecord. by rewrite (M_bind_step _ _ _ _ _ Hdel). }
  destruct (table_step _ _ _ _ _ (with_first 0 t) _ w2 Ht1 (ti_oid _ _ _ _ Ht1) Hs2) as [Ht2 He2];
    [by eapply table_effect_trans|].
  destruct (lock_row_step f _ _ _ _ (insert_rid (mem_len (record_bytes v)) (encode_pages del)) "update lock failed!" Ht2) as (s3 & Hlock3 & Ht3 & He3).
  do 4 eexists. split; [|split; [exact Ht3|split; [etrans; [exact He1|by etrans]|split]]].
  - unfold update_body. rewrite self_get_step. cbn [ch_plan_ f running upd_oid_ update_exprs_]. fold f.
    rewrite (lift_step _ _ _ _ Hnew). unfold GetRid.
    rewrite (rd_rid _ _ _ (read_version_reads x.1 x.2 (entry_wf _ _ _ _ _ Ht Hin))).
    rewrite (M_bind_step _ _ _ _ _ Hlock).
    rewrite (M_bind_step _ _ _ _ _ (member_table_run f _ _ _ _ _ _ eq_refl (ti_table _ _ _ _ Ht1) Hupd)). exact Hlock3.
  - exists m, j, recs. split; [done|]. split; [done|]. split; [done|]. right. by exists v.
  - split.
    + right. exact Hwf.
    + eapply inserted_log_ready; [exact Hs2|]. fold v. eapply log_ready_less; [exact Hl1|].
      unfold v. rewrite Hvl. lia.
    + etrans; [exact Hh|]. etrans; [by eexists|apply inserted_prefix].
    + rewrite versions_insert_count; unfold del; rewrite (entries_delete m j recs pages x Hx Hm), length_fmap. lia.
    + pose proof (versions_insert_length v del). lia.
    + done.
    + by eapply replaced_versions.
Qed.

(** What there must be room for. *)
Record update_room : Prop := {
  ur_log : log_ready base hist0 xid (ROW_LOG * Z.of_nat (length vis0) + room);
  ur_rows : (length (entries 0 pages0) + length vis0 < fuel)%nat;
  ur_pages : (length pages0 + length vis0 < insert_fuel)%nat;
  ur_numbers : Z.of_nat (length pages0 + length vis0) < NULL_PAGE_ID
}.

(** An UPDATE over a cursor. *)
Lemma update_run (c : E) s : table_is hist0 t0 pages0 s → P c pages0 vis0 → update_room → Forall (updatable exprs t0) vis0 →
  ∃ f' hist' t' pages' placed s' r, Next (Executor := UpdateExecutor fuel insert_fuel ctx) (running (mkUpdatePlan oid exprs) ColumnList_empty c, s) = (Ok (Some r), (f', s')) ∧
    GetValues r = [Value_uint (counted 0 (length vis0))] ∧ ch_finished_ f' = true ∧
    table_is hist' t' pages' s' ∧ statement_effect s s' ∧ hist0 `prefix_of` hist' ∧
    entries 0 pages' ≡ₚ mark vis0.*1 (entries 0 pages0) ++ placed ∧ Forall2 (replaces exprs) vis0 placed ∧
    log_ready base hist' xid room.
Proof using Hxid Hown Hcid Cursor0 Hroom0.
  intros Ht Hc [Hlog Hrows Hpg Hpg2] Hup.
  destruct (change_next_run X P (mkUpdatePlan oid exprs) ColumnList_empty (update_body (E := E) insert_fuel ctx) update_state) with
    (vis := vis0) (c := c) (hist := hist0) (t := t0) (pages := pages0) (s := s) as
    (f' & hist' & t' & pages' & s' & r & Hrun & Hr & Hfin & Ht' & He & [_ Hl Hh _ _ _ (done_ & placed & Hv & Hp & Hpl)]); try done.
  - intros. by eapply update_step.
  - intros rest hist t pages Hu. pose proof (us_rows _ _ _ _ Hu). lia.
  - lia.
  - split; try done; [by left|]. exists [], []. cbn [fmap list_fmap]. rewrite mark_nil, app_nil_r. by split_and!.
  - exists f', hist', t', pages', placed, s', r. rewrite app_nil_r in Hv. rewrite <- Hv in Hp, Hpl. by split_and!.
Qed.
End Update.
End Changing.
