(* ===== verification/Typing.v ===== *)
(** The types a plan declares for its output columns, and the types of the values it
    delivers: [GetValueType] of [src/src/operators/expressions] against [Evaluate],
    and the column lists of [planner.cpp] against the records of the executors. *)
From Stdlib Require Import Ascii.
From S2P Require Import Prelude Memory Types StringUtil Disk Value Bitmap Column Record TablePage Lru LogRecord LogManager BufferPool Storage LockManager TransactionManager Visibility Table TableScan Like Expressions Executor Pipeline OrderBy Join Query Select Plan Texts Bound Planner Meaning Dml.

(** ** Values and records *)

(** A value of a type: NULL has every type. *)
Definition has_type (t : Type_) (v : Value) : Prop := IsNull v = true ∨ type_ v = t.
Definition types_of (cl : ColumnList) : list Type_ := ctype_ <$> columns_ cl.
Definition conforms (ts : list Type_) (r : Rec) : Prop := Forall2 has_type ts (rvalues_ r).

Lemma conforms_lookup ts r i t v : conforms ts r → ts !! i = Some t → rvalues_ r !! i = Some v → has_type t v.
Proof. intros Hc Ht Hv. by apply (Forall2_lookup_lr _ _ _ _ _ _ Hc Ht). Qed.

Lemma mk_Record_values vs rid r : mk_Record vs rid = Ok r → rvalues_ r = vs.
Proof. unfold mk_Record. intros (b & _ & Hr)%bind_Ok. by injection Hr as <-. Qed.

Lemma copy_out_values r r' : copy_out r = Ok r' → rvalues_ r' = rvalues_ r.
Proof. unfold copy_out. intros (r1 & H1 & Hr)%bind_Ok. injection Hr as <-. exact (mk_Record_values _ _ _ H1). Qed.

(** What a scan reads of a version with the schema of its table. *)
Lemma read_version_conforms cl rid r : record_wf r → schema_ok cl (rvalues_ r) → conforms (types_of cl) (read_version rid r).
Proof.
  intros Hw Hs. unfold conforms. rewrite (rd_values _ _ _ (read_version_reads rid r Hw)). unfold types_of.
  apply Forall2_fmap. eapply Forall2_impl; [exact Hs|]. intros c v Hf. unfold has_type, norm. destruct (IsNull v) eqn:Hn; [by left|].
  destruct Hf as [Hf|[Hf _]]; [congruence|by right].
Qed.

(** ** Expressions *)

(** The column references of an expression have the positions and types of the
    columns [ts]. *)
Fixpoint columns_typed (ts : list Type_) (e : OperatorExpression) : bool :=
  match e with
  | ColumnValue i t _ _ _ => bool_decide (0 <= i ∧ ts !! Z.to_nat i = Some t)
  | Const _ => true
  | Arithmetic _ l r | Comparison _ l r => columns_typed ts l && columns_typed ts r
  | Logic _ l r => columns_typed ts l && match r with Some r => columns_typed ts r | None => true end
  | NullTest _ e | TypeCast _ e => columns_typed ts e
  | FuncCall _ args | ListExpr args => forallb (columns_typed ts) args
  end.

(** The declared type is the one of the values: not for arithmetic on doubles and
    for [length]. *)
Fixpoint exactly_typed (e : OperatorExpression) : bool :=
  match e with
  | Arithmetic _ l _ => exactly_typed l && bool_decide (GetValueType l = INT)
  | FuncCall function_name _ => negb (String.eqb function_name "length")
  | _ => true
  end.

Lemma Value_bool_type b : has_type BOOL (Value_bool b).
Proof. by right. Qed.
Lemma Value_null_type t : has_type t Value_null.
Proof. by left. Qed.
#[local] Hint Resolve Value_bool_type Value_null_type : core.

Lemma Not_type v w : Not v = Ok w → has_type BOOL w.
Proof. unfold Not. destruct (type_ v); try done. intros (b & _ & Hw)%bind_Ok. injection Hw as <-. auto. Qed.
Lemma cast_type_type t v w : cast t v = Ok w → has_type t w.
Proof.
  unfold cast. destruct (decide (t = BOOL)) as [->|]; [|done]. unfold CastAsBool. destruct (type_ v); try done.
  - intros (b & _ & Hw)%bind_Ok. injection Hw as <-. auto.
  - destruct (String.eqb _ _); [|destruct (String.eqb _ _)]; intros [= <-]; auto.
  - destruct (String.eqb _ _); [|destruct (String.eqb _ _)]; intros [= <-]; auto.
Qed.
Lemma Logic_Compute_type t v1 v2 w : Logic_Compute t v1 v2 = Ok w → has_type BOOL w.
Proof.
  unfold Logic_Compute. destruct (_ || _); [intros [= <-]; auto|]. destruct (type_ v1); try done.
  intros Hc. inv_bind. destruct t; simplify_eq; auto.
Qed.
Lemma Comparison_Compute_type `{Ecma} t v1 v2 w : Comparison_Compute t v1 v2 = Ok w → has_type BOOL w.
Proof.
  unfold Comparison_Compute. destruct (_ || _); [intros [= <-]; auto|].
  assert (∀ b : bool, Ok (Value_bool b) = Ok w → has_type BOOL w) as Hb by (intros b [= <-]; auto).
  assert (∀ A (x : res A) f, (∀ a, f a = Ok w → has_type BOOL w) → x ≫= f = Ok w → has_type BOOL w) as Hbind.
  { intros A x f Hf (a & _ & Ha)%bind_Ok. by apply (Hf a). }
  unfold unsupported.
  destruct t; repeat match goal with
  | |- (if ?b then _ else _) = _ → _ => destruct b; [try discriminate|try discriminate]
  | |- match type_ v1 with _ => _ end = _ → _ => destruct (type_ v1); try discriminate
  | |- _ ≫= _ = _ → _ => apply Hbind; intros ?
  | |- Ok _ = _ → _ => apply Hb
  end.
Qed.
Lemma Arithmetic_Compute_type t v1 v2 w : Arithmetic_Compute t v1 v2 = Ok w → has_type INT v1 → has_type INT w.
Proof.
  unfold Arithmetic_Compute. intros Hc [Hn|Ht]; [rewrite Hn in Hc; injection Hc as <-; auto|].
  destruct (_ || _); [injection Hc as <-; auto|]. rewrite Ht in Hc. inv_bind. by right.
Qed.
Lemma call_function_type f arg w : call_function f arg = Ok w → f ≠ "length" → has_type (GetValueType (FuncCall f [])) w.
Proof.
  unfold call_function, GetValueType, GetReturnType. destruct (String.eqb f "lower").
  - intros (v & _ & Hw)%bind_Ok _. apply bind_Ok in Hw as (s & _ & Hw). injection Hw as <-. by right.
  - destruct (String.eqb f "upper").
    + intros (v & _ & Hw)%bind_Ok _. apply bind_Ok in Hw as (s & _ & Hw). injection Hw as <-. by right.
    + destruct (String.eqb_spec f "length"); [done|]. done.
Qed.

(** What an expression over typed columns evaluates to has its declared type. *)
Lemma Evaluate_type `{Ecma} ts e record v : columns_typed ts e = true → exactly_typed e = true →
  match record with Some r => conforms ts r | None => True end → Evaluate e record = Ok v → has_type (GetValueType e) v.
Proof.
  intros Hc He Hr. revert v Hc He.
  induction e as [i t n s b|w|t e1 e2 IH1 IH2|t e1 e2 IH1 IH2|t e1 o IH1 IH2|b e IH|t e IH|f args IH|es IH] using expression_ind;
    intros v Hc He Hv; cbn [Evaluate GetValueType] in *.
  - cbn [columns_typed] in Hc. apply bool_decide_eq_true in Hc as [Hi Ht]. destruct record as [r|]; [|done]. cbn [ColumnValue_Evaluate] in Hv.
    unfold GetValue in Hv. destruct (rvalues_ r !! Z.to_nat i) as [v'|] eqn:Hl.
    + apply (conforms_lookup ts r (Z.to_nat i)); [done..|]. destruct (0 <=? i); [|done]. by injection Hv as <-.
    + by destruct (0 <=? i).
  - injection Hv as <-. by right.
  - cbn [columns_typed exactly_typed] in *. apply andb_prop in Hc as [Hc _]. apply andb_prop in He as [He Ht]. apply bool_decide_eq_true in Ht.
    apply bind_Ok in Hv as (v1 & H1 & Hv). apply bind_Ok in Hv as (v2 & _ & Hv). rewrite <- Ht in *.
    rewrite Ht. eapply Arithmetic_Compute_type; [exact Hv|]. rewrite <- Ht. by apply IH1.
  - apply bind_Ok in Hv as (v1 & _ & Hv). apply bind_Ok in Hv as (v2 & _ & Hv). by eapply Comparison_Compute_type.
  - unfold Logic_Evaluate in Hv. destruct (decide (t = NOT)).
    + apply bind_Ok in Hv as (v1 & _ & Hv). by eapply Not_type.
    + apply bind_Ok in Hv as (v1 & _ & Hv). apply bind_Ok in Hv as (v2 & _ & Hv). by eapply Logic_Compute_type.
  - apply bind_Ok in Hv as (v1 & _ & Hv). injection Hv as <-. unfold null_test. destruct b; auto.
  - apply bind_Ok in Hv as (v1 & _ & Hv). by eapply cast_type_type.
  - apply (call_function_type f _ v) in Hv; [exact Hv|]. cbn [exactly_typed] in He. by destruct (String.eqb_spec f "length").
  - apply bind_Ok in Hv as (vs & _ & Hv). injection Hv as <-. by right.
Qed.

Lemma evaluate_all_types `{Ecma} ts es record vs :
  forallb (columns_typed ts) es = true → forallb exactly_typed es = true →
  match record with Some r => conforms ts r | None => True end → evaluate_all es record = Ok vs →
  Forall2 has_type (GetValueType <$> es) vs.
Proof.
  intros Hc He Hr. revert vs. induction es as [|e es IH]; intros vs Hv; [by injection Hv as <-|]. simpl in Hc, He.
  apply andb_prop in Hc as [Hc1 Hc]. apply andb_prop in He as [He1 He]. cbn [evaluate_all] in Hv.
  apply bind_Ok in Hv as (v & H1 & Hv). apply bind_Ok in Hv as (vs' & H2 & Hv). injection Hv as <-.
  rewrite fmap_cons. constructor; [by eapply Evaluate_type|by apply IH].
Qed.

(** ** What the executors deliver *)

Fixpoint every_row (P : Rec → Prop) (t : rows) : Prop :=
  match t with Row r rest => P r ∧ every_row P rest | _ => True end.

Section Rows.
Context (P : Rec → Prop).

Lemma every_row_of rs : every_row P (rows_of rs) ↔ Forall P rs.
Proof. induction rs as [|r rs IH]; simpl; [done|]. by rewrite IH, Forall_cons. Qed.
Lemma every_row_all t rs : every_row P t → all_rows t = Ok rs → Forall P rs.
Proof.
  revert rs. induction t as [| |r t IH]; intros rs Ht Hrs; simpl in *; [by injection Hrs as <-|done|].
  apply bind_Ok in Hrs as (rs' & H1 & Hrs). injection Hrs as <-. destruct Ht. constructor; [done|by apply IH].
Qed.
Lemma every_row_filter `{Ecma} e t : every_row P t → every_row P (filter_rows e t).
Proof. induction t as [| |r t IH]; intros Ht; [done..|]. simpl in *. destruct Ht, (keeps e r) as [[]|]; simpl; auto. Qed.
Lemma every_row_skip n : ∀ t t', every_row P t → skip_rows n t = Ok t' → every_row P t'.
Proof. induction n as [|n IH]; intros [| |r t] t' Ht Hs; simpl in *; simplify_eq; try done. destruct Ht. by eapply IH. Qed.
Lemma every_row_take n : ∀ t, every_row P t → every_row P (take_rows n t).
Proof. induction n as [|n IH]; intros [| |r t] Ht; simpl in *; try done. destruct Ht. auto. Qed.
Lemma every_row_limit n m t : every_row P t → every_row P (limit_rows n m t).
Proof.
  intros Ht. unfold limit_rows. destruct (skip_rows _ t) as [t'|] eqn:Hs; [|done]. apply (every_row_skip _ _ _ Ht) in Hs.
  destruct n; [by apply every_row_take|done].
Qed.
Lemma every_row_order `{Ecma} `{StdSortSpec} its t : every_row P t → every_row P (order_rows its t).
Proof.
  intros Ht. unfold order_rows. destruct (all_rows t) as [rs|] eqn:Hrs; [|done]. apply (every_row_all _ _ Ht) in Hrs. simpl.
  destruct (decide (rs = [])); [done|]. destruct (sort_all its rs) as [rs'|] eqn:Hsort; [|done]. apply every_row_of.
  by rewrite (sort_all_moves its rs rs' Hsort).
Qed.
End Rows.

Lemma every_row_mono (P Q : Rec → Prop) t : (∀ r, P r → Q r) → every_row P t → every_row Q t.
Proof. intros Hpq. induction t; simpl; naive_solver. Qed.

Lemma every_row_project `{Ecma} ts es t : forallb (columns_typed ts) es = true → forallb exactly_typed es = true →
  every_row (conforms ts) t → every_row (conforms (GetValueType <$> es)) (project_rows es t).
Proof.
  intros Hc He. induction t as [| |r t IH]; intros Ht; [done..|]. destruct Ht as [Hr Ht]. cbn [project_rows].
  destruct (project es r) as [r'|] eqn:Hp; [|done]. unfold project in Hp. apply bind_Ok in Hp as (vs & Hv & Hp).
  split; [|by apply IH]. unfold conforms. rewrite (mk_Record_values _ _ _ Hp). by eapply (evaluate_all_types ts es (Some r)).
Qed.

(** *** Joins *)

Section Joins.
Context `{Ecma} (ts0 ts1 : list Type_) (rs0 rs1 : list Rec).
Hypothesis H0 : Forall (conforms ts0) rs0.
Hypothesis H1 : Forall (conforms ts1) rs1.
#[local] Notation both := (Forall (conforms (ts0 ++ ts1))).

Lemma Append_conforms r0 r1 r : conforms ts0 r0 → conforms ts1 r1 → Append r0 r1 = Ok r → conforms (ts0 ++ ts1) r.
Proof. intros G0 G1 Ha. unfold conforms. rewrite (Append_values _ _ _ Ha). by apply Forall2_app. Qed.

Lemma join_with_conforms e r0 l : conforms ts0 r0 → Forall (conforms ts1) l → ∀ rs, join_with e r0 l = Ok rs → both rs.
Proof.
  intros Hr. induction 1 as [|r1 l Hr1 Hl IH]; intros rs Hj; [by injection Hj as <-|]. cbn [join_with] in Hj.
  apply bind_Ok in Hj as (v & _ & Hj). apply bind_Ok in Hj as ([] & _ & Hj); [|by apply IH].
  apply bind_Ok in Hj as (r & Ha & Hj). apply bind_Ok in Hj as (rest & Hrest & Hj). injection Hj as <-.
  constructor; [by eapply Append_conforms|by apply IH].
Qed.
Lemma join_all_conforms e l : Forall (conforms ts0) l → ∀ rs, join_all e l rs1 = Ok rs → both rs.
Proof.
  induction 1 as [|r0 l Hr Hl IH]; intros rs Hj; [by injection Hj as <-|]. cbn [join_all] in Hj.
  apply bind_Ok in Hj as (first & Hf & Hj). apply bind_Ok in Hj as (rest & Hrest & Hj). injection Hj as <-.
  apply Forall_app. split; [by eapply join_with_conforms|by apply IH].
Qed.
Lemma nested_collect_conforms e rs : nested_collect e rs0 rs1 = Ok rs → both rs.
Proof. unfold nested_collect. destruct (decide _); [by intros [= <-]|]. by apply join_all_conforms. Qed.

Lemma match_right_conforms k0 k1 n r : ∀ s rs s', match_right k0 k1 rs0 rs1 n r s = Ok (rs, s') → both rs.
Proof.
  induction n as [|n IH]; intros s rs s' Hm; [done|]. cbn [match_right] in Hm. destruct (decide _); [by injection Hm as <- <-|].
  apply bind_Ok in Hm as ([] & _ & Hm); [|by injection Hm as <- <-].
  apply bind_Ok in Hm as (r0 & G0 & Hm). apply bind_Ok in Hm as (r1 & G1 & Hm). apply bind_Ok in Hm as (r' & Ha & Hm).
  apply bind_Ok in Hm as ([rest s1] & Hrest & Hm). injection Hm as <- <-. constructor; [|by eapply IH].
  unfold deref in G0, G1. destruct (rs0 !! r) eqn:L0; [|done]. destruct (rs1 !! s) eqn:L1; [|done]. simplify_eq.
  eapply Append_conforms; [by eapply Forall_lookup_1|by eapply Forall_lookup_1|done].
Qed.
Lemma match_left_conforms k0 k1 n : ∀ r s s_ rs r' s', match_left k0 k1 rs0 rs1 n r s s_ = Ok (rs, r', s') → both rs.
Proof.
  induction n as [|n IH]; intros r s s_ rs r' s' Hm; [done|]. cbn [match_left] in Hm.
  destruct (decide _); [by injection Hm as <- _ _|]. destruct (decide _); [by injection Hm as <- _ _|].
  apply bind_Ok in Hm as ([] & _ & Hm); [|by injection Hm as <- _ _].
  apply bind_Ok in Hm as ([first i] & Hf & Hm). apply bind_Ok in Hm as ([[rest r1] s1] & Hrest & Hm). injection Hm as <- _ _.
  apply Forall_app. split; [by eapply match_right_conforms|by eapply IH].
Qed.
Lemma merge_loop_conforms k0 k1 n : ∀ r s rs, merge_loop k0 k1 rs0 rs1 n r s = Ok rs → both rs.
Proof.
  induction n as [|n IH]; intros r s rs Hm; [done|]. cbn [merge_loop] in Hm. destruct (decide _); [by injection Hm as <-|].
  destruct s as [s|]; [|done]. destruct (decide _); [by injection Hm as <-|].
  apply bind_Ok in Hm as (s1 & _ & Hm). apply bind_Ok in Hm as (r1 & _ & Hm). apply bind_Ok in Hm as ([[rs' r2] s2] & Hl & Hm).
  apply bind_Ok in Hm as (rest & Hrest & Hm). injection Hm as <-. apply Forall_app. split; [by eapply match_left_conforms|by eapply IH].
Qed.
End Joins.

Lemma every_row_join ts0 ts1 collect t0 t1 : every_row (conforms ts0) t0 → every_row (conforms ts1) t1 →
  (∀ rs0 rs1 rs, Forall (conforms ts0) rs0 → Forall (conforms ts1) rs1 → collect rs0 rs1 = Ok rs → Forall (conforms (ts0 ++ ts1)) rs) →
  every_row (conforms (ts0 ++ ts1)) (join_rows collect t0 t1).
Proof.
  intros Ht0 Ht1 Hc. unfold join_rows. destruct (all_rows t0) as [rs0|] eqn:G0; [|done]. destruct (all_rows t1) as [rs1|] eqn:G1; [|done].
  simpl. destruct (collect rs0 rs1) as [rs|] eqn:G2; [|done].
  assert (Forall (conforms (ts0 ++ ts1)) rs) as Hrs by (eapply Hc; [by eapply every_row_all|by eapply every_row_all|done]).
  clear -Hrs. induction Hrs as [|r rs Hr Hrs IH]; [done|]. cbn [rows_map]. destruct (copy_out r) as [r'|] eqn:Hc; [|done].
  split; [|done]. unfold conforms. by rewrite (copy_out_values _ _ Hc).
Qed.

(** ** Plans *)

(** The declared columns of a plan fit what is below it: [tabs] has the tables. *)
Section Plans.
Context (tabs : gmap Z (Table * list (list Rec))).

Fixpoint plan_typed (p : Operator) : bool :=
  match p with
  | AggregateOperator _ _ _ _ _ _ | HashJoinOperator _ _ _ _ _ _ => true
  | FilterOperator cl c _ | LimitOperator cl c _ _ | LockRowsOperator cl c _ _ | OrderByOperator cl c _ =>
      plan_typed c && bool_decide (types_of cl = types_of (OutputColumns c))
  | MergeJoinOperator cl l r _ _ _ | NestedLoopJoinOperator cl l r _ _ =>
      plan_typed l && plan_typed r && bool_decide (types_of cl = types_of (OutputColumns l) ++ types_of (OutputColumns r))
  | ProjectionOperator cl c exprs =>
      plan_typed c && forallb (columns_typed (types_of (OutputColumns c))) exprs && bool_decide (types_of cl = GetValueType <$> exprs)
  | SeqScanOperator cl oid _ _ _ =>
      match tabs !! oid with Some (t, _) => bool_decide (types_of cl = types_of (column_list_ t)) | None => true end
  | ValuesOperator cl values =>
      forallb (λ exprs, forallb (columns_typed []) exprs && bool_decide (types_of cl = GetValueType <$> exprs)) values
  | DeleteOperator _ _ _ | InsertOperator _ _ _ _ | UpdateOperator _ _ _ _ => false
  end.

(** No output expression is arithmetic on doubles or [length]. *)
Fixpoint outputs_exact (p : Operator) : bool :=
  match p with
  | AggregateOperator _ _ _ _ _ _ | HashJoinOperator _ _ _ _ _ _ | SeqScanOperator _ _ _ _ _ => true
  | FilterOperator _ c _ | LimitOperator _ c _ _ | LockRowsOperator _ c _ _ | OrderByOperator _ c _ => outputs_exact c
  | MergeJoinOperator _ l r _ _ _ | NestedLoopJoinOperator _ l r _ _ => outputs_exact l && outputs_exact r
  | ProjectionOperator _ c exprs => outputs_exact c && forallb exactly_typed exprs
  | ValuesOperator _ values => forallb (forallb exactly_typed) values
  | DeleteOperator _ _ _ | InsertOperator _ _ _ _ | UpdateOperator _ _ _ _ => true
  end.

(** The stored versions have the types of their tables. *)
Definition tables_typed : Prop := ∀ oid t pages, tabs !! oid = Some (t, pages) →
  Forall (Forall (λ r, record_wf r ∧ schema_ok (column_list_ t) (rvalues_ r))) pages.

Lemma versions_conform ctx active oid t pages : tables_typed → tabs !! oid = Some (t, pages) →
  Forall (conforms (types_of (column_list_ t))) (versions_seen (visible_entries ctx active pages)).
Proof using All.
  intros Htabs Ho. apply Forall_fmap, Forall_forall. intros x [_ Hx]%list_elem_of_filter.
  apply entry_place in Hx as (m & j & recs & _ & Hm & Hj).
  destruct (Forall_lookup_1 _ _ _ _ (Forall_lookup_1 _ _ _ _ (Htabs _ _ _ Ho) Hm) Hj). by apply read_version_conforms.
Qed.
Lemma values_conform `{Ecma} ts values :
  forallb (λ exprs, forallb (columns_typed []) exprs && bool_decide (ts = GetValueType <$> exprs)) values = true →
  forallb (forallb exactly_typed) values = true → every_row (conforms ts) (values_rows values).
Proof.
  induction values as [|es values IH]; [done|]. cbn [forallb values_rows]. intros [Ht Hts]%andb_prop [He Hes]%andb_prop.
  apply andb_prop in Ht as [Hc Ht]. apply bool_decide_eq_true in Ht. destruct (values_record es) as [r|] eqn:Hr; [|done].
  unfold values_record in Hr. apply bind_Ok in Hr as (vs & Hv & Hr). split; [|by apply IH].
  unfold conforms. rewrite (mk_Record_values _ _ _ Hr), Ht. by eapply (evaluate_all_types [] es None).
Qed.

Lemma plan_rows_conform `{Ecma} `{StdSortSpec} ctx active p : tables_typed → plan_typed p = true → outputs_exact p = true →
  every_row (conforms (types_of (OutputColumns p))) (plan_rows ctx active tabs p).
Proof using All.
  intros Htabs. induction p as [cl c IH|cl c IH|cl c IH predicate|cl l IHl r IHr lk rk jt|cl c IH|cl c IH limit_count limit_offset|
    cl c IH oid lock_type|cl l IHl r IHr lk rk jt|cl l IHl r IHr cond jt|cl c IH order_bys|cl c IH exprs|
    cl oid name alias lock|cl c IH|cl values]; cbn [plan_typed outputs_exact plan_rows OutputColumns]; try done; intros Ht He;
    repeat match goal with H : _ && _ = true |- _ => apply andb_prop in H as [? ?] | H : bool_decide _ = true |- _ => apply bool_decide_eq_true in H end;
    try match goal with H : types_of cl = types_of _ |- _ => rewrite H | H : types_of cl = types_of _ ++ _ |- _ => rewrite H end.
  - apply every_row_filter. auto.
  - apply every_row_limit. auto.
  - auto.
  - apply every_row_join; [auto..|]. intros. by eapply merge_loop_conforms.
  - apply every_row_join; [auto..|]. intros. by eapply nested_collect_conforms.
  - apply every_row_order; [apply _|auto].
  - eapply every_row_mono; [|eapply every_row_project; [eassumption..|auto]]. intros r. congruence.
  - destruct (tabs !! oid) as [[t pages]|] eqn:Ho; [|done]. apply bool_decide_eq_true in Ht. rewrite Ht. apply every_row_of.
    by apply (versions_conform ctx active oid).
  - by apply values_conform.
Qed.
End Plans.

(** ** What the planner declares *)

Lemma AddColumn_columns cs : ∀ cl, columns_ (fold_left AddColumn cs cl) = columns_ cl ++ cs.
Proof. induction cs as [|c cs IH]; intros cl; simpl; [by rewrite app_nil_r|]. rewrite IH. simpl. by rewrite <- app_assoc. Qed.

(** Positions are not negative, in every list that [AddColumn] made. *)
Definition positions (cl : ColumnList) : Prop := ∀ n i, col2idx_ cl !! n = Some i → 0 <= i.
Lemma positions_empty : positions ColumnList_empty.
Proof. by intros n i Hi. Qed.
Lemma positions_add cs : ∀ cl, positions cl → positions (fold_left AddColumn cs cl).
Proof.
  induction cs as [|c cs IH]; intros cl Hcl; [done|]. apply IH. intros n i. simpl. intros [[_ <-]|[_ Hi]]%lookup_insert_Some; [lia|by eapply Hcl].
Qed.

Lemma GetColumnList_types table : types_of (GetColumnList table) = types_of (bt_column_list_ table).
Proof. unfold types_of, GetColumnList. rewrite AddColumn_columns. simpl. rewrite <- list_fmap_compose. done. Qed.
Lemma GetJoinColumnList_types l r : types_of (GetJoinColumnList l r) = types_of l ++ types_of r.
Proof. unfold types_of, GetJoinColumnList. rewrite !AddColumn_columns. simpl. apply fmap_app. Qed.
Lemma GetColumnList_positions table : positions (GetColumnList table).
Proof. apply positions_add, positions_empty. Qed.
Lemma GetJoinColumnList_positions l r : positions (GetJoinColumnList l r).
Proof. do 2 apply positions_add. apply positions_empty. Qed.

Lemma infer_column_type name kinds e c : infer_column name kinds e = Ok c → ctype_ c = GetValueType e.
Proof.
  unfold infer_column. destruct (IsString _); [case_bool_decide; [by intros [= <-]|done]|].
  unfold mk_ColumnDefinition. intros (n & _ & Hc)%bind_Ok. by injection Hc as <-.
Qed.
Lemma infer_numbered_types kinds es : ∀ idx cl cl', infer_numbered kinds idx es cl = Ok cl' → types_of cl' = types_of cl ++ (GetValueType <$> es).
Proof.
  induction es as [|e es IH]; intros idx cl cl' Hi; simpl in Hi; [injection Hi as <-; simpl; by rewrite app_nil_r|].
  apply bind_Ok in Hi as (c & Hc & Hi). rewrite (IH _ _ _ Hi). unfold types_of. simpl. rewrite fmap_app. simpl.
  by rewrite (infer_column_type _ _ _ _ Hc), <- app_assoc.
Qed.
Lemma rename_columns_types cs : ∀ ns cl cl', rename_columns cs ns cl = Ok cl' → types_of cl' = types_of cl ++ (ctype_ <$> cs).
Proof.
  induction cs as [|c cs IH]; intros ns cl cl' Hr; simpl in Hr; [injection Hr as <-; simpl; by rewrite app_nil_r|].
  destruct ns as [|n ns]; [done|]. rewrite (IH _ _ _ Hr). unfold types_of. simpl. rewrite fmap_app. simpl. by rewrite <- app_assoc.
Qed.
Lemma output_types es ns inferred cl : InferColumnList es = Ok inferred → RenameColumnList inferred ns = Ok cl → types_of cl = GetValueType <$> es.
Proof. intros Hi Hr. rewrite (rename_columns_types _ _ _ _ Hr). simpl. exact (infer_numbered_types _ _ _ _ _ Hi). Qed.

(** *** Expressions *)

Lemma seqM_keeps {S A B} (f : A → M S B) (I : S → Prop) (Q : B → Prop) l :
  Forall (λ a, ∀ s b s', I s → f a s = (Ok b, s') → I s' ∧ Q b) l →
  ∀ s bs s', I s → seqM (map f l) s = (Ok bs, s') → I s' ∧ Forall Q bs.
Proof.
  induction 1 as [|a l Ha Hl IH]; intros s bs s' Hs Hm; [by injection Hm as <- <-|].
  apply M_bind_Ok in Hm as (b & s1 & Hb & Hm). apply M_bind_Ok in Hm as (bs' & s2 & Hb0 & Hm). injection Hm as <- <-.
  destruct (Ha _ _ _ Hs Hb) as [Hs1 Hq]. destruct (IH _ _ _ Hs1 Hb0) as [Hs2 Hqs]. split; [done|by constructor].
Qed.

Section Expressions.
Context `{Fmt} (cl : ColumnList).
Hypothesis Hcl : positions cl.
#[local] Notation typed p := (columns_typed (types_of cl) (pl_expr p) = true).

(** The expressions behind the aliases are over the columns [cl], and there are no
    aggregates. *)
Definition planner_typed (st : Planner) : Prop := Forall (λ p, typed p) (alias_objects_ st) ∧ aggregate_exprs_ st = [].

Lemma child_column_typed name i col_name e : TryGetColumnIndex cl name = Some i → child_column cl i col_name = Ok e →
  columns_typed (types_of cl) e = true.
Proof using Hcl.
  intros Hi. unfold child_column. intros (c & Hc & He)%bind_Ok. injection He as <-. cbn [columns_typed]. apply bool_decide_eq_true.
  split; [by eapply Hcl|]. unfold GetColumn in Hc. destruct (columns_ cl !! Z.to_nat i) as [c'|] eqn:Hl; [|done]. injection Hc as ->.
  unfold types_of. by rewrite list_lookup_fmap, Hl.
Qed.

Lemma PlanColumnRef_typed name st p st' : planner_typed st → PlanColumnRef name [cl] st = (Ok p, st') → planner_typed st' ∧ typed p.
Proof using Hcl.
  intros Hst Hp. unfold PlanColumnRef in Hp. inv_run. destruct (TryGetColumnIndex cl name) as [i|] eqn:Hi.
  - inv_run. split; [done|]. by eapply child_column_typed.
  - destruct (named name st) as [|n [|? ?]]; try by inv_run.
    destruct (alias_objects_ st !! n) as [[e nm k]|] eqn:Hn; [|by inv_run]. destruct e; inv_run.
    split; [done|]. exact (Forall_lookup_1 _ _ _ _ (proj1 Hst) Hn).
Qed.

Lemma SetName_typed name p : typed p → typed (SetName name p).
Proof. destruct p as [e nm k]. by destruct e. Qed.
Lemma set_objects_typed aliases objects names st : planner_typed st → Forall (λ p, typed p) objects →
  planner_typed (set_aliases aliases objects names st).
Proof. by intros [_ Ha] Ho. Qed.
Lemma PlanAlias_typed name p st p' st' : planner_typed st → typed p → PlanAlias name p st = (Ok p', st') → planner_typed st' ∧ typed p'.
Proof.
  intros Hst Hp Hr. unfold PlanAlias in Hr. inv_run.
  assert (planner_typed s1 ∧ typed a1) as [Hs1 Hp1].
  { destruct a0; [|by inv_run]. inv_run. match goal with Hm : modify _ _ = (Ok _, _) |- _ => injection Hm as _ <- end. split; [|exact Hp]. apply set_objects_typed; [done|].
    case_bool_decide; [|apply Hst]. apply Forall_app. split; [apply Hst|]. by constructor. }
  assert (typed (SetName name a1)) as Hn by by apply SetName_typed. split; [|done].
  destruct (pl_id (SetName name a1)) as [n|]; [|by inv_run]. match goal with Hm : modify _ _ = (Ok _, _) |- _ => injection Hm as _ <- end. apply set_objects_typed; [done|].
  apply Forall_insert; [apply Hs1|done].
Qed.

Lemma BinaryFactory_typed ts op l r e : BinaryFactory op l r = Ok e → columns_typed ts l = true → columns_typed ts r = true →
  columns_typed ts e = true.
Proof.
  intros He Hl Hr. assert (columns_typed ts l && columns_typed ts r = true) as Hlr by by rewrite Hl, Hr.
  unfold BinaryFactory in He.
  repeat (match type of He with context [decide ?P] => destruct (decide P) end; [by injection He as <-|]). done.
Qed.

Lemma PlanExpression_typed e : ∀ st p st', planner_typed st → PlanExpression e [cl] st = (Ok p, st') → planner_typed st' ∧ typed p.
Proof using Hcl.
  induction e as [f d args IH|name e IH|op e0 e1 IH0 IH1|t e IH|c|v|f args IH|es IH|b e IH| |op e IH|] using Expression_induction;
    intros st p st' Hst Hp; cbn [PlanExpression] in Hp.
  - inv_run. destruct Hst as [_ Ha]. rewrite Ha in Hp. by inv_run.
  - inv_run. destruct (IH _ _ _ Hst Hr) as [Hs1 H1]. by eapply PlanAlias_typed.
  - inv_run. destruct (IH0 _ _ _ Hst Hr) as [Hs1 H1]. destruct (IH1 _ _ _ Hs1 Hr0) as [Hs2 H2]. split; [done|]. by eapply BinaryFactory_typed.
  - inv_run. by apply IH in Hr.
  - by apply PlanColumnRef_typed in Hp.
  - by inv_run.
  - inv_run. destruct (seqM_keeps (λ e, PlanExpression e [cl]) planner_typed (λ p, typed p) args IH _ _ _ Hst Hr) as [Hs1 Hps].
    split; [done|]. unfold mk_FuncCall in Hr0. apply bind_Ok in Hr0 as (? & _ & Hc).
    assert (a0 = FuncCall f (pl_expr <$> a)) as -> by (destruct (pl_expr <$> a) as [|? []]; [done|destruct (IsString _); [by injection Hc as <-|done]|done]).
    cbn [columns_typed pl_expr fresh_expr]. apply forallb_forall. intros o Ho. apply list_elem_of_In, list_elem_of_fmap in Ho as (y & -> & Hy).
    by apply (proj1 (Forall_forall _ _) Hps).
  - inv_run. destruct (seqM_keeps (λ e, PlanExpression e [cl]) planner_typed (λ p, typed p) es IH _ _ _ Hst Hr) as [Hs1 Hps].
    split; [done|]. cbn [columns_typed pl_expr fresh_expr]. apply forallb_forall. intros o Ho. apply list_elem_of_In, list_elem_of_fmap in Ho as (y & -> & Hy).
    by apply (proj1 (Forall_forall _ _) Hps).
  - inv_run. by apply IH in Hr.
  - by inv_run.
  - inv_run. apply IH in Hr as [Hs1 H1]; [|done]. destruct (decide _); [|by inv_run]. inv_run. split; [done|].
    unfold mk_Logic1 in Hr. destruct (decide _); [|done]. injection Hr as <-. cbn [columns_typed pl_expr fresh_expr]. by rewrite H1.
  - by inv_run.
Qed.
End Expressions.

(** *** FROM *)

Section Select.
Context `{Fmt} `{Ecma} (tabs : gmap Z (Table * list (list Rec))).

(** The bound tables have the columns of the loaded ones; there is no VALUES list,
    whose columns are typed by its first row. *)
Fixpoint from_typed (ref : TableRef) : bool :=
  match ref with
  | BaseTable table =>
      match tabs !! bt_oid_ table with
      | Some (t, _) => bool_decide (types_of (bt_column_list_ table) = types_of (column_list_ t))
      | None => true
      end
  | CrossJoinRef t0 t1 | JoinRef _ t0 t1 _ => from_typed t0 && from_typed t1
  | ExpressionListRef _ => false
  | EmptyRef => true
  end.

(** A plan over typed children whose positions are good. *)
Definition typed_plan (p : Operator) : Prop := plan_typed tabs p = true ∧ positions (OutputColumns p).

Lemma join_typed force_join l r e t : typed_plan l → typed_plan r → typed_plan (join_operator force_join l r e t).
Proof.
  intros [Hl _] [Hr _]. assert (positions (GetJoinColumnList (OutputColumns l) (OutputColumns r))) as Hp by apply GetJoinColumnList_positions.
  unfold join_operator. destruct force_join, (equal_keys e) as [[k0 k1]|]; (split; [|exact Hp]); cbn [plan_typed OutputColumns];
    rewrite ?Hl, ?Hr, ?GetJoinColumnList_types; rewrite ?bool_decide_eq_true_2 by done; done.
Qed.

Lemma PlanTableRef_typed force_join ref : ∀ lock st p st', from_typed ref = true → PlanTableRef force_join ref lock st = (Ok p, st') → typed_plan p.
Proof.
  induction ref as [table|t0 IH0 t1 IH1| |vs|t t0 IH0 t1 IH1 e]; intros lock st p st' Hf Hp; cbn [from_typed PlanTableRef] in *.
  - inv_run. split; [|apply GetColumnList_positions]. cbn [plan_typed]. rewrite GetColumnList_types. exact Hf.
  - apply andb_prop in Hf as [H0' H1']. inv_run. apply (join_typed FJ_NONE); eauto.
  - by inv_run.
  - done.
  - apply andb_prop in Hf as [H0' H1']. inv_run. apply join_typed; eauto.
Qed.

Lemma plan_from_typed force_join s st p st' : from_typed (sel_table_ s) = true → plan_from force_join s st = (Ok p, st') → typed_plan p.
Proof.
  intros Hf Hp. unfold plan_from in Hp. destruct (sel_table_ s); try by eapply PlanTableRef_typed.
  inv_run. split; [done|apply positions_empty].
Qed.

(** *** The clauses of SELECT *)

Section Clauses.
Context (cl : ColumnList) (Hcl : positions cl) (s : SelectStatement).
#[local] Notation state := (planner_typed cl).
#[local] Notation over p := (OutputColumns p = cl ∧ plan_typed tabs p = true).

Lemma where_typed plan st p st' : over plan → state st → plan_where s plan st = (Ok p, st') → over p ∧ state st'.
Proof using Hcl.
  intros [Ho Ht] Hst Hp. unfold plan_where in Hp. destruct (where_ s) as [e|]; [|by inv_run]. inv_run. rewrite Ho in *.
  apply PlanExpression_typed in Hr as [Hs1 _]; [|done..]. split; [|done]. split; [done|]. cbn [plan_typed OutputColumns].
  by rewrite Ht, Ho, bool_decide_eq_true_2.
Qed.
Lemma aliases_typed items : ∀ st b st', state st → add_select_aliases items cl st = (Ok b, st') → state st'.
Proof using Hcl.
  induction items as [|item items IH]; intros st b st' Hst Hp; cbn [add_select_aliases] in Hp; [by inv_run|]. inv_run.
  assert (state s0) as Hs0; [|by eapply IH].
  destruct item as [| n e | | | | | | | | | |]; try by inv_run. destruct e; inv_run; try done; by eapply PlanExpression_typed.
Qed.
Lemma order_typed plan st p st' : over plan → state st → plan_order_by s plan st = (Ok p, st') → over p ∧ state st'.
Proof using Hcl.
  intros [Ho Ht] Hst Hp. unfold plan_order_by in Hp. case_bool_decide; [by inv_run|]. inv_run. rewrite Ho in *.
  assert (∀ (o : OrderByType * Expression) st1 b st2, state st1 → (p ← PlanExpression o.2 [cl]; mret (o.1, pl_expr p)) st1 = (Ok b, st2) → state st2 ∧ True) as Hitem.
  { clear -Hcl. intros o st1 b st2 Hs1 Hb. inv_run. by apply PlanExpression_typed in Hr as [? _]. }
  destruct (seqM_keeps _ state (λ _ : OrderByType * OperatorExpression, True) (order_by_ s) (Forall_true _ _ Hitem) _ _ _ Hst Hr) as [Hs1 _].
  split; [|done]. split; [done|]. cbn [plan_typed OutputColumns]. by rewrite Ht, Ho, bool_decide_eq_true_2.
Qed.
Lemma count_typed clause message st o st' : state st → plan_count clause cl message st = (Ok o, st') → state st'.
Proof using Hcl.
  intros Hst Hp. unfold plan_count in Hp. destruct clause as [e|]; [|by inv_run]. inv_run. destruct (_ <? 0); inv_run. by eapply PlanExpression_typed.
Qed.
Lemma limit_typed plan st p st' : over plan → state st → plan_limit s plan st = (Ok p, st') → over p ∧ state st'.
Proof using Hcl.
  intros [Ho Ht] Hst Hp. unfold plan_limit in Hp. destruct (_ || _); [|by inv_run]. inv_run. rewrite Ho in *.
  split; [|by eapply count_typed; [eapply count_typed|]]. split; [done|]. cbn [plan_typed OutputColumns]. by rewrite Ht, Ho, bool_decide_eq_true_2.
Qed.
Lemma lock_typed plan st p st' : over plan → plan_lock s plan st = (Ok p, st') → over p.
Proof.
  intros [Ho Ht] Hp. unfold plan_lock in Hp. destruct (lock_type_ s), (sel_table_ s); inv_run; try done;
    (split; [done|]); cbn [plan_typed OutputColumns]; by rewrite Ht, bool_decide_eq_true_2.
Qed.
Lemma projection_typed ps plan st p st' : over plan → Forall (λ p, columns_typed (types_of cl) (pl_expr p) = true) ps →
  plan_projection s ps plan st = (Ok p, st') → plan_typed tabs p = true.
Proof.
  intros [Ho Ht] Hps Hp. unfold plan_projection in Hp. inv_run. destruct (distinct_ s); [done|]. cbn [plan_typed].
  rewrite Ht, Ho, (output_types _ _ _ _ Hr Hr0), bool_decide_eq_true_2 by done. rewrite andb_true_r. apply forallb_forall.
  intros o Hin. apply list_elem_of_In, list_elem_of_fmap in Hin as (y & -> & Hy). by apply (proj1 (Forall_forall _ _) Hps).
Qed.
End Clauses.

(** *** Aggregates

    [AggregateExecutor] delivers nothing, and neither does what is above it. *)

Context `{StdSortSpec}.
Definition no_rows (p : Operator) : Prop := ∀ ctx active, every_row (λ _, False) (plan_rows ctx active tabs p).

Lemma no_rows_project es t : every_row (λ _, False) t → every_row (λ _, False) (project_rows es t).
Proof. by destruct t as [| |r t]; [..|intros []]. Qed.
Lemma aggregate_no_rows stmt child st p stmt' st' : PlanAggregate stmt child st = (Ok (p, stmt'), st') → no_rows p.
Proof.
  intros Hp ctx active. unfold PlanAggregate in Hp. inv_run. destruct (having_ (set_clauses _ _ _ _)); inv_run.
  - injection Hp as <- _ _. by apply every_row_filter.
  - by injection Hp as <- _ _.
Qed.
Lemma order_no_rows s plan st p st' : no_rows plan → plan_order_by s plan st = (Ok p, st') → no_rows p.
Proof.
  intros Hn Hp. unfold plan_order_by in Hp. case_bool_decide; [by inv_run|]. inv_run. intros ctx active. cbn [plan_rows].
  apply every_row_order; [apply _|]. apply Hn.
Qed.
Lemma limit_no_rows s plan st p st' : no_rows plan → plan_limit s plan st = (Ok p, st') → no_rows p.
Proof.
  intros Hn Hp. unfold plan_limit in Hp. destruct (_ || _); [|by inv_run]. inv_run. intros ctx active. cbn [plan_rows]. apply every_row_limit, Hn.
Qed.
Lemma lock_no_rows s plan st p st' : no_rows plan → plan_lock s plan st = (Ok p, st') → no_rows p.
Proof. intros Hn Hp. unfold plan_lock in Hp. destruct (lock_type_ s), (sel_table_ s); inv_run; done. Qed.
Lemma projection_no_rows s ps plan st p st' : no_rows plan → plan_projection s ps plan st = (Ok p, st') → no_rows p.
Proof.
  intros Hn Hp. unfold plan_projection in Hp. inv_run. intros ctx active. destruct (distinct_ s); [done|]. cbn [plan_rows].
  apply no_rows_project, Hn.
Qed.

(** The plan of any SELECT is typed, or delivers nothing. *)
Lemma PlanSelect_typed force_join s scan p st : plan_from force_join s Planner_new = (Ok scan, Planner_new) →
  from_typed (sel_table_ s) = true → PlanSelect force_join s Planner_new = (Ok p, st) → plan_typed tabs p = true ∨ no_rows p.
Proof.
  intros Hfrom Hf Hp. destruct (plan_from_typed force_join s _ _ _ Hf Hfrom) as [Ht Hpos]. unfold PlanSelect in Hp.
  rewrite (M_bind_step _ _ _ _ _ Hfrom) in Hp. set (cl := OutputColumns scan) in *.
  assert (planner_typed cl Planner_new) as Hst by (split; [constructor|done]).
  apply M_bind_Ok in Hp as (p1 & s1 & G1 & Hp). destruct (where_typed cl Hpos s _ _ _ _ (conj eq_refl Ht) Hst G1) as [[Ho1 Ht1] Hs1].
  apply M_bind_Ok in Hp as (agg & s2 & G2 & Hp). rewrite Ho1 in G2. pose proof (aliases_typed cl Hpos _ _ _ _ Hs1 G2) as Hs2.
  apply M_bind_Ok in Hp as ([p2 stmt] & s3 & G3 & Hp). apply M_bind_Ok in Hp as (ps & s4 & G4 & Hp).
  apply M_bind_Ok in Hp as (p5 & s5 & G5 & Hp). apply M_bind_Ok in Hp as (p6 & s6 & G6 & Hp). apply M_bind_Ok in Hp as (p7 & s7 & G7 & Hp).
  destruct (_ || _).
  - right. apply aggregate_no_rows in G3. eauto using order_no_rows, limit_no_rows, lock_no_rows, projection_no_rows.
  - left. apply mret_Ok in G3 as [G3 ->]. injection G3 as <- <-. rewrite Ho1 in G4.
    destruct (seqM_keeps (λ item, PlanExpression item [cl]) (planner_typed cl) (λ p, columns_typed (types_of cl) (pl_expr p) = true) (select_list_ s)
      (Forall_true _ _ (λ e, PlanExpression_typed cl Hpos e)) _ _ _ Hs2 G4) as [Hs4 Hps].
    destruct (order_typed cl Hpos s _ _ _ _ (conj Ho1 Ht1) Hs4 G5) as [H5' Hs5]. destruct (limit_typed cl Hpos s _ _ _ _ H5' Hs5 G6) as [H6' _].
    exact (projection_typed cl s _ _ _ _ _ (lock_typed cl s _ _ _ _ H6' G7) Hps Hp).
Qed.
End Select.

(** ** Properties *)

(** C7: the answers of a SELECT have the types its plan declares. Whatever the
    clauses, when FROM has tables and joins of them, bound with the columns of the
    loaded tables, and no output is arithmetic on doubles or [length], every value of
    every record that running the plan returns is NULL or of the type of its output
    column. *)
Theorem select_rows_typed `{Fmt} `{MapOrder} `{Allocator} `{Ecma} `{StdSortSpec} db_of base fuel ctx active hist tabs want
    force_join s scan plan st sys sys' records :
  plan_from force_join s Planner_new = (Ok scan, Planner_new) → from_typed tabs (sel_table_ s) = true →
  PlanSelect force_join s Planner_new = (Ok plan, st) → outputs_exact plan = true →
  sys_is db_of base ctx active hist tabs want sys → plan_ok ctx active tabs fuel want plan →
  (rows_len (plan_rows ctx active tabs plan) < fuel)%nat → run_plan fuel ctx plan sys = (Ok records, sys') →
  Forall (conforms (types_of (OutputColumns plan))) records.
Proof.
  intros Hfrom Hf Hp He Hsys Hok Hlen Hrun.
  assert (tables_typed tabs) as Htabs.
  { intros oid t pages Ho. destruct (si_table _ _ _ _ _ _ _ _ Hsys _ _ _ Ho) as (_ & _ & Hs). apply (sc_records _ _ _ _ _ _ Hs). }
  assert (every_row (conforms (types_of (OutputColumns plan))) (plan_rows ctx active tabs plan)) as Hrows.
  { destruct (PlanSelect_typed tabs force_join s scan plan st Hfrom Hf Hp) as [Ht|Hn]; [by apply plan_rows_conform|].
    eapply every_row_mono; [|apply Hn]. done. }
  destruct (run_plan_drain db_of base fuel ctx active hist tabs want plan sys Hok Hsys) as (e & Hdrain & Hd). rewrite Hdrain in Hrun.
  pose proof (drain_run (H := executor fuel ctx plan) _ fuel _ e sys Hd Hlen Hsys) as Hdr.
  destruct (all_rows (plan_rows ctx active tabs plan)) as [rs|x] eqn:Hall.
  - destruct Hdr as (e' & s' & Hdr & _). rewrite Hdr in Hrun. injection Hrun as <- _. by eapply every_row_all.
  - destruct Hdr as ([e' s'] & Hdr). by rewrite Hdr in Hrun.
Qed.

(** SELECT c AS x, a + 1 FROM t ORDER BY x LIMIT 1 *)
Definition ex_typed_select : SelectStatement :=
  mkSelect (BaseTable ex_ref) [AliasExpression "x" (ex_column_ref "c"); BinaryOpExpression "+" (ex_column_ref "a") (ex_int 1)]
    None [] None [(ASC, ColumnRefExpression ["x"])] (Some (ex_int 1)) None NOLOCK false.
#[local] Instance ex_typing_fmt : Fmt := { fmt_double := λ _, ""; fmt_vector := String.concat ", " }.

Lemma select_rows_typed_witness :
  ∃ plan st w hist r sys', PlanSelect FJ_NONE ex_typed_select Planner_new = (Ok plan, st) ∧
    run_plan (H2 := insertion_sort) 3 ex_ctx plan (ex_system w) = (Ok [r], sys') ∧
    sys_is ex_db_of 0 ex_ctx {[5]} hist ex_tabs None (ex_system w) ∧
    GetValues r = [Value_string "ab" VARCHAR; Value_int (-6)] ∧ Forall (conforms [VARCHAR; INT]) [r].
Proof.
  destruct (PlanSelect FJ_NONE ex_typed_select Planner_new) as [[plan|x] st] eqn:Hp; [|vm_compute in Hp; discriminate].
  destruct (plan_from FJ_NONE ex_typed_select Planner_new) as [[scan|x] st0] eqn:Hf; [|vm_compute in Hf; discriminate].
  assert (st0 = Planner_new) as -> by (vm_compute in Hf; injection Hf as _ <-; reflexivity).
  destruct ex_table_one as (w & hist & Hs & _). pose proof (ex_sys_is w hist None Hs) as Hsys.
  assert (∃ r, plan_rows (H0 := insertion_sort) ex_ctx {[5]} ex_tabs plan = Row r Done ∧
    GetValues r = [Value_string "ab" VARCHAR; Value_int (-6)]) as (r & Hr & Hv).
  { vm_compute in Hp. injection Hp as <- _. eexists. split; [vm_compute; reflexivity|reflexivity]. }
  assert (types_of (OutputColumns plan) = [VARCHAR; INT] ∧ outputs_exact plan = true) as [Hty He].
  { vm_compute in Hp. injection Hp as <- _. by split. }
  assert (plan_ok (H0 := insertion_sort) ex_ctx {[5]} ex_tabs 3 None plan) as Hok.
  { vm_compute in Hp. injection Hp as <- _. cbn [plan_ok]. split_and!.
    - exists (with_first 0 ex_table), [[ex_version1]]. split; [apply lookup_singleton_eq|]. simpl. lia.
    - vm_compute. lia.
    - vm_compute. done.
    - intros n [= <-]. done.
    - done.
    - done. }
  destruct (run_plan_drain (H2 := insertion_sort) (H3 := insertion_sort_spec) ex_db_of 0 3 ex_ctx {[5]} hist ex_tabs None plan (ex_system w) Hok Hsys)
    as (e & Hdrain & Hd).
  pose proof (drain_run (H := executor (H2 := insertion_sort) 3 ex_ctx plan) _ 3 _ e _ Hd ltac:(rewrite Hr; simpl; lia) Hsys) as Hdr.
  rewrite Hr in Hdr. destruct Hdr as (e' & s' & Hdr & _). rewrite Hdr in Hdrain.
  exists plan, st, w, hist, r, s'. split; [reflexivity|]. split; [exact Hdrain|]. split; [exact Hsys|]. split; [exact Hv|]. rewrite <- Hty.
  exact (select_rows_typed (H3 := insertion_sort) (H4 := insertion_sort_spec) ex_db_of 0 3 ex_ctx {[5]} hist ex_tabs None FJ_NONE ex_typed_select scan plan st
    (ex_system w) s' [r] Hf eq_refl Hp He Hsys Hok ltac:(rewrite Hr; simpl; lia) Hdrain).
Defined.

(** The declared types are not those of the values for [length] and for arithmetic
    on doubles, nor for a later row of a VALUES list. *)
Example length_type :
  GetValueType (FuncCall "length" [Const (Value_string "ab" VARCHAR)]) = INT ∧
  type_ <$> Evaluate (FuncCall "length" [Const (Value_string "ab" VARCHAR)]) None = Ok UINT.
Proof. by split. Qed.
Example double_sum_type : let e := Arithmetic ADD (Const (Value_double 0)) (Const (Value_double 0)) in
  GetValueType e = INT ∧ type_ <$> Evaluate e None = Ok DOUBLE.
Proof. by split. Qed.
Example values_types :
  ∃ p st, PlanExpressionList [[ex_int 1]; [ConstExpression (Value_string "a" VARCHAR)]] Planner_new = (Ok p, st) ∧
    types_of (OutputColumns p) = [INT] ∧
    ∃ r1 r2, plan_rows (H0 := insertion_sort) ex_ctx ∅ ∅ p = Row r1 (Row r2 Done) ∧ type_ <$> rvalues_ r2 = [VARCHAR].
Proof.
  eexists _, _. split; [vm_compute; reflexivity|]. split; [reflexivity|]. eexists _, _. split; [vm_compute; reflexivity|reflexivity].
Qed.
