(* ===== verification/Statements.v ===== *)
(** The plans of INSERT, DELETE and UPDATE statements, run as
    [DatabaseEngine::ExecuteSql] runs them: constructor, [Init] and [Next] until
    it returns null. A DELETE or UPDATE is over a scan of its table under any
    number of filters, an INSERT over a VALUES list. *)
From S2P Require Import Prelude Memory Types StringUtil Disk Value Bitmap Column Record TablePage Lru LogRecord LogManager BufferPool Storage LockManager TransactionManager Visibility Table TableScan Like Expressions Executor Pipeline OrderBy Join Query Select Plan Dml.

Section Statements.
Context `{MapOrder} `{Allocator} `{Ecma} `{StdSort}.
Context (db_of : Z → Z) (base : Z) (fuel : nat) (ctx : ExecutorContext) (active : gset Z) (oid : Z).
#[local] Notation xid := (context_xid ctx).
#[local] Notation level := (context_level ctx).
#[local] Notation cid := (context_cid ctx).
#[local] Notation table_is := (table_is db_of base ctx active oid).
#[local] Notation statement_effect := (statement_effect db_of ctx oid).

(** What the theorems assume of the context: a transaction number, a command
    number, and a snapshot without the transaction itself. *)
Record context_ok : Prop := {
  co_xid : 0 <= xid < NULL_XID;
  co_cid : in_range 4 cid;
  co_own : level = REPEATABLE_READ → xid ∉ active
}.
Context (Hctx : context_ok).

(** ** The rows a plan touches *)

(** The versions of the table holding [pages] that reach the executor: those the
    transaction sees and the filters keep. *)
Fixpoint touched_rows (pages : list (list Rec)) (p : Operator) : list (Rid * Rec) :=
  match p with
  | FilterOperator _ c predicate => filter (kept predicate) (touched_rows pages c)
  | _ => visible_entries ctx active pages
  end.

(** The plan is a scan of the table under filters that do not fail. *)
Fixpoint scans (pages : list (list Rec)) (p : Operator) : Prop :=
  match p with
  | SeqScanOperator _ table_oid _ _ _ => table_oid = oid
  | FilterOperator _ c predicate => scans pages c ∧ Forall (decides predicate) (touched_rows pages c)
  | _ => False
  end.

(** The executor of such a plan is a cursor over its rows. *)
Lemma scans_cursor p hist t pages s : scans pages p → table_is hist t pages s →
  ∃ e0 e P, CreateExecutor p s = (Ok e0, s) ∧ Init (Executor := executor fuel ctx p) (e0, s) = (Ok (), (e, s)) ∧
    Cursor db_of base fuel ctx active oid (executor fuel ctx p) P ∧ P e pages (touched_rows pages p).
Proof using Hctx.
  destruct Hctx as [Hxid Hcid Hown]. revert s.
  induction p as [| |cl c IH predicate| | | | | | | | |cl table_oid name alias lock| |]; intros s Hp Ht; try done; cbn [scans touched_rows] in *.
  - destruct Hp as [Hp Hd]. destruct (IH s Hp Ht) as (c0 & c1 & P & Hc & Hi & Hcur & HP).
    exists (mkFilter predicate c0), (mkFilter predicate c1), (filter_cursor_at P predicate). split_and!.
    + cbn [CreateExecutor]. by rewrite (M_bind_step _ _ _ _ _ Hc).
    + exact (on_child_run _ _ (mkFilter predicate c0) _ _ _ _ _ Hi).
    + exact (filter_cursor db_of base fuel ctx active oid Hxid (executor fuel ctx c) P predicate).
    + by exists c1, (touched_rows pages c).
  - subst table_oid. pose proof Ht as [G1 G2 G3 _ _].
    exists (SeqScanExecutor_new oid), (scanning oid (mkRid (GetFirstPageId t) 0)), (scan_cursor_at ctx active oid).
    split; [done|]. split; [|split; [exact (scan_cursor db_of base fuel ctx active oid Hxid Hown)|]].
    + assert (GetTable oid s = (Ok oid, s)) as Hg by (unfold GetTable; rewrite get_step; by rewrite G1).
      cbn [Init executor SeqScanExecutor_]. unfold seqscan_init. rewrite self_get_step. cbn [scan_oid_ SeqScanExecutor_new].
      rewrite (on_sys_step _ _ _ _ _ _ Hg). assert (@get System s = (Ok s, s)) as Hget by done.
      rewrite (on_sys_step _ _ _ _ _ _ Hget), G1. by rewrite (lift_step _ _ _ _ eq_refl).
    + exists (mkRid (GetFirstPageId t) 0), (entries 0 pages). split; [done|]. split; [|done].
      unfold GetFirstPageId. rewrite (proj1 (sc_table _ _ _ _ _ _ G3)). apply entries_start, G3.
Qed.

(** A statement that returned its record returns null next. *)
Lemma drain_changed {E P} (X : Executor System (ChangeExecutor E P)) body n (f f' : ChangeExecutor E P) s s' r
    `{!Executor System E} :
  (∀ σ, Next (Executor := X) σ = change_next fuel body σ) → (1 < n)%nat → Next (Executor := X) (f, s) = (Ok (Some r), (f', s')) → ch_finished_ f' = true →
  drain (H := X) n (f, s) = (Ok [r], (f', s')).
Proof using.
  intros Hx Hn Hrun Hfin. destruct n as [|[|n]]; [lia..|]. cbn [drain]. rewrite (M_bind_step _ _ _ _ _ Hrun).
  assert (Next (Executor := X) (f', s') = (Ok None, (f', s'))) as Hnull.
  { rewrite Hx. unfold change_next. rewrite self_get_step. by rewrite Hfin. }
  rewrite bind_assoc_run. by rewrite (M_bind_step _ _ _ _ _ Hnull).
Qed.

Lemma run_plan_steps p e0 e e' (s s' : System) rs : CreateExecutor p s = (Ok e0, s) →
  Init (Executor := executor fuel ctx p) (e0, s) = (Ok (), (e, s)) →
  drain (H := executor fuel ctx p) fuel (e, s) = (Ok rs, (e', s')) → run_plan fuel ctx p s = (Ok rs, s').
Proof using.
  clear - ctx. intros Hc Hi Hd. unfold run_plan. rewrite Hc. cbv zeta. rewrite (M_bind_step _ _ _ _ _ Hi). by rewrite Hd.
Qed.

(** ** DELETE *)

Lemma delete_plan_run cl p room hist t pages s : 0 <= room → table_is hist t pages s → scans pages p →
  (length (entries 0 pages) < fuel)%nat → (1 < fuel)%nat → log_ready base hist xid (23 * Z.of_nat (length (touched_rows pages p)) + room) →
  ∃ hist' pages' s' r, run_plan fuel ctx (DeleteOperator cl p oid) s = (Ok [r], s') ∧
    GetValues r = [Value_uint (counted 0 (length (touched_rows pages p)))] ∧
    table_is hist' t pages' s' ∧ statement_effect s s' ∧ hist `prefix_of` hist' ∧
    entries 0 pages' = mark ctx (touched_rows pages p).*1 (entries 0 pages) ∧ log_ready base hist' xid room.
Proof using Hctx.
  destruct Hctx as [Hxid Hcid Hown]. intros Hr0 Ht Hp Hf Hf1 Hlog.
  destruct (scans_cursor p hist t pages s Hp Ht) as (c0 & c1 & P & Hc & Hi & Hcur & HP).
  destruct (delete_run db_of base fuel ctx active oid Hxid Hown (executor fuel ctx p) P hist pages t _ room Hr0 c1 s Ht HP Hf Hlog) as
    (f' & hist' & pages' & s' & r & Hrun & Hr & Hfin & Ht' & He & Hh & Hent & Hl).
  exists hist', pages', s', r. split; [|done].
  apply (run_plan_steps (DeleteOperator cl p oid) (running oid (mkDeletePlan oid) ColumnList_empty c0)
    (running oid (mkDeletePlan oid) ColumnList_empty c1) f').
  - cbn [CreateExecutor]. rewrite (M_bind_step _ _ _ _ _ Hc). unfold DeleteExecutor_new, GetTable.
    rewrite bind_assoc_run, get_step. cbn [del_oid_]. by rewrite (ti_table _ _ _ _ _ _ _ _ _ Ht).
  - exact (on_child_run ch_child_ set_ch_child (running oid (mkDeletePlan oid) ColumnList_empty c0) _ _ _ _ _ Hi).
  - exact (drain_changed (DeleteExecutor fuel ctx) _ fuel _ _ _ _ _ (λ _, eq_refl) Hf1 Hrun Hfin).
Qed.

(** ** UPDATE *)

Lemma update_plan_run cl p exprs room hist t pages s : 0 <= room → table_is hist t pages s → scans pages p → (1 < fuel)%nat →
  update_room base fuel fuel ctx hist pages (touched_rows pages p) room → Forall (updatable exprs t) (touched_rows pages p) →
  ∃ hist' t' pages' placed s' r, run_plan fuel ctx (UpdateOperator cl p oid exprs) s = (Ok [r], s') ∧
    GetValues r = [Value_uint (counted 0 (length (touched_rows pages p)))] ∧
    table_is hist' t' pages' s' ∧ statement_effect s s' ∧ hist `prefix_of` hist' ∧
    entries 0 pages' ≡ₚ mark ctx (touched_rows pages p).*1 (entries 0 pages) ++ placed ∧
    Forall2 (replaces ctx exprs) (touched_rows pages p) placed ∧ log_ready base hist' xid room.
Proof using Hctx.
  destruct Hctx as [Hxid Hcid Hown]. intros Hr0 Ht Hp Hf1 Hroom Hup.
  destruct (scans_cursor p hist t pages s Hp Ht) as (c0 & c1 & P & Hc & Hi & Hcur & HP).
  destruct (update_run db_of base fuel fuel ctx active oid Hxid Hcid Hown (executor fuel ctx p) P exprs hist pages t _ room Hr0 c1 s Ht HP Hroom Hup) as
    (f' & hist' & t' & pages' & placed & s' & r & Hrun & Hr & Hfin & Ht' & He & Hh & Hent & Hpl & Hl).
  exists hist', t', pages', placed, s', r. split; [|done].
  set (plan := mkUpdatePlan oid exprs). set (start c := UpdateExecutor_new (E := exec_type p) plan c).
  apply (run_plan_steps (UpdateOperator cl p oid exprs) (start c0) (running oid plan ColumnList_empty c1) f').
  - cbn [CreateExecutor]. by rewrite (M_bind_step _ _ _ _ _ Hc).
  - cbn [Init executor UpdateExecutor]. unfold update_init.
    rewrite (M_bind_step _ _ _ _ _ (on_child_run ch_child_ set_ch_child (start c0) _ _ _ _ _ Hi)).
    change (set_ch_child c1 (start c0)) with (start c1). rewrite self_get_step. cbn [ch_plan_ start UpdateExecutor_new upd_oid_ plan].
    assert (GetTable oid s = (Ok oid, s)) as Hg by (unfold GetTable; rewrite get_step; by rewrite (ti_table _ _ _ _ _ _ _ _ _ Ht)).
    by rewrite (on_sys_step _ _ _ _ _ _ Hg).
  - exact (drain_changed (UpdateExecutor fuel fuel ctx) _ fuel _ _ _ _ _ (λ _, eq_refl) Hf1 Hrun Hfin).
Qed.

(** ** INSERT *)

(** A child executor that delivers records and leaves the system alone. *)
Fixpoint supplies {E} `{Executor System E} (c : E) (rs : list Rec) : Prop :=
  match rs with
  | [] => ∃ c', ∀ s, Next (c, s) = (Ok None, (c', s))
  | r :: rs => ∃ c', (∀ s, Next (c, s) = (Ok (Some r), (c', s))) ∧ supplies c' rs
  end.

(** A VALUES list under select lists, the source of an INSERT without a table. *)
Fixpoint is_constant (p : Operator) : bool :=
  match p with ValuesOperator _ _ => true | ProjectionOperator _ c _ => is_constant c | _ => false end.

Lemma values_supply (values : list (list OperatorExpression)) : ∀ rs n todo, drop n values = todo → values_rows todo = rows_of rs →
  supplies (H3 := ValuesExecutor_) (mkValues values n) rs.
Proof using.
  clear. intros rs n todo. revert rs n. induction todo as [|es todo IH]; intros [|r rs] n Hd Hr; simpl in Hr; try done.
  - assert (values !! n = None) as Hn.
    { apply lookup_ge_None. apply (f_equal length) in Hd. rewrite length_drop in Hd. simpl in Hd. lia. }
    exists (mkValues values n). intros s. cbn [Next ValuesExecutor_]. rewrite self_get_step. cbn [value_lists_ cursor_]. by rewrite Hn.
  - by destruct (values_record es).
  - destruct (values_record es) as [r'|] eqn:He; [|done]. injection Hr as -> Hr.
    assert (values !! n = Some es) as Hn by (rewrite <- (Nat.add_0_r n), <- lookup_drop; by rewrite Hd).
    exists (mkValues values (S n)). split.
    + intros s. cbn [Next ValuesExecutor_]. rewrite self_get_step. cbn [value_lists_ cursor_]. rewrite Hn, (lift_step _ _ _ _ He).
      by rewrite self_modify_step.
    + apply IH; [|done]. by rewrite <- Nat.add_1_r, Nat.add_comm, <- skipn_skipn, Hd.
Qed.

Lemma projection_supply {E} `{Executor System E} es rs : ∀ (c : E) t rs', supplies c rs' → t = rows_of rs' → project_rows es t = rows_of rs →
  supplies (mkProjection es c) rs.
Proof using.
  clear. induction rs as [|r rs IH]; intros c t [|r' rs'] Hc -> Hr; simpl in *; try done.
  - destruct Hc as (c' & Hc). exists (mkProjection es c'). intros s. cbn [Next ProjectionExecutor_].
    by rewrite (M_bind_step _ _ _ _ _ (on_child_run proj_child_ set_proj_child (mkProjection es c) _ _ _ _ _ (Hc s))).
  - by destruct (project es r').
  - destruct (project es r') as [r''|] eqn:Hp; [|done]. injection Hr as -> Hr. destruct Hc as (c' & Hc & Hs).
    exists (mkProjection es c'). split; [|by eapply IH].
    intros s. cbn [Next ProjectionExecutor_].
    rewrite (M_bind_step _ _ _ _ _ (on_child_run proj_child_ set_proj_child (mkProjection es c) _ _ _ _ _ (Hc s))).
    rewrite self_get_step. cbn [proj_exprs_ set_proj_child]. by rewrite (lift_step _ _ _ _ Hp).
Qed.

(** The executor of such a plan. *)
Lemma constant_supply tabs p : ∀ rs, is_constant p = true → plan_rows ctx active tabs p = rows_of rs →
  ∃ c0 c1, (∀ s, CreateExecutor p s = (Ok c0, s)) ∧ (∀ s, Init (Executor := executor fuel ctx p) (c0, s) = (Ok (), (c1, s))) ∧
    supplies (H3 := executor fuel ctx p) c1 rs.
Proof using.
  clear - ctx fuel active. induction p as [| | | | | | | | | |cl p IH es| | |cl values]; intros rs Hp Hr; try done.
  - simpl in Hp, Hr. assert (∃ rs', plan_rows ctx active tabs p = rows_of rs') as [rs' Hrs'].
    { clear -Hr. revert rs Hr. generalize (plan_rows ctx active tabs p) as t. induction t as [|x|r t IHt]; intros rs Hr.
      - by exists [].
      - by destruct rs.
      - simpl in Hr. destruct (project es r) eqn:?; [|by destruct rs]. destruct rs; [done|]. injection Hr as _ Hr.
        destruct (IHt _ Hr) as [rs' ->]. by exists (r :: rs'). }
    destruct (IH rs' Hp Hrs') as (c0 & c1 & Hc & Hi & Hs). exists (mkProjection es c0), (mkProjection es c1). split_and!.
    + intros s. cbn [CreateExecutor]. by rewrite (M_bind_step _ _ _ _ _ (Hc s)).
    + intros s. exact (on_child_run proj_child_ set_proj_child (mkProjection es c0) _ _ _ _ _ (Hi s)).
    + eapply projection_supply; [exact Hs|exact Hrs'|exact Hr].
  - exists (mkValues values 0), (mkValues values 0). split_and!; [done..|]. by eapply values_supply.
Qed.

(** The record that is stored for a record of the child: its values go to the
    inserted columns, the other columns are NULL, and it fits the table. *)
Definition insertable (t : Table) (plan : InsertPlan) (r new : Rec) : Prop :=
  insert_record (column_list_ t) plan r = Ok new ∧
  record_wf new ∧ schema_ok (column_list_ t) (rvalues_ new) ∧ rsize_ new <= MAX_RECORD_SIZE.
Definition added (new : Rec) (e : Rid * Rec) : Prop := e.2 = stamp new xid cid.

Section Insert.
Context {E : Type} `{Executor System E} (plan : InsertPlan) (Hplan : ins_oid_ plan = oid).
Context (room : Z) (Hroom0 : 0 <= room).

(** The executor between two records. *)
Definition inserting (cl : ColumnList) (c : E) : ChangeExecutor E InsertPlan := mkChange plan (Some oid) cl false c.

Lemma insert_step f r new hist t pages s rest : ch_plan_ f = plan → ch_table_ f = Some oid → ch_columns_ f = column_list_ t →
  table_is hist t pages s → insert_record (column_list_ t) plan r = Ok new →
  record_wf new → schema_ok (column_list_ t) (rvalues_ new) → rsize_ new <= MAX_RECORD_SIZE →
  (length pages < fuel)%nat → Z.of_nat (S (length pages)) < NULL_PAGE_ID → log_ready base hist xid (52 + rsize_ new + rest) → 0 <= rest →
  ∃ hist' s', insert_row (E := E) fuel ctx r (f, s) = (Ok (), (f, s')) ∧
    table_is hist' (with_first 0 t) (versions_insert (stamp new xid cid) pages) s' ∧ statement_effect s s' ∧
    hist `prefix_of` hist' ∧ log_ready base hist' xid rest.
Proof using Hctx Hplan.
  destruct Hctx as [Hxid Hcid Hown]. intros Hfp Hft Hfc Ht Hnew Hnwf Hsch Hsz Hpg Hpg2 Hlog Hrest.
  destruct (allowed_table _ LX _ _ oid (ti_locks _ _ _ _ _ _ _ _ _ Ht) eq_refl) as (lm' & Hlock & Hg).
  destruct (locked_step _ _ _ _ _ _ _ _ _ lm' Ht Hg) as [Ht1 He1].
  destruct (InsertRecord_versions db_of base fuel hist t pages (sys_pool s) new xid cid true (ti_scan _ _ _ _ _ _ _ _ _ Ht) Hnwf)
    as (w2 & Hins & Hs2 & Hte2 & _); [done|by apply xid_range|done..|intros _; eapply log_ready_less; [exact Hlog|lia]|].
  destruct (table_step _ _ _ _ _ _ _ _ _ _ (with_first 0 t) _ w2 Ht1 (ti_oid _ _ _ _ _ _ _ _ _ Ht1) Hs2 Hte2) as [Ht2 He2].
  set (v := stamp new xid cid) in *. set (rid := insert_rid _ _) in Hins.
  destruct (lock_row_step _ _ _ _ _ f _ _ _ _ rid "insert lock failed!" Ht2) as (s3 & Hlock3 & Ht3 & He3).
  do 2 eexists. split; [|split; [exact Ht3|split; [etrans; [exact He1|by etrans]|split; [apply inserted_prefix|]]]].
  - unfold insert_row. rewrite self_get_step. rewrite Hfp, Hfc, Hplan. rewrite (lift_step _ _ _ _ Hnew).
    rewrite (on_sys_step _ _ _ _ _ _ (on_lock_manager_run _ _ _ _ Hlock)). cbn [negb].
    by rewrite (M_bind_step _ _ _ _ _ (member_table_run _ f _ _ _ _ _ _ Hft (ti_table _ _ _ _ _ _ _ _ _ Ht1) Hins)).
  - eapply inserted_log_ready; [done|exact Hs2|]. eapply log_ready_less; [exact Hlog|]. unfold v.
    rewrite stamp_bytes_len, <- (rw_size _ Hnwf). lia.
Qed.

(** What there must be room for. *)
Record insert_room (k : nat) (hist : list LogRecord) (pages : list (list Rec)) : Prop := {
  ir_log : log_ready base hist xid (ROW_LOG * Z.of_nat k + room);
  ir_pages : (length pages + k < fuel)%nat;
  ir_numbers : Z.of_nat (length pages + k) < NULL_PAGE_ID
}.

Lemma insert_loop todo : ∀ news m c count hist t pages s, supplies c todo → Forall2 (insertable t plan) todo news →
  (length todo < m)%nat → table_is hist t pages s → insert_room (length todo) hist pages →
  ∃ f' hist' t' pages' placed s', change_loop (insert_row fuel ctx) m count (inserting (column_list_ t) c, s) =
      (Ok (counted count (length todo)), (f', s')) ∧
    table_is hist' t' pages' s' ∧ statement_effect s s' ∧ hist `prefix_of` hist' ∧
    entries 0 pages' ≡ₚ entries 0 pages ++ placed ∧ Forall2 added news placed ∧ log_ready base hist' xid room.
Proof using Hctx Hplan Hroom0.
  induction todo as [|x todo IH]; intros news [|m] c count hist t pages s Hc Hall Hm Ht Hroom; simpl in Hm; try lia; cbn [change_loop].
  - inversion Hall; subst. destruct Hc as (c' & Hc).
    rewrite (M_bind_step _ _ _ _ _ (on_child_run ch_child_ set_ch_child (inserting (column_list_ t) c) _ _ _ _ _ (Hc s))).
    eexists _, hist, t, pages, [], s. rewrite app_nil_r. destruct Hroom as [Hlog _ _]. by split_and!.
  - inversion Hall as [|? new ? news' (Hnew & Hwf & Hsch & Hsz) Hrest Heq1 Heq2]; subst. destruct Hc as (c' & Hc & Hs).
    rewrite (M_bind_step _ _ _ _ _ (on_child_run ch_child_ set_ch_child (inserting (column_list_ t) c) _ _ _ _ _ (Hc s))).
    change (set_ch_child _ _) with (inserting (column_list_ t) c').
    destruct Hroom as [Hlog Hpg Hpg2]. simpl in Hpg, Hpg2. pose proof (row_log_nonneg (length todo)) as Hrl.
    destruct (insert_step (inserting (column_list_ t) c') x new hist t pages s (ROW_LOG * Z.of_nat (length todo) + room) eq_refl eq_refl eq_refl Ht Hnew Hwf Hsch Hsz)
      as (hist1 & s1 & Hb & Ht1 & He1 & Hp1 & Hl1); [lia|lia| |lia|].
    { eapply log_ready_less; [exact Hlog|]. pose proof (row_log_S _ (length todo) Hsz). simpl length. lia. }
    rewrite (M_bind_step _ _ _ _ _ Hb). pose proof (versions_insert_length (stamp new xid cid) pages) as Hvl.
    destruct (IH news' m c' (u32 (count + 1)) hist1 (with_first 0 t) (versions_insert (stamp new xid cid) pages) s1) as
      (f' & hist' & t' & pages' & placed & s' & Hl & Ht' & He' & Hh' & Hent & Hpl & Hlast); [done|done|lia|exact Ht1|split; [done|lia..]|].
    exists f', hist', t', pages', ((insert_rid (mem_len (record_bytes (stamp new xid cid))) (encode_pages pages), stamp new xid cid) :: placed), s'.
    split; [simpl length; rewrite <- counted_S; exact Hl|]. split; [done|]. split; [by etrans|]. split; [by etrans|]. split; [|split; [by constructor|done]].
    rewrite Hent, versions_insert_entries. by rewrite <- Permutation_middle.
Qed.
End Insert.

Lemma insert_plan_run cl p columns tabs rows news room hist t pages s :
  let plan := mkInsertPlan oid columns in
  0 <= room → table_is hist t pages s → is_constant p = true → plan_rows ctx active tabs p = rows_of rows →
  Forall2 (insertable t plan) rows news → (length rows < fuel)%nat → (1 < fuel)%nat → insert_room room (length rows) hist pages →
  ∃ hist' t' pages' placed s' r, run_plan fuel ctx (InsertOperator cl p columns oid) s = (Ok [r], s') ∧
    GetValues r = [Value_uint (counted 0 (length rows))] ∧
    table_is hist' t' pages' s' ∧ statement_effect s s' ∧ hist `prefix_of` hist' ∧
    entries 0 pages' ≡ₚ entries 0 pages ++ placed ∧ Forall2 added news placed ∧ log_ready base hist' xid room.
Proof using Hctx.
  intros plan Hr0 Ht Hconst Hrows Hall Hf Hf1 Hroom. destruct (constant_supply tabs p rows Hconst Hrows) as (c0 & c1 & Hcreate & Hinit & Hsup).
  destruct (insert_loop (H3 := executor fuel ctx p) plan eq_refl room Hr0 rows news fuel c1 0 hist t pages s Hsup Hall Hf Ht Hroom) as
    (f' & hist' & t' & pages' & placed & s' & Hl & Ht' & He & Hh & Hent & Hpl & Hlast).
  destruct (change_next_done fuel _ (inserting plan (column_list_ t) c1) _ _ _ _ eq_refl Hl) as (r & f1 & Hrun & Hr & Hfin).
  exists hist', t', pages', placed, s', r. split; [|done].
  set (start c := InsertExecutor_new (E := exec_type p) plan c).
  eapply (run_plan_steps (InsertOperator cl p columns oid) (start c0) (inserting plan (column_list_ t) c1)).
  - cbn [CreateExecutor]. by rewrite (M_bind_step _ _ _ _ _ (Hcreate s)).
  - cbn [Init executor InsertExecutor]. unfold insert_init.
    assert (GetTable oid s = (Ok oid, s)) as Hg by (unfold GetTable; rewrite get_step; by rewrite (ti_table _ _ _ _ _ _ _ _ _ Ht)).
    rewrite (M_bind_step _ _ _ _ _ (on_child_run ch_child_ set_ch_child (start c0) _ _ _ _ _ (Hinit s))).
    change (set_ch_child c1 (start c0)) with (start c1). rewrite self_get_step. cbn [ch_plan_ start InsertExecutor_new ins_oid_ plan].
    rewrite (on_sys_step _ _ _ _ _ _ Hg). unfold set_ch_table. rewrite self_modify_step.
    rewrite (on_sys_step _ _ _ _ _ _ Hg). assert (@get System s = (Ok s, s)) as Hget by done.
    rewrite (on_sys_step _ _ _ _ _ _ Hget), (ti_table _ _ _ _ _ _ _ _ _ Ht). rewrite (lift_step _ _ _ _ eq_refl). reflexivity.
  - exact (drain_changed (InsertExecutor fuel fuel ctx) _ fuel _ _ _ _ _ (λ _, eq_refl) Hf1 Hrun Hfin).
Qed.

(** ** What the next command sees *)

(** The transaction in another command. *)
Definition in_command (cid' : Z) : ExecutorContext := mkContext xid level cid'.
#[local] Notation seen_by cid' := (is_visible xid cid' level active).

(** To a reader that sees no version deleted by the transaction the marked
    versions disappear, in place. *)
Lemma filter_mark (P : Rid * Rec → Prop) `{!∀ e, Decision (P e)} rids es : (∀ rid r, ¬ P (rid, delete_version xid r)) →
  filter P (mark ctx rids es) = filter (λ e, e.1 ∉ rids) (filter P es).
Proof using.
  clear - ctx. intros Hdel. unfold mark. induction es as [|e es IH]; [done|]. rewrite fmap_cons.
  rewrite (filter_cons _ e es). destruct (decide (e.1 ∈ rids)) as [Hin|Hin].
  - rewrite filter_cons_False by apply Hdel. rewrite IH. case_decide; [|done]. by rewrite filter_cons_False by (intros Hk; exact (Hk Hin)).
  - rewrite filter_cons, IH. case_decide; [|done]. by rewrite filter_cons_True.
Qed.
Lemma seen_marked cid' rids es : filter (seen_by cid') (mark ctx rids es) = filter (λ e, e.1 ∉ rids) (filter (seen_by cid') es).
Proof using Hctx.
  destruct Hctx as [Hxid Hcid Hown]. apply filter_mark. exact (deleted_unseen (in_command cid') active Hxid Hown).
Qed.

(** A record made by the constructor of [Record]. *)
Definition unmarked (new : Rec) : Prop := GetXmax new = NULL_XID.
Lemma mk_Record_unmarked values rid r : mk_Record values rid = Ok r → unmarked r.
Proof using. clear - ctx. unfold mk_Record. destruct (set_nulls _ _ _); [|done]. by intros [= <-]. Qed.

Lemma stamped_seen cid' rid new : cid' ≠ cid → unmarked new → seen_by cid' (rid, stamp new xid cid).
Proof using Hctx.
  destruct Hctx as [Hxid Hcid Hown]. intros Hne Hnew. unfold is_visible. cbn [fst snd]. apply CanGet_visible; [lia|done|].
  assert (GetXmax (stamp new xid cid) = NULL_XID) as Hx by exact Hnew.
  assert (own_earlier xid cid' (stamp new xid cid)) as Hown2 by (split; [done|by intros <-]).
  destruct level; (split; [by left|]); unfold deleted_now, deleted_before; rewrite Hx; intros [?|[? ?]]; lia || done.
Qed.

Lemma seen_placed cid' (placed : list (Rid * Rec)) : cid' ≠ cid → (∀ e, e ∈ placed → ∃ new, e.2 = stamp new xid cid ∧ unmarked new) →
  filter (seen_by cid') placed = placed.
Proof using Hctx.
  intros Hne Hall. apply filter_all. intros [rid v] He. destruct (Hall _ He) as (new & Hv & Hu). simpl in Hv. subst v.
  by apply stamped_seen.
Qed.

(** The new versions of an UPDATE and of an INSERT. *)
Lemma replaces_stamped exprs old placed : Forall2 (replaces ctx exprs) old placed →
  ∀ e, e ∈ placed → ∃ new, e.2 = stamp new xid cid ∧ unmarked new.
Proof using.
  clear - ctx. intros Hall e [n Hn]%list_elem_of_lookup_1.
  destruct (Forall2_lookup_r _ _ _ _ _ Hall Hn) as (x & _ & new & Hnew & Hv). exists new. split; [done|].
  unfold updated_record in Hnew. destruct (evaluate_all _ _); [|done]. by eapply mk_Record_unmarked.
Qed.
Lemma added_stamped t plan values news placed : Forall2 (insertable t plan) values news → Forall2 added news placed →
  ∀ e, e ∈ placed → ∃ new, e.2 = stamp new xid cid ∧ unmarked new.
Proof using.
  clear - ctx. intros Hins Hall e [n Hn]%list_elem_of_lookup_1.
  destruct (Forall2_lookup_r _ _ _ _ _ Hall Hn) as (new & Hnew & Hv). exists new. split; [done|].
  destruct (Forall2_lookup_r _ _ _ _ _ Hins Hnew) as (r & _ & Hr & _).
  unfold insert_record in Hr. destruct (place_values _ _ _ _ _); [|done]. by eapply mk_Record_unmarked.
Qed.
End Statements.

(** ** Properties *)

Section Properties.
Context `{MapOrder} `{Allocator} `{Ecma} `{StdSort}.
Context (db_of : Z → Z) (base : Z) (fuel : nat) (ctx : ExecutorContext) (active : gset Z) (oid : Z).
#[local] Notation table_is := (table_is db_of base ctx active oid).
#[local] Notation statement_effect := (statement_effect db_of ctx oid).
#[local] Notation sees cid' := (visible_entries (in_command ctx cid') active).

(** C12: a DELETE ends and returns the number of the versions it saw and its
    filter kept; each of them is marked deleted by the transaction, no other
    version, table or lock of another transaction changes, and the transaction's
    later commands see what they saw without these versions. *)
Theorem delete_statement cl p hist t pages s :
  context_ok ctx active → table_is hist t pages s → scans ctx active oid pages p →
  (length (entries 0 pages) < fuel)%nat → (1 < fuel)%nat →
  let rows := touched_rows ctx active pages p in
  Z.of_nat (length rows) < 2 ^ 32 → log_ready base hist (context_xid ctx) (23 * Z.of_nat (length rows)) →
  ∃ hist' pages' s' r, run_plan fuel ctx (DeleteOperator cl p oid) s = (Ok [r], s') ∧
    GetValues r = [Value_uint (Z.of_nat (length rows))] ∧
    table_is hist' t pages' s' ∧ statement_effect s s' ∧ hist `prefix_of` hist' ∧
    entries 0 pages' = mark ctx rows.*1 (entries 0 pages) ∧
    ∀ cid', sees cid' pages' = filter (λ e, e.1 ∉ rows.*1) (sees cid' pages).
Proof.
  intros Hctx Ht Hp Hf Hf1 rows Hn Hlog.
  destruct (delete_plan_run db_of base fuel ctx active oid Hctx cl p 0 hist t pages s ltac:(lia) Ht Hp Hf Hf1 ltac:(by rewrite Z.add_0_r)) as
    (hist' & pages' & s' & r & Hrun & Hr & Ht' & He & Hh & Hent & _).
  exists hist', pages', s', r. rewrite <- (counted_small (length rows) Hn). split_and!; try done.
  intros cid'. unfold visible_entries. rewrite Hent. exact (seen_marked ctx active Hctx cid' _ _).
Qed.

(** C11: an UPDATE ends and returns the number of the versions it saw and its
    filter kept; each of them is marked deleted and replaced by exactly one
    version with the values the update computes from it, although the scan runs
    over the table while it grows; the transaction's later commands see the new
    versions for the old ones. *)
Theorem update_statement cl p exprs hist t pages s :
  context_ok ctx active → table_is hist t pages s → scans ctx active oid pages p → (1 < fuel)%nat →
  let rows := touched_rows ctx active pages p in
  update_room base fuel fuel ctx hist pages rows 0 → Forall (updatable exprs t) rows →
  ∃ hist' t' pages' placed s' r, run_plan fuel ctx (UpdateOperator cl p oid exprs) s = (Ok [r], s') ∧
    GetValues r = [Value_uint (Z.of_nat (length rows))] ∧
    table_is hist' t' pages' s' ∧ statement_effect s s' ∧ hist `prefix_of` hist' ∧
    entries 0 pages' ≡ₚ mark ctx rows.*1 (entries 0 pages) ++ placed ∧
    Forall2 (replaces ctx exprs) rows placed ∧
    ∀ cid', cid' ≠ context_cid ctx → sees cid' pages' ≡ₚ filter (λ e, e.1 ∉ rows.*1) (sees cid' pages) ++ placed.
Proof.
  intros Hctx Ht Hp Hf1 rows Hroom Hup.
  destruct (update_plan_run db_of base fuel ctx active oid Hctx cl p exprs 0 hist t pages s ltac:(lia) Ht Hp Hf1 Hroom Hup) as
    (hist' & t' & pages' & placed & s' & r & Hrun & Hr & Ht' & He & Hh & Hent & Hpl & _).
  assert (Z.of_nat (length rows) < 2 ^ 32) as Hn.
  { destruct Hroom as [_ _ _ Hnum]. pose proof NULL_PAGE_ID_val. lia. }
  exists hist', t', pages', placed, s', r. rewrite <- (counted_small (length rows) Hn). split_and!; try done.
  intros cid' Hne. unfold visible_entries. cbn [in_command context_xid context_level context_cid]. rewrite Hent, filter_app. rewrite <- (seen_marked ctx active Hctx cid').
  by rewrite (seen_placed ctx active Hctx cid' placed Hne (replaces_stamped ctx exprs rows placed Hpl)).
Qed.

(** C13: an INSERT of a VALUES list, under select lists as the planner puts it, ends
    and returns the number of lists; the table has one version more for each of them,
    stamped with the transaction and its command, and the transaction's later
    commands see them besides what they saw. *)
Theorem insert_statement cl p columns tabs rows news hist t pages s :
  let plan := mkInsertPlan oid columns in
  context_ok ctx active → table_is hist t pages s → is_constant p = true → plan_rows ctx active tabs p = rows_of rows →
  Forall2 (insertable t plan) rows news →
  (length rows < fuel)%nat → (1 < fuel)%nat → insert_room base fuel ctx 0 (length rows) hist pages →
  ∃ hist' t' pages' placed s' r, run_plan fuel ctx (InsertOperator cl p columns oid) s = (Ok [r], s') ∧
    GetValues r = [Value_uint (Z.of_nat (length rows))] ∧
    table_is hist' t' pages' s' ∧ statement_effect s s' ∧ hist `prefix_of` hist' ∧
    entries 0 pages' ≡ₚ entries 0 pages ++ placed ∧ Forall2 (added ctx) news placed ∧
    ∀ cid', cid' ≠ context_cid ctx → sees cid' pages' ≡ₚ sees cid' pages ++ placed.
Proof.
  intros plan Hctx Ht Hconst Hrows Hall Hf Hf1 Hroom.
  destruct (insert_plan_run db_of base fuel ctx active oid Hctx cl p columns tabs rows news 0 hist t pages s ltac:(lia) Ht Hconst Hrows Hall Hf Hf1 Hroom) as
    (hist' & t' & pages' & placed & s' & r & Hrun & Hr & Ht' & He & Hh & Hent & Hpl & _).
  assert (Z.of_nat (length rows) < 2 ^ 32) as Hn.
  { destruct Hroom as [_ _ Hnum]. pose proof NULL_PAGE_ID_val. lia. }
  exists hist', t', pages', placed, s', r. rewrite <- (counted_small (length rows) Hn). split_and!; try done.
  intros cid' Hne. unfold visible_entries. cbn [in_command context_xid context_level context_cid]. rewrite Hent, filter_app.
  by rewrite (seen_placed ctx active Hctx cid' placed Hne (added_stamped ctx t plan rows news placed Hall Hpl)).
Qed.
End Properties.

(** *** Concrete statements *)

(** Transaction 5, running alone, on the table with the version it inserted in
    its first command. *)
Definition ex_where : Operator := FilterOperator ex_schema ex_scan (Comparison LESS ex_col_a (Const (Value_int 0))).
Lemma ex_context_ok : context_ok ex_ctx {[5]}.
Proof. by split. Qed.
Lemma ex_table_is w hist : scannable ex_db_of 0 hist (with_first 0 ex_table) [[ex_version1]] w →
  table_is ex_db_of 0 ex_ctx {[5]} 10001 hist (with_first 0 ex_table) [[ex_version1]] (ex_system w).
Proof. intros Hs. split; [apply lookup_singleton_eq|done..|by vm_compute|apply no_locks_allow]. Qed.
Lemma ex_touched : touched_rows ex_ctx {[5]} [[ex_version1]] ex_where = [(mkRid 0 0, ex_version1)].
Proof. by vm_compute. Qed.
Lemma ex_scans : scans ex_ctx {[5]} 10001 [[ex_version1]] ex_where.
Proof. split; [done|]. constructor; [|constructor]. exists true. by vm_compute. Qed.

Lemma delete_statement_witness : ∃ w s' r,
  run_plan (H2 := insertion_sort) 2 ex_ctx (DeleteOperator ColumnList_empty ex_where 10001) (ex_system w) = (Ok [r], s') ∧
  GetValues r = [Value_uint 1] ∧
  ∃ hist' pages', table_is ex_db_of 0 ex_ctx {[5]} 10001 hist' (with_first 0 ex_table) pages' s' ∧
    visible_entries (in_command ex_ctx 3) {[5]} pages' = [].
Proof.
  destruct ex_table_one as (w & hist & Hs & Hl). exists w.
  destruct (delete_statement (H2 := insertion_sort) ex_db_of 0 2 ex_ctx {[5]} 10001 ColumnList_empty ex_where hist _ _ (ex_system w)
    ex_context_ok (ex_table_is w hist Hs) ex_scans ltac:(simpl; lia) ltac:(lia)) as (hist' & pages' & s' & r & H1 & H2 & H3 & _ & _ & _ & H4).
  - by rewrite ex_touched.
  - rewrite ex_touched. eapply log_ready_less; [exact Hl|simpl; lia].
  - rewrite ex_touched in H2, H4. exists s', r. split; [exact H1|]. split; [exact H2|]. exists hist', pages'. split; [exact H3|].
    rewrite H4. by vm_compute.
Defined.

(** The values of the row, as constants. *)
Definition ex_row : list OperatorExpression := Const <$> ex_values.

Lemma ex_mk_record : mk_Record ex_values (mkRid 0 0) = Ok ex_record.
Proof. unfold ex_record. by destruct (mk_Record_spec ex_values (mkRid 0 0) ex_values_storable) as (r & -> & _). Qed.

Lemma update_statement_witness : ∃ w s' r rid,
  run_plan (H2 := insertion_sort) 4 ex_ctx (UpdateOperator ColumnList_empty ex_where 10001 ex_row) (ex_system w) = (Ok [r], s') ∧
  GetValues r = [Value_uint 1] ∧
  ∃ hist' t' pages', table_is ex_db_of 0 ex_ctx {[5]} 10001 hist' t' pages' s' ∧
    visible_entries (in_command ex_ctx 3) {[5]} pages' ≡ₚ [(rid, stamp ex_record 5 2)].
Proof.
  destruct ex_table_one as (w & hist & Hs & Hl). exists w.
  destruct (update_statement (H2 := insertion_sort) ex_db_of 0 4 ex_ctx {[5]} 10001 ColumnList_empty ex_where ex_row hist _ _ (ex_system w)
    ex_context_ok (ex_table_is w hist Hs) ex_scans ltac:(lia)) as (hist' & t' & pages' & placed & s' & r & G1 & G2 & G3 & _ & _ & _ & G4 & G5).
  - rewrite ex_touched. split; [eapply log_ready_less; [exact Hl|done]|simpl; lia|simpl; lia|done].
  - rewrite ex_touched. constructor; [|constructor]. exists ex_record. destruct ex_record_wf. split_and!; [exact ex_mk_record|done..].
  - rewrite ex_touched in G2, G4, G5. inversion G4 as [|? [rid v] ? ? (new & Hnew & Hv) Hnil Heq1 Heq2]. inversion Hnil. subst.
    change (updated_record ex_row _) with (mk_Record ex_values (mkRid 0 0)) in Hnew. rewrite ex_mk_record in Hnew.
    injection Hnew as <-. simpl in Hv. subst v. exists s', r, rid. split; [exact G1|]. split; [exact G2|].
    exists hist', t', pages'. split; [exact G3|]. rewrite G5 by done. apply reflexive_eq. by vm_compute.
Defined.

(** The child of INSERT INTO t VALUES (..): the columns of the list. *)
Definition ex_source : Operator :=
  ProjectionOperator ColumnList_empty (ValuesOperator ColumnList_empty [ex_row])
    [ColumnValue 0 INT "#1" 4 true; ColumnValue 1 NULL_TYPE "#2" 0 true; ColumnValue 2 VARCHAR "#3" 4 true; ColumnValue 3 BOOL "#4" 1 true].
Lemma ex_source_rows `{Ecma} `{StdSort} ctx active tabs : plan_rows ctx active tabs ex_source = rows_of [ex_record].
Proof. transitivity (rows_of (match mk_Record ex_values (mkRid 0 0) with Ok r => [r] | _ => [] end)); [by vm_compute|by rewrite ex_mk_record]. Qed.
Lemma ex_insertable : insertable (with_first 0 ex_table) (mkInsertPlan 10001 ex_schema) ex_record ex_record.
Proof.
  destruct ex_record_wf. split; [|done]. transitivity (mk_Record ex_values (mkRid 0 0)); [by vm_compute|exact ex_mk_record].
Qed.

Lemma insert_statement_witness : ∃ w s' r rid,
  run_plan (H2 := insertion_sort) 4 ex_ctx (InsertOperator ColumnList_empty ex_source ex_schema 10001) (ex_system w) = (Ok [r], s') ∧
  GetValues r = [Value_uint 1] ∧
  ∃ hist' t' pages', table_is ex_db_of 0 ex_ctx {[5]} 10001 hist' t' pages' s' ∧
    visible_entries (in_command ex_ctx 3) {[5]} pages' ≡ₚ [(mkRid 0 0, ex_version1); (rid, stamp ex_record 5 2)].
Proof.
  destruct ex_table_one as (w & hist & Hs & Hl). exists w.
  destruct (insert_statement (H2 := insertion_sort) ex_db_of 0 4 ex_ctx {[5]} 10001 ColumnList_empty ex_source ex_schema ∅ [ex_record] [ex_record]
    hist _ _ (ex_system w) ex_context_ok (ex_table_is w hist Hs) eq_refl (ex_source_rows (H0 := insertion_sort) _ _ _)) as (hist' & t' & pages' & placed & s' & r & G1 & G2 & G3 & _ & _ & _ & G4 & G5).
  - constructor; [exact ex_insertable|constructor].
  - simpl; lia.
  - lia.
  - split; [eapply log_ready_less; [exact Hl|done]|simpl; lia|done].
  - inversion G4 as [|? [rid v] ? ? Hv Hnil Heq1 Heq2]. inversion Hnil. subst.
    unfold added in Hv. simpl in Hv. subst v. exists s', r, rid. split; [exact G1|]. split; [exact G2|].
    exists hist', t', pages'. split; [exact G3|]. rewrite G5 by done. apply reflexive_eq. by vm_compute.
Defined.
