(* ===== verification/Frames.v ===== *)
(** What the execution of a plan leaves alone: whatever it returns or throws,
    the transactions that are active, their snapshots and command counters, and
    the entries of the log manager's transaction table stay the same. [preserves]
    is the Hoare triple of an invariant that holds at every exit of a program,
    normal or not; its rules follow the shape of the program, so that the proofs
    are searched for. *)
From S2P Require Import Prelude Memory Types StringUtil Disk Value Bitmap Column Record TablePage Lru LogRecord LogManager BufferPool Storage LockManager TransactionManager Visibility Table TableScan Like Expressions Executor Pipeline OrderBy Join Query Plan.

(** ** Programs that preserve an invariant *)

Definition preserves {S A} (I : S → Prop) (m : M S A) : Prop := ∀ s, I s → I (m s).2.

Section Rules.
Context {S : Type} (I : S → Prop).

Lemma preserves_ret {A} (a : A) : preserves I (mret a).
Proof. by intros s. Qed.
Lemma preserves_throw {A} e : preserves I (throw (A := A) e).
Proof. by intros s. Qed.
Lemma preserves_lift {A} (x : res A) : preserves I (lift x).
Proof. by intros s. Qed.
Lemma preserves_get : preserves I get.
Proof. by intros s. Qed.
Lemma preserves_gets {A} (f : S → A) : preserves I (gets f).
Proof. by intros s. Qed.
Lemma preserves_modify f : (∀ s, I s → I (f s)) → preserves I (modify f).
Proof. intros Hf s Hs. by apply Hf. Qed.
Lemma preserves_bind {A B} (m : M S A) (f : A → M S B) :
  preserves I m → (∀ a, preserves I (f a)) → preserves I (m ≫= f).
Proof.
  intros Hm Hf s Hs. specialize (Hm s Hs). unfold mbind, M_bind. destruct (m s) as [[a|e] s']; [by apply Hf|done].
Qed.
(** A program that reads the state it starts in. *)
Lemma preserves_get_bind {B} (f : S → M S B) : (∀ w, I w → preserves I (f w)) → preserves I (get ≫= f).
Proof. intros Hf s Hs. by apply (Hf s Hs). Qed.
Lemma preserves_zoom {T A} (sel : S → T) (put : T → S → S) (J : T → Prop) (m : M T A) :
  (∀ s, I s → J (sel s)) → (∀ s t, I s → J t → I (put t s)) → preserves J m → preserves I (zoom sel put m).
Proof.
  intros Hsel Hput Hm s Hs. specialize (Hm (sel s) (Hsel s Hs)). unfold zoom. destruct (m (sel s)) as [r t]. by apply Hput.
Qed.
(** What a program cannot reach does not matter. *)
Lemma preserves_True {A} (m : M S A) : preserves (λ _, True) m.
Proof. by intros s. Qed.
End Rules.

Create HintDb frame.
#[export] Hint Constants Opaque : frame.
#[export] Hint Resolve preserves_ret preserves_throw preserves_lift preserves_get preserves_gets preserves_True : frame.

(** The search: binds, the programs known to preserve the invariant, and the
    cases of the program. *)
Ltac frame_step :=
  match goal with
  | |- preserves _ (get ≫= _) => apply preserves_get_bind; intros
  | |- preserves _ (_ ≫= _) => apply preserves_bind; [|intros]
  | |- preserves _ (let '(_, _) := ?x in _) => destruct x
  | |- preserves _ (match ?x with _ => _ end) => destruct x eqn:?
  | |- _ => solve [eauto with frame]
  end.
Ltac frame := repeat frame_step.

(** ** The log *)

Section Log.
Context `{MapOrder} (D : gset Z).

(** The transactions in the table of the log manager. *)
Definition att_is (l : LogDisk) : Prop := (dom (att_ (lg l)) : gset Z) = D.

Lemma frame_lg f : (∀ l, att_ (f l) = att_ l) → preserves att_is (on_lg f).
Proof. intros Hf. apply preserves_modify. intros s. unfold att_is. simpl. by rewrite Hf. Qed.
Lemma frame_dk {A} (m : M Disk A) : preserves att_is (on_dk m).
Proof. eapply preserves_zoom; [| |apply preserves_True]; done. Qed.
Lemma frame_dpt k lsn : preserves att_is (on_lg (dpt_add k lsn)).
Proof. apply frame_lg. intros l. unfold dpt_add. by destruct (dpt_ l !! k). Qed.
(** A transaction of the table gets another last LSN. *)
Lemma frame_att xid lsn : xid ∈ D → preserves att_is (on_lg (λ l, set_att (<[xid := lsn]> (att_ l)) l)).
Proof. intros Hx. apply preserves_modify. intros s. unfold att_is. simpl. intros <-. set_solver. Qed.

Lemma frame_take_lsn r : preserves att_is (take_lsn r).
Proof. unfold take_lsn. frame. by apply frame_lg. Qed.
Lemma frame_push_log r : preserves att_is (push_log r).
Proof. by apply frame_lg. Qed.
Lemma frame_not_in_att {A} xid caller : preserves att_is (not_in_att (A := A) xid caller).
Proof. apply preserves_throw. Qed.
#[local] Hint Resolve frame_dk frame_dpt frame_take_lsn frame_push_log frame_not_in_att : frame.

Lemma att_is_elem l xid prev : att_is l → att_ (lg l) !! xid = Some prev → xid ∈ D.
Proof. intros <- Hx. by eapply elem_of_dom_2. Qed.

Lemma frame_AppendInsertLog xid oid page_id slot_id offset size b :
  preserves att_is (AppendInsertLog xid oid page_id slot_id offset size b).
Proof.
  unfold AppendInsertLog. apply preserves_get_bind. intros w Hw. destruct (att_ _ !! xid) eqn:Hx; [|apply frame_not_in_att].
  pose proof (att_is_elem _ _ _ Hw Hx). frame. by apply frame_att.
Qed.
Lemma frame_AppendDeleteLog xid oid page_id slot_id : preserves att_is (AppendDeleteLog xid oid page_id slot_id).
Proof.
  unfold AppendDeleteLog. apply preserves_get_bind. intros w Hw. destruct (att_ _ !! xid) eqn:Hx; [|apply frame_not_in_att].
  pose proof (att_is_elem _ _ _ Hw Hx). frame. by apply frame_att.
Qed.
Lemma frame_AppendNewPageLog xid oid prev_page_id page_id : preserves att_is (AppendNewPageLog xid oid prev_page_id page_id).
Proof.
  unfold AppendNewPageLog. apply preserves_get_bind. intros w Hw.
  destruct (negb (xid =? DDL_XID) && bool_decide (att_ (lg w) !! xid = None)) eqn:Hb; [apply frame_not_in_att|].
  assert (xid = DDL_XID ∨ xid ∈ D) as Hx.
  { apply andb_false_iff in Hb as [Hb|Hb].
    - left. apply negb_false_iff in Hb. lia.
    - right. apply bool_decide_eq_false in Hb. rewrite <- Hw. by apply elem_of_dom, not_eq_None_Some. }
  frame. destruct Hx as [->|Hx]; [done|by apply frame_att].
Qed.

Lemma frame_flush_loop lsn rest : ∀ kept a b, preserves att_is (flush_loop lsn kept rest a b).
Proof.
  induction rest as [|r rest IH]; intros kept a b; cbn [flush_loop]; frame. by apply frame_lg.
Qed.
Lemma frame_Flush_upto lsn : preserves att_is (Flush_upto lsn).
Proof. unfold Flush_upto. pose proof frame_flush_loop. frame. by apply frame_lg. Qed.
Lemma frame_LogManager_FlushPage oid page_id lsn : preserves att_is (LogManager_FlushPage oid page_id lsn).
Proof. unfold LogManager_FlushPage. pose proof frame_Flush_upto. frame. by apply frame_lg. Qed.
End Log.
#[export] Hint Resolve frame_dk frame_AppendInsertLog frame_AppendDeleteLog frame_AppendNewPageLog frame_Flush_upto
  frame_LogManager_FlushPage : frame.

(** ** The pool, the tables and the scan *)

Section Pool.
Context `{MapOrder} `{Allocator} (D : gset Z).
#[local] Notation att_is := (att_is D).

Definition pool_att (w : Pool LogDisk) : Prop := att_is (po_wal w).

Lemma frame_on_wal {A} (m : M LogDisk A) : preserves att_is m → preserves pool_att (on_wal m).
Proof. by apply preserves_zoom. Qed.
Lemma frame_on_disk {A} (m : M Disk A) : preserves pool_att (on_disk_ m).
Proof. apply frame_on_wal. by eapply preserves_zoom; [| |apply preserves_True]. Qed.
Lemma frame_on_bp f : preserves pool_att (on_bp f).
Proof. by apply preserves_modify. Qed.
Lemma frame_on_strategy {A} (m : M LRUBufferStrategy A) : preserves pool_att (on_strategy m).
Proof. by eapply preserves_zoom; [| |apply preserves_True]. Qed.
Lemma frame_alloc_page data : preserves pool_att (alloc_page data).
Proof. by intros w. Qed.
Lemma frame_on_page {A} l (m : M Page A) : preserves pool_att (on_page l m).
Proof. intros w Hw. unfold on_page. destruct (po_heap w !! l); [|done]. by destruct (m _). Qed.
#[local] Hint Resolve frame_on_wal frame_on_disk frame_on_bp frame_on_strategy frame_alloc_page frame_on_page : frame.

Lemma frame_FlushPage i : preserves pool_att (BufferPool_FlushPage i).
Proof.
  unfold BufferPool_FlushPage, erase_key. frame. apply frame_on_wal. cbn [wal_flush_page LogDisk_wal]. eauto with frame.
Qed.
Lemma frame_AddToBuffer db oid page_id l : preserves pool_att (AddToBuffer db oid page_id l).
Proof. unfold AddToBuffer, set_key, push_entry. pose proof frame_FlushPage. frame. Qed.
#[local] Hint Resolve frame_AddToBuffer : frame.
Lemma frame_GetPage db oid page_id : preserves pool_att (GetPage db oid page_id).
Proof. unfold GetPage. frame. Qed.
Lemma frame_NewPage db oid page_id : preserves pool_att (NewPage db oid page_id).
Proof. unfold NewPage. frame. Qed.
#[local] Hint Resolve frame_GetPage frame_NewPage : frame.

Lemma frame_log_insert l r xid oid page_id slot offset : preserves pool_att (log_insert l r xid oid page_id slot offset).
Proof. unfold log_insert. frame. Qed.
#[local] Hint Resolve frame_log_insert : frame.
Lemma frame_insert_into l r xid cid b oid page_id : preserves pool_att (insert_into l r xid cid b oid page_id).
Proof. unfold insert_into. frame. Qed.
Lemma frame_insert_into_new l r xid cid b oid prev page_id : preserves pool_att (insert_into_new l r xid cid b oid prev page_id).
Proof. unfold insert_into_new. frame. Qed.
#[local] Hint Resolve frame_insert_into frame_insert_into_new : frame.
Lemma frame_insert_walk fuel : ∀ t r xid cid b next last, preserves pool_att (insert_walk fuel t r xid cid b next last).
Proof. induction fuel as [|fuel IH]; intros; cbn [insert_walk]; frame. Qed.
#[local] Hint Resolve frame_insert_walk : frame.

Definition table_att (s : TableState) : Prop := pool_att (ts_pool s).
Lemma frame_on_pool {A} (m : M (Pool LogDisk) A) : preserves pool_att m → preserves table_att (on_pool m).
Proof. by apply preserves_zoom. Qed.
#[local] Hint Resolve frame_on_pool : frame.
Lemma frame_Table_InsertRecord fuel r xid cid b : preserves table_att (Table_InsertRecord fuel r xid cid b).
Proof. unfold Table_InsertRecord. frame. by apply preserves_modify. Qed.
Lemma frame_Table_DeleteRecord rid xid b : preserves table_att (Table_DeleteRecord rid xid b).
Proof. unfold Table_DeleteRecord. frame. Qed.
#[local] Hint Resolve frame_Table_InsertRecord frame_Table_DeleteRecord : frame.
Lemma frame_UpdateRecord fuel rid xid cid r b : preserves table_att (UpdateRecord fuel rid xid cid r b).
Proof. unfold UpdateRecord. frame. Qed.

Definition scan_att (s : TableScan) : Prop := pool_att (scan_pool_ s).
Lemma frame_scan_pool {A} (m : M (Pool LogDisk) A) : preserves pool_att m → preserves scan_att (scan_pool m).
Proof. by apply preserves_zoom. Qed.
Lemma frame_set_rid rid : preserves scan_att (set_rid rid).
Proof. by apply preserves_modify. Qed.
#[local] Hint Resolve frame_scan_pool frame_set_rid : frame.
Lemma frame_scan_record l : preserves scan_att (scan_record l).
Proof. unfold scan_record. frame. Qed.
Lemma frame_scan_advance l : preserves scan_att (scan_advance l).
Proof. unfold scan_advance. frame. Qed.
#[local] Hint Resolve frame_scan_record frame_scan_advance : frame.
Lemma frame_scan_loop fuel : ∀ l r xid level cid active, preserves scan_att (scan_loop fuel l r xid level cid active).
Proof. induction fuel as [|fuel IH]; intros; cbn [scan_loop]; frame. Qed.
#[local] Hint Resolve frame_scan_loop : frame.
Lemma frame_GetNextRecord fuel xid level cid active : preserves scan_att (GetNextRecord fuel xid level cid active).
Proof. unfold GetNextRecord. frame. Qed.
End Pool.
#[export] Hint Resolve frame_Table_InsertRecord frame_Table_DeleteRecord frame_UpdateRecord frame_GetNextRecord : frame.

(** ** The executors *)

Section Executors.
Context `{MapOrder} `{Allocator} `{Ecma} `{StdSort} (fuel : nat) (ctx : ExecutorContext).
Context (D : gset Z) (tm : TransactionManager).

(** The transaction manager is [tm] but for the locks. *)
Record tx_frame (s : System) : Prop := {
  tf_att : pool_att D (sys_pool s);
  tf_tm : ∃ lm, sys_tm s = set_lock_manager lm tm
}.

Lemma frame_on_lock_manager {A} (m : M LockManager A) : preserves tx_frame (on_lock_manager m).
Proof.
  unfold on_lock_manager, on_tm. eapply (preserves_zoom _ _ _ (λ tm', ∃ lm, tm' = set_lock_manager lm tm)).
  - by intros s [].
  - intros s t [Ha _] Ht. by split.
  - unfold on_locks. eapply preserves_zoom; [| |apply preserves_True]; [done|]. intros ? lm' [lm ->] _. by exists lm'.
Qed.
Lemma frame_on_tm_active level xid : preserves tx_frame (on_tm (scan_active level xid)).
Proof.
  unfold on_tm. eapply (preserves_zoom _ _ _ (λ tm', ∃ lm, tm' = set_lock_manager lm tm)).
  - by intros s [].
  - intros s t [Ha _] Ht. by split.
  - unfold scan_active, GetSnapshot, GetActiveTransactions. frame.
Qed.
Lemma frame_GetTable oid : preserves tx_frame (GetTable oid).
Proof. unfold GetTable. frame. Qed.
Lemma frame_on_table_obj {A} table (m : M TableState A) : preserves (table_att D) m → preserves tx_frame (on_table_obj table m).
Proof.
  intros Hm s [Ha Ht]. unfold on_table_obj. destruct (sys_tables s !! table) as [t|]; [|by split].
  specialize (Hm (mkTS t (sys_pool s)) Ha). destruct (m _) as [r ts]. by split.
Qed.
Lemma frame_on_scan {A} table rid (m : M TableScan A) : preserves (scan_att D) m → preserves tx_frame (on_scan table rid m).
Proof.
  intros Hm s [Ha Ht]. unfold on_scan. destruct (sys_tables s !! table) as [t|]; [|by split].
  specialize (Hm (mkScan rid t (sys_pool s)) Ha). destruct (m _) as [r ts]. by split.
Qed.
#[local] Hint Resolve frame_on_lock_manager frame_on_tm_active frame_GetTable frame_on_table_obj frame_on_scan : frame.

(** The invariant for an executor and the system. *)
Definition exec_frame {E} (σ : E * System) : Prop := tx_frame σ.2.
Definition framed {E} (X : Executor System E) : Prop := preserves exec_frame (Init (Executor := X)) ∧ preserves exec_frame (Next (Executor := X)).

Lemma frame_on_self {E A} (m : M E A) : preserves exec_frame (on_self (Sys := System) m).
Proof. by eapply preserves_zoom; [| |apply preserves_True]. Qed.
Lemma frame_on_sys {E A} (m : M System A) : preserves tx_frame m → preserves exec_frame (on_sys (F := E) m).
Proof. by apply preserves_zoom. Qed.
Lemma frame_on_child {E F A} (child : F → E) set_child (m : M (E * System) A) :
  preserves exec_frame m → preserves exec_frame (on_child child set_child m).
Proof. by apply preserves_zoom. Qed.
Lemma framed_Init {E} (X : Executor System E) : framed X → preserves exec_frame (Init (Executor := X)).
Proof. by intros []. Qed.
Lemma framed_Next {E} (X : Executor System E) : framed X → preserves exec_frame (Next (Executor := X)).
Proof. by intros []. Qed.
#[local] Hint Resolve frame_on_self frame_on_sys frame_on_child framed_Init framed_Next : frame.

Lemma frame_drain {E} (X : Executor System E) n : framed X → preserves exec_frame (drain (H := X) n).
Proof. intros Hx. induction n as [|n IH]; cbn [drain]; frame. Qed.
#[local] Hint Resolve frame_drain : frame.

Section Child.
Context {E E1} (X : Executor System E) (X1 : Executor System E1) (Hx : framed X) (Hx1 : framed X1).

Lemma frame_filter : framed (FilterExecutor_ (H := X) fuel).
Proof using Hx.
  split; [exact (frame_on_child _ _ _ (framed_Init _ Hx))|]. cbn [Next FilterExecutor_].
  induction fuel as [|n IH]; cbn [filter_loop]; frame.
Qed.
Lemma frame_projection : framed (ProjectionExecutor_ (H := X)).
Proof using Hx. split; cbn [Init Next ProjectionExecutor_]; frame. Qed.
Lemma frame_values : framed ValuesExecutor_.
Proof using. split; cbn [Init Next ValuesExecutor_]; frame. Qed.
Lemma frame_lock_rows : framed (LockRowsExecutor_ (H := X) ctx).
Proof using Hx. split; cbn [Init Next LockRowsExecutor_]; unfold lock_rows_next; frame. Qed.
Lemma frame_seqscan : framed (SeqScanExecutor_ fuel ctx).
Proof using. split; cbn [Init Next SeqScanExecutor_]; unfold seqscan_init, seqscan_next; frame. Qed.
Lemma frame_aggregate : framed (AggregateExecutor_ (E := E)).
Proof using. split; cbn [Init Next AggregateExecutor_]; frame. Qed.
Lemma frame_hash_join : framed (HashJoinExecutor_ (H := X) (H0 := X1)).
Proof using Hx Hx1. split; cbn [Init Next HashJoinExecutor_]; frame. Qed.

Lemma frame_limit : framed (LimitExecutor_ (H := X)).
Proof using Hx.
  split; cbn [Init Next LimitExecutor_]; [frame|]. unfold limit_next, limit_take, incr_count.
  assert (∀ n, preserves exec_frame (offset_loop (H := X) n)) as Hloop.
  { induction n as [|n IH]; cbn [offset_loop]; unfold incr_offset; frame. }
  frame.
Qed.
Lemma frame_order_by : framed (OrderByExecutor_ (H := X) fuel).
Proof using Hx. split; cbn [Init Next OrderByExecutor_]; unfold ob_next, ob_take, set_ob_records; frame. Qed.
Lemma frame_nested_loop_join : framed (NestedLoopJoinExecutor (H := X) (H0 := X1) fuel).
Proof using Hx Hx1.
  split; cbn [Init Next NestedLoopJoinExecutor]; unfold join_Init, nested_next, join_take, set_join_records; frame.
Qed.
Lemma frame_merge_join : framed (MergeJoinExecutor (H := X) (H0 := X1) fuel).
Proof using Hx Hx1.
  split; cbn [Init Next MergeJoinExecutor]; unfold join_Init, merge_next, join_take, set_join_records; frame.
Qed.

Lemma frame_change_loop {P} (body : Rec → M (ChangeExecutor E P * System) unit) n : ∀ count,
  (∀ r, preserves exec_frame (body r)) → preserves exec_frame (change_loop (H1 := X) body n count).
Proof using Hx. induction n as [|n IH]; intros count Hb; cbn [change_loop]; frame. Qed.
Lemma frame_change_next {P} (body : Rec → M (ChangeExecutor E P * System) unit) :
  (∀ r, preserves exec_frame (body r)) → preserves exec_frame (change_next (H1 := X) fuel body).
Proof using Hx. intros Hb. pose proof (frame_change_loop body). unfold change_next, set_ch_finished. frame. Qed.
Lemma frame_on_member_table {P A} (m : M TableState A) :
  preserves (table_att D) m → preserves exec_frame (on_member_table (E := E) (P := P) m).
Proof using. intros Hm. unfold on_member_table. frame. Qed.
Lemma frame_lock_row_or_throw {P} oid rid message : preserves exec_frame (lock_row_or_throw (E := E) (P := P) ctx oid rid message).
Proof using. unfold lock_row_or_throw. frame. Qed.
#[local] Hint Resolve frame_change_next frame_on_member_table frame_lock_row_or_throw : frame.

Lemma frame_delete : framed (DeleteExecutor (H1 := X) fuel ctx).
Proof using Hx.
  split; cbn [Init Next DeleteExecutor]; [frame|]. apply frame_change_next. intros r. unfold delete_body. frame.
Qed.
Lemma frame_update : framed (UpdateExecutor (H1 := X) fuel fuel ctx).
Proof using Hx.
  split; cbn [Init Next UpdateExecutor]; [unfold update_init, set_ch_table; frame|].
  apply frame_change_next. intros r. unfold update_body. frame.
Qed.
Lemma frame_insert : framed (InsertExecutor (H1 := X) fuel fuel ctx).
Proof using Hx.
  split; cbn [Init Next InsertExecutor]; [unfold insert_init, set_ch_table, set_ch_columns; frame|].
  apply frame_change_next. intros r. unfold insert_row. frame.
Qed.
End Child.

(** *** Plans *)

Lemma frame_executor p : framed (executor fuel ctx p).
Proof.
  induction p; cbn [executor]; cbv zeta;
    [apply frame_aggregate|apply frame_delete|apply frame_filter|apply frame_hash_join|apply frame_insert|apply frame_limit|
     apply frame_lock_rows|apply frame_merge_join|apply frame_nested_loop_join|apply frame_order_by|apply frame_projection|
     apply frame_seqscan|apply frame_update|apply frame_values]; done.
Qed.
Lemma frame_CreateExecutor p : preserves tx_frame (CreateExecutor p).
Proof. induction p; cbn [CreateExecutor]; unfold DeleteExecutor_new; frame. Qed.

(** Running any plan, to any end, keeps the active transactions. *)
Lemma frame_run_plan p : preserves tx_frame (run_plan fuel ctx p).
Proof.
  intros s Hs. unfold run_plan. pose proof (frame_CreateExecutor p s Hs) as Hc.
  destruct (CreateExecutor p s) as [[e|x] s1]; [|done]. pose proof (frame_executor p) as Hx.
  assert (preserves (exec_frame (E := exec_type p)) (let _ := executor fuel ctx p in Init ;; drain fuel)) as Hr.
  { apply preserves_bind; [exact (framed_Init (executor fuel ctx p) Hx)|intros; exact (frame_drain (executor fuel ctx p) _ Hx)]. }
  specialize (Hr (e, s1) Hc). cbv zeta in *.
  match type of Hr with exec_frame (snd ?x) => destruct x as [r σ] end. exact Hr.
Qed.
End Executors.
