(* ===== verification/Resolve.v ===== *)
(** Where names lead: the tables and columns the binder finds, and the columns of
    the plan they become. *)
From Stdlib Require Import Ascii.
From S2P Require Import Prelude Types StringUtil Value Column Record LockManager Like Expressions OrderBy Query Plan Texts NodeTags Bound Binder Planner Frames.

(** ** The tables of a FROM clause *)

Fixpoint base_tables (t : TableRef) : list BaseTableRef :=
  match t with
  | BaseTable table => [table]
  | CrossJoinRef t0 t1 | JoinRef _ t0 t1 _ => base_tables t0 ++ base_tables t1
  | EmptyRef | ExpressionListRef _ => []
  end.
(** Tables and joins of tables. *)
Fixpoint joined (t : TableRef) : bool :=
  match t with
  | BaseTable _ => true
  | CrossJoinRef t0 t1 | JoinRef _ t0 t1 _ => joined t0 && joined t1
  | EmptyRef | ExpressionListRef _ => false
  end.

(** What one table makes of a name. *)
Definition found_in (column_name : list string) (table : BaseTableRef) : option (list string) :=
  match column_name with
  | [] => None
  | [name] => match TryGetColumnIndex (bt_column_list_ table) name with Some _ => Some [GetTableName table; name] | None => None end
  | name :: _ => if decide (name = GetTableName table) then Some column_name else None
  end.

Lemma ResolveColumnFromBaseTable_found column_name table : column_name ≠ [] →
  ResolveColumnFromBaseTable table column_name = Ok (found_in column_name table).
Proof. by destruct column_name as [|? []]. Qed.

(** ** Names with a table *)

Fixpoint dot_free (s : string) : bool :=
  match s with "" => true | String c s => negb (Ascii.eqb c "."%char) && dot_free s end.

Lemma dotted_inj t t' c c' : dot_free t = true → dot_free t' = true →
  t +:+ "." +:+ c = t' +:+ "." +:+ c' → t = t' ∧ c = c'.
Proof.
  revert t'. induction t as [|a t IH]; intros [|a' t'] Ht Ht' Heq.
  - by injection Heq.
  - injection Heq as <- _. done.
  - injection Heq as -> _. done.
  - injection Heq as -> Heq. simpl in Ht, Ht'. apply andb_prop in Ht as [_ Ht]. apply andb_prop in Ht' as [_ Ht'].
    by destruct (IH t' Ht Ht' Heq) as [-> ->].
Qed.

Definition full_name (table : BaseTableRef) (column : ColumnDefinition) : string := GetTableName table +:+ "." +:+ name_ column.
Definition full_columns (table : BaseTableRef) : list ColumnDefinition :=
  (λ column, mkColumn (full_name table column) (ctype_ column) (max_size_ column)) <$> columns_ (bt_column_list_ table).

Lemma columns_fold columns : ∀ cl, columns_ (fold_left AddColumn columns cl) = columns_ cl ++ columns.
Proof. induction columns as [|c columns IH]; intros cl; simpl; [by rewrite app_nil_r|]. rewrite IH. simpl. by rewrite <- app_assoc. Qed.

Lemma GetColumnList_full table : GetColumnList table = mk_ColumnList (full_columns table).
Proof. unfold GetColumnList, mk_ColumnList, full_columns, full_name. f_equal. Qed.
Lemma GetJoinColumnList_app l r : GetJoinColumnList (mk_ColumnList l) (mk_ColumnList r) = mk_ColumnList (l ++ r).
Proof. unfold GetJoinColumnList, mk_ColumnList. rewrite !columns_fold. simpl. by rewrite fold_left_app. Qed.

(** A list of columns with different names finds each of them. *)
Lemma find_column columns i c : NoDup (name_ <$> columns) → columns !! i = Some c →
  TryGetColumnIndex (mk_ColumnList columns) (name_ c) = Some (Z.of_nat i) ∧
  GetColumn (mk_ColumnList columns) (Z.of_nat i) = Ok c.
Proof.
  intros Hn Hc. destruct (mk_ColumnList_gen columns ColumnList_empty indexed_empty Hn) as [[Hi _] Hcols].
  fold (mk_ColumnList columns) in Hi, Hcols. simpl in Hcols. split.
  - apply Hi. split; [lia|]. unfold names. rewrite Hcols, Nat2Z.id, list_lookup_fmap, Hc. done.
  - unfold GetColumn. by rewrite Hcols, Nat2Z.id, Hc.
Qed.

(** The names of the columns of tables with different names are different. *)
Lemma full_names_NoDup tables : NoDup (GetTableName <$> tables) → Forall (λ t, dot_free (GetTableName t) = true) tables →
  Forall (λ t, NoDup (names (bt_column_list_ t))) tables → NoDup (name_ <$> (tables ≫= full_columns)).
Proof.
  assert (∀ t n, n ∈ name_ <$> full_columns t → ∃ c, n = GetTableName t +:+ "." +:+ c ∧ c ∈ names (bt_column_list_ t)) as Hin.
  { intros t n. unfold full_columns, names. rewrite <- list_fmap_compose. intros (c & -> & Hc)%list_elem_of_fmap.
    exists (name_ c). split; [done|]. by apply list_elem_of_fmap_2. }
  induction tables as [|t tables IH]; intros Hn Hd Hc; [constructor|].
  apply NoDup_cons in Hn as [Hnin Hn]. apply Forall_cons in Hd as [Hdt Hd]. apply Forall_cons in Hc as [Hct Hc].
  rewrite bind_cons, fmap_app, NoDup_app. split_and!; [| |by apply IH].
  - unfold full_columns. rewrite <- list_fmap_compose. unfold names in Hct.
    assert ((name_ ∘ λ column, mkColumn (full_name t column) (ctype_ column) (max_size_ column)) <$> columns_ (bt_column_list_ t) =
      (λ n, GetTableName t +:+ "." +:+ n) <$> (name_ <$> columns_ (bt_column_list_ t))) as -> by (by rewrite <- list_fmap_compose).
    apply NoDup_fmap_2_strong; [|done]. intros x y _ _ Heq. by apply dotted_inj in Heq as [_ ?].
  - intros n (c & -> & _)%Hin (column & Hname & Hcol)%list_elem_of_fmap.
    apply list_elem_of_bind in Hcol as (t' & Hcol & Ht').
    destruct (Hin t' (name_ column)) as (c' & Heq & _); [by apply list_elem_of_fmap_2|].
    rewrite Heq in Hname. rewrite Forall_forall in Hd. apply dotted_inj in Hname as [Hname _]; [|done|by apply Hd].
    apply Hnin. rewrite Hname. by apply list_elem_of_fmap_2.
Qed.

(** ** Binding a FROM clause *)

Section Bind.
Context `{Fmt} (table_oid : string → res Z) (table_columns : string → res ColumnList).

(** Expressions leave the set of table names alone. *)
Definition names_are (N : gset string) (b : Binder) : Prop := table_names_ b = N.

Lemma names_seqM {A B} N (f : A → M Binder B) l : (∀ a, preserves (names_are N) (f a)) → preserves (names_are N) (seqM (map f l)).
Proof. intros Hf. induction l as [|a l IH]; cbn [map seqM]; frame. Qed.
Lemma names_ResolveColumn N name : preserves (names_are N) (ResolveColumn name).
Proof. unfold ResolveColumn, current_table. frame. Qed.

#[local] Hint Resolve names_seqM names_ResolveColumn : frame.

Lemma BindExpression_names N : ∀ e, preserves (names_are N) (BindExpression e).
Proof.
  fix IH 1. intros e.
  assert (∀ l : list PGNode, Forall (λ e, preserves (names_are N) (BindExpression e)) l → preserves (names_are N) (seqM (map BindExpression l))) as Hl.
  { clear IH. intros l Hl. induction Hl; cbn [map seqM]; frame. }
  assert (∀ o : option PGNode, from_option (λ e, preserves (names_are N) (BindExpression e)) True o →
    preserves (names_are N) match o with Some e => e ← BindExpression e; mret (Some e) | None => mret None end) as Ho.
  { clear IH. intros [e'|]; simpl; intros; frame. }
  destruct e as [val|name val|fields|kind names lexpr rexpr| |funcname args d|boolop args|nt arg|elements|tn arg| | | | | | | | | | | | | | | | | | | | | | | | |];
    cbn [BindExpression]; try apply preserves_lift; try apply preserves_ret.
  - apply preserves_bind; [|intros; unfold BindResTargetExpression; frame; by apply preserves_modify].
    destruct val as [val|]; [apply IH|apply preserves_lift].
  - unfold BindColumnRefExpression. frame.
  - apply preserves_bind; [apply preserves_lift|intros op].
    assert (from_option (λ e, preserves (names_are N) (BindExpression e)) True lexpr) as H1 by (destruct lexpr as [l|]; [apply IH|done]).
    assert (from_option (λ e, preserves (names_are N) (BindExpression e)) True rexpr) as H2 by (destruct rexpr as [r|]; [apply IH|done]).
    unfold BindExprExpression. apply Ho in H1. apply Ho in H2. destruct kind; frame.
  - apply preserves_bind; [apply preserves_lift|intros n]. apply preserves_bind; [apply Hl|intros; apply preserves_lift].
    clear - IH. induction args; constructor; [apply IH|done].
  - apply preserves_bind; [|intros; apply preserves_lift]. destruct (bool_decide _); [apply preserves_lift|apply Hl].
    clear - IH. induction args; constructor; [apply IH|done].
  - apply preserves_bind; [apply IH|intros; apply preserves_ret].
  - apply preserves_bind; [apply Hl|intros; apply preserves_ret]. clear - IH. induction elements; constructor; [apply IH|done].
  - apply preserves_bind; [apply preserves_lift|intros n]. apply preserves_bind; [apply IH|intros; apply preserves_lift].
Qed.
#[local] Hint Resolve BindExpression_names : frame.

(** The tables a clause binds: distinct names, none of them used before, each
    table as the catalog has it. *)
Definition looked_up (table : BaseTableRef) : Prop :=
  table_oid (bt_table_ table) = Ok (bt_oid_ table) ∧ table_columns (bt_table_ table) = Ok (bt_column_list_ table).
Record binds (b b' : Binder) (tables : list BaseTableRef) : Prop := {
  bd_distinct : NoDup (GetTableName <$> tables);
  bd_new : ∀ table, table ∈ tables → GetTableName table ∉ table_names_ b;
  bd_names : table_names_ b' = list_to_set (GetTableName <$> tables) ∪ table_names_ b;
  bd_tables : Forall looked_up tables
}.
#[local] Notation binds_ok m := (∀ b t b', m b = (Ok t, b') → joined t = true ∧ binds b b' (base_tables t)).

Lemma binds_app b b1 b' tables tables' : binds b b1 tables → binds b1 b' tables' → binds b b' (tables ++ tables').
Proof.
  intros [D1 N1 E1 L1] [D2 N2 E2 L2]. split.
  - rewrite fmap_app, NoDup_app. split_and!; [done| |done]. intros n Hn (t & -> & Ht)%list_elem_of_fmap.
    apply (N2 t Ht). rewrite E1. set_solver.
  - intros t [Ht|Ht]%elem_of_app; [by apply N1|]. intros Hin. apply (N2 t Ht). rewrite E1. set_solver.
  - rewrite E2, E1, fmap_app, list_to_set_app_L. set_solver.
  - by apply Forall_app.
Qed.
Lemma binds_same b b1 b' tables : binds b b1 tables → table_names_ b' = table_names_ b1 → binds b b' tables.
Proof. intros [? ? E ?] Heq. split; try done. by rewrite Heq. Qed.

Lemma BindBaseTableRef_binds name alias b t b' : BindBaseTableRef table_oid table_columns name alias b = (Ok t, b') → binds b b' [t].
Proof.
  unfold BindBaseTableRef. rewrite get_step. case_decide as Hin; [done|]. rewrite modify_step.
  unfold mbind, M_bind, lift. destruct (table_oid name) as [oid|] eqn:Ho; [|done]. destruct (table_columns name) as [cl|] eqn:Hc; [|done].
  intros [= <- <-]. split; cbn.
  - apply NoDup_singleton.
  - by intros t ->%list_elem_of_singleton.
  - set_solver.
  - by repeat constructor.
Qed.

Lemma names_of_run {A} (m : M Binder A) b r b' : (∀ N, preserves (names_are N) m) → m b = (r, b') → table_names_ b' = table_names_ b.
Proof. intros Hm Hrun. specialize (Hm _ b eq_refl). by rewrite Hrun in Hm. Qed.

Lemma BindTableRef_binds ref : binds_ok (BindTableRef table_oid table_columns ref).
Proof.
  induction ref; intros b t b' Hrun; cbn [BindTableRef] in Hrun; try (unfold unsupported_node in Hrun; done).
  - apply M_bind_Ok in Hrun as (table & b1 & Hb & [= <- <-]). split; [done|]. by eapply BindBaseTableRef_binds.
  - apply M_bind_Ok in Hrun as (jt & b0 & [= Hjt <-] & Hrun). apply M_bind_Ok in Hrun as (l & b1 & Hl & Hrun).
    apply M_bind_Ok in Hrun as (r & b2 & Hr & Hrun). rewrite modify_step in Hrun.
    apply M_bind_Ok in Hrun as (condition & b3 & Hc & [= <- <-]).
    destruct (IHref1 _ _ _ Hl) as [Jl Bl]. destruct (IHref2 _ _ _ Hr) as [Jr Br]. simpl. rewrite Jl, Jr. split; [done|].
    eapply binds_same; [by eapply binds_app|].
    assert (∀ N, preserves (names_are N) (BindJoinCondition l r quals usingClause)) as Hq by (intros; unfold BindJoinCondition; frame).
    apply (names_of_run _ _ _ _ Hq Hc).
Qed.

Lemma cross_joins_binds nodes : ∀ result b0 b t b', joined result = true → binds b0 b (base_tables result) →
  cross_joins table_oid table_columns result nodes b = (Ok t, b') → joined t = true ∧ binds b0 b' (base_tables t).
Proof.
  induction nodes as [|node nodes IH]; intros result b0 b t b' Hj Hb Hrun; cbn [cross_joins] in Hrun; [by injection Hrun as <- <-|].
  apply M_bind_Ok in Hrun as (table & b1 & Ht & Hrun). destruct (BindTableRef_binds _ _ _ _ Ht) as [Jt Bt].
  refine (IH (CrossJoinRef result table) b0 b1 t b' _ (binds_app _ _ _ _ _ Hb Bt) Hrun). simpl. by rewrite Hj, Jt.
Qed.
Lemma BindFrom_binds nodes b t b' : BindFrom table_oid table_columns nodes b = (Ok t, b') → nodes ≠ [] →
  joined t = true ∧ binds b b' (base_tables t).
Proof.
  destruct nodes as [|node nodes]; [done|]. intros Hrun _. cbn [BindFrom] in Hrun.
  apply M_bind_Ok in Hrun as (table & b1 & Ht & Hrun). destruct (BindTableRef_binds _ _ _ _ Ht) as [Jt Bt].
  by eapply cross_joins_binds.
Qed.
End Bind.

(** ** The columns of a plan *)

Section Plans.
Context `{Fmt}.

Lemma join_operator_columns force_join l r condition join_type :
  OutputColumns (join_operator force_join l r condition join_type) = GetJoinColumnList (OutputColumns l) (OutputColumns r).
Proof. unfold join_operator. by destruct force_join, (equal_keys condition) as [[]|]. Qed.

(** The plan of a FROM clause has the columns of its tables, in their order. *)
Lemma PlanTableRef_columns force_join t : ∀ has_lock st plan st', joined t = true →
  PlanTableRef force_join t has_lock st = (Ok plan, st') → OutputColumns plan = mk_ColumnList (base_tables t ≫= full_columns).
Proof.
  induction t; intros has_lock st plan st' Hj Hrun; cbn [PlanTableRef] in Hrun; try done; simpl in Hj.
  - injection Hrun as <- <-. simpl. by rewrite app_nil_r, GetColumnList_full.
  - apply andb_prop in Hj as [J1 J2]. apply M_bind_Ok in Hrun as (l & s1 & Hl & Hrun). apply M_bind_Ok in Hrun as (r & s2 & Hr & [= <- <-]).
    simpl. by rewrite (IHt1 _ _ _ _ J1 Hl), (IHt2 _ _ _ _ J2 Hr), GetJoinColumnList_app, bind_app.
  - apply andb_prop in Hj as [J1 J2]. apply M_bind_Ok in Hrun as (l & s1 & Hl & Hrun). apply M_bind_Ok in Hrun as (r & s2 & Hr & Hrun).
    apply M_bind_Ok in Hrun as (p & s3 & _ & [= <- <-]). rewrite join_operator_columns.
    simpl. by rewrite (IHt1 _ _ _ _ J1 Hl), (IHt2 _ _ _ _ J2 Hr), GetJoinColumnList_app, bind_app.
Qed.

(** The tables that know a name. *)
Definition candidates (t : TableRef) (column_name : list string) : list (list string) :=
  omap (found_in column_name) (base_tables t).

(** An answer of the binder for a list of candidates. *)
Definition answers (column_name : list string) (found : list (list string)) (x : res (option (list string))) : Prop :=
  match found with
  | [] => x = Ok None
  | [c] => x = Ok (Some c)
  | _ => ∃ n, x = ambiguous column_name n
  end.
Lemma one_side_answers column_name n f f' x x' : answers column_name f x → answers column_name f' x' →
  answers column_name (f ++ f') (l ← x; r ← x'; one_side column_name n l r).
Proof.
  destruct f as [|c [|c' f]]; simpl; intros Hx Hx'.
  - subst x. simpl. destruct f' as [|c2 [|c2' f']]; simpl in *; [by subst x'..|]. destruct Hx' as [m ->]. by exists m.
  - subst x. simpl. destruct f' as [|c2 [|c2' f']]; simpl in *; [by subst x'| |].
    + subst x'. by exists n.
    + destruct Hx' as [m ->]. by exists m.
  - destruct Hx as [m ->]. by exists m.
Qed.
Lemma resolved t column_name : joined t = true → column_name ≠ [] →
  answers column_name (candidates t column_name) (ResolveColumnInternal t column_name).
Proof.
  intros Hj Hne. unfold candidates. induction t; simpl in *; try done.
  - rewrite ResolveColumnFromBaseTable_found by done. by destruct (found_in column_name table).
  - apply andb_prop in Hj as [J1 J2]. rewrite omap_app. apply one_side_answers; auto.
  - apply andb_prop in Hj as [J1 J2]. rewrite omap_app. apply one_side_answers; auto.
Qed.
Lemma resolved_one t column_name c : joined t = true → column_name ≠ [] → ResolveColumnInternal t column_name = Ok (Some c) →
  candidates t column_name = [c].
Proof.
  intros Hj Hne Hr. pose proof (resolved t column_name Hj Hne) as Ha. rewrite Hr in Ha.
  destruct (candidates t column_name) as [|c' [|]]; simpl in Ha; [done|by simplify_eq|by destruct Ha].
Qed.

(** What the catalog stores are lists of columns with different names. *)
Definition proper_columns (cl : ColumnList) : Prop := ∃ columns, cl = mk_ColumnList columns ∧ NoDup (name_ <$> columns).
Lemma proper_names cl : proper_columns cl → NoDup (names cl).
Proof. intros (columns & -> & Hn). unfold names, mk_ColumnList. by rewrite columns_fold. Qed.
Lemma proper_column cl name : proper_columns cl → is_Some (TryGetColumnIndex cl name) ↔ ∃ c, c ∈ columns_ cl ∧ name_ c = name.
Proof.
  intros (columns & -> & Hn). destruct (mk_ColumnList_gen columns ColumnList_empty indexed_empty Hn) as [[Hi _] _].
  fold (mk_ColumnList columns) in Hi. unfold TryGetColumnIndex. split.
  - intros [i Hname]. apply Hi in Hname as [_ Hname]. unfold names in Hname. rewrite list_lookup_fmap in Hname.
    destruct (columns_ (mk_ColumnList columns) !! Z.to_nat i) as [c|] eqn:Hc; [|done]. injection Hname as <-. exists c.
    split; [by eapply list_elem_of_lookup_2|done].
  - intros (c & [i Hc]%list_elem_of_lookup_1 & <-). exists (Z.of_nat i). apply Hi. split; [lia|].
    unfold names. by rewrite Nat2Z.id, list_lookup_fmap, Hc.
Qed.
End Plans.

(** ** Properties *)

(** The binder finds the column a name means: over tables and their joins a
    name that no table knows is not found, a name that one table knows is completed
    by the name of this table, and a name that several tables know is refused. *)
Theorem resolve_name t column_name : joined t = true → column_name ≠ [] →
  answers column_name (candidates t column_name) (ResolveColumnInternal t column_name).
Proof. apply resolved. Qed.

(** C6: from a name in a query to a column of its plan. When a FROM clause is
    bound, its tables have different names, none of them used before; a column name
    the binder finds is a column of exactly one of them, and the planner turns the
    completed name into the position of this column in the output of the plan of
    the clause, with its type and size. *)
Theorem name_to_column `{Fmt} table_oid table_columns nodes b t b' force_join has_lock st plan st' name column_name :
  BindFrom table_oid table_columns nodes b = (Ok t, b') → nodes ≠ [] →
  (∀ table cl, table_columns table = Ok cl → proper_columns cl) →
  Forall (λ table, dot_free (GetTableName table) = true) (base_tables t) →
  PlanTableRef force_join t has_lock st = (Ok plan, st') →
  ResolveColumnInternal t [name] = Ok (Some column_name) →
  binds table_oid table_columns b b' (base_tables t) ∧
  ∃ table column i, table ∈ base_tables t ∧ column ∈ columns_ (bt_column_list_ table) ∧ name_ column = name ∧
    (∀ table' column', table' ∈ base_tables t → column' ∈ columns_ (bt_column_list_ table') → name_ column' = name → table' = table) ∧
    join_names column_name = full_name table column ∧
    columns_ (OutputColumns plan) !! i = Some (mkColumn (full_name table column) (ctype_ column) (max_size_ column)) ∧
    ∀ st, PlanColumnRef (join_names column_name) [OutputColumns plan] st =
      (Ok (fresh_expr (ColumnValue (Z.of_nat i) (ctype_ column) (full_name table column) (max_size_ column) true)), st).
Proof.
  intros Hbind Hne Hproper Hdot Hplan Hres. destruct (BindFrom_binds _ _ _ _ _ _ Hbind Hne) as [Hj Hb].
  split; [exact Hb|]. pose proof (resolved_one t [name] column_name Hj ltac:(done) Hres) as Hone.
  assert (∀ table, table ∈ base_tables t → proper_columns (bt_column_list_ table)) as Hprop.
  { intros table Ht. pose proof (bd_tables _ _ _ _ _ Hb) as Hl. rewrite Forall_forall in Hl. by eapply Hproper, Hl. }
  assert (∀ table column, table ∈ base_tables t → column ∈ columns_ (bt_column_list_ table) → name_ column = name →
    column_name = [GetTableName table; name]) as Hfound.
  { intros table column Ht Hc Hn. assert ([GetTableName table; name] ∈ candidates t [name]) as Hin.
    - apply list_elem_of_omap. exists table. split; [done|]. simpl.
      destruct (proj2 (proper_column _ name (Hprop _ Ht))) as [i ->]; [by exists column|done].
    - rewrite Hone in Hin. by apply list_elem_of_singleton in Hin. }
  assert (column_name ∈ candidates t [name]) as (table & Ht & Hf)%list_elem_of_omap by (rewrite Hone; by apply list_elem_of_singleton).
  simpl in Hf. destruct (TryGetColumnIndex _ name) as [idx|] eqn:Hidx; [|done]. injection Hf as <-.
  destruct (proj1 (proper_column _ name (Hprop _ Ht))) as (column & Hc & Hn); [by exists idx|].
  assert (OutputColumns plan = mk_ColumnList (base_tables t ≫= full_columns)) as Hcols by by eapply PlanTableRef_columns.
  assert (mkColumn (full_name table column) (ctype_ column) (max_size_ column) ∈ base_tables t ≫= full_columns) as [i Hi]%list_elem_of_lookup_1.
  { apply list_elem_of_bind. exists table. split; [|done]. apply list_elem_of_fmap. by exists column. }
  exists table, column, i. split_and!; [done..| | | |].
  - intros table' column' Ht' Hc' Hn'. pose proof (Hfound _ _ Ht' Hc' Hn') as Heq. injection Heq as Heq.
    apply list_elem_of_lookup_1 in Ht as [k Hk]. apply list_elem_of_lookup_1 in Ht' as [k' Hk'].
    assert (k = k') as <-; [|congruence]. eapply (NoDup_lookup _ _ _ (GetTableName table) (bd_distinct _ _ _ _ _ Hb));
      rewrite list_lookup_fmap, ?Hk, ?Hk'; simpl; congruence.
  - unfold full_name. by rewrite Hn.
  - rewrite Hcols. unfold mk_ColumnList. by rewrite columns_fold.
  - intros st0. assert (join_names [GetTableName table; name] = full_name table column) as -> by (unfold full_name; by rewrite Hn).
    assert (NoDup (name_ <$> (base_tables t ≫= full_columns))) as Hnd.
    { apply full_names_NoDup; [apply (bd_distinct _ _ _ _ _ Hb)|done|]. apply Forall_forall. intros t' Ht'. by apply proper_names, Hprop. }
    destruct (find_column _ i _ Hnd Hi) as [Htry Hget]. simpl in Htry. unfold PlanColumnRef. rewrite get_step, Hcols, Htry.
    unfold child_column. by rewrite Hget.
Qed.

(** *** Concrete tables *)

(** FROM t, s x where [t] has the columns [a] and [b], and [s] has [a] and [c]. *)
Definition ex_t_schema : ColumnList := mk_ColumnList [mkColumn "a" INT 4; mkColumn "b" DOUBLE 8].
Definition ex_s_schema : ColumnList := mk_ColumnList [mkColumn "a" INT 4; mkColumn "c" VARCHAR 10].
Definition ex_oid (name : string) : res Z := if decide (name = "t") then Ok 10001 else Ok 10002.
Definition ex_columns (name : string) : res ColumnList := if decide (name = "t") then Ok ex_t_schema else Ok ex_s_schema.
Definition ex_from : list PGNode := [PGRangeVar "t" None; PGRangeVar "s" (Some "x")].
Definition ex_tables : TableRef :=
  CrossJoinRef (BaseTable (mkBaseTable "t" None 10001 ex_t_schema)) (BaseTable (mkBaseTable "s" (Some "x") 10002 ex_s_schema)).

Definition ex_fmt_strings : Fmt := {| fmt_double := λ _, "?"; fmt_vector := String.concat ", " |}.

Lemma resolve_name_witness :
  ResolveColumnInternal ex_tables ["c"] = Ok (Some ["x"; "c"]) ∧ ResolveColumnInternal ex_tables ["d"] = Ok None ∧
  (∃ n, ResolveColumnInternal ex_tables ["a"] = ambiguous ["a"] n) ∧
  ResolveColumnInternal ex_tables ["t"; "b"] = Ok (Some ["t"; "b"]).
Proof.
  split_and!.
  - exact (resolve_name ex_tables ["c"] eq_refl ltac:(done)).
  - exact (resolve_name ex_tables ["d"] eq_refl ltac:(done)).
  - exact (resolve_name ex_tables ["a"] eq_refl ltac:(done)).
  - exact (resolve_name ex_tables ["t"; "b"] eq_refl ltac:(done)).
Defined.

Definition ex_cross : Operator :=
  let t := mkBaseTable "t" None 10001 ex_t_schema in let s := mkBaseTable "s" (Some "x") 10002 ex_s_schema in
  NestedLoopJoinOperator (GetJoinColumnList (GetColumnList t) (GetColumnList s))
    (SeqScanOperator (GetColumnList t) 10001 "t" None false) (SeqScanOperator (GetColumnList s) 10002 "s" (Some "x") false)
    (Const (Value_bool true)) INNER.
Lemma name_to_column_witness : ∃ i,
  PlanTableRef (H := ex_fmt_strings) FJ_NONE ex_tables false Planner_new = (Ok ex_cross, Planner_new) ∧
  columns_ (OutputColumns ex_cross) !! i = Some (mkColumn "x.c" VARCHAR 10).
Proof.
  destruct (name_to_column (H := ex_fmt_strings) ex_oid ex_columns ex_from Binder_new ex_tables
    (BindFrom (H := ex_fmt_strings) ex_oid ex_columns ex_from Binder_new).2 FJ_NONE false Planner_new ex_cross Planner_new "c" ["x"; "c"]
    eq_refl ltac:(done)) as (_ & table & column & i & Ht & Hc & Hn & _ & Hname & Hi & _); [|by repeat constructor|reflexivity|reflexivity|].
  - intros table cl. unfold ex_columns. case_decide; intros [= <-]; eexists; (split; [reflexivity|]); cbn; repeat constructor; set_solver.
  - exists i. split; [reflexivity|].
    apply elem_of_cons in Ht as [->|[->|[]%elem_of_nil]%elem_of_cons].
    + repeat (apply elem_of_cons in Hc as [->|Hc]; [done|]). by apply elem_of_nil in Hc.
    + repeat (apply elem_of_cons in Hc as [->|Hc]; [try done; exact Hi|]). by apply elem_of_nil in Hc.
Defined.
