(* ===== verification/Engine.v ===== *)
(** [src/src/database/database_engine.h] and [database_engine.cpp]: the engine
    runs the statements of its connections, each in the transaction of its
    connection or in one of its own that it commits or rolls back at the end.
    The parser and the catalog are an interface. What the engine writes to its [ResultWriter] is the result of the
    model; what it wrote before an exception is not modelled. *)
From Stdlib Require Import Ascii.
From S2P Require Import Prelude Memory Types StringUtil Disk Value Bitmap Column Record TablePage Lru LogRecord LogManager BufferPool Storage LockManager TransactionManager Visibility Table TableScan Recovery Like Expressions Executor Pipeline OrderBy Join Query Select Plan Texts NodeTags Bound Binder Planner Optimizer Dml Statements Frames.

(** ** The interface to the parser and the catalog *)

(** [fe_catalog] is what the catalog keeps besides the loaded tables; [fe_ops] is
    what the log manager asks a catalog with these tables. *)
Class FrontEnd := {
  fe_catalog : Type;
  fe_ops : fe_catalog → gmap Z Table → CatalogOps;
  Parse : string → res (list PGNode);
  fe_statistics : CatalogStatistics (fe_catalog * System);
  GetTableOid : fe_catalog → string → res Z;
  SetCardinality : string → Z → M (fe_catalog * System) unit;
  SetDistinct : string → string → Z → M (fe_catalog * System) unit;
  GetDatabaseNames : M (fe_catalog * System) (list string);
  CreateDatabase : string → bool → M (fe_catalog * System) unit;
  ChangeDatabase : string → M (fe_catalog * System) unit;
  DropDatabase : string → bool → M (fe_catalog * System) unit;
  CreateTable : string → ColumnList → M (fe_catalog * System) unit;
  DropTable : string → M (fe_catalog * System) unit
}.
#[export] Existing Instance fe_statistics.

(** The catalog changes no transaction. *)
Class FrontEndSpec `{FrontEnd} : Prop := {
  fe_TableExists D cat tables oid : preserves (pool_att D) (@TableExists (fe_ops cat tables) oid);
  fe_GetDatabaseOid D cat tables oid : preserves (pool_att D) (@GetDatabaseOid (fe_ops cat tables) oid);
  fe_GetTableNames D tm : preserves (exec_frame D tm) GetTableNames;
  fe_SetCardinality D tm name n : preserves (exec_frame D tm) (SetCardinality name n);
  fe_SetDistinct D tm name column n : preserves (exec_frame D tm) (SetDistinct name column n);
  fe_GetDatabaseNames D tm : preserves (exec_frame D tm) GetDatabaseNames;
  fe_CreateDatabase D tm name ok : preserves (exec_frame D tm) (CreateDatabase name ok);
  fe_ChangeDatabase D tm name : preserves (exec_frame D tm) (ChangeDatabase name);
  fe_DropDatabase D tm name ok : preserves (exec_frame D tm) (DropDatabase name ok);
  fe_CreateTable D tm name cl : preserves (exec_frame D tm) (CreateTable name cl);
  fe_DropTable D tm name : preserves (exec_frame D tm) (DropTable name)
}.

(** ** The engine *)

(** What is written: one cell, or a table. *)
Inductive Output :=
| Cell (str : string)
| Cells (header : list string) (rows : list (list string))
| Records (header : list string) (rows : list Rec).

Section Code.
Context `{MapOrder} `{Allocator} `{Ecma} `{StdSort} `{FrontEnd} `{Fmt} (fuel : nat).

(** A [Connection *] is a number. *)
Record Engine := mkEngine {
  current_db_ : string;
  en_catalog : fe_catalog;
  en_sys : System;
  client_variables_ : gmap nat (gmap string string);
  xids_ : gmap nat Z;
  isolation_levels_ : gmap nat IsolationLevel;
  auto_transaction_set_ : gset nat;
  force_join_ : ForceJoin;
  join_order_algorithm_ : JoinOrderAlgorithm;
  enable_optimizer_ : bool;
  enable_projection_pushdown_ : bool;
  crashed_ : bool
}.

Definition set_en_sys (cat : fe_catalog) (s : System) (e : Engine) : Engine :=
  mkEngine (current_db_ e) cat s (client_variables_ e) (xids_ e) (isolation_levels_ e) (auto_transaction_set_ e)
    (force_join_ e) (join_order_algorithm_ e) (enable_optimizer_ e) (enable_projection_pushdown_ e) (crashed_ e).
Definition set_xids (xids : gmap nat Z) (e : Engine) : Engine :=
  mkEngine (current_db_ e) (en_catalog e) (en_sys e) (client_variables_ e) xids (isolation_levels_ e)
    (auto_transaction_set_ e) (force_join_ e) (join_order_algorithm_ e) (enable_optimizer_ e)
    (enable_projection_pushdown_ e) (crashed_ e).
Definition set_auto (auto : gset nat) (e : Engine) : Engine :=
  mkEngine (current_db_ e) (en_catalog e) (en_sys e) (client_variables_ e) (xids_ e) (isolation_levels_ e) auto
    (force_join_ e) (join_order_algorithm_ e) (enable_optimizer_ e) (enable_projection_pushdown_ e) (crashed_ e).

(** Calls of the parts. *)
Definition on_catalog {A} (m : M (fe_catalog * System) A) : M Engine A :=
  zoom (λ e, (en_catalog e, en_sys e)) (λ τ e, set_en_sys τ.1 τ.2 e) m.
Definition on_system {A} (m : M System A) : M Engine A := zoom en_sys (λ s e, set_en_sys (en_catalog e) s e) m.
Definition on_pool_of {A} (m : M (Pool LogDisk) A) : M System A :=
  zoom sys_pool (λ w s, mkSystem w (sys_tm s) (sys_tables s)) m.
Definition on_log {A} (m : M LogDisk A) : M Engine A := on_system (on_pool_of (on_wal m)).
Definition on_transactions {A} (m : M TransactionManager A) : M Engine A := on_system (on_tm m).

(** [catch (DbException &e)] *)
Definition catch_db {S A} (m : M S A) (handler : exn → M S A) : M S A := λ s,
  match m s with
  | (Err (DbException message), s) => handler (DbException message) s
  | r => r
  end.

(** *** Transactions *)

Definition InTransaction (connection : nat) (e : Engine) : bool := bool_decide (is_Some (xids_ e !! connection)).
Definition CheckInTransaction (connection : nat) (e : Engine) : bool :=
  bool_decide (connection ∉ auto_transaction_set_ e) && InTransaction connection e.

(** [xids_[&connection]] *)
Definition xid_at (connection : nat) : M Engine Z :=
  e ← get;
  match xids_ e !! connection with
  | Some xid => mret xid
  | None => modify (λ e, set_xids (<[connection := 0]> (xids_ e)) e) ;; mret 0
  end.

Definition Engine_Begin (connection : nat) : M Engine unit :=
  e ← get;
  if InTransaction connection e then throw (DbException "There is already a transaction in progress")
  else
    xid ← on_transactions Begin;
    modify (λ e, set_xids (<[connection := xid]> (xids_ e)) e) ;;
    on_log (AppendBeginLog xid) ;;
    mret ().

Definition Engine_Commit (connection : nat) : M Engine unit :=
  e ← get;
  if negb (InTransaction connection e) then throw (DbException "There is no transaction in process")
  else
    xid ← xid_at connection;
    on_log (AppendCommitLog xid) ;;
    on_transactions (Commit xid) ;;
    modify (λ e, set_xids (delete connection (xids_ e)) e).

Definition Engine_Rollback (connection : nat) : M Engine unit :=
  e ← get;
  if negb (InTransaction connection e) then throw (DbException "There is no transaction in process")
  else
    xid ← xid_at connection;
    e ← get;
    on_system (on_pool_of (let _ := fe_ops (en_catalog e) (sys_tables (en_sys e)) in LogManager_Rollback fuel xid)) ;;
    on_log (AppendRollbackLog xid) ;;
    on_transactions (TransactionManager_Rollback xid) ;;
    modify (λ e, set_xids (delete connection (xids_ e)) e).

(** [Connection::Rollback] *)
Definition Connection_Rollback (connection : nat) : M Engine unit :=
  e ← get; if InTransaction connection e then Engine_Rollback connection else mret ().

(** The transaction the engine began for the statement, at the end of a statement
    that failed and of one that did not. *)
Definition abort_auto (connection : nat) : M Engine unit :=
  e ← get;
  if bool_decide (connection ∈ auto_transaction_set_ e) then
    Engine_Rollback connection ;;
    modify (λ e, set_auto (auto_transaction_set_ e ∖ {[connection]}) e)
  else mret ().
Definition commit_auto (connection : nat) : M Engine unit :=
  e ← get;
  if bool_decide (connection ∈ auto_transaction_set_ e) then
    Engine_Commit connection ;;
    modify (λ e, set_auto (auto_transaction_set_ e ∖ {[connection]}) e)
  else mret ().
Definition begin_auto (connection : nat) : M Engine unit :=
  e ← get;
  if InTransaction connection e then mret ()
  else
    Engine_Begin connection ;;
    modify (λ e, set_auto (auto_transaction_set_ e ∪ {[connection]}) e).

(** *** Queries *)

Definition isolation_level_of (connection : nat) (e : Engine) : IsolationLevel :=
  default DEFAULT_ISOLATION_LEVEL (isolation_levels_ e !! connection).

Definition column_names (cl : ColumnList) : list string := name_ <$> columns_ cl.

Definition optimized (plan : Operator) : M Engine Operator :=
  e ← get;
  if enable_optimizer_ e then on_catalog (Optimize (join_order_algorithm_ e) (enable_projection_pushdown_ e) plan)
  else mret plan.

(** Planning and running a query, without the exception handlers. *)
Definition run_query (connection : nat) (statement : Statement) : M Engine Output :=
  e ← get;
  plan ← lift (PlanQuery (force_join_ e) statement);
  plan ← optimized plan;
  xid ← xid_at connection;
  cid ← on_transactions (GetCidAndIncrement xid);
  records ← on_system (run_plan fuel (mkContext xid (isolation_level_of connection e) cid) plan);
  mret (Records (column_names (OutputColumns plan)) records).

(** *** Other statements *)

Definition WriteOneCell (str : string) : M Engine Output := mret (Cell str).

Definition no_ddl_in_transaction (connection : nat) : M Engine unit :=
  e ← get;
  if CheckInTransaction connection e then throw (DbException "Cannot execute DDL statement within a transaction block")
  else mret ().

Definition Engine_Lock (xid : Z) (lock_type : TableLockType) (oid : Z) : M Engine unit :=
  let lock_type := match lock_type with TL_SHARE => LS | TL_EXCLUSIVE => LX end in
  granted ← on_system (on_lock_manager (LockTable xid lock_type oid));
  if negb granted then throw (DbException "Cannot acquire lock") else mret ().

Definition String2IsolationLevel (str : string) : res IsolationLevel :=
  if decide (str = "read_committed") then Ok READ_COMMITTED
  else if decide (str = "repeatable_read") then Ok REPEATABLE_READ
  else if decide (str = "serializable") then Ok SERIALIZABLE
  else Err (DbException ("Unknown isolation level " +:+ str)).
Definition String2ForceJoin (str : string) : res ForceJoin :=
  if decide (str = "none") then Ok FJ_NONE
  else if decide (str = "hash") then Ok FJ_HASH
  else if decide (str = "merge") then Ok FJ_MERGE
  else Err (DbException ("Unknown force join " +:+ str)).
Definition String2JoinOrderAlgorithm (str : string) : res JoinOrderAlgorithm :=
  if decide (str = "none") then Ok JO_NONE
  else if decide (str = "dp") then Ok JO_DP
  else if decide (str = "greedy") then Ok JO_GREEDY
  else Err (DbException ("Unknown join order algorithm " +:+ str)).
Definition String2DeadlockType (str : string) : res DeadlockType :=
  if decide (str = "wait_die") then Ok WAIT_DIE
  else if decide (str = "wound_wait") then Ok WOUND_WAIT
  else if decide (str = "detection") then Ok DETECTION
  else Err (DbException ("Unknown deadlock type " +:+ str)).
Definition String2Bool (str : string) : res bool :=
  if decide (str = "true" ∨ str = "1" ∨ str = "on") then Ok true
  else if decide (str = "false" ∨ str = "0" ∨ str = "off") then Ok false
  else Err (DbException ("Unknown boolean value " +:+ str)).

Definition set_levels (levels : gmap nat IsolationLevel) (e : Engine) : Engine :=
  mkEngine (current_db_ e) (en_catalog e) (en_sys e) (client_variables_ e) (xids_ e) levels (auto_transaction_set_ e)
    (force_join_ e) (join_order_algorithm_ e) (enable_optimizer_ e) (enable_projection_pushdown_ e) (crashed_ e).
Definition set_options (fj : ForceJoin) (jo : JoinOrderAlgorithm) (opt push : bool) (e : Engine) : Engine :=
  mkEngine (current_db_ e) (en_catalog e) (en_sys e) (client_variables_ e) (xids_ e) (isolation_levels_ e)
    (auto_transaction_set_ e) fj jo opt push (crashed_ e).
Definition set_variables (vars : gmap nat (gmap string string)) (e : Engine) : Engine :=
  mkEngine (current_db_ e) (en_catalog e) (en_sys e) vars (xids_ e) (isolation_levels_ e) (auto_transaction_set_ e)
    (force_join_ e) (join_order_algorithm_ e) (enable_optimizer_ e) (enable_projection_pushdown_ e) (crashed_ e).
Definition set_db (db : string) (e : Engine) : Engine :=
  mkEngine db (en_catalog e) (en_sys e) (client_variables_ e) (xids_ e) (isolation_levels_ e) (auto_transaction_set_ e)
    (force_join_ e) (join_order_algorithm_ e) (enable_optimizer_ e) (enable_projection_pushdown_ e) (crashed_ e).

Definition VariableSet (connection : nat) (variable value : string) : M Engine Output :=
  (if decide (variable = "isolation_level") then
     level ← lift (String2IsolationLevel value);
     modify (λ e, set_levels (<[connection := level]> (isolation_levels_ e)) e)
   else if decide (variable = "join_order_algorithm") then
     jo ← lift (String2JoinOrderAlgorithm value);
     modify (λ e, set_options (force_join_ e) jo (enable_optimizer_ e) (enable_projection_pushdown_ e) e)
   else if decide (variable = "force_join") then
     fj ← lift (String2ForceJoin value);
     modify (λ e, set_options fj (join_order_algorithm_ e) (enable_optimizer_ e) (enable_projection_pushdown_ e) e)
   else if decide (variable = "enable_optimizer") then
     b ← lift (String2Bool value);
     modify (λ e, set_options (force_join_ e) (join_order_algorithm_ e) b (enable_projection_pushdown_ e) e)
   else if decide (variable = "enable_projection_pushdown") then
     b ← lift (String2Bool value);
     modify (λ e, set_options (force_join_ e) (join_order_algorithm_ e) (enable_optimizer_ e) b e)
   else if decide (variable = "deadlock") then
     d ← lift (String2DeadlockType value);
     on_system (on_lock_manager (SetDeadLockType d))
   else mret ()) ;;
  modify (λ e, set_variables (<[connection := <[variable := value]> (default ∅ (client_variables_ e !! connection))]>
                               (client_variables_ e)) e) ;;
  WriteOneCell "SET".

Definition ShowTables : M Engine Output :=
  names ← on_catalog GetTableNames; mret (Cells ["table_name"] ((λ name, [name]) <$> names)).
Definition ShowDatabases : M Engine Output :=
  names ← on_catalog GetDatabaseNames; mret (Cells ["database_name"] ((λ name, [name]) <$> names)).

Definition VariableShow (connection : nat) (variable : string) : M Engine Output :=
  if decide (variable = "tables") then ShowTables
  else if decide (variable = "databases") then ShowDatabases
  else
    e ← get;
    result ← lift (
      if decide (variable = "disk_access_count") then Ok (pretty (access_count_ (dk (po_wal (sys_pool (en_sys e))))))
      else if decide (variable = "redo_count") then Ok (pretty (redo_count_ (lg (po_wal (sys_pool (en_sys e))))))
      else match client_variables_ e !! connection ≫= lookup variable with
           | Some value => Ok value
           | None => Err (DbException "Variable not found")
           end);
    mret (Cells [variable] [[result]]).

(** The texts of the chosen stages. *)
Definition chosen (options option_bit : Z) (text : res string) : res string :=
  if Z.land options option_bit =? 0 then Ok "" else text.
Definition Explain (statement : Statement) (options : Z) : M Engine Output :=
  e ← get;
  binder_text ← lift (chosen options EO_BINDER (s ← Statement_ToString statement; Ok ("===Binder===" +:+ newline +:+ s)));
  plan ← lift (PlanQuery (force_join_ e) statement);
  planner_text ← lift (chosen options EO_PLANNER
    (s ← Operator_ToString plan 0; Ok ("===Planner===" +:+ newline +:+ s +:+ newline)));
  plan ← optimized plan;
  optimizer_text ← lift (chosen options EO_OPTIMIZER (s ← Operator_ToString plan 0; Ok ("===Optimizer===" +:+ newline +:+ s)));
  WriteOneCell (binder_text +:+ planner_text +:+ optimizer_text).

(** *** ANALYZE *)

Definition on_sys_of {C A} (m : M System A) : M (C * System) A := zoom snd (λ s τ, (τ.1, s)) m.

(** [std::unordered_set<Value>::insert]; the hash of NULL throws. *)
Definition value_insert (v : Value) (set : list Value) : res (list Value) :=
  match type_ v with
  | NULL_TYPE | LIST => Err (DbException "Unknown value type in hash")
  | _ => Ok (if existsb (λ w, match Equal w v with Ok b => b | Err _ => false end) set then set else set ++ [v])
  end.

Fixpoint count_values (columns : list (Z * string)) (record : Rec) (value_set : list (list Value)) : res (list (list Value)) :=
  match columns, value_set with
  | (i, _) :: columns, set :: value_set =>
      v ← GetValue record i; set ← value_insert v set; rest ← count_values columns record value_set; Ok (set :: rest)
  | _, _ => Ok []
  end.

(** The loop over the records of the table, from the place the scan has reached. *)
Fixpoint analyze_loop (calls : nat) (table : Z) (rid : Rid) (columns : list (Z * string)) (record_count : Z)
    (value_set : list (list Value)) : M System (Z * list (list Value)) :=
  match calls with
  | O => throw (Undefined "the loop does not end")
  | S calls =>
      t ← on_scan table rid (GetNextRecord fuel NULL_XID DEFAULT_ISOLATION_LEVEL NULL_CID ∅);
      match t with
      | (None, _) => mret (record_count, value_set)
      | (Some record, rid) =>
          value_set ← lift (count_values columns record value_set);
          analyze_loop calls table rid columns (u32 (record_count + 1)) value_set
      end
  end.

Definition all_columns (cl : ColumnList) : list (Z * string) := imap (λ i c, (Z.of_nat i, name_ c)) (columns_ cl).

(** One turn of the loop over the tables; [None] stands for all columns. *)
Definition analyze_table (columns : option (list (Z * string))) (table_name : string) : M (fe_catalog * System) unit :=
  σ ← get;
  oid ← lift (GetTableOid σ.1 table_name);
  table ← on_sys_of (GetTable oid);
  columns ← match columns with
            | Some columns => mret columns
            | None => σ ← get; cl ← lift (GetTableColumnList σ table_name); mret (all_columns cl)
            end;
  σ ← get;
  first ← lift match sys_tables σ.2 !! table with
               | Some t => Ok (first_page_id_ t)
               | None => Err (Undefined "use of a null table")
               end;
  counts ← on_sys_of (analyze_loop fuel table (mkRid first 0) columns 0 (replicate (length columns) []));
  SetCardinality table_name counts.1 ;;
  seqM (zip_with (λ column set, SetDistinct table_name column.2 (Z.of_nat (length set))) columns counts.2) ;;
  mret ().

(** The columns ANALYZE names. *)
Definition analyze_column (table : string) (column : option (list string)) : M (fe_catalog * System) (Z * string) :=
  σ ← get;
  lift (cl ← GetTableColumnList σ table;
        col_name ← match column with Some names => Ok names | None => Err (Undefined "null pointer") end;
        name ← match col_name !! 1%nat with Some name => Ok name | None => Err (Undefined "vector index out of range") end;
        i ← Column.GetColumnIndex cl name; c ← GetColumn cl i; Ok (i, name_ c)).

Definition Analyze (table : option BaseTableRef) (columns : list (option (list string))) : M (fe_catalog * System) unit :=
  table_names ← match table with None => GetTableNames | Some t => mret [bt_table_ t] end;
  named ← match table with None => mret [] | Some t => seqM (map (analyze_column (bt_table_ t)) columns) end;
  seqM (map (analyze_table (if bool_decide (columns = []) then None else Some named)) table_names) ;;
  mret ().

(** *** [ExecuteSql] *)

(** The [switch]; a query has a handler of its own. *)
Definition dispatch (connection : nat) (statement : Statement) : M Engine Output :=
  match statement with
  | CreateDatabaseStatement database =>
      no_ddl_in_transaction connection ;; on_catalog (CreateDatabase database false) ;; WriteOneCell "CREATE DATABASE"
  | CreateTableStatement table columns =>
      no_ddl_in_transaction connection ;; on_catalog (CreateTable table (mk_ColumnList columns)) ;; WriteOneCell "CREATE TABLE"
  | CreateIndexStatement _ _ _ => no_ddl_in_transaction connection ;; WriteOneCell "CREATE INDEX"
  | DropDatabaseStatement database missing_ok =>
      no_ddl_in_transaction connection ;;
      e ← get;
      if decide (database = current_db_ e) then throw (DbException "Cannot drop the currently open database")
      else on_catalog (DropDatabase database missing_ok) ;; WriteOneCell "DROP DATABASE"
  | DropTableStatement table _ =>
      no_ddl_in_transaction connection ;; on_catalog (DropTable table) ;; WriteOneCell "DROP TABLE"
  | DropIndexStatement _ _ => no_ddl_in_transaction connection ;; WriteOneCell "DROP INDEX"
  | ExplainStatement statement options => Explain statement options
  | LockStatement table lock_type =>
      xid ← xid_at connection; Engine_Lock xid lock_type (bt_oid_ table) ;; mret (Cells [] [])
  | VariableSetStatement variable value => VariableSet connection variable value
  | VariableShowStatement variable => VariableShow connection variable
  | AnalyzeStatement table columns => on_catalog (Analyze table columns) ;; WriteOneCell "Analyze"
  | VacuumStatement _ => WriteOneCell "Vacuum"
  | DeleteStatement _ _ | InsertStatement _ _ _ | QuerySelect _ | UpdateStatement _ _ _ =>
      catch_db (run_query connection statement) (λ x, abort_auto connection ;; throw x)
  | TransactionStatement _ | CheckpointStatement => throw (Undefined "handled before")
  end.

(** One turn of the loop over the statements. *)
Definition execute_statement (connection : nat) (statement : Statement) : M Engine Output :=
  match statement with
  | TransactionStatement TT_BEGIN => Engine_Begin connection ;; WriteOneCell "BEGIN"
  | TransactionStatement TT_COMMIT => Engine_Commit connection ;; WriteOneCell "COMMIT"
  | TransactionStatement TT_ROLLBACK => Engine_Rollback connection ;; WriteOneCell "ROLLBACK"
  | CheckpointStatement => on_log (Checkpoint false) ;; WriteOneCell "CHECKPOINT"
  | statement =>
      begin_auto connection ;;
      output ← catch_db (dispatch connection statement) (λ x, abort_auto connection ;; throw x);
      commit_auto connection ;;
      mret output
  end.

(** A statement is bound when its turn comes, by one binder for all statements of
    a text; the statement before it is gone, and with it what [table_] points to. *)
Definition bind_in (e : Engine) (node : PGNode) : M Binder Statement :=
  modify (set_table None) ;;
  BindStatement (GetTableOid (en_catalog e)) (GetTableColumnList (en_catalog e, en_sys e)) node.
Definition bind_node (node : PGNode) : M (Binder * Engine) Statement := λ '(binder, e),
  let '(statement, binder) := bind_in e node binder in (statement, (binder, e)).

Fixpoint execute_nodes (connection : nat) (nodes : list PGNode) : M (Binder * Engine) (list Output) :=
  match nodes with
  | [] => mret []
  | node :: nodes =>
      statement ← bind_node node;
      output ← zoom snd (λ e σ, (σ.1, e)) (execute_statement connection statement);
      outputs ← execute_nodes connection nodes;
      mret (output :: outputs)
  end.

(** *** The commands that start with a backslash *)

Definition Help : M Engine Output := WriteOneCell (newline +:+
  "  \? or \h              show help message" +:+ newline +:+
  "  \c [database_name]    change database" +:+ newline +:+
  "  \d                    show tables" +:+ newline +:+
  "  \d [table_name]       describe table" +:+ newline +:+
  "  \l                    show databases" +:+ newline +:+
  "  \q                    quit" +:+ newline +:+ "  ").

Fixpoint mapR {A B} (f : A → res B) (l : list A) : res (list B) :=
  match l with [] => Ok [] | x :: l => y ← f x; ys ← mapR f l; Ok (y :: ys) end.

Definition DescribeTable (table_name : string) : M Engine Output :=
  e ← get;
  column_list ← lift (GetTableColumnList (en_catalog e, en_sys e) table_name);
  rows ← lift (mapR ToStringVector (columns_ column_list));
  mret (Cells ["name"; "type"; "size"] rows).

Definition Engine_ChangeDatabase (db_name : string) : M Engine Output :=
  e ← get;
  (if decide (db_name = current_db_ e) then mret ()
   else on_catalog (ChangeDatabase db_name) ;; modify (set_db db_name)) ;;
  WriteOneCell ("Change to database " +:+ db_name).

(** [sql.substr(3)] without the spaces at its end. *)
Definition argument (sql : string) : string := RTrim (String.substring 3 (String.length sql - 3) sql).

Definition ExecuteCommand (connection : nat) (sql : string) : M Engine Output :=
  let command := default Ascii.zero (String.get 1 sql) in
  if decide (command = "l"%char) then ShowDatabases
  else if decide (command = "d"%char) then
    if bool_decide (String.length sql ≤ 3)%nat then ShowTables else DescribeTable (argument sql)
  else if decide (command = "c"%char) then
    e ← get;
    if InTransaction connection e then throw (DbException "Cannot execute \c within a transaction block")
    else if bool_decide (3 < String.length sql)%nat then Engine_ChangeDatabase (argument sql)
    else throw (DbException "No database name")
  else if decide (command = "?"%char ∨ command = "h"%char) then Help
  else throw (DbException ("Unknown command " +:+ sql +:+ newline +:+ "Type \? or \h for help.")).

(** [Binder binder(catalog)] lives as long as the loop. *)
Definition with_binder {A} (m : M (Binder * Engine) A) : M Engine A := λ e,
  let '(r, (_, e)) := m (Binder_new, e) in (r, e).

Definition ExecuteSql (connection : nat) (sql : string) : M Engine (list Output) :=
  if decide (String.get 0 sql = Some "\"%char) then output ← ExecuteCommand connection sql; mret [output]
  else nodes ← lift (Parse sql); with_binder (execute_nodes connection nodes).

Definition Engine_Crash : M Engine unit :=
  on_system (on_pool_of BufferPool_Clear) ;; on_log LogManager_Clear ;;
  modify (λ e, mkEngine (current_db_ e) (en_catalog e) (en_sys e) (client_variables_ e) (xids_ e) (isolation_levels_ e)
    (auto_transaction_set_ e) (force_join_ e) (join_order_algorithm_ e) (enable_optimizer_ e)
    (enable_projection_pushdown_ e) true).
Definition Engine_Flush : M Engine unit := on_system (on_pool_of (BufferPool_Flush false)).
End Code.
