(* ===== verification/Session.v ===== *)
(** The transactions of the connections of [Engine.v]: an invariant that every
    call of [ExecuteSql] keeps, whatever the statements are and however they end,
    and what committing guarantees. *)
From S2P Require Import Prelude Memory Types StringUtil Disk Value Bitmap Column Record TablePage Lru LogRecord LogManager BufferPool Storage LockManager TransactionManager Visibility Table TableScan Recovery Like Expressions Executor Pipeline OrderBy Join Query Select Plan Texts NodeTags Bound Binder Planner Optimizer Dml Statements Frames Engine.

(** ** Triples with a postcondition for exceptions *)

Definition leads {S A} (I : S → Prop) (m : M S A) (Q X : S → Prop) : Prop :=
  ∀ s, I s → match m s with (Ok _, s') => Q s' | (Err _, s') => X s' end.

Section Triples.
Context {S : Type}.
Implicit Types I Q X : S → Prop.

Lemma leads_preserves {A} I (m : M S A) : preserves I m → leads I m I I.
Proof. intros Hm s Hs. specialize (Hm s Hs). by destruct (m s) as [[] ?]. Qed.
Lemma preserves_leads {A} I (m : M S A) : leads I m I I → preserves I m.
Proof. intros Hm s Hs. specialize (Hm s Hs). by destruct (m s) as [[] ?]. Qed.
Lemma leads_bind {A B} I (m : M S A) (f : A → M S B) Q R X :
  leads I m Q X → (∀ a, leads Q (f a) R X) → leads I (m ≫= f) R X.
Proof.
  intros Hm Hf s Hs. specialize (Hm s Hs). unfold mbind, M_bind. destruct (m s) as [[a|x] s']; [by apply Hf|done].
Qed.
Lemma leads_get {B} I (f : S → M S B) Q X : (∀ w, I w → leads (λ s, s = w) (f w) Q X) → leads I (get ≫= f) Q X.
Proof. intros Hf s Hs. by apply (Hf s Hs). Qed.
Lemma leads_weaken {A} (I I' Q Q' X X' : S → Prop) (m : M S A) :
  leads I m Q X → (∀ s, I' s → I s) → (∀ s, Q s → Q' s) → (∀ s, X s → X' s) → leads I' m Q' X'.
Proof. intros Hm HI HQ HX s Hs. specialize (Hm s (HI s Hs)). destruct (m s) as [[] ?]; auto. Qed.
Lemma leads_catch {A} I (m : M S A) handler Q X X' :
  leads I m Q X → (∀ x, leads X (handler x) Q X') → (∀ s, X s → X' s) → leads I (catch_db m handler) Q X'.
Proof.
  intros Hm Hh HX s Hs. specialize (Hm s Hs). unfold catch_db. destruct (m s) as [[a|[]] s']; auto. by apply Hh.
Qed.
End Triples.

(** ** The invariant *)

Section Session.
Context `{MapOrder} `{Allocator} `{Ecma} `{StdSort} `{FrontEndSpec} `{Fmt} (fuel : nat).

Notation tm_of e := (sys_tm (en_sys e)).
Notation active_of e := (dom (xid2cid_ (tm_of e)) : gset Z).

(** Every active transaction belongs to exactly one connection and is in the
    table of the log manager, and nothing else is; [limit] bounds the numbers
    given out. *)
Record session_ok (limit : Z) (e : Engine) : Prop := {
  so_wf : tm_wf (tm_of e);
  so_limit : next_xid_ (tm_of e) <= limit;
  so_own : ∀ c c' x, xids_ e !! c = Some x → xids_ e !! c' = Some x → c = c';
  so_active : ∀ x, x ∈ active_of e ↔ ∃ c, xids_ e !! c = Some x;
  so_att : pool_att (active_of e) (sys_pool (en_sys e))
}.
Definition in_transaction (limit : Z) (c : nat) (e : Engine) : Prop := session_ok limit e ∧ is_Some (xids_ e !! c).

Lemma tm_wf_locks lm tm : tm_wf tm → tm_wf (set_lock_manager lm tm).
Proof. intros []. by split. Qed.

(** A step that leaves the transactions alone. *)
Lemma session_frame limit e e' : session_ok limit e → tx_frame (active_of e) (tm_of e) (en_sys e') → xids_ e' = xids_ e →
  session_ok limit e'.
Proof.
  intros [Hw Hl Ho Ha Hatt] [Hatt' [lm Hlm]] Hx. split; rewrite ?Hlm, ?Hx; try done. by apply tm_wf_locks.
Qed.
Lemma tx_frame_refl limit e : session_ok limit e → tx_frame (active_of e) (tm_of e) (en_sys e).
Proof. intros []. split; [done|]. exists (lock_manager_ (tm_of e)). by destruct (tm_of e). Qed.

Lemma session_on_system {A} (m : M System A) limit c :
  (∀ D tm, preserves (tx_frame D tm) m) → preserves (in_transaction limit c) (on_system m).
Proof.
  intros Hm e [Hs Hc]. specialize (Hm _ _ _ (tx_frame_refl _ _ Hs)). unfold on_system, zoom. destruct (m (en_sys e)) as [r s].
  split; [|done]. by eapply session_frame.
Qed.
Lemma catalog_keeps {A} (m : M (fe_catalog * System) A) limit :
  (∀ D tm, preserves (exec_frame D tm) m) → preserves (session_ok limit) (on_catalog m).
Proof.
  intros Hm e Hs. specialize (Hm _ _ (en_catalog e, en_sys e) (tx_frame_refl _ _ Hs)). unfold on_catalog, zoom.
  destruct (m _) as [r [cat s]]. by eapply session_frame.
Qed.
Lemma session_on_catalog {A} (m : M (fe_catalog * System) A) limit c :
  (∀ D tm, preserves (exec_frame D tm) m) → preserves (in_transaction limit c) (on_catalog m).
Proof.
  intros Hm e [Hs Hc]. pose proof (catalog_keeps m limit Hm e Hs) as Hk. unfold on_catalog, zoom in *.
  destruct (m _) as [r [cat s]]. by split.
Qed.
(** A change of the engine's own members. *)
Lemma session_modify f limit c : (∀ e, en_sys (f e) = en_sys e ∧ xids_ (f e) = xids_ e) →
  preserves (in_transaction limit c) (modify f).
Proof.
  intros Hf. apply preserves_modify. intros e [Hs Hc]. destruct (Hf e) as [H1' H2']. split; [|by rewrite H2'].
  eapply session_frame; [exact Hs| |exact H2']. rewrite H1'. by eapply tx_frame_refl.
Qed.
Lemma session_cid xid limit c : preserves (in_transaction limit c) (on_transactions (GetCidAndIncrement xid)).
Proof.
  intros e [[Hw Hl Ho Ha Hatt] Hc]. unfold on_transactions, on_system, on_tm, zoom, GetCidAndIncrement. rewrite get_step.
  destruct (xid2cid_ (tm_of e) !! xid) as [cid|] eqn:Hx; [|split; [by split|done]].
  rewrite modify_step.
  assert ((dom (<[xid := u32 (cid + 1)]> (xid2cid_ (tm_of e))) : gset Z) = active_of e) as Hd.
  { rewrite dom_insert_L. apply elem_of_dom_2 in Hx. set_solver. }
  split; [|done]. destruct Hw as [W1 W2 W3 W4 W5]. split; cbn; [|done|done| |].
  - split; cbn; rewrite ?Hd; done.
  - intros x. rewrite Hd. apply Ha.
  - by rewrite Hd.
Qed.
Lemma session_xid limit c : preserves (in_transaction limit c) (xid_at c).
Proof. intros e [Hs [x Hx]]. unfold xid_at. rewrite get_step, Hx. split; [done|by exists x]. Qed.

(** *** The end of a transaction *)

Lemma tx_frame_log {A} (m : M LogDisk A) D tm : preserves (att_is D) m → preserves (tx_frame D tm) (on_pool_of (on_wal m)).
Proof.
  intros Hm. eapply (preserves_zoom _ _ _ (pool_att D)).
  - by intros s [].
  - intros s w [_ Ht] Hw. by split.
  - by apply frame_on_wal.
Qed.

(** The last record of a transaction takes it off the table, unless writing it
    fails. *)
Lemma end_leads D body caller xid : leads (att_is D) (append_end body caller xid) (att_is (D ∖ {[xid]})) (att_is D).
Proof.
  unfold append_end. apply leads_get. intros w Hw. destruct (att_ (lg w) !! xid) as [prev|]; [|by intros l ->].
  cbv zeta. eapply leads_bind; [eapply leads_weaken; [apply leads_preserves, (frame_take_lsn D)|by intros l ->|done|done]|].
  intros lsn. eapply leads_bind; [apply leads_preserves, (frame_push_log D)|]. intros _.
  eapply leads_bind; [apply leads_preserves, (frame_Flush_upto D)|]. intros _.
  intros l Hl. unfold on_lg. rewrite modify_step. unfold att_is. cbn. rewrite dom_delete_L. by rewrite Hl.
Qed.

(** The state when the transaction of the connection has ended. *)
Definition session_ended (limit : Z) (c : nat) (e : Engine) : Prop := session_ok limit e ∧ xids_ e !! c = None.

Lemma end_session limit e c xid lm s : session_ok limit e → xids_ e !! c = Some xid → sys_tm s = ended xid lm (tm_of e) →
  pool_att (active_of e ∖ {[xid]}) (sys_pool s) →
  session_ended limit c (set_xids (delete c (xids_ e)) (set_en_sys (en_catalog e) s e)).
Proof.
  intros [Hw Hl Ho Ha Hatt] Hc Htm Hp. split; [|by apply lookup_delete_eq].
  split; cbn; rewrite ?Htm; cbn; rewrite ?dom_delete_L; try done.
  - by apply ended_wf.
  - intros c1 c2 x [_ H1']%lookup_delete_Some [_ H2']%lookup_delete_Some. by eapply Ho.
  - intros x. rewrite elem_of_difference, elem_of_singleton, Ha. split.
    + intros [[c' Hc'] Hne]. exists c'. rewrite lookup_delete_ne by congruence. done.
    + intros [c' [Hne Hc']%lookup_delete_Some]. split; [by exists c'|]. intros ->. apply Hne. by eapply Ho.
Qed.

Lemma TransactionManager_Rollback_run xid tm : tm_wf tm → xid ∈ dom (xid2cid_ tm) →
  ∃ lm', TransactionManager_Rollback xid tm = (Ok (), ended xid lm' tm).
Proof.
  intros Hwf Hx. destruct (release_run xid (lock_manager_ tm)) as (lm' & Hrel & _). exists lm'.
  unfold TransactionManager_Rollback. rewrite get_step. rewrite !bool_decide_eq_false_2.
  - unfold TransactionManager_ReleaseLocks, on_locks, zoom, mbind, M_bind. by rewrite Hrel.
  - rewrite <- not_elem_of_dom, <- (tm_dom _ Hwf). naive_solver.
  - rewrite <- not_elem_of_dom. naive_solver.
Qed.

(** The last steps of a commit and of a rollback, by the log record and the call
    of the transaction manager. *)
Lemma end_steps limit c e xid body caller (fin : M TransactionManager unit) :
  session_ok limit e → xids_ e !! c = Some xid → (∃ lm', fin (tm_of e) = (Ok (), ended xid lm' (tm_of e))) →
  match (on_log (append_end body caller xid) ;; on_transactions fin ;; modify (λ e, set_xids (delete c (xids_ e)) e)) e with
  | (Ok _, e') => session_ended limit c e'
  | (Err _, e') => session_ok limit e'
  end.
Proof.
  intros Hs Hc [lm' Hfin]. pose proof (so_att _ _ Hs) as Hatt.
  pose proof (end_leads (active_of e) body caller xid (po_wal (sys_pool (en_sys e))) Hatt) as Hend.
  destruct (append_end body caller xid (po_wal (sys_pool (en_sys e)))) as [[lsn|x] l] eqn:Hrun.
  - assert (on_log (append_end body caller xid) e = (Ok lsn, set_en_sys (en_catalog e)
      (mkSystem (set_wal l (sys_pool (en_sys e))) (tm_of e) (sys_tables (en_sys e))) e)) as Hlog.
    { unfold on_log, on_system, on_pool_of, on_wal, zoom. by rewrite Hrun. }
    rewrite (M_bind_step _ _ _ _ _ Hlog).
    set (e1 := set_en_sys _ _ e).
    assert (on_transactions fin e1 = (Ok (), set_en_sys (en_catalog e)
      (mkSystem (set_wal l (sys_pool (en_sys e))) (ended xid lm' (tm_of e)) (sys_tables (en_sys e))) e)) as Htm.
    { unfold on_transactions, on_system, on_tm, zoom, e1. cbn. by rewrite Hfin. }
    rewrite (M_bind_step _ _ _ _ _ Htm). unfold modify.
    exact (end_session limit e c xid lm' (mkSystem (set_wal l (sys_pool (en_sys e))) (ended xid lm' (tm_of e)) (sys_tables (en_sys e))) Hs Hc eq_refl Hend).
  - assert (on_log (append_end body caller xid) e = (Err x, set_en_sys (en_catalog e)
      (mkSystem (set_wal l (sys_pool (en_sys e))) (tm_of e) (sys_tables (en_sys e))) e)) as Hlog.
    { unfold on_log, on_system, on_pool_of, on_wal, zoom. by rewrite Hrun. }
    rewrite (M_bind_err _ _ _ _ _ Hlog). eapply session_frame; [exact Hs| |done].
    split; [exact Hend|]. exists (lock_manager_ (tm_of e)). cbn. by destruct (tm_of e).
Qed.

Lemma so_xid limit e c xid : session_ok limit e → xids_ e !! c = Some xid → xid ∈ active_of e.
Proof. intros Hs Hc. apply (so_active _ _ Hs). by exists c. Qed.

Lemma commit_leads limit c : leads (session_ok limit) (Engine_Commit c) (session_ended limit c) (session_ok limit).
Proof.
  intros e Hs. unfold Engine_Commit. rewrite get_step. unfold InTransaction.
  destruct (xids_ e !! c) as [xid|] eqn:Hc; [|by rewrite bool_decide_eq_false_2 by (by intros [])].
  rewrite bool_decide_eq_true_2 by by eexists. cbn [negb].
  assert (xid_at c e = (Ok xid, e)) as Hx by (unfold xid_at; by rewrite get_step, Hc).
  rewrite (M_bind_step _ _ _ _ _ Hx). rewrite AppendCommitLog_end. apply end_steps; [done..|].
  destruct (Commit_run xid (tm_of e) (so_wf _ _ Hs)) as (lm' & Hr & _); [by eapply so_xid|by exists lm'].
Qed.

Section Undo.
Context (cat : fe_catalog) (tables : gmap Z Table).
#[local] Instance undo_ops : CatalogOps := fe_ops cat tables.

Lemma undo_TableExists D oid : preserves (pool_att D) (TableExists oid).
Proof. apply fe_TableExists. Qed.
Lemma undo_GetDatabaseOid D oid : preserves (pool_att D) (GetDatabaseOid oid).
Proof. apply fe_GetDatabaseOid. Qed.
#[local] Hint Resolve frame_on_wal frame_on_disk frame_on_page frame_GetPage undo_TableExists undo_GetDatabaseOid : frame.

Lemma frame_page_of_log D oid page_id : preserves (pool_att D) (page_of_log oid page_id).
Proof. unfold page_of_log. frame. Qed.
#[local] Hint Resolve frame_page_of_log : frame.
Lemma frame_Log_Undo D r : preserves (pool_att D) (Log_Undo r).
Proof.
  unfold Log_Undo. destruct (log_body_ r); try apply preserves_ret; unfold InsertLog_Undo, DeleteLog_Undo, NewPageLog_Undo; frame.
Qed.
#[local] Hint Resolve frame_Log_Undo : frame.
Lemma frame_rollback_loop D n : ∀ lsn, preserves (pool_att D) (rollback_loop n lsn).
Proof.
  induction n as [|n IH]; intros lsn; cbn [rollback_loop]; unfold does_not_end, read_log; frame.
Qed.
Lemma frame_Rollback D xid : xid ∈ D → preserves (pool_att D) (LogManager_Rollback fuel xid).
Proof.
  intros Hx. unfold LogManager_Rollback. apply preserves_bind; [|intros; apply frame_rollback_loop].
  unfold att_at. apply preserves_get_bind. intros w Hw.
  assert (is_Some (att_ (lg (po_wal w)) !! xid)) as [lsn ->]; [|apply preserves_ret].
  apply elem_of_dom. by rewrite Hw.
Qed.
End Undo.

Lemma rollback_leads limit c : leads (session_ok limit) (Engine_Rollback fuel c) (session_ended limit c) (session_ok limit).
Proof.
  intros e Hs. unfold Engine_Rollback. rewrite get_step. unfold InTransaction.
  destruct (xids_ e !! c) as [xid|] eqn:Hc; [|by rewrite bool_decide_eq_false_2 by (by intros [])].
  rewrite bool_decide_eq_true_2 by by eexists. cbn [negb].
  assert (xid_at c e = (Ok xid, e)) as Hx by (unfold xid_at; by rewrite get_step, Hc).
  rewrite (M_bind_step _ _ _ _ _ Hx), get_step.
  set (ops := fe_ops (en_catalog e) (sys_tables (en_sys e))).
  pose proof (frame_Rollback (en_catalog e) (sys_tables (en_sys e)) (active_of e) xid (so_xid _ _ _ _ Hs Hc) (sys_pool (en_sys e)) (so_att _ _ Hs)) as Hroll.
  change (undo_ops (en_catalog e) (sys_tables (en_sys e))) with ops in Hroll.
  destruct (LogManager_Rollback fuel xid (sys_pool (en_sys e))) as [r w] eqn:Hrun. cbn [snd] in Hroll.
  set (e1 := set_en_sys (en_catalog e) (mkSystem w (tm_of e) (sys_tables (en_sys e))) e).
  assert (on_system (on_pool_of (LogManager_Rollback fuel xid)) e = (r, e1)) as Hon.
  { unfold on_system, on_pool_of, zoom. by rewrite Hrun. }
  assert (session_ok limit e1) as Hs1.
  { eapply session_frame; [exact Hs| |done]. split; [exact Hroll|]. exists (lock_manager_ (tm_of e)). cbn. by destruct (tm_of e). }
  destruct r as [[]|x]; [|by rewrite (M_bind_err _ _ _ _ _ Hon)].
  rewrite (M_bind_step _ _ _ _ _ Hon), AppendRollbackLog_end. apply end_steps; [done|done|].
  apply TransactionManager_Rollback_run; [apply Hs1|]. by eapply so_xid.
Qed.

(** *** The begin of a transaction *)

Lemma begin_leads limit c : limit < NULL_XID →
  leads (session_ok limit) (Engine_Begin c) (in_transaction (limit + 1) c) (session_ok (limit + 1)).
Proof.
  intros Hlim e Hs. unfold Engine_Begin. rewrite get_step. unfold InTransaction.
  destruct (xids_ e !! c) as [xid|] eqn:Hc.
  { rewrite bool_decide_eq_true_2 by by eexists. destruct Hs. split; try done. lia. }
  rewrite bool_decide_eq_false_2 by (by intros []). pose proof Hs as [Hw Hl Ho Ha Hatt].
  set (xid := next_xid_ (tm_of e)). set (tm' := (Begin (tm_of e)).2).
  assert (on_transactions Begin e = (Ok xid, set_en_sys (en_catalog e) (mkSystem (sys_pool (en_sys e)) tm' (sys_tables (en_sys e))) e)) as Hb by done.
  rewrite (M_bind_step _ _ _ _ _ Hb), modify_step.
  assert (xid ∉ active_of e) as Hnew by (intros Hx%(tm_bound _ Hw); unfold xid in Hx; lia).
  assert (att_ (lg (po_wal (sys_pool (en_sys e)))) !! xid = None) as Hno.
  { apply not_elem_of_dom. unfold pool_att, att_is in Hatt. by rewrite Hatt. }
  pose proof (AppendBeginLog_run xid (po_wal (sys_pool (en_sys e))) Hno) as Hlog. cbv zeta in Hlog.
  set (e1 := set_xids _ _). set (l' := mkLogDisk _ _) in Hlog.
  assert (on_log (AppendBeginLog xid) e1 = (Ok (next_lsn_ (lg (po_wal (sys_pool (en_sys e))))),
    set_en_sys (en_catalog e) (mkSystem (set_wal l' (sys_pool (en_sys e))) tm' (sys_tables (en_sys e))) e1)) as Hon.
  { unfold on_log, on_system, on_pool_of, on_wal, zoom, e1. cbn. by rewrite Hlog. }
  rewrite (M_bind_step _ _ _ _ _ Hon). split; [|by eexists; apply lookup_insert_eq].
  pose proof (Begin_wf (tm_of e) Hw ltac:(lia)) as Hw'. assert (active_of e1 = {[xid]} ∪ active_of e) as Hact.
  { unfold e1, tm'. rewrite Begin_run. cbn. by rewrite dom_insert_L. }
  split; cbn.
  - exact Hw'.
  - unfold tm'. rewrite Begin_run. cbn. rewrite u32_small; [lia|]. pose proof (tm_next_range _ Hw). pose proof NULL_XID_val.
    unfold FIRST_XID in *. lia.
  - intros c1 c2 x [[<- <-]|[? Hx1]]%lookup_insert_Some [[<- Hx2]|[? Hx2]]%lookup_insert_Some; try done.
    + exfalso. apply Hnew, Ha. by exists c2.
    + exfalso. apply Hnew, Ha. exists c1. by rewrite Hx2.
    + by eapply Ho.
  - intros x. change (x ∈ active_of e1 ↔ ∃ c', <[c := xid]> (xids_ e) !! c' = Some x).
    rewrite Hact, elem_of_union, elem_of_singleton, Ha. split.
    + intros [->|[c' Hx]]; [exists c; apply lookup_insert_eq|]. exists c'. rewrite lookup_insert_ne by congruence. done.
    + intros [c' [[-> <-]|[Hne Hx]]%lookup_insert_Some]; [by left|right; by exists c'].
  - change (pool_att (active_of e1) (set_wal l' (sys_pool (en_sys e)))). rewrite Hact. unfold pool_att, att_is. cbn.
    unfold pool_att, att_is in Hatt. by rewrite dom_insert_L, Hatt.
Qed.

(** *** Statements *)

Lemma abort_keeps limit c : preserves (session_ok limit) (abort_auto fuel c).
Proof.
  unfold abort_auto. apply preserves_get_bind. intros w _. case_bool_decide; [|apply preserves_ret].
  apply preserves_leads. eapply leads_bind; [exact (rollback_leads limit c)|]. intros _ e [Hs _]. cbn.
  eapply session_frame; [exact Hs|exact (tx_frame_refl _ _ Hs)|done].
Qed.
Lemma commit_auto_keeps limit c : preserves (session_ok limit) (commit_auto c).
Proof.
  unfold commit_auto. apply preserves_get_bind. intros w _. case_bool_decide; [|apply preserves_ret].
  apply preserves_leads. eapply leads_bind; [exact (commit_leads limit c)|]. intros _ e [Hs _]. cbn.
  eapply session_frame; [exact Hs|exact (tx_frame_refl _ _ Hs)|done].
Qed.
Lemma session_ok_mono limit limit' e : session_ok limit e → limit <= limit' → session_ok limit' e.
Proof. intros []. split; try done. lia. Qed.
Lemma begin_auto_leads limit c : limit < NULL_XID →
  leads (session_ok limit) (begin_auto c) (in_transaction (limit + 1) c) (session_ok (limit + 1)).
Proof.
  intros Hlim. unfold begin_auto. apply leads_get. intros w Hw. unfold InTransaction. case_bool_decide as Hc.
  - intros e ->. cbn. split; [|done]. apply (session_ok_mono limit); [done|lia].
  - eapply leads_bind; [eapply leads_weaken; [exact (begin_leads limit c Hlim)|by intros e ->|done|done]|].
    intros _. eapply leads_weaken; [apply leads_preserves, session_modify|done|done|by intros s []]. done.
Qed.

(** Within the transaction. *)
Lemma frame_Optimize D tm jo push plan : preserves (exec_frame D tm) (Optimize jo push plan).
Proof.
  unfold Optimize, ReorderJoin. pose proof (fe_GetTableNames D tm). frame.
Qed.
Lemma optimized_keeps limit c plan : preserves (in_transaction limit c) (optimized plan).
Proof.
  unfold optimized. apply preserves_get_bind. intros w _. destruct (enable_optimizer_ w); [|apply preserves_ret].
  apply session_on_catalog. intros. apply frame_Optimize.
Qed.
Lemma run_query_keeps limit c statement : preserves (in_transaction limit c) (run_query fuel c statement).
Proof.
  unfold run_query. apply preserves_get_bind. intros w _. apply preserves_bind; [apply preserves_lift|intros plan].
  apply preserves_bind; [apply optimized_keeps|intros plan']. apply preserves_bind; [apply session_xid|intros xid].
  apply preserves_bind; [apply session_cid|intros cid]. apply preserves_bind; [|intros; apply preserves_ret].
  apply session_on_system. intros D tm. apply frame_run_plan.
Qed.
Lemma Explain_keeps limit c statement options : preserves (in_transaction limit c) (Explain statement options).
Proof. unfold Explain, WriteOneCell. pose proof (optimized_keeps limit c). frame. Qed.

(** ANALYZE *)
Lemma frame_on_sys_of {C A} D tm (m : M System A) : preserves (tx_frame D tm) m → preserves (exec_frame (E := C) D tm) (on_sys_of m).
Proof. by apply preserves_zoom. Qed.
Lemma frame_seqM {S A} (I : S → Prop) (l : list (M S A)) : Forall (preserves I) l → preserves I (seqM l).
Proof. intros Hl. induction Hl; cbn [seqM]; frame. Qed.
Lemma frame_analyze_loop D tm calls : ∀ table rid columns n sets,
  preserves (tx_frame D tm) (analyze_loop fuel calls table rid columns n sets).
Proof.
  induction calls as [|calls IH]; intros; cbn [analyze_loop]; frame. apply frame_on_scan. frame.
Qed.
Lemma frame_analyze_table D tm columns name : preserves (exec_frame D tm) (analyze_table fuel columns name).
Proof.
  unfold analyze_table. pose proof (fe_SetCardinality D tm). pose proof (frame_GetTable D tm).
  pose proof (frame_analyze_loop D tm). frame; try (by apply frame_on_sys_of).
  apply frame_seqM. apply Forall_forall. intros m (column & set & ? & ? & ?)%elem_of_zip_with. subst. apply fe_SetDistinct.
Qed.
Lemma frame_Analyze D tm table columns : preserves (exec_frame D tm) (Analyze fuel table columns).
Proof.
  unfold Analyze. pose proof (fe_GetTableNames D tm). pose proof (frame_analyze_table D tm).
  frame; apply frame_seqM; apply Forall_forall; intros m (x & -> & _)%list_elem_of_fmap; [unfold analyze_column|]; frame.
Qed.

Lemma VariableSet_keeps limit c variable value : preserves (in_transaction limit c) (VariableSet c variable value).
Proof.
  unfold VariableSet, WriteOneCell. pose proof (λ D tm d, frame_on_lock_manager D tm (SetDeadLockType d)) as Hd.
  frame; first [by apply session_modify|apply session_on_system; intros; apply frame_on_lock_manager].
Qed.

Lemma catalog_query_keeps limit c {A} (m : M (fe_catalog * System) A) f : (∀ D tm, preserves (exec_frame D tm) m) →
  preserves (in_transaction limit c) (names ← on_catalog m; mret (f names : Output)).
Proof. intros Hm. apply preserves_bind; [by apply session_on_catalog|intros; apply preserves_ret]. Qed.
Lemma VariableShow_keeps limit c variable : preserves (in_transaction limit c) (VariableShow c variable).
Proof.
  unfold VariableShow, ShowTables, ShowDatabases. case_decide; [apply catalog_query_keeps; intros; apply fe_GetTableNames|].
  case_decide; [apply catalog_query_keeps; intros; apply fe_GetDatabaseNames|]. frame.
Qed.

Lemma in_transaction_ok limit c e : in_transaction limit c e → session_ok limit e.
Proof. by intros []. Qed.

Lemma ddl_keeps limit c {A} (m : M Engine A) :
  preserves (in_transaction limit c) m → preserves (in_transaction limit c) (no_ddl_in_transaction c ;; m).
Proof. intros Hm. unfold no_ddl_in_transaction. frame. Qed.

Lemma Engine_Lock_keeps limit c xid lock_type oid : preserves (in_transaction limit c) (Engine_Lock xid lock_type oid).
Proof.
  unfold Engine_Lock. apply preserves_bind; [|intros; frame]. apply session_on_system. intros. apply frame_on_lock_manager.
Qed.

(** What a handler leaves is a session again. *)
Lemma handled limit c {A} (m : M Engine A) Q : leads (in_transaction limit c) m Q (session_ok limit) →
  (∀ e, Q e → session_ok limit e) →
  leads (in_transaction limit c) (catch_db m (λ x, abort_auto fuel c ;; throw x)) Q (session_ok limit).
Proof.
  intros Hm HQ. eapply leads_catch; [exact Hm| |done]. intros x.
  eapply leads_bind; [apply leads_preserves, abort_keeps|]. by intros _ e He.
Qed.

Lemma dispatch_leads limit c statement :
  leads (in_transaction limit c) (dispatch fuel c statement) (in_transaction limit c) (session_ok limit).
Proof.
  assert (∀ A (m : M Engine A), preserves (in_transaction limit c) m →
    leads (in_transaction limit c) m (in_transaction limit c) (session_ok limit)) as Hp.
  { intros A m Hm. eapply leads_weaken; [exact (leads_preserves _ _ Hm)|done|done|apply in_transaction_ok]. }
  destruct statement; cbn [dispatch];
    try (apply handled; [apply Hp, run_query_keeps|apply in_transaction_ok]); apply Hp; unfold WriteOneCell;
    try apply preserves_throw; try apply preserves_ret; try apply ddl_keeps.
  - apply preserves_bind; [|frame]. apply session_on_catalog. intros. apply frame_Analyze.
  - apply preserves_bind; [|frame]. apply session_on_catalog. intros. apply fe_CreateDatabase.
  - apply preserves_ret.
  - apply preserves_bind; [|frame]. apply session_on_catalog. intros. apply fe_CreateTable.
  - apply preserves_get_bind. intros w _. destruct (decide _); [apply preserves_throw|].
    apply preserves_bind; [|frame]. apply session_on_catalog. intros. apply fe_DropDatabase.
  - apply preserves_ret.
  - apply preserves_bind; [|frame]. apply session_on_catalog. intros. apply fe_DropTable.
  - apply Explain_keeps.
  - apply preserves_bind; [apply session_xid|]. intros xid. apply preserves_bind; [apply Engine_Lock_keeps|frame].
  - apply VariableSet_keeps.
  - apply VariableShow_keeps.
Qed.

Lemma auto_statement limit c statement : limit < NULL_XID →
  leads (session_ok limit) (begin_auto c ;;
      output ← catch_db (dispatch fuel c statement) (λ x, abort_auto fuel c ;; throw x);
      commit_auto c ;; mret output) (session_ok (limit + 1)) (session_ok (limit + 1)).
Proof.
  intros Hlim. eapply leads_bind; [exact (begin_auto_leads limit c Hlim)|]. intros _.
  eapply leads_bind; [apply handled; [apply dispatch_leads|apply in_transaction_ok]|]. intros output.
  eapply leads_weaken; [|apply in_transaction_ok|done|done].
  eapply leads_bind; [apply leads_preserves, commit_auto_keeps|]. by intros _ e He.
Qed.

Lemma session_on_log {A} (m : M LogDisk A) limit : (∀ D, preserves (att_is D) m) → preserves (session_ok limit) (on_log m).
Proof.
  intros Hm e Hs. pose proof (tx_frame_log m (active_of e) (tm_of e) (Hm _) _ (tx_frame_refl _ _ Hs)) as Hf.
  unfold on_log, on_system. unfold zoom at 1. destruct (on_pool_of _ _) as [r s]. by eapply session_frame.
Qed.

Lemma frame_Checkpoint D b : preserves (att_is D) (Checkpoint b).
Proof. unfold Checkpoint. pose proof frame_take_lsn. pose proof frame_push_log. frame. Qed.

Lemma statement_keeps limit c statement : limit < NULL_XID →
  leads (session_ok limit) (execute_statement fuel c statement) (session_ok (limit + 1)) (session_ok (limit + 1)).
Proof.
  intros Hlim. destruct statement; cbn [execute_statement]; try exact (auto_statement limit c _ Hlim); unfold WriteOneCell.
  - eapply leads_weaken with (I := session_ok (limit + 1)); [apply leads_preserves| |done|done].
    + apply preserves_bind; [|intros; apply preserves_ret]. apply session_on_log. intros. apply frame_Checkpoint.
    + intros e He. apply (session_ok_mono limit); [done|lia].
  - assert (∀ e, session_ok limit e → session_ok (limit + 1) e) as Hmono by (intros e He; apply (session_ok_mono limit); [done|lia]).
    destruct type; (apply (leads_bind _ _ _ (session_ok (limit + 1))); [|by intros _ e He]).
    + eapply leads_weaken; [exact (begin_leads limit c Hlim)|done|apply in_transaction_ok|done].
    + eapply leads_weaken; [exact (commit_leads limit c)|done|by intros e [He%Hmono _]|exact Hmono].
    + eapply leads_weaken; [exact (rollback_leads limit c)|done|by intros e [He%Hmono _]|exact Hmono].
Qed.

(** *** [ExecuteSql] *)

Lemma execute_nodes_keeps c nodes : ∀ limit, limit + Z.of_nat (length nodes) <= NULL_XID →
  leads (λ σ, session_ok limit σ.2) (execute_nodes fuel c nodes) (λ σ, session_ok (limit + Z.of_nat (length nodes)) σ.2)
    (λ σ, session_ok (limit + Z.of_nat (length nodes)) σ.2).
Proof.
  induction nodes as [|node nodes IH]; intros limit Hlim; cbn [execute_nodes length] in *.
  - intros e He. by rewrite Z.add_0_r.
  - rewrite Nat2Z.inj_succ in *. replace (limit + Z.succ (Z.of_nat (length nodes))) with (limit + 1 + Z.of_nat (length nodes)) by lia.
    assert (∀ e limit', session_ok limit' e → limit' <= limit + 1 → session_ok (limit + 1 + Z.of_nat (length nodes)) e) as Hmono.
    { intros e limit' He Hl. apply (session_ok_mono limit'); [done|lia]. }
    eapply leads_bind with (Q := λ σ, session_ok limit σ.2).
    { intros [b e] He. unfold bind_node. destruct (bind_in _ _ _) as [[] ?]; [done|]. by apply (Hmono _ limit); [|lia]. }
    intros statement. eapply leads_bind with (Q := λ σ, session_ok (limit + 1) σ.2).
    { intros [b e] He. pose proof (statement_keeps limit c statement ltac:(lia) e He) as Hk. unfold zoom. cbn [snd fst].
      destruct (execute_statement _ _ _ _) as [[] ?]; [done|]. by apply (Hmono _ (limit + 1)); [|lia]. }
    intros output. eapply leads_bind; [exact (IH (limit + 1) ltac:(lia))|]. by intros outputs e He.
Qed.

Lemma command_keeps limit c sql : preserves (session_ok limit) (ExecuteCommand c sql).
Proof.
  unfold ExecuteCommand, ShowDatabases, ShowTables, DescribeTable, Engine_ChangeDatabase, Help, WriteOneCell. cbv zeta.
  frame; try (apply catalog_keeps; intros; first [apply fe_ChangeDatabase|apply fe_GetDatabaseNames|apply fe_GetTableNames]).
  apply preserves_modify. intros e1 He1. eapply session_frame; [exact He1|exact (tx_frame_refl _ _ He1)|done].
Qed.

(** The number of statements of a text. *)
Definition statements (sql : string) : Z :=
  match Parse sql with Ok nodes => Z.of_nat (length nodes) | Err _ => 0 end.

(** *** Transaction blocks *)

(** Whether the connection is in a transaction block afterwards. *)
Definition block_after (statement : Statement) (block : bool) : bool :=
  match statement with
  | TransactionStatement TT_BEGIN => true
  | TransactionStatement _ => false
  | _ => block
  end.
Definition is_ddl (statement : Statement) : Prop :=
  match statement with
  | CreateDatabaseStatement _ | CreateTableStatement _ _ | CreateIndexStatement _ _ _
  | DropDatabaseStatement _ _ | DropTableStatement _ _ | DropIndexStatement _ _ => True
  | _ => False
  end.

(** The transactions of the connections are [xids], those of the engine are in
    [auto]. *)
Definition sessions (xids : gmap nat Z) (auto : gset nat) (e : Engine) : Prop :=
  xids_ e = xids ∧ auto_transaction_set_ e = auto.
Definition anywhere (e : Engine) : Prop := True.

Lemma sessions_on_system {A} (m : M System A) xids auto : preserves (sessions xids auto) (on_system m).
Proof. intros e [? ?]. unfold on_system, zoom. by destruct (m _). Qed.
Lemma sessions_on_catalog {A} (m : M (fe_catalog * System) A) xids auto : preserves (sessions xids auto) (on_catalog m).
Proof. intros e [? ?]. unfold on_catalog, zoom. destruct (m _) as [r []]. by split. Qed.
Lemma sessions_modify f xids auto : (∀ e, xids_ (f e) = xids_ e ∧ auto_transaction_set_ (f e) = auto_transaction_set_ e) →
  preserves (sessions xids auto) (modify f).
Proof. intros Hf. apply preserves_modify. intros e [<- <-]. destruct (Hf e). by split. Qed.
Lemma sessions_xid c x xids auto : xids !! c = Some x → preserves (sessions xids auto) (xid_at c).
Proof. intros Hx e [He ?]. unfold xid_at. rewrite get_step, He, Hx. by split. Qed.
#[local] Hint Resolve sessions_on_system sessions_on_catalog : frame.

Lemma leads_any {A} I (m : M Engine A) : preserves I m → leads I m I anywhere.
Proof. intros Hm. by eapply leads_weaken; [exact (leads_preserves _ _ Hm)|..]. Qed.
Lemma leads_handled {A} I (m : M Engine A) Q (h : exn → M Engine unit) : leads I m Q anywhere →
  leads I (catch_db m (λ x, h x ;; throw x)) Q anywhere.
Proof.
  intros Hm. eapply leads_catch; [exact Hm| |done]. intros x. eapply leads_bind with (Q := anywhere); [intros e _; by destruct (h x e) as [[] ?]|done].
Qed.

Lemma begin_sessions c xids auto : leads (sessions xids auto) (Engine_Begin c)
  (λ e, xids !! c = None ∧ ∃ x, sessions (<[c := x]> xids) auto e) anywhere.
Proof.
  unfold Engine_Begin. apply leads_get. intros w [Hx Ha]. unfold InTransaction. case_bool_decide as Hin; [by intros e ->|].
  rewrite Hx in Hin. apply eq_None_not_Some in Hin. eapply leads_bind with (Q := sessions xids auto).
  { eapply leads_weaken; [apply leads_any, (sessions_on_system _ xids auto)|by intros e ->|done|done]. }
  intros x. eapply leads_bind with (Q := sessions (<[c := x]> xids) auto); [intros e [<- <-]; by split|]. intros _.
  eapply leads_weaken; [apply leads_any; unfold on_log; frame|done|intros e He; cbv beta; eauto|done].
Qed.
Lemma commit_sessions c xids auto : leads (sessions xids auto) (Engine_Commit c) (sessions (delete c xids) auto) anywhere.
Proof.
  unfold Engine_Commit. apply leads_get. intros w Hw. unfold InTransaction. case_bool_decide as Hin; [|by intros e ->]. cbn [negb].
  destruct Hin as [x Hx]. rewrite (proj1 Hw) in Hx. eapply leads_weaken with (I := sessions xids auto); [|by intros e ->|done|done].
  eapply leads_bind; [apply leads_any, (sessions_xid c x); done|]. intros x'.
  eapply leads_bind; [apply leads_any, sessions_on_system|]. intros _.
  eapply leads_bind; [apply leads_any, sessions_on_system|]. intros _. intros e [<- <-]. by split.
Qed.
Lemma rollback_sessions c xids auto : leads (sessions xids auto) (Engine_Rollback fuel c) (sessions (delete c xids) auto) anywhere.
Proof.
  unfold Engine_Rollback. apply leads_get. intros w Hw. unfold InTransaction. case_bool_decide as Hin; [|by intros e ->]. cbn [negb].
  destruct Hin as [x Hx]. rewrite (proj1 Hw) in Hx. eapply leads_weaken with (I := sessions xids auto); [|by intros e ->|done|done].
  eapply leads_bind; [apply leads_any, (sessions_xid c x); done|]. intros x'.
  apply leads_get. intros e0 He0. eapply leads_weaken with (I := sessions xids auto); [|by intros ? ->|done|done].
  do 3 (eapply leads_bind; [apply leads_any, sessions_on_system|]; intros _). intros e [<- <-]. by split.
Qed.

Lemma dispatch_sessions c statement xids auto : is_Some (xids !! c) →
  leads (sessions xids auto) (dispatch fuel c statement) (sessions xids auto) anywhere.
Proof.
  intros [x Hx]. pose proof (sessions_xid c x xids auto Hx) as Hat.
  destruct statement; cbn [dispatch]; try apply leads_handled; apply leads_any;
    unfold no_ddl_in_transaction, Engine_Lock, VariableSet, VariableShow, ShowTables, ShowDatabases, Explain, run_query, optimized, WriteOneCell, on_transactions;
    frame; by apply sessions_modify.
Qed.

(** The statements that run within a transaction. *)
Lemma auto_sessions c statement xids auto : c ∉ auto →
  leads (sessions xids auto) (begin_auto c ;;
    output ← catch_db (dispatch fuel c statement) (λ x, abort_auto fuel c ;; throw x);
    commit_auto c ;; mret output) (sessions xids auto) anywhere.
Proof.
  intros Hc. unfold begin_auto. intros e He. cbv beta. rewrite bind_assoc_run, get_step. unfold InTransaction. rewrite (proj1 He).
  case_bool_decide as Hin.
  - revert e He. eapply leads_bind; [apply leads_any, preserves_ret|]. intros _.
    eapply leads_bind; [apply leads_handled, dispatch_sessions, Hin|]. intros output.
    eapply leads_bind; [|intros _ e He; exact He]. unfold commit_auto. apply leads_get. intros w Hw. rewrite (proj2 Hw).
    rewrite bool_decide_eq_false_2 by done. intros e ->. exact Hw.
  - apply eq_None_not_Some in Hin. revert e He.
    assert (leads (sessions xids auto) (Engine_Begin c ;; modify (λ e, set_auto (auto_transaction_set_ e ∪ {[c]}) e))
      (λ e, ∃ x, sessions (<[c := x]> xids) (auto ∪ {[c]}) e) anywhere) as Hb.
    { eapply leads_bind; [apply begin_sessions|]. intros _ e (_ & x & [Hx Ha]). exists x. split; cbn; [exact Hx|by rewrite Ha]. }
    eapply leads_bind; [exact Hb|]. intros _ e [x He]. revert e He.
    eapply leads_bind; [apply leads_handled, dispatch_sessions; rewrite lookup_insert_eq; by eexists|]. intros output.
    eapply leads_bind; [|intros _ e He; exact He]. unfold commit_auto. apply leads_get. intros w Hw. rewrite (proj2 Hw).
    rewrite bool_decide_eq_true_2 by set_solver. eapply leads_weaken with (I := sessions _ _); [|intros e ->; exact Hw|done|done].
    eapply leads_bind; [apply commit_sessions|]. intros _ e [H1' H2']. split; cbn.
    + rewrite H1'. by apply delete_insert_id.
    + rewrite H2'. set_solver.
Qed.

Lemma statement_sessions c statement xids auto : c ∉ auto →
  leads (sessions xids auto) (execute_statement fuel c statement) (λ e, auto_transaction_set_ e = auto ∧
    (∀ c', c' ≠ c → xids_ e !! c' = xids !! c') ∧
    InTransaction c e = block_after statement (bool_decide (is_Some (xids !! c)))) anywhere.
Proof.
  intros Hc. destruct statement; cbn [execute_statement block_after]; unfold WriteOneCell;
    try (eapply leads_weaken; [exact (auto_sessions c _ xids auto Hc)|done| |done]; intros e [Hx Ha]; unfold InTransaction; by rewrite Hx).
  - eapply leads_weaken; [apply leads_any; unfold on_log; frame|done| |done]. intros e [Hx Ha]. unfold InTransaction. by rewrite Hx.
  - destruct type; (eapply leads_bind; [|intros _ e He; exact He]).
    + eapply leads_weaken; [apply begin_sessions|done| |done]. intros e (_ & x & [Hx Ha]). unfold InTransaction. rewrite Hx.
      split; [done|]. split; [intros; by apply lookup_insert_ne|]. rewrite lookup_insert_eq. by apply bool_decide_eq_true_2.
    + eapply leads_weaken; [apply commit_sessions|done| |done]. intros e [Hx Ha]. unfold InTransaction. rewrite Hx.
      split; [done|]. split; [intros; by apply lookup_delete_ne|]. rewrite lookup_delete_eq. by apply bool_decide_eq_false_2; intros [].
    + eapply leads_weaken; [apply rollback_sessions|done| |done]. intros e [Hx Ha]. unfold InTransaction. rewrite Hx.
      split; [done|]. split; [intros; by apply lookup_delete_ne|]. rewrite lookup_delete_eq. by apply bool_decide_eq_false_2; intros [].
Qed.

Lemma ddl_refused c e (m : M Engine Output) : c ∉ auto_transaction_set_ e → InTransaction c e = true →
  (begin_auto c ;; output ← catch_db (no_ddl_in_transaction c ;; m) (λ x, abort_auto fuel c ;; throw x);
   commit_auto c ;; mret output) e =
  (Err (DbException "Cannot execute DDL statement within a transaction block"), e).
Proof.
  intros Hc Hin. assert (begin_auto c e = (Ok (), e)) as Hb by (unfold begin_auto; by rewrite get_step, Hin).
  rewrite (M_bind_step _ _ _ _ _ Hb).
  assert ((no_ddl_in_transaction c ;; m) e = (Err (DbException "Cannot execute DDL statement within a transaction block"), e)) as Hd.
  { unfold no_ddl_in_transaction. rewrite bind_assoc_run, get_step. unfold CheckInTransaction. rewrite Hin.
    by rewrite bool_decide_eq_true_2 by done. }
  assert (abort_auto fuel c e = (Ok (), e)) as Ha by (unfold abort_auto; rewrite get_step; by rewrite bool_decide_eq_false_2 by done).
  apply M_bind_err. unfold catch_db. rewrite Hd. by rewrite (M_bind_step _ _ _ _ _ Ha).
Qed.
End Session.

(** ** Properties *)

Section Properties.
Context `{MapOrder} `{Allocator} `{Ecma} `{StdSort} `{FrontEndSpec} `{Fmt} (fuel : nat).

(** C20: whatever a connection sends and however its statements end - normally,
    with an exception at any point, with a refused lock, in a rollback that
    fails - every active transaction afterwards belongs to exactly one
    connection, the transactions of the connections are active, and the
    transaction table of the log manager holds exactly the active ones. *)
Theorem engine_keeps_sessions limit c sql e :
  session_ok limit e → limit + statements sql <= NULL_XID →
  session_ok (limit + statements sql) (ExecuteSql fuel c sql e).2.
Proof.
  intros Hs Hlim. assert (0 <= statements sql) as Hpos by (unfold statements; destruct (Parse sql); lia).
  unfold ExecuteSql. case_decide.
  - assert (preserves (session_ok limit) (output ← ExecuteCommand c sql; mret [output])) as Hp.
    { apply preserves_bind; [apply command_keeps|intros; apply preserves_ret]. }
    apply (session_ok_mono limit); [exact (Hp e Hs)|lia].
  - unfold statements in *. destruct (Parse sql) as [nodes|x] eqn:Hparse.
    + pose proof (execute_nodes_keeps fuel c nodes limit Hlim (Binder_new, e) Hs) as Hk. rewrite (lift_step _ _ _ _ eq_refl).
      unfold with_binder. by destruct (execute_nodes fuel c nodes _) as [[] []].
    + rewrite Z.add_0_r. exact Hs.
Qed.

(** C21: transaction blocks. A statement that returns leaves the transactions
    of the other connections alone, leaves no transaction of the engine's own
    behind, and the connection is in a block afterwards exactly as BEGIN, COMMIT
    and ROLLBACK say; a DDL statement in a block is refused and changes nothing. *)
Theorem transaction_blocks c statement e : c ∉ auto_transaction_set_ e →
  (∀ output e', execute_statement fuel c statement e = (Ok output, e') →
    auto_transaction_set_ e' = auto_transaction_set_ e ∧
    (∀ c', c' ≠ c → xids_ e' !! c' = xids_ e !! c') ∧
    InTransaction c e' = block_after statement (InTransaction c e)) ∧
  (is_ddl statement → InTransaction c e = true → execute_statement fuel c statement e =
    (Err (DbException "Cannot execute DDL statement within a transaction block"), e)).
Proof.
  intros Hc. pose proof (statement_sessions fuel c statement _ _ Hc e (conj eq_refl eq_refl)) as Hs. split.
  - intros output e' Hrun. by rewrite Hrun in Hs.
  - intros Hd Hin. destruct statement; try done; cbn [execute_statement dispatch]; by apply ddl_refused.
Qed.
End Properties.

(** *** A concrete session *)

(** Parse trees over the table [t] of [ex_schema]. *)
Definition ex_string (str : string) : PGNode := PGValueNode (PGString str).
Definition ex_column (name : string) : PGNode := PGColumnRef [ex_string name].
Definition ex_true : PGNode := PGTypeCast [ex_string "pg_catalog"; ex_string "bool"] (PGAConst (PGString "t")).
Definition ex_values_node : PGNode :=
  PGSelectStmt [PGList [PGAConst (PGInteger (-7)); PGAConst PGNull; PGAConst (PGString "ab"); ex_true]] [] false None [] [] None []
    None None [].
Definition ex_less : PGNode := PGAExpr PG_AEXPR_OP [ex_string "<"] (Some (ex_column "a")) (Some (PGAConst (PGInteger 0))).

(** INSERT INTO t VALUES (-7, NULL, 'ab', true); DELETE FROM t WHERE a < 0;
    UPDATE t SET c = 'ab' WHERE a < 0. *)
Definition ex_insert_node : PGNode := PGRawStmt (PGInsertStmt "t" [] (Some ex_values_node)).
Definition ex_delete_node : PGNode := PGRawStmt (PGDeleteStmt "t" (Some ex_less)).
Definition ex_update_node : PGNode :=
  PGRawStmt (PGUpdateStmt "t" [PGResTarget (Some "c") (Some (PGAConst (PGString "ab")))] (Some ex_less)).

(** A parser for these texts, and a catalog with the table [t] that changes
    nothing. *)
Definition ex_parse (sql : string) : res (list PGNode) :=
  if decide (sql = "insert") then Ok [ex_insert_node]
  else if decide (sql = "delete") then Ok [ex_delete_node]
  else if decide (sql = "update") then Ok [ex_update_node]
  else if decide (sql = "insert; begin") then Ok [ex_insert_node; PGRawStmt (PGTransactionStmt PG_TRANS_STMT_BEGIN)]
  else Err (DbException "syntax error").
Definition ex_front_end : FrontEnd := {|
  fe_catalog := unit; fe_ops := λ _ _, ex_catalog; Parse := ex_parse;
  fe_statistics := {|
    GetTableNames := mret ["t"];
    GetTableColumnList := λ _ name, if decide (name = "t") then Ok ex_schema else Err (DbException "no such table");
    GetCardinality := λ _ _, INVALID_CARDINALITY; GetDistinct := λ _ _ _, INVALID_DISTINCT |};
  GetTableOid := λ _ name, if decide (name = "t") then Ok 10001 else Err (DbException "no such table");
  SetCardinality := λ _ _, mret (); SetDistinct := λ _ _ _, mret ();
  GetDatabaseNames := mret ["huadb"];
  CreateDatabase := λ _ _, mret (); ChangeDatabase := λ _, mret (); DropDatabase := λ _ _, mret ();
  CreateTable := λ _ _, mret (); DropTable := λ _, mret ()
|}.
Lemma ex_front_end_spec : FrontEndSpec (H := ex_front_end).
Proof. split; intros; apply preserves_ret. Qed.
Definition ex_fmt : Fmt := {| fmt_double := λ _, "?"; fmt_vector := λ texts, "[" +:+ String.concat ", " texts +:+ "]" |}.

(** Connection 2 is in a block with transaction 5. *)
Definition ex_engine (t : Table) (w : Pool LogDisk) : @Engine ex_front_end :=
  @mkEngine ex_front_end "huadb" () (mkSystem w ex_tm5 {[10001 := t]}) ∅ {[2%nat := 5]} ∅ ∅ FJ_NONE JO_NONE true false false.

Lemma ex_session t pages w : scannable ex_db_of 0 ex_hist t pages w → session_ok 6 (ex_engine t w).
Proof.
  intros Hs. split; cbn.
  - split; cbn; [by rewrite !dom_singleton_L|..].
    + intros xid Hx. apply dom_singleton, elem_of_singleton in Hx as ->. done.
    + done.
    + intros xid s [<- <-]%lookup_singleton_Some. set_solver.
    + intros xid xid' s Hx [<- <-]%lookup_singleton_Some. apply dom_singleton, elem_of_singleton in Hx as ->. lia.
  - done.
  - intros c c' x [<- <-]%lookup_singleton_Some [<- _]%lookup_singleton_Some. done.
  - intros x. rewrite dom_singleton_L, elem_of_singleton. split.
    + intros ->. exists 2%nat. apply lookup_singleton_eq.
    + by intros (c & [<- <-]%lookup_singleton_Some).
  - destruct (pi_wal _ _ _ (sc_inv _ _ _ _ _ _ Hs)) as (k & _ & Hh). unfold pool_att, att_is. rewrite (hi_att _ _ Hh). by vm_compute.
Qed.

Lemma engine_keeps_sessions_witness : ∃ w, session_ok 6 (ex_engine ex_table w) ∧
  session_ok 8 (ExecuteSql (H2 := insertion_sort) (H3 := ex_front_end) (H4 := ex_fmt) 4 1 "insert; begin" (ex_engine ex_table w)).2.
Proof.
  destruct ex_table_start as [w Hs]. exists w. pose proof (ex_session _ _ w Hs) as He. split; [exact He|].
  exact (engine_keeps_sessions (H2 := insertion_sort) (H4 := ex_front_end_spec) (H5 := ex_fmt) 4 6 1 "insert; begin" _ He ltac:(by vm_compute)).
Defined.

Lemma transaction_blocks_witness : ∃ w,
  execute_statement (H2 := insertion_sort) (H3 := ex_front_end) (H4 := ex_fmt) 4 2 (DropTableStatement "t" false) (ex_engine ex_table w) =
    (Err (DbException "Cannot execute DDL statement within a transaction block"), ex_engine ex_table w).
Proof.
  destruct ex_table_start as [w Hs]. exists w.
  apply (transaction_blocks (H2 := insertion_sort) (H4 := ex_front_end_spec) (H5 := ex_fmt) 4 2 (DropTableStatement "t" false) (ex_engine ex_table w)); [|done|done].
  by apply not_elem_of_empty.
Defined.
