(* ===== verification/SimpleFrontEnd.v ===== *)
(** The engine over the catalog in text files: [simple_catalog.cpp] behind the
    interface of [Engine.v], as the macro [SIMPLE_CATALOG] has it. *)
From S2P Require Import Prelude Memory Types StringUtil Disk Value Bitmap Column Record TablePage Lru LogRecord LogManager BufferPool Storage LockManager TransactionManager Visibility Table TableScan Recovery Like Expressions Executor Pipeline OrderBy Join OidManager Schema Query SystemCatalog SimpleCatalog Select Plan Texts NodeTags Bound Binder Planner Optimizer Dml Statements Frames Engine Session.

Section Catalog.
Context `{MapOrder} `{Allocator} `{NameOrder} (parse : string → res (list PGNode)).

Definition simple_ops (c : SimpleCatalog) (tables : gmap Z Table) : CatalogOps := {|
  Recovery.TableExists := λ oid, mret (SimpleCatalog.TableExists c oid);
  Recovery.GetDatabaseOid := λ oid, mret (SimpleCatalog.GetDatabaseOid oid)
|}.
Definition simple_front_end : FrontEnd := {|
  fe_catalog := SimpleCatalog; fe_ops := simple_ops; Parse := parse;
  fe_statistics := {|
    Optimizer.GetTableNames := σ ← get; mret (SimpleCatalog.GetTableNames σ.1);
    Optimizer.GetTableColumnList := SimpleCatalog.GetTableColumnList;
    Optimizer.GetCardinality := λ _, SimpleCatalog.GetCardinality;
    Optimizer.GetDistinct := λ _, SimpleCatalog.GetDistinct |};
  Engine.GetTableOid := SimpleCatalog.GetTableOid;
  Engine.SetCardinality := SimpleCatalog.SetCardinality;
  Engine.SetDistinct := SimpleCatalog.SetDistinct;
  Engine.GetDatabaseNames := mret SimpleCatalog.GetDatabaseNames;
  Engine.CreateDatabase := λ name ok, SimpleCatalog.CreateDatabase name ok INVALID_OID;
  Engine.ChangeDatabase := SimpleCatalog.ChangeDatabase;
  Engine.DropDatabase := SimpleCatalog.DropDatabase;
  Engine.CreateTable := λ name cl, SimpleCatalog.CreateTable name cl INVALID_OID INVALID_OID true;
  Engine.DropTable := SimpleCatalog.DropTable
|}.

Section Frames.
Context (D : gset Z) (tm : TransactionManager).
Abbreviation keeps := (preserves (exec_frame (E := SimpleCatalog) D tm)).

Lemma simple_keeps_cat {A} (m : M SimpleCatalog A) : keeps (sc_on_cat m).
Proof. by eapply preserves_zoom; [| |apply preserves_True]. Qed.
Lemma simple_keeps_sys {A} (m : M System A) : preserves (tx_frame D tm) m → keeps (sc_on_sys m).
Proof. by apply preserves_zoom. Qed.
Lemma simple_keeps_tables f : keeps (sc_on_sys (modify (λ s, mkSystem (sys_pool s) (sys_tm s) (f s)))).
Proof. apply simple_keeps_sys, preserves_modify. by intros s []. Qed.
Lemma simple_keeps_fs f : keeps (sc_on_fs f).
Proof.
  apply simple_keeps_sys. eapply (preserves_zoom _ _ _ (pool_att D)); [by intros s []| |apply frame_on_disk].
  intros s w [_ Ht] Hw. by split.
Qed.
#[local] Hint Resolve simple_keeps_cat simple_keeps_tables simple_keeps_fs : frame.

Lemma simple_keeps_write_in c path f : keeps (write_in c path f).
Proof. unfold write_in. frame. Qed.
#[local] Hint Resolve simple_keeps_write_in : frame.
Lemma simple_keeps_CreateTable name cl oid db new : keeps (SimpleCatalog.CreateTable name cl oid db new).
Proof. unfold SimpleCatalog.CreateTable, sc_load_table, write_meta, journal, sc_on_oids. frame. Qed.
Lemma simple_keeps_DropTable name : keeps (SimpleCatalog.DropTable name).
Proof. unfold SimpleCatalog.DropTable, journal, sc_on_oids. frame. Qed.
End Frames.

(** What [Engine.v] asks of a catalog. *)
Lemma simple_front_end_spec : FrontEndSpec (H := simple_front_end).
Proof.
  split; intros; cbn [Engine.SetCardinality Engine.SetDistinct Engine.GetDatabaseNames Engine.CreateDatabase Engine.ChangeDatabase
      Engine.DropDatabase Engine.CreateTable Engine.DropTable Optimizer.GetTableNames fe_ops fe_statistics simple_front_end simple_ops
      Recovery.TableExists Recovery.GetDatabaseOid];
    first [apply preserves_ret|apply preserves_throw|apply simple_keeps_CreateTable|apply simple_keeps_DropTable|idtac].
  apply preserves_get_bind. intros. apply preserves_ret.
Qed.
End Catalog.
