(* ===== verification/Autocommit.v ===== *)
(** A statement sent outside a transaction block, from the text to the disk:
    [ExecuteSql] begins a transaction, runs the plan of the statement, commits
    and leaves the connection outside a transaction; what the statement did is in
    the table, its log records up to the commit record are on the disk, and the
    transactions that begin later see it. *)
From Stdlib Require Import Ascii.
From S2P Require Import Prelude Memory Types StringUtil Disk Value Bitmap Column Record TablePage Lru LogRecord LogManager BufferPool Storage LockManager TransactionManager Visibility Table TableScan Recovery Like Expressions Executor Pipeline OrderBy Join Query Select Plan Texts NodeTags Bound Binder Planner Optimizer Dml Statements Frames Engine Session.

(** ** Log records leave the tables alone *)

Section Log.
Context `{MapOrder} `{Allocator} (db_of : Z → Z) (base : Z).

Lemma log_only_page d d' k : log_only d d' → disk_page db_of d' k = disk_page db_of d k.
Proof. intros Hl. apply (lo_pages _ _ Hl), key_path_not_log. Qed.
Lemma log_only_file d d' k : log_only d d' → key_file db_of d k → key_file db_of d' k.
Proof. intros Hl. unfold key_file. by rewrite (lo_names _ _ Hl) by apply key_path_not_log. Qed.

Lemma inv_log_only hist hist' pending w l' : inv db_of base hist pending w → logdisk_ok base hist' l' →
  log_only (disk_of w) (dk l') → inv db_of base hist' pending (set_wal l' w).
Proof.
  intros Hi Hl Ho. split; try done; try apply Hi.
  - intros s e He. destruct (pi_entry _ _ _ Hi s e He) as (?&?&?). split; [done|]. split; [by eapply log_only_file|done].
  - intros s e He. destruct (pi_page _ _ _ Hi s e He) as (p & ? & ? & Hc). exists p. split; [done|]. split; [done|].
    intros Hd. destruct (Hc Hd); [by left|right]. by rewrite (log_only_page _ _ _ Ho).
Qed.
Lemma view_log_only w l' k : log_only (disk_of w) (dk l') → view db_of (set_wal l' w) k = view db_of w k.
Proof.
  intros Ho. unfold view. change (frame_of db_of (set_wal l' w) k) with (frame_of db_of w k).
  destruct (frame_of _ _ _); [done|]. by apply log_only_page.
Qed.
Lemma effect_log_only w l' : log_only (disk_of w) (dk l') → effect db_of (λ _, False) (λ _, False) w (set_wal l' w).
Proof.
  intros Ho. split.
  - intros k b _ _. by rewrite view_log_only.
  - intros k Hk. by right.
  - intros k. by apply log_only_file.
  - apply (lo_size _ _ Ho).
Qed.
Lemma scannable_log_only hist hist' t pages w l' : scannable db_of base hist t pages w → logdisk_ok base hist' l' →
  log_only (disk_of w) (dk l') → scannable db_of base hist' t pages (set_wal l' w).
Proof.
  intros [Hi [Hf Hp] Hn Hr] Hl Ho. split; [by eapply inv_log_only| |done|done].
  split; [done|]. by eapply pages_keep; [exact Hp|by apply effect_log_only|auto..].
Qed.
End Log.

(** ** The steps of the engine around a plan *)

Section Steps.
Context `{MapOrder} `{Allocator} `{Ecma} `{StdSort} `{FrontEnd} `{Fmt}.
Context (db_of : Z → Z) (base : Z) (fuel : nat).

(** The engine with another system and other transactions of connections. *)
Definition with_state (s : System) (xids : gmap nat Z) (auto : gset nat) (e : Engine) : Engine :=
  mkEngine (current_db_ e) (en_catalog e) s (client_variables_ e) xids (isolation_levels_ e) auto (force_join_ e)
    (join_order_algorithm_ e) (enable_optimizer_ e) (enable_projection_pushdown_ e) (crashed_ e).

(** The text is one query, and [plan] is what the planner and the optimizer make
    of it; GREEDY is not chosen. *)
Record compiles (e : Engine) (sql : string) (statement : Statement) (plan : Operator) : Prop := {
  cp_text : String.get 0 sql ≠ Some "\"%char;
  cp_parse : ∃ node binder, Parse sql = Ok [node] ∧ bind_in e node Binder_new = (Ok statement, binder);
  cp_plan : ∃ plan0, PlanQuery (force_join_ e) statement = Ok plan0 ∧
    if enable_optimizer_ e then join_order_algorithm_ e ≠ JO_GREEDY ∧ (PushDown (SplitPredicates plan0) Optimizer_new).1 = Ok plan
    else plan = plan0
}.

(** The transaction of the statement, and the transactions it sees running. *)
Definition new_xid (e : Engine) : Z := next_xid_ (sys_tm (en_sys e)).
Definition statement_context (c : nat) (e : Engine) : ExecutorContext :=
  mkContext (new_xid e) (isolation_level_of c e) FIRST_CID.
Definition running_xids (e : Engine) : gset Z := dom (xid2cid_ (sys_tm (en_sys e))).
Definition statement_active (c : nat) (e : Engine) : gset Z :=
  match isolation_level_of c e with REPEATABLE_READ => running_xids e | _ => {[new_xid e]} ∪ running_xids e end.
Definition begin_record (hist : list LogRecord) (e : Engine) : LogRecord :=
  mkLogRecord (base + span hist) (new_xid e) NULL_LSN BeginLog.

Lemma begin_auto_run c e hist : xids_ e !! c = None → new_xid e ∉ running_xids e →
  pool_att (running_xids e) (sys_pool (en_sys e)) → 0 <= new_xid e < 2 ^ 32 → base + span hist + 13 <= LOG_LIMIT →
  logdisk_ok base hist (po_wal (sys_pool (en_sys e))) →
  ∃ l, logdisk_ok base (hist ++ [begin_record hist e]) l ∧ dk l = dk (po_wal (sys_pool (en_sys e))) ∧
    begin_auto c e = (Ok (), with_state (mkSystem (set_wal l (sys_pool (en_sys e))) (Begin (sys_tm (en_sys e))).2 (sys_tables (en_sys e)))
      (<[c := new_xid e]> (xids_ e)) (auto_transaction_set_ e ∪ {[c]}) e).
Proof.
  intros Hc Hnew Hatt Hx Hroom (k & Hi & Hh). set (xid := new_xid e) in *.
  assert (att_ (lg (po_wal (sys_pool (en_sys e)))) !! xid = None) as Hno.
  { apply not_elem_of_dom. unfold pool_att, att_is in Hatt. by rewrite Hatt. }
  destruct (Begin_done _ _ _ _ xid Hi Hh Hno Hx Hroom) as (l & Hlog & Hdk & Hi' & Hh').
  rewrite (li_next _ _ _ _ Hi) in Hlog, Hi', Hh'. exists l. split; [by exists k|]. split; [exact Hdk|].
  unfold begin_auto. rewrite get_step. unfold InTransaction. rewrite Hc, bool_decide_eq_false_2 by by intros [].
  assert (Engine_Begin c e = (Ok (), with_state (mkSystem (set_wal l (sys_pool (en_sys e))) (Begin (sys_tm (en_sys e))).2 (sys_tables (en_sys e)))
      (<[c := xid]> (xids_ e)) (auto_transaction_set_ e) e)) as Hb; [|by rewrite (M_bind_step _ _ _ _ _ Hb)].
  unfold Engine_Begin. rewrite get_step. unfold InTransaction. rewrite Hc, bool_decide_eq_false_2 by by intros [].
  assert (on_transactions Begin e = (Ok xid, set_en_sys (en_catalog e)
    (mkSystem (sys_pool (en_sys e)) (Begin (sys_tm (en_sys e))).2 (sys_tables (en_sys e))) e)) as Ht by done.
  rewrite (M_bind_step _ _ _ _ _ Ht), modify_step. set (e1 := set_xids _ _).
  assert (on_log (AppendBeginLog xid) e1 = (Ok (base + span hist), with_state
    (mkSystem (set_wal l (sys_pool (en_sys e))) (Begin (sys_tm (en_sys e))).2 (sys_tables (en_sys e)))
    (<[c := xid]> (xids_ e)) (auto_transaction_set_ e) e)) as Hon.
  { unfold on_log, on_system, on_pool_of, on_wal, zoom, e1. cbn. by rewrite Hlog. }
  by rewrite (M_bind_step _ _ _ _ _ Hon).
Qed.

(** The transactions after the command number is taken. *)
Definition counted_tm (xid cid : Z) (tm : TransactionManager) : TransactionManager :=
  set_xid2cid (<[xid := u32 (cid + 1)]> (xid2cid_ tm)) tm.

Lemma optimized_run e plan0 plan s xids auto :
  (if enable_optimizer_ e then join_order_algorithm_ e ≠ JO_GREEDY ∧ (PushDown (SplitPredicates plan0) Optimizer_new).1 = Ok plan
   else plan = plan0) →
  optimized plan0 (with_state s xids auto e) = (Ok plan, with_state s xids auto e).
Proof.
  unfold optimized. rewrite get_step. cbn [enable_optimizer_ join_order_algorithm_ enable_projection_pushdown_ with_state].
  destruct (enable_optimizer_ e); [intros [Hjo Hpush]|by intros ->].
  unfold on_catalog, zoom, Optimize. rewrite (lift_step _ _ _ _ Hpush). by destruct (join_order_algorithm_ e).
Qed.

Lemma run_query_run c e statement plan0 plan s xids auto xid cid rs s' : xids !! c = Some xid → xid2cid_ (sys_tm s) !! xid = Some cid →
  PlanQuery (force_join_ e) statement = Ok plan0 →
  (if enable_optimizer_ e then join_order_algorithm_ e ≠ JO_GREEDY ∧ (PushDown (SplitPredicates plan0) Optimizer_new).1 = Ok plan
   else plan = plan0) →
  run_plan fuel (mkContext xid (isolation_level_of c e) cid) plan
    (mkSystem (sys_pool s) (counted_tm xid cid (sys_tm s)) (sys_tables s)) = (Ok rs, s') →
  run_query fuel c statement (with_state s xids auto e) = (Ok (Records (column_names (OutputColumns plan)) rs), with_state s' xids auto e).
Proof.
  intros Hx Hcid Hplan Hopt Hrun. unfold run_query. rewrite get_step. cbn [force_join_ with_state].
  rewrite (lift_step _ _ _ _ Hplan), (M_bind_step _ _ _ _ _ (optimized_run e plan0 plan s xids auto Hopt)).
  assert (xid_at c (with_state s xids auto e) = (Ok xid, with_state s xids auto e)) as Hat by (unfold xid_at; rewrite get_step; cbn; by rewrite Hx).
  rewrite (M_bind_step _ _ _ _ _ Hat).
  assert (on_transactions (GetCidAndIncrement xid) (with_state s xids auto e) =
    (Ok cid, with_state (mkSystem (sys_pool s) (counted_tm xid cid (sys_tm s)) (sys_tables s)) xids auto e)) as Hc.
  { unfold on_transactions, on_system, on_tm, zoom, GetCidAndIncrement. rewrite get_step. cbn. by rewrite Hcid. }
  rewrite (M_bind_step _ _ _ _ _ Hc).
  assert (on_system (run_plan fuel (mkContext xid (isolation_level_of c e) cid) plan)
    (with_state (mkSystem (sys_pool s) (counted_tm xid cid (sys_tm s)) (sys_tables s)) xids auto e) = (Ok rs, with_state s' xids auto e)) as Hr.
  { unfold on_system, zoom. cbn [en_sys with_state en_catalog]. rewrite Hrun. by destruct s'. }
  by rewrite (M_bind_step _ _ _ _ _ Hr).
Qed.

Definition commit_record (hist : list LogRecord) (xid : Z) : LogRecord :=
  mkLogRecord (base + span hist) xid (default 0 (att_of hist !! xid)) CommitLog.

Lemma commit_auto_run c e s xids auto xid hist : xids !! c = Some xid → c ∈ auto → tm_wf (sys_tm s) → xid ∈ dom (xid2cid_ (sys_tm s)) →
  log_ready base hist xid 13 → logdisk_ok base hist (po_wal (sys_pool s)) →
  ∃ l lm, log_inv base (hist ++ [commit_record hist xid]) (S (length hist)) l ∧ hist_inv (hist ++ [commit_record hist xid]) l ∧
    log_only (disk_of (sys_pool s)) (dk l) ∧ locks_of lm xid = [] ∧
    commit_auto c (with_state s xids auto e) = (Ok (), with_state
      (mkSystem (set_wal l (sys_pool s)) (ended xid lm (sys_tm s)) (sys_tables s)) (delete c xids) (auto ∖ {[c]}) e).
Proof.
  intros Hx Hin Hwf Hact [[prev Hprev] Hroom] (k & Hi & Hh).
  assert (att_ (lg (po_wal (sys_pool s))) !! xid = Some prev) as Hatt by (by rewrite (hi_att _ _ Hh)).
  destruct (End_done _ _ _ _ xid prev CommitLog "AppendCommitLog" Hi Hh Hatt (or_introl eq_refl) Hroom) as (l & Hlog & Hi' & Hh' & Ho).
  rewrite (li_next _ _ _ _ Hi) in Hlog, Hi', Hh'.
  assert (mkLogRecord (base + span hist) xid prev CommitLog = commit_record hist xid) as Heq by (unfold commit_record; by rewrite Hprev).
  rewrite Heq in Hi', Hh'. rewrite length_app, Nat.add_1_r in Hi'.
  destruct (Commit_run xid (sys_tm s) Hwf Hact) as (lm & Hcommit & Hlocks). exists l, lm.
  split; [exact Hi'|]. split; [exact Hh'|]. split; [exact Ho|]. split; [exact Hlocks|].
  unfold commit_auto. rewrite get_step. rewrite bool_decide_eq_true_2 by done.
  assert (Engine_Commit c (with_state s xids auto e) = (Ok (), with_state
      (mkSystem (set_wal l (sys_pool s)) (ended xid lm (sys_tm s)) (sys_tables s)) (delete c xids) auto e)) as Hc;
    [|by rewrite (M_bind_step _ _ _ _ _ Hc)].
  unfold Engine_Commit. rewrite get_step. unfold InTransaction. cbn [xids_ with_state]. rewrite Hx, bool_decide_eq_true_2 by by eexists.
  cbn [negb].
  assert (xid_at c (with_state s xids auto e) = (Ok xid, with_state s xids auto e)) as Hat by (unfold xid_at; rewrite get_step; cbn; by rewrite Hx).
  rewrite (M_bind_step _ _ _ _ _ Hat), AppendCommitLog_end.
  assert (on_log (append_end CommitLog "AppendCommitLog" xid) (with_state s xids auto e) = (Ok (base + span hist),
    with_state (mkSystem (set_wal l (sys_pool s)) (sys_tm s) (sys_tables s)) xids auto e)) as Hon.
  { unfold on_log, on_system, on_pool_of, on_wal, zoom. cbn. by rewrite Hlog. }
  rewrite (M_bind_step _ _ _ _ _ Hon).
  assert (on_transactions (Commit xid) (with_state (mkSystem (set_wal l (sys_pool s)) (sys_tm s) (sys_tables s)) xids auto e) =
    (Ok (), with_state (mkSystem (set_wal l (sys_pool s)) (ended xid lm (sys_tm s)) (sys_tables s)) xids auto e)) as Ht.
  { unfold on_transactions, on_system, on_tm, zoom. cbn. by rewrite Hcommit. }
  by rewrite (M_bind_step _ _ _ _ _ Ht).
Qed.

(** *** The whole statement *)

(** A reader of a transaction that began after [xid] had ended. *)
Record later (xid : Z) (ctx : ExecutorContext) (active : gset Z) : Prop := {
  la_after : xid < context_xid ctx < NULL_XID;
  la_ended : xid ∉ active;
  la_own : context_level ctx = REPEATABLE_READ → context_xid ctx ∉ active
}.

Lemma later_sees_new xid cid ctx active rid new : 0 <= xid → later xid ctx active → unmarked new →
  is_visible (context_xid ctx) (context_cid ctx) (context_level ctx) active (rid, stamp new xid cid).
Proof.
  intros Hx [Ha He Ho] Hu. unfold is_visible. cbn [fst snd]. apply CanGet_visible; [lia|done|].
  assert (GetXmax (stamp new xid cid) = NULL_XID) as Hm by exact Hu. assert (GetXmin (stamp new xid cid) = xid) as Hi by done.
  unfold visible, created_now, created_before, deleted_now, deleted_before. rewrite Hm, Hi.
  destruct (context_level ctx); (split; [right; split; (done || lia)|intros [?|[? ?]]; done || lia]).
Qed.
Lemma later_misses_deleted xid ctx active rid r : later xid ctx active →
  ¬ is_visible (context_xid ctx) (context_cid ctx) (context_level ctx) active (rid, delete_version xid r).
Proof.
  intros [Ha He Ho]. unfold is_visible. cbn [fst snd]. rewrite CanGet_visible by (done || lia).
  assert (GetXmax (delete_version xid r) = xid) as Hm by done.
  unfold visible, deleted_now, deleted_before. rewrite Hm. destruct (context_level ctx); intros [_ Hd]; apply Hd; right; (split; (done || lia)).
Qed.
Lemma later_sees_placed xid cid ctx active (placed : list (Rid * Rec)) : 0 <= xid → later xid ctx active →
  (∀ e, e ∈ placed → ∃ new, e.2 = stamp new xid cid ∧ unmarked new) →
  filter (is_visible (context_xid ctx) (context_cid ctx) (context_level ctx) active) placed = placed.
Proof.
  intros Hx Hl Hall. apply filter_all. intros [rid v] He. destruct (Hall _ He) as (new & Hv & Hu). simpl in Hv. subst v.
  by apply later_sees_new.
Qed.

(** What a committed statement leaves: the connection and the engine as they
    were, the changed table, and every log record on the disk; the next statement
    of any connection is later. *)
Record committed (oid : Z) (hist' : list LogRecord) (t' : Table) (pages' : list (list Rec)) (e e' : Engine) : Prop := {
  cm_xids : xids_ e' = xids_ e;
  cm_auto : auto_transaction_set_ e' = auto_transaction_set_ e;
  cm_running : running_xids e' = running_xids e;
  cm_next : new_xid e' = new_xid e + 1;
  cm_released : locks_of (lock_manager_ (sys_tm (en_sys e'))) (new_xid e) = [];
  cm_table : sys_tables (en_sys e') !! oid = Some t';
  cm_tables : ∀ o, o ≠ oid → sys_tables (en_sys e') !! o = sys_tables (en_sys e) !! o;
  cm_pages : ∀ k b, table_oid_ k ≠ oid → key_range db_of k → view db_of (sys_pool (en_sys e)) k = Some b →
    view db_of (sys_pool (en_sys e')) k = Some b;
  cm_scan : scannable db_of base hist' t' pages' (sys_pool (en_sys e'));
  cm_durable : ∀ r, r ∈ hist' → stored (disk_of (sys_pool (en_sys e'))) r;
  cm_later : ∀ c', later (new_xid e) (statement_context c' e') (statement_active c' e')
}.

(** The engine can run a statement of the connection on the table. *)
Record ready (limit : Z) (c : nat) (e : Engine) (oid : Z) (hist : list LogRecord) (t : Table) (pages : list (list Rec)) : Prop := {
  rd_session : session_ok limit e;
  rd_limit : limit + 1 < NULL_XID;
  rd_idle : xids_ e !! c = None ∧ c ∉ auto_transaction_set_ e;
  rd_table : sys_tables (en_sys e) !! oid = Some t ∧ oid_ t = oid;
  rd_scan : scannable db_of base hist t pages (sys_pool (en_sys e));
  rd_locks : locks_allow (λ o, o = oid) (Some LX) (new_xid e) (lock_manager_ (sys_tm (en_sys e)));
  rd_log : base + span hist + 13 <= LOG_LIMIT
}.

(** The system when the plan starts to run. *)
Definition started (c : nat) (e : Engine) (l : LogDisk) : System :=
  mkSystem (set_wal l (sys_pool (en_sys e))) (counted_tm (new_xid e) FIRST_CID (Begin (sys_tm (en_sys e))).2) (sys_tables (en_sys e)).

Lemma started_active c e l : scan_active (isolation_level_of c e) (new_xid e) (sys_tm (started c e l)) =
  (Ok (statement_active c e), sys_tm (started c e l)).
Proof.
  unfold statement_active, started, running_xids, new_xid. rewrite Begin_run. cbn [sys_tm snd]. destruct (isolation_level_of c e).
  - unfold scan_active, GetActiveTransactions, gets, counted_tm. cbn. f_equal. f_equal. rewrite !dom_insert_L. set_solver.
  - unfold scan_active, GetSnapshot, GetActiveTransactions. rewrite bind_assoc_run || idtac.
    unfold gets, get, mbind, M_bind, counted_tm. cbn. by rewrite lookup_insert_eq.
  - unfold scan_active, GetActiveTransactions, gets, counted_tm. cbn. f_equal. f_equal. rewrite !dom_insert_L. set_solver.
Qed.

Lemma started_wf c e l : tm_wf (sys_tm (en_sys e)) → new_xid e < NULL_XID → tm_wf (sys_tm (started c e l)).
Proof.
  intros Hwf Hlt. eapply tm_step_wf; [by apply (Begin_wf _ Hwf)|]. eapply (tm_cid _ (new_xid e)).
  unfold GetCidAndIncrement. rewrite get_step, Begin_run. cbn [snd xid2cid_ new_xid]. by rewrite lookup_insert_eq.
Qed.

Lemma started_table_is limit c e oid hist t pages l : ready limit c e oid hist t pages →
  logdisk_ok base (hist ++ [begin_record hist e]) l → dk l = dk (po_wal (sys_pool (en_sys e))) →
  table_is db_of base (statement_context c e) (statement_active c e) oid (hist ++ [begin_record hist e]) t pages (started c e l).
Proof.
  intros [Hs Hlim Hidle [Ht Ho] Hsc Hlk Hlog] Hl Hdk. split; [done|done|..].
  - eapply scannable_log_only; [exact Hsc|done|]. cbn. unfold disk_of. cbn. by rewrite Hdk.
  - apply started_active.
  - exact Hlk.
Qed.

Lemma committed_after limit c e oid hist t pages l hist' t' pages' s' l2 lm2 : ready limit c e oid hist t pages →
  dk l = dk (po_wal (sys_pool (en_sys e))) →
  table_is db_of base (statement_context c e) (statement_active c e) oid hist' t' pages' s' →
  statement_effect db_of (statement_context c e) oid (started c e l) s' →
  let hist2 := hist' ++ [commit_record hist' (new_xid e)] in
  log_inv base hist2 (S (length hist')) l2 → hist_inv hist2 l2 → log_only (disk_of (sys_pool s')) (dk l2) →
  locks_of lm2 (new_xid e) = [] →
  committed oid hist2 t' pages' e
    (with_state (mkSystem (set_wal l2 (sys_pool s')) (ended (new_xid e) lm2 (sys_tm s')) (sys_tables s'))
       (delete c (<[c := new_xid e]> (xids_ e))) ((auto_transaction_set_ e ∪ {[c]}) ∖ {[c]}) e).
Proof.
  intros [Hs Hlim [Hidle Hauto] [Ht Ho] Hsc Hlk Hlog] Hdk Ht' [Htabs Hpages (lm & Htm & _)] hist2 Hi2 Hh2 Honly Hrel.
  pose proof (tm_next_range _ (so_wf _ _ Hs)) as Hrange. pose proof (so_limit _ _ Hs) as Hle. fold (new_xid e) in Hrange, Hle.
  set (e' := with_state _ _ _ e).
  assert (new_xid e ∉ running_xids e) as Hnew by (intros Hx%(tm_bound _ (so_wf _ _ Hs)); unfold new_xid in Hx; lia).
  assert (running_xids e' = running_xids e) as Hrun.
  { unfold running_xids, e'. cbn. rewrite Htm. unfold started. rewrite Begin_run. cbn. rewrite dom_delete_L, !dom_insert_L.
    unfold running_xids, new_xid in *. set_solver. }
  assert (new_xid e' = new_xid e + 1) as Hnext.
  { unfold new_xid at 1, e'. cbn. rewrite Htm. unfold started. rewrite Begin_run. cbn. fold (new_xid e). rewrite u32_small; [done|].
    pose proof NULL_XID_val. unfold FIRST_XID in *. lia. }
  split; [| |exact Hrun|exact Hnext|..]; unfold e'; cbn [with_state xids_ auto_transaction_set_ en_sys sys_tm sys_tables sys_pool].
  - by apply delete_insert_id.
  - set_solver.
  - exact Hrel.
  - apply (ti_table _ _ _ _ _ _ _ _ _ Ht').
  - intros o Hne. by rewrite Htabs.
  - intros k b Hk Hr Hb. rewrite view_log_only by exact Honly. apply Hpages; [done|done|]. cbn [started sys_pool].
    rewrite view_log_only; [done|]. unfold disk_of. cbn. by rewrite Hdk.
  - eapply scannable_log_only; [apply (ti_scan _ _ _ _ _ _ _ _ _ Ht')|by eexists|done].
  - intros r Hr. apply (li_stored _ _ _ _ Hi2). rewrite take_ge; [done|]. unfold hist2. rewrite length_app. simpl. lia.
  - fold e'. intros c'. split; cbn [statement_context context_xid context_level]; rewrite ?Hnext; [lia|..];
      unfold statement_active; rewrite ?Hrun, ?Hnext.
    + destruct (isolation_level_of c' e'); [|done|]; (intros [Hx%elem_of_singleton|Hx]%elem_of_union; [lia|done]).
    + intros ->. intros Hx%(tm_bound _ (so_wf _ _ Hs)). unfold new_xid in Hx. lia.
Qed.

(** What has a plan runs as a query. *)
Lemma query_statement c statement plan0 e : PlanQuery (force_join_ e) statement = Ok plan0 →
  execute_statement fuel c statement e = (begin_auto c ;;
    output ← catch_db (catch_db (run_query fuel c statement) (λ x, abort_auto fuel c ;; throw x)) (λ x, abort_auto fuel c ;; throw x);
    commit_auto c ;; mret output) e.
Proof. destruct statement; by intros Hplan. Qed.

Lemma autocommit_run limit c sql statement plan e oid hist t pages (post : Table → list (list Rec) → list Rec → Prop) :
  ready limit c e oid hist t pages → compiles e sql statement plan →
  let ctx := statement_context c e in
  let hist1 := hist ++ [begin_record hist e] in
  (∀ s, table_is db_of base ctx (statement_active c e) oid hist1 t pages s →
    ∃ hist' t' pages' s' rs, run_plan fuel ctx plan s = (Ok rs, s') ∧
      table_is db_of base ctx (statement_active c e) oid hist' t' pages' s' ∧ statement_effect db_of ctx oid s s' ∧
      hist1 `prefix_of` hist' ∧ log_ready base hist' (new_xid e) 13 ∧ post t' pages' rs) →
  ∃ e' hist' t' pages' rs, ExecuteSql fuel c sql e = (Ok [Records (column_names (OutputColumns plan)) rs], e') ∧
    hist1 `prefix_of` hist' ∧ committed oid (hist' ++ [commit_record hist' (new_xid e)]) t' pages' e e' ∧ post t' pages' rs.
Proof.
  intros Hready [Htext (node & binder & Hparse & Hbind) (plan0 & Hplan & Hopt)] ctx hist1 Hrun.
  pose proof Hready as [Hs Hlim [Hidle Hauto] [Ht Ho] Hsc Hlk Hlog]. pose proof (so_wf _ _ Hs) as Hwf.
  pose proof (tm_next_range _ Hwf) as Hrange. pose proof (so_limit _ _ Hs) as Hle. fold (new_xid e) in Hrange, Hle.
  assert (0 <= new_xid e < 2 ^ 32) as Hx by (pose proof NULL_XID_val; unfold FIRST_XID in *; lia).
  assert (new_xid e ∉ running_xids e) as Hnew by (intros Hin%(tm_bound _ Hwf); unfold new_xid in Hin; lia).
  destruct (begin_auto_run c e hist Hidle Hnew (so_att _ _ Hs) Hx Hlog (pi_wal _ _ _ (sc_inv _ _ _ _ _ _ Hsc))) as (l & Hl & Hdk & Hbegin).
  destruct (Hrun _ (started_table_is limit c e oid hist t pages l Hready Hl Hdk)) as (hist' & t' & pages' & s' & rs & Hr & Ht' & He & Hh & Hroom & Hpost).
  pose proof (se_locks _ _ _ _ _ He) as (lm & Htm & _).
  assert (new_xid e ∈ dom (xid2cid_ (sys_tm s'))) as Hact.
  { rewrite Htm. unfold started. rewrite Begin_run. cbn. rewrite dom_insert_L. set_solver. }
  assert (tm_wf (sys_tm s')) as Hwf' by (rewrite Htm; apply tm_wf_locks, started_wf; [done|lia]).
  destruct (commit_auto_run c e s' (<[c := new_xid e]> (xids_ e)) (auto_transaction_set_ e ∪ {[c]}) (new_xid e) hist'
    (lookup_insert_eq _ _ _) ltac:(set_solver) Hwf' Hact Hroom (pi_wal _ _ _ (sc_inv _ _ _ _ _ _ (ti_scan _ _ _ _ _ _ _ _ _ Ht'))))
    as (l2 & lm2 & Hi2 & Hh2 & Honly & Hrel & Hcommit).
  eexists _, hist', t', pages', rs. split; [|split; [exact Hh|split; [by eapply committed_after|exact Hpost]]].
  unfold ExecuteSql. rewrite decide_False by done. rewrite (lift_step _ _ _ _ Hparse). cbn [execute_nodes].
  assert (execute_statement fuel c statement e = (Ok (Records (column_names (OutputColumns plan)) rs),
    with_state (mkSystem (set_wal l2 (sys_pool s')) (ended (new_xid e) lm2 (sys_tm s')) (sys_tables s'))
       (delete c (<[c := new_xid e]> (xids_ e))) ((auto_transaction_set_ e ∪ {[c]}) ∖ {[c]}) e)) as Hnode.
  2: { unfold with_binder, bind_node, zoom, mbind, M_bind. rewrite Hbind. cbn [snd fst]. by rewrite Hnode. }
  rewrite (query_statement c statement plan0 e Hplan).
  rewrite (M_bind_step _ _ _ _ _ Hbegin).
  set (e1 := with_state _ _ _ e).
  assert (run_query fuel c statement e1 = (Ok (Records (column_names (OutputColumns plan)) rs),
    with_state s' (<[c := new_xid e]> (xids_ e)) (auto_transaction_set_ e ∪ {[c]}) e)) as Hq.
  { eapply run_query_run; [apply lookup_insert_eq| |exact Hplan|exact Hopt|exact Hr]. rewrite Begin_run. apply lookup_insert_eq. }
  assert (∀ h, catch_db (run_query fuel c statement) h e1 = run_query fuel c statement e1) as Hcatch by (intros; unfold catch_db; by rewrite Hq).
  assert (catch_db (catch_db (run_query fuel c statement) (λ x, abort_auto fuel c ;; throw x)) (λ x, abort_auto fuel c ;; throw x) e1 = _) as Hd
    by (unfold catch_db at 1; rewrite Hcatch, Hq; reflexivity).
  rewrite (M_bind_step _ _ _ _ _ Hd). by rewrite (M_bind_step _ _ _ _ _ Hcommit).
Qed.
End Steps.

(** ** Properties *)

Section Properties.
Context `{MapOrder} `{Allocator} `{Ecma} `{StdSort} `{FrontEnd} `{Fmt}.
Context (db_of : Z → Z) (base : Z) (fuel : nat).

Lemma statement_context_ok limit c e oid hist t pages : ready db_of base limit c e oid hist t pages →
  context_ok (statement_context c e) (statement_active c e).
Proof.
  intros [Hs Hlim _ _ _ _ _]. pose proof (tm_next_range _ (so_wf _ _ Hs)) as Hr. pose proof (so_limit _ _ Hs) as Hl.
  fold (new_xid e) in Hr, Hl. unfold FIRST_XID in Hr. split; cbn; [lia|done|].
  unfold statement_active. intros ->. intros Hx%(tm_bound _ (so_wf _ _ Hs)). unfold new_xid in Hx. lia.
Qed.

Lemma begin_prefix hist hist' e x : (hist ++ [begin_record base hist e]) `prefix_of` hist' → hist `prefix_of` (hist' ++ [x]).
Proof. intros [k ->]. rewrite <- !app_assoc. by apply prefix_app_r. Qed.

(** C3: an INSERT outside a transaction block, from the text to the disk, whose
    plan is the one the binder and the planner make. The engine answers with the number of rows, the connection is outside a
    transaction again and every other transaction untouched; the table has exactly
    one version more for each row, all log records up to the commit record are on
    the disk, and every transaction that begins later sees the rows, at every
    isolation level. *)
Theorem insert_commits limit c sql statement e oid hist t pages cl p columns tabs rows news :
  ready db_of base limit c e oid hist t pages →
  compiles e sql statement (InsertOperator cl p columns oid) →
  let ctx := statement_context c e in
  is_constant p = true → plan_rows ctx (statement_active c e) tabs p = rows_of rows →
  Forall2 (insertable t (mkInsertPlan oid columns)) rows news →
  (length rows < fuel)%nat → (1 < fuel)%nat →
  insert_room base fuel ctx 13 (length rows) (hist ++ [begin_record base hist e]) pages →
  ∃ e' hist' t' pages' placed r, ExecuteSql fuel c sql e = (Ok [Records (column_names cl) [r]], e') ∧
    GetValues r = [Value_uint (Z.of_nat (length rows))] ∧
    hist `prefix_of` hist' ∧ committed db_of base oid hist' t' pages' e e' ∧
    entries 0 pages' ≡ₚ entries 0 pages ++ placed ∧ Forall2 (added ctx) news placed ∧
    ∀ ctx' active', later (new_xid e) ctx' active' →
      visible_entries ctx' active' pages' ≡ₚ visible_entries ctx' active' pages ++ placed.
Proof.
  intros Hready Hcomp ctx Hconst Hrows Hall Hf Hf1 Hroom. pose proof (statement_context_ok _ _ _ _ _ _ _ Hready) as Hctx.
  assert (Z.of_nat (length rows) < 2 ^ 32) as Hn by (destruct Hroom as [_ _ Hnum]; pose proof NULL_PAGE_ID_val; lia).
  destruct (autocommit_run db_of base fuel limit c sql statement _ e oid hist t pages (λ t' pages' rs, ∃ r placed, rs = [r] ∧
      GetValues r = [Value_uint (counted 0 (length rows))] ∧ entries 0 pages' ≡ₚ entries 0 pages ++ placed ∧
      Forall2 (added ctx) news placed) Hready Hcomp) as (e' & hist' & t' & pages' & rs & Hrun & Hh & Hcm & r & placed & -> & Hr & Hent & Hpl).
  { intros s Ht. destruct (insert_plan_run db_of base fuel ctx _ oid Hctx cl p columns tabs rows news 13 _ t pages s ltac:(lia) Ht Hconst Hrows Hall Hf Hf1 Hroom)
      as (h & t' & pages' & placed & s' & r & ? & ? & ? & ? & ? & ? & ? & ?). exists h, t', pages', s', [r]. split_and!; try done. by exists r, placed. }
  exists e', (hist' ++ [commit_record base hist' (new_xid e)]), t', pages', placed, r. rewrite <- (counted_small (length rows) Hn). split_and!; try done; [by eapply begin_prefix|].
  intros ctx' active' Hl. unfold visible_entries. rewrite Hent, filter_app.
  by rewrite (later_sees_placed _ _ _ _ _ (proj1 (co_xid _ _ Hctx)) Hl (added_stamped ctx t _ rows news placed Hall Hpl)).
Qed.

(** C4: a DELETE outside a transaction block, from the text to the disk: the
    engine answers with the number of rows that were visible and kept by the
    filter, these are marked deleted and nothing else changes, all log records up
    to the commit record are on the disk, and every transaction that begins later
    sees the table without these rows. *)
Theorem delete_commits limit c sql statement e oid hist t pages cl p :
  ready db_of base limit c e oid hist t pages → compiles e sql statement (DeleteOperator cl p oid) →
  let ctx := statement_context c e in
  let rows := touched_rows ctx (statement_active c e) pages p in
  scans ctx (statement_active c e) oid pages p →
  (length (entries 0 pages) < fuel)%nat → (1 < fuel)%nat → Z.of_nat (length rows) < 2 ^ 32 →
  log_ready base (hist ++ [begin_record base hist e]) (new_xid e) (23 * Z.of_nat (length rows) + 13) →
  ∃ e' hist' pages' r, ExecuteSql fuel c sql e = (Ok [Records (column_names cl) [r]], e') ∧
    GetValues r = [Value_uint (Z.of_nat (length rows))] ∧
    hist `prefix_of` hist' ∧ committed db_of base oid hist' t pages' e e' ∧
    entries 0 pages' = mark ctx rows.*1 (entries 0 pages) ∧
    ∀ ctx' active', later (new_xid e) ctx' active' →
      visible_entries ctx' active' pages' = filter (λ x, x.1 ∉ rows.*1) (visible_entries ctx' active' pages).
Proof.
  intros Hready Hcomp ctx rows Hp Hf Hf1 Hn Hroom. pose proof (statement_context_ok _ _ _ _ _ _ _ Hready) as Hctx.
  destruct (autocommit_run db_of base fuel limit c sql statement _ e oid hist t pages (λ t' pages' rs, ∃ r, rs = [r] ∧ t' = t ∧
      GetValues r = [Value_uint (counted 0 (length rows))] ∧ entries 0 pages' = mark ctx rows.*1 (entries 0 pages)) Hready Hcomp)
    as (e' & hist' & t' & pages' & rs & Hrun & Hh & Hcm & r & -> & -> & Hr & Hent).
  { intros s Ht. destruct (delete_plan_run db_of base fuel ctx _ oid Hctx cl p 13 _ t pages s ltac:(lia) Ht Hp Hf Hf1 Hroom)
      as (h & pages' & s' & r & ? & ? & ? & ? & ? & ? & ?). exists h, t, pages', s', [r]. split_and!; try done. by exists r. }
  exists e', (hist' ++ [commit_record base hist' (new_xid e)]), pages', r. rewrite <- (counted_small (length rows) Hn). split_and!; try done; [by eapply begin_prefix|].
  intros ctx' active' Hl. unfold visible_entries. rewrite Hent. apply filter_mark. intros. by apply later_misses_deleted.
Qed.

(** C5: an UPDATE outside a transaction block, from the text to the disk: the
    engine answers with the number of rows that were visible and kept by the
    filter, each of them is replaced by exactly one version with the computed
    values, all log records up to the commit record are on the disk, and every
    transaction that begins later sees the new versions for the old ones. *)
Theorem update_commits limit c sql statement e oid hist t pages cl p exprs :
  ready db_of base limit c e oid hist t pages → compiles e sql statement (UpdateOperator cl p oid exprs) →
  let ctx := statement_context c e in
  let rows := touched_rows ctx (statement_active c e) pages p in
  scans ctx (statement_active c e) oid pages p → (1 < fuel)%nat →
  update_room base fuel fuel ctx (hist ++ [begin_record base hist e]) pages rows 13 → Forall (updatable exprs t) rows →
  ∃ e' hist' t' pages' placed r, ExecuteSql fuel c sql e = (Ok [Records (column_names cl) [r]], e') ∧
    GetValues r = [Value_uint (Z.of_nat (length rows))] ∧
    hist `prefix_of` hist' ∧ committed db_of base oid hist' t' pages' e e' ∧
    entries 0 pages' ≡ₚ mark ctx rows.*1 (entries 0 pages) ++ placed ∧ Forall2 (replaces ctx exprs) rows placed ∧
    ∀ ctx' active', later (new_xid e) ctx' active' →
      visible_entries ctx' active' pages' ≡ₚ filter (λ x, x.1 ∉ rows.*1) (visible_entries ctx' active' pages) ++ placed.
Proof.
  intros Hready Hcomp ctx rows Hp Hf1 Hroom Hup. pose proof (statement_context_ok _ _ _ _ _ _ _ Hready) as Hctx.
  assert (Z.of_nat (length rows) < 2 ^ 32) as Hn by (destruct Hroom as [_ _ _ Hnum]; pose proof NULL_PAGE_ID_val; lia).
  destruct (autocommit_run db_of base fuel limit c sql statement _ e oid hist t pages (λ t' pages' rs, ∃ r placed, rs = [r] ∧
      GetValues r = [Value_uint (counted 0 (length rows))] ∧ entries 0 pages' ≡ₚ mark ctx rows.*1 (entries 0 pages) ++ placed ∧
      Forall2 (replaces ctx exprs) rows placed) Hready Hcomp) as (e' & hist' & t' & pages' & rs & Hrun & Hh & Hcm & r & placed & -> & Hr & Hent & Hpl).
  { intros s Ht. destruct (update_plan_run db_of base fuel ctx _ oid Hctx cl p exprs 13 _ t pages s ltac:(lia) Ht Hp Hf1 Hroom Hup)
      as (h & t' & pages' & placed & s' & r & ? & ? & ? & ? & ? & ? & ? & ?). exists h, t', pages', s', [r]. split_and!; try done. by exists r, placed. }
  exists e', (hist' ++ [commit_record base hist' (new_xid e)]), t', pages', placed, r. rewrite <- (counted_small (length rows) Hn). split_and!; try done; [by eapply begin_prefix|].
  intros ctx' active' Hl. unfold visible_entries. rewrite Hent, filter_app.
  rewrite (later_sees_placed _ _ _ _ _ (proj1 (co_xid _ _ Hctx)) Hl (replaces_stamped ctx exprs rows placed Hpl)).
  apply reflexive_eq. f_equal. apply filter_mark. intros. by apply later_misses_deleted.
Qed.
End Properties.

(** *** Concrete statements *)

(** Connection 2 is in a block with transaction 5, connection 1 sends a statement;
    the table has one version, of the ended transaction 3. *)
Definition ex_old : Rec := stamp ex_record 3 1.
Lemma ex_table_old : ∃ w, scannable ex_db_of 0 ex_hist (with_first 0 ex_table) [[ex_old]] w.
Proof.
  destruct ex_table_start as [w Hs]. destruct ex_record_wf as [Hr Hsch].
  destruct (InsertRecord_versions ex_db_of 0 1 ex_hist ex_table [] w ex_record 3 1 false Hs Hr Hsch)
    as (w' & _ & Hs' & _); [done..|simpl; lia|done|done|]. by exists w'.
Qed.

Definition ex_old_engine (w : Pool LogDisk) : @Engine ex_front_end := ex_engine (with_first 0 ex_table) w.
Lemma ex_ready w : scannable ex_db_of 0 ex_hist (with_first 0 ex_table) [[ex_old]] w →
  ready (H3 := ex_front_end) ex_db_of 0 6 1 (ex_old_engine w) 10001 ex_hist (with_first 0 ex_table) [[ex_old]].
Proof.
  intros Hs. split; try done.
  - by eapply ex_session.
  - apply no_locks_allow.
Qed.

(** The statements the binder makes of the parse trees, and the plans of the
    planner, which the optimizer leaves. *)
Definition ex_t : BaseTableRef := mkBaseTable "t" None 10001 ex_schema.
Definition ex_filter : Expression := BinaryOpExpression "<" (ColumnRefExpression ["t"; "a"]) (ConstExpression (Value_int 0)).
Definition ex_numbers : list Expression := (λ name, ColumnRefExpression [name]) <$> ["#1"; "#2"; "#3"; "#4"].
Definition ex_insert_statement : Statement :=
  InsertStatement ex_t [] (mk_SelectStatement (ExpressionListRef [[ConstExpression (Value_int (-7)); ConstExpression Value_null;
    ConstExpression (Value_string "ab" VARCHAR); TypeCastExpression BOOL (ConstExpression (Value_string "t" VARCHAR))]]) ex_numbers).
Definition ex_delete_statement : Statement := DeleteStatement ex_t ex_filter.
Definition ex_update_statement : Statement :=
  UpdateStatement ex_t ex_filter [(Some ["t"; "c"], ConstExpression (Value_string "ab" VARCHAR))].

Definition ex_numbered : ColumnList :=
  mk_ColumnList [mkColumn "#1" INT 4; mkColumn "#2" NULL_TYPE 0; mkColumn "#3" VARCHAR 2; mkColumn "#4" BOOL 1].
Definition ex_supply : Operator :=
  ProjectionOperator ex_numbered
    (ValuesOperator ex_numbered [[Const (Value_int (-7)); Const Value_null; Const (Value_string "ab" VARCHAR);
       TypeCast BOOL (Const (Value_string "t" VARCHAR))]])
    [ColumnValue 0 INT "#1" 4 true; ColumnValue 1 NULL_TYPE "#2" 0 true; ColumnValue 2 VARCHAR "#3" 2 true; ColumnValue 3 BOOL "#4" 1 true].
Definition ex_t_columns : ColumnList := GetColumnList ex_t.
Definition ex_t_where : Operator :=
  FilterOperator ex_t_columns (SeqScanOperator ex_t_columns 10001 "t" None false) (Comparison LESS ex_col_a (Const (Value_int 0))).
Definition ex_sets : list OperatorExpression :=
  [ex_col_a; ColumnValue 1 DOUBLE "t.b" 8 true; Const (Value_string "ab" VARCHAR); ColumnValue 3 BOOL "t.d" 1 true].

#[local] Notation ex_compiles := (compiles (H3 := ex_front_end) (H4 := ex_fmt)).
Lemma ex_compiles_insert w : ex_compiles (ex_old_engine w) "insert" ex_insert_statement
  (InsertOperator (one_int "insert") ex_supply ex_schema 10001).
Proof. split; [done|by do 2 eexists|]. eexists. split; [reflexivity|]. split; [done|by vm_compute]. Qed.
Lemma ex_compiles_delete w : ex_compiles (ex_old_engine w) "delete" ex_delete_statement
  (DeleteOperator (one_int "delete") ex_t_where 10001).
Proof. split; [done|by do 2 eexists|]. eexists. split; [reflexivity|]. split; [done|by vm_compute]. Qed.
Lemma ex_compiles_update w : ex_compiles (ex_old_engine w) "update" ex_update_statement
  (UpdateOperator (one_int "update") ex_t_where 10001 ex_sets).
Proof. split; [done|by do 2 eexists|]. eexists. split; [reflexivity|]. split; [done|by vm_compute]. Qed.

Lemma ex_supply_rows `{Ecma} `{StdSort} ctx active tabs : plan_rows ctx active tabs ex_supply = rows_of [ex_record].
Proof. transitivity (rows_of (match mk_Record ex_values (mkRid 0 0) with Ok r => [r] | _ => [] end)); [by vm_compute|by rewrite ex_mk_record]. Qed.
Lemma ex_old_touched : touched_rows (mkContext 6 READ_COMMITTED 1) {[6; 5]} [[ex_old]] ex_t_where = [(mkRid 0 0, ex_old)].
Proof. by vm_compute. Qed.
#[local] Notation ExecuteSql := (ExecuteSql (H2 := insertion_sort) (H3 := ex_front_end) (H4 := ex_fmt)).

Lemma insert_commits_witness : ∃ w e' r pages',
  ExecuteSql 4 1 "insert" (ex_old_engine w) = (Ok [Records ["insert"] [r]], e') ∧
  GetValues r = [Value_uint 1] ∧
  ∃ hist' t' rid, committed (H3 := ex_front_end) ex_db_of 0 10001 hist' t' pages' (ex_old_engine w) e' ∧
    entries 0 pages' ≡ₚ [(mkRid 0 0, ex_old); (rid, stamp ex_record 6 1)].
Proof.
  destruct ex_table_old as [w Hs]. exists w.
  destruct (insert_commits (H2 := insertion_sort) (H3 := ex_front_end) (H4 := ex_fmt) ex_db_of 0 4 6 1 "insert" ex_insert_statement
    (ex_old_engine w) 10001 ex_hist (with_first 0 ex_table) [[ex_old]] (one_int "insert") ex_supply ex_schema ∅ [ex_record] [ex_record]
    (ex_ready w Hs) (ex_compiles_insert w) eq_refl (ex_supply_rows (H0 := insertion_sort) _ _ _)) as (e' & hist' & t' & pages' & placed & r & G1 & G2 & _ & G3 & G4 & G5 & _).
  - constructor; [exact ex_insertable|constructor].
  - simpl; lia.
  - lia.
  - split; [split; [by eexists|by vm_compute]|simpl; lia|done].
  - inversion G5 as [|? [rid v] ? ? Hv Hnil Heq1 Heq2]. inversion Hnil. subst. unfold added in Hv. simpl in Hv. subst v.
    exists e', r, pages'. split; [exact G1|]. split; [exact G2|]. exists hist', t', rid. split; [exact G3|exact G4].
Defined.

Lemma delete_commits_witness : ∃ w e' r pages',
  ExecuteSql 2 1 "delete" (ex_old_engine w) = (Ok [Records ["delete"] [r]], e') ∧
  GetValues r = [Value_uint 1] ∧ entries 0 pages' = [(mkRid 0 0, delete_version 6 ex_old)].
Proof.
  destruct ex_table_old as [w Hs]. exists w.
  destruct (delete_commits (H2 := insertion_sort) (H3 := ex_front_end) (H4 := ex_fmt) ex_db_of 0 2 6 1 "delete" ex_delete_statement
    (ex_old_engine w) 10001 ex_hist (with_first 0 ex_table) [[ex_old]] (one_int "delete") ex_t_where
    (ex_ready w Hs) (ex_compiles_delete w)) as (e' & hist' & pages' & r & G1 & G2 & _ & _ & G3 & _).
  - split; [done|]. constructor; [|constructor]. exists true. by vm_compute.
  - simpl; lia.
  - lia.
  - by vm_compute.
  - split; [by eexists|by vm_compute].
  - exists e', r, pages'. split; [exact G1|]. split; [|rewrite G3; by vm_compute].
    rewrite G2. by vm_compute.
Defined.

Lemma update_commits_witness : ∃ w e' r pages',
  ExecuteSql 4 1 "update" (ex_old_engine w) = (Ok [Records ["update"] [r]], e') ∧
  GetValues r = [Value_uint 1] ∧
  ∃ rid, entries 0 pages' ≡ₚ [(mkRid 0 0, delete_version 6 ex_old); (rid, stamp ex_record 6 1)].
Proof.
  destruct ex_table_old as [w Hs]. exists w.
  destruct (update_commits (H2 := insertion_sort) (H3 := ex_front_end) (H4 := ex_fmt) ex_db_of 0 4 6 1 "update" ex_update_statement
    (ex_old_engine w) 10001 ex_hist (with_first 0 ex_table) [[ex_old]] (one_int "update") ex_t_where ex_sets
    (ex_ready w Hs) (ex_compiles_update w)) as (e' & hist' & t' & pages' & placed & r & G1 & G2 & _ & _ & G3 & G4 & _).
  - split; [done|]. constructor; [|constructor]. exists true. by vm_compute.
  - lia.
  - change (touched_rows _ _ _ _) with (touched_rows (mkContext 6 READ_COMMITTED 1) {[6; 5]} [[ex_old]] ex_t_where).
    rewrite ex_old_touched. split; [split; [by eexists|by vm_compute]|simpl; lia|simpl; lia|done].
  - change (Forall (updatable ex_sets (with_first 0 ex_table)) (touched_rows (mkContext 6 READ_COMMITTED 1) {[6; 5]} [[ex_old]] ex_t_where)).
    rewrite ex_old_touched. constructor; [|constructor]. exists ex_record. destruct ex_record_wf.
    split_and!; [transitivity (mk_Record ex_values (mkRid 0 0)); [by vm_compute|exact ex_mk_record]|done..].
  - change (touched_rows _ _ _ _) with (touched_rows (mkContext 6 READ_COMMITTED 1) {[6; 5]} [[ex_old]] ex_t_where) in G2, G3, G4.
    rewrite ex_old_touched in G2, G3, G4. inversion G4 as [|? [rid v] ? ? (new & Hnew & Hv) Hnil Heq1 Heq2]. inversion Hnil. subst.
    assert (updated_record ex_sets (read_version (mkRid 0 0) ex_old) = Ok ex_record) as Hupd by (transitivity (mk_Record ex_values (mkRid 0 0)); [by vm_compute|exact ex_mk_record]).
    cbn [fst snd] in Hnew. rewrite Hupd in Hnew. injection Hnew as <-. simpl in Hv. subst v. exists e', r, pages'. split; [exact G1|]. split; [exact G2|].
    exists rid. rewrite G3. apply reflexive_eq. by vm_compute.
Defined.
