(* ===== verification/Boot.v ===== *)
(** The engine over its catalog: [system_catalog.cpp] behind the interface of
    [Engine.v], and the constructor, [CloseDatabase] and the destructor of
    [src/src/database/database_engine.cpp]. *)
From Stdlib Require Import Ascii.
From S2P Require Import Prelude Memory Types StringUtil Disk Value Bitmap Column Record TablePage Lru LogRecord LogManager BufferPool Storage LockManager TransactionManager Visibility Table TableScan Recovery Like Expressions Executor Pipeline OrderBy Join OidManager Schema Query SystemCatalog Select Plan Texts NodeTags Bound Binder Planner Optimizer Dml Statements Frames Engine Session.

(** ** The catalog of the engine *)

Section Catalog.
Context `{MapOrder} `{Allocator} `{OidOrder} (fuel : nat) (parse : string → res (list PGNode)).

Definition system_ops (c : SystemCatalog) (tables : gmap Z Table) : CatalogOps := {|
  Recovery.TableExists := λ oid, mret (SystemCatalog.TableExists c oid);
  Recovery.GetDatabaseOid := SystemCatalog.GetDatabaseOid fuel c tables
|}.
Definition system_front_end : FrontEnd := {|
  fe_catalog := SystemCatalog; fe_ops := system_ops; Parse := parse;
  fe_statistics := {|
    Optimizer.GetTableNames := SystemCatalog.GetTableNames fuel;
    Optimizer.GetTableColumnList := SystemCatalog.GetTableColumnList;
    Optimizer.GetCardinality := λ σ, SystemCatalog.GetCardinality σ.1;
    Optimizer.GetDistinct := λ σ, SystemCatalog.GetDistinct σ.1 |};
  Engine.GetTableOid := SystemCatalog.GetTableOid;
  Engine.SetCardinality := SystemCatalog.SetCardinality fuel;
  Engine.SetDistinct := SystemCatalog.SetDistinct fuel;
  Engine.GetDatabaseNames := SystemCatalog.GetDatabaseNames fuel;
  Engine.CreateDatabase := λ name ok, SystemCatalog.CreateDatabase fuel name ok INVALID_OID;
  Engine.ChangeDatabase := SystemCatalog.ChangeDatabase fuel;
  Engine.DropDatabase := SystemCatalog.DropDatabase fuel;
  Engine.CreateTable := λ name cl, SystemCatalog.CreateTable fuel name cl INVALID_OID INVALID_OID true;
  Engine.DropTable := SystemCatalog.DropTable fuel
|}.

(** *** The catalog leaves the transactions alone *)

Section Frames.
Context (D : gset Z) (tm : TransactionManager).
Abbreviation keeps := (preserves (exec_frame (E := SystemCatalog) D tm)).

Lemma keeps_cat {A} (m : M SystemCatalog A) : keeps (on_cat m).
Proof. by eapply preserves_zoom; [| |apply preserves_True]. Qed.
Lemma keeps_system {A} (m : M System A) : preserves (tx_frame D tm) m → keeps (on_system_ m).
Proof. by apply preserves_zoom. Qed.
Lemma keeps_pool {A} (m : M (Pool LogDisk) A) : preserves (pool_att D) m → preserves (tx_frame D tm) (on_pool_ m).
Proof.
  intros Hm. eapply (preserves_zoom _ _ _ (pool_att D)); [by intros s []| |done].
  intros s w [_ Ht] Hw. by split.
Qed.
Lemma keeps_tables f : keeps (on_system_ (modify (λ s, mkSystem (sys_pool s) (sys_tm s) (f s)))).
Proof. apply keeps_system, preserves_modify. by intros s []. Qed.
Lemma keeps_fs f : keeps (on_fs f).
Proof. apply keeps_system, keeps_pool, frame_on_disk. Qed.

Lemma keeps_next_record t rid : preserves (pool_att D) (next_record fuel t rid).
Proof.
  intros w Hw. unfold next_record. pose proof (frame_GetNextRecord D fuel NULL_XID DEFAULT_ISOLATION_LEVEL NULL_CID ∅ (mkScan rid t w) Hw) as Hn.
  by destruct (GetNextRecord _ _ _ _ _ _) as [r s].
Qed.
Lemma keeps_while {S A} (I : S → Prop) (next : Rid → M S (option Rec * Rid)) (body : Rec → A → M S (bool * A)) calls :
  (∀ rid, preserves I (next rid)) → (∀ r a, preserves I (body r a)) → ∀ rid a, preserves I (while_records next body calls rid a).
Proof. intros Hn Hb. induction calls as [|calls IH]; intros rid a; cbn [while_records]; frame. Qed.
Lemma keeps_for {A} oid (body : Rec → A → M (SystemCatalog * System) (bool * A)) a :
  (∀ r a, keeps (body r a)) → keeps (for_records fuel oid body a).
Proof.
  intros Hb. unfold for_records. apply preserves_get_bind. intros σ _. apply preserves_bind; [apply preserves_lift|]. intros t.
  apply keeps_while; [|done]. intros rid. apply keeps_system, keeps_pool, keeps_next_record.
Qed.
Lemma keeps_object {A} oid (m : M TableState A) : preserves (table_att D) m → keeps (on_system_ (on_table_obj oid m)).
Proof. intros Hm. by apply keeps_system, frame_on_table_obj. Qed.
#[local] Hint Resolve frame_on_pool frame_on_page frame_GetPage keeps_cat keeps_tables keeps_fs keeps_for frame_Table_InsertRecord frame_Table_DeleteRecord : frame.

Lemma keeps_insert oid values : keeps (insert_values fuel oid values).
Proof. unfold insert_values. frame. apply keeps_object, frame_Table_InsertRecord. Qed.
Lemma keeps_delete oid r : keeps (delete_from oid r).
Proof. apply keeps_object, frame_Table_DeleteRecord. Qed.
Lemma keeps_update oid schema name n r : keeps (update_uint oid schema name n r).
Proof.
  unfold update_uint. apply preserves_bind; [apply preserves_lift|]. intros r'. apply keeps_object. unfold Table_UpdateRecordInPlace.
  frame.
Qed.
#[local] Hint Resolve keeps_insert keeps_delete keeps_update : frame.

Lemma keeps_CreateDirectory path : keeps (CreateDirectory path).
Proof. unfold CreateDirectory. frame. Qed.
Lemma keeps_RemoveDirectory path : keeps (RemoveDirectory path).
Proof. unfold RemoveDirectory. frame. Qed.
Lemma keeps_CheckUsingDatabase : keeps CheckUsingDatabase.
Proof. unfold CheckUsingDatabase. frame. Qed.
Lemma keeps_load_table oid db cl new path : keeps (load_table oid db cl new path).
Proof. unfold load_table. frame. Qed.
Lemma keeps_GetDatabaseOid c tables oid : preserves (pool_att D) (SystemCatalog.GetDatabaseOid fuel c tables oid).
Proof.
  unfold SystemCatalog.GetDatabaseOid. destruct (bool_decide _); [apply preserves_ret|]. apply preserves_bind; [apply preserves_lift|]. intros t.
  apply preserves_bind; [|intros; frame]. apply keeps_while; [apply keeps_next_record|intros; frame].
Qed.
#[local] Hint Resolve keeps_CreateDirectory keeps_RemoveDirectory keeps_CheckUsingDatabase keeps_load_table : frame.

Lemma keeps_CreateTable name cl oid db new : keeps (SystemCatalog.CreateTable fuel name cl oid db new).
Proof. unfold SystemCatalog.CreateTable, create_table_file, on_oids. frame. Qed.
#[local] Ltac loops := frame; repeat (apply keeps_for; intros; frame).
Lemma keeps_DropTable name : keeps (SystemCatalog.DropTable fuel name).
Proof. unfold SystemCatalog.DropTable, on_oids. loops. Qed.
Lemma keeps_GetTableNames : keeps (SystemCatalog.GetTableNames fuel).
Proof. unfold SystemCatalog.GetTableNames. loops. Qed.
Lemma keeps_GetDatabaseNames : keeps (SystemCatalog.GetDatabaseNames fuel).
Proof. unfold SystemCatalog.GetDatabaseNames. loops. Qed.
Lemma keeps_SetCardinality name n : keeps (SystemCatalog.SetCardinality fuel name n).
Proof. unfold SystemCatalog.SetCardinality. loops. Qed.
Lemma keeps_SetDistinct name column n : keeps (SystemCatalog.SetDistinct fuel name column n).
Proof. unfold SystemCatalog.SetDistinct, set_distinct. loops. Qed.
Lemma keeps_LoadTableMeta : keeps (LoadTableMeta fuel).
Proof.
  unfold LoadTableMeta, load_table_meta, on_oids. loops. by apply keeps_system, keeps_pool, keeps_GetDatabaseOid.
Qed.
Lemma keeps_LoadStatistics : keeps (LoadStatistics fuel).
Proof. unfold LoadStatistics, set_distinct. loops. Qed.
#[local] Hint Resolve keeps_LoadTableMeta keeps_LoadStatistics : frame.

Lemma keeps_flush_frames flush n : ∀ i, (∀ i, preserves (pool_att D) (flush i)) → preserves (pool_att D) (flush_frames flush n i).
Proof. induction n as [|n IH]; intros i Hf; cbn [flush_frames]; frame. Qed.
Lemma keeps_BufferPool_Flush : preserves (pool_att D) (BufferPool_Flush true).
Proof.
  unfold BufferPool_Flush. pose proof keeps_flush_frames. pose proof (frame_FlushPage D). frame; by apply frame_on_bp.
Qed.
Lemma keeps_unload oids : keeps (unload oids).
Proof. induction oids as [|oid oids IH]; cbn [unload]; unfold on_oids; frame. Qed.
Lemma keeps_ExitDatabase : keeps ExitDatabase.
Proof. unfold ExitDatabase. pose proof keeps_unload. frame. by apply keeps_system, keeps_pool, keeps_BufferPool_Flush. Qed.
#[local] Hint Resolve keeps_ExitDatabase : frame.
Lemma keeps_ChangeDatabase name : keeps (SystemCatalog.ChangeDatabase fuel name).
Proof. unfold SystemCatalog.ChangeDatabase. frame. Qed.
Lemma keeps_CreateDatabase name ok oid : keeps (SystemCatalog.CreateDatabase fuel name ok oid).
Proof. unfold SystemCatalog.CreateDatabase, on_oids. frame. Qed.
Lemma keeps_DropDatabase name ok : keeps (SystemCatalog.DropDatabase fuel name ok).
Proof. unfold SystemCatalog.DropDatabase, on_oids. loops. Qed.
End Frames.

(** What [Engine.v] asks of a catalog. *)
Lemma system_front_end_spec : FrontEndSpec (H := system_front_end).
Proof.
  split; intros; cbn [Engine.SetCardinality Engine.SetDistinct Engine.GetDatabaseNames Engine.CreateDatabase Engine.ChangeDatabase
      Engine.DropDatabase Engine.CreateTable Engine.DropTable Optimizer.GetTableNames fe_ops fe_statistics system_front_end system_ops
      Recovery.TableExists Recovery.GetDatabaseOid].
  - apply preserves_ret.
  - apply keeps_GetDatabaseOid.
  - apply keeps_GetTableNames.
  - apply keeps_SetCardinality.
  - apply keeps_SetDistinct.
  - apply keeps_GetDatabaseNames.
  - apply keeps_CreateDatabase.
  - apply keeps_ChangeDatabase.
  - apply keeps_DropDatabase.
  - apply keeps_CreateTable.
  - apply keeps_DropTable.
Qed.
End Catalog.

(** ** Opening and closing *)

(** What the control file holds: the next transaction id, LSN and object id, and
    whether the database was closed; [operator<<] prints a bool as a digit. *)
Definition control_text (xid lsn oid : Z) (normal_shutdown : bool) : string :=
  pretty xid +:+ " " +:+ pretty lsn +:+ " " +:+ pretty oid +:+ " " +:+ (if normal_shutdown then "1" else "0").
Definition write_text (path text : string) (fs : Fs) : Fs := WriteFile path (String.list_byte_of_string text) fs.

Definition uninitialised (x : option Z) : res Z := from_option Ok (Err (Undefined "uninitialised variable")) x.
(** [in >> xid >> lsn >> oid >> normal_shutdown]. When the text for a variable is not a
    number, [read_uint] stores 0 in that variable and fails the stream; a stream that
    has failed, or whose text is used up, leaves a variable as it was: [oid] and
    [normal_shutdown] have initial values, [xid] and [lsn] have not. *)
Definition read_control (text : string) : res (Z * Z * Z * bool) :=
  let '(xid, in_) := read_uint 32 (Some text) in
  let '(lsn, in_) := read_uint 64 in_ in
  let '(oid, in_) := read_uint 32 in_ in
  let '(normal_shutdown, _) := read_uint 63 in_ in
  xid ← uninitialised xid;
  lsn ← uninitialised lsn;
  Ok (xid, lsn, default PRESERVED_OID oid, from_option (λ v, negb (v =? 0)) true normal_shutdown).

(** A word that is no number is stored as 0; what comes after it stays as it was. *)
Example read_control_no_number :
  read_control "5 6 x 0" = Ok (5, 6, 0, true) ∧ read_control "5 6 7 x" = Ok (5, 6, 7, false) ∧
  read_control "5 6" = Ok (5, 6, PRESERVED_OID, true) ∧ read_control "5 x 7 0" = Ok (5, 0, PRESERVED_OID, true) ∧
  read_control "x" = Err (Undefined "uninitialised variable").
Proof. by vm_compute. Qed.

(** What was printed is read back, whatever follows after a space. *)
Lemma read_control_text xid lsn oid normal_shutdown rest : 0 <= xid < 2 ^ 32 → 0 <= lsn < 2 ^ 64 → 0 <= oid < 2 ^ 32 → separated rest →
  read_control (control_text xid lsn oid normal_shutdown +:+ rest) = Ok (xid, lsn, oid, normal_shutdown).
Proof.
  intros Hx Hl Ho Hr. unfold read_control, control_text. rewrite !string_app_assoc.
  assert (∀ r, isspace (Ascii.ascii_of_nat 32) = true → " " +:+ r = String (Ascii.ascii_of_nat 32) r) as Hspace by done.
  rewrite (proj1 (read_uint_printed 32 xid (" " +:+ _) Hx ltac:(done))).
  rewrite (Hspace (pretty lsn +:+ _)) by done. rewrite (proj2 (read_uint_printed 64 lsn (" " +:+ _) Hl ltac:(done))) by done.
  rewrite (Hspace (pretty oid +:+ _)) by done. rewrite (proj2 (read_uint_printed 32 oid (" " +:+ _) Ho ltac:(done))) by done.
  assert ((if normal_shutdown then "1" else "0") = pretty (if normal_shutdown then 1 else 0)) as -> by by destruct normal_shutdown.
  rewrite (Hspace (pretty _ +:+ _)) by done.
  rewrite (proj2 (read_uint_printed 63 (if normal_shutdown then 1 else 0) rest ltac:(by destruct normal_shutdown) Hr)) by done.
  by destruct normal_shutdown.
Qed.

Section Life.
Context `{MapOrder} `{Allocator} `{OidOrder} `{Ecma} `{StdSort} `{Fmt} (fuel : nat) (parse : string → res (list PGNode)).
#[local] Instance the_front_end : FrontEnd := system_front_end fuel parse.

(** The engine with its parts made and the catalog empty. *)
Definition made (disk : Disk) (directories : gset string) (xid lsn oid : Z) : Engine :=
  mkEngine "" (SystemCatalog_new oid directories)
    (mkSystem (mkPool (mkLogDisk (LogManager_new lsn) disk) BufferPool_new ∅ 0) (TransactionManager_new LockManager_new xid) ∅)
    ∅ ∅ ∅ ∅ FJ_NONE JO_NONE true false false.

(** [log_manager_->Recover()] *)
Definition Engine_Recover : M Engine unit :=
  e ← get;
  on_system (zoom (λ s, (sys_pool s, sys_tm s)) (λ wt s, mkSystem wt.1 wt.2 (sys_tables s))
    (let _ := fe_ops (en_catalog e) (sys_tables (en_sys e)) in Recover fuel)).

(** The constructor from the system tables on. *)
Definition start_up (normal_shutdown : bool) : M Engine unit :=
  e ← get;
  (if FileExists (fs_of (en_sys e)) INIT_NAME then on_catalog (LoadSystemTables fuel)
   else on_catalog (CreateSystemTables fuel) ;; on_catalog (on_fs (CreateFile INIT_NAME))) ;;
  modify (set_db DEFAULT_DATABASE_NAME) ;;
  if normal_shutdown then mret () else Engine_Recover.

(** The constructor, on the files and directories of the data directory; no engine
    when it fails before its parts are made. *)
Definition DatabaseEngine_new (fs : Fs) (directories : gset string) : res unit * option Engine :=
  match (disk ← Disk_new fs;
         match file_data (fs_ disk) CONTROL_NAME with
         | Some text =>
             '(xid, lsn, oid, normal_shutdown) ← read_control (String.string_of_list_byte text);
             Ok (disk, xid, lsn, oid, normal_shutdown, control_text xid lsn oid false +:+ newline)
         | None => Ok (disk, FIRST_XID, FIRST_LSN, PRESERVED_OID, true, control_text FIRST_XID FIRST_LSN PRESERVED_OID false)
         end) with
  | Err x => (Err x, None)
  | Ok (disk, xid, lsn, oid, normal_shutdown, text) =>
      let '(r, e) := start_up normal_shutdown (made (set_fs (write_text CONTROL_NAME text (fs_ disk)) disk) directories xid lsn oid) in
      (r, Some e)
  end.

Definition CloseDatabase : M Engine unit :=
  on_system (on_pool_of (BufferPool_Flush false)) ;;
  on_log LogManager_Flush ;;
  on_log (Checkpoint false) ;;
  e ← get;
  let text := control_text (next_xid_ (sys_tm (en_sys e))) (next_lsn_ (lg (po_wal (sys_pool (en_sys e)))))
                (GetNextOid (oid_manager_ (en_catalog e))) true in
  on_catalog (on_fs (write_text CONTROL_NAME text)).

(** The destructor, without an exception on its way. *)
Definition DatabaseEngine_delete : M Engine unit := e ← get; if crashed_ e then mret () else CloseDatabase.

(** [CloseDatabase] ends with the control file, from the numbers of the engine. *)
Lemma CloseDatabase_text e e' : CloseDatabase e = (Ok (), e') →
  file_data (fs_of (en_sys e')) CONTROL_NAME =
    Some (String.list_byte_of_string (control_text (next_xid_ (sys_tm (en_sys e'))) (next_lsn_ (lg (po_wal (sys_pool (en_sys e')))))
      (GetNextOid (oid_manager_ (en_catalog e'))) true)).
Proof.
  unfold CloseDatabase. intros Hrun. apply M_bind_Ok in Hrun as (? & e1 & _ & Hrun). apply M_bind_Ok in Hrun as (? & e2 & _ & Hrun).
  apply M_bind_Ok in Hrun as (? & e3 & _ & Hrun). rewrite get_step in Hrun.
  injection Hrun as <-. apply WriteFile_data.
Qed.

(** C9: The numbers survive a clean shutdown: a database that closes without an error
    and is opened again starts with the transaction id, LSN and object id it had,
    leaves in the control file that it is not closed, and does not recover. *)
Theorem close_then_open e e' disk :
  let fs := fs_of (en_sys e') in
  let xid := next_xid_ (sys_tm (en_sys e')) in
  let lsn := next_lsn_ (lg (po_wal (sys_pool (en_sys e')))) in
  let oid := GetNextOid (oid_manager_ (en_catalog e')) in
  CloseDatabase e = (Ok (), e') → FileExists fs LOG_NAME = true → Disk_new fs = Ok disk →
  0 <= xid < 2 ^ 32 → 0 <= lsn < 2 ^ 64 → 0 <= oid < 2 ^ 32 →
  fs_ disk = fs ∧
  DatabaseEngine_new fs (directories (en_catalog e')) =
    let '(r, e2) := start_up true
      (made (set_fs (write_text CONTROL_NAME (control_text xid lsn oid false +:+ newline) fs) disk)
        (directories (en_catalog e')) xid lsn oid) in (r, Some e2).
Proof.
  intros fs xid lsn oid Hrun Hlog Hdisk Hx Hl Ho.
  assert (fs_ disk = fs) as Hfs.
  { unfold Disk_new in Hdisk. apply bool_decide_eq_true in Hlog as [i Hi]. unfold file_data in Hdisk. rewrite Hi in Hdisk.
    cbn [fmap option_fmap option_map] in Hdisk. destruct (_ || _); [done|]. by injection Hdisk as <-. }
  split; [done|]. subst fs xid lsn oid. unfold DatabaseEngine_new. rewrite Hdisk. cbn [mbind res_bind]. rewrite Hfs.
  rewrite (CloseDatabase_text _ _ Hrun), String.string_of_list_byte_of_string.
  rewrite <- (string_app_nil (control_text _ _ _ true)), read_control_text by done. cbn [mbind res_bind]. by rewrite Hfs.
Qed.
End Life.
