(* ===== verification/Runs.v ===== *)
(** Runs of the whole program, from an empty data directory through the SQL
    statements to a crash and the recovery after it. The parse trees are those
    the parser makes of the texts. *)
From Stdlib Require Import Ascii.
From S2P Require Import Prelude Memory Types StringUtil Disk Value Bitmap Column Record TablePage Lru LogRecord LogManager BufferPool Storage LockManager TransactionManager Visibility Table TableScan Recovery Like Expressions Executor Pipeline OrderBy Join OidManager Schema Query SystemCatalog Select Plan Texts NodeTags Bound Binder Planner Optimizer Dml Statements Frames Engine Session Boot.

(** ** The texts of the runs *)

Definition ex_create (table : string) : PGNode :=
  PGRawStmt (PGCreateStmt table [PGColumnDef "x" [ex_string "pg_catalog"; ex_string "int4"] []]).
Definition ex_insert (table : string) (n : Z) : PGNode :=
  PGRawStmt (PGInsertStmt table [] (Some (PGSelectStmt [PGList [PGAConst (PGInteger n)]] [] false None [] [] None [] None None []))).
(** VALUES (1), ('abc') into a table of one integer column. *)
Definition ex_mixed : PGNode :=
  PGRawStmt (PGInsertStmt "a" [] (Some (PGSelectStmt [PGList [PGAConst (PGInteger 1)]; PGList [PGAConst (PGString "abc")]]
    [] false None [] [] None [] None None []))).
Definition ex_select (table : string) : PGNode :=
  PGRawStmt (PGSelectStmt [] [PGRangeVar table None] false None [PGResTarget None (Some (PGColumnRef [PGAStar]))] [] None [] None None []).
Definition ex_compare (op : string) (n : Z) : PGNode :=
  PGAExpr PG_AEXPR_OP [ex_string op] (Some (ex_column "x")) (Some (PGAConst (PGInteger n))).
Definition ex_between : PGNode :=
  PGRawStmt (PGSelectStmt [] [PGRangeVar "a" None] false (Some (PGBoolExpr PG_AND_EXPR [ex_compare ">" 1; ex_compare "<" 3]))
    [PGResTarget None (Some (PGColumnRef [PGAStar]))] [] None [] None None []).
Definition ex_texts (sql : string) : res (list PGNode) :=
  match sql with
  | "CREATE TABLE a (x int)" => Ok [ex_create "a"]
  | "CREATE TABLE b (x int)" => Ok [ex_create "b"]
  | "CREATE TABLE c (x int)" => Ok [ex_create "c"]
  | "CREATE TABLE d (x int)" => Ok [ex_create "d"]
  | "INSERT INTO a VALUES (1)" => Ok [ex_insert "a" 1]
  | "INSERT INTO a VALUES (2)" => Ok [ex_insert "a" 2]
  | "INSERT INTO a VALUES (3)" => Ok [ex_insert "a" 3]
  | "INSERT INTO a VALUES (1), ('abc')" => Ok [ex_mixed]
  | "SELECT * FROM a" => Ok [ex_select "a"]
  | "SELECT * FROM a WHERE x > 1 AND x < 3" => Ok [ex_between]
  | "CHECKPOINT" => Ok [PGRawStmt PGCheckPointStmt]
  | "ROLLBACK" => Ok [PGRawStmt (PGTransactionStmt PG_TRANS_STMT_ROLLBACK)]
  | "BEGIN" => Ok [PGRawStmt (PGTransactionStmt PG_TRANS_STMT_BEGIN)]
  | _ => Err (DbException "syntax error")
  end.

#[export] Instance ex_oid_order : OidOrder.
Proof. refine {| oid_order := elements |}. by intros. Defined.
#[local] Existing Instance ex_ecma.
#[local] Instance runs_sort : StdSort := insertion_sort.
#[local] Instance runs_fmt : Fmt := ex_fmt.
#[local] Instance runs_front_end : FrontEnd := system_front_end 40 ex_texts.

(** The values of the last answer. *)
Definition answer (output : Output) : list (list Union) :=
  match output with Records _ rows => (λ r, val_ <$> rvalues_ r) <$> rows | _ => [] end.
Fixpoint texts_run (connection : nat) (sqls : list string) (e : Engine) : res (list (list Union)) * Engine :=
  match sqls with
  | [] => (Ok [], e)
  | [sql] => let '(r, e) := ExecuteSql 40 connection sql e in (r ≫= λ outputs, Ok (from_option answer [] (last outputs)), e)
  | sql :: sqls =>
      match ExecuteSql 40 connection sql e with (Ok _, e) => texts_run connection sqls e | (Err x, e) => (Err x, e) end
  end.

(** Open a data directory, and run texts on an engine that could be made. *)
Definition opened (files : Fs * gset string) : res unit * option Engine := DatabaseEngine_new 40 ex_texts files.1 files.2.
Definition on_opened {A} (f : Engine → A) (o : res unit * option Engine) : option A :=
  match o with (Ok _, Some e) => Some (f e) | _ => None end.
Definition fresh : res unit * option Engine := opened (Fs_empty, ∅).
(** What a crash leaves: [DatabaseEngine::Crash], the destructor, and the files. *)
Definition crash (e : Engine) : Fs * gset string :=
  let e := (DatabaseEngine_delete 40 ex_texts (Engine_Crash e).2).2 in (fs_of (en_sys e), directories (en_catalog e)).
Definition table_oid (name : string) (e : Engine) : res Z := Engine.GetTableOid (en_catalog e) name.
Definition runs (connection : nat) (sqls : list string) (e : Engine) : Engine := (texts_run connection sqls e).2.
Definition flushed (e : Engine) : Engine := (Engine_Flush e).2.
(** A session in an empty directory that ends in a crash, and what is seen when
    the directory is opened again. *)
Definition after_crash {A} (session : Engine → Engine) (look : Engine → A) : option (res unit * option A) :=
  files ← on_opened (λ e, crash (session e)) fresh;
  let o := opened files in Some (o.1, on_opened look o).
Definition table_a (e : Engine) : res (list (list Union)) := (texts_run 1 ["SELECT * FROM a"] e).1.

(** ** Examples *)

(** Recovery, run from end to end: a row committed after the last flush, whose
    page never reached the disk, is there when the database is opened after a crash;
    the row of a transaction that was still open, logged before it, is not. *)
Example crash_recovery :
  after_crash (λ e,
    let e := flushed (runs 1 ["CREATE TABLE a (x int)"; "INSERT INTO a VALUES (1)"; "CHECKPOINT"] e) in
    let e := runs 2 ["BEGIN"; "INSERT INTO a VALUES (3)"] e in
    runs 1 ["INSERT INTO a VALUES (2)"] e) table_a
  = Some (Ok (), Some (Ok [[UInt 1]; [UInt 2]])).
Proof. by vm_compute. Qed.

(** What a crash loses. The object ids given in the session are forgotten: two new
    tables get the id of the database and that of the table [a], whose rows are gone.
    The first page of a table, made after the last flush, cannot be redone: the
    database does not open. Nor does it after a crash before the first flush, since
    the system tables are not on the disk while the file that says so is. *)
Example crash_losses :
  after_crash (λ e, flushed (runs 1 ["CREATE TABLE a (x int)"; "INSERT INTO a VALUES (1)"; "CHECKPOINT"] e))
    (λ e, let e' := runs 1 ["CREATE TABLE b (x int)"; "CREATE TABLE c (x int)"] e in
       (table_a e, table_oid "a" e', table_oid "b" e', table_oid "c" e', table_a (flushed e')))
  = Some (Ok (), Some (Ok [[UInt 1]], Ok 10001, Ok 10000, Ok 10001, Ok [])) ∧
  after_crash (λ e, runs 1 ["INSERT INTO a VALUES (1)"] (flushed (runs 1 ["CREATE TABLE a (x int)"; "CHECKPOINT"] e))) table_a
  = Some (Err (DbException "10000/10001 read page 0 failed: read 0 bytes, expected 256 bytes"), None) ∧
  after_crash id table_a
  = Some (Err (DbException ("Database " +:+ quote +:+ "huadb" +:+ quote +:+ " does not exist")), None).
Proof. split_and!; by vm_compute. Qed.

(** A rollback writes no log of what it undoes. When the pages it changed did not
    reach the disk, recovery repeats the insertion, finds the transaction ended, and
    leaves the row. *)
Definition ex_one_row (e : Engine) : Engine :=
  flushed (runs 1 ["CREATE TABLE a (x int)"; "INSERT INTO a VALUES (1)"; "CHECKPOINT"] e).
Example rolled_back_row_returns :
  after_crash (λ e, runs 1 ["BEGIN"; "INSERT INTO a VALUES (3)"; "ROLLBACK"] (ex_one_row e)) table_a
  = Some (Ok (), Some (Ok [[UInt 1]; [UInt 3]])).
Proof. by vm_compute. Qed.

(** The next transaction id is taken from the records after the checkpoint: when there
    are none, ids are given again. A transaction that is begun then has the id of the
    one that inserted the row, and hides it from the others. *)
Example transaction_ids_given_twice :
  after_crash ex_one_row (λ e, (table_a e, table_a (runs 2 ["BEGIN"] e))) = Some (Ok (), Some (Ok [[UInt 1]], Ok [])).
Proof. by vm_compute. Qed.

(** With the optimizer, which is on by default, [x > 1 AND x < 3] keeps the rows of
    [x < 3]; without it, those the condition asks for. *)
Definition ex_rows_1_2 (e : Engine) : Engine := runs 1 ["CREATE TABLE a (x int)"; "INSERT INTO a VALUES (1)"; "INSERT INTO a VALUES (2)"] e.
Example optimizer_drops_a_condition :
  on_opened (λ e, (texts_run 1 ["SELECT * FROM a WHERE x > 1 AND x < 3"] (ex_rows_1_2 e)).1) fresh = Some (Ok [[UInt 1]; [UInt 2]]) ∧
  on_opened (λ e, (texts_run 1 ["SELECT * FROM a WHERE x > 1 AND x < 3"] (set_options FJ_NONE JO_NONE false false (ex_rows_1_2 e))).1) fresh
    = Some (Ok [[UInt 2]]).
Proof. split; by vm_compute. Qed.

(** Only the first row of a VALUES list is checked: the string is stored in a column
    of integers, and its length and first two bytes are read as a number. *)
Example mixed_values_stored :
  on_opened (λ e, let '(r, e) := texts_run 1 ["CREATE TABLE a (x int)"; "INSERT INTO a VALUES (1), ('abc')"] e in
    (r, table_a e)) fresh = Some (Ok [[UUint 2]], Ok [[UInt 1]; [UInt 1650524163]]).
Proof. vm_compute. reflexivity. Qed.

(** ** The witness *)

(** The first session, closed cleanly after an INSERT. *)
Definition ex_last : Engine :=
  runs 1 ["CREATE TABLE a (x int)"; "INSERT INTO a VALUES (1)"] (default (made 40 ex_texts (mkDisk Fs_empty ∅ (mkStream None false) 0 0) ∅ 0 0 0) fresh.2).
Definition ex_closed : Engine := (CloseDatabase 40 ex_texts ex_last).2.
Lemma is_ok_Ok {A} (r : res A) : is_ok r = true → ∃ a, r = Ok a.
Proof. destruct r; [by eexists|done]. Qed.
Lemma run_Ok {S} (m : M S unit) s : (m s).1 = Ok () → m s = (Ok (), (m s).2).
Proof. destruct (m s) as [r s']. cbn. by intros ->. Qed.
Lemma between {x y a b : Z} : x = y → a <= y < b → a <= x < b.
Proof. by intros ->. Qed.
Lemma close_then_open_witness : ∃ disk,
  let fs := fs_of (en_sys ex_closed) in
  let xid := next_xid_ (sys_tm (en_sys ex_closed)) in
  let lsn := next_lsn_ (lg (po_wal (sys_pool (en_sys ex_closed)))) in
  let oid := GetNextOid (oid_manager_ (en_catalog ex_closed)) in
  (xid = 3 ∧ oid = 10002) ∧
  fs_ disk = fs ∧
  opened (fs, directories (en_catalog ex_closed)) =
    let '(r, e) := start_up 40 ex_texts true
      (made 40 ex_texts (set_fs (write_text CONTROL_NAME (control_text xid lsn oid false +:+ newline) fs) disk)
        (directories (en_catalog ex_closed)) xid lsn oid) in (r, Some e).
Proof.
  assert (is_ok (Disk_new (fs_of (en_sys ex_closed))) = true) as Hd by (vm_compute; reflexivity).
  assert (FileExists (fs_of (en_sys ex_closed)) LOG_NAME = true) as Hlog by (vm_compute; reflexivity).
  assert (next_xid_ (sys_tm (en_sys ex_closed)) = 3) as Hx by (vm_compute; reflexivity).
  assert (next_lsn_ (lg (po_wal (sys_pool (en_sys ex_closed)))) = 164) as Hl by (vm_compute; reflexivity).
  assert (GetNextOid (oid_manager_ (en_catalog ex_closed)) = 10002) as Ho by (vm_compute; reflexivity).
  assert ((CloseDatabase 40 ex_texts ex_last).1 = Ok ()) as Hr by (vm_compute; reflexivity).
  destruct (is_ok_Ok _ Hd) as [disk Hdisk]. exists disk. cbv zeta. split; [exact (conj Hx Ho)|].
  assert (0 <= 3 < 2 ^ 32 ∧ 0 <= 164 < 2 ^ 64 ∧ 0 <= 10002 < 2 ^ 32) as (Rx & Rl & Ro) by lia.
  exact (close_then_open 40 ex_texts ex_last ex_closed disk (run_Ok _ _ Hr) Hlog Hdisk
    (between Hx Rx) (between Hl Rl) (between Ho Ro)).
Defined.
